(* ===== verification/_CoqProject ===== *)
-Q . S2P
Prelude.v
GoStrings.v
FilePath.v
Action.v
Json.v
GoText.v
Panel.v
Conf.v
ConfProps.v
Limiter.v
LimiterProps.v
LimiterSteps.v
LimiterStepsProps.v
LimiterRaceProps.v
LimiterOnlineProps.v
Inbound.v
Task.v
TaskProps.v
Links.v
Traffic.v
TrafficProps.v
Core.v
CoreProps.v
EdgeSidecar.v
UserSync.v
UserSyncProps.v
Realtime.v
Certs.v
EdgeTraffic.v
EdgeTrafficProps.v
Report.v
ReportProps.v
Machine.v
MachineProps.v
Lifecycle.v
LifecycleProps.v
StartProps.v
RealtimeProps.v
PanelClient.v
PanelClientProps.v
MachineProfiles.v
MachineProfilesProps.v
Server.v
ServerProps.v
PortForward.v
PortForwardProps.v
Iptables.v
IptablesProps.v
CustomRouting.v
CoreBuild.v
Dispatcher.v
DispatcherProps.v
CustomRoutingProps.v
CoreBuildProps.v
UrlEscape.v
Subproxy.v
SubproxyManager.v
SubproxyProps.v
UrlForm.v
EdgeClient.v
EdgeClientProps.v
SystemSampler.v
SystemSamplerProps.v
SelfUpdate.v
SelfUpdateProps.v
MachineStatus.v
MachineStatusProps.v
RuntimeSettings.v
Health.v
HealthProps.v
Lego.v
LegoProps.v
RealtimeClient.v
RealtimeClientProps.v
Rules.v
RulesProps.v
FakeDNS.v
FakeDNSProps.v
Services.v
ServicesProps.v
