(* ===== verification/Prelude.v ===== *)
(** * Verification library for kelinode (v2node)

    kelinode is the agent that runs on a proxy server. It asks a control panel
    for its nodes and their users, builds an Xray core from them, limits and counts
    the traffic of each user, reports it, and keeps all of this in step with the
    panel while connections come and go. This library models the program's own
    logic as Rocq definitions, one file per part, and proves what makes each part
    correct. A file [X.v] holds definitions and the lemmas that are part of their
    interface; [XProps.v] holds the theorems about them and the concrete runs at
    which their hypotheses hold ([Module Examples]).

    ** Conventions

    - Go integers are [Z]; where the code can overflow, the wrap-around
      ([wrap64]) or the saturation is written out, and the bounds are theorems or
      explicit hypotheses ([i64]).
    - Strings are Coq strings read as bytes (GoStrings.v has the functions of
      package strings, FilePath.v those of path/filepath, GoText.v fields, lines
      and numbers, UrlForm.v and UrlEscape.v the encodings of net/url); a nil
      slice or map is
      [None] where the code tells it from an empty one.
    - Maps are [gmap]; ranging over a map goes in the order of a [RangeOrder], any
      enumeration of the map, so that no theorem depends on Go's order.
    - Errors are [result]; a call that does not return, because it panics or waits
      for ever, is [None] of the outer option. Action.v is the state monad with both
      that the life of a controller is written in. Where the two ends differ for what
      comes later, they are values of their own ([MachineStatus.Returns],
      [Services.Outcome]). Whether the goroutines of a realtime client come to their
      end, for which closing it waits, is an input ([clientEnds], [clientsEnd]);
      RealtimeClientProps.v shows when they do.
    - Objects that are shared (traffic storages, links, controllers) live in a
      store and are known by numbers, so that aliasing is in the model.
    - Code that is not in the repository (Xray, iptables, viper, the replies of the
      panel, the edge agent, the ACME authority, key generation, what the operating
      system reports) is a type class or a record of answers; what is relied on is stated as the
      laws of a second class and proved for an example instance.
    - What other goroutines do during an operation is an argument of it: a list of
      arrivals, events or rounds. Recursion is structural, on such lists or on the
      data; fuel is used in [Iptables.deleteJumps], for a loop that the code ends
      by the deadline of its context (None when it was not reached), in
      [PortForward.chunkMatchers], where the number of ports is enough because
      each round takes one at least, and in [Inbound.formatBase36], where 13
      digits are enough for 64 bits.

    ** Parts

    Users and limits.
    - Limiter.v (limiter/): the device, address and speed limits of a connection
      ([CheckLimit]), the online report and its commitment. LimiterProps.v: the
      admitted devices stay within the limit, exactly when a connection is
      rejected, and every history of operations refines a table of users.
    - LimiterSteps.v (limiter/limiter.go): the same check and commitment as sequences
      of steps on shared maps, which interleave as a schedule says.
      LimiterStepsProps.v: run alone they are the operations of Limiter.v.
      LimiterRaceProps.v: users do not disturb each other.
      LimiterOnlineProps.v: what is listed was let in, and the schedules on which
      the device limit does not hold.
    - UserSync.v (node/user.go, user_delta.go, user_sync_state.go, task.go): lists,
      deltas and the synchronisation of controller, limiter and core.
      UserSyncProps.v: after a synchronisation all three hold the panel's table.
    - Panel.v, Json.v (api/v2board): the data of the panel.
    - PanelClient.v (api/v2board, node/controlplane_panel_adapter.go): the client
      with its etags and hashes, the adapter that finds out what the panel
      supports, and the reports. PanelClientProps.v: a node that is returned can
      be started, a configuration is returned once, the report is exact.

    Traffic.
    - Traffic.v (common/counter, part of core/user.go): counters, slices and their
      rollback, against bytes that are counted in between. TrafficProps.v: every
      byte of a user of the node is accepted by the panel or still counted.
    - EdgeTraffic.v (node/edge_traffic.go): what the edge agent counted.
    - EdgeClient.v (agent/edge/client.go, cmd/edge.go): the client of that agent, which
      implements the interfaces of EdgeTraffic.v and EdgeSidecar.v.
      EdgeClientProps.v: the form of a sidecar is its specification, and what is
      drained is reported or given back, once, up to the first record that the
      agent does not take.
    - Report.v (node/user.go): the report task, with all that happens while it
      waits. ReportProps.v: it conserves bytes, but for the records of the edge
      agent that are not taken back, and commits the devices that the panel
      accepted.

    The core and its connections.
    - Inbound.v (core/inbound.go, outbound.go), CustomRouting.v (core/custom.go): the
      configuration of Xray. CustomRoutingProps.v: rules lead somewhere and stay
      with their node.
    - CoreBuild.v (core/core.go): the configuration of the instance and starting it.
      CoreBuildProps.v: a core takes over what it started, with its users.
    - Core.v (core/core.go, node.go, user.go): nodes and users of the core.
      CoreProps.v: users refine a table, a deleted user leaves nothing, and the
      users that an inbound configures itself are not mistaken for users of the
      panel.
    - Links.v, Dispatcher.v (core/app/dispatcher): link managers; admission,
      counting, sniffing and routing of a connection. FakeDNS.v: the sniffers and
      what a fake DNS engine changes. DispatcherProps.v: what an
      admitted or rejected connection leaves, that deleting a user shuts its
      connections when they were admitted one after another, with links that
      arrive meanwhile, and that sniffing ends and keeps the stream.

    Nodes and machines.
    - Task.v (common/task/task.go): the periodic task as a step relation.
      TaskProps.v: no panic and no two executions at once, quiet after Close.
    - Lifecycle.v (node/controller.go, task.go, the registry of limiter.go): a
      controller from preparation to its end. Certs.v: the files of its
      certificate. Lego.v (node/lego.go) implements the interface of Certs.v with
      an account and certificates of an authority on a disk that can fail;
      LegoProps.v: an account is registered once, a certificate asked for once
      and replaced, with its key, when less than 31 days are left. LifecycleProps.v proves the interface [ControllerLaws] of
      Machine.v for it, StartProps.v what starting, replacing and closing promise.
    - Machine.v (node/node.go, machine.go, info_fetch.go): the nodes of a machine,
      created, reconciled and closed, against the interface [ControllerOps].
      MachineProps.v: what runs is what is listed, reconciling converges and gives
      what building from scratch gives.
    - MachineProfiles.v (node/machine_profiles.go): profiles resolved into nodes.
    - Realtime.v (node/realtime.go, machine_realtime.go): the options, queues and
      workers of the connection to the panel. RealtimeProps.v: on every schedule
      the messages are answered in order, and each is answered. RealtimeClient.v:
      the loop that dials, serves and dials again, as a step relation over what
      the network and the owner do. RealtimeClientProps.v: one connection at a
      time, nothing written or delivered twice, and what Close waits for.
    - EdgeSidecar.v (node/edge_sidecar.go): the processes beside the core.
    - Subproxy.v, SubproxyManager.v (agent/subproxy/manager.go): the proxy for
      subscription links, its certificates, and the manager of its servers;
      UrlEscape.v has the encoding of paths. Launching a server, its binding of the
      address, its failing and the report of that are steps of their own.
      SubproxyProps.v: subscriptions pass whole, and after [Apply] the server of the
      configuration is the one that will listen, and alone unless a failure was
      reported late.
    - PortForward.v, Iptables.v (node/port_forward.go, port_forward_status.go): the
      redirections of port hopping and putting them in place. Their properties:
      redirections are unambiguous and complete, and a repair is effective.
      Rules.v (cmd/rules.go): the commands that show, repair and remove them.
      RulesProps.v: what they leave in the tables.

    The process.
    - Conf.v (conf/): the configuration file in both formats. ConfProps.v: what is
      loaded is valid and normalised.
    - Server.v (cmd/server.go): the main loop with reloads. ServerProps.v: what runs
      after a reload, and that a broken file ends the process.
    - MachineStatus.v (cmd/machine_status.go, machine_realtime.go): the reporter of the
      machine's status and the realtime connections, of which there is one for
      the configuration, and a round of reports. SystemSampler.v
      (cmd/machine_system.go): what is reported; its bounds are theorems.
    - SelfUpdate.v (cmd/self_update.go): upgrades that a panel asks for.
      SelfUpdateProps.v reads the command with the quoting rules of the shell.
    - RuntimeSettings.v, Health.v (cmd/runtime.go, health.go): the limits of the runtime
      and the health port; HealthProps.v: they follow the configuration.
    - Services.v (cmd/server.go): the loop of Server.v together with these services.
      ServicesProps.v: in every state of the loop nodes, services and health
      belong to one configuration, and the end of the process leaves none, or
      hangs at the realtime clients of the machine.

    ** Behaviour that the theorems show and that looks unintended

    Lockout after a dynamic limit expires ([CheckLimit_expiry_lockout]);
    simultaneous connections that are all let in ([race_admits_all]), devices
    that a rejected call or a report forgets ([rejected_forgets],
    [reported_forgets]) and that count nowhere during a report
    ([report_window]); a
    rejected connection drops a pending device
    ([CheckLimit_udp_reject_drops_pending]); a failed synchronisation is not
    repeated ([sync_failure_sticks]); stale controllers after a failed
    reconciliation ([reconcile_error_stale]); a restarted task stopped by its old
    loop ([restart_lost]); error pages taken for configurations
    ([error_reply_reloads]); shared nodes of two machines ([shared_node_refused]);
    racing first connections ([first_links_race]); sniffers given up early
    ([needMore_lost]); custom outbounds that do not build
    ([unbuilt_outbound_shuts]); broken files ([broken_file_crashes]); a server of
    challenges that is forgotten ([failure_leaks]); a server of subscriptions that is
    forgotten because of an older one ([stale_failure_survives_close]), and one that
    is said to run before it has its address ([running_unbound]); tokens that are encoded twice
    ([upstream_token]); a changed timeout that the reporter does not notice
    ([status_timeout_stale]); limits of the runtime that are not restored
    ([limit_not_restored]); certificates with placeholders in their names
    ([placeholder_reissued]), damaged ones ([RenewCert_exact]), and those whose key
    could not be written ([failed_key_sticks]); account files without a key
    ([empty_account_panics]); a Close that waits for the panel
    ([close_waits_for_panel]), and with it the end of the process ([signal_hangs]); a
    sniffer that is never asked ([sniffer_fakedns]).

    ** Not modelled

    Pure input and output: the sockets, HTTP, websocket and ACME connections
    themselves (their answers are inputs), log messages, signals, flags and the
    registration of commands (main.go, cmd/cmd.go), the texts of times. Key
    generation and the formats of keys are an interface, the token buckets of
    common/rate are those of a library. Percentages and rates are exact where
    the program rounds them to a float. The protocol sniffers, pipes and
    transports are Xray's. Interleavings inside the checks and reports of the
    limiter, traffic counting, link closing and reporting are modelled; the other
    operations of the limiter, which tasks of the controller call, are one step
    each. Left out as well are the settings of HTTP clients (dial and idle
    timeouts), log levels, and functions that only log and call another.
    common/crypt, common/exec and common/systime are not used by the program;
    tools/quicbaseline is a benchmark, core/distro a list of imports, and
    core/app/dispatcher/config.pb.go is generated. *)

From stdpp Require Export base gmap strings list fin_maps sorting.
From Stdlib Require Export ZArith Lia.

#[global] Open Scope Z_scope.

(** ** Machine integers

    Go's [int] and [int64] are 64-bit two's complement on every platform the
    program is released for; arithmetic wraps silently. *)

Definition max_int64 : Z := 2 ^ 63 - 1.

Definition max_uint64 : Z := 2 ^ 64 - 1.

Definition max_int32 : Z := 2 ^ 31 - 1.

(** The value range of [int64]. *)
Definition i64 (z : Z) : Prop := - 2 ^ 63 <= z < 2 ^ 63.

(** The value range of [uint64]. *)
Definition u64 (z : Z) : Prop := 0 <= z < 2 ^ 64.

#[global] Instance i64_dec z : Decision (i64 z).
Proof. unfold i64. apply _. Defined.

#[global] Instance u64_dec z : Decision (u64 z).
Proof. unfold u64. apply _. Defined.

(** The [int64] a mathematical integer wraps around to. *)
Definition wrap64 (z : Z) : Z := (z + 2 ^ 63) mod 2 ^ 64 - 2 ^ 63.

(** The [int32] a mathematical integer is converted to. *)
Definition wrap32 (z : Z) : Z := (z + 2 ^ 31) mod 2 ^ 32 - 2 ^ 31.

(** The [uint64] a mathematical integer wraps around to. *)
Definition wrapu64 (z : Z) : Z := z mod 2 ^ 64.

(** ** Errors

    A Go [error] is its message and the sentinel that [errors.Is] finds in its
    chain of wrapped errors, if any. *)

Inductive Sentinel :=
| SentinelCanceled            (* context.Canceled *)
| SentinelDeadlineExceeded    (* context.DeadlineExceeded *)
| SentinelUserDeltaNotSupported
| SentinelUnifiedReportUnsupported.

#[global] Instance Sentinel_eq_dec : EqDecision Sentinel.
Proof. solve_decision. Defined.

Record GoError := mkError { err_msg : string; err_is : option Sentinel }.

#[global] Instance GoError_eq_dec : EqDecision GoError.
Proof. solve_decision. Defined.

(** [errors.New(msg)], and [fmt.Errorf] without a [%w] verb. *)
Definition errorf (msg : string) : GoError := mkError msg None.

(** [fmt.Errorf("...%w", err)]: the message changes, the chain is kept. *)
Definition wrapErr (msg : string) (e : GoError) : GoError := mkError msg (err_is e).

(** [errors.Is(err, sentinel)]. *)
Definition errorsIs (e : GoError) (s : Sentinel) : bool :=
  bool_decide (err_is e = Some s).

(** A Go function with results [(A, error)]: either the value or the error. *)
Inductive result (A : Type) :=
| Ok (a : A)
| Err (e : GoError).
Arguments Ok {A} a.
Arguments Err {A} e.

Definition result_bind {A B} (r : result A) (k : A → result B) : result B :=
  match r with
  | Ok a => k a
  | Err e => Err e
  end.

Declare Scope go_scope.
Delimit Scope go_scope with go.
Notation "x ←? r ; k" := (result_bind r (λ x, k))
  (at level 100, r at next level, k at level 200, right associativity) : go_scope.

(** ** Iteration over Go maps

    The order in which Go ranges over a map (or a [sync.Map]) is unspecified.
    A definition that ranges over a map takes the order from this interface,
    whose only law is that every entry is visited exactly once; the theorems
    hold for every order. *)
Class RangeOrder (K : Type) `{Countable K} := {
  range_list : ∀ {V : Type}, gmap K V → list (K * V);
  range_list_perm : ∀ {V : Type} (m : gmap K V), range_list m ≡ₚ map_to_list m
}.

(** The order in which stdpp enumerates a map, used to evaluate examples. *)
Definition canonical_order (K : Type) `{Countable K} : RangeOrder K :=
  {| range_list V m := map_to_list m; range_list_perm V m := reflexivity _ |}.

(** The loop that counts the entries of a map that satisfy [p]. *)
Definition rangeCount {K V} `{RangeOrder K} (p : K * V → bool) (m : gmap K V) : Z :=
  foldl (λ count entry, if p entry then count + 1 else count) 0 (range_list m).

(** ** Tactics *)

(** Splits conjunctions and existentials in the context and cleans up. *)
Ltac inv_all :=
  repeat match goal with
  | H : ∃ _, _ |- _ => destruct H
  | H : _ ∧ _ |- _ => destruct H
  | H : Ok _ = Ok _ |- _ => injection H as H
  | H : Err _ = Err _ |- _ => injection H as H
  | H : Ok _ = Err _ |- _ => discriminate H
  | H : Err _ = Ok _ |- _ => discriminate H
  | H : Some _ = Some _ |- _ => injection H as H
  | H : (_, _) = (_, _) |- _ => injection H as H
  end; simplify_eq/=.

(** Case analysis on the innermost match or test of the goal. *)
Ltac case_goal :=
  match goal with
  | |- context [if ?b then _ else _] =>
      lazymatch b with
      | context [if _ then _ else _] => fail
      | context [match _ with _ => _ end] => fail
      | _ => destruct b eqn:?
      end
  | |- context [match ?x with _ => _ end] =>
      lazymatch x with
      | context [if _ then _ else _] => fail
      | context [match _ with _ => _ end] => fail
      | _ => destruct x eqn:?
      end
  end.

(** Turns the boolean tests of the source in the context into propositions. *)
Ltac bool_to_prop :=
  repeat match goal with
  | H : (_ && _)%bool = true |- _ => apply andb_true_iff in H; destruct H
  | H : (_ && _)%bool = false |- _ => apply andb_false_iff in H
  | H : (_ || _)%bool = true |- _ => apply orb_true_iff in H
  | H : (_ || _)%bool = false |- _ => apply orb_false_iff in H; destruct H
  | H : negb _ = true |- _ => apply negb_true_iff in H
  | H : negb _ = false |- _ => apply negb_false_iff in H
  | H : (_ <? _) = true |- _ => apply Z.ltb_lt in H
  | H : (_ <? _) = false |- _ => apply Z.ltb_ge in H
  | H : (_ <=? _) = true |- _ => apply Z.leb_le in H
  | H : (_ <=? _) = false |- _ => apply Z.leb_gt in H
  | H : (_ =? _) = true |- _ => apply Z.eqb_eq in H
  | H : (_ =? _) = false |- _ => apply Z.eqb_neq in H
  | H : bool_decide _ = true |- _ => apply bool_decide_eq_true in H
  | H : bool_decide _ = false |- _ => apply bool_decide_eq_false in H
  end.

(** ** Lemmas on machine integers *)

Lemma wrap64_id z : i64 z → wrap64 z = z.
Proof. unfold i64, wrap64. intros ?. rewrite Z.mod_small; lia. Qed.

Lemma wrap64_range z : i64 (wrap64 z).
Proof. unfold i64, wrap64. pose proof (Z.mod_pos_bound (z + 2^63) (2^64)). lia. Qed.

Lemma wrap64_eqm z : wrap64 z mod 2 ^ 64 = z mod 2 ^ 64.
Proof.
  unfold wrap64. rewrite Zminus_mod_idemp_l. f_equal. lia.
Qed.

Lemma wrap64_proper a b : a mod 2 ^ 64 = b mod 2 ^ 64 → wrap64 a = wrap64 b.
Proof.
  intros Hab. unfold wrap64. f_equal.
  by rewrite <- (Zplus_mod_idemp_l a), Hab, Zplus_mod_idemp_l.
Qed.

Lemma wrap64_add_l a b : wrap64 (wrap64 a + b) = wrap64 (a + b).
Proof.
  apply wrap64_proper. rewrite <- Zplus_mod_idemp_l, wrap64_eqm. apply Zplus_mod_idemp_l.
Qed.

Lemma wrap64_add_r a b : wrap64 (a + wrap64 b) = wrap64 (a + b).
Proof. by rewrite Z.add_comm, wrap64_add_l, Z.add_comm. Qed.

Lemma wrap64_wrap64 z : wrap64 (wrap64 z) = wrap64 z.
Proof. apply wrap64_id, wrap64_range. Qed.

Lemma wrap32_id z : - 2 ^ 31 <= z < 2 ^ 31 → wrap32 z = z.
Proof. unfold wrap32. intros ?. rewrite Z.mod_small; lia. Qed.

Create HintDb golib.
Create Rewrite HintDb golib.
#[export] Hint Resolve wrap64_range : golib.
#[export] Hint Rewrite wrap64_add_l wrap64_add_r wrap64_wrap64 : golib.

(** ** Lemmas on map iteration *)

Section range.
Context {K : Type} `{RangeOrder K} {V : Type}.
Implicit Types m : gmap K V.

Lemma elem_of_range_list m k v : (k, v) ∈ range_list m ↔ m !! k = Some v.
Proof. by rewrite range_list_perm, elem_of_map_to_list. Qed.

Lemma NoDup_range_list m : NoDup (range_list m).*1.
Proof. rewrite range_list_perm. apply NoDup_fst_map_to_list. Qed.

Lemma length_range_list m : length (range_list m) = size m.
Proof. rewrite range_list_perm. apply length_map_to_list. Qed.

Lemma list_to_map_range_list m : list_to_map (range_list m) = m.
Proof.
  rewrite <- (list_to_map_to_list m) at 2.
  apply list_to_map_proper; [apply NoDup_range_list | apply range_list_perm].
Qed.

Lemma range_list_empty : range_list (∅ : gmap K V) = [].
Proof. apply Permutation_nil_r. by rewrite range_list_perm, map_to_list_empty. Qed.
End range.

(** The count does not depend on the iteration order. *)
Lemma foldl_count {A} (p : A → bool) (l : list A) (n : Z) :
  foldl (λ count a, if p a then count + 1 else count) n l
  = n + Z.of_nat (length (filter (λ a, p a = true) l)).
Proof.
  revert n. induction l as [|a l IH]; intros n; simpl; [lia|].
  rewrite IH. destruct (p a) eqn:E.
  - rewrite filter_cons_True by done. simpl. lia.
  - rewrite filter_cons_False by (by rewrite E). done.
Qed.

Section range_count.
Context {K : Type} `{RangeOrder K} {V : Type}.
Implicit Types (m : gmap K V) (p : K * V → bool).

Lemma rangeCount_size p m :
  rangeCount p m = Z.of_nat (size (filter (λ e, p e = true) m)).
Proof.
  unfold rangeCount. rewrite foldl_count, Z.add_0_l. f_equal.
  rewrite <- length_map_to_list, map_filter_alt, map_to_list_to_map.
  - apply Permutation_length, filter_Permutation, range_list_perm.
  - apply (sublist_NoDup _ (map_to_list m).*1); [apply NoDup_fst_map_to_list |].
    apply fmap_sublist, sublist_filter.
Qed.

Lemma rangeCount_nonneg p m : 0 <= rangeCount p m.
Proof. rewrite rangeCount_size. lia. Qed.

Lemma rangeCount_le_size p m : rangeCount p m <= Z.of_nat (size m).
Proof. rewrite rangeCount_size. pose proof (map_size_filter (λ e, p e = true) m). lia. Qed.

Lemma rangeCount_empty p : rangeCount p (∅ : gmap K V) = 0.
Proof. unfold rangeCount. by rewrite range_list_empty. Qed.

Lemma rangeCount_insert_new p m k v :
  m !! k = None →
  rangeCount p (<[k:=v]> m) = rangeCount p m + (if p (k, v) then 1 else 0).
Proof.
  intros Hk. rewrite !rangeCount_size. destruct (p (k, v)) eqn:E.
  - rewrite map_filter_insert_True by done. rewrite map_size_insert_None; [lia|].
    by apply map_lookup_filter_None_2; left.
  - rewrite map_filter_insert_False by (by rewrite E). rewrite delete_id by done. lia.
Qed.

Lemma rangeCount_delete p m k v :
  m !! k = Some v → rangeCount p (delete k m) = rangeCount p m - (if p (k, v) then 1 else 0).
Proof.
  intros Hk. rewrite <- (insert_delete_id m k v) at 2 by done.
  rewrite rangeCount_insert_new by apply lookup_delete_eq. lia.
Qed.

Lemma rangeCount_ext p q m :
  (∀ k v, m !! k = Some v → p (k, v) = q (k, v)) → rangeCount p m = rangeCount q m.
Proof.
  intros Hpq. rewrite !rangeCount_size. f_equal. f_equal. apply map_filter_ext.
  intros k v Hk. by rewrite (Hpq k v Hk).
Qed.
End range_count.

(** ** Lemmas on folds *)

(** An invariant of the loop body is an invariant of the loop. *)
Lemma foldl_invariant {A B} (P : A → Prop) (f : A → B → A) (l : list B) (a : A) :
  P a → (∀ a b, b ∈ l → P a → P (f a b)) → P (foldl f a l).
Proof.
  revert a. induction l as [|b l IH]; intros a Ha Hf; simpl; [done|].
  apply IH; [apply Hf; [left|done] |]. intros; apply Hf; [by right|done].
Qed.

Lemma list_filter_ext_in {A} (P Q : A → Prop) `{∀ x, Decision (P x), ∀ x, Decision (Q x)} (l : list A) :
  (∀ x, x ∈ l → P x ↔ Q x) → filter P l = filter Q l.
Proof.
  induction l as [|a l IH]; intros HPQ; [done|].
  assert (IHl : filter P l = filter Q l) by (apply IH; intros; apply HPQ; by right).
  pose proof (HPQ a ltac:(left)) as Ha. destruct (decide (P a)).
  - rewrite !filter_cons_True by tauto. by rewrite IHl.
  - rewrite !filter_cons_False by tauto. done.
Qed.

Lemma list_filter_none {A} (P : A → Prop) `{∀ x, Decision (P x)} (l : list A) :
  (∀ x, x ∈ l → ¬ P x) → filter P l = [].
Proof.
  induction l as [|a l IH]; intros HP; [done|].
  rewrite filter_cons_False by (apply HP; left). apply IH. intros. apply HP. by right.
Qed.

Lemma List_filter_none {A} (p : A → bool) (l : list A) : (∀ x, x ∈ l → p x = false) → List.filter p l = [].
Proof.
  induction l as [|a l IH]; intros Hp; [done|]. cbn. rewrite Hp by left. apply IH. intros. apply Hp. by right.
Qed.

(** The keys of a map that a loop fills. *)
Lemma foldl_insert_is_Some {A V} `{Countable K} (key : A → K) (val : A → V) (l : list A) (m : gmap K V) k :
  is_Some (foldl (λ m x, <[key x := val x]> m) m l !! k) ↔ is_Some (m !! k) ∨ ∃ x, x ∈ l ∧ k = key x.
Proof.
  revert m. induction l as [|x l IH]; intros m; cbn.
  { split; [by left|]. intros [?|(x & Hx & _)]; [done|]. by apply elem_of_nil in Hx. }
  rewrite IH, lookup_insert_is_Some'. setoid_rewrite elem_of_cons. split.
  - intros [[<-|?]|(y & ? & ->)]; [right; exists x|left|right; exists y]; auto.
  - intros [Hm|(y & [->|Hy] & ->)]; [left; by right|left; by left|right; by exists y].
Qed.

Lemma list_lookup_alter_Some {A} (f : A → A) (l : list A) i j x :
  alter f i l !! j = Some x ↔ (i = j ∧ ∃ y, l !! i = Some y ∧ x = f y) ∨ (i ≠ j ∧ l !! j = Some x).
Proof.
  rewrite list_lookup_alter. case_decide as Hij.
  - rewrite fmap_Some. naive_solver.
  - naive_solver.
Qed.

Lemma foldl_snoc {A B} (f : A → B → A) (a : A) (l : list B) (b : B) :
  foldl f a (l ++ [b]) = f (foldl f a l) b.
Proof. by rewrite foldl_app. Qed.
