(* ===== verification/GoStrings.v ===== *)
(** * The parts of Go's strings and strconv packages the program uses

    A Go string is a sequence of bytes; it is modelled by stdpp's [string].
    Functions that decode UTF-8 in Go ([TrimSpace]) are modelled on the byte
    encodings of the code points they look for. *)

From Stdlib Require Import Ascii DecimalString DecimalN.
From S2P Require Import Prelude.

Module GoStrings.

(** Conversions between strings and lists of bytes. *)
Definition bytes (s : string) : list ascii := String.list_ascii_of_string s.

Definition of_bytes (l : list ascii) : string := String.string_of_list_ascii l.

(** ** Prefixes, suffixes, membership *)

(** [strings.HasPrefix(s, p)] *)
Fixpoint HasPrefix (s p : string) : bool :=
  match p, s with
  | EmptyString, _ => true
  | String a p', String b s' => if Ascii.eqb a b then HasPrefix s' p' else false
  | String _ _, EmptyString => false
  end.

(** [strings.TrimPrefix(s, p)] *)
Fixpoint dropBytes (n : nat) (s : string) : string :=
  match n, s with
  | O, _ => s
  | S n', String _ s' => dropBytes n' s'
  | S _, EmptyString => EmptyString
  end.

Definition TrimPrefix (s p : string) : string :=
  if HasPrefix s p then dropBytes (String.length p) s else s.

(** [strings.Contains(s, sub)] *)
Fixpoint Contains (s sub : string) : bool :=
  if HasPrefix s sub then true
  else match s with
       | EmptyString => false
       | String _ s' => Contains s' sub
       end.

(** Whether a byte that satisfies [p] occurs in [s]; [strings.ContainsAny]
    for a set of ASCII characters. *)
Definition ContainsByte (p : ascii → bool) (s : string) : bool :=
  existsb p (bytes s).

(** ** Splitting and joining *)

(** [strings.Split(s, sep)] for a separator of one byte. *)
Fixpoint split_bytes (sep : ascii) (cur : list ascii) (l : list ascii) : list (list ascii) :=
  match l with
  | [] => [rev cur]
  | a :: l' => if Ascii.eqb a sep then rev cur :: split_bytes sep [] l'
               else split_bytes sep (a :: cur) l'
  end.

Definition Split (sep : ascii) (s : string) : list string :=
  of_bytes <$> split_bytes sep [] (bytes s).

(** [strings.Join(l, sep)] *)
Fixpoint Join (sep : string) (l : list string) : string :=
  match l with
  | [] => ""
  | [s] => s
  | s :: l' => s +:+ sep +:+ Join sep l'
  end.

(** [strings.FieldsFunc(s, p)] for a predicate on ASCII characters: the
    maximal runs of bytes that do not satisfy [p]. *)
Definition FieldsFunc_end (cur : list ascii) : list (list ascii) :=
  match cur with [] => [] | _ => [rev cur] end.

Fixpoint fields_bytes (p : ascii → bool) (cur : list ascii) (l : list ascii) : list (list ascii) :=
  match l with
  | [] => FieldsFunc_end cur
  | a :: l' => if p a then FieldsFunc_end cur ++ fields_bytes p [] l'
               else fields_bytes p (a :: cur) l'
  end.

Definition FieldsFunc (p : ascii → bool) (s : string) : list string :=
  of_bytes <$> fields_bytes p [] (bytes s).

(** [strings.Cut(s, sep)] for a separator of one byte. *)
Fixpoint Cut (sep : ascii) (s : string) : option (string * string) :=
  match s with
  | EmptyString => None
  | String a s' =>
      if Ascii.eqb a sep then Some (EmptyString, s')
      else match Cut sep s' with
           | Some (before, after) => Some (String a before, after)
           | None => None
           end
  end.

(** [strings.ReplaceAll(s, c, "")] for a [c] of one byte. *)
Fixpoint RemoveByte (c : ascii) (s : string) : string :=
  match s with
  | EmptyString => EmptyString
  | String a s' => if Ascii.eqb a c then RemoveByte c s' else String a (RemoveByte c s')
  end.

(** ** Trimming *)

(** White space of two and three bytes in UTF-8: U+0085, U+00A0; U+1680,
    U+2000 to U+200A, U+2028, U+2029, U+202F, U+205F, U+3000. *)
Definition is_space2 (a b : ascii) : bool :=
  (Ascii.eqb a "194" && (Ascii.eqb b "133" || Ascii.eqb b "160"))%char.

Definition is_space3 (a b c : ascii) : bool :=
  ((Ascii.eqb a "225" && Ascii.eqb b "154" && Ascii.eqb c "128")
   || (Ascii.eqb a "226" && Ascii.eqb b "128"
       && ((N.leb 128 (N_of_ascii c) && N.leb (N_of_ascii c) 138)
           || Ascii.eqb c "168" || Ascii.eqb c "169" || Ascii.eqb c "175"))
   || (Ascii.eqb a "226" && Ascii.eqb b "129" && Ascii.eqb c "159")
   || (Ascii.eqb a "227" && Ascii.eqb b "128" && Ascii.eqb c "128"))%char.

(** Drops the white space at the head of a list of bytes; the tests on
    multi-byte white space are arguments, since the bytes come in the
    opposite order when the list is reversed. *)
Fixpoint drop_space (sp2 : ascii → ascii → bool) (sp3 : ascii → ascii → ascii → bool)
    (l : list ascii) : list ascii :=
  match l with
  | [] => []
  | a :: l1 =>
      if Ascii.is_space a then drop_space sp2 sp3 l1
      else match l1 with
           | [] => l
           | b :: l2 =>
               if sp2 a b then drop_space sp2 sp3 l2
               else match l2 with
                    | [] => l
                    | c :: l3 => if sp3 a b c then drop_space sp2 sp3 l3 else l
                    end
           end
  end.

Definition trim_left_space (l : list ascii) : list ascii :=
  drop_space is_space2 is_space3 l.

Definition trim_right_space (l : list ascii) : list ascii :=
  rev (drop_space (λ a b, is_space2 b a) (λ a b c, is_space3 c b a) (rev l)).

(** [strings.TrimSpace(s)] *)
Definition TrimSpace (s : string) : string :=
  of_bytes (trim_right_space (trim_left_space (bytes s))).

(** [strings.TrimLeft], [strings.TrimRight] and [strings.Trim] for a cutset
    of ASCII characters given as a predicate. *)
Fixpoint drop_while (p : ascii → bool) (l : list ascii) : list ascii :=
  match l with
  | [] => []
  | a :: l' => if p a then drop_while p l' else l
  end.

Definition TrimLeft (p : ascii → bool) (s : string) : string :=
  of_bytes (drop_while p (bytes s)).

Definition TrimRight (p : ascii → bool) (s : string) : string :=
  of_bytes (rev (drop_while p (rev (bytes s)))).

Definition Trim (p : ascii → bool) (s : string) : string :=
  TrimRight p (TrimLeft p s).

(** ** Case mapping

    [strings.ToLower(s)] as far as a comparison of the result with ASCII text
    can observe it: ASCII letters are lowered, and so are the two other code
    points whose lower case is ASCII, U+0130 (to "i") and U+212A (to "k").
    The remaining code points map to code points outside ASCII and are kept. *)
Definition lower_byte (a : ascii) : ascii :=
  if (N.leb 65 (N_of_ascii a) && N.leb (N_of_ascii a) 90)%bool
  then ascii_of_N (N_of_ascii a + 32) else a.

Fixpoint lower_bytes (l : list ascii) : list ascii :=
  match l with
  | [] => []
  | a :: l1 =>
      match l1 with
      | b :: l2 =>
          if (Ascii.eqb a "196" && Ascii.eqb b "176")%char then "i"%char :: lower_bytes l2
          else match l2 with
               | c :: l3 =>
                   if (Ascii.eqb a "226" && Ascii.eqb b "132" && Ascii.eqb c "170")%char
                   then "k"%char :: lower_bytes l3
                   else lower_byte a :: lower_bytes l1
               | [] => lower_byte a :: lower_bytes l1
               end
      | [] => [lower_byte a]
      end
  end.

Definition ToLower (s : string) : string := of_bytes (lower_bytes (bytes s)).

(** ** Numbers *)

(** [strconv.Itoa(z)] *)
Definition Itoa (z : Z) : string :=
  (if z <? 0 then "-" else "") +:+ NilZero.string_of_uint (N.to_uint (Z.abs_N z)).

(** [strconv.Atoi(s)]: [None] for a syntax error or a value outside [int]. *)
Definition Atoi (s : string) : option Z :=
  let '(neg, body) :=
    match s with
    | String "-" t => (true, t)
    | String "+" t => (false, t)
    | _ => (false, s)
    end in
  match NilZero.uint_of_string body with
  | None => None
  | Some d =>
      let n := Z.of_N (N.of_uint d) in
      let z := if neg : bool then - n else n in
      if bool_decide (i64 z) then Some z else None
  end.

(** The value [strconv.Atoi(s)] returns, also next to an error: a number out of
    range gives the nearest [int]. *)
Definition AtoiValue (s : string) : Z :=
  let '(neg, body) :=
    match s with
    | String "-" t => (true, t)
    | String "+" t => (false, t)
    | _ => (false, s)
    end in
  match NilZero.uint_of_string body with
  | None => 0
  | Some d =>
      let n := Z.of_N (N.of_uint d) in
      Z.max (- 2 ^ 63) (Z.min max_int64 (if neg : bool then - n else n))
  end.

(** A string of decimal digits. *)
Definition is_digit (a : ascii) : bool :=
  (N.leb 48 (N_of_ascii a) && N.leb (N_of_ascii a) 57)%bool.

(** ** Lemmas *)

Lemma bytes_of_bytes l : bytes (of_bytes l) = l.
Proof. apply String.list_ascii_of_string_of_list_ascii. Qed.

Lemma of_bytes_bytes s : of_bytes (bytes s) = s.
Proof. apply String.string_of_list_ascii_of_string. Qed.

Lemma bytes_app s t : bytes (s +:+ t) = bytes s ++ bytes t.
Proof.
  induction s as [|a s IH]; [done|]. change (String a s +:+ t) with (String a (s +:+ t)).
  simpl. by f_equal.
Qed.

Lemma length_bytes s : length (bytes s) = String.length s.
Proof. unfold bytes. induction s as [|a s IH]; cbn; congruence. Qed.

Lemma of_bytes_app l k : of_bytes (l ++ k) = of_bytes l +:+ of_bytes k.
Proof.
  rewrite <- (of_bytes_bytes (_ +:+ _)), bytes_app, !bytes_of_bytes. done.
Qed.

Lemma bytes_inj s t : bytes s = bytes t → s = t.
Proof. intros E. by rewrite <- (of_bytes_bytes s), E, of_bytes_bytes. Qed.

Lemma app_string_inj_l s t u : s +:+ t = s +:+ u → t = u.
Proof.
  intros E%(f_equal bytes). rewrite !bytes_app in E.
  apply bytes_inj. by eapply app_inv_head.
Qed.

Lemma app_string_assoc s t u : (s +:+ t) +:+ u = s +:+ t +:+ u.
Proof. apply bytes_inj. by rewrite !bytes_app, app_assoc. Qed.

Lemma dropBytes_app p s : dropBytes (String.length p) (p +:+ s) = s.
Proof. by induction p. Qed.

Lemma HasPrefix_app p s : HasPrefix (p +:+ s) p = true.
Proof.
  induction p as [|a p IH]; [by destruct s|].
  change (String a p +:+ s) with (String a (p +:+ s)). simpl.
  by rewrite Ascii.eqb_refl.
Qed.

Lemma HasPrefix_spec s p : HasPrefix s p = true ↔ ∃ t, s = p +:+ t.
Proof.
  split.
  - revert s. induction p as [|a p IH]; intros s.
    + by exists s.
    + destruct s as [|b s]; simpl; [done|]. destruct (Ascii.eqb_spec a b) as [->|]; [|done].
      intros (t & ->)%IH. by exists t.
  - intros (t & ->). apply HasPrefix_app.
Qed.

Lemma TrimPrefix_app p s : TrimPrefix (p +:+ s) p = s.
Proof. unfold TrimPrefix. by rewrite HasPrefix_app, dropBytes_app. Qed.

(** *** Digits *)

Lemma string_of_uint_digits d : Forall (λ a, is_digit a = true) (bytes (NilEmpty.string_of_uint d)).
Proof. induction d; simpl; constructor; auto. Qed.

Lemma string_of_uint_nil_or d :
  d ≠ Decimal.Nil → NilZero.string_of_uint d = NilEmpty.string_of_uint d.
Proof. by destruct d. Qed.

Lemma N_to_uint_nonnil n : N.to_uint n ≠ Decimal.Nil.
Proof.
  intros E. assert (Hn : n = 0%N).
  { rewrite <- (Unsigned.of_to n), E. done. }
  by subst n.
Qed.

Lemma Itoa_nonneg z : 0 <= z → Itoa z = NilEmpty.string_of_uint (N.to_uint (Z.to_N z)).
Proof.
  intros Hz. unfold Itoa. rewrite (proj2 (Z.ltb_ge z 0)) by done.
  rewrite string_of_uint_nil_or by apply N_to_uint_nonnil.
  by rewrite Zabs2N.abs_N_nonneg.
Qed.

Lemma Itoa_digits z : 0 <= z → Forall (λ a, is_digit a = true) (bytes (Itoa z)).
Proof. intros Hz. rewrite Itoa_nonneg by done. apply string_of_uint_digits. Qed.

Lemma Itoa_nonempty z : Itoa z ≠ "".
Proof.
  unfold Itoa. destruct (z <? 0); [done|].
  pose proof (N_to_uint_nonnil (Z.abs_N z)).
  by destruct (N.to_uint (Z.abs_N z)).
Qed.

(** A digit is neither of the signs. *)
Lemma Atoi_unsigned s :
  (match s with String a _ => is_digit a = true | EmptyString => True end) →
  Atoi s = match NilZero.uint_of_string s with
           | None => None
           | Some d => if bool_decide (i64 (Z.of_N (N.of_uint d)))
                       then Some (Z.of_N (N.of_uint d)) else None
           end.
Proof.
  intros Hs. destruct s as [|a s]; [done|].
  unfold Atoi. by destruct a as [[] [] [] [] [] [] [] []].
Qed.

Lemma Atoi_Itoa_nonneg z : 0 <= z → i64 z → Atoi (Itoa z) = Some z.
Proof.
  intros Hz Hi. pose proof (Itoa_digits z Hz) as Hd.
  rewrite Atoi_unsigned.
  2: { destruct (Itoa z); [done|]. by apply Forall_cons in Hd as [? _]. }
  rewrite Itoa_nonneg by done.
  rewrite <- string_of_uint_nil_or by apply N_to_uint_nonnil.
  rewrite NilZero.usu by apply N_to_uint_nonnil.
  rewrite Unsigned.of_to, Z2N.id by done.
  by rewrite bool_decide_true.
Qed.

(** [Atoi] inverts [Itoa] on the whole range of [int]. *)
Lemma Atoi_Itoa z : i64 z → Atoi (Itoa z) = Some z.
Proof.
  intros Hi. destruct (decide (0 <= z)) as [Hz|Hz]; [by apply Atoi_Itoa_nonneg|].
  unfold Itoa. rewrite (proj2 (Z.ltb_lt z 0)) by lia.
  change ("-" +:+ ?t) with (String "-" t). unfold Atoi.
  rewrite NilZero.usu by apply N_to_uint_nonnil.
  rewrite Unsigned.of_to.
  replace (- Z.of_N (Z.abs_N z)) with z by lia.
  by rewrite bool_decide_true.
Qed.

Lemma Itoa_inj x y : i64 x → i64 y → Itoa x = Itoa y → x = y.
Proof.
  intros Hx Hy E. apply (f_equal Atoi) in E.
  rewrite !Atoi_Itoa in E by done. congruence.
Qed.

(** *** Splitting *)

Lemma split_bytes_notin sep cur l :
  Forall (λ a, a ≠ sep) l → split_bytes sep cur l = [rev cur ++ l].
Proof.
  intros Hl. revert cur. induction Hl as [|a l Ha Hl IH]; intros cur; simpl.
  - by rewrite app_nil_r.
  - destruct (Ascii.eqb_spec a sep); [done|]. rewrite IH. simpl. by rewrite <- app_assoc.
Qed.

Lemma split_bytes_app sep cur l k :
  Forall (λ a, a ≠ sep) l →
  split_bytes sep cur (l ++ sep :: k) = (rev cur ++ l) :: split_bytes sep [] k.
Proof.
  intros Hl. revert cur. induction Hl as [|a l Ha Hl IH]; intros cur; simpl.
  - by rewrite Ascii.eqb_refl, app_nil_r.
  - destruct (Ascii.eqb_spec a sep); [done|]. rewrite IH. simpl. by rewrite <- app_assoc.
Qed.

(** Splitting at a separator undoes joining with it. *)
Lemma Split_Join sep (l : list string) :
  l ≠ [] → Forall (λ s, Forall (λ a, a ≠ sep) (bytes s)) l →
  Split sep (Join (String sep EmptyString) l) = l.
Proof.
  intros Hne Hl. unfold Split. induction Hl as [|s l Hs Hl IH]; [done|].
  destruct l as [|t l].
  - simpl. rewrite split_bytes_notin by done. simpl. by rewrite of_bytes_bytes.
  - change (Join ?u (s :: t :: l)) with (s +:+ u +:+ Join u (t :: l)).
    rewrite bytes_app.
    change (bytes (String sep "" +:+ ?u)) with (sep :: bytes u).
    rewrite split_bytes_app by done. simpl. rewrite of_bytes_bytes. f_equal.
    apply IH. done.
Qed.

(** *** Cutting *)

Lemma Cut_app sep s t :
  Forall (λ a, a ≠ sep) (bytes s) → Cut sep (s +:+ String sep t) = Some (s, t).
Proof.
  induction s as [|a s IH]; intros Hs.
  - change ("" +:+ String sep t) with (String sep t). simpl. by rewrite Ascii.eqb_refl.
  - change (bytes (String a s)) with (a :: bytes s) in Hs. apply Forall_cons in Hs as [Ha Hs].
    change (String a s +:+ ?u) with (String a (s +:+ u)). simpl.
    destruct (Ascii.eqb_spec a sep); [done|]. by rewrite IH.
Qed.

Lemma Cut_Some sep s before after :
  Cut sep s = Some (before, after) →
  s = before +:+ String sep after ∧ Forall (λ a, a ≠ sep) (bytes before).
Proof.
  revert before. induction s as [|a s IH]; intros before; simpl; [done|].
  destruct (Ascii.eqb_spec a sep) as [->|Hne].
  - intros [= <- <-]. by split.
  - destruct (Cut sep s) as [[b' a']|]; [|done]. intros [= <- <-].
    destruct (IH b') as [-> Hb]; [done|]. split; [done|]. by constructor.
Qed.

Lemma Cut_None sep s : Cut sep s = None ↔ Forall (λ a, a ≠ sep) (bytes s).
Proof.
  induction s as [|a s IH]; simpl; [split; [constructor|done]|].
  destruct (Ascii.eqb_spec a sep) as [->|Hne].
  - split; [done|]. by intros [? ?]%Forall_cons.
  - rewrite Forall_cons. destruct (Cut sep s) as [[]|]; clear -IH Hne; naive_solver.
Qed.

End GoStrings.

Create Rewrite HintDb gostrings.
#[export] Hint Rewrite GoStrings.bytes_of_bytes GoStrings.of_bytes_bytes GoStrings.bytes_app : gostrings.
