(* ===== verification/FilePath.v ===== *)
(** * Paths (path/filepath)

    [filepath.Clean] and [filepath.Join] on Unix, as the configuration uses
    them: lexical processing of the components of a path. *)

From Stdlib Require Import Ascii.
From S2P Require Import Prelude GoStrings.

Module FilePath.
Import GoStrings.

(** One component of the path; the stack has the last component first. *)
Definition pushComponent (rooted : bool) (stack : list string) (c : string) : list string :=
  if bool_decide (c = "" ∨ c = ".") then stack
  else if bool_decide (c = "..") then
    match stack with
    | top :: below => if bool_decide (top = "..") then ".." :: stack else below
    | [] => if rooted then [] else [".."]
    end
  else c :: stack.

Definition Clean (path : string) : string :=
  let rooted := HasPrefix path "/" in
  let stack := foldl (pushComponent rooted) [] (Split "/"%char path) in
  let out := (if rooted then "/" else "") +:+ Join "/" (rev stack) in
  if bool_decide (out = "") then "." else out.

(** [filepath.Join] of two elements. *)
Definition Join2 (a b : string) : string :=
  match filter (λ s, s ≠ "") [a; b] with
  | [] => ""
  | l => Clean (Join "/" l)
  end.

(** [filepath.Dir]: what precedes the last element. *)
Definition Dir (path : string) : string :=
  Clean (of_bytes (rev (drop_while (λ a, negb (Ascii.eqb a "/")) (rev (bytes path))))).

Example Dir_file : Dir "/etc/v2node/x.json" = "/etc/v2node" ∧ Dir "x" = "." ∧ Dir "/x" = "/".
Proof. repeat split; vm_compute; reflexivity. Qed.

Example Clean_dots : Clean "/etc//v2node/./x/../" = "/etc/v2node".
Proof. vm_compute. reflexivity. Qed.

Example Clean_up : Clean "../a/../../b" = "../../b" ∧ Clean "/../a" = "/a" ∧ Clean "a/.." = ".".
Proof. repeat split; vm_compute; reflexivity. Qed.

(** ** Cleaning is idempotent *)

(** A stack of a clean path: no empty or "." component, and ".." only at the
    bottom of an unrooted path. *)
Definition plain (c : string) : Prop := c ≠ "" ∧ c ≠ "." ∧ c ≠ ".." ∧ Forall (λ a, a ≠ "/"%char) (bytes c).

Definition cleanStack (rooted : bool) (stack : list string) : Prop :=
  ∃ names ups, stack = names ++ ups ∧ Forall plain names ∧ Forall (eq "..") ups
               ∧ (rooted = true → ups = []).

Lemma pushComponent_clean rooted stack c :
  Forall (λ a, a ≠ "/"%char) (bytes c) → cleanStack rooted stack → cleanStack rooted (pushComponent rooted stack c).
Proof.
  intros Hc (names & ups & -> & Hn & Hu & Hr). unfold pushComponent.
  case_bool_decide as H1; [by exists names, ups|]. case_bool_decide as H2.
  - destruct names as [|n names]; cbn.
    + destruct ups as [|u ups]; cbn.
      * destruct rooted; [by exists [], []|]. exists [], [".."]. split_and!; try done. by constructor.
      * apply Forall_cons in Hu as [<- Hu]. rewrite bool_decide_true by done.
        exists [], (".." :: ".." :: ups). split_and!; [done|done|by repeat constructor|]. intros Hrt. by apply Hr in Hrt.
    + apply Forall_cons in Hn as [Hp Hn]. rewrite bool_decide_false by apply Hp. by exists names, ups.
  - exists (c :: names), ups. split_and!; [done| |done|done]. constructor; [|done].
    unfold plain. split_and!; tauto.
Qed.

(** Pushing the components of a clean stack rebuilds it. *)
Lemma pushComponents_rebuild rooted names ups acc :
  Forall plain names → Forall (eq "..") ups → Forall (eq "..") acc → (rooted = true → ups = [] ∧ acc = []) →
  foldl (pushComponent rooted) acc (rev (names ++ ups)) = names ++ ups ++ acc.
Proof.
  intros Hn Hu Ha Hr. rewrite rev_app_distr, foldl_app.
  assert (Hups : foldl (pushComponent rooted) acc (rev ups) = ups ++ acc).
  { clear Hn names. induction ups as [|u ups IH]; [done|]. cbn [rev]. rewrite foldl_snoc.
    apply Forall_cons in Hu as [<- Hu]. rewrite IH by (done || (intros Hrt; by destruct (Hr Hrt))).
    unfold pushComponent. rewrite bool_decide_false by (intros [?|?]; done). rewrite bool_decide_true by done.
    destruct (ups ++ acc) as [|x xs] eqn:E.
    - apply app_nil in E as [-> ->]. destruct rooted; [|done]. by destruct (Hr eq_refl).
    - assert (Hx : Forall (eq "..") (ups ++ acc)) by by apply Forall_app. rewrite E in Hx.
      apply Forall_cons in Hx as [<- _]. rewrite bool_decide_true by done. cbn. by rewrite E. }
  rewrite Hups. clear Hups. induction names as [|n names IH]; [done|]. cbn [rev]. rewrite foldl_snoc.
  apply Forall_cons in Hn as [(H1 & H2 & H3 & H4) Hn]. rewrite IH by done. unfold pushComponent.
  rewrite bool_decide_false by tauto. by rewrite bool_decide_false.
Qed.

Lemma pushComponents_clean rooted l stack :
  Forall (λ c, Forall (λ a, a ≠ "/"%char) (bytes c)) l → cleanStack rooted stack →
  cleanStack rooted (foldl (pushComponent rooted) stack l).
Proof.
  intros Hl. revert stack. induction Hl as [|c l Hc Hl IH]; intros stack Hs; [done|].
  apply IH. by apply pushComponent_clean.
Qed.

Lemma cleanStack_bytes rooted stack c :
  cleanStack rooted stack → c ∈ stack → c ≠ "" ∧ Forall (λ a, a ≠ "/"%char) (bytes c).
Proof.
  intros (names & ups & -> & Hn & Hu & _) [Hc|Hc]%elem_of_app.
  - rewrite Forall_forall in Hn. apply Hn in Hc. split; apply Hc.
  - rewrite Forall_forall in Hu. apply Hu in Hc as <-. split; [done|]. by repeat constructor.
Qed.

(** The path of a stack. *)
Definition render (rooted : bool) (stack : list string) : string :=
  (if rooted then "/" else "") +:+ Join "/" (rev stack).

Lemma HasPrefix_slash c l :
  c ≠ "" → Forall (λ a, a ≠ "/"%char) (bytes c) → HasPrefix (Join "/" (c :: l)) "/" = false.
Proof.
  destruct c as [|a c]; [done|]. intros _ Ha. apply Forall_cons in Ha as [Ha _].
  assert (E : ∃ s, Join "/" (String a c :: l) = String a s) by (destruct l; eexists; reflexivity).
  destruct E as [s ->]. cbn -[Ascii.eqb]. by destruct (Ascii.eqb_spec "/"%char a) as [<-|].
Qed.

(** Splitting the path of a clean stack. *)
Lemma Split_render rooted stack :
  cleanStack rooted stack → render rooted stack ≠ "" →
  HasPrefix (render rooted stack) "/" = rooted
  ∧ foldl (pushComponent rooted) [] (Split "/"%char (render rooted stack)) = stack.
Proof.
  intros Hs Hne.
  assert (Hb : Forall (λ c, Forall (λ a, a ≠ "/"%char) (bytes c)) (rev stack)).
  { apply Forall_rev, Forall_forall. intros c Hc. by eapply cleanStack_bytes. }
  assert (Hfold : foldl (pushComponent rooted) [] (rev stack) = stack).
  { destruct Hs as (names & ups & -> & Hn & Hu & Hr).
    rewrite (pushComponents_rebuild rooted names ups []) by (done || naive_solver). by rewrite app_nil_r. }
  unfold render in *. destruct rooted.
  - split; [apply (HasPrefix_app "/")|]. destruct stack as [|c stack]; [by vm_compute|].
    destruct (rev (c :: stack)) as [|x l] eqn:E; [apply (f_equal length) in E; by rewrite length_rev in E|].
    change ("/" +:+ Join "/" (x :: l)) with (Join "/" ("" :: x :: l)).
    rewrite Split_Join by (done || by constructor). exact Hfold.
  - change ("" +:+ Join "/" (rev stack)) with (Join "/" (rev stack)) in *.
    destruct (rev stack) as [|x l] eqn:E; [done|].
    assert (Hx : x ∈ stack).
    { rewrite <- (rev_involutive stack), E. cbn. apply elem_of_app. right. by left. }
    destruct (cleanStack_bytes _ _ _ Hs Hx). split; [by apply HasPrefix_slash|].
    by rewrite Split_Join.
Qed.

Lemma split_bytes_no_sep sep cur l :
  Forall (λ a, a ≠ sep) cur → Forall (Forall (λ a, a ≠ sep)) (split_bytes sep cur l).
Proof.
  revert cur. induction l as [|a l IH]; intros cur Hc; cbn [split_bytes].
  - repeat constructor. by apply Forall_rev.
  - destruct (Ascii.eqb_spec a sep).
    + constructor; [by apply Forall_rev|]. by apply IH.
    + apply IH. by constructor.
Qed.

Lemma Split_no_sep sep s : Forall (λ c, Forall (λ a, a ≠ sep) (bytes c)) (Split sep s).
Proof.
  unfold Split. apply Forall_fmap. eapply Forall_impl; [by apply split_bytes_no_sep|].
  intros l Hl. cbn. by rewrite bytes_of_bytes.
Qed.

Lemma cleanStack_nil rooted : cleanStack rooted [].
Proof. by exists [], []. Qed.

(** What [Clean] computes: the path of a clean stack. *)
Lemma Clean_stack path :
  ∃ rooted stack, cleanStack rooted stack ∧ rooted = HasPrefix path "/"
    ∧ Clean path = if bool_decide (render rooted stack = "") then "." else render rooted stack.
Proof.
  exists (HasPrefix path "/"), (foldl (pushComponent (HasPrefix path "/")) [] (Split "/"%char path)).
  split_and!; [|done|done]. apply pushComponents_clean; [apply Split_no_sep|apply cleanStack_nil].
Qed.

Lemma Clean_render rooted stack :
  cleanStack rooted stack → render rooted stack ≠ "" → Clean (render rooted stack) = render rooted stack.
Proof.
  intros Hs Hne. destruct (Split_render rooted stack Hs Hne) as [Hp Hf]. unfold Clean.
  rewrite Hp, Hf. fold (render rooted stack). by rewrite bool_decide_false.
Qed.

Lemma Clean_idem path : Clean (Clean path) = Clean path.
Proof.
  destruct (Clean_stack path) as (rooted & stack & Hs & _ & ->).
  case_bool_decide as He; [by vm_compute|by apply Clean_render].
Qed.

Lemma Clean_nonempty path : Clean path ≠ "".
Proof. destruct (Clean_stack path) as (rooted & stack & _ & _ & ->). by case_bool_decide. Qed.

(** ** Joining *)

Lemma split_bytes_app_sep sep cur l k :
  split_bytes sep cur (l ++ sep :: k) = split_bytes sep cur l ++ split_bytes sep [] k.
Proof.
  revert cur. induction l as [|a l IH]; intros cur; cbn [split_bytes app].
  - by rewrite Ascii.eqb_refl.
  - destruct (Ascii.eqb a sep); [cbn; f_equal|]; apply IH.
Qed.

Lemma Split_app_sep sep s t : Split sep (s +:+ String sep t) = Split sep s ++ Split sep t.
Proof. unfold Split. rewrite bytes_app. cbn [bytes]. rewrite <- fmap_app. f_equal. apply split_bytes_app_sep. Qed.

Lemma HasPrefix_nil s : HasPrefix s "" = true.
Proof. by destruct s. Qed.

Lemma render_nonempty rooted stack : cleanStack rooted stack → stack ≠ [] → render rooted stack ≠ "".
Proof.
  intros Hs Hne. unfold render. destruct rooted; [done|].
  destruct (rev stack) as [|x l] eqn:E.
  { apply (f_equal length) in E. rewrite length_rev in E. by destruct stack. }
  assert (Hx : x ∈ stack) by (rewrite <- (rev_involutive stack), E; cbn; apply elem_of_app; right; by left).
  destruct (cleanStack_bytes _ _ _ Hs Hx) as [Hnx _]. by destruct x, l.
Qed.

(** Joining a directory and a plain name adds a component. *)
Lemma Join2_plain root c :
  root ≠ "" → plain c →
  ∃ stack, cleanStack (HasPrefix root "/") (c :: stack) ∧ Join2 root c = render (HasPrefix root "/") (c :: stack)
           ∧ stack = foldl (pushComponent (HasPrefix root "/")) [] (Split "/"%char root).
Proof.
  intros Hr (H1 & H2 & H3 & H4). eexists. split_and!; [| |reflexivity].
  - destruct (pushComponents_clean (HasPrefix root "/") (Split "/"%char root) [] (Split_no_sep _ _) (cleanStack_nil _))
      as (names & ups & -> & Hn & Hu & Hrt).
    exists (c :: names), ups. split_and!; [done|by constructor|done|done].
  - unfold Join2. rewrite filter_cons_True, filter_cons_True by done. cbn [filter list_filter].
    change (Join "/" [root; c]) with (root +:+ String "/"%char c). unfold Clean.
    assert (Hp : HasPrefix (root +:+ String "/"%char c) "/" = HasPrefix root "/").
    { destruct root as [|a root]; [done|].
      change (String a root +:+ String "/"%char c) with (String a (root +:+ String "/"%char c)). cbn -[Ascii.eqb]. destruct (Ascii.eqb _ a); [|done].
      by rewrite !HasPrefix_nil. }
    rewrite Hp, Split_app_sep, foldl_app.
    assert (Hc : Split "/"%char c = [c]) by (apply (Split_Join "/"%char [c]); [done|by constructor]).
    assert (Hpush : ∀ r s, pushComponent r s c = c :: s).
    { intros r s. unfold pushComponent. by rewrite bool_decide_false, bool_decide_false by tauto. }
    rewrite Hc. cbn [foldl]. rewrite Hpush.
    fold (render (HasPrefix root "/") (c :: foldl (pushComponent (HasPrefix root "/")) [] (Split "/"%char root))).
    rewrite bool_decide_false; [done|]. apply render_nonempty; [|done].
    destruct (pushComponents_clean (HasPrefix root "/") (Split "/"%char root) [] (Split_no_sep _ _) (cleanStack_nil _))
      as (names & ups & -> & Hn & Hu & Hrt).
    exists (c :: names), ups. split_and!; [done|by constructor|done|done].
Qed.

Lemma Join2_plain_inj root c c' :
  root ≠ "" → plain c → plain c' → Join2 root c = Join2 root c' → c = c'.
Proof.
  intros Hr Hc Hc' E.
  destruct (Join2_plain root c Hr Hc) as (s & Hs & Ej & _). destruct (Join2_plain root c' Hr Hc') as (s' & Hs' & Ej' & _).
  rewrite Ej, Ej' in E.
  destruct (Split_render _ _ Hs (render_nonempty _ _ Hs ltac:(done))) as [_ H].
  destruct (Split_render _ _ Hs' (render_nonempty _ _ Hs' ltac:(done))) as [_ H'].
  rewrite E, H' in H. by injection H.
Qed.

Lemma Join2_clean root c : root ≠ "" → plain c → Clean (Join2 root c) = Join2 root c.
Proof.
  intros Hr Hc. destruct (Join2_plain root c Hr Hc) as (s & Hs & -> & _).
  apply Clean_render; [done|]. by apply render_nonempty.
Qed.

End FilePath.
