(* ===== verification/Action.v ===== *)
(** * Operations on a shared state

    A Go function that changes shared objects and returns [(A, error)] is an
    [action]: from a state to the state it leaves and its result, or nothing
    when it does not return: it panics, or it waits for ever. An error does not undo what was changed before. The monad
    sequences the statements of a function, each of which returns at its
    error. *)

From S2P Require Import Prelude.

Module Action.

Definition action (S A : Type) : Type := S → option (S * result A).

#[global] Instance action_ret {S} : MRet (action S) := λ A a s, Some (s, Ok a).

#[global] Instance action_bind {S} : MBind (action S) := λ A B k m s,
  match m s with
  | None => None
  | Some (s, Err e) => Some (s, Err e)
  | Some (s, Ok a) => k a s
  end.

Section ops.
Context {S : Type}.
Implicit Types (s : S).

Definition throw {A} (e : GoError) : action S A := λ s, Some (s, Err e).

Definition panic {A} : action S A := λ _, None.

(** Waiting for something that does not happen. *)
Definition blocked {A} : action S A := λ _, None.

Definition gets {A} (f : S → A) : action S A := λ s, Some (s, Ok (f s)).

Definition modify (f : S → S) : action S unit := λ s, Some (f s, Ok ()).

(** A panic when there is no value. *)
Definition deref {A} (x : option A) : action S A := λ s,
  match x with None => None | Some a => Some (s, Ok a) end.

Definition when (b : bool) (m : action S unit) : action S unit := if b then m else mret ().

(** The error of a call, as a value. *)
Definition attempt {A} (m : action S A) : action S (result A) := λ s,
  match m s with None => None | Some (s, r) => Some (s, Ok r) end.

(** [if err != nil { return f(err) }] after a call. *)
Definition mapErr {A} (f : GoError → GoError) (m : action S A) : action S A := λ s,
  match m s with
  | Some (s, Err e) => Some (s, Err (f e))
  | r => r
  end.

(** A call that returns only an error. *)
Definition orErr (f : S → S * option GoError) : action S unit := λ s,
  match f s with (s, None) => Some (s, Ok ()) | (s, Some e) => Some (s, Err e) end.

(** ** Inversion *)

Lemma bind_Ok {A B} (k : A → action S B) (m : action S A) s s' b :
  (m ≫= k) s = Some (s', Ok b) → ∃ s1 a, m s = Some (s1, Ok a) ∧ k a s1 = Some (s', Ok b).
Proof.
  unfold mbind, action_bind. destruct (m s) as [[s1 [a|e]]|]; [by exists s1, a|done|done].
Qed.

Lemma bind_Err {A B} (k : A → action S B) (m : action S A) s s' e :
  (m ≫= k) s = Some (s', Err e) →
  m s = Some (s', Err e) ∨ ∃ s1 a, m s = Some (s1, Ok a) ∧ k a s1 = Some (s', Err e).
Proof.
  unfold mbind, action_bind. destruct (m s) as [[s1 [a|e']]|]; [|intros [= <- <-]; by left|done].
  intros Hk. right. by exists s1, a.
Qed.

Lemma mapErr_Ok {A} f (m : action S A) s s' a : mapErr f m s = Some (s', Ok a) → m s = Some (s', Ok a).
Proof. unfold mapErr. by destruct (m s) as [[? []]|]. Qed.

(** ** What an action keeps *)

(** Whatever the outcome, the states before and after are related. *)
Definition keeps (R : S → S → Prop) {A} (m : action S A) : Prop :=
  ∀ s s' r, m s = Some (s', r) → R s s'.

Section keeps.
Context (R : S → S → Prop) `{!PreOrder R}.

Lemma keeps_ret {A} (a : A) : keeps R (mret a).
Proof. intros s s' r. by intros [= <- _]. Qed.

Lemma keeps_bind {A B} (k : A → action S B) (m : action S A) :
  keeps R m → (∀ a, keeps R (k a)) → keeps R (m ≫= k).
Proof.
  intros Hm Hk s s' r. unfold mbind, action_bind. destruct (m s) as [[s1 [a|e]]|] eqn:E; [| |done].
  - intros Hs. etrans; [by eapply Hm|by eapply Hk].
  - intros [= <- _]. by eapply Hm.
Qed.

Lemma keeps_throw {A} e : keeps R (throw (A := A) e).
Proof. intros s s' r. by intros [= <- _]. Qed.

Lemma keeps_panic {A} : keeps R (panic (A := A)).
Proof. by intros s s' r. Qed.

Lemma keeps_blocked {A} : keeps R (blocked (A := A)).
Proof. by intros s s' r. Qed.

Lemma keeps_gets {A} (f : S → A) : keeps R (gets f).
Proof. intros s s' r. by intros [= <- _]. Qed.

Lemma keeps_deref {A} (x : option A) : keeps R (deref x).
Proof. intros s s' r. unfold deref. destruct x; [|done]. by intros [= <- _]. Qed.

Lemma keeps_modify f : (∀ s, R s (f s)) → keeps R (modify f).
Proof. intros Hf s s' r. by intros [= <- _]. Qed.

Lemma keeps_orErr f : (∀ s, R s (f s).1) → keeps R (orErr f).
Proof.
  intros Hf s s' r. unfold orErr. specialize (Hf s). destruct (f s) as [s1 [e|]]; by intros [= <- _].
Qed.

Lemma keeps_when b m : keeps R m → keeps R (when b m).
Proof. destruct b; [done|]. intros _. apply keeps_ret. Qed.

Lemma keeps_attempt {A} (m : action S A) : keeps R m → keeps R (attempt m).
Proof. intros Hm s s' r. unfold attempt. destruct (m s) as [[s1 r1]|] eqn:E; [|done]. intros [= <- _]. by eapply Hm. Qed.

Lemma keeps_mapErr {A} f (m : action S A) : keeps R m → keeps R (mapErr f m).
Proof.
  intros Hm s s' r. unfold mapErr. destruct (m s) as [[s1 [a|e]]|] eqn:E; [| |done]; intros [= <- _]; by eapply Hm.
Qed.
End keeps.
End ops.

Create HintDb keeps.
#[export] Hint Resolve keeps_ret keeps_bind keeps_throw keeps_panic keeps_blocked keeps_gets keeps_deref keeps_when
  keeps_attempt keeps_mapErr : keeps.

End Action.
