(* ===== verification/Json.v ===== *)
(** * JSON values and the encodings of Go's standard library

    A [json.RawMessage] is its text together with the value the text denotes
    (encoding/json has checked its syntax before the program sees it). The
    decoding of a value into a struct follows encoding/json: members are
    matched by name, exactly or else up to case; a member of the wrong type is
    an error; [null] leaves a field as it is; of duplicate members the last
    one counts. Hexadecimal and base64 encodings are the ones of encoding/hex
    and encoding/base64. *)

From Stdlib Require Import Ascii.
From S2P Require Import Prelude GoStrings.

Module Json.
Import GoStrings.

Inductive Json :=
| JNull
| JBool (b : bool)
| JNumber (token : string)
| JString (s : string)
| JArray (l : list Json)
| JObject (members : list (string * Json)).

(** The decidable equality of values, by recursion through the lists. *)
Fixpoint json_eqb (a b : Json) : bool :=
  let fix arr (l k : list Json) : bool :=
    match l, k with
    | [], [] => true
    | x :: l, y :: k => json_eqb x y && arr l k
    | _, _ => false
    end in
  let fix obj (l k : list (string * Json)) : bool :=
    match l, k with
    | [], [] => true
    | (n, x) :: l, (m, y) :: k => String.eqb n m && json_eqb x y && obj l k
    | _, _ => false
    end in
  match a, b with
  | JNull, JNull => true
  | JBool x, JBool y => Bool.eqb x y
  | JNumber x, JNumber y => String.eqb x y
  | JString x, JString y => String.eqb x y
  | JArray l, JArray k => arr l k
  | JObject l, JObject k => obj l k
  | _, _ => false
  end.

Fixpoint json_size (a : Json) : nat :=
  match a with
  | JArray l => S (foldr (λ x acc, json_size x + acc)%nat 0%nat l)
  | JObject l => S (foldr (λ x acc, json_size x.2 + acc)%nat 0%nat l)
  | _ => 1%nat
  end.

Lemma json_eqb_spec_aux n a b : (json_size a <= n)%nat → json_eqb a b = true ↔ a = b.
Proof.
  revert a b. induction n as [|n IH]; intros a b Hn; [destruct a; simpl in Hn; lia|].
  destruct a as [|x|x|x|l|l], b as [|y|y|y|k|k]; simpl; try done.
  - rewrite Bool.eqb_true_iff. naive_solver.
  - rewrite String.eqb_eq. naive_solver.
  - rewrite String.eqb_eq. naive_solver.
  - trans (l = k); [|naive_solver]. revert k. simpl in Hn. induction l as [|x l IHl]; intros [|y k]; try done.
    simpl in Hn. rewrite andb_true_iff, IH, IHl by lia. naive_solver.
  - trans (l = k); [|naive_solver]. revert k. simpl in Hn. induction l as [|[m x] l IHl]; intros [|[m' y] k]; try done.
    simpl in Hn. rewrite !andb_true_iff, IH, IHl, String.eqb_eq by lia. naive_solver.
Qed.

#[global] Instance Json_eq_dec : EqDecision Json.
Proof.
  intros a b. destruct (json_eqb a b) eqn:E; [left|right].
  - by apply (json_eqb_spec_aux (json_size a)).
  - intros ->. rewrite (proj2 (json_eqb_spec_aux (json_size b) b b (Nat.le_refl _)) eq_refl) in E. done.
Defined.

Record RawMessage := mkRaw { raw_text : string; raw_value : Json }.

#[global] Instance RawMessage_eq_dec : EqDecision RawMessage.
Proof. solve_decision. Defined.

(** ** Decoding into a struct *)

Definition typeError : GoError := errorf "json: cannot unmarshal value into Go value".

(** The folding encoding/json applies to names: ASCII letters, U+017F (to
    "s") and U+212A (to "k"). *)
Fixpoint fold_bytes (l : list ascii) : list ascii :=
  match l with
  | [] => []
  | a :: l1 =>
      match l1 with
      | b :: l2 =>
          if (Ascii.eqb a "197" && Ascii.eqb b "191")%char then "s"%char :: fold_bytes l2
          else match l2 with
               | c :: l3 =>
                   if (Ascii.eqb a "226" && Ascii.eqb b "132" && Ascii.eqb c "170")%char
                   then "k"%char :: fold_bytes l3
                   else lower_byte a :: fold_bytes l1
               | [] => lower_byte a :: fold_bytes l1
               end
      | [] => [lower_byte a]
      end
  end.

Definition foldName (s : string) : string := of_bytes (fold_bytes (bytes s)).

(** How a field takes a value: [None] is a value of the wrong type. *)
Definition Setter (S : Type) : Type := Json → S → option S.

Definition setBool {S} (f : bool → S → S) : Setter S := λ j s,
  match j with
  | JNull => Some s
  | JBool b => Some (f b s)
  | _ => None
  end.

Definition setString {S} (f : string → S → S) : Setter S := λ j s,
  match j with
  | JNull => Some s
  | JString t => Some (f t s)
  | _ => None
  end.

Definition findField {S} (fields : list (string * Setter S)) (name : string) : option (Setter S) :=
  match List.find (λ f, String.eqb f.1 name) fields with
  | Some f => Some f.2
  | None => match List.find (λ f, String.eqb (foldName f.1) (foldName name)) fields with
            | Some f => Some f.2
            | None => None
            end
  end.

Definition decodeMember {S} (fields : list (string * Setter S)) (acc : S * bool)
    (member : string * Json) : S * bool :=
  let '(s, ok) := acc in
  match findField fields member.1 with
  | None => (s, ok)
  | Some set =>
      match set member.2 s with
      | Some s => (s, ok)
      | None => (s, false)
      end
  end.

(** [json.Unmarshal(data, &s)] for a struct with the given fields. *)
Definition decodeStruct {S} (fields : list (string * Setter S)) (j : Json) (s : S) : result S :=
  match j with
  | JNull => Ok s
  | JObject members =>
      let '(s, ok) := foldl (decodeMember fields) (s, true) members in
      if ok : bool then Ok s else Err typeError
  | _ => Err typeError
  end.

(** [json.Unmarshal(data, &n)] for an [int]. *)
Definition decodeInt (j : Json) : option Z :=
  match j with
  | JNumber token => Atoi token
  | _ => None
  end.

(** ** Hexadecimal and base64 *)

Definition nth_byte (alphabet : string) (n : N) : ascii :=
  nth (N.to_nat n) (bytes alphabet) Ascii.zero.

Definition hexAlphabet : string := "0123456789abcdef".

(** [hex.EncodeToString(b)] *)
Definition hexEncode (l : list ascii) : string :=
  of_bytes (l ≫= λ a, [nth_byte hexAlphabet (N_of_ascii a / 16); nth_byte hexAlphabet (N_of_ascii a mod 16)]).

Definition stdAlphabet : string :=
  "ABCDEFGHIJKLMNOPQRSTUVWXYZabcdefghijklmnopqrstuvwxyz0123456789+/".

Definition urlAlphabet : string :=
  "ABCDEFGHIJKLMNOPQRSTUVWXYZabcdefghijklmnopqrstuvwxyz0123456789-_".

(** The groups of three bytes; the incomplete last group is padded when
    [pad] is set. *)
Fixpoint base64_bytes (alphabet : string) (pad : bool) (l : list ascii) : list ascii :=
  let sym := nth_byte alphabet in
  let padding := if pad then ["="%char] else [] in
  match l with
  | [] => []
  | [a] =>
      let x := N_of_ascii a in
      [sym (x / 4)%N; sym (x mod 4 * 16)%N] ++ padding ++ padding
  | [a; b] =>
      let x := N_of_ascii a in let y := N_of_ascii b in
      [sym (x / 4)%N; sym (x mod 4 * 16 + y / 16)%N; sym (y mod 16 * 4)%N] ++ padding
  | a :: b :: c :: l =>
      let x := N_of_ascii a in let y := N_of_ascii b in let z := N_of_ascii c in
      [sym (x / 4)%N; sym (x mod 4 * 16 + y / 16)%N; sym (y mod 16 * 4 + z / 64)%N; sym (z mod 64)%N]
        ++ base64_bytes alphabet pad l
  end.

(** [base64.StdEncoding.EncodeToString] and [base64.RawURLEncoding.EncodeToString] *)
Definition base64Std (l : list ascii) : string := of_bytes (base64_bytes stdAlphabet true l).

Definition base64RawURL (l : list ascii) : string := of_bytes (base64_bytes urlAlphabet false l).

Example base64_abcd : base64Std (bytes "abcd") = "YWJjZA==".
Proof. reflexivity. Qed.

Example base64_raw : base64RawURL (bytes "~?~") = "fj9-".
Proof. reflexivity. Qed.

Example hex_example : hexEncode (bytes "az") = "617a".
Proof. reflexivity. Qed.

End Json.
