(* ===== verification/GoText.v ===== *)
(** * Sorting, fields, numbers and JSON text (sort, strings, strconv, encoding/json)

    Functions of Go's standard library that the commands and the client of the
    edge agent use, beyond GoStrings.v. *)

From Stdlib Require Import Ascii DecimalString DecimalN.
From S2P Require Import Prelude GoStrings Json.

Module GoText.
Import GoStrings.

Lemma list_filter_all {A} (P : A → Prop) `{∀ x, Decision (P x)} (l : list A) : Forall P l → filter P l = l.
Proof. induction 1 as [|x l Hx Hl IH]; [done|]. rewrite filter_cons_True by done. by rewrite IH. Qed.

(** ** sort.Strings *)

Definition sortStrings (l : list string) : list string := merge_sort String.le l.

Lemma sortStrings_Permutation l : sortStrings l ≡ₚ l.
Proof. apply merge_sort_Permutation. Qed.

Lemma sortStrings_sorted l : StronglySorted String.le (sortStrings l).
Proof. apply StronglySorted_merge_sort; apply _. Qed.

(** The order of the input does not matter. *)
Lemma sortStrings_perm l k : l ≡ₚ k → sortStrings l = sortStrings k.
Proof.
  intros H. apply (StronglySorted_unique String.le); try apply sortStrings_sorted.
  by rewrite !sortStrings_Permutation.
Qed.

(** ** strings.Fields

    The maximal runs of bytes without white space. *)
Fixpoint space_fields (cur l : list ascii) : list (list ascii) :=
  match l with
  | [] => FieldsFunc_end cur
  | a :: l1 =>
      if Ascii.is_space a then FieldsFunc_end cur ++ space_fields [] l1
      else match l1 with
           | [] => space_fields (a :: cur) l1
           | b :: l2 =>
               if is_space2 a b then FieldsFunc_end cur ++ space_fields [] l2
               else match l2 with
                    | [] => space_fields (a :: cur) l1
                    | c :: l3 => if is_space3 a b c then FieldsFunc_end cur ++ space_fields [] l3
                                 else space_fields (a :: cur) l1
                    end
           end
  end.

Definition Fields (s : string) : list string := of_bytes <$> space_fields [] (bytes s).

(** ** Suffixes and replacement *)

Definition HasSuffix (s p : string) : bool :=
  HasPrefix (of_bytes (rev (bytes s))) (of_bytes (rev (bytes p))).

(** [s[:len(s)-n]] for [n] up to the length. *)
Definition dropRight (n : nat) (s : string) : string :=
  of_bytes (take (String.length s - n) (bytes s)).

Definition TrimSuffix (s p : string) : string :=
  if HasSuffix s p then dropRight (String.length p) s else s.

Lemma HasSuffix_spec s p : HasSuffix s p = true ↔ ∃ t, s = t +:+ p.
Proof.
  unfold HasSuffix. rewrite HasPrefix_spec. split.
  - intros [t E]. exists (of_bytes (rev (bytes t))). apply bytes_inj.
    apply (f_equal (λ s, rev (bytes s))) in E. revert E.
    autorewrite with gostrings. rewrite rev_app_distr, !rev_involutive. done.
  - intros [t ->]. exists (of_bytes (rev (bytes t))). apply bytes_inj.
    autorewrite with gostrings. by rewrite rev_app_distr.
Qed.

Lemma dropRight_app t p : dropRight (String.length p) (t +:+ p) = t.
Proof.
  unfold dropRight. apply bytes_inj. rewrite bytes_of_bytes, bytes_app, <- !length_bytes, bytes_app, length_app.
  replace (length (bytes t) + length (bytes p) - length (bytes p))%nat with (length (bytes t)) by lia.
  by rewrite take_app_length.
Qed.

(** *** Text that trimming leaves alone *)

(** A byte of ASCII that is not white space. *)
Definition graphic (a : ascii) : Prop := Ascii.is_space a = false ∧ N.ltb (N_of_ascii a) 128 = true.

Lemma drop_space_stop sp2 sp3 a l :
  Ascii.is_space a = false → (∀ b, sp2 a b = false) → (∀ b c, sp3 a b c = false) → drop_space sp2 sp3 (a :: l) = a :: l.
Proof. intros H1 H2 H3. cbn. rewrite H1. destruct l as [|b [|c l]]; [done|by rewrite H2|by rewrite H2, H3]. Qed.

Lemma TrimSpace_graphic s a l m b :
  bytes s = a :: l → bytes s = m ++ [b] → graphic a → graphic b → TrimSpace s = s.
Proof.
  intros Ha Hb [Ha1 Ha2] [Hb1 Hb2]. unfold TrimSpace, trim_left_space, trim_right_space. rewrite Ha.
  rewrite drop_space_stop; [|done|..].
  - rewrite <- Ha, Hb, rev_app_distr. cbn [rev app]. rewrite drop_space_stop; [|done|..].
    + change (b :: rev m) with ([b] ++ rev m). rewrite rev_app_distr, rev_involutive. cbn [rev app].
      by rewrite <- Hb, of_bytes_bytes.
    + intros c. destruct b as [[] [] [] [] [] [] [] []]; try done; apply andb_false_r.
    + intros c d. unfold is_space3. destruct b as [[] [] [] [] [] [] [] []]; try done; cbn; by rewrite ?andb_false_r.
  - intros c. by destruct a as [[] [] [] [] [] [] [] []].
  - intros c d. by destruct a as [[] [] [] [] [] [] [] []].
Qed.

(** ** Numbers *)

Lemma Itoa_nonneg_inj x y : 0 <= x → 0 <= y → Itoa x = Itoa y → x = y.
Proof.
  intros Hx Hy. rewrite !Itoa_nonneg by done. intros E.
  apply (f_equal NilEmpty.uint_of_string) in E. rewrite !NilEmpty.usu in E. injection E as E.
  apply (f_equal N.of_uint) in E. rewrite !DecimalN.Unsigned.of_to in E. lia.
Qed.

(** *** strconv.ParseUint(s, 10, 64)

    [ParseUintValue] is the number that is returned also next to an error. *)
Definition ParseUint (s : string) : option Z :=
  match NilZero.uint_of_string s with
  | None => None
  | Some d => let n := Z.of_N (N.of_uint d) in if n <=? max_uint64 then Some n else None
  end.

Definition ParseUintValue (s : string) : Z :=
  match NilZero.uint_of_string s with
  | None => 0
  | Some d => Z.min max_uint64 (Z.of_N (N.of_uint d))
  end.

Lemma ParseUint_u64 s n : ParseUint s = Some n → u64 n.
Proof.
  unfold ParseUint, u64, max_uint64. destruct (NilZero.uint_of_string s) as [d|]; [|done].
  case_match eqn:E; [|done]. intros [= <-]. apply Z.leb_le in E. lia.
Qed.

Lemma ParseUint_Itoa n : u64 n → ParseUint (Itoa n) = Some n.
Proof.
  intros Hn. unfold u64 in Hn. unfold ParseUint, Itoa, max_uint64.
  destruct (Z.ltb_spec n 0); [lia|]. change ("" +:+ ?s) with s.
  rewrite NilZero.usu by apply N_to_uint_nonnil. rewrite DecimalN.Unsigned.of_to.
  rewrite N2Z.inj_abs_N, Z.abs_eq by lia. by destruct (Z.leb_spec n (2 ^ 64 - 1)); [|lia].
Qed.

(** ** json.Marshal

    Text of a value; members come in the order they are listed, the order of
    a struct's fields or, for a map, of its sorted keys. *)
Definition between (lo hi : N) (a : ascii) : bool := N.leb lo (N_of_ascii a) && N.leb (N_of_ascii a) hi.

Definition continues (a : ascii) : bool := between 128 191 a.

(** The encodings of two, three and four bytes that are valid UTF-8. *)
Definition rune2 (a b : ascii) : bool := between 194 223 a && continues b.

Definition rune3 (a b c : ascii) : bool :=
  ((between 224 224 a && between 160 191 b)
   || ((between 225 236 a || between 238 239 a) && continues b)
   || (between 237 237 a && between 128 159 b)) && continues c.

Definition rune4 (a b c d : ascii) : bool :=
  ((between 240 240 a && between 144 191 b)
   || (between 241 243 a && continues b)
   || (between 244 244 a && between 128 143 b)) && continues c && continues d.

Definition hexByte (a : ascii) : list ascii :=
  [Json.nth_byte Json.hexAlphabet (N_of_ascii a / 16); Json.nth_byte Json.hexAlphabet (N_of_ascii a mod 16)].

Definition quoteAscii (a : ascii) : list ascii :=
  if Ascii.eqb a "034" || Ascii.eqb a "092" then ["092"; a]%char
  else if Ascii.eqb a "008" then bytes "\b"
  else if Ascii.eqb a "012" then bytes "\f"
  else if Ascii.eqb a "010" then bytes "\n"
  else if Ascii.eqb a "013" then bytes "\r"
  else if Ascii.eqb a "009" then bytes "\t"
  else if between 0 31 a || existsb (Ascii.eqb a) (bytes "<>&") then bytes "\u00" ++ hexByte a
  else [a].

(** U+2028 and U+2029 are escaped, bytes that are not UTF-8 replaced. *)
Definition quoteRune3 (a b c : ascii) : list ascii :=
  if Ascii.eqb a "226" && Ascii.eqb b "128" && Ascii.eqb c "168" then bytes "\u2028"
  else if Ascii.eqb a "226" && Ascii.eqb b "128" && Ascii.eqb c "169" then bytes "\u2029"
  else [a; b; c].

Definition notUTF8 : list ascii := bytes "\ufffd".

Fixpoint quote_bytes (l : list ascii) : list ascii :=
  match l with
  | [] => []
  | a :: l1 =>
      if between 0 127 a then quoteAscii a ++ quote_bytes l1
      else match l1 with
           | [] => notUTF8
           | b :: l2 =>
               if rune2 a b then a :: b :: quote_bytes l2
               else match l2 with
                    | [] => notUTF8 ++ quote_bytes l1
                    | c :: l3 =>
                        if rune3 a b c then quoteRune3 a b c ++ quote_bytes l3
                        else match l3 with
                             | [] => notUTF8 ++ quote_bytes l1
                             | d :: l4 => if rune4 a b c d then a :: b :: c :: d :: quote_bytes l4
                                          else notUTF8 ++ quote_bytes l1
                             end
                    end
           end
  end.

Definition quoteJSON (s : string) : string :=
  of_bytes ("034"%char :: quote_bytes (bytes s) ++ ["034"%char]).

Fixpoint marshal (j : Json.Json) : string :=
  match j with
  | Json.JNull => "null"
  | Json.JBool b => if b then "true" else "false"
  | Json.JNumber token => token
  | Json.JString s => quoteJSON s
  | Json.JArray l => "[" +:+ Join "," (marshal <$> l) +:+ "]"
  | Json.JObject members => "{" +:+ Join "," ((λ m, quoteJSON m.1 +:+ ":" +:+ marshal m.2) <$> members) +:+ "}"
  end.

Example text_examples :
  Fields "cpu  10 20" = ["cpu"; "10"; "20"] ∧ HasSuffix "512MIB" "MIB" = true ∧ TrimSuffix "MemTotal:" ":" = "MemTotal"
  ∧ ParseUint "18446744073709551616" = None ∧ ParseUint "+1" = None
  ∧ marshal (Json.JObject [("a", Json.JArray [Json.JNumber "1"; Json.JNull])]) = of_bytes (bytes "{" ++ ["034"; "a"; "034"]%char ++ bytes ":[1,null]}")
  ∧ quote_bytes ["<"; "195"; "169"; "195"]%char = bytes "\u003c" ++ ["195"; "169"]%char ++ bytes "\ufffd".
Proof. vm_compute. repeat split. Qed.
End GoText.
