(* ===== verification/Panel.v ===== *)
(** * Data exchanged with the panel (api/v2board)

    The structs of api/v2board/user.go and api/v2board/node.go, and the pure
    functions on them. A pointer to a struct is an [option]; a slice whose
    nil-ness is observable (by [reflect.DeepEqual]) is an [option] of a list;
    a value of type [any] decoded from JSON is an [AnyValue]. *)

From S2P Require Import Prelude GoStrings Json.

Module Panel.

(** ** Users (api/v2board/user.go) *)

Record OnlineUser := mkOnlineUser { ou_UID : Z; ou_IP : string; ou_TagUUID : string }.

Record UserInfo := mkUserInfo {
  Id : Z;
  Uuid : string;
  SpeedLimit : Z;
  DeviceLimit : Z
}.

Record UserDeltaBody := mkUserDeltaBody {
  Full : bool;
  Revision : Z;
  Users : list UserInfo;
  Deleted : list UserInfo;
  Upsert : list UserInfo
}.

Record AliveMap := mkAliveMap {
  Alive : gmap Z Z;
  AliveIPs : gmap Z (list string);
  Mode : Z
}.

Record UserTraffic := mkUserTraffic { ut_UID : Z; Upload : Z; Download : Z }.

#[global] Instance OnlineUser_eq_dec : EqDecision OnlineUser.
Proof. solve_decision. Defined.

#[global] Instance UserInfo_eq_dec : EqDecision UserInfo.
Proof. solve_decision. Defined.

#[global] Instance UserTraffic_eq_dec : EqDecision UserTraffic.
Proof. solve_decision. Defined.

(** [cloneAliveSnapshot]: a nil snapshot becomes an empty one, any other is
    copied entry by entry. *)
Definition cloneAliveMap (src : gmap Z Z) : gmap Z Z := src.

Definition cloneAliveSnapshot (src : option AliveMap) : AliveMap :=
  match src with
  | None => mkAliveMap ∅ ∅ 0
  | Some a => mkAliveMap (cloneAliveMap (Alive a)) (AliveIPs a) (Mode a)
  end.

(** [isUserDeltaUnsupportedStatus] *)
Definition isUserDeltaUnsupportedStatus (statusCode : Z) : bool :=
  match statusCode with
  | 403 | 404 | 405 | 501 => true
  | _ => false
  end.

(** ** Nodes (api/v2board/node.go) *)

(** A value of type [any]: what [encoding/json] produces, and an [int]. A finite
    float64 is its value m * 2^e with m odd or zero. *)
Inductive AnyValue :=
| AnyNil
| AnyInt (z : Z)
| AnyString (s : string)
| AnyFloat (m e : Z)
| AnyBool (b : bool)
| AnyJson (j : Json.Json). (* an array or an object *)

#[global] Instance AnyValue_eq_dec : EqDecision AnyValue.
Proof. solve_decision. Defined.

(** Security types *)
Definition SecurityNone : Z := 0.
Definition SecurityTls : Z := 1.
Definition SecurityReality : Z := 2.

Record Route := mkRoute {
  Route_Id : Z;
  Match : option (list string);
  Action : string;
  ActionValue : option string
}.

Record RealtimeBaseConfig := mkRealtimeBaseConfig {
  rb_Enabled : bool;
  rb_URL : string;
  rb_PingInterval : AnyValue
}.

Record BaseConfig := mkBaseConfig {
  bc_PushInterval : AnyValue;
  bc_PullInterval : AnyValue;
  DeviceOnlineMinTraffic : Z;
  NodeReportMinTraffic : Z;
  DeviceLimitFallback : Z;
  Realtime : option RealtimeBaseConfig
}.

Record TlsSettings := mkTlsSettings {
  tls_ServerName : string;
  ALPN : option (list string);
  Dest : string;
  tls_ServerPort : string;
  ShortId : string;
  tls_PrivateKey : string;
  Mldsa65Seed : string;
  Xver : Z;
  tls_CertMode : string;
  tls_CertFile : string;
  tls_KeyFile : string;
  tls_Provider : string;
  tls_DNSEnv : string;
  tls_RejectUnknownSni : string
}.

Record CertInfo := mkCertInfo {
  CertMode : string;
  CertFile : string;
  KeyFile : string;
  Email : string;
  CertDomain : string;
  DNSEnv : gmap string string;
  Provider : string;
  RejectUnknownSni : bool
}.

Record EncSettings := mkEncSettings {
  enc_Mode : string;
  Ticket : string;
  ServerPadding : string;
  enc_PrivateKey : string
}.

Record CommonNode := mkCommonNode {
  Protocol : string;
  ListenIP : string;
  ServerPort : Z;
  Port : string;
  Ports : string;
  Routes : option (list Route);
  Base_Config : option BaseConfig;
  Tls : Z;
  Tls_Settings : TlsSettings;
  Cert_Info : option CertInfo;
  Network : string;
  NetworkSettings : option Json.RawMessage;
  Encryption : string;
  EncryptionSettings : EncSettings;
  ServerName : string;
  Flow : string;
  Cipher : string;
  ServerKey : string;
  CongestionControl : string;
  ZeroRTTHandshake : bool;
  PaddingScheme : option (list string);
  UpMbps : Z;
  DownMbps : Z;
  Obfs : string;
  ObfsPassword : string;
  Ignore_Client_Bandwidth : bool;
  Transport : string;
  Multiplexing : string
}.

Record NodeInfo := mkNodeInfo {
  NodeInfo_Id : Z;
  Type_ : string;
  Security : Z;
  PushInterval : Z;
  PullInterval : Z;
  Tag : string;
  Common : option CommonNode
}.

#[global] Instance Route_eq_dec : EqDecision Route.
Proof. solve_decision. Defined.

#[global] Instance RealtimeBaseConfig_eq_dec : EqDecision RealtimeBaseConfig.
Proof. solve_decision. Defined.

#[global] Instance BaseConfig_eq_dec : EqDecision BaseConfig.
Proof. solve_decision. Defined.

#[global] Instance TlsSettings_eq_dec : EqDecision TlsSettings.
Proof. solve_decision. Defined.

#[global] Instance CertInfo_eq_dec : EqDecision CertInfo.
Proof. solve_decision. Defined.

#[global] Instance EncSettings_eq_dec : EqDecision EncSettings.
Proof. solve_decision. Defined.

#[global] Instance CommonNode_eq_dec : EqDecision CommonNode.
Proof. solve_decision. Defined.

#[global] Instance NodeInfo_eq_dec : EqDecision NodeInfo.
Proof. solve_decision. Defined.

(** The conversion of a float64 to [int]: towards zero; what is out of range
    is the least integer, as on amd64. *)
Definition floatToInt (m e : Z) : Z :=
  let z := if 0 <=? e then m * 2 ^ e else Z.quot m (2 ^ (- e)) in
  if bool_decide (i64 z) then z else - 2 ^ 63.

(** [time.Duration(n) * time.Second] *)
Definition seconds (n : Z) : Z := wrap64 (n * 1000000000).

(** [intervalToTime]; [None] is the panic of [reflect.Value.Int] on a value that
    is not an integer. *)
Definition intervalToTime (i : AnyValue) : option Z :=
  match i with
  | AnyNil => Some 0
  | AnyInt z => Some (seconds z)
  | AnyString s => Some (seconds (GoStrings.AtoiValue s))
  | AnyFloat m e => Some (seconds (floatToInt m e))
  | AnyBool _ | AnyJson _ => None
  end.

(** The elements of a slice; a nil slice has none. *)
Definition slice {A} (s : option (list A)) : list A := default [] s.

(** The zero values that Go gives to the fields a literal does not name. *)
Definition zeroTls : TlsSettings :=
  mkTlsSettings "" None "" "" "" "" "" 0 "" "" "" "" "" "".

Definition zeroCommon : CommonNode :=
  mkCommonNode "" "" 0 "" "" None None 0 zeroTls None "" None "" (mkEncSettings "" "" "" "")
    "" "" "" "" "" false None 0 0 "" "" false "" "".

(** [defaultDeviceLimitFromNode] (node/controller.go). *)
Definition defaultDeviceLimitFromNode (node : option NodeInfo) : Z :=
  match node with
  | None => 0
  | Some n =>
      match Common n with
      | None => 0
      | Some c =>
          match Base_Config c with
          | None => 0
          | Some b =>
              if DeviceLimitFallback b <? 0 then 0
              else if max_int32 <? DeviceLimitFallback b then max_int32
              else DeviceLimitFallback b
          end
      end
  end.

End Panel.
