(* ===== verification/Conf.v ===== *)
(** * Configuration (conf/conf.go, conf/v2.go)

    The configuration of the program, the two file formats it is read from,
    and the normalisation of what was read. Reading a file and decoding it
    into the structs of a format is viper's; a file is therefore what viper
    answers about it ([ConfigFile]). *)

From Stdlib Require Import Ascii.
From S2P Require Import Prelude GoStrings FilePath Panel.

Module Conf.
Import GoStrings FilePath.

Definition DefaultNodeConfigDir : string := "/etc/v2node".

Definition DefaultEdgeURL : string := "http://127.0.0.1:17990".

(** ** The configuration *)

Record LogConfig := mkLogConfig {
  Level : string;
  CoreLevel : string;
  Output : string;
  Access : string
}.

Record NodeConfig := mkNodeConfig {
  APIHost : string;
  NodeID : Z;
  Key : string;
  MachineID : Z;
  Timeout : Z;
  ConfigDir : string
}.

Record RealtimeConfig := mkRealtimeConfig {
  rc_Enabled : bool;
  rc_URL : string;
  PingInterval : Z;
  ReconnectInterval : Z
}.

Record MachineProfileConfig := mkMachineProfileConfig {
  mp_Name : string;
  mp_APIHost : string;
  mp_Key : string;
  mp_MachineID : Z;
  mp_Timeout : Z;
  mp_ConfigDir : string;
  mp_Realtime : RealtimeConfig
}.

Record MachineConfig := mkMachineConfig {
  mc_Enabled : bool;
  ContinueOnError : bool;
  Profiles : list MachineProfileConfig
}.

Record SubscriptionProxyProfile := mkSubscriptionProxyProfile {
  sp_SiteID : string;
  sp_UpstreamBaseURL : string;
  sp_SubscribePath : string
}.

Record ZeroSSLConfig := mkZeroSSLConfig {
  Status : string;
  CertificateID : string;
  ValidationPath : string;
  ValidationContent : Panel.AnyValue;
  CertificatePEM : string;
  CABundlePEM : string;
  ExpiresAt : string
}.

Record SubscriptionProxyConfig := mkSubscriptionProxyConfig {
  px_Enabled : bool;
  HTTPSListen : string;
  HTTPListen : string;
  CertFile : string;
  KeyFile : string;
  CertificateDomain : string;
  ChallengeDir : string;
  ZeroSSL : ZeroSSLConfig;
  SiteID : string;
  UpstreamBaseURL : string;
  SubscribePath : string;
  AllowHTTPFallback : bool;
  MaxResponseBytes : Z;
  px_Profiles : list SubscriptionProxyProfile
}.

Record RuntimeConfig := mkRuntimeConfig {
  GoMemLimit : string;
  GOGC : Z;
  AutoHY2PortForward : bool
}.

Record EdgeConfig := mkEdgeConfig { ec_Enabled : bool; ec_URL : string; ec_Timeout : Z }.

Record DNSConfig := mkDNSConfig { Servers : list string; QueryStrategy : string }.

Record Conf := mkConf {
  cf_Log : LogConfig;
  cf_Nodes : list NodeConfig;
  cf_Machine : MachineConfig;
  cf_Agent : SubscriptionProxyConfig;
  cf_DNS : DNSConfig;
  PprofPort : Z;
  HealthPort : Z;
  cf_Runtime : RuntimeConfig;
  cf_Realtime : RealtimeConfig;
  cf_Edge : EdgeConfig
}.

#[global] Instance NodeConfig_eq_dec : EqDecision NodeConfig.
Proof. solve_decision. Defined.

#[global] Instance RealtimeConfig_eq_dec : EqDecision RealtimeConfig.
Proof. solve_decision. Defined.

Definition zeroRealtime : RealtimeConfig := mkRealtimeConfig false "" 0 0.

Definition zeroProxy : SubscriptionProxyConfig :=
  mkSubscriptionProxyConfig false "" "" "" "" "" "" (mkZeroSSLConfig "" "" "" Panel.AnyNil "" "" "")
    "" "" "" false 0 [].

Definition New : Conf :=
  mkConf (mkLogConfig "info" "" "" "none") [] (mkMachineConfig false false []) zeroProxy
    (mkDNSConfig [] "") 0 0 (mkRuntimeConfig "" 0 false) zeroRealtime
    (mkEdgeConfig false DefaultEdgeURL 2).

(** ** Normalisation *)

Definition NormalizeConfigDir (path : string) : string :=
  if bool_decide (path = "") then DefaultNodeConfigDir else Clean path.

Definition withConfigDir (dir : string) (n : NodeConfig) : NodeConfig :=
  mkNodeConfig (APIHost n) (NodeID n) (Key n) (MachineID n) (Timeout n) dir.

Definition normalizeNodeConfigs (nodes : list NodeConfig) : list NodeConfig :=
  (λ n, withConfigDir (NormalizeConfigDir (ConfigDir n)) n) <$> nodes.

Definition normalizeMachineProfiles (profiles : list MachineProfileConfig) : list MachineProfileConfig :=
  (λ p, if bool_decide (mp_ConfigDir p = "") then p
        else mkMachineProfileConfig (mp_Name p) (mp_APIHost p) (mp_Key p) (mp_MachineID p)
               (mp_Timeout p) (NormalizeConfigDir (mp_ConfigDir p)) (mp_Realtime p)) <$> profiles.

Definition normalizeEdgeConfig (edge : EdgeConfig) : EdgeConfig :=
  mkEdgeConfig (ec_Enabled edge)
    (if bool_decide (ec_URL edge = "") then DefaultEdgeURL else ec_URL edge)
    (if ec_Timeout edge <=? 0 then 2 else ec_Timeout edge).

(** The three normalisations that end [LoadFromPath]. *)
Definition normalize (p : Conf) : Conf :=
  mkConf (cf_Log p) (normalizeNodeConfigs (cf_Nodes p))
    (mkMachineConfig (mc_Enabled (cf_Machine p)) (ContinueOnError (cf_Machine p))
       (normalizeMachineProfiles (Profiles (cf_Machine p))))
    (cf_Agent p) (cf_DNS p) (PprofPort p) (HealthPort p) (cf_Runtime p) (cf_Realtime p)
    (normalizeEdgeConfig (cf_Edge p)).

(** ** The second file format *)

Record panelConfigV2 := mkPanelV2 {
  pn_URL : string;
  pn_Token : string;
  pn_NodeID : Z;
  pn_MachineID : Z;
  pn_Timeout : Z
}.

Record kernelConfigV2 := mkKernelV2 {
  kn_Type : string;
  kn_ConfigDir : string;
  kn_LogLevel : string;
  kn_DNSServers : list string;
  kn_IPStrategy : string
}.

Record logConfigV2 := mkLogV2 { lg_Level : string; lg_Output : string; lg_Access : string }.

Record runtimeConfigV2 := mkRuntimeV2 {
  rt_GoMemLimit : string;
  rt_GOGC : Z;
  rt_AutoHY2PortForward : bool
}.

Record realtimeConfigV2 := mkRealtimeV2 {
  re_Enabled : option bool;
  re_URL : string;
  re_PingInterval : Z;
  re_ReconnectInterval : Z
}.

Record machineProfileConfigV2 := mkMachineProfileV2 {
  pr_Name : string;
  pr_URL : string;
  pr_Token : string;
  pr_MachineID : Z;
  pr_Timeout : Z;
  pr_ConfigDir : string
}.

Record machineConfigV2 := mkMachineV2 {
  ma_Enabled : bool;
  ma_ContinueOnError : option bool;
  ma_Profiles : list machineProfileConfigV2
}.

Record edgeConfigV2 := mkEdgeV2 { ed_Enabled : bool; ed_URL : string; ed_Timeout : Z }.

Record nodeConfigV2 := mkNodeV2 {
  nd_URL : string;
  nd_Token : string;
  nd_NodeID : Z;
  nd_MachineID : Z;
  nd_Timeout : Z;
  nd_ConfigDir : string
}.

(** The agent's section has the fields of [SubscriptionProxyConfig]. *)
Record configV2 := mkConfigV2 {
  v2_Panel : panelConfigV2;
  v2_Kernel : kernelConfigV2;
  v2_Log : logConfigV2;
  v2_Runtime : runtimeConfigV2;
  v2_Realtime : realtimeConfigV2;
  v2_Machine : machineConfigV2;
  v2_Agent : SubscriptionProxyConfig;
  v2_Edge : edgeConfigV2;
  v2_Health : Z;
  v2_Pprof : Z;
  v2_Nodes : list nodeConfigV2
}.

Definition firstNonEmpty (values : list string) : string :=
  default "" (List.find (λ v, negb (bool_decide (v = ""))) values).

Definition firstPositive (values : list Z) : Z :=
  default 0 (List.find (λ v, 0 <? v) values).

Definition normalizeStringStep (s : list string * gset string) (value : string)
    : list string * gset string :=
  let '(normalized, seen) := s in
  let cleaned := TrimSpace value in
  if bool_decide (cleaned = "" ∨ cleaned ∈ seen) then s
  else (normalized ++ [cleaned], {[cleaned]} ∪ seen).

Definition normalizeStringList (values : list string) : list string :=
  (foldl normalizeStringStep ([], ∅) values).1.

Definition resolveNodeConfigDir (baseDir override : string) (nodeID : Z) (multiNode : bool) : string :=
  if bool_decide (TrimSpace override ≠ "") then NormalizeConfigDir override
  else
    let root := NormalizeConfigDir baseDir in
    if multiNode then Join2 root ("node-" +:+ Itoa nodeID) else root.

Definition is_slash (a : ascii) : bool := Ascii.eqb a "/".

Definition confZeroSSLFromV2 (src : ZeroSSLConfig) : ZeroSSLConfig :=
  mkZeroSSLConfig (TrimSpace (Status src)) (TrimSpace (CertificateID src))
    (TrimSpace (ValidationPath src)) (ValidationContent src) (TrimSpace (CertificatePEM src))
    (TrimSpace (CABundlePEM src)) (TrimSpace (ExpiresAt src)).

Definition subscriptionProxyFromV2 (src : SubscriptionProxyConfig) : SubscriptionProxyConfig :=
  let profiles :=
    (λ row, mkSubscriptionProxyProfile (TrimSpace (sp_SiteID row))
              (TrimSpace (sp_UpstreamBaseURL row))
              (Trim is_slash (TrimSpace (sp_SubscribePath row)))) <$> px_Profiles src in
  mkSubscriptionProxyConfig (px_Enabled src || negb (bool_decide (profiles = [])))
    (TrimSpace (HTTPSListen src)) (TrimSpace (HTTPListen src)) (TrimSpace (CertFile src))
    (TrimSpace (KeyFile src)) (TrimSpace (CertificateDomain src)) (TrimSpace (ChallengeDir src))
    (confZeroSSLFromV2 (ZeroSSL src)) (TrimSpace (SiteID src))
    (TrimRight is_slash (TrimSpace (UpstreamBaseURL src)))
    (Trim is_slash (TrimSpace (SubscribePath src))) (AllowHTTPFallback src)
    (MaxResponseBytes src) profiles.

(** A trimmed value replaces the old one unless it is empty. *)
Definition orTrimmed (value old : string) : string :=
  if bool_decide (TrimSpace value ≠ "") then TrimSpace value else old.

Definition orPositive (value old : Z) : Z := if 0 <? value then value else old.

(** The loop over [cfg.Machine.Profiles]; [None] is its error. *)
Fixpoint profilesFromV2 (baseAPIHost baseToken : string) (baseTimeout : Z)
    (rows : list machineProfileConfigV2) : option (list MachineProfileConfig) :=
  match rows with
  | [] => Some []
  | row :: rows =>
      let apiHost := firstNonEmpty [TrimSpace (pr_URL row); baseAPIHost] in
      let token := firstNonEmpty [TrimSpace (pr_Token row); baseToken] in
      let timeout := if pr_Timeout row <=? 0 then baseTimeout else pr_Timeout row in
      let name := TrimSpace (pr_Name row) in
      let name := if bool_decide (name = "") && (0 <? pr_MachineID row)
                  then "machine-" +:+ Itoa (pr_MachineID row) else name in
      if bool_decide (apiHost = "") || bool_decide (token = "") || (pr_MachineID row <=? 0) then None
      else
        match profilesFromV2 baseAPIHost baseToken baseTimeout rows with
        | None => None
        | Some profiles =>
            Some (mkMachineProfileConfig name apiHost token (pr_MachineID row) timeout
                    (TrimSpace (pr_ConfigDir row)) zeroRealtime :: profiles)
        end
  end.

(** The loop over [cfg.Nodes]. *)
Fixpoint nodesFromV2 (baseAPIHost baseToken : string) (baseTimeout panelMachineID : Z)
    (baseConfigDir : string) (multiNode : bool) (rows : list nodeConfigV2)
    : option (list NodeConfig) :=
  match rows with
  | [] => Some []
  | row :: rows =>
      let apiHost := firstNonEmpty [TrimSpace (nd_URL row); baseAPIHost] in
      let token := firstNonEmpty [TrimSpace (nd_Token row); baseToken] in
      let timeout := if nd_Timeout row <=? 0 then baseTimeout else nd_Timeout row in
      if bool_decide (apiHost = "") || bool_decide (token = "") || (nd_NodeID row <=? 0) then None
      else
        match nodesFromV2 baseAPIHost baseToken baseTimeout panelMachineID baseConfigDir multiNode rows with
        | None => None
        | Some nodes =>
            Some (mkNodeConfig apiHost (nd_NodeID row) token
                    (firstPositive [nd_MachineID row; panelMachineID]) timeout
                    (resolveNodeConfigDir baseConfigDir (nd_ConfigDir row) (nd_NodeID row) multiNode)
                  :: nodes)
        end
  end.

(** The settings that are taken over before anything can fail. *)
Definition generalFromV2 (cfg : configV2) (p : Conf) : Conf :=
  let log := cf_Log p in
  let realtime := cf_Realtime p in
  let enabled := ma_Enabled (v2_Machine cfg) || negb (bool_decide (ma_Profiles (v2_Machine cfg) = [])) in
  mkConf
    (mkLogConfig (orTrimmed (lg_Level (v2_Log cfg)) (Level log))
       (orTrimmed (kn_LogLevel (v2_Kernel cfg)) (CoreLevel log))
       (orTrimmed (lg_Output (v2_Log cfg)) (Output log))
       (orTrimmed (lg_Access (v2_Log cfg)) (Access log)))
    (cf_Nodes p)
    (mkMachineConfig enabled
       (match ma_ContinueOnError (v2_Machine cfg) with
        | Some b => b
        | None => if enabled then true else ContinueOnError (cf_Machine p)
        end)
       (Profiles (cf_Machine p)))
    (cf_Agent p)
    (mkDNSConfig (normalizeStringList (kn_DNSServers (v2_Kernel cfg)))
       (TrimSpace (kn_IPStrategy (v2_Kernel cfg))))
    (v2_Pprof cfg) (v2_Health cfg)
    (mkRuntimeConfig (TrimSpace (rt_GoMemLimit (v2_Runtime cfg))) (rt_GOGC (v2_Runtime cfg))
       (rt_AutoHY2PortForward (v2_Runtime cfg)))
    (mkRealtimeConfig
       (default (rc_Enabled realtime) (re_Enabled (v2_Realtime cfg)))
       (orTrimmed (re_URL (v2_Realtime cfg)) (rc_URL realtime))
       (orPositive (re_PingInterval (v2_Realtime cfg)) (PingInterval realtime))
       (orPositive (re_ReconnectInterval (v2_Realtime cfg)) (ReconnectInterval realtime)))
    (cf_Edge p).

Definition withProfiles (profiles : list MachineProfileConfig) (agent : SubscriptionProxyConfig)
    (edge : EdgeConfig) (p : Conf) : Conf :=
  mkConf (cf_Log p) (cf_Nodes p)
    (mkMachineConfig (mc_Enabled (cf_Machine p)) (ContinueOnError (cf_Machine p)) profiles)
    agent (cf_DNS p) (PprofPort p) (HealthPort p) (cf_Runtime p) (cf_Realtime p) edge.

Definition withNodes (nodes : list NodeConfig) (p : Conf) : Conf :=
  mkConf (cf_Log p) nodes (cf_Machine p) (cf_Agent p) (cf_DNS p) (PprofPort p) (HealthPort p)
    (cf_Runtime p) (cf_Realtime p) (cf_Edge p).

(** [loadFromV2], once viper has decoded the file into [cfg]. The receiver is
    changed step by step, also when the result is an error. *)
Definition loadFromV2 (cfg : configV2) (p : Conf) : Conf * option GoError :=
  let p := generalFromV2 cfg p in
  let panel := v2_Panel cfg in
  let baseAPIHost := TrimSpace (pn_URL panel) in
  let baseToken := TrimSpace (pn_Token panel) in
  let baseTimeout := pn_Timeout panel in
  let baseConfigDir := NormalizeConfigDir (kn_ConfigDir (v2_Kernel cfg)) in
  match profilesFromV2 baseAPIHost baseToken baseTimeout (ma_Profiles (v2_Machine cfg)) with
  | None => (p, Some (errorf "config v2 machine profiles require url, token and machine_id"))
  | Some profiles =>
      let p := withProfiles profiles (subscriptionProxyFromV2 (v2_Agent cfg))
                 (mkEdgeConfig (ed_Enabled (v2_Edge cfg)) (TrimSpace (ed_URL (v2_Edge cfg)))
                    (ed_Timeout (v2_Edge cfg))) p in
      match v2_Nodes cfg with
      | [] =>
          match profiles with
          | _ :: _ => (withNodes [] p, None)
          | [] =>
              if bool_decide (baseAPIHost = "") || bool_decide (baseToken = "") || (pn_NodeID panel <=? 0)
              then (p, Some (errorf "config v2 requires panel.url, panel.token and panel.node_id when nodes is empty"))
              else (withNodes [mkNodeConfig baseAPIHost (pn_NodeID panel) baseToken (pn_MachineID panel)
                                 baseTimeout baseConfigDir] p, None)
          end
      | rows =>
          match nodesFromV2 baseAPIHost baseToken baseTimeout (pn_MachineID panel) baseConfigDir
                  (1 <? Z.of_nat (length rows)) rows with
          | None => (p, Some (errorf "config v2 nodes entries require node_id and inherit or define url/token"))
          | Some nodes => (withNodes nodes p, None)
          end
      end
  end.

(** ** Loading *)

(** A configuration file, as the file system and viper answer about it: the
    error of opening and of reading it, the keys it sets, and what decoding
    it gives in each format. *)
Record ConfigFile := mkConfigFile {
  openError : option GoError;
  readError : option GoError;
  isSet : string → bool;
  decodeV2 : result configV2;
  decodeV1 : Conf → Conf * option GoError
}.

Definition isConfigV2 (f : ConfigFile) : bool :=
  isSet f "panel" || isSet f "kernel" || isSet f "runtime" || isSet f "health_port"
  || isSet f "machine" || isSet f "edge".

Definition LoadFromPath (f : ConfigFile) (p : Conf) : Conf * option GoError :=
  match openError f with
  | Some e => (p, Some (errorf ("open config file error: " +:+ err_msg e)))
  | None =>
      match readError f with
      | Some e => (p, Some (errorf ("read config file error: " +:+ err_msg e)))
      | None =>
          if isConfigV2 f then
            match decodeV2 f with
            | Err e => (p, Some (wrapErr ("unmarshal config v2 error: " +:+ err_msg e) e))
            | Ok cfg =>
                match loadFromV2 cfg p with
                | (p, Some e) => (p, Some e)
                | (p, None) => (normalize p, None)
                end
            end
          else
            match decodeV1 f p with
            | (p, Some e) => (p, Some (errorf ("unmarshal config error: " +:+ err_msg e)))
            | (p, None) => (normalize p, None)
            end
      end
  end.

(** ** Watching *)

(** What the goroutine of [Watch] does with an event: [pre] is the time of the
    last event that was acted on. Changes of the file mode are ignored, and
    so is everything within ten seconds. *)
Definition watchEvent (chmod : bool) (now pre : Z) : Z * bool :=
  if chmod then (pre, false)
  else if now <? pre + 10000000000 then (pre, false)
  else (now, true).

(** The reload that such an event starts: the configuration starts again from
    the defaults, and the callback runs on it whatever loading answers. *)
Definition reloadConfig (f : ConfigFile) (p : Conf) : Conf := (LoadFromPath f New).1.

(** ** Finding the file *)

(** [filepath.Ext], on the reversed path. *)
Fixpoint ext_bytes (acc l : list ascii) : list ascii :=
  match l with
  | [] => []
  | a :: l => if Ascii.eqb a "/" then [] else if Ascii.eqb a "." then a :: acc else ext_bytes (a :: acc) l
  end.

Definition Ext (path : string) : string := of_bytes (ext_bytes [] (rev (bytes path))).

(** [ResolveConfigPath]: the file itself, or the one with the other extension
    that exists. *)
Definition ResolveConfigPath (exists_ : string → bool) (filePath : string) : string :=
  if bool_decide (filePath = "") then filePath
  else if exists_ filePath then filePath
  else
    let ext := Ext filePath in
    let base := of_bytes (take (String.length filePath - String.length ext) (bytes filePath)) in
    if bool_decide (ext = ".json") then
      if exists_ (base +:+ ".yml") then base +:+ ".yml"
      else if exists_ (base +:+ ".yaml") then base +:+ ".yaml"
      else filePath
    else if bool_decide (ext = ".yml" ∨ ext = ".yaml") then
      if exists_ (base +:+ ".json") then base +:+ ".json" else filePath
    else filePath.

Example ResolveConfigPath_yml :
  ResolveConfigPath (String.eqb "/etc/v2node/config.yml") "/etc/v2node/config.json" = "/etc/v2node/config.yml".
Proof. vm_compute. reflexivity. Qed.

End Conf.
