(* ===== verification/ConfProps.v ===== *)
(** * Properties of the configuration

    What an accepted configuration guarantees to the rest of the program
    ([LoadFromPath_valid]), and that several nodes of one configuration do
    not share a directory ([configDirs_distinct]). *)

From Stdlib Require Import Ascii.
From S2P Require Import Prelude GoStrings FilePath Panel Conf.

Module ConfProps.
Import Conf GoStrings FilePath.

(** ** Lists of strings *)

Lemma normalizeStringSteps_spec values out (seen : gset string) :
  (∀ v, v ∈ seen ↔ v ∈ out) → NoDup out → Forall (λ v, v ≠ "") out →
  let '(out', seen') := foldl normalizeStringStep (out, seen) values in
  (∀ v, v ∈ seen' ↔ v ∈ out') ∧ NoDup out' ∧ Forall (λ v, v ≠ "") out'
  ∧ (∀ v, v ∈ out' ↔ v ∈ out ∨ v ≠ "" ∧ v ∈ TrimSpace <$> values)
  ∧ ∃ rest, out' = out ++ rest ∧ rest `sublist_of` (TrimSpace <$> values).
Proof.
  revert out seen. induction values as [|x values IH]; intros out seen Hs Hnd Hne; cbn [foldl].
  { split_and!; try done; [set_solver|]. exists []. by rewrite app_nil_r. }
  unfold normalizeStringStep at 2. case_bool_decide as Hx.
  - specialize (IH out seen Hs Hnd Hne). destruct (foldl _ (out, seen) values) as [out' seen'].
    destruct IH as (H1 & H2 & H3 & H4 & rest & H5 & H6). split_and!; try done.
    + intros v. rewrite H4. cbn. rewrite elem_of_cons. rewrite Hs in Hx. naive_solver.
    + exists rest. split; [done|]. cbn. by constructor.
  - specialize (IH (out ++ [TrimSpace x]) ({[TrimSpace x]} ∪ seen)).
    destruct (foldl _ (out ++ [TrimSpace x], _) values) as [out' seen']. rewrite Hs in Hx.
    destruct IH as (H1 & H2 & H3 & H4 & rest & H5 & H6).
    + intros v. rewrite elem_of_union, elem_of_singleton, Hs, elem_of_app, list_elem_of_singleton. tauto.
    + apply NoDup_app. split_and!; [done| |apply NoDup_singleton].
      intros v Hv ->%list_elem_of_singleton. tauto.
    + apply Forall_app. split; [done|]. apply Forall_singleton. tauto.
    + split_and!; try done.
      * intros v. rewrite H4, elem_of_app, list_elem_of_singleton. cbn. rewrite elem_of_cons. naive_solver.
      * exists (TrimSpace x :: rest). split; [by rewrite H5, <- app_assoc|]. cbn. by constructor.
Qed.

(** The list of DNS servers: the trimmed entries that are not empty, each
    once, in the order of the file. *)
Lemma normalizeStringList_spec values :
  NoDup (normalizeStringList values)
  ∧ (∀ v, v ∈ normalizeStringList values ↔ v ≠ "" ∧ v ∈ TrimSpace <$> values)
  ∧ normalizeStringList values `sublist_of` (TrimSpace <$> values).
Proof.
  unfold normalizeStringList. pose proof (normalizeStringSteps_spec values [] ∅) as Hspec.
  destruct (foldl _ _ values) as [out seen]. destruct Hspec as (_ & H2 & _ & H4 & rest & -> & H6);
    [set_solver|apply NoDup_nil_2|by constructor|]. split_and!; [done| |done].
  intros v. cbn [fst]. rewrite H4. set_solver.
Qed.

(** ** Directories *)

Lemma NormalizeConfigDir_nonempty path : NormalizeConfigDir path ≠ "".
Proof. unfold NormalizeConfigDir. case_bool_decide; [done|apply Clean_nonempty]. Qed.

Lemma NormalizeConfigDir_clean path : Clean (NormalizeConfigDir path) = NormalizeConfigDir path.
Proof. unfold NormalizeConfigDir. case_bool_decide; [by vm_compute|apply Clean_idem]. Qed.

Lemma NormalizeConfigDir_idem path : NormalizeConfigDir (NormalizeConfigDir path) = NormalizeConfigDir path.
Proof.
  unfold NormalizeConfigDir at 1. rewrite bool_decide_false by apply NormalizeConfigDir_nonempty.
  apply NormalizeConfigDir_clean.
Qed.

Lemma digit_not_slash a : is_digit a = true → a ≠ "/"%char.
Proof. by intros Ha ->. Qed.

Lemma plain_node id : 0 <= id → plain ("node-" +:+ Itoa id).
Proof.
  intros Hid. unfold plain. split_and!; try done. rewrite bytes_app. apply Forall_app. split.
  - repeat constructor; done.
  - eapply Forall_impl; [by apply Itoa_digits|]. apply digit_not_slash.
Qed.

Lemma resolveNodeConfigDir_normal base override id multi :
  0 <= id → NormalizeConfigDir (resolveNodeConfigDir base override id multi)
            = resolveNodeConfigDir base override id multi.
Proof.
  intros Hid. unfold resolveNodeConfigDir. case_bool_decide; [apply NormalizeConfigDir_idem|].
  destruct multi; [|apply NormalizeConfigDir_idem].
  pose proof (NormalizeConfigDir_nonempty base) as Hne.
  pose proof (Join2_clean (NormalizeConfigDir base) _ Hne (plain_node id Hid)) as Hc.
  unfold NormalizeConfigDir at 1. case_bool_decide as He; [|done]. rewrite He in Hc. by vm_compute in Hc.
Qed.

(** ** Accepted configurations *)

(** What the rest of the program relies on. *)
Definition validNode (n : NodeConfig) : Prop :=
  APIHost n ≠ "" ∧ Key n ≠ "" ∧ 0 < NodeID n ∧ NormalizeConfigDir (ConfigDir n) = ConfigDir n.

Definition validProfile (p : MachineProfileConfig) : Prop :=
  mp_Name p ≠ "" ∧ mp_APIHost p ≠ "" ∧ mp_Key p ≠ "" ∧ 0 < mp_MachineID p.

Lemma profilesFromV2_valid host token timeout rows profiles :
  profilesFromV2 host token timeout rows = Some profiles →
  Forall validProfile profiles ∧ length profiles = length rows.
Proof.
  revert profiles. induction rows as [|row rows IH]; intros profiles; cbn [profilesFromV2].
  { by intros [= <-]. }
  destruct (_ || _ || _) eqn:Hbad; [done|]. bool_to_prop.
  destruct (profilesFromV2 host token timeout rows) as [ps|]; [|done]. intros [= <-].
  destruct (IH ps eq_refl) as [Hps Hlen]. split; [|cbn; by f_equal].
  constructor; [|done]. unfold validProfile. cbn [mp_Name mp_APIHost mp_Key mp_MachineID]. split_and!; try done.
  case_bool_decide as Hn; cbn [andb]; [|done]. rewrite (proj2 (Z.ltb_lt _ _)) by done. done.
Qed.

Lemma nodesFromV2_spec host token timeout machine base multi rows nodes :
  nodesFromV2 host token timeout machine base multi rows = Some nodes →
  Forall2 (λ row n, APIHost n ≠ "" ∧ Key n ≠ "" ∧ 0 < NodeID n ∧ NodeID n = nd_NodeID row
             ∧ ConfigDir n = resolveNodeConfigDir base (nd_ConfigDir row) (nd_NodeID row) multi) rows nodes.
Proof.
  revert nodes. induction rows as [|row rows IH]; intros nodes; cbn [nodesFromV2].
  { intros [= <-]. constructor. }
  destruct (_ || _ || _) eqn:Hbad; [done|]. bool_to_prop.
  destruct (nodesFromV2 host token timeout machine base multi rows) as [ns|]; [|done]. intros [= <-].
  constructor; [|by apply IH]. by split_and!.
Qed.

Lemma normalizeNodeConfigs_valid nodes :
  Forall (λ n, APIHost n ≠ "" ∧ Key n ≠ "" ∧ 0 < NodeID n) nodes → Forall validNode (normalizeNodeConfigs nodes).
Proof.
  intros Hn. apply Forall_fmap. eapply Forall_impl; [exact Hn|]. intros n (H1 & H2 & H3).
  cbn. split_and!; try done. apply NormalizeConfigDir_idem.
Qed.

Lemma normalizeMachineProfiles_valid profiles :
  Forall validProfile profiles → Forall validProfile (normalizeMachineProfiles profiles).
Proof.
  intros Hp. apply Forall_fmap. eapply Forall_impl; [exact Hp|]. intros p Hv. cbn. by case_bool_decide.
Qed.

Lemma loadFromV2_nodes cfg p p' :
  loadFromV2 cfg p = (p', None) →
  Forall (λ n, APIHost n ≠ "" ∧ Key n ≠ "" ∧ 0 < NodeID n) (cf_Nodes p')
  ∧ Forall validProfile (Profiles (cf_Machine p'))
  ∧ (cf_Nodes p' ≠ [] ∨ Profiles (cf_Machine p') ≠ []).
Proof.
  unfold loadFromV2. destruct (profilesFromV2 _ _ _ _) as [profiles|] eqn:Hp; [|done].
  apply profilesFromV2_valid in Hp as [Hp _]. destruct (v2_Nodes cfg) as [|row rows].
  - destruct profiles as [|pr prs].
    + destruct (_ || _ || _) eqn:Hbad; [done|]. bool_to_prop. intros [= <-]. cbn.
      split_and!; [|done|by left]. by apply Forall_singleton.
    + intros [= <-]. cbn. split_and!; [constructor|done|by right].
  - destruct (nodesFromV2 _ _ _ _ _ _ _) as [nodes|] eqn:Hn; [|done]. intros [= <-]. cbn.
    apply nodesFromV2_spec in Hn. split_and!; [|done|left; by inversion Hn].
    apply Forall_forall. intros n [i Hi]%list_elem_of_lookup.
    destruct (Forall2_lookup_r _ _ _ _ _ Hn Hi) as (r & _ & H1 & H2 & H3 & _). done.
Qed.

(** A configuration read from a file of the second format that the program
    accepts: every node and every machine profile has a panel address, a key
    and a positive id (inherited or its own), every directory is absolute or
    relative but clean, so that reading it again changes nothing, there is at
    least one node or profile, and the edge agent has an address and a
    timeout. *)
Theorem LoadFromPath_valid f p p' :
  isConfigV2 f = true → LoadFromPath f p = (p', None) →
  Forall validNode (cf_Nodes p')
  ∧ Forall validProfile (Profiles (cf_Machine p'))
  ∧ (cf_Nodes p' ≠ [] ∨ Profiles (cf_Machine p') ≠ [])
  ∧ ec_URL (cf_Edge p') ≠ "" ∧ 0 < ec_Timeout (cf_Edge p')
  ∧ normalize p' = p'.
Proof.
  intros Hv2. unfold LoadFromPath. rewrite Hv2. destruct (openError f); [done|]. destruct (readError f); [done|].
  destruct (decodeV2 f) as [cfg|]; [|done]. destruct (loadFromV2 cfg p) as [q [e|]] eqn:E; [done|]. intros [= <-].
  destruct (loadFromV2_nodes _ _ _ E) as (Hn & Hp & Hne).
  cbn [normalize cf_Nodes cf_Machine Profiles cf_Edge ec_URL ec_Timeout normalizeEdgeConfig]. split_and!.
  - by apply normalizeNodeConfigs_valid.
  - by apply normalizeMachineProfiles_valid.
  - unfold normalizeNodeConfigs, normalizeMachineProfiles.
    destruct Hne; [left|right]; intros Hnil; by apply fmap_nil_inv in Hnil.
  - by case_bool_decide.
  - destruct (Z.leb_spec (ec_Timeout (cf_Edge q)) 0); lia.
  - unfold normalize. cbn. f_equal.
    + unfold normalizeNodeConfigs. rewrite <- list_fmap_compose. apply list_fmap_ext. intros _ n _. cbn.
      unfold withConfigDir. cbn. by rewrite NormalizeConfigDir_idem.
    + f_equal. unfold normalizeMachineProfiles. rewrite <- list_fmap_compose. apply list_fmap_ext. intros _ pr _. cbn.
      destruct (decide (mp_ConfigDir pr = "")) as [H1|H1].
      * by rewrite !(bool_decide_true (mp_ConfigDir pr = "")).
      * rewrite !(bool_decide_false (mp_ConfigDir pr = "")) by done. cbn.
        rewrite bool_decide_false by apply NormalizeConfigDir_nonempty. by rewrite NormalizeConfigDir_idem.
    + unfold normalizeEdgeConfig. cbn. f_equal.
      * repeat case_bool_decide; try done.
      * destruct (Z.leb_spec (ec_Timeout (cf_Edge q)) 0); [done|]. destruct (Z.leb_spec (ec_Timeout (cf_Edge q)) 0); [lia|done].
Qed.

(** Several nodes without a directory of their own get one each: two nodes
    of an accepted configuration have the same directory only if they have
    the same id. (The node's certificate and the cached user list live in
    it.) *)
Theorem configDirs_distinct f cfg p p' i j row row' n n' :
  isConfigV2 f = true → decodeV2 f = Ok cfg → LoadFromPath f p = (p', None) →
  (1 < length (v2_Nodes cfg))%nat →
  v2_Nodes cfg !! i = Some row → v2_Nodes cfg !! j = Some row' →
  cf_Nodes p' !! i = Some n → cf_Nodes p' !! j = Some n' →
  TrimSpace (nd_ConfigDir row) = "" → TrimSpace (nd_ConfigDir row') = "" →
  i64 (nd_NodeID row) → i64 (nd_NodeID row') →
  ConfigDir n = ConfigDir n' ↔ NodeID n = NodeID n'.
Proof.
  intros Hv2 Hdec Hload Hlen Hi Hj Hn Hn' Ho Ho' Hid Hid'.
  unfold LoadFromPath in Hload. rewrite Hv2, Hdec in Hload.
  destruct (openError f); [done|]. destruct (readError f); [done|].
  destruct (loadFromV2 cfg p) as [q [e|]] eqn:E; [done|]. injection Hload as <-.
  unfold loadFromV2 in E. destruct (profilesFromV2 _ _ _ _) as [profiles|]; [|done].
  destruct (v2_Nodes cfg) as [|r0 rows]; [cbn in Hlen; lia|].
  destruct (nodesFromV2 _ _ _ _ _ _ _) as [nodes|] eqn:Hnodes; [|done]. injection E as <-.
  cbn [normalize cf_Nodes withNodes] in Hn, Hn'. unfold normalizeNodeConfigs in Hn, Hn'.
  rewrite (proj2 (Z.ltb_lt _ _)) in Hnodes by lia. apply nodesFromV2_spec in Hnodes.
  assert (Hdir : ∀ k r m, (r0 :: rows) !! k = Some r →
    ((λ n, withConfigDir (NormalizeConfigDir (ConfigDir n)) n) <$> nodes) !! k = Some m →
    TrimSpace (nd_ConfigDir r) = "" →
    0 < nd_NodeID r ∧ NodeID m = nd_NodeID r
    ∧ ConfigDir m = Join2 (NormalizeConfigDir (NormalizeConfigDir (kn_ConfigDir (v2_Kernel cfg)))) ("node-" +:+ Itoa (nd_NodeID r))).
  { intros k r m Hr Hm Hover. apply list_lookup_fmap_Some in Hm as (m0 & -> & Hm).
    destruct (Forall2_lookup_lr _ _ _ _ _ _ Hnodes Hr Hm) as (_ & _ & Hpos & Heq & Hd).
    cbn. rewrite Hd. rewrite Heq in Hpos. split_and!; [done|done|].
    rewrite resolveNodeConfigDir_normal by lia. unfold resolveNodeConfigDir. by rewrite Hover. }
  destruct (Hdir i row n Hi Hn Ho) as (H1 & -> & ->). destruct (Hdir j row' n' Hj Hn' Ho') as (H2 & -> & ->).
  split; [|by intros ->]. intros Heq%Join2_plain_inj.
  - apply app_string_inj_l in Heq. by apply Itoa_inj in Heq.
  - apply NormalizeConfigDir_nonempty.
  - apply plain_node. lia.
  - apply plain_node. lia.
Qed.

(** ** Examples at which the hypotheses hold *)

Module Examples.
Definition exampleRow (id : Z) : nodeConfigV2 := mkNodeV2 "" "" id 0 0 "".

(** Two nodes that inherit the panel. *)
Definition exampleV2 : configV2 :=
  mkConfigV2 (mkPanelV2 " https://panel.example/ " "token" 0 0 15) (mkKernelV2 "" "/opt//v2node/" "" ["1.1.1.1"; " 1.1.1.1"; ""] "")
    (mkLogV2 "" "" "") (mkRuntimeV2 "" 0 false) (mkRealtimeV2 None "" 0 0) (mkMachineV2 false None [])
    zeroProxy (mkEdgeV2 false "" 0) 0 0 [exampleRow 1; exampleRow 2].

Definition exampleFile : ConfigFile :=
  mkConfigFile None None (String.eqb "panel") (Ok exampleV2) (λ p, (p, None)).

Definition exampleConf : Conf := (LoadFromPath exampleFile New).1.

Example exampleConf_dirs : ConfigDir <$> cf_Nodes exampleConf = ["/opt/v2node/node-1"; "/opt/v2node/node-2"].
Proof. vm_compute. reflexivity. Qed.

Lemma exampleLoad : LoadFromPath exampleFile New = (exampleConf, None).
Proof. vm_compute. reflexivity. Qed.

Lemma LoadFromPath_valid_witness :
  Forall validNode (cf_Nodes exampleConf) ∧ Forall validProfile (Profiles (cf_Machine exampleConf))
  ∧ (cf_Nodes exampleConf ≠ [] ∨ Profiles (cf_Machine exampleConf) ≠ [])
  ∧ ec_URL (cf_Edge exampleConf) ≠ "" ∧ 0 < ec_Timeout (cf_Edge exampleConf)
  ∧ normalize exampleConf = exampleConf.
Proof. apply (LoadFromPath_valid exampleFile New exampleConf); [reflexivity|exact exampleLoad]. Defined.

Lemma configDirs_distinct_witness :
  match cf_Nodes exampleConf !! 0%nat, cf_Nodes exampleConf !! 1%nat with
  | Some n, Some n' => ConfigDir n = ConfigDir n' ↔ NodeID n = NodeID n'
  | _, _ => False
  end.
Proof.
  assert (Hlen : length (cf_Nodes exampleConf) = 2%nat) by (vm_compute; reflexivity).
  destruct (cf_Nodes exampleConf) as [|n [|n' rest]] eqn:E; [discriminate Hlen|discriminate Hlen|].
  cbn. apply (configDirs_distinct exampleFile exampleV2 New exampleConf 0 1 (exampleRow 1) (exampleRow 2)).
  - reflexivity.
  - reflexivity.
  - exact exampleLoad.
  - cbn. lia.
  - reflexivity.
  - reflexivity.
  - rewrite E. reflexivity.
  - rewrite E. reflexivity.
  - reflexivity.
  - reflexivity.
  - unfold i64. cbn. lia.
  - unfold i64. cbn. lia.
Defined.
End Examples.
End ConfProps.
