(* ===== verification/Limiter.v ===== *)
(** * The connection limiter (package limiter)

    Per node the limiter keeps the users' limits, the addresses each user is
    connected from, the addresses reported to the panel and the panel's own
    view of the alive addresses. [CheckLimit] decides for every new connection
    whether the device limit admits it and which token bucket shapes it.

    The [sync.Map]s of the code are finite maps; an operation is one atomic
    state transformer that happens at one instant [now] (nanoseconds);
    LimiterSteps.v takes the concurrent ones apart. The token buckets of juju/ratelimit are abstract. *)

From Stdlib Require Import Ascii.
From S2P Require Import Prelude GoStrings Panel.

Module Limiter.
Import GoStrings.

(** The operations of github.com/juju/ratelimit the limiter uses. *)
Class RateLimit := {
  Bucket : Type;
  (** [NewBucketWithQuantum(fillInterval, capacity, quantum)] *)
  NewBucketWithQuantum : Z → Z → Z → Bucket
}.

(** ** State *)

Record oldOnlineEntry := mkOldOnlineEntry { oe_UID : Z; ReportedAt : Z }.

(** The dynamic types [OldUserOnline] values are inspected for. *)
Inductive oldOnlineValue :=
| OldEntry (e : oldOnlineEntry)
| OldEntryPtr (e : option oldOnlineEntry)
| OldInt (uid : Z)
| OldOther.

Record UserLimitInfo := mkUserLimitInfo {
  UID : Z;
  SpeedLimit : Z;
  DeviceLimit : Z;
  DynamicSpeedLimit : Z;
  ExpireTime : Z;
  OverLimit : bool
}.

Record Limiter `{RateLimit} := mkLimiter {
  Tag : string;
  Nodetype : string;
  NodeSpeedLimit : Z;
  UserOnlineIP : gmap string (gmap string Z);
  OldUserOnline : gmap string oldOnlineValue;
  UUIDtoUID : gmap string Z;
  UserLimits : gmap string UserLimitInfo;
  SpeedLimiter : gmap string Bucket;
  aliveList : option (gmap Z Z);
  aliveIPList : option (gmap Z (gset string));
  aliveMode : Z;
  lastAlivePull : Z;
  defaultDeviceLimit : Z
}.

Definition reportedAliveBridgeTTL : Z := 120 * 1000000000.

Definition maxDefaultDeviceLimit : Z := max_int32.

(** [format.UserTag(tag, uuid)] *)
Definition UserTag (tag uuid : string) : string := tag +:+ String "|"%char uuid.

(** [determineSpeedLimit] (limiter/dynamic.go) *)
Definition determineSpeedLimit (limit1 limit2 : Z) : Z :=
  if (limit1 =? 0) || (limit2 =? 0) then
    if limit2 <? limit1 then limit1
    else if limit1 <? limit2 then limit2
    else 0
  else
    if limit2 <? limit1 then limit2
    else if limit1 <? limit2 then limit1
    else limit1.

Section limiter.
Context `{RL : RateLimit} {RO : RangeOrder string}.
Implicit Types l : Limiter.

(** Field updates. *)
Definition withUserOnlineIP m l : Limiter :=
  mkLimiter RL (Tag l) (Nodetype l) (NodeSpeedLimit l) m (OldUserOnline l) (UUIDtoUID l)
    (UserLimits l) (SpeedLimiter l) (aliveList l) (aliveIPList l) (aliveMode l)
    (lastAlivePull l) (defaultDeviceLimit l).

Definition withOldUserOnline m l : Limiter :=
  mkLimiter RL (Tag l) (Nodetype l) (NodeSpeedLimit l) (UserOnlineIP l) m (UUIDtoUID l)
    (UserLimits l) (SpeedLimiter l) (aliveList l) (aliveIPList l) (aliveMode l)
    (lastAlivePull l) (defaultDeviceLimit l).

Definition withUUIDtoUID m l : Limiter :=
  mkLimiter RL (Tag l) (Nodetype l) (NodeSpeedLimit l) (UserOnlineIP l) (OldUserOnline l) m
    (UserLimits l) (SpeedLimiter l) (aliveList l) (aliveIPList l) (aliveMode l)
    (lastAlivePull l) (defaultDeviceLimit l).

Definition withUserLimits m l : Limiter :=
  mkLimiter RL (Tag l) (Nodetype l) (NodeSpeedLimit l) (UserOnlineIP l) (OldUserOnline l)
    (UUIDtoUID l) m (SpeedLimiter l) (aliveList l) (aliveIPList l) (aliveMode l)
    (lastAlivePull l) (defaultDeviceLimit l).

Definition withSpeedLimiter m l : Limiter :=
  mkLimiter RL (Tag l) (Nodetype l) (NodeSpeedLimit l) (UserOnlineIP l) (OldUserOnline l)
    (UUIDtoUID l) (UserLimits l) m (aliveList l) (aliveIPList l) (aliveMode l)
    (lastAlivePull l) (defaultDeviceLimit l).

Definition withAlive lst ips mode pull l : Limiter :=
  mkLimiter RL (Tag l) (Nodetype l) (NodeSpeedLimit l) (UserOnlineIP l) (OldUserOnline l)
    (UUIDtoUID l) (UserLimits l) (SpeedLimiter l) lst ips mode pull (defaultDeviceLimit l).

Definition withDefaultDeviceLimit d l : Limiter :=
  mkLimiter RL (Tag l) (Nodetype l) (NodeSpeedLimit l) (UserOnlineIP l) (OldUserOnline l)
    (UUIDtoUID l) (UserLimits l) (SpeedLimiter l) (aliveList l) (aliveIPList l) (aliveMode l)
    (lastAlivePull l) d.

(** ** The panel's alive view *)

Definition SetAliveList (alive : option (gmap Z Z)) (l : Limiter) : Limiter :=
  withAlive (Some (default ∅ alive)) (aliveIPList l) (aliveMode l) (lastAlivePull l) l.

(** The normalised address set of one user; empty addresses are dropped. *)
Definition aliveIPSet (ips : list string) : gset string :=
  foldl (λ (ipSet : gset string) ip,
    let trimmed := TrimPrefix (TrimSpace ip) "::ffff:" in
    if bool_decide (trimmed = "") then ipSet else {[trimmed]} ∪ ipSet) ∅ ips.

Definition aliveIPSets (src : gmap Z (list string)) : gmap Z (gset string) :=
  omap (λ '(uid, ips),
    if uid <=? 0 then None
    else let ipSet := aliveIPSet ips in
         if bool_decide (size ipSet = 0%nat) then None else Some ipSet)
    (map_imap (λ uid ips, Some (uid, ips)) src).

Definition SetAliveSnapshot (now : Z) (snapshot : option Panel.AliveMap) (l : Limiter) : Limiter :=
  match snapshot with
  | None =>
      let l1 := SetAliveList None l in
      withAlive (aliveList l1) (Some ∅) 0 now l1
  | Some s =>
      let l1 := SetAliveList (Some (Panel.Alive s)) l in
      withAlive (aliveList l1) (Some (aliveIPSets (Panel.AliveIPs s)))
        (wrap32 (Panel.Mode s)) now l1
  end.

Definition SetDefaultDeviceLimit (limit : Z) (l : Limiter) : Limiter :=
  let limit :=
    if limit <? 0 then 0
    else if maxDefaultDeviceLimit <? limit then maxDefaultDeviceLimit
    else limit in
  withDefaultDeviceLimit (wrap32 limit) l.

Definition getDefaultDeviceLimit (l : Limiter) : Z := defaultDeviceLimit l.

Definition getAliveIP (uid : Z) (l : Limiter) : Z :=
  match aliveList l with
  | None => 0
  | Some v => default 0 (v !! uid)
  end.

Definition getAliveMode (l : Limiter) : Z := aliveMode l.

Definition hasGlobalAliveIP (uid : Z) (ip : string) (l : Limiter) : bool :=
  if negb (getAliveMode l =? 1) then false
  else match aliveIPList l with
       | None => false
       | Some ipSets =>
           match ipSets !! uid with
           | None => false
           | Some userIPs => bool_decide (ip ∈ userIPs)
           end
       end.

Definition deleteAliveIDs (ids : list Z) (l : Limiter) : Limiter :=
  match ids with
  | [] => l
  | _ =>
      match aliveList l with
      | None => l
      | Some cur =>
          if bool_decide (size cur = 0%nat) then l
          else withAlive (Some (foldl (λ next id, delete id next) cur ids))
                 (aliveIPList l) (aliveMode l) (lastAlivePull l) l
      end
  end.

(** ** The user table *)

(** The limits of a user as the panel sends them. *)
Definition newUserLimit (u : Panel.UserInfo) : UserLimitInfo :=
  mkUserLimitInfo (Panel.Id u)
    (if negb (Panel.SpeedLimit u =? 0) then Panel.SpeedLimit u else 0)
    (if negb (Panel.DeviceLimit u =? 0) then Panel.DeviceLimit u else 0)
    0 0 false.

(** The limiter [AddLimiter] builds (the registration is in [Registry]). *)
Definition newLimiter (nodetype tag : string) (users : list Panel.UserInfo)
    (alive : option (gmap Z Z)) : Limiter :=
  let info := SetAliveList alive (mkLimiter RL tag nodetype 0 ∅ ∅ ∅ ∅ ∅ None None 0 0 0) in
  let '(limits, uuidmap) :=
    foldl (λ '(limits, uuidmap) u,
      (<[UserTag tag (Panel.Uuid u) := newUserLimit u]> limits,
       <[Panel.Uuid u := Panel.Id u]> uuidmap))
      ((∅ : gmap string UserLimitInfo), (∅ : gmap string Z)) users in
  withUUIDtoUID uuidmap (withUserLimits limits info).

(** The two loops of [UpdateUser]. *)
Definition deleteUser (tag : string) (l : Limiter) (u : Panel.UserInfo) : Limiter :=
  let key := UserTag tag (Panel.Uuid u) in
  withUUIDtoUID (delete (Panel.Uuid u) (UUIDtoUID l))
    (withSpeedLimiter (delete key (SpeedLimiter l))
      (withUserOnlineIP (delete key (UserOnlineIP l))
        (withUserLimits (delete key (UserLimits l)) l))).

Definition addUser (tag : string) (l : Limiter) (u : Panel.UserInfo) : Limiter :=
  withUUIDtoUID (<[Panel.Uuid u := Panel.Id u]> (UUIDtoUID l))
    (withUserLimits (<[UserTag tag (Panel.Uuid u) := newUserLimit u]> (UserLimits l)) l).

Definition UpdateUser (tag : string) (added deleted : list Panel.UserInfo) (l : Limiter) : Limiter :=
  let l1 := foldl (deleteUser tag) l deleted in
  let l2 := deleteAliveIDs (Panel.Id <$> deleted) l1 in
  foldl (addUser tag) l2 added.

(** One iteration of [UpdateUserInfo]. *)
Definition updateUser (tag : string) (l : Limiter) (u : Panel.UserInfo) : Limiter :=
  let key := UserTag tag (Panel.Uuid u) in
  let info :=
    match UserLimits l !! key with
    | Some i => mkUserLimitInfo (Panel.Id u) (Panel.SpeedLimit u) (Panel.DeviceLimit u)
                  (DynamicSpeedLimit i) (ExpireTime i) false
    | None => mkUserLimitInfo (Panel.Id u) (Panel.SpeedLimit u) (Panel.DeviceLimit u) 0 0 false
    end in
  withSpeedLimiter (delete key (SpeedLimiter l))
    (withUUIDtoUID (<[Panel.Uuid u := Panel.Id u]> (UUIDtoUID l))
      (withUserLimits (<[key := info]> (UserLimits l)) l)).

Definition UpdateUserInfo (tag : string) (updated : list Panel.UserInfo) (l : Limiter) : Limiter :=
  foldl (updateUser tag) l updated.

(** [expire] is the expiry in Unix seconds. *)
Definition UpdateDynamicSpeedLimit (tag uuid : string) (limit expire : Z) (l : Limiter)
    : result Limiter :=
  match UserLimits l !! UserTag tag uuid with
  | Some i =>
      Ok (withUserLimits
            (<[UserTag tag uuid := mkUserLimitInfo (UID i) (SpeedLimit i) (DeviceLimit i)
                                     limit expire (OverLimit i)]> (UserLimits l)) l)
  | None => Err (errorf "not found")
  end.

(** ** Device accounting *)

Definition tracksUDPSource (l : Limiter) : bool :=
  bool_decide (Nodetype l = "hysteria2") || bool_decide (Nodetype l = "tuic").

(** The address map of a user, and whether it had to be created. *)
Definition getOrCreateUserOnlineIPMap (taguuid : string) (l : Limiter)
    : Limiter * gmap string Z * bool :=
  match UserOnlineIP l !! taguuid with
  | Some m => (l, m, false)
  | None => (withUserOnlineIP (<[taguuid := ∅]> (UserOnlineIP l)) l, ∅, true)
  end.

Definition oldOnlineEntryOf (value : oldOnlineValue) : option oldOnlineEntry :=
  match value with
  | OldEntry e => Some e
  | OldEntryPtr None => None
  | OldEntryPtr (Some e) => Some e
  | OldInt uid => Some (mkOldOnlineEntry uid 0)
  | OldOther => None
  end.

Definition isFreshOldOnlineEntry (e : oldOnlineEntry) (now : Z) : bool :=
  if ReportedAt e <=? 0 then true
  else wrap64 (now - ReportedAt e) <=? reportedAliveBridgeTTL.

Definition ownsOldIP (now uid : Z) (ip : string) (l : Limiter) : bool :=
  match OldUserOnline l !! ip with
  | Some v =>
      match oldOnlineEntryOf v with
      | None => false
      | Some e => if negb (isFreshOldOnlineEntry e now) then false else oe_UID e =? uid
      end
  | None => false
  end.

Definition isKnownAliveIP (now uid : Z) (ip : string) (l : Limiter) : bool :=
  ownsOldIP now uid ip l || hasGlobalAliveIP uid ip l.

(** A pending entry of the address map: it belongs to [uid] and its address
    is not known to be alive. *)
Definition isPendingNewIP (now uid : Z) (l : Limiter) (entry : string * Z) : bool :=
  (entry.2 =? uid) && negb (isKnownAliveIP now uid entry.1 l).

Definition pendingNewIPCount (now : Z) (taguuid : string) (uid : Z) (l : Limiter) : Z :=
  match UserOnlineIP l !! taguuid with
  | None => 0
  | Some ipMap =>
      rangeCount (isPendingNewIP now uid l) ipMap
  end.

(** Drops the first pending entry in iteration order. *)
Definition firstPending (now uid : Z) (l : Limiter) (entries : list (string * Z))
    : option string :=
  fst <$> List.find (isPendingNewIP now uid l) entries.

Definition dropOnePendingUnknownIP (now uid : Z) (l : Limiter) (ipMap : gmap string Z)
    : gmap string Z * bool :=
  match firstPending now uid l (range_list ipMap) with
  | Some ip => (delete ip ipMap, true)
  | None => (ipMap, false)
  end.

Definition isRecentReport (now uid : Z) (l : Limiter) (v : oldOnlineValue) : bool :=
  match oldOnlineEntryOf v with
  | None => false
  | Some e =>
      if negb (oe_UID e =? uid) then false
      else if negb (isFreshOldOnlineEntry e now) then false
      else if ReportedAt e <=? lastAlivePull l then false
      else true
  end.

Definition recentReportedLocalIPCount (now uid : Z) (l : Limiter) : Z :=
  rangeCount (λ entry, isRecentReport now uid l entry.2) (OldUserOnline l).

(** ** CheckLimit *)

(** The speed limit of the user (0: none), with the effect of an expired
    dynamic limit on the user table. *)
Definition userSpeedLimit (now : Z) (taguuid : string) (u : UserLimitInfo) (l : Limiter)
    : Limiter * Z :=
  if (ExpireTime u <? now / 1000000000) && negb (ExpireTime u =? 0) then
    if negb (SpeedLimit u =? 0) then
      (withUserLimits
         (<[taguuid := mkUserLimitInfo (UID u) (SpeedLimit u) (DeviceLimit u) 0 0 (OverLimit u)]>
            (UserLimits l)) l, SpeedLimit u)
    else (withUserLimits (delete taguuid (UserLimits l)) l, 0)
  else (l, determineSpeedLimit (SpeedLimit u) (DynamicSpeedLimit u)).

(** At the limit, a user whose UDP sources are tracked gives up one pending
    address in favour of the new one. *)
Definition evictPending (now uid deviceLimit knownDeviceCount pendingNewIP : Z)
    (udpSourceTracked : bool) (ipMap : gmap string Z) (l : Limiter) : gmap string Z * Z :=
  if (deviceLimit <=? wrap64 (knownDeviceCount + pendingNewIP))
     && udpSourceTracked && (0 <? knownDeviceCount) then
    let '(ipMap', dropped) := dropOnePendingUnknownIP now uid l ipMap in
    (ipMap', if dropped && (0 <? pendingNewIP) then pendingNewIP - 1 else pendingNewIP)
  else (ipMap, pendingNewIP).

(** The device limit block of [CheckLimit]; [true] is a rejection. *)
Definition admitDevice (now : Z) (taguuid ip : string) (noUDPsource : bool)
    (uid deviceLimit : Z) (l : Limiter) : Limiter * bool :=
  if negb (noUDPsource || tracksUDPSource l) then (l, false)
  else
    let udpSourceTracked := negb noUDPsource && tracksUDPSource l in
    let aliveIP := getAliveIP uid l in
    let reportedLocalIP := recentReportedLocalIPCount now uid l in
    let '(l, ipMap, created) := getOrCreateUserOnlineIPMap taguuid l in
    let store (m : gmap string Z) :=
      withUserOnlineIP (<[taguuid := m]> (UserOnlineIP l)) l in
    match ipMap !! ip with
    | Some _ => (l, false)
    | None =>
        if negb (isKnownAliveIP now uid ip l) && (0 <? deviceLimit) then
          let knownDeviceCount := wrap64 (aliveIP + reportedLocalIP) in
          let pendingNewIP := pendingNewIPCount now taguuid uid l in
          let '(ipMap, pendingNewIP) :=
            evictPending now uid deviceLimit knownDeviceCount pendingNewIP udpSourceTracked ipMap l in
          if deviceLimit <=? wrap64 (knownDeviceCount + pendingNewIP) then
            if udpSourceTracked && (0 <? knownDeviceCount)
               && (deviceLimit =? wrap64 (knownDeviceCount + pendingNewIP))
            then (store (<[ip := uid]> ipMap), false)
            else ((if created : bool
                   then withUserOnlineIP (delete taguuid (UserOnlineIP l)) l
                   else store ipMap), true)
          else (store (<[ip := uid]> ipMap), false)
        else (store (<[ip := uid]> ipMap), false)
    end.

(** The bucket of an admitted connection; a bucket is created once per user. *)
Definition speedBucket (taguuid : string) (nodeLimit userLimit : Z) (l : Limiter)
    : Limiter * option Bucket :=
  let limit := Z.quot (wrap64 (determineSpeedLimit nodeLimit userLimit * 1000000)) 8 in
  if limit <=? 0 then (l, None)
  else match SpeedLimiter l !! taguuid with
       | Some b => (l, Some b)
       | None =>
           let b := NewBucketWithQuantum 1000000000 limit limit in
           (withSpeedLimiter (<[taguuid := b]> (SpeedLimiter l)) l, Some b)
       end.

Definition CheckLimit (now : Z) (taguuid ip : string) (noUDPsource : bool) (l : Limiter)
    : Limiter * (option Bucket * bool) :=
  let ip := TrimPrefix ip "::ffff:" in
  let nodeLimit := NodeSpeedLimit l in
  match UserLimits l !! taguuid with
  | None => (l, (None, true))
  | Some u =>
      let uid := UID u in
      let '(l, userLimit) := userSpeedLimit now taguuid u l in
      let deviceLimit :=
        if DeviceLimit u <=? 0 then getDefaultDeviceLimit l else DeviceLimit u in
      let '(l, reject) := admitDevice now taguuid ip noUDPsource uid deviceLimit l in
      if reject : bool then (l, (None, true))
      else let '(l, b) := speedBucket taguuid nodeLimit userLimit l in (l, (b, false))
  end.

(** ** Reporting *)

Definition GetOnlineDevice (l : Limiter) : list Panel.OnlineUser :=
  '(taguuid, ipMap) ← range_list (UserOnlineIP l);
  '(ip, uid) ← range_list ipMap;
  [Panel.mkOnlineUser uid ip taguuid].

(** One iteration of [CommitOnlineDeviceReport]. *)
Definition commitReported (reportedAt : Z)
    (st : gmap string oldOnlineValue * gmap string (gmap string Z)) (online : Panel.OnlineUser)
    : gmap string oldOnlineValue * gmap string (gmap string Z) :=
  let '(nextOld, userOnlineIP) := st in
  if (Panel.ou_UID online <=? 0) || bool_decide (Panel.ou_IP online = "") then st
  else
    let nextOld :=
      <[Panel.ou_IP online := OldEntry (mkOldOnlineEntry (Panel.ou_UID online) reportedAt)]>
        nextOld in
    if bool_decide (Panel.ou_TagUUID online = "") then (nextOld, userOnlineIP)
    else match userOnlineIP !! Panel.ou_TagUUID online with
         | None => (nextOld, userOnlineIP)
         | Some ipMap =>
             let ipMap :=
               match ipMap !! Panel.ou_IP online with
               | Some currentUID =>
                   if currentUID =? Panel.ou_UID online
                   then delete (Panel.ou_IP online) ipMap else ipMap
               | None => ipMap
               end in
             (nextOld,
              if bool_decide (ipMap = ∅)
              then delete (Panel.ou_TagUUID online) userOnlineIP
              else <[Panel.ou_TagUUID online := ipMap]> userOnlineIP)
         end.

Definition CommitOnlineDeviceReport (now : Z) (reported : list Panel.OnlineUser) (l : Limiter)
    : Limiter :=
  let '(nextOld, userOnlineIP) := foldl (commitReported now) (∅, UserOnlineIP l) reported in
  withOldUserOnline nextOld (withUserOnlineIP userOnlineIP l).

End limiter.

Lemma UserTag_inj tag uuid uuid' : UserTag tag uuid = UserTag tag uuid' → uuid = uuid'.
Proof. unfold UserTag. intros E%app_string_inj_l. by injection E. Qed.

End Limiter.
