(* ===== verification/LimiterProps.v ===== *)
(** * Properties of the connection limiter

    The device limit ([CheckLimit_device_limit] and the characterisation of
    rejections), isolation of users from each other, the refinement of the
    user table ([Table]), and the hand-over of online devices to the panel
    report. *)

From Stdlib Require Import Ascii.
From S2P Require Import Prelude GoStrings Panel Limiter.

Module LimiterProps.
Import GoStrings Limiter.

(** A rate [x] is within a limit; 0 stands for "no limit". *)
Definition withinLimit (x limit : Z) : Prop := limit = 0 ∨ x <= limit.

(** A concrete token bucket for the examples: its construction parameters. *)
Definition exampleRateLimit : RateLimit :=
  {| Bucket := Z * Z * Z; NewBucketWithQuantum i c q := (i, c, q) |}.

(** ** The abstract user table

    What the limiter promises to the rest of the program about users: a map
    from UUID to the user's id and limits. *)
Module Table.
Record entry := mkEntry { id : Z; speed : Z; devices : Z }.

Definition of_user (u : Panel.UserInfo) : entry :=
  mkEntry (Panel.Id u) (Panel.SpeedLimit u) (Panel.DeviceLimit u).

Definition upsert (t : gmap string entry) (us : list Panel.UserInfo) : gmap string entry :=
  foldl (λ t u, <[Panel.Uuid u := of_user u]> t) t us.

Definition remove (t : gmap string entry) (us : list Panel.UserInfo) : gmap string entry :=
  foldl (λ t u, delete (Panel.Uuid u) t) t us.
End Table.

Section defs.
Context `{RL : RateLimit} {RO : RangeOrder string}.
Implicit Types l : Limiter.

(** The counts [CheckLimit] adds up are far from the range of [int]. *)
Definition countsInRange (uid : Z) (k : string) l : Prop :=
  0 <= getAliveIP uid l < 2 ^ 61
  ∧ Z.of_nat (size (OldUserOnline l)) < 2 ^ 61
  ∧ Z.of_nat (size (default ∅ (UserOnlineIP l !! k))) < 2 ^ 61.

(** The device limit in force for a user. *)
Definition effectiveDeviceLimit (u : UserLimitInfo) l : Z :=
  if DeviceLimit u <=? 0 then getDefaultDeviceLimit l else DeviceLimit u.

(** The user a pair of a user key and an address is recorded for. *)
Definition onlineAt (online : gmap string (gmap string Z)) (k ip : string) : option Z :=
  online !! k ≫= (.!! ip).

Definition trackedIP (k ip : string) l : option Z := onlineAt (UserOnlineIP l) k ip.

(** The devices of a user known outside the address map. *)
Definition knownDevices (now uid : Z) l : Z :=
  getAliveIP uid l + recentReportedLocalIPCount now uid l.

(** The limiter represents an abstract user table. *)
Definition entryOf (i : UserLimitInfo) : Table.entry :=
  Table.mkEntry (UID i) (SpeedLimit i) (DeviceLimit i).

Record represents (tag : string) l (t : gmap string Table.entry) : Prop := {
  rep_limits uuid : entryOf <$> UserLimits l !! UserTag tag uuid = t !! uuid;
  rep_keys k : is_Some (UserLimits l !! k) → ∃ uuid, k = UserTag tag uuid;
  rep_uids uuid : UUIDtoUID l !! uuid = Table.id <$> t !! uuid;
  rep_static k i : UserLimits l !! k = Some i → DynamicSpeedLimit i = 0 ∧ ExpireTime i = 0
}.

(** The operations the program performs on a running limiter. *)
Inductive limiterOp :=
| OpCheckLimit (now : Z) (k ip : string) (noUDPsource : bool)
| OpUpdateUser (added deleted : list Panel.UserInfo)
| OpUpdateUserInfo (updated : list Panel.UserInfo)
| OpSetAliveSnapshot (now : Z) (s : option Panel.AliveMap)
| OpSetDefaultDeviceLimit (d : Z)
| OpCommit (now : Z) (reported : list Panel.OnlineUser).

Definition runOp (tag : string) l (op : limiterOp) : Limiter :=
  match op with
  | OpCheckLimit now k ip n => (CheckLimit now k ip n l).1
  | OpUpdateUser a d => UpdateUser tag a d l
  | OpUpdateUserInfo u => UpdateUserInfo tag u l
  | OpSetAliveSnapshot now s => SetAliveSnapshot now s l
  | OpSetDefaultDeviceLimit d => SetDefaultDeviceLimit d l
  | OpCommit now r => CommitOnlineDeviceReport now r l
  end.

Definition runTable (t : gmap string Table.entry) (op : limiterOp) : gmap string Table.entry :=
  match op with
  | OpUpdateUser a d => Table.upsert (Table.remove t d) a
  | OpUpdateUserInfo u => Table.upsert t u
  | _ => t
  end.

(** What the limiter keeps for one user. *)
Definition userView (k : string) l : option (gmap string Z) * option UserLimitInfo * option Bucket :=
  (UserOnlineIP l !! k, UserLimits l !! k, SpeedLimiter l !! k).

(** What the limiter keeps about devices outside the address map. *)
Definition devicesView l :=
  (OldUserOnline l, aliveList l, aliveIPList l, aliveMode l).

(** Every connection of the user is rejected, without any effect. *)
Definition lockedOut (k : string) l : Prop :=
  ∀ now ip n, CheckLimit now k ip n l = (l, (None, true)).

(** An entry of the address map is among the reported devices. *)
Definition reportedEntry (reported : list Panel.OnlineUser) (k ip : string) (uid : Z) : Prop :=
  Panel.mkOnlineUser uid ip k ∈ reported ∧ 0 < uid ∧ ip ≠ "" ∧ k ≠ "".

#[global] Instance reportedEntry_dec reported k ip uid : Decision (reportedEntry reported k ip uid).
Proof. unfold reportedEntry. apply _. Defined.

End defs.


(** ** Speed limits *)

(** Combining the node's and the user's speed limit yields the strictest
    of the two, where 0 means unlimited: a rate is within the combined limit
    exactly when it is within both. *)
Theorem determineSpeedLimit_strictest (a b x : Z) :
  0 <= a → 0 <= b → 0 < x →
  withinLimit x (determineSpeedLimit a b) ↔ withinLimit x a ∧ withinLimit x b.
Proof.
  intros Ha Hb Hx. unfold withinLimit, determineSpeedLimit.
  repeat case_goal; bool_to_prop; lia.
Qed.

Lemma determineSpeedLimit_strictest_witness :
  withinLimit 5 (determineSpeedLimit 0 7) ↔ withinLimit 5 0 ∧ withinLimit 5 7.
Proof. apply (determineSpeedLimit_strictest 0 7 5); lia. Defined.

Section facts.
Context `{RL : RateLimit} {RO : RangeOrder string}.
Implicit Types l : Limiter.

(** ** Device accounting *)

Lemma withUserOnlineIP_id l : withUserOnlineIP (UserOnlineIP l) l = l.
Proof. by destruct l. Qed.

Lemma withUserOnlineIP_twice l m m' : withUserOnlineIP m (withUserOnlineIP m' l) = withUserOnlineIP m l.
Proof. done. Qed.

Lemma getOrCreate_spec k l l1 m c :
  getOrCreateUserOnlineIPMap k l = (l1, m, c) →
  m = default ∅ (UserOnlineIP l !! k)
  ∧ l1 = withUserOnlineIP (<[k := m]> (UserOnlineIP l)) l
  ∧ c = bool_decide (UserOnlineIP l !! k = None).
Proof.
  unfold getOrCreateUserOnlineIPMap. destruct (UserOnlineIP l !! k) as [m'|] eqn:E.
  - intros [= <- <- <-]. split_and!; [done| |].
    + by rewrite insert_id, withUserOnlineIP_id.
    + by rewrite bool_decide_false.
  - intros [= <- <- <-]. split_and!; [done|done|]. by rewrite bool_decide_true.
Qed.

Lemma firstPending_Some now uid l es ip :
  firstPending now uid l es = Some ip →
  ∃ u, (ip, u) ∈ es ∧ isPendingNewIP now uid l (ip, u) = true.
Proof.
  unfold firstPending. destruct (List.find _ es) as [[ip' u]|] eqn:E; simpl; [|done].
  intros [= ->]. apply List.find_some in E as [Hin Hp]. exists u.
  by rewrite list_elem_of_In.
Qed.

Lemma dropOne_spec now uid l m m' dropped :
  dropOnePendingUnknownIP now uid l m = (m', dropped) →
  rangeCount (isPendingNewIP now uid l) m'
  = rangeCount (isPendingNewIP now uid l) m - (if dropped : bool then 1 else 0)
  ∧ (dropped = true → 0 < rangeCount (isPendingNewIP now uid l) m)
  ∧ (∀ ip, m !! ip = None → m' !! ip = None).
Proof.
  unfold dropOnePendingUnknownIP. destruct (firstPending _ _ _ _) as [ip|] eqn:E.
  - intros [= <- <-]. apply firstPending_Some in E as (u & Hin & Hp).
    apply elem_of_range_list in Hin.
    pose proof (rangeCount_delete (isPendingNewIP now uid l) m ip u Hin) as Hd. rewrite Hp in Hd.
    pose proof (rangeCount_nonneg (isPendingNewIP now uid l) (delete ip m)).
    split_and!; [lia | intros; lia |]. intros ip' Hip'. by apply lookup_delete_None; right.
  - intros [= <- <-]. split_and!; [lia | done | done].
Qed.

Lemma pendingNewIPCount_store now k uid m l :
  pendingNewIPCount now k uid (withUserOnlineIP (<[k := m]> (UserOnlineIP l)) l)
  = rangeCount (isPendingNewIP now uid l) m.
Proof. unfold pendingNewIPCount. simpl. by rewrite lookup_insert_eq. Qed.

Lemma pendingNewIPCount_default now k uid l :
  pendingNewIPCount now k uid l
  = rangeCount (isPendingNewIP now uid l) (default ∅ (UserOnlineIP l !! k)).
Proof.
  unfold pendingNewIPCount. destruct (UserOnlineIP l !! k); [done|].
  simpl. by rewrite rangeCount_empty.
Qed.

Lemma recentReportedLocalIPCount_bound now uid l :
  0 <= recentReportedLocalIPCount now uid l <= Z.of_nat (size (OldUserOnline l)).
Proof. split; [apply rangeCount_nonneg | apply rangeCount_le_size]. Qed.

Lemma dropOne_none now uid l m m' :
  dropOnePendingUnknownIP now uid l m = (m', false) →
  rangeCount (isPendingNewIP now uid l) m = 0.
Proof.
  unfold dropOnePendingUnknownIP, firstPending.
  destruct (List.find _ _) as [[ip u]|] eqn:E; [done|]. intros _.
  unfold rangeCount. rewrite foldl_count, Z.add_0_l.
  assert (Hall : Forall (λ e, ¬ isPendingNewIP now uid l e = true) (range_list m)).
  { rewrite Forall_forall. intros e He. rewrite (List.find_none _ _ E e); [done|].
    by apply list_elem_of_In. }
  clear E. induction Hall as [|e es He _ IH]; [done|]. by rewrite filter_cons_False.
Qed.

(** [admitDevice] only writes the address map of the connecting user. *)
Definition onlyOnlineIP (k : string) l l' : Prop :=
  ∃ m, l' = withUserOnlineIP m l ∧ ∀ k', k' ≠ k → m !! k' = UserOnlineIP l !! k'.

Lemma onlyOnlineIP_insert k l m : onlyOnlineIP k l (withUserOnlineIP (<[k := m]> (UserOnlineIP l)) l).
Proof. eexists; split; [done|]. intros. by apply lookup_insert_ne. Qed.

Lemma onlyOnlineIP_insert2 k l m m' :
  onlyOnlineIP k l (withUserOnlineIP (<[k := m']> (<[k := m]> (UserOnlineIP l))) l).
Proof. eexists; split; [done|]. intros. by rewrite !lookup_insert_ne. Qed.

Lemma onlyOnlineIP_delete k l m :
  onlyOnlineIP k l (withUserOnlineIP (delete k (<[k := m]> (UserOnlineIP l))) l).
Proof. eexists; split; [done|]. intros. by rewrite lookup_delete_ne, lookup_insert_ne. Qed.

Lemma onlyOnlineIP_refl k l : onlyOnlineIP k l l.
Proof. exists (UserOnlineIP l). by rewrite withUserOnlineIP_id. Qed.

Hint Resolve onlyOnlineIP_insert onlyOnlineIP_insert2 onlyOnlineIP_delete onlyOnlineIP_refl : core.

Lemma admitDevice_frame now k ip n uid d l :
  onlyOnlineIP k l (admitDevice now k ip n uid d l).1.
Proof.
  unfold admitDevice. destruct (negb _); [apply onlyOnlineIP_refl|].
  destruct (getOrCreateUserOnlineIPMap k l) as [[l1 m] c] eqn:Hg.
  apply getOrCreate_spec in Hg as (_ & -> & _).
  destruct (evictPending _ _ _ _ _ _ _ _). repeat (case_match; simplify_eq/=; rewrite ?withUserOnlineIP_twice; auto).
Qed.

Lemma evictPending_spec now uid d known udp m l m' pending' :
  evictPending now uid d known (rangeCount (isPendingNewIP now uid l) m) udp m l = (m', pending') →
  pending' = rangeCount (isPendingNewIP now uid l) m'
  ∧ pending' <= rangeCount (isPendingNewIP now uid l) m
  ∧ (∀ ip, m !! ip = None → m' !! ip = None)
  ∧ (udp = false → m' = m).
Proof.
  unfold evictPending. case_match; [|by intros [= <- <-]].
  destruct (dropOnePendingUnknownIP now uid l m) as [m1 b] eqn:E.
  apply dropOne_spec in E as (Hc & Hb & Hn). intros [= <- <-]. bool_to_prop.
  destruct b; simpl; repeat case_goal; bool_to_prop; split_and!; try lia; auto; try congruence.
Qed.

(** The three outcomes of the device limit block for an address that is
    neither tracked nor known, as far as the count of pending addresses goes. *)
Lemma admitDevice_new now k ip n uid d l :
  n || tracksUDPSource l = true →
  0 < d → countsInRange uid k l →
  trackedIP k ip l = None → isKnownAliveIP now uid ip l = false →
  let '(l', reject) := admitDevice now k ip n uid d l in
  let known := knownDevices now uid l in
  if reject then d <= known + pendingNewIPCount now k uid l
  else known + pendingNewIPCount now k uid l' <= d + (if n then 0 else 1)
       ∧ trackedIP k ip l' = Some uid
       ∧ (n = true → pendingNewIPCount now k uid l' = pendingNewIPCount now k uid l + 1).
Proof.
  intros Hn Hd (Ha & Ho & Hs) Ht Hk. unfold admitDevice. rewrite Hn. cbn [negb].
  pose proof (recentReportedLocalIPCount_bound now uid l) as Hr.
  destruct (getOrCreateUserOnlineIPMap k l) as [[l1 m] c] eqn:Hg.
  apply getOrCreate_spec in Hg as (Hm & Hl1 & _).
  assert (m !! ip = None) as Hip.
  { subst m. unfold trackedIP, onlineAt in Ht. by destruct (UserOnlineIP l !! k). }
  rewrite Hip, Hl1.
  change (isKnownAliveIP now uid ip (withUserOnlineIP _ l)) with (isKnownAliveIP now uid ip l).
  rewrite Hk, (proj2 (Z.ltb_lt 0 d) Hd). cbn [negb andb].
  rewrite pendingNewIPCount_store, !pendingNewIPCount_default, <- Hm.
  rewrite <- Hm in Hs. unfold knownDevices.
  set (p := isPendingNewIP now uid l).
  change (isPendingNewIP now uid (withUserOnlineIP _ l)) with p.
  pose proof (rangeCount_nonneg p m). pose proof (rangeCount_le_size p m).
  set (known := getAliveIP uid l + recentReportedLocalIPCount now uid l) in *.
  rewrite !(wrap64_id known) by (unfold i64; lia).
  change (evictPending now uid d known (rangeCount p m) _ m (withUserOnlineIP _ l))
    with (evictPending now uid d known (rangeCount p m) (negb n && tracksUDPSource l) m l).
  destruct (evictPending _ _ _ _ _ _ _ _) as [m' pending'] eqn:He.
  apply evictPending_spec in He as (Hp' & Hle & Hnone & Hudp). fold p in Hp', Hle.
  pose proof (rangeCount_nonneg p m').
  rewrite !(wrap64_id (known + pending')) by (unfold i64; lia).
  cbn [UserOnlineIP withUserOnlineIP]. rewrite !insert_insert_eq.
  assert (Hins : rangeCount p (<[ip:=uid]> m') = pending' + 1).
  { rewrite rangeCount_insert_new by auto. unfold p at 2, isPendingNewIP. simpl.
    rewrite Hk, Z.eqb_refl. simpl. lia. }
  assert (Htr : ∀ X, trackedIP k ip (withUserOnlineIP (<[k:=<[ip:=uid]> m']> X) l) = Some uid).
  { intros X. unfold trackedIP, onlineAt. simpl. rewrite lookup_insert_eq. simpl. apply lookup_insert_eq. }
  assert (n = true → pending' = rangeCount p m) as Htcp.
  { intros ->. rewrite Hudp in Hp' by done. done. }
  repeat case_goal; bool_to_prop; simplify_eq;
    rewrite ?withUserOnlineIP_twice, ?pendingNewIPCount_store, ?pendingNewIPCount_default;
    fold p; rewrite ?Hins; split_and?; auto; lia.
Qed.
(** An address that is already tracked or known is let through. *)
Lemma admitDevice_old now k ip n uid d l :
  is_Some (trackedIP k ip l) ∨ isKnownAliveIP now uid ip l = true →
  (admitDevice now k ip n uid d l).2 = false.
Proof.
  intros Hold. unfold admitDevice. destruct (negb (n || _)); [done|].
  destruct (getOrCreateUserOnlineIPMap k l) as [[l1 m] c] eqn:Hg.
  apply getOrCreate_spec in Hg as (Hm & -> & _).
  change (isKnownAliveIP now uid ip (withUserOnlineIP _ l)) with (isKnownAliveIP now uid ip l).
  destruct (m !! ip) as [u|] eqn:Hip; [done|]. destruct Hold as [[u Hu]|Hk].
  - exfalso. unfold trackedIP, onlineAt in Hu. subst m.
    destruct (UserOnlineIP l !! k); simpl in *; congruence.
  - by rewrite Hk.
Qed.

(** TCP connections leave the address map alone when they are rejected. *)
Lemma admitDevice_tcp_reject now k ip uid d l :
  (admitDevice now k ip true uid d l).2 = true →
  (admitDevice now k ip true uid d l).1 = l.
Proof.
  unfold admitDevice. simpl.
  destruct (getOrCreateUserOnlineIPMap k l) as [[l1 m] c] eqn:Hg.
  apply getOrCreate_spec in Hg as (Hm & -> & Hc).
  unfold evictPending. rewrite andb_false_r. simpl.
  repeat case_goal; simpl; try done; intros _; subst c;
    rewrite ?withUserOnlineIP_twice; simpl; bool_to_prop.
  - symmetry in Hc. bool_to_prop. rewrite delete_insert_id by done. apply withUserOnlineIP_id.
  - rewrite insert_insert_eq. destruct (UserOnlineIP l !! k) as [m0|] eqn:E; [|done].
    rewrite insert_id by (simpl in *; congruence). apply withUserOnlineIP_id.
Qed.

(** ** The user table and the bucket *)

Lemma userSpeedLimit_static now k u l :
  ExpireTime u = 0 →
  userSpeedLimit now k u l = (l, determineSpeedLimit (SpeedLimit u) (DynamicSpeedLimit u)).
Proof. intros He. unfold userSpeedLimit. by rewrite He, andb_false_r. Qed.

(** The user table after the speed limit of a user was determined; the rest
    of the limiter is unchanged. *)
Lemma userSpeedLimit_frame now k u l :
  ∃ m, (userSpeedLimit now k u l).1 = withUserLimits m l
       ∧ ∀ k', k' ≠ k → m !! k' = UserLimits l !! k'.
Proof.
  unfold userSpeedLimit. repeat case_goal.
  - eexists; split; [done|]. intros. by apply lookup_insert_ne.
  - eexists; split; [done|]. intros. by apply lookup_delete_ne.
  - exists (UserLimits l). by destruct l.
Qed.

Lemma speedBucket_frame k a b l :
  ∃ m, (speedBucket k a b l).1 = withSpeedLimiter m l
       ∧ ∀ k', k' ≠ k → m !! k' = SpeedLimiter l !! k'.
Proof.
  unfold speedBucket. repeat case_goal.
  - exists (SpeedLimiter l). by destruct l.
  - exists (SpeedLimiter l). by destruct l.
  - eexists; split; [done|]. intros. by apply lookup_insert_ne.
Qed.

(** [CheckLimit] as the composition of its three parts. *)
Lemma CheckLimit_unfold now k ip n l u :
  UserLimits l !! k = Some u →
  CheckLimit now k ip n l =
    let '(l1, userLimit) := userSpeedLimit now k u l in
    let '(l2, reject) :=
      admitDevice now k (TrimPrefix ip "::ffff:") n (UID u) (effectiveDeviceLimit u l) l1 in
    if reject : bool then (l2, (None, true))
    else let '(l3, b) := speedBucket k (NodeSpeedLimit l) userLimit l2 in (l3, (b, false)).
Proof.
  intros Hu. unfold CheckLimit. rewrite Hu.
  destruct (userSpeedLimit_frame now k u l) as (m & Hm & _).
  destruct (userSpeedLimit now k u l) as [l1 ul]. simpl in Hm. subst l1. done.
Qed.

Lemma admitDevice_unlimited now k ip n uid d l :
  d <= 0 → (admitDevice now k ip n uid d l).2 = false.
Proof.
  intros Hd. unfold admitDevice. destruct (negb (n || _)); [done|].
  destruct (getOrCreateUserOnlineIPMap k l) as [[l1 m] c].
  rewrite (proj2 (Z.ltb_ge 0 d) Hd), andb_false_r. by destruct (m !! ip).
Qed.

(** ** The user table *)

Lemma represents_ext tag l l' t :
  UserLimits l' = UserLimits l → UUIDtoUID l' = UUIDtoUID l →
  represents tag l t → represents tag l' t.
Proof. intros H1 H2 [? ? ? ?]. split; rewrite ?H1, ?H2; auto. Qed.

Lemma newUserLimit_entry u : entryOf (newUserLimit u) = Table.of_user u.
Proof.
  unfold entryOf, newUserLimit, Table.of_user. simpl.
  f_equal; case_goal; bool_to_prop; congruence.
Qed.

(** Storing limits under a user's key and its id under its UUID. *)
Lemma represents_insert tag l l' t u i :
  represents tag l t → entryOf i = Table.of_user u →
  DynamicSpeedLimit i = 0 → ExpireTime i = 0 →
  UserLimits l' = <[UserTag tag (Panel.Uuid u) := i]> (UserLimits l) →
  UUIDtoUID l' = <[Panel.Uuid u := Panel.Id u]> (UUIDtoUID l) →
  represents tag l' (<[Panel.Uuid u := Table.of_user u]> t).
Proof.
  intros [Hlim Hkeys Huid Hst] Hi Hd He HL HU. split; rewrite ?HL, ?HU.
  - intros uuid. destruct (decide (uuid = Panel.Uuid u)) as [->|Hne].
    + rewrite !lookup_insert_eq. simpl. by rewrite Hi.
    + rewrite !lookup_insert_ne by (try intros ?%UserTag_inj; congruence). apply Hlim.
  - intros k. rewrite lookup_insert_is_Some'. intros [<-|Hk]; [by eexists|auto].
  - intros uuid. destruct (decide (uuid = Panel.Uuid u)) as [->|Hne].
    + by rewrite !lookup_insert_eq.
    + rewrite !lookup_insert_ne by congruence. apply Huid.
  - intros k i' Hi'. apply lookup_insert_Some in Hi' as [[_ <-]|[_ Hi']]; eauto.
Qed.

Lemma represents_addUser tag l t u :
  represents tag l t →
  represents tag (addUser tag l u) (<[Panel.Uuid u := Table.of_user u]> t).
Proof. intros Hr. eapply represents_insert; eauto using newUserLimit_entry. Qed.

Lemma represents_updateUser tag l t u :
  represents tag l t →
  represents tag (updateUser tag l u) (<[Panel.Uuid u := Table.of_user u]> t).
Proof.
  intros Hr. unfold updateUser.
  destruct (UserLimits l !! UserTag tag (Panel.Uuid u)) as [i|] eqn:E;
    (eapply represents_insert; [exact Hr| | | |reflexivity|reflexivity]); simpl; try done;
    by destruct (rep_static _ _ _ Hr _ _ E).
Qed.

Lemma represents_deleteUser tag l t u :
  represents tag l t → represents tag (deleteUser tag l u) (delete (Panel.Uuid u) t).
Proof.
  intros [Hlim Hkeys Huid Hst]. unfold deleteUser. split; simpl.
  - intros uuid. destruct (decide (uuid = Panel.Uuid u)) as [->|Hne].
    + by rewrite !lookup_delete_eq.
    + rewrite !lookup_delete_ne by (try intros ?%UserTag_inj; congruence). apply Hlim.
  - intros k [i Hi]. apply lookup_delete_Some in Hi as [_ Hi]. eauto.
  - intros uuid. destruct (decide (uuid = Panel.Uuid u)) as [->|Hne].
    + by rewrite !lookup_delete_eq.
    + rewrite !lookup_delete_ne by congruence. apply Huid.
  - intros k i Hi. apply lookup_delete_Some in Hi as [_ Hi]. eauto.
Qed.

Lemma represents_foldl {A} tag (f : Limiter → A → Limiter)
    (g : gmap string Table.entry → A → gmap string Table.entry) (us : list A) l t :
  (∀ l t u, represents tag l t → represents tag (f l u) (g t u)) →
  represents tag l t → represents tag (foldl f l us) (foldl g t us).
Proof. intros Hf. revert l t. induction us; simpl; auto. Qed.

Lemma deleteAliveIDs_table ids l :
  UserLimits (deleteAliveIDs ids l) = UserLimits l
  ∧ UUIDtoUID (deleteAliveIDs ids l) = UUIDtoUID l.
Proof. unfold deleteAliveIDs. repeat case_goal; done. Qed.

Lemma represents_UpdateUser tag a d l t :
  represents tag l t →
  represents tag (UpdateUser tag a d l) (Table.upsert (Table.remove t d) a).
Proof.
  intros Hr. unfold UpdateUser, Table.upsert, Table.remove.
  apply represents_foldl; [intros; by apply represents_addUser|].
  destruct (deleteAliveIDs_table (Panel.Id <$> d) (foldl (deleteUser tag) l d)) as [H1 H2].
  eapply represents_ext; [exact H1|exact H2|].
  apply represents_foldl; [intros; by apply represents_deleteUser | done].
Qed.

Lemma represents_UpdateUserInfo tag us l t :
  represents tag l t → represents tag (UpdateUserInfo tag us l) (Table.upsert t us).
Proof.
  intros Hr. apply represents_foldl; [intros; by apply represents_updateUser | done].
Qed.

(** Without dynamic limits [CheckLimit] does not write the user table. *)
Lemma CheckLimit_table now k ip n l :
  (∀ i, UserLimits l !! k = Some i → ExpireTime i = 0) →
  UserLimits (CheckLimit now k ip n l).1 = UserLimits l
  ∧ UUIDtoUID (CheckLimit now k ip n l).1 = UUIDtoUID l.
Proof.
  intros Hi. destruct (UserLimits l !! k) as [u|] eqn:Hu.
  - rewrite (CheckLimit_unfold _ _ _ _ _ u Hu), userSpeedLimit_static by auto.
    destruct (admitDevice_frame now k (TrimPrefix ip "::ffff:") n (UID u)
                (effectiveDeviceLimit u l) l) as (m & Hm & _).
    destruct (admitDevice _ _ _ _ _ _ _) as [l2 r]. simpl in Hm. subst l2.
    destruct r; [done|].
    destruct (speedBucket_frame k (NodeSpeedLimit l)
      (determineSpeedLimit (SpeedLimit u) (DynamicSpeedLimit u)) (withUserOnlineIP m l))
      as (m' & Hm' & _).
    destruct (speedBucket _ _ _ _) as [l3 b]. simpl in Hm'. by subst l3.
  - unfold CheckLimit. by rewrite Hu.
Qed.

Lemma represents_runOp tag op l t :
  represents tag l t → represents tag (runOp tag l op) (runTable t op).
Proof.
  intros Hr. destruct op; simpl;
    eauto using represents_UpdateUser, represents_UpdateUserInfo.
  - destruct (CheckLimit_table now k ip noUDPsource l) as [H1 H2].
    { intros i Hi. by destruct (rep_static _ _ _ Hr _ _ Hi). }
    eapply represents_ext; eauto.
  - eapply represents_ext; [..|exact Hr]; by destruct s.
  - eapply represents_ext; [..|exact Hr]; done.
  - unfold CommitOnlineDeviceReport.
    destruct (foldl _ _ _). eapply represents_ext; [..|exact Hr]; done.
Qed.

Lemma represents_newLimiter nodetype tag users alive :
  represents tag (newLimiter nodetype tag users alive) (Table.upsert ∅ users).
Proof.
  assert (Heq : ∃ l0, newLimiter nodetype tag users alive = foldl (addUser tag) l0 users
                      ∧ UserLimits l0 = ∅ ∧ UUIDtoUID l0 = ∅).
  { eexists (SetAliveList alive (mkLimiter RL tag nodetype 0 ∅ ∅ ∅ ∅ ∅ None None 0 0 0)).
    split; [|done]. unfold newLimiter.
    set (l0 := SetAliveList _ _).
    change l0 with (withUUIDtoUID ∅ (withUserLimits ∅ l0)) at 2.
    generalize (∅ : gmap string UserLimitInfo) (∅ : gmap string Z).
    induction users as [|u us IH]; intros g1 g2; simpl; [done|]. by rewrite IH. }
  destruct Heq as (l0 & -> & H1 & H2).
  apply represents_foldl; [intros; by apply represents_addUser|].
  split; rewrite ?H1, ?H2; intros *; rewrite ?lookup_empty; try done.
Qed.

(** ** Handing online devices over to the panel *)

Lemma onlineAt_store_or_drop (online : gmap string (gmap string Z)) k' (m1 : gmap string Z) k ip :
  onlineAt (if bool_decide (m1 = ∅) then delete k' online else <[k' := m1]> online) k ip
  = if decide (k' = k) then m1 !! ip else onlineAt online k ip.
Proof.
  unfold onlineAt. case_bool_decide as E; destruct (decide (k' = k)) as [->|Hne].
  - rewrite lookup_delete_eq, E. simpl. by rewrite lookup_empty.
  - by rewrite lookup_delete_ne.
  - by rewrite lookup_insert_eq.
  - by rewrite lookup_insert_ne.
Qed.

(** What remains of an entry once the devices [reported] are committed. *)
Definition afterReport (reported : list Panel.OnlineUser) (k ip : string) (o : option Z) : option Z :=
  match o with
  | Some uid => if decide (reportedEntry reported k ip uid) then None else Some uid
  | None => None
  end.

Lemma afterReport_other o k ip u :
  ¬ (∃ uid, u = Some uid ∧ reportedEntry [o] k ip uid) → afterReport [o] k ip u = u.
Proof.
  intros Hn. destruct u as [uid|]; simpl; [|done]. by rewrite decide_False by eauto.
Qed.

Lemma reportedEntry_single uid' ip' k' k ip uid :
  reportedEntry [Panel.mkOnlineUser uid' ip' k'] k ip uid
  ↔ uid = uid' ∧ ip = ip' ∧ k = k' ∧ 0 < uid ∧ ip ≠ "" ∧ k ≠ "".
Proof. unfold reportedEntry. rewrite list_elem_of_singleton. naive_solver. Qed.

(** One reported device: its entry leaves the address map, no other does. *)
Lemma commitReported_onlineAt now old online o k ip :
  onlineAt (commitReported now (old, online) o).2 k ip
  = afterReport [o] k ip (onlineAt online k ip).
Proof.
  destruct o as [uid' ip' k']. unfold commitReported. simpl.
  case_goal; bool_to_prop.
  { rewrite afterReport_other; [done|]. intros (uid & _ & Hr%reportedEntry_single).
    destruct Heqb; bool_to_prop; naive_solver lia. }
  case_bool_decide as Hk'.
  { rewrite afterReport_other; [done|]. intros (uid & _ & Hr%reportedEntry_single). naive_solver. }
  destruct (online !! k') as [m|] eqn:Hm.
  2: { rewrite afterReport_other; [done|]. intros (uid & Hu & Hr%reportedEntry_single).
       destruct_and!; subst. unfold onlineAt in Hu. by rewrite Hm in Hu. }
  simpl. rewrite onlineAt_store_or_drop. destruct (decide (k' = k)) as [->|Hne].
  2: { rewrite afterReport_other; [done|]. intros (uid & _ & Hr%reportedEntry_single). naive_solver. }
  unfold onlineAt. rewrite Hm. simpl. destruct (decide (ip = ip')) as [->|Hip].
  - destruct (m !! ip') as [c|] eqn:Hc; simpl; [|done].
    destruct (Z.eqb_spec c uid') as [->|Hcu].
    + rewrite lookup_delete_eq, decide_True; [done|]. by apply reportedEntry_single.
    + rewrite Hc, decide_False; [done|]. intros Hr%reportedEntry_single. naive_solver.
  - rewrite afterReport_other by (intros (? & _ & Hr%reportedEntry_single); naive_solver).
    repeat case_match; try done. by rewrite lookup_delete_ne.
Qed.

Lemma afterReport_cons o os k ip u :
  afterReport os k ip (afterReport [o] k ip u) = afterReport (o :: os) k ip u.
Proof.
  destruct u as [uid|]; simpl; [|done].
  repeat case_decide; simpl; repeat case_decide; try done;
    unfold reportedEntry in *; set_solver.
Qed.

Lemma foldl_commitReported now os old online k ip :
  onlineAt (foldl (commitReported now) (old, online) os).2 k ip
  = afterReport os k ip (onlineAt online k ip).
Proof.
  revert old online. induction os as [|o os IH]; intros old online.
  - change (onlineAt online k ip = afterReport [] k ip (onlineAt online k ip)).
    unfold afterReport. destruct (onlineAt online k ip) as [uid|]; [|done].
    rewrite decide_False; [done|]. unfold reportedEntry. set_solver.
  - cbn [foldl]. pose proof (commitReported_onlineAt now old online o k ip) as Ho.
    destruct (commitReported now (old, online) o) as [old' online'].
    rewrite IH, <- afterReport_cons. simpl in Ho. by rewrite Ho.
Qed.

(** The addresses remembered as reported: those of the reported devices. *)
Lemma foldl_commitReported_old now os old online ip :
  ip ≠ "" →
  (foldl (commitReported now) (old, online) os).1 !! ip
  = match List.find (λ o, (0 <? Panel.ou_UID o) && bool_decide (Panel.ou_IP o = ip)) (rev os) with
    | Some o => Some (OldEntry (mkOldOnlineEntry (Panel.ou_UID o) now))
    | None => old !! ip
    end.
Proof.
  intros Hip. induction os as [|o os IH] using rev_ind; [done|].
  rewrite foldl_snoc, rev_app_distr. simpl.
  destruct (foldl (commitReported now) (old, online) os) as [old' online']. simpl in IH.
  assert (Hold : (commitReported now (old', online') o).1
                 = if (Panel.ou_UID o <=? 0) || bool_decide (Panel.ou_IP o = "") then old'
                   else <[Panel.ou_IP o := OldEntry (mkOldOnlineEntry (Panel.ou_UID o) now)]> old').
  { unfold commitReported. repeat case_goal; done. }
  rewrite Hold. destruct (Z.ltb_spec 0 (Panel.ou_UID o)) as [Hu|Hu].
  - rewrite (proj2 (Z.leb_gt _ _) Hu). simpl. destruct (decide (Panel.ou_IP o = ip)) as [<-|Hne].
    + rewrite (bool_decide_false _ Hip), bool_decide_true by done. apply lookup_insert_eq.
    + rewrite (bool_decide_false _ Hne), <- IH. case_goal; [done|]. by apply lookup_insert_ne.
  - by rewrite (proj2 (Z.leb_le _ _) Hu).
Qed.

(** With the known devices above the limit, a tracked UDP source is rejected
    even though a pending address was dropped for it. *)
Lemma admitDevice_udp_over now k ip uid d l :
  tracksUDPSource l = true → 0 < d < knownDevices now uid l →
  countsInRange uid k l →
  trackedIP k ip l = None → isKnownAliveIP now uid ip l = false →
  0 < pendingNewIPCount now k uid l →
  let '(l', reject) := admitDevice now k ip false uid d l in
  reject = true ∧ pendingNewIPCount now k uid l' = pendingNewIPCount now k uid l - 1.
Proof.
  intros Hudp [Hd Hover] (Ha & Ho & Hs) Ht Hk Hpend. unfold admitDevice. rewrite Hudp. cbn [negb orb andb].
  pose proof (recentReportedLocalIPCount_bound now uid l) as Hr.
  rewrite pendingNewIPCount_default in Hpend |- *. unfold trackedIP, onlineAt in Ht.
  unfold knownDevices in Hover.
  unfold getOrCreateUserOnlineIPMap. destruct (UserOnlineIP l !! k) as [m|] eqn:Hm.
  2: { simpl in Hpend. rewrite rangeCount_empty in Hpend. lia. }
  simpl in Ht, Hs, Hpend |- *. rewrite Ht, Hk, (proj2 (Z.ltb_lt 0 d) Hd). cbn [negb andb].
  rewrite pendingNewIPCount_default, Hm. cbn [default id].
  set (p := isPendingNewIP now uid l) in *.
  set (known := getAliveIP uid l + recentReportedLocalIPCount now uid l) in *.
  pose proof (rangeCount_le_size p m).
  rewrite (wrap64_id known) by (unfold i64; lia). unfold evictPending.
  rewrite (wrap64_id (known + _)) by (unfold i64; lia).
  rewrite (proj2 (Z.leb_le d _)), (proj2 (Z.ltb_lt 0 known)) by lia. cbn [andb].
  destruct (dropOnePendingUnknownIP now uid l m) as [m' []] eqn:E.
  2: { apply dropOne_none in E. fold p in E. lia. }
  apply dropOne_spec in E as (Hc & _ & _). fold p in Hc. rewrite (proj2 (Z.ltb_lt 0 _) Hpend).
  cbn [andb]. rewrite wrap64_id by (unfold i64; lia).
  rewrite (proj2 (Z.leb_le d _)), (proj2 (Z.eqb_neq d _)) by lia. split; [done|].
  by rewrite pendingNewIPCount_store.
Qed.
End facts.

(** ** Properties of CheckLimit *)

Section check_limit.
Context `{RL : RateLimit} {RO : RangeOrder string}.
Implicit Types l : Limiter.

(** C1. The device limit. When a user with an effective device limit [d]
    connects from an address that is neither recorded nor known to be alive,
    and the connection is admitted, the devices known to the panel, the ones
    recently reported and the pending ones together number at most [d]; a
    connection whose UDP source is tracked may exceed the limit by one, the
    slot [CheckLimit] grants to a roaming client. The address is recorded. *)
Theorem CheckLimit_device_limit now k ip n l l' b u :
  UserLimits l !! k = Some u →
  n || tracksUDPSource l = true →
  0 < effectiveDeviceLimit u l →
  countsInRange (UID u) k l →
  trackedIP k (TrimPrefix ip "::ffff:") l = None →
  isKnownAliveIP now (UID u) (TrimPrefix ip "::ffff:") l = false →
  CheckLimit now k ip n l = (l', (b, false)) →
  knownDevices now (UID u) l' + pendingNewIPCount now k (UID u) l'
    <= effectiveDeviceLimit u l + (if n then 0 else 1)
  ∧ trackedIP k (TrimPrefix ip "::ffff:") l' = Some (UID u).
Proof.
  intros Hu Hn Hd Hc Ht Hk. rewrite (CheckLimit_unfold _ _ _ _ _ u Hu).
  destruct (userSpeedLimit_frame now k u l) as (mu & Hmu & _).
  destruct (userSpeedLimit now k u l) as [l1 ul]. simpl in Hmu. subst l1.
  pose proof (admitDevice_new now k (TrimPrefix ip "::ffff:") n (UID u)
                (effectiveDeviceLimit u l) (withUserLimits mu l) Hn Hd Hc Ht Hk) as Hnew.
  pose proof (admitDevice_frame now k (TrimPrefix ip "::ffff:") n (UID u)
                (effectiveDeviceLimit u l) (withUserLimits mu l)) as (m & Hm & _).
  destruct (admitDevice _ _ _ _ _ _ _) as [l2 r]. simpl in Hm. subst l2.
  destruct r; [done|]. destruct Hnew as (Hle & Htr & _).
  destruct (speedBucket_frame k (NodeSpeedLimit l) ul (withUserOnlineIP m (withUserLimits mu l)))
    as (ms & Hms & _).
  destruct (speedBucket _ _ _ _) as [l3 b']. simpl in Hms. subst l3.
  intros [= <- <-]. done.
Qed.

(** C4. Exactly when a TCP connection of a user is rejected: the user has a
    positive effective device limit, the address is neither recorded nor
    known, and the known and pending devices already reach the limit. A
    rejected TCP connection leaves the recorded addresses unchanged. *)
Theorem CheckLimit_tcp_reject_iff now k ip l u :
  UserLimits l !! k = Some u →
  countsInRange (UID u) k l →
  let '(l', (_, reject)) := CheckLimit now k ip true l in
  (reject = true ↔
     0 < effectiveDeviceLimit u l
     ∧ trackedIP k (TrimPrefix ip "::ffff:") l = None
     ∧ isKnownAliveIP now (UID u) (TrimPrefix ip "::ffff:") l = false
     ∧ effectiveDeviceLimit u l
         <= knownDevices now (UID u) l + pendingNewIPCount now k (UID u) l)
  ∧ (reject = true → UserOnlineIP l' = UserOnlineIP l).
Proof.
  intros Hu Hc. rewrite (CheckLimit_unfold _ _ _ _ _ u Hu).
  destruct (userSpeedLimit_frame now k u l) as (mu & Hmu & _).
  destruct (userSpeedLimit now k u l) as [l1 ul]. simpl in Hmu. subst l1.
  set (ip' := TrimPrefix ip "::ffff:"). set (d := effectiveDeviceLimit u l).
  pose proof (admitDevice_tcp_reject now k ip' (UID u) d (withUserLimits mu l)) as Hrej.
  pose proof (admitDevice_old now k ip' true (UID u) d (withUserLimits mu l)) as Hold.
  pose proof (admitDevice_unlimited now k ip' true (UID u) d (withUserLimits mu l)) as Hunl.
  pose proof (admitDevice_new now k ip' true (UID u) d (withUserLimits mu l) eq_refl) as Hnew.
  change (trackedIP k ip' (withUserLimits mu l)) with (trackedIP k ip' l) in *.
  change (isKnownAliveIP now (UID u) ip' (withUserLimits mu l))
    with (isKnownAliveIP now (UID u) ip' l) in *.
  destruct (admitDevice _ _ _ _ _ _ _) as [l2 r]. simpl in *.
  change (knownDevices now (UID u) (withUserLimits mu l)) with (knownDevices now (UID u) l) in *.
  change (pendingNewIPCount now k (UID u) (withUserLimits mu l))
    with (pendingNewIPCount now k (UID u) l) in *.
  assert (Hiff : r = true ↔ 0 < d ∧ trackedIP k ip' l = None
     ∧ isKnownAliveIP now (UID u) ip' l = false
     ∧ d <= knownDevices now (UID u) l + pendingNewIPCount now k (UID u) l).
  { destruct (decide (0 < d)) as [Hd|Hd]; [|split; [rewrite Hunl by lia; done | lia]].
    destruct (trackedIP k ip' l) as [x|] eqn:Ht;
      [rewrite Hold by (left; eauto); split; [done | by intros (_ & ? & _)]|].
    destruct (isKnownAliveIP now (UID u) ip' l) eqn:Hk;
      [rewrite Hold by auto; split; [done | by intros (_ & _ & ? & _)]|].
    specialize (Hnew Hd Hc eq_refl eq_refl). destruct r; [tauto|].
    destruct Hnew as (Hle & _ & Hcount). specialize (Hcount eq_refl). split; [done|lia]. }
  destruct r.
  - split; [done|]. intros _. by rewrite Hrej.
  - by destruct (speedBucket _ _ _ _).
Qed.

(** Isolation: a connection of one user changes no other user's recorded
    addresses, limits or token bucket, nor the reported and alive addresses. *)
Theorem CheckLimit_isolation now k ip n l k' :
  k' ≠ k →
  let l' := (CheckLimit now k ip n l).1 in
  userView k' l' = userView k' l ∧ devicesView l' = devicesView l.
Proof.
  intros Hne. unfold userView, devicesView.
  destruct (UserLimits l !! k) as [u|] eqn:Hu.
  2: { unfold CheckLimit. by rewrite Hu. }
  rewrite (CheckLimit_unfold _ _ _ _ _ u Hu).
  destruct (userSpeedLimit_frame now k u l) as (mu & Hmu & Hu').
  destruct (userSpeedLimit now k u l) as [l1 ul]. simpl in Hmu. subst l1.
  destruct (admitDevice_frame now k (TrimPrefix ip "::ffff:") n (UID u)
                (effectiveDeviceLimit u l) (withUserLimits mu l)) as (m & Hm & Ho').
  destruct (admitDevice _ _ _ _ _ _ _) as [l2 r]. simpl in Hm. subst l2.
  destruct (speedBucket_frame k (NodeSpeedLimit l) ul (withUserOnlineIP m (withUserLimits mu l)))
    as (ms & Hms & Hs').
  destruct r; simpl; [by rewrite Hu', Ho' |].
  destruct (speedBucket _ _ _ _) as [l3 b']. simpl in Hms. subst l3. simpl.
  by rewrite Hu', Ho', Hs'.
Qed.

(** A dynamic speed limit that expired locks a user without a base speed
    limit out: the connection that notices the expiry removes the user from
    the limit table, after which every connection of the user is rejected. *)
Theorem CheckLimit_expiry_lockout now k ip n l u :
  UserLimits l !! k = Some u →
  ExpireTime u ≠ 0 → ExpireTime u < now / 1000000000 → SpeedLimit u = 0 →
  lockedOut k (CheckLimit now k ip n l).1.
Proof.
  intros Hu He1 He2 Hs. set (l' := (CheckLimit now k ip n l).1). intros now' ip' n'.
  assert (Hgone : UserLimits l' !! k = None).
  { subst l'. rewrite (CheckLimit_unfold _ _ _ _ _ u Hu). unfold userSpeedLimit.
    rewrite (proj2 (Z.ltb_lt _ _) He2), (proj2 (Z.eqb_neq _ _) He1), Hs. simpl.
    destruct (admitDevice_frame now k (TrimPrefix ip "::ffff:") n (UID u)
      (effectiveDeviceLimit u l) (withUserLimits (delete k (UserLimits l)) l)) as (m & Hm & _).
    destruct (admitDevice _ _ _ _ _ _ _) as [l2 r]. simpl in Hm. subst l2.
    destruct r; simpl; [apply lookup_delete_eq|].
    destruct (speedBucket_frame k (NodeSpeedLimit l) 0
      (withUserOnlineIP m (withUserLimits (delete k (UserLimits l)) l))) as (ms & Hms & _).
    destruct (speedBucket _ _ _ _) as [l3 b']. simpl in Hms. subst l3. apply lookup_delete_eq. }
  unfold CheckLimit. by rewrite Hgone.
Qed.

(** A rejected connection can cost another device its place: when the
    devices known to the panel alone exceed the limit of a user on a protocol
    with tracked UDP sources, [CheckLimit] first drops one pending address and
    then rejects the connection all the same, so that a device that is
    connected is not reported any more. *)
Theorem CheckLimit_udp_reject_drops_pending now k ip l u :
  UserLimits l !! k = Some u →
  tracksUDPSource l = true →
  0 < effectiveDeviceLimit u l < knownDevices now (UID u) l →
  countsInRange (UID u) k l →
  trackedIP k (TrimPrefix ip "::ffff:") l = None →
  isKnownAliveIP now (UID u) (TrimPrefix ip "::ffff:") l = false →
  0 < pendingNewIPCount now k (UID u) l →
  let '(l', (_, reject)) := CheckLimit now k ip false l in
  reject = true
  ∧ pendingNewIPCount now k (UID u) l' = pendingNewIPCount now k (UID u) l - 1.
Proof.
  intros Hu Hudp Hd Hc Ht Hk Hp. rewrite (CheckLimit_unfold _ _ _ _ _ u Hu).
  destruct (userSpeedLimit_frame now k u l) as (mu & Hmu & _).
  destruct (userSpeedLimit now k u l) as [l1 ul]. simpl in Hmu. subst l1.
  pose proof (admitDevice_udp_over now k (TrimPrefix ip "::ffff:") (UID u)
    (effectiveDeviceLimit u l) (withUserLimits mu l) Hudp Hd Hc Ht Hk Hp) as Hover.
  destruct (admitDevice _ _ _ _ _ _ _) as [l2 r]. by destruct Hover as [-> ?].
Qed.

End check_limit.

Section tables.
Context `{RL : RateLimit} {RO : RangeOrder string}.

(** The limiter refines the abstract user table: after any sequence of
    the operations the program performs, starting from the limiter built for
    a list of users, every user has exactly the id, speed limit and device
    limit of the table that results from applying the user updates alone, and
    nobody else has an entry. *)
Theorem limiter_refines_table tag nodetype users alive (ops : list limiterOp) :
  represents tag
    (foldl (runOp tag) (newLimiter nodetype tag users alive) ops)
    (foldl runTable (Table.upsert ∅ users) ops).
Proof.
  generalize (represents_newLimiter nodetype tag users alive).
  generalize (newLimiter nodetype tag users alive) (Table.upsert ∅ users).
  induction ops as [|op ops IH]; intros l t Hr; simpl; [done|].
  apply IH. by apply represents_runOp.
Qed.

(** Committing a report removes from the recorded addresses exactly the
    reported devices and remembers each reported address (with the user it
    was last reported for) as a device reported at the commit time; devices
    that were not part of the report stay pending. *)
Theorem CommitOnlineDeviceReport_exact now reported (l : Limiter) :
  let l' := CommitOnlineDeviceReport now reported l in
  (∀ k ip, trackedIP k ip l' = afterReport reported k ip (trackedIP k ip l))
  ∧ (∀ ip, ip ≠ "" →
       OldUserOnline l' !! ip
       = (λ o, OldEntry (mkOldOnlineEntry (Panel.ou_UID o) now)) <$>
           List.find (λ o, (0 <? Panel.ou_UID o) && bool_decide (Panel.ou_IP o = ip))
             (rev reported)).
Proof.
  unfold CommitOnlineDeviceReport.
  pose proof (λ k ip, foldl_commitReported now reported ∅ (UserOnlineIP l) k ip) as Honline.
  pose proof (λ ip, foldl_commitReported_old now reported ∅ (UserOnlineIP l) ip) as Hold.
  destruct (foldl _ _ reported) as [old online]. split.
  - intros k ip. apply Honline.
  - intros ip Hip. simpl. rewrite Hold by done. by case_match; rewrite ?lookup_empty.
Qed.

End tables.

(** ** Examples at which the hypotheses hold *)

Module Examples.
#[local] Existing Instance exampleRateLimit.
#[local] Instance exampleOrder : RangeOrder string := canonical_order string.

(** One user with a device limit of 2. *)
Definition exampleLimiter : Limiter :=
  newLimiter "vless" "t" [Panel.mkUserInfo 1 "u" 0 2] None.

(** A hysteria2 user with a limit of 1, already alive on two addresses
    according to the panel, and connected from a third. *)
Definition exampleOver : Limiter :=
  SetAliveList (Some {[1 := 2]})
    (CheckLimit 0 "t|u" "3.3.3.3" false
       (newLimiter "hysteria2" "t" [Panel.mkUserInfo 1 "u" 0 1] None)).1.

(** A user with a dynamic limit that expired at second 5. *)
Definition exampleExpired : Limiter :=
  withUserLimits {["t|u" := mkUserLimitInfo 1 0 2 10 5 false]} exampleLimiter.

Ltac evaluate := vm_compute; repeat split; first [reflexivity | discriminate | congruence].

Lemma CheckLimit_device_limit_witness :
  let l' := (CheckLimit 0 "t|u" "::ffff:1.1.1.1" true exampleLimiter).1 in
  knownDevices 0 1 l' + pendingNewIPCount 0 "t|u" 1 l' <= 2 + 0
  ∧ trackedIP "t|u" "1.1.1.1" l' = Some 1.
Proof.
  apply (CheckLimit_device_limit 0 "t|u" "::ffff:1.1.1.1" true exampleLimiter _ None
           (mkUserLimitInfo 1 0 2 0 0 false)); evaluate.
Defined.

Lemma CheckLimit_tcp_reject_iff_witness :
  let '(l', (_, reject)) := CheckLimit 0 "t|u" "1.1.1.1" true exampleLimiter in
  (reject = true ↔ 0 < 2 ∧ trackedIP "t|u" "1.1.1.1" exampleLimiter = None
     ∧ isKnownAliveIP 0 1 "1.1.1.1" exampleLimiter = false
     ∧ 2 <= knownDevices 0 1 exampleLimiter + pendingNewIPCount 0 "t|u" 1 exampleLimiter)
  ∧ (reject = true → UserOnlineIP l' = UserOnlineIP exampleLimiter).
Proof.
  apply (CheckLimit_tcp_reject_iff 0 "t|u" "1.1.1.1" exampleLimiter
           (mkUserLimitInfo 1 0 2 0 0 false)); evaluate.
Defined.

Lemma CheckLimit_isolation_witness :
  let l' := (CheckLimit 0 "t|u" "1.1.1.1" true exampleLimiter).1 in
  userView "t|v" l' = userView "t|v" exampleLimiter
  ∧ devicesView l' = devicesView exampleLimiter.
Proof.
  apply (CheckLimit_isolation 0 "t|u" "1.1.1.1" true exampleLimiter "t|v"). congruence.
Defined.

Lemma CheckLimit_expiry_lockout_witness :
  lockedOut "t|u" (CheckLimit 10000000000 "t|u" "1.1.1.1" true exampleExpired).1.
Proof.
  apply (CheckLimit_expiry_lockout 10000000000 "t|u" "1.1.1.1" true exampleExpired
           (mkUserLimitInfo 1 0 2 10 5 false)); evaluate.
Defined.

Lemma CheckLimit_udp_reject_drops_pending_witness :
  let '(l', (_, reject)) := CheckLimit 0 "t|u" "4.4.4.4" false exampleOver in
  reject = true ∧ pendingNewIPCount 0 "t|u" 1 l' = pendingNewIPCount 0 "t|u" 1 exampleOver - 1.
Proof.
  apply (CheckLimit_udp_reject_drops_pending 0 "t|u" "4.4.4.4" exampleOver
           (mkUserLimitInfo 1 0 1 0 0 false)); evaluate.
Defined.

(** Cases of limiter_test.go. *)
Example burst_rejected :
  let l := newLimiter "hysteria2" "t" [Panel.mkUserInfo 1 "u" 0 1] None in
  let l1 := (CheckLimit 0 "t|u" "1.1.1.1" false l).1 in
  (CheckLimit 1 "t|u" "2.2.2.2" false l1).2.2 = true.
Proof. vm_compute. reflexivity. Qed.

Example commit_then_known :
  let l1 := (CheckLimit 0 "t|u" "1.1.1.1" true exampleLimiter).1 in
  let l2 := CommitOnlineDeviceReport 5 (GetOnlineDevice l1) l1 in
  (UserOnlineIP l2, isKnownAliveIP 6 1 "1.1.1.1" l2) = (∅, true).
Proof. vm_compute. reflexivity. Qed.
End Examples.

End LimiterProps.
