(* ===== verification/LimiterSteps.v ===== *)
(** * The limiter under concurrent connections (limiter/limiter.go)

    Every connection calls [CheckLimit] in a goroutine of its own, and the report
    task calls [CommitOnlineDeviceReport]; nothing but the [sync.Map]s keeps them
    apart. Here both are sequences of steps: a step is one operation on a
    [sync.Map] or on a field, and the steps of any number of calls interleave as a
    schedule says. Address maps are objects that a goroutine can hold while others
    change them or take them out of [UserOnlineIP]. Limiter.v has the same
    operations as one step.

    A [Range] goes through the keys that are in the map when it starts, looks each
    up when its turn comes, and may, if the schedule chooses so, also see a key
    that came later. The maps of [OldUserOnline] are not changed once they are
    there, so that reading one is one step, and so is loading the user with the
    effect of an expired limit. A call reads the clock once; new users and alive
    lists, which other tasks set, are not among the steps. *)

From Stdlib Require Import Ascii.
From S2P Require Import Prelude GoStrings Panel Limiter.

Module LimiterSteps.
Import GoStrings Limiter.

(** The address map that was there for a user, or the one a goroutine made. *)
Inductive MapId := Initial (taguuid : string) | Created (thread : nat).

#[global] Instance MapId_eq_dec : EqDecision MapId.
Proof. solve_decision. Defined.

#[global] Instance MapId_countable : Countable MapId.
Proof.
  refine (inj_countable' (λ m, match m with Initial t => inl t | Created i => inr i end)
            (λ s, match s with inl t => Initial t | inr i => Created i end) _).
  by intros [].
Defined.

#[global] Instance Initial_inj : Inj (=) (=) Initial.
Proof. by intros ?? [=]. Qed.

Section steps.
Context `{RL : RateLimit} {RO : RangeOrder string}.
Implicit Types l : Limiter.

(** The fields of the limiter but [UserOnlineIP], the keys of [UserOnlineIP] with the
    objects they lead to, and the objects. *)
Record Shared := mkShared {
  lim : Limiter;
  online : gmap string MapId;
  ipMaps : gmap MapId (gmap string Z)
}.
Implicit Types s : Shared.

Definition withLim l s : Shared := mkShared l (online s) (ipMaps s).
Definition withOnline o s : Shared := mkShared (lim s) o (ipMaps s).
Definition withIPMap (m : MapId) (v : gmap string Z) s : Shared := mkShared (lim s) (online s) (<[m := v]> (ipMaps s)).

Definition ipMapOf (m : MapId) s : gmap string Z := default ∅ (ipMaps s !! m).

(** A limiter as the objects it consists of, and what the objects are as a limiter. *)
Definition load l : Shared :=
  mkShared (withUserOnlineIP ∅ l) (map_imap (λ t _, Some (Initial t)) (UserOnlineIP l)) (kmap Initial (UserOnlineIP l)).

Definition view s : Limiter := withUserOnlineIP ((λ m, ipMapOf m s) <$> online s) (lim s).

(** ** CheckLimit *)

Record Request := mkRequest { now : Z; taguuid : string; address : string; noUDPsource : bool }.

(** [ip] after its first line. *)
Definition ip (r : Request) : string := TrimPrefix (address r) "::ffff:".

(** The variables of a call once the user is loaded. *)
Record Locals := mkLocals {
  uid : Z;
  deviceLimit : Z;
  userLimit : Z;
  knownDeviceCount : Z;
  ipMap : MapId;
  created : bool
}.

Definition withKnown (known : Z) (x : Locals) : Locals :=
  mkLocals (uid x) (deviceLimit x) (userLimit x) known (ipMap x) (created x).

Definition withMap (m : MapId) (c : bool) (x : Locals) : Locals :=
  mkLocals (uid x) (deviceLimit x) (userLimit x) (knownDeviceCount x) m c.

(** Where a call is: the operation it does next. *)
Inductive Pc :=
| LoadUser                                            (* [UserLimitInfo.Load] *)
| CountKnown (x : Locals)                             (* [getAliveIP], [recentReportedLocalIPCount] *)
| LoadMap (x : Locals)                                (* [getOrCreateUserOnlineIPMap]: [Load] *)
| CreateMap (x : Locals)                              (* its [LoadOrStore] *)
| LoadIP (x : Locals)                                 (* [ipMap.Load(ip)] *)
| AskKnown (x : Locals)                               (* [isKnownAliveIP] *)
| LoadPending (x : Locals)                            (* [pendingNewIPCount]: [Load] *)
| StartCount (x : Locals) (m : MapId)                 (* its [Range] *)
| Counting (x : Locals) (m : MapId) (seen todo : list string) (count : Z)
| StartDrop (x : Locals) (pending : Z)                (* [dropOnePendingUnknownIP]: [Range] *)
| Dropping (x : Locals) (pending : Z) (seen todo : list string)
| DropIP (x : Locals) (pending : Z) (old : string)    (* its [Delete] *)
| StoreIP (x : Locals)                                (* [ipMap.Store(ip, uid)] *)
| DeleteMap                                           (* [UserOnlineIP.Delete] *)
| LoadBucket (limit : Z)                              (* [SpeedLimiter.Load] *)
| StoreBucket (limit : Z)                             (* [SpeedLimiter.LoadOrStore] *)
| Done (b : option Bucket) (reject : bool).

Definition udpSourceTracked (r : Request) l : bool := negb (noUDPsource r) && tracksUDPSource l.

(** After the device limit: the bucket. *)
Definition afterDevice (x : Locals) l : Pc :=
  let limit := Z.quot (wrap64 (determineSpeedLimit (NodeSpeedLimit l) (userLimit x) * 1000000)) 8 in
  if limit <=? 0 then Done None false else LoadBucket limit.

(** After pending addresses are counted, and one was dropped or not. *)
Definition decide_ (r : Request) (x : Locals) (pendingNewIP : Z) l : Pc :=
  if deviceLimit x <=? wrap64 (knownDeviceCount x + pendingNewIP) then
    if udpSourceTracked r l && (0 <? knownDeviceCount x)
       && (deviceLimit x =? wrap64 (knownDeviceCount x + pendingNewIP))
    then StoreIP x
    else if created x then DeleteMap else Done None true
  else StoreIP x.

Definition afterCount (r : Request) (x : Locals) (pendingNewIP : Z) l : Pc :=
  if (deviceLimit x <=? wrap64 (knownDeviceCount x + pendingNewIP))
     && udpSourceTracked r l && (0 <? knownDeviceCount x)
  then StartDrop x pendingNewIP else decide_ r x pendingNewIP l.

(** The next key of a [Range]: one that came later, if the schedule chooses one
    that is there, or the next of those it started with. *)
Definition nextKey (choice : option string) (seen todo : list string) (m : gmap string Z) : option (string * list string) :=
  match choice with
  | Some k =>
      if bool_decide (k ∉ seen) && bool_decide (k ∉ todo) && bool_decide (is_Some (m !! k)) then Some (k, todo)
      else match todo with [] => None | k :: todo => Some (k, todo) end
  | None => match todo with [] => None | k :: todo => Some (k, todo) end
  end.

Definition isPendingAt (r : Request) (x : Locals) l (m : gmap string Z) (k : string) : bool :=
  match m !! k with
  | Some u => isPendingNewIP (now r) (uid x) l (k, u)
  | None => false
  end.

Definition callStep (i : nat) (choice : option string) (r : Request) (p : Pc) s : Pc * Shared :=
  match p with
  | LoadUser =>
      match UserLimits (lim s) !! taguuid r with
      | None => (Done None true, s)
      | Some u =>
          let '(l, userLimit) := userSpeedLimit (now r) (taguuid r) u (lim s) in
          let deviceLimit := if DeviceLimit u <=? 0 then getDefaultDeviceLimit l else DeviceLimit u in
          let x := mkLocals (UID u) deviceLimit userLimit 0 (Initial (taguuid r)) false in
          (if noUDPsource r || tracksUDPSource l then CountKnown x else afterDevice x l, withLim l s)
      end
  | CountKnown x =>
      (LoadMap (withKnown (wrap64 (getAliveIP (uid x) (lim s) + recentReportedLocalIPCount (now r) (uid x) (lim s))) x), s)
  | LoadMap x =>
      match online s !! taguuid r with
      | Some m => (LoadIP (withMap m false x), s)
      | None => (CreateMap x, s)
      end
  | CreateMap x =>
      match online s !! taguuid r with
      | Some m => (LoadIP (withMap m false x), s)
      | None => (LoadIP (withMap (Created i) true x),
                 withOnline (<[taguuid r := Created i]> (online s)) (withIPMap (Created i) ∅ s))
      end
  | LoadIP x =>
      match ipMapOf (ipMap x) s !! ip r with
      | Some _ => (afterDevice x (lim s), s)
      | None => (AskKnown x, s)
      end
  | AskKnown x =>
      (if negb (isKnownAliveIP (now r) (uid x) (ip r) (lim s)) && (0 <? deviceLimit x) then LoadPending x else StoreIP x, s)
  | LoadPending x =>
      match online s !! taguuid r with
      | None => (afterCount r x 0 (lim s), s)
      | Some m => (StartCount x m, s)
      end
  | StartCount x m => (Counting x m [] (range_list (ipMapOf m s)).*1 0, s)
  | Counting x m seen todo count =>
      match nextKey choice seen todo (ipMapOf m s) with
      | None => (afterCount r x count (lim s), s)
      | Some (k, todo) =>
          (Counting x m (k :: seen) todo (if isPendingAt r x (lim s) (ipMapOf m s) k then count + 1 else count), s)
      end
  | StartDrop x pending => (Dropping x pending [] (range_list (ipMapOf (ipMap x) s)).*1, s)
  | Dropping x pending seen todo =>
      match nextKey choice seen todo (ipMapOf (ipMap x) s) with
      | None => (decide_ r x pending (lim s), s)
      | Some (k, todo) =>
          (if isPendingAt r x (lim s) (ipMapOf (ipMap x) s) k then DropIP x pending k
           else Dropping x pending (k :: seen) todo, s)
      end
  | DropIP x pending old =>
      (decide_ r x (if 0 <? pending then pending - 1 else pending) (lim s),
       withIPMap (ipMap x) (delete old (ipMapOf (ipMap x) s)) s)
  | StoreIP x => (afterDevice x (lim s), withIPMap (ipMap x) (<[ip r := uid x]> (ipMapOf (ipMap x) s)) s)
  | DeleteMap => (Done None true, withOnline (delete (taguuid r) (online s)) s)
  | LoadBucket limit =>
      match SpeedLimiter (lim s) !! taguuid r with
      | Some b => (Done (Some b) false, s)
      | None => (StoreBucket limit, s)
      end
  | StoreBucket limit =>
      match SpeedLimiter (lim s) !! taguuid r with
      | Some b => (Done (Some b) false, s)
      | None =>
          let b := NewBucketWithQuantum 1000000000 limit limit in
          (Done (Some b) false, withLim (withSpeedLimiter (<[taguuid r := b]> (SpeedLimiter (lim s))) (lim s)) s)
      end
  | Done b reject => (Done b reject, s)
  end.

(** ** CommitOnlineDeviceReport *)

Inductive CommitPc :=
| NextReported (rest : list Panel.OnlineUser) (nextOld : gmap string oldOnlineValue)
| LoadOnline (o : Panel.OnlineUser) (rest : list Panel.OnlineUser) (nextOld : gmap string oldOnlineValue)
| LoadReported (o : Panel.OnlineUser) (rest : list Panel.OnlineUser) (nextOld : gmap string oldOnlineValue) (m : MapId)
| DeleteReported (o : Panel.OnlineUser) (rest : list Panel.OnlineUser) (nextOld : gmap string oldOnlineValue) (m : MapId)
| AskEmpty (o : Panel.OnlineUser) (rest : list Panel.OnlineUser) (nextOld : gmap string oldOnlineValue) (m : MapId)
| DeleteEmpty (o : Panel.OnlineUser) (rest : list Panel.OnlineUser) (nextOld : gmap string oldOnlineValue)
| Committed.

Definition commitStep (reportedAt : Z) (p : CommitPc) s : CommitPc * Shared :=
  match p with
  | NextReported [] nextOld => (Committed, withLim (withOldUserOnline nextOld (lim s)) s)
  | NextReported (o :: rest) nextOld =>
      if (Panel.ou_UID o <=? 0) || bool_decide (Panel.ou_IP o = "") then (NextReported rest nextOld, s)
      else
        let nextOld := <[Panel.ou_IP o := OldEntry (mkOldOnlineEntry (Panel.ou_UID o) reportedAt)]> nextOld in
        (if bool_decide (Panel.ou_TagUUID o = "") then NextReported rest nextOld else LoadOnline o rest nextOld, s)
  | LoadOnline o rest nextOld =>
      (match online s !! Panel.ou_TagUUID o with
       | None => NextReported rest nextOld
       | Some m => LoadReported o rest nextOld m
       end, s)
  | LoadReported o rest nextOld m =>
      (match ipMapOf m s !! Panel.ou_IP o with
       | Some currentUID =>
           if currentUID =? Panel.ou_UID o then DeleteReported o rest nextOld m else AskEmpty o rest nextOld m
       | None => AskEmpty o rest nextOld m
       end, s)
  | DeleteReported o rest nextOld m => (AskEmpty o rest nextOld m, withIPMap m (delete (Panel.ou_IP o) (ipMapOf m s)) s)
  | AskEmpty o rest nextOld m =>
      (if bool_decide (ipMapOf m s = ∅) then DeleteEmpty o rest nextOld else NextReported rest nextOld, s)
  | DeleteEmpty o rest nextOld => (NextReported rest nextOld, withOnline (delete (Panel.ou_TagUUID o) (online s)) s)
  | Committed => (Committed, s)
  end.

(** ** Schedules *)

Inductive Thread :=
| Call (r : Request) (p : Pc)
| Commit (reportedAt : Z) (p : CommitPc).

Definition threadStep (i : nat) (choice : option string) (th : Thread) s : Thread * Shared :=
  match th with
  | Call r p => let '(p, s) := callStep i choice r p s in (Call r p, s)
  | Commit t p => let '(p, s) := commitStep t p s in (Commit t p, s)
  end.

Record System := mkSystem { shared : Shared; threads : list Thread }.

(** One step of goroutine [i], with what its [Range] sees. *)
Definition step (e : nat * option string) (y : System) : System :=
  match threads y !! e.1 with
  | None => y
  | Some th => let '(th, s) := threadStep e.1 e.2 th (shared y) in mkSystem s (<[e.1 := th]> (threads y))
  end.

Definition run (schedule : list (nat * option string)) (y : System) : System := foldl (λ y e, step e y) y schedule.

Definition start l (ths : list Thread) : System := mkSystem (load l) ths.

Definition newCall (r : Request) : Thread := Call r LoadUser.
Definition newCommit (reportedAt : Z) (reported : list Panel.OnlineUser) : Thread := Commit reportedAt (NextReported reported ∅).

(** What a call answered. *)
Definition answer (th : Thread) : option (option Bucket * bool) :=
  match th with Call _ (Done b reject) => Some (b, reject) | _ => None end.
End steps.
End LimiterSteps.
