(* ===== verification/LimiterStepsProps.v ===== *)
(** * What the limiter promises under concurrent connections

    An operation that runs in one piece does what Limiter.v says
    ([call_alone], [commit_alone]). *)

From Stdlib Require Import Ascii.
From S2P Require Import Prelude GoStrings Panel Limiter LimiterProps LimiterSteps.

Module LimiterStepsProps.
Import GoStrings Limiter LimiterProps LimiterSteps.

Section steps.
Context `{RL : RateLimit} {RO : RangeOrder string}.
Implicit Types (l : Limiter) (s : Shared) (r : Request) (x : Locals) (p : Pc).

(** ** The objects as a limiter *)

(** No two users share an address map. *)
Definition separate s : Prop := ∀ t t' m, online s !! t = Some m → online s !! t' = Some m → t = t'.

(** Goroutine [i] has not made its map yet. *)
Definition unmade (i : nat) s : Prop := ∀ t, online s !! t ≠ Some (Created i).

Lemma view_lookup s t : UserOnlineIP (view s) !! t = (λ m, ipMapOf m s) <$> online s !! t.
Proof. unfold view. cbn. apply lookup_fmap. Qed.

Lemma view_load l : view (load l) = l.
Proof.
  unfold view, load. cbn [online lim]. rewrite withUserOnlineIP_twice.
  transitivity (withUserOnlineIP (UserOnlineIP l) l); [|apply withUserOnlineIP_id]. f_equal. apply map_eq. intros t. rewrite lookup_fmap, map_lookup_imap. unfold ipMapOf. cbn [ipMaps].
  destruct (UserOnlineIP l !! t) as [m|] eqn:E; [|done]. cbn. by rewrite lookup_kmap, E by (by apply _).
Qed.

Lemma load_separate l : separate (load l).
Proof.
  intros t t' m. unfold load. cbn. rewrite !map_lookup_imap.
  destruct (UserOnlineIP l !! t), (UserOnlineIP l !! t'); cbn; congruence.
Qed.

Lemma load_unmade l i : unmade i (load l).
Proof. intros t. unfold load. cbn. rewrite map_lookup_imap. by destruct (UserOnlineIP l !! t). Qed.

Lemma ipMapOf_withIPMap m m' v s : ipMapOf m (withIPMap m' v s) = if decide (m' = m) then v else ipMapOf m s.
Proof. unfold ipMapOf. cbn. destruct (decide (m' = m)) as [->|]; [by rewrite lookup_insert_eq|by rewrite lookup_insert_ne]. Qed.

Lemma view_withIPMap s t m v : separate s → online s !! t = Some m →
  view (withIPMap m v s) = withUserOnlineIP (<[t := v]> (UserOnlineIP (view s))) (view s).
Proof.
  intros Hs Ht. unfold view at 1 3. rewrite withUserOnlineIP_twice. f_equal. apply map_eq. intros t'.
  rewrite lookup_fmap. destruct (decide (t = t')) as [<-|Hne].
  - rewrite lookup_insert_eq. cbn [online withIPMap]. rewrite Ht. cbn. rewrite ipMapOf_withIPMap, decide_True by done. done.
  - rewrite lookup_insert_ne, view_lookup by done. cbn [online withIPMap].
    destruct (online s !! t') as [m'|] eqn:E; [|done]. cbn. rewrite ipMapOf_withIPMap, decide_False; [done|].
    intros ->. apply Hne. by eapply Hs.
Qed.

Lemma view_delete s t :
  view (withOnline (delete t (online s)) s) = withUserOnlineIP (delete t (UserOnlineIP (view s))) (view s).
Proof. unfold view at 1 3. rewrite withUserOnlineIP_twice. cbn. by rewrite fmap_delete. Qed.

Lemma view_create s t i : unmade i s →
  view (withOnline (<[t := Created i]> (online s)) (withIPMap (Created i) ∅ s))
  = withUserOnlineIP (<[t := ∅]> (UserOnlineIP (view s))) (view s).
Proof.
  intros Hu. unfold view at 1 3. rewrite withUserOnlineIP_twice. cbn [online withOnline lim withIPMap]. f_equal.
  rewrite fmap_insert. apply map_eq. intros t'. destruct (decide (t = t')) as [<-|Hne].
  - by rewrite !lookup_insert_eq; unfold ipMapOf; cbn; rewrite lookup_insert_eq.
  - rewrite !lookup_insert_ne, view_lookup, lookup_fmap by done. destruct (online s !! t') as [m|] eqn:E; [|done]. cbn. f_equal.
    unfold ipMapOf. cbn. rewrite lookup_insert_ne; [done|]. intros <-. by eapply Hu.
Qed.

Lemma view_withLim s l : view (withLim l s) = withUserOnlineIP (UserOnlineIP (view s)) l.
Proof. done. Qed.

(** ** An operation in one piece *)

Definition callNext (i : nat) r (c c' : Pc * Shared) : Prop := callStep i None r c.1 c.2 = c'.
Definition commitNext (t : Z) (c c' : CommitPc * Shared) : Prop := commitStep t c.1 c.2 = c'.

(** A call does one step, or several. *)
Lemma call_step i r p s p' s' c : callStep i None r p s = (p', s') → rtc (callNext i r) (p', s') c → rtc (callNext i r) (p, s) c.
Proof. intros E. by apply rtc_l. Qed.

(** The pending addresses among some keys. *)
Definition countAt r x l (m : gmap string Z) (todo : list string) (count : Z) : Z :=
  foldl (λ c k, if isPendingAt r x l m k then c + 1 else c) count todo.

Lemma counting_alone i r x m s c todo : ∀ seen count,
  rtc (callNext i r) (afterCount r x (countAt r x (lim s) (ipMapOf m s) todo count) (lim s), s) c →
  rtc (callNext i r) (Counting x m seen todo count, s) c.
Proof.
  induction todo as [|k todo IH]; intros seen count Hc; eapply call_step; [reflexivity|exact Hc|reflexivity|].
  by apply IH.
Qed.

Lemma isPendingAt_lookup r x l (m : gmap string Z) k u : m !! k = Some u → isPendingAt r x l m k = isPendingNewIP (now r) (uid x) l (k, u).
Proof. unfold isPendingAt. by intros ->. Qed.

Lemma countAt_range r x l (m : gmap string Z) :
  countAt r x l m (range_list m).*1 0 = rangeCount (isPendingNewIP (now r) (uid x) l) m.
Proof.
  unfold countAt, rangeCount. generalize 0. assert (Hin : ∀ e, e ∈ range_list m → m !! e.1 = Some e.2)
    by (intros [k v]; apply elem_of_range_list).
  induction (range_list m) as [|[k v] es IH]; intros z; [done|]. cbn. rewrite (isPendingAt_lookup _ _ _ _ k v) by (apply (Hin (k, v)); left).
  apply IH. intros e He. apply Hin. by right.
Qed.

(** The first pending address among some keys is dropped. *)
Lemma dropping_alone i r x pending s c todo : ∀ seen,
  rtc (callNext i r)
    match List.find (isPendingAt r x (lim s) (ipMapOf (ipMap x) s)) todo with
    | Some k => (DropIP x pending k, s)
    | None => (decide_ r x pending (lim s), s)
    end c →
  rtc (callNext i r) (Dropping x pending seen todo, s) c.
Proof.
  induction todo as [|k todo IH]; intros seen Hc; eapply call_step; try reflexivity; cbn in *; [done|].
  destruct (isPendingAt r x (lim s) (ipMapOf (ipMap x) s) k); [done|]. by apply IH.
Qed.

Lemma find_range r x l (m : gmap string Z) :
  List.find (isPendingAt r x l m) (range_list m).*1 = firstPending (now r) (uid x) l (range_list m).
Proof.
  unfold firstPending. assert (Hin : ∀ e, e ∈ range_list m → m !! e.1 = Some e.2) by (intros [k v]; apply elem_of_range_list).
  induction (range_list m) as [|[k v] es IH]; [done|]. cbn. rewrite (isPendingAt_lookup _ _ _ _ k v) by (apply (Hin (k, v)); left).
  destruct (isPendingNewIP (now r) (uid x) l (k, v)); [done|]. apply IH. intros e He. apply Hin. by right.
Qed.

(** Where the device limit leads to: a rejection, or on to the bucket. *)
Definition outcome i r x (c : Pc * Shared) (res : Limiter * bool) : Prop :=
  ∃ x' s', rtc (callNext i r) c (if res.2 then Done None true else afterDevice x' (lim s'), s')
           ∧ view s' = res.1 ∧ userLimit x' = userLimit x.

Lemma outcome_step i r x p s p' s' res : callStep i None r p s = (p', s') → outcome i r x (p', s') res → outcome i r x (p, s) res.
Proof. intros E (x' & s1 & Hr & ?). exists x', s1. split; [by eapply call_step|done]. Qed.

Lemma counting_outcome i r x m s res :
  outcome i r x (afterCount r x (rangeCount (isPendingNewIP (now r) (uid x) (lim s)) (ipMapOf m s)) (lim s), s) res →
  outcome i r x (Counting x m [] (range_list (ipMapOf m s)).*1 0, s) res.
Proof. intros (x' & s' & Hr & Hv). exists x', s'. split; [|done]. apply counting_alone. by rewrite countAt_range. Qed.

Lemma dropping_outcome i r x pending seen s res :
  outcome i r x
    match List.find (isPendingAt r x (lim s) (ipMapOf (ipMap x) s)) (range_list (ipMapOf (ipMap x) s)).*1 with
    | Some k => (DropIP x pending k, s)
    | None => (decide_ r x pending (lim s), s)
    end res →
  outcome i r x (Dropping x pending seen (range_list (ipMapOf (ipMap x) s)).*1, s) res.
Proof. intros (x' & s' & Hr & Hv). exists x', s'. split; [by apply dropping_alone|done]. Qed.

(** The limiter with the addresses of the caller's user replaced. *)
Definition withIPs r (m : gmap string Z) l : Limiter := withUserOnlineIP (<[taguuid r := m]> (UserOnlineIP l)) l.

(** The last tests of [CheckLimit] on the device limit, as [admitDevice] has them. *)
Definition decided r x (pending : Z) (M : gmap string Z) l : Limiter * bool :=
  if deviceLimit x <=? wrap64 (knownDeviceCount x + pending) then
    if udpSourceTracked r l && (0 <? knownDeviceCount x) && (deviceLimit x =? wrap64 (knownDeviceCount x + pending))
    then (withIPs r (<[ip r := uid x]> M) l, false)
    else ((if created x then withUserOnlineIP (delete (taguuid r) (UserOnlineIP l)) l else withIPs r M l), true)
  else (withIPs r (<[ip r := uid x]> M) l, false).

Lemma decided_withIPs r x pending M M' l : decided r x pending M (withIPs r M' l) = decided r x pending M l.
Proof.
  unfold decided, withIPs. cbn [UserOnlineIP withUserOnlineIP]. rewrite !withUserOnlineIP_twice, !insert_insert_eq, delete_insert_eq.
  done.
Qed.

(** The map the call holds is the one of its user. *)
Definition holds r x s : Prop := separate s ∧ online s !! taguuid r = Some (ipMap x).

Lemma store_outcome i r x s : holds r x s →
  outcome i r x (StoreIP x, s)
    (withIPs r (<[ip r := uid x]> (ipMapOf (ipMap x) s)) (view s), false).
Proof.
  intros [Hs Ht]. exists x, (withIPMap (ipMap x) (<[ip r := uid x]> (ipMapOf (ipMap x) s)) s).
  split; [eapply call_step; [reflexivity|apply rtc_refl]|]. split; [|done]. by apply view_withIPMap.
Qed.

Lemma decide_outcome i r x pending s : holds r x s →
  outcome i r x (decide_ r x pending (lim s), s)
    (decided r x pending (ipMapOf (ipMap x) s) (view s)).
Proof.
  intros Hh. unfold decide_, decided. change (udpSourceTracked r (view s)) with (udpSourceTracked r (lim s)).
  destruct (deviceLimit x <=? _); [|by apply store_outcome].
  destruct (_ && _); [by apply store_outcome|]. destruct Hh as [Hs Ht]. destruct (created x).
  - exists x. eexists. split; [eapply call_step; [reflexivity|apply rtc_refl]|]. split; [apply view_delete|done].
  - exists x, s. split; [apply rtc_refl|]. split; [|done]. cbn [fst]. unfold withIPs. rewrite insert_id by (by rewrite view_lookup, Ht).
    by rewrite withUserOnlineIP_id.
Qed.

Lemma holds_drop r x s v : holds r x s → holds r x (withIPMap (ipMap x) v s).
Proof. done. Qed.

Lemma count_outcome i r x pending s : holds r x s →
  outcome i r x (afterCount r x pending (lim s), s)
    (let '(M, pending) := evictPending (now r) (uid x) (deviceLimit x) (knownDeviceCount x) pending
                            (udpSourceTracked r (view s)) (ipMapOf (ipMap x) s) (view s) in
     decided r x pending M (view s)).
Proof.
  intros Hh. unfold afterCount, evictPending. change (udpSourceTracked r (view s)) with (udpSourceTracked r (lim s)).
  destruct (_ && udpSourceTracked r (lim s) && _); [|by apply decide_outcome].
  eapply outcome_step; [reflexivity|]. unfold dropOnePendingUnknownIP. rewrite <- find_range with (x := x) (r := r).
  change (isPendingAt r x (view s)) with (isPendingAt r x (lim s)).
  apply dropping_outcome.
  destruct (List.find _ _) as [k|]; cbn [andb].
  - eapply outcome_step; [reflexivity|].
    pose proof (decide_outcome i r x (if 0 <? pending then pending - 1 else pending) _ (holds_drop r x s (delete k (ipMapOf (ipMap x) s)) Hh)) as H.
    destruct Hh as [Hs Ht]. rewrite !(view_withIPMap _ _ _ _ Hs Ht), ipMapOf_withIPMap, decide_True in H by done.
    fold (withIPs r (delete k (ipMapOf (ipMap x) s)) (view s)) in H. rewrite decided_withIPs in H. exact H.
  - by apply decide_outcome.
Qed.

(** The device limit, from the map on. *)
Lemma map_outcome i r x s : holds r x s →
  outcome i r x (LoadIP x, s)
    (match ipMapOf (ipMap x) s !! ip r with
     | Some _ => (view s, false)
     | None =>
         if negb (isKnownAliveIP (now r) (uid x) (ip r) (view s)) && (0 <? deviceLimit x) then
           let '(M, pending) := evictPending (now r) (uid x) (deviceLimit x) (knownDeviceCount x)
                                  (pendingNewIPCount (now r) (taguuid r) (uid x) (view s))
                                  (udpSourceTracked r (view s)) (ipMapOf (ipMap x) s) (view s) in
           decided r x pending M (view s)
         else (withIPs r (<[ip r := uid x]> (ipMapOf (ipMap x) s)) (view s), false)
     end).
Proof.
  intros Hh. destruct (ipMapOf (ipMap x) s !! ip r) as [u|] eqn:Hip.
  - exists x, s. split; [|done]. eapply call_step; [|apply rtc_refl]. cbn. by rewrite Hip.
  - eapply outcome_step; [cbn; by rewrite Hip|]. eapply outcome_step; [reflexivity|].
    change (isKnownAliveIP (now r) (uid x) (ip r) (view s)) with (isKnownAliveIP (now r) (uid x) (ip r) (lim s)).
    destruct (_ && _); [|by apply store_outcome]. pose proof Hh as [_ Ht].
    eapply outcome_step; [cbn; by rewrite Ht|]. eapply outcome_step; [reflexivity|].
    assert (Hc : pendingNewIPCount (now r) (taguuid r) (uid x) (view s)
                 = rangeCount (isPendingNewIP (now r) (uid x) (lim s)) (ipMapOf (ipMap x) s)).
    { unfold pendingNewIPCount. by rewrite view_lookup, Ht. }
    rewrite Hc. by apply counting_outcome, count_outcome.
Qed.

Lemma withMap_same x : withMap (ipMap x) (created x) x = x.
Proof. by destruct x. Qed.

(** The whole block of the device limit. *)
Lemma device_outcome i r x s : separate s → unmade i s → noUDPsource r || tracksUDPSource (view s) = true →
  outcome i r x (CountKnown x, s) (admitDevice (now r) (taguuid r) (ip r) (noUDPsource r) (uid x) (deviceLimit x) (view s)).
Proof.
  intros Hs Hu Ht. eapply outcome_step; [reflexivity|]. unfold admitDevice. rewrite Ht. cbn [negb].
  unfold getOrCreateUserOnlineIPMap. rewrite view_lookup.
  destruct (online s !! taguuid r) as [m|] eqn:Hm; cbn [fmap option_fmap option_map].
  - eapply outcome_step; [cbn; by rewrite Hm|].
    exact (map_outcome i r (withMap m false (withKnown _ x)) s (conj Hs Hm)).
  - eapply outcome_step; [cbn; by rewrite Hm|]. eapply outcome_step; [cbn; by rewrite Hm|].
    set (s1 := withOnline _ _). pose proof (view_create s (taguuid r) i Hu) as Hv. fold s1 in Hv.
    assert (Hh : holds r (withMap (Created i) true (withKnown (wrap64 (getAliveIP (uid x) (lim s) + recentReportedLocalIPCount (now r) (uid x) (lim s))) x)) s1).
    { split; [|by unfold s1; cbn; rewrite lookup_insert_eq]. intros t t' m. unfold s1. cbn.
      rewrite !lookup_insert. case_decide; case_decide; try congruence; intros; by eapply Hs. }
    pose proof (map_outcome i r _ s1 Hh) as H. rewrite Hv in H.
    assert (E : ipMapOf (Created i) s1 = ∅) by (unfold s1, ipMapOf; cbn; by rewrite lookup_insert_eq).
    cbn [ipMap withMap] in H. rewrite E in H. exact H.
Qed.

Lemma userSpeedLimit_view s t k u :
  userSpeedLimit t k u (view s)
  = (view (withLim (userSpeedLimit t k u (lim s)).1 s), (userSpeedLimit t k u (lim s)).2).
Proof. unfold userSpeedLimit. by repeat case_goal. Qed.

Lemma bucket_alone i r x s : ∃ b s', rtc (callNext i r) (afterDevice x (lim s), s) (Done b false, s')
  ∧ speedBucket (taguuid r) (NodeSpeedLimit (view s)) (userLimit x) (view s) = (view s', b).
Proof.
  unfold afterDevice, speedBucket. change (NodeSpeedLimit (view s)) with (NodeSpeedLimit (lim s)).
  change (SpeedLimiter (view s)) with (SpeedLimiter (lim s)).
  destruct (_ <=? 0); [by exists None, s|]. destruct (SpeedLimiter (lim s) !! taguuid r) as [b|] eqn:E.
  - exists (Some b), s. split; [|done]. eapply call_step; [cbn; by rewrite E|apply rtc_refl].
  - set (b := NewBucketWithQuantum 1000000000 _ _).
    exists (Some b), (withLim (withSpeedLimiter (<[taguuid r := b]> (SpeedLimiter (lim s))) (lim s)) s). split; [|done].
    eapply call_step; [cbn; by rewrite E|]. eapply call_step; [cbn; by rewrite E|apply rtc_refl].
Qed.

(** A call that runs in one piece ends, with the answer and the effect of
    Limiter.v. *)
Theorem call_alone i r s : separate s → unmade i s → ∃ b reject s',
  rtc (callNext i r) (LoadUser, s) (Done b reject, s')
  ∧ CheckLimit (now r) (taguuid r) (address r) (noUDPsource r) (view s) = (view s', (b, reject)).
Proof.
  intros Hs Hu. destruct (UserLimits (lim s) !! taguuid r) as [u|] eqn:Eu.
  - rewrite (CheckLimit_unfold _ _ _ _ _ u) by done. rewrite userSpeedLimit_view.
    set (l := (userSpeedLimit _ _ u (lim s)).1). set (ul := (userSpeedLimit _ _ u (lim s)).2).
    assert (Hd : effectiveDeviceLimit u (view s) = if DeviceLimit u <=? 0 then getDefaultDeviceLimit l else DeviceLimit u).
    { unfold effectiveDeviceLimit, l, userSpeedLimit. by repeat case_goal. }
    assert (Hn : NodeSpeedLimit (view s) = NodeSpeedLimit l) by (unfold l, userSpeedLimit; by repeat case_goal).
    rewrite Hd, Hn. set (x := mkLocals (UID u) (if DeviceLimit u <=? 0 then getDefaultDeviceLimit l else DeviceLimit u) ul 0 (Initial (taguuid r)) false).
    assert (Hfirst : callStep i None r LoadUser s = (if noUDPsource r || tracksUDPSource l then CountKnown x else afterDevice x l, withLim l s)).
    { cbn. rewrite Eu. unfold x, l, ul. by destruct (userSpeedLimit (now r) (taguuid r) u (lim s)). }
    assert (Ho : outcome i r x (if noUDPsource r || tracksUDPSource l then CountKnown x else afterDevice x l, withLim l s)
                   (admitDevice (now r) (taguuid r) (ip r) (noUDPsource r) (uid x) (deviceLimit x) (view (withLim l s)))).
    { destruct (noUDPsource r || tracksUDPSource l) eqn:Et; [by apply device_outcome|].
      exists x, (withLim l s). unfold admitDevice. change (tracksUDPSource (view (withLim l s))) with (tracksUDPSource l).
      rewrite Et. cbn [negb fst snd]. split; [apply rtc_refl|done]. }
    destruct Ho as (x' & s' & Hr & Hv & Hx). cbn [uid deviceLimit x] in Hr, Hv. unfold ip in Hr, Hv.
    destruct (admitDevice _ _ _ _ _ _ _) as [l2 [|]] eqn:Ha; cbn [fst snd] in Hr, Hv; subst l2.
    + exists None, true, s'. split; [|done]. by eapply call_step.
    + destruct (bucket_alone i r x' s') as (b & s2 & Hr2 & Hb). exists b, false, s2.
      split; [eapply call_step; [exact Hfirst|]; by etrans|].
      assert (Hn2 : NodeSpeedLimit (view s') = NodeSpeedLimit l).
      { change (NodeSpeedLimit l) with (NodeSpeedLimit (view (withLim l s))). pose proof (admitDevice_frame (now r) (taguuid r) (ip r) (noUDPsource r) (UID u) (deviceLimit x) (view (withLim l s))) as Hf.
        unfold ip in Hf. cbn [deviceLimit x] in Hf. rewrite Ha in Hf. destruct Hf as (M & HM & _). cbn [fst] in HM. by rewrite HM. }
      rewrite Hn2, Hx in Hb. cbn [userLimit x] in Hb. by rewrite Hb.
  - exists None, true, s. split; [eapply call_step; [cbn; by rewrite Eu|apply rtc_refl]|].
    unfold CheckLimit. change (UserLimits (view s)) with (UserLimits (lim s)). by rewrite Eu.
Qed.

(** ** A report in one piece *)

Lemma commit_step t (p p' : CommitPc) s s' c : commitStep t p s = (p', s') → rtc (commitNext t) (p', s') c → rtc (commitNext t) (p, s) c.
Proof. intros E. by apply rtc_l. Qed.

Lemma reported_alone t o rest nextOld s : separate s → ∃ s',
  rtc (commitNext t) (NextReported (o :: rest) nextOld, s)
    (NextReported rest (commitReported t (nextOld, UserOnlineIP (view s)) o).1, s')
  ∧ separate s' ∧ view s' = withUserOnlineIP (commitReported t (nextOld, UserOnlineIP (view s)) o).2 (view s).
Proof.
  intros Hs. unfold commitReported.
  destruct ((Panel.ou_UID o <=? 0) || bool_decide (Panel.ou_IP o = "")) eqn:E1.
  { exists s. split; [eapply commit_step; [cbn; by rewrite E1|apply rtc_refl]|]. cbn [snd]. by rewrite withUserOnlineIP_id. }
  destruct (bool_decide (Panel.ou_TagUUID o = "")) eqn:E2.
  { exists s. split; [eapply commit_step; [cbn; by rewrite E1, E2|apply rtc_refl]|]. cbn [snd]. by rewrite withUserOnlineIP_id. }
  rewrite view_lookup. destruct (online s !! Panel.ou_TagUUID o) as [m|] eqn:Em; cbn [fmap option_fmap option_map].
  2: { exists s. split; [|cbn [snd]; by rewrite withUserOnlineIP_id].
       eapply commit_step; [cbn; by rewrite E1, E2|]. eapply commit_step; [cbn; by rewrite Em|apply rtc_refl]. }
  set (v := match ipMapOf m s !! Panel.ou_IP o with
            | Some u => if u =? Panel.ou_UID o then delete (Panel.ou_IP o) (ipMapOf m s) else ipMapOf m s
            | None => ipMapOf m s end).
  set (nextOld' := <[Panel.ou_IP o := _]> nextOld).
  assert (H : ∃ s1, rtc (commitNext t) (NextReported (o :: rest) nextOld, s) (AskEmpty o rest nextOld' m, s1)
                    ∧ separate s1 ∧ online s1 = online s ∧ ipMapOf m s1 = v
                    ∧ view s1 = withUserOnlineIP (<[Panel.ou_TagUUID o := v]> (UserOnlineIP (view s))) (view s)).
  { assert (Hsame : view s = withUserOnlineIP (<[Panel.ou_TagUUID o := ipMapOf m s]> (UserOnlineIP (view s))) (view s)).
    { rewrite insert_id by (by rewrite view_lookup, Em). by rewrite withUserOnlineIP_id. }
    assert (Hl : ∀ c, rtc (commitNext t) (LoadReported o rest nextOld' m, s) c → rtc (commitNext t) (NextReported (o :: rest) nextOld, s) c).
    { intros c Hc. eapply commit_step; [cbn; by rewrite E1, E2|]. eapply commit_step; [cbn; by rewrite Em|done]. }
    unfold v. destruct (ipMapOf m s !! Panel.ou_IP o) as [u|] eqn:Eu.
    - destruct (u =? Panel.ou_UID o) eqn:Eu2.
      + exists (withIPMap m (delete (Panel.ou_IP o) (ipMapOf m s)) s). split_and!; [|done|done| |by apply view_withIPMap].
        * apply Hl. eapply commit_step; [cbn; by rewrite Eu, Eu2|]. eapply commit_step; [reflexivity|apply rtc_refl].
        * by rewrite ipMapOf_withIPMap, decide_True.
      + exists s. split_and!; try done. apply Hl. eapply commit_step; [cbn; by rewrite Eu, Eu2|apply rtc_refl].
    - exists s. split_and!; try done. apply Hl. eapply commit_step; [cbn; by rewrite Eu|apply rtc_refl]. }
  destruct H as (s1 & Hr & Hs1 & Ho & Hi & Hv). cbn [fst snd]. destruct (bool_decide (v = ∅)) eqn:Hempty.
  - exists (withOnline (delete (Panel.ou_TagUUID o) (online s1)) s1). split_and!.
    + etrans; [exact Hr|]. eapply commit_step; [cbn; by rewrite Hi, Hempty|].
      eapply commit_step; [reflexivity|apply rtc_refl].
    + intros k k' m'. cbn. rewrite !lookup_delete_Some. intros [_ ?] [_ ?]. by eapply Hs1.
    + rewrite view_delete, Hv. cbn [UserOnlineIP withUserOnlineIP]. by rewrite withUserOnlineIP_twice, delete_insert_eq.
  - exists s1. split_and!; [|done|done]. etrans; [exact Hr|].
    eapply commit_step; [cbn; by rewrite Hi, Hempty|apply rtc_refl].
Qed.

Theorem commit_alone t reported s : separate s → ∃ s',
  rtc (commitNext t) (NextReported reported ∅, s) (Committed, s') ∧ view s' = CommitOnlineDeviceReport t reported (view s).
Proof.
  intros Hs. unfold CommitOnlineDeviceReport. generalize (∅ : gmap string oldOnlineValue).
  revert s Hs. induction reported as [|o rest IH]; intros s Hs nextOld.
  - eexists. split; [eapply commit_step; [reflexivity|apply rtc_refl]|]. cbn [foldl]. by rewrite withUserOnlineIP_id.
  - destruct (reported_alone t o rest nextOld s Hs) as (s1 & Hr & Hs1 & Hv).
    destruct (IH s1 Hs1 (commitReported t (nextOld, UserOnlineIP (view s)) o).1) as (s2 & Hr2 & Hv2).
    exists s2. split; [by etrans|]. cbn [foldl]. rewrite Hv2, Hv. cbn [UserOnlineIP withUserOnlineIP].
    destruct (commitReported t (nextOld, UserOnlineIP (view s)) o) as [a b]. cbn [fst snd].
    by destruct (foldl (commitReported t) (a, b) rest).
Qed.

(** ** Calls of different users do not meet *)

(** What goroutine [i] finds of user [t], and what it never changes. *)
Inductive agree (i : nat) (t : string) : Shared → Shared → Prop :=
| agree_intro o o' M M' U U' B B' l :
    o !! t = o' !! t → M !! Initial t = M' !! Initial t → M !! Created i = M' !! Created i →
    U !! t = U' !! t → B !! t = B' !! t →
    agree i t (mkShared (withUserLimits U (withSpeedLimiter B l)) o M) (mkShared (withUserLimits U' (withSpeedLimiter B' l)) o' M').

Lemma agree_refl i t s : agree i t s s.
Proof. destruct s as [l o M]. replace l with (withUserLimits (UserLimits l) (withSpeedLimiter (SpeedLimiter l) l)) by (by destruct l). by constructor. Qed.

(** The maps a call may hold. *)
Definition ownMap (i : nat) (t : string) (m : MapId) : Prop := m = Initial t ∨ m = Created i.

Definition mapsOf p : list MapId :=
  match p with
  | CountKnown x | LoadMap x | CreateMap x | LoadIP x | AskKnown x | LoadPending x | StartDrop x _ | Dropping x _ _ _
  | DropIP x _ _ | StoreIP x => [ipMap x]
  | StartCount x m | Counting x m _ _ _ => [ipMap x; m]
  | _ => []
  end.

Definition owns (i : nat) (t : string) p s : Prop := Forall (ownMap i t) (mapsOf p) ∧ ∀ m, online s !! t = Some m → ownMap i t m.

Lemma mapsOf_decide r x n l : mapsOf (decide_ r x n l) ⊆ [ipMap x].
Proof. unfold decide_. repeat case_goal; set_solver. Qed.

Lemma mapsOf_afterCount r x n l : mapsOf (afterCount r x n l) ⊆ [ipMap x].
Proof. unfold afterCount. case_goal; [done|apply mapsOf_decide]. Qed.

Lemma mapsOf_afterDevice x l : mapsOf (afterDevice x l) = [].
Proof. unfold afterDevice. by case_goal. Qed.

Lemma owns_step i c r p s p' s' : callStep i c r p s = (p', s') → owns i (taguuid r) p s → owns i (taguuid r) p' s'.
Proof.
  intros E [Hp Ho]. split.
  - apply Forall_forall. rewrite Forall_forall in Hp. intros m Hm. destruct p; cbn in E.
    all: repeat case_match; simplify_eq; cbn [mapsOf] in *; rewrite ?mapsOf_afterDevice in *;
      try (by apply Hp); try (by apply elem_of_nil in Hm).
    all: try (apply mapsOf_decide in Hm || apply mapsOf_afterCount in Hm).
    all: try (by apply Hp; set_solver).
    all: cbn in Hm; repeat (apply elem_of_cons in Hm as [->|Hm]); try (by apply elem_of_nil in Hm).
    all: try (by apply Ho); try (by left); try (by right); try (by apply Hp; set_solver).
  - intros m. destruct p; cbn in E; repeat case_match; simplify_eq; cbn; try (by apply Ho).
    all: rewrite ?lookup_insert_eq, ?lookup_delete_eq; intros ?; try (by right; congruence); try (apply Ho); congruence.
Qed.

Lemma owns_start i r l : owns i (taguuid r) LoadUser (load l).
Proof. split; [constructor|]. intros m. unfold load. cbn. rewrite map_lookup_imap. destruct (UserOnlineIP l !! taguuid r); cbn; [|done]. intros [= <-]. by left. Qed.

Lemma agree_lookup i t s s' : agree i t s s' → online s !! t = online s' !! t.
Proof. by intros []. Qed.

Lemma agree_ipMapOf i t s s' m : agree i t s s' → ownMap i t m → ipMapOf m s = ipMapOf m s'.
Proof. unfold ipMapOf. intros [] [->| ->]; cbn; congruence. Qed.

Lemma agree_userSpeedLimit i t s s' n u : agree i t s s' →
  agree i t (withLim (userSpeedLimit n t u (lim s)).1 s) (withLim (userSpeedLimit n t u (lim s')).1 s')
  ∧ (userSpeedLimit n t u (lim s)).2 = (userSpeedLimit n t u (lim s')).2
  ∧ ∀ r x, afterDevice x (userSpeedLimit n t u (lim s)).1 = afterDevice x (userSpeedLimit n t u (lim s')).1
           ∧ getDefaultDeviceLimit (userSpeedLimit n t u (lim s)).1 = getDefaultDeviceLimit (userSpeedLimit n t u (lim s')).1
           ∧ tracksUDPSource (userSpeedLimit n t u (lim s)).1 = tracksUDPSource (userSpeedLimit n t u (lim s')).1
           ∧ udpSourceTracked r (userSpeedLimit n t u (lim s)).1 = udpSourceTracked r (userSpeedLimit n t u (lim s')).1.
Proof.
  intros []. unfold userSpeedLimit. cbn [lim UserLimits withUserLimits]. repeat case_goal; cbn [fst snd]; split_and!; try done.
  - exact (agree_intro i t o o' M M' (<[t := _]> U) (<[t := _]> U') B B' l ltac:(done) ltac:(done) ltac:(done) ltac:(by rewrite !lookup_insert_eq) ltac:(done)).
  - exact (agree_intro i t o o' M M' (delete t U) (delete t U') B B' l ltac:(done) ltac:(done) ltac:(done) ltac:(by rewrite !lookup_delete_eq) ltac:(done)).
Qed.

Lemma agree_withIPMap i t s s' m v : agree i t s s' → agree i t (withIPMap m v s) (withIPMap m v s').
Proof. intros []. unfold withIPMap. cbn. constructor; try done; rewrite !lookup_insert; by repeat case_decide. Qed.

Lemma agree_withOnline i t s s' f : agree i t s s' → (∀ o o', o !! t = o' !! t → f o !! t = f o' !! (t : string)) →
  agree i t (withOnline (f (online s)) s) (withOnline (f (online s')) s').
Proof. intros [] Hf. unfold withOnline. cbn. constructor; try done. by apply Hf. Qed.

(** A call does the same wherever it finds the same. *)
Lemma step_agree i c r p s s' : agree i (taguuid r) s s' → owns i (taguuid r) p s →
  (callStep i c r p s).1 = (callStep i c r p s').1 ∧ agree i (taguuid r) (callStep i c r p s).2 (callStep i c r p s').2.
Proof.
  intros Ha [Hp Ho]. pose proof (agree_lookup _ _ _ _ Ha) as Hl.
  assert (Hm : ∀ m, ownMap i (taguuid r) m → ipMapOf m s = ipMapOf m s') by (intros; by eapply agree_ipMapOf).
  assert (Hm' : ∀ x, Forall (ownMap i (taguuid r)) [ipMap x] → ipMapOf (ipMap x) s = ipMapOf (ipMap x) s') by (intros x; rewrite Forall_singleton; apply Hm).
  destruct p; cbn [callStep mapsOf] in *.
  - pose proof (agree_userSpeedLimit i (taguuid r) s s' (now r)) as Hu.
    assert (HU : UserLimits (lim s) !! taguuid r = UserLimits (lim s') !! taguuid r) by (by destruct Ha).
    rewrite <- HU. destruct (UserLimits (lim s) !! taguuid r) as [u|]; [|done].
    destruct (Hu u Ha) as (Ha' & He & Hr). destruct (userSpeedLimit _ _ u (lim s)) as [l1 u1], (userSpeedLimit _ _ u (lim s')) as [l2 u2].
    cbn in *. subst u2. split; [|done].
    destruct (Hr r (mkLocals (UID u) (if DeviceLimit u <=? 0 then getDefaultDeviceLimit l2 else DeviceLimit u) u1 0 (Initial (taguuid r)) false))
      as (H1 & -> & -> & _). by rewrite H1.
  - by destruct Ha.
  - rewrite <- Hl. by destruct (online s !! _).
  - rewrite <- Hl. destruct (online s !! _); cbn; [done|]. split; [done|].
    by apply (agree_withOnline i (taguuid r) (withIPMap (Created i) ∅ s) (withIPMap (Created i) ∅ s') (λ o, <[taguuid r := Created i]> o)); [apply agree_withIPMap|intros; rewrite !lookup_insert_eq].
  - rewrite <- (Hm' x Hp). destruct (_ !! ip r); [|done]. by destruct Ha.
  - by destruct Ha.
  - rewrite <- Hl. destruct (online s !! _); [done|]. by destruct Ha.
  - rewrite !Forall_cons in Hp. destruct Hp as (_ & Hp & _). rewrite <- (Hm m) by done. by destruct Ha.
  - rewrite !Forall_cons in Hp. destruct Hp as (_ & Hp & _). rewrite <- (Hm m) by done. destruct (nextKey _ _ _ _) as [[k todo']|]; by destruct Ha.
  - rewrite <- (Hm' x Hp). by destruct Ha.
  - rewrite <- (Hm' x Hp). destruct (nextKey _ _ _ _) as [[k todo']|]; by destruct Ha.
  - rewrite <- (Hm' x Hp). split; [by destruct Ha|by apply agree_withIPMap].
  - rewrite <- (Hm' x Hp). split; [by destruct Ha|by apply agree_withIPMap].
  - split; [done|]. by apply (agree_withOnline i (taguuid r) s s' (λ o, delete (taguuid r) o)); [|intros; rewrite !lookup_delete_eq].
  - assert (HB : SpeedLimiter (lim s) !! taguuid r = SpeedLimiter (lim s') !! taguuid r) by (by destruct Ha).
    rewrite <- HB. by destruct (SpeedLimiter (lim s) !! _).
  - assert (HB : SpeedLimiter (lim s) !! taguuid r = SpeedLimiter (lim s') !! taguuid r) by (by destruct Ha).
    rewrite <- HB. destruct (SpeedLimiter (lim s) !! _); [done|]. split; [done|]. destruct Ha as [o o' M M' U U' B B' l]. 
    exact (agree_intro i (taguuid r) o o' M M' U U' (<[taguuid r := _]> B) (<[taguuid r := _]> B') l ltac:(done) ltac:(done) ltac:(done) ltac:(done) ltac:(by rewrite !lookup_insert_eq)).
  - done.
Qed.

Lemma agree_trans i t s s1 s2 : agree i t s s1 → agree i t s1 s2 → agree i t s s2.
Proof.
  intros H1 H2. destruct s2 as [l2 o2 M2], s1 as [l1 o1 M1], s as [l o M]. inversion H1; inversion H2; subst.
  match goal with H : withUserLimits ?U (withSpeedLimiter ?B ?l) = withUserLimits ?U' (withSpeedLimiter ?B' ?l') |- _ => destruct l, l'; cbn in H; injection H; intros; subst end.
  match goal with |- agree _ _ (mkShared (withUserLimits ?U (withSpeedLimiter ?B ?l)) _ _) (mkShared (withUserLimits ?U' (withSpeedLimiter ?B' _)) _ _) =>
    apply (agree_intro i t _ _ _ _ U U' B B' l) end; congruence.
Qed.

Lemma agree_sym i t s s' : agree i t s s' → agree i t s' s.
Proof. intros []. by constructor. Qed.

Lemma agree_same i t s o M : o !! t = online s !! t → M !! Initial t = ipMaps s !! Initial t →
  M !! Created i = ipMaps s !! Created i → agree i t (mkShared (lim s) o M) s.
Proof.
  destruct s as [l o' M']. cbn. intros. replace l with (withUserLimits (UserLimits l) (withSpeedLimiter (SpeedLimiter l) l)) by (by destruct l).
  by constructor.
Qed.

Lemma agree_otherMap i j t t' m v s : ownMap j t' m → t ≠ t' → i ≠ j → agree i t (withIPMap m v s) s.
Proof. intros Hm Ht Hi. apply agree_same; [done|..]; destruct Hm as [->| ->]; by rewrite lookup_insert_ne by congruence. Qed.

Lemma agree_otherOnline i t s o' : o' !! t = online s !! t → agree i t (withOnline o' s) s.
Proof. intros Ho. by apply agree_same. Qed.

Lemma agree_tables i t s U B : U !! t = UserLimits (lim s) !! t → B !! t = SpeedLimiter (lim s) !! t →
  agree i t (withLim (withUserLimits U (withSpeedLimiter B (lim s))) s) s.
Proof.
  destruct s as [l o M]. cbn. intros HU HB.
  pose proof (agree_intro i t o o M M U (UserLimits l) B (SpeedLimiter l) l eq_refl eq_refl eq_refl HU HB) as H.
  by replace (withUserLimits (UserLimits l) (withSpeedLimiter (SpeedLimiter l) l)) with l in H by (by destruct l).
Qed.

Lemma agree_otherUser i t k s n u : k ≠ t → agree i t (withLim (userSpeedLimit n k u (lim s)).1 s) s.
Proof.
  intros Hk. destruct (userSpeedLimit_frame n k u (lim s)) as (U & -> & HU).
  exact (agree_tables i t s U (SpeedLimiter (lim s)) (HU t ltac:(done)) eq_refl).
Qed.

(** A step of a call leaves what other users have. *)
Lemma step_frame i j c r p s t : owns j (taguuid r) p s → t ≠ taguuid r → i ≠ j → agree i t (callStep j c r p s).2 s.
Proof.
  intros [Hp Ho] Ht Hi. destruct p; cbn [callStep mapsOf] in *; try apply agree_refl.
  - destruct (UserLimits (lim s) !! _) as [u|]; [|apply agree_refl].
    pose proof (agree_otherUser i t (taguuid r) s (now r) u ltac:(congruence)) as H. by destruct (userSpeedLimit _ _ u (lim s)).
  - destruct (online s !! _); apply agree_refl.
  - destruct (online s !! _); [apply agree_refl|]. eapply agree_trans; [apply agree_otherOnline; by rewrite lookup_insert_ne|].
    apply (agree_otherMap i j t (taguuid r)); [by right|done..].
  - destruct (_ !! ip r); apply agree_refl.
  - destruct (online s !! _); apply agree_refl.
  - destruct (nextKey _ _ _ _) as [[]|]; apply agree_refl.
  - destruct (nextKey _ _ _ _) as [[]|]; apply agree_refl.
  - rewrite Forall_singleton in Hp. by eapply agree_otherMap.
  - rewrite Forall_singleton in Hp. by eapply agree_otherMap.
  - apply agree_otherOnline. by rewrite lookup_delete_ne.
  - destruct (SpeedLimiter _ !! taguuid r); apply agree_refl.
  - destruct (SpeedLimiter _ !! taguuid r); [apply agree_refl|]. cbn [snd].
    refine (agree_tables i t s (UserLimits (lim s)) (<[taguuid r := _]> (SpeedLimiter (lim s))) eq_refl _). by rewrite lookup_insert_ne.
Qed.
End steps.
End LimiterStepsProps.
