(* ===== verification/LimiterRaceProps.v ===== *)
(** * Schedules of the limiter

    On every schedule the calls of different users answer and leave what they do
    one after another ([users_isolated]). *)

From Stdlib Require Import Ascii.
From S2P Require Import Prelude GoStrings Panel Limiter LimiterProps LimiterSteps LimiterStepsProps.

Module LimiterRaceProps.
Import GoStrings Limiter LimiterProps LimiterSteps LimiterStepsProps.

Section schedules.
Context `{RL : RateLimit} {RO : RangeOrder string}.
Implicit Types (l : Limiter) (s : Shared) (r : Request) (x : Locals) (p : Pc) (y : System).

(** ** What a schedule adds *)

(** A [Range] of a map nobody else changes sees the keys it started with. *)
Definition covered p s : Prop :=
  match p with
  | Counting _ m seen todo _ => ∀ k, is_Some (ipMapOf m s !! k) → k ∈ seen ++ todo
  | Dropping x _ seen todo => ∀ k, is_Some (ipMapOf (ipMap x) s !! k) → k ∈ seen ++ todo
  | _ => True
  end.

Lemma nextKey_covered c seen todo (m : gmap string Z) : (∀ k, is_Some (m !! k) → k ∈ seen ++ todo) →
  nextKey c seen todo m = nextKey None seen todo m.
Proof.
  intros Hc. destruct c as [k|]; [|done]. cbn. repeat case_bool_decide; cbn; try done.
  exfalso. specialize (Hc k ltac:(done)). rewrite elem_of_app in Hc. tauto.
Qed.

Lemma callStep_covered i c r p s : covered p s → callStep i c r p s = callStep i None r p s.
Proof. intros Hc. destruct p; cbn [callStep]; try done; by rewrite (nextKey_covered c) by done. Qed.

Lemma range_covers (m : gmap string Z) k : is_Some (m !! k) → k ∈ (range_list m).*1.
Proof. intros [v Hv]. apply list_elem_of_fmap. exists (k, v). split; [done|]. by apply elem_of_range_list. Qed.

Lemma covered_simple p s : match p with Counting _ _ _ _ _ | Dropping _ _ _ _ => False | _ => True end → covered p s.
Proof. by destruct p. Qed.

Lemma nextKey_step seen todo (m : gmap string Z) k todo' :
  nextKey None seen todo m = Some (k, todo') → todo = k :: todo'.
Proof. destruct todo; cbn; congruence. Qed.

Lemma covered_step i r p s : covered p s → covered (callStep i None r p s).1 (callStep i None r p s).2.
Proof.
  intros Hc. destruct p; cbn [callStep]; repeat case_match; cbn [fst snd]; try done;
    try (apply covered_simple; unfold afterCount, decide_, afterDevice; by repeat case_goal).
  all: try match goal with H : nextKey _ _ _ _ = Some _ |- _ => apply nextKey_step in H; subst end.
  all: intros k Hk; try (by apply range_covers); specialize (Hc k Hk); set_solver.
Qed.

(** ** One goroutine among others *)

(** Goroutine [i] is where it would be if it had run alone, with what it would
    have left for its user. *)
Definition asAlone l i r p s : Prop :=
  ∃ s1, rtc (callNext i r) (LoadUser, load l) (p, s1) ∧ agree i (taguuid r) s s1
        ∧ owns i (taguuid r) p s ∧ covered p s1.

Lemma asAlone_step l i c r p s : asAlone l i r p s → asAlone l i r (callStep i c r p s).1 (callStep i c r p s).2.
Proof.
  intros (s1 & Hr & Ha & Ho & Hc). destruct (step_agree i c r p s s1 Ha Ho) as [Hp Ha'].
  pose proof (callStep_covered i c r p s1 Hc) as E. rewrite E in Hp, Ha'.
  exists (callStep i None r p s1).2. split_and!; [|done| |].
  - eapply rtc_r; [exact Hr|]. unfold callNext. cbn [fst snd]. rewrite Hp. by destruct (callStep i None r p s1).
  - eapply owns_step; [|done]. by apply surjective_pairing.
  - rewrite Hp. by apply covered_step.
Qed.

Lemma asAlone_other l i j c r q p p' s : i ≠ j → taguuid r ≠ taguuid q →
  owns j (taguuid q) p' s → asAlone l i r p s → asAlone l i r p (callStep j c q p' s).2.
Proof.
  intros Hij Ht Hq (s1 & Hr & Ha & [Hp Ho] & Hc).
  pose proof (step_frame i j c q p' s (taguuid r) Hq Ht Hij) as Hf. exists s1. split_and!; [done|by eapply agree_trans| |done].
  split; [done|]. intros m. rewrite (agree_lookup _ _ _ _ Hf). apply Ho.
Qed.

(** A call alone has one end. *)
Lemma done_stays i r b j s c : rtc (callNext i r) (Done b j, s) c → c = (Done b j, s).
Proof. intros H. remember (Done b j, s) as c0 eqn:E. induction H as [|c1 c2 c3 H12 _ IH]; [done|]. subst.
  unfold callNext in H12. cbn in H12. subst. by apply IH.
Qed.

Lemma alone_unique i r c b j s b' j' s' : rtc (callNext i r) c (Done b j, s) → rtc (callNext i r) c (Done b' j', s') →
  (b, j, s) = (b', j', s').
Proof.
  intros H. remember (Done b j, s) as d eqn:E. induction H as [c|c1 c2 c3 H12 H23 IH]; intros H'; subst.
  - apply done_stays in H'. congruence.
  - inversion H' as [|? c4 ? H14 H45]; subst; (apply IH; [done|]); unfold callNext in *; cbn in *; subst; [apply rtc_refl|done].
Qed.

(** ** Users of a limiter *)

(** The limiter has the same for a user. *)
Definition sameUser (t : string) l l' : Prop :=
  UserOnlineIP l !! t = UserOnlineIP l' !! t ∧ UserLimits l !! t = UserLimits l' !! t ∧ SpeedLimiter l !! t = SpeedLimiter l' !! t.

(** What no call changes. *)
Definition others l : Limiter := withUserOnlineIP ∅ (withUserLimits ∅ (withSpeedLimiter ∅ l)).

Lemma sameUser_ext l l' : (∀ t, sameUser t l l') → others l = others l' → l = l'.
Proof.
  intros Hs Ho. assert (UserOnlineIP l = UserOnlineIP l' ∧ UserLimits l = UserLimits l' ∧ SpeedLimiter l = SpeedLimiter l') as (H1 & H2 & H3).
  { split_and!; apply map_eq; intros t; apply (Hs t). }
  destruct l, l'. unfold others in Ho. cbn in *. injection Ho as. by subst.
Qed.

Lemma agree_view i t s s' : agree i t s s' → (∀ m, online s !! t = Some m → ownMap i t m) →
  sameUser t (view s) (view s') ∧ others (view s) = others (view s').
Proof.
  intros Ha Ho. split.
  - split; [|by destruct Ha]. rewrite !view_lookup, <- (agree_lookup _ _ _ _ Ha).
    destruct (online s !! t) as [m|]; [|done]. cbn. f_equal. eapply agree_ipMapOf; [done|by apply Ho].
  - by destruct Ha.
Qed.

Lemma load_own i l t m : online (load l) !! t = Some m → ownMap i t m.
Proof. unfold load. cbn. rewrite map_lookup_imap. destruct (UserOnlineIP l !! t); cbn; [|done]. intros [= <-]. by left. Qed.

Lemma load_agree i t l l' : sameUser t l l' → others l = others l' → agree i t (load l) (load l').
Proof.
  intros (H1 & H2 & H3) Ho. unfold load.
  set (l0 := others l). 
  replace (withUserOnlineIP ∅ l) with (withUserLimits (UserLimits l) (withSpeedLimiter (SpeedLimiter l) l0)) by (by destruct l).
  replace (withUserOnlineIP ∅ l') with (withUserLimits (UserLimits l') (withSpeedLimiter (SpeedLimiter l') l0)) by (unfold l0; rewrite Ho; by destruct l').
  constructor; try done.
  - by rewrite !map_lookup_imap, H1.
  - by rewrite !lookup_kmap, H1 by (by apply _).
  - trans (@None (gmap string Z)); [|symmetry]; apply lookup_kmap_None; [apply _|by intros|apply _|by intros].
Qed.

(** ** One call after the other *)

Definition check r l : Limiter * (option Bucket * bool) := CheckLimit (now r) (taguuid r) (address r) (noUDPsource r) l.

Lemma alone_agree i r c c' s0 : rtc (callNext i r) c c' → agree i (taguuid r) c.2 s0 → owns i (taguuid r) c.1 c.2 →
  ∃ s1, rtc (callNext i r) (c.1, s0) (c'.1, s1) ∧ agree i (taguuid r) c'.2 s1 ∧ owns i (taguuid r) c'.1 c'.2.
Proof.
  intros H. revert s0. induction H as [[p s]|[p s] [p2 s2] c3 H12 _ IH]; intros s0 Ha Ho; cbn [fst snd] in *; [by exists s0|].
  unfold callNext in H12. cbn in H12. destruct (step_agree i None r p s s0 Ha Ho) as [Hp Ha']. rewrite H12 in Hp, Ha'. cbn in Hp, Ha'.
  destruct (IH (callStep i None r p s0).2) as (s1 & Hr & ?); [done|by eapply owns_step|].
  exists s1. split; [|done]. eapply rtc_l; [|exact Hr]. unfold callNext. cbn. rewrite Hp. by destruct (callStep i None r p s0).
Qed.

(** A call depends on its own user only. *)
Lemma check_local r l l' : sameUser (taguuid r) l l' → others l = others l' →
  (check r l).2 = (check r l').2 ∧ sameUser (taguuid r) (check r l).1 (check r l').1 ∧ others (check r l).1 = others (check r l').1.
Proof.
  intros Hs Ho. pose proof (load_agree 0 _ l l' Hs Ho) as Ha.
  destruct (call_alone 0 r (load l) (load_separate l) (load_unmade l 0)) as (b & j & s & Hr & Hc).
  destruct (call_alone 0 r (load l') (load_separate l') (load_unmade l' 0)) as (b' & j' & s' & Hr' & Hc').
  destruct (alone_agree 0 r _ _ (load l') Hr Ha (owns_start 0 r l)) as (s1 & Hr1 & Ha1 & Ho1). cbn [fst snd] in *.
  pose proof (alone_unique _ _ _ _ _ _ _ _ _ Hr1 Hr') as [= -> -> ->].
  unfold check. rewrite view_load in Hc, Hc'. rewrite Hc, Hc'. split; [done|]. cbn. eapply agree_view; [done|]. by destruct Ho1.
Qed.

(** And leaves the others alone. *)
Lemma alone_frame i j t r c c' : rtc (callNext j r) c c' → owns j (taguuid r) c.1 c.2 → t ≠ taguuid r → i ≠ j → agree i t c'.2 c.2.
Proof.
  intros H Ho Ht Hi. induction H as [c|[p s] [p2 s2] c3 H12 _ IH]; [apply agree_refl|].
  unfold callNext in H12. cbn [fst snd] in *. eapply agree_trans; [apply IH; by eapply owns_step|].
  pose proof (step_frame i j None r p s t Ho Ht Hi) as Hf. by rewrite H12 in Hf.
Qed.

Lemma check_frame r l t : t ≠ taguuid r → sameUser t (check r l).1 l ∧ others (check r l).1 = others l.
Proof.
  intros Ht. destruct (call_alone 0 r (load l) (load_separate l) (load_unmade l 0)) as (b & j & s & Hr & Hc).
  rewrite view_load in Hc. unfold check. rewrite Hc. cbn [fst].
  pose proof (alone_frame 1 0 t r _ _ Hr (owns_start 0 r l) Ht ltac:(done)) as Ha. cbn [snd] in Ha.
  destruct (agree_view 1 t (load l) s (agree_sym _ _ _ _ Ha) (load_own 1 l t)) as [(H1 & H2 & H3) H4].
  rewrite view_load in *. split; [|done]. by split_and!.
Qed.

(** ** Calls of different users *)

Record among l (rs : list Request) y : Prop := {
  among_length : length (threads y) = length rs;
  among_call i r : rs !! i = Some r → ∃ p, threads y !! i = Some (Call r p) ∧ asAlone l i r p (shared y);
  among_other t : t ∉ taguuid <$> rs → agree (length rs) t (shared y) (load l)
}.

Lemma among_start l rs : among l rs (start l (newCall <$> rs)).
Proof.
  split; cbn; [by rewrite length_fmap| |intros; apply agree_refl]. intros i r Hr. exists LoadUser.
  rewrite list_lookup_fmap, Hr. split; [done|]. exists (load l). split_and!; [apply rtc_refl|apply agree_refl|apply owns_start|done].
Qed.

Lemma among_step l rs e y : NoDup (taguuid <$> rs) → among l rs y → among l rs (step e y).
Proof.
  intros Hnd [Hlen Hcall Hother]. destruct e as [j c]. unfold step. cbn [fst snd].
  destruct (threads y !! j) as [th|] eqn:Ej; [|by split].
  assert (Hj : is_Some (rs !! j)) by (apply lookup_lt_is_Some_2; rewrite <- Hlen; by eapply lookup_lt_Some).
  destruct Hj as [q Hq]. destruct (Hcall j q Hq) as (p & Hp & Ha). rewrite Ej in Hp. injection Hp as ->.
  cbn [threadStep]. destruct (callStep j c q p (shared y)) as [p' s'] eqn:E. 
  pose proof (asAlone_step l j c q p _ Ha) as Ha'. rewrite E in Ha'. cbn in Ha'.
  assert (Ho : owns j (taguuid q) p (shared y)) by (by destruct Ha as (? & _ & _ & ? & _)).
  split; cbn [threads shared].
  - by rewrite length_insert.
  - intros i r Hr. destruct (decide (i = j)) as [->|Hij].
    + rewrite Hr in Hq. injection Hq as ->. exists p'. split; [|done]. apply list_lookup_insert_eq. by eapply lookup_lt_Some.
    + destruct (Hcall i r Hr) as (pi & Hpi & Hai). exists pi. rewrite list_lookup_insert_ne by done. split; [done|].
      replace s' with (callStep j c q p (shared y)).2 by (by rewrite E). apply asAlone_other; try done.
      intros Ht. apply Hij. eapply (NoDup_lookup _ i j (taguuid r) Hnd); rewrite list_lookup_fmap, ?Hr, ?Hq; cbn; congruence.
  - intros t Ht. eapply agree_trans; [|by apply Hother]. replace s' with (callStep j c q p (shared y)).2 by (by rewrite E).
    apply step_frame; [done| |].
    + intros ->. apply Ht. apply list_elem_of_fmap. exists q. split; [done|]. by eapply list_elem_of_lookup_2.
    + apply lookup_lt_Some in Hq. lia.
Qed.

Lemma among_run l rs schedule : NoDup (taguuid <$> rs) → among l rs (run schedule (start l (newCall <$> rs))).
Proof.
  intros Hnd. pose proof (among_start l rs) as Ha. unfold run. revert Ha. generalize (start l (newCall <$> rs)).
  induction schedule as [|e schedule IH]; intros y Ha; [done|]. cbn. apply IH. by apply among_step.
Qed.

(** A call that has answered has answered as alone, and left what it leaves alone. *)
Lemma asAlone_answer l i r b j s : asAlone l i r (Done b j) s →
  (b, j) = (check r l).2 ∧ sameUser (taguuid r) (view s) (check r l).1 ∧ others (view s) = others l.
Proof.
  intros (s1 & Hr & Ha & Ho & _).
  destruct (call_alone i r (load l) (load_separate l) (load_unmade l i)) as (b' & j' & s' & Hr' & Hc).
  pose proof (alone_unique _ _ _ _ _ _ _ _ _ Hr Hr') as [= -> -> ->].
  rewrite view_load in Hc. unfold check. rewrite Hc. split; [done|]. cbn.
  destruct (agree_view _ _ _ _ Ha (proj2 Ho)) as [Hs Hot]. split; [done|]. rewrite Hot.
  pose proof (check_frame r l (String "x" (taguuid r))) as Hf.
  replace (view s') with (check r l).1 by (unfold check; by rewrite Hc). apply Hf.
  intros E. apply (f_equal String.length) in E. cbn in E. lia.
Qed.

Lemma checks_frame rs l t : t ∉ taguuid <$> rs → sameUser t (foldl (λ l r, (check r l).1) l rs) l.
Proof.
  revert l. induction rs as [|r rs IH]; intros l Ht; [by split_and!|]. cbn in *. apply not_elem_of_cons in Ht as [Ht Ht'].
  destruct (IH (check r l).1 Ht') as (H1 & H2 & H3). destruct (proj1 (check_frame r l t Ht)) as (H4 & H5 & H6).
  split_and!; congruence.
Qed.

Lemma check_others r l : others (check r l).1 = others l.
Proof. apply (check_frame r l (String "x" (taguuid r))). intros E. apply (f_equal String.length) in E. cbn in E. lia. Qed.

Lemma checks_others rs l : others (foldl (λ l r, (check r l).1) l rs) = others l.
Proof. revert l. induction rs as [|r rs IH]; intros l; [done|]. cbn. by rewrite IH, check_others. Qed.

Lemma checks_user rs l i r : NoDup (taguuid <$> rs) → rs !! i = Some r →
  sameUser (taguuid r) (foldl (λ l r, (check r l).1) l rs) (check r l).1.
Proof.
  intros Hnd Hr. rewrite <- (take_drop_middle rs i r Hr) in *. rewrite fmap_app, fmap_cons in Hnd.
  apply NoDup_app in Hnd as (_ & H1 & [H2 _]%NoDup_cons). rewrite foldl_app. cbn.
  set (l1 := foldl _ l (take i rs)).
  assert (Hl : sameUser (taguuid r) l1 l). { apply checks_frame. intros Ht. by apply (H1 _ Ht); left. }
  destruct (check_local r l1 l Hl (checks_others _ _)) as (_ & (H4 & H5 & H6) & _).
  destruct (checks_frame (drop (S i) rs) (check r l1).1 (taguuid r) H2) as (H7 & H8 & H9). split_and!; congruence.
Qed.

(** C2. Calls of different users on any schedule: what has been answered is what
    each call answers alone, and when all have answered the limiter is as after
    one call after the other. *)
Theorem users_isolated l rs schedule : NoDup (taguuid <$> rs) →
  let y := run schedule (start l (newCall <$> rs)) in
  (∀ i th a, threads y !! i = Some th → answer th = Some a → ∃ r, rs !! i = Some r ∧ a = (check r l).2)
  ∧ (Forall (λ th, is_Some (answer th)) (threads y) → view (shared y) = foldl (λ l r, (check r l).1) l rs).
Proof.
  intros Hnd y. pose proof (among_run l rs schedule Hnd) as [Hlen Hcall Hother]. fold y in Hlen, Hcall, Hother.
  assert (Hans : ∀ i th a, threads y !! i = Some th → answer th = Some a → ∃ r, rs !! i = Some r ∧ asAlone l i r (Done a.1 a.2) (shared y)).
  { intros i th a Hth Ha. assert (is_Some (rs !! i)) as [r Hr] by (apply lookup_lt_is_Some_2; rewrite <- Hlen; by eapply lookup_lt_Some).
    exists r. split; [done|]. destruct (Hcall i r Hr) as (p & Hp & Hs). rewrite Hth in Hp. injection Hp as ->. cbn in Ha.
    destruct p; try done. by injection Ha as <-. }
  split.
  - intros i th [b j] Hth Ha. destruct (Hans i th (b, j) Hth Ha) as (r & Hr & Hs). exists r. split; [done|]. by eapply asAlone_answer.
  - intros Hall. rewrite Forall_lookup in Hall.
    assert (Hown : ∀ i r, rs !! i = Some r → sameUser (taguuid r) (view (shared y)) (check r l).1 ∧ others (view (shared y)) = others l).
    { intros i r Hr. destruct (Hcall i r Hr) as (p & Hp & _). destruct (Hall _ _ Hp) as [a Ha].
      destruct (Hans i _ a Hp Ha) as (r' & Hr' & Hs). rewrite Hr in Hr'. injection Hr' as <-. by eapply asAlone_answer. }
    apply sameUser_ext.
    + intros t. destruct (decide (t ∈ taguuid <$> rs)) as [Ht|Ht].
      * apply list_elem_of_fmap in Ht as (r & -> & [i Hr]%list_elem_of_lookup).
        destruct (proj1 (Hown i r Hr)) as (H1 & H2 & H3). destruct (checks_user rs l i r Hnd Hr) as (H4 & H5 & H6). split_and!; congruence.
      * destruct (agree_view _ _ _ _ (agree_sym _ _ _ _ (Hother t Ht)) (load_own (length rs) l t)) as [(H1 & H2 & H3) _].
        rewrite view_load in *. destruct (checks_frame rs l t Ht) as (H4 & H5 & H6). split_and!; congruence.
    + rewrite checks_others. destruct rs as [|r rs]; [|by apply (Hown 0%nat r)].
      destruct (agree_view _ "" _ _ (agree_sym _ _ _ _ (Hother "" ltac:(by apply not_elem_of_nil))) (load_own 0 l "")) as [_ H1].
      rewrite <- H1. by rewrite view_load.
Qed.

(** ** Runs of one goroutine within a schedule *)

Lemma run_app a b y : run (a ++ b) y = run b (run a y).
Proof. apply foldl_app. Qed.

Lemma run_alone {P} (next : P * Shared → P * Shared → Prop) (K : P → Thread) i c c' ths :
  (∀ c c', next c c' → threadStep i None (K c.1) c.2 = (K c'.1, c'.2)) → rtc next c c' → ths !! i = Some (K c.1) →
  ∃ more, run more (mkSystem c.2 ths) = mkSystem c'.2 (<[i := K c'.1]> ths).
Proof.
  intros HK H. revert ths. induction H as [c|c1 c2 c3 H12 _ IH]; intros ths Hi.
  - exists []. cbn. by rewrite list_insert_id.
  - destruct (IH (<[i := K c2.1]> ths)) as [more Hm]; [apply list_lookup_insert_eq; by eapply lookup_lt_Some|].
    exists ((i, None) :: more). change (run more (step (i, None) (mkSystem c1.2 ths)) = mkSystem c3.2 (<[i:=K c3.1]> ths)).
    unfold step. cbn [fst snd threads shared]. rewrite Hi, (HK _ _ H12), Hm. f_equal. by rewrite list_insert_insert_eq.
Qed.

Lemma run_call i r p s p' s' ths : rtc (callNext i r) (p, s) (p', s') → ths !! i = Some (Call r p) →
  ∃ more, run more (mkSystem s ths) = mkSystem s' (<[i := Call r p']> ths).
Proof. intros H. apply (run_alone (callNext i r) (Call r) i (p, s) (p', s')); [|done]. by intros c c' <-; cbn; destruct (callStep _ _ _ _ _). Qed.

End schedules.
End LimiterRaceProps.
