(* ===== verification/LimiterOnlineProps.v ===== *)
(** * What is online under concurrent connections and reports

    On every schedule of calls and reports an address is listed for a user only if
    it was let in for this user ([online_admitted]). Nothing more holds: calls of
    one user that meet are all let in, whatever the device limit
    ([race_admits_all]); and an address that was let in can get lost, for the
    report and for the limit ([rejected_forgets], [reported_forgets]). *)

From Stdlib Require Import Ascii.
From S2P Require Import Prelude GoStrings Panel Limiter LimiterProps LimiterSteps LimiterStepsProps LimiterRaceProps.

Module LimiterOnlineProps.
Import GoStrings Limiter LimiterProps LimiterSteps LimiterStepsProps LimiterRaceProps.

Section schedules.
Context `{RL : RateLimit} {RO : RangeOrder string}.
Implicit Types (l : Limiter) (s : Shared) (r : Request) (x : Locals) (p : Pc) (y : System).

(** ** The effect of a step *)

(** A call that the device limit has let in. *)
Definition letIn p : Prop := match p with LoadBucket _ | StoreBucket _ | Done _ false => True | _ => False end.

Definition localsOf p : option Locals :=
  match p with
  | CountKnown x | LoadMap x | CreateMap x | LoadIP x | AskKnown x | LoadPending x | StartDrop x _ | Dropping x _ _ _
  | DropIP x _ _ | StoreIP x | StartCount x _ | Counting x _ _ _ _ => Some x
  | _ => None
  end.

Lemma letIn_afterDevice x l : letIn (afterDevice x l).
Proof. unfold afterDevice. by case_goal. Qed.

Lemma localsOf_afterDevice x l : localsOf (afterDevice x l) = None.
Proof. unfold afterDevice. by case_goal. Qed.

Lemma localsOf_decide r x n l x' : localsOf (decide_ r x n l) = Some x' → x' = x.
Proof. unfold decide_. repeat case_goal; cbn; congruence. Qed.

Lemma localsOf_afterCount r x n l x' : localsOf (afterCount r x n l) = Some x' → x' = x.
Proof. unfold afterCount. case_goal; [cbn; congruence|apply localsOf_decide]. Qed.

Lemma letIn_step i c r p s : letIn p → letIn (callStep i c r p s).1.
Proof. destruct p; cbn; try done; by case_match. Qed.

Lemma entries_step i c r p s m k u : ipMapOf m (callStep i c r p s).2 !! k = Some u →
  ipMapOf m s !! k = Some u
  ∨ ∃ x, localsOf p = Some x ∧ m ∈ mapsOf p ∧ k = ip r ∧ u = uid x ∧ letIn (callStep i c r p s).1.
Proof.
  destruct p; cbn [callStep]; repeat case_match; cbn [snd fst]; try (by left).
  - unfold ipMapOf at 1. cbn. rewrite lookup_insert. case_decide; [done|]. by left.
  - rewrite ipMapOf_withIPMap. case_decide; [subst|by left]. intros [_ ?]%lookup_delete_Some. by left.
  - rewrite ipMapOf_withIPMap. case_decide; [subst|by left]. intros [_ ?]%lookup_delete_Some. by left.
  - rewrite ipMapOf_withIPMap. case_decide; [subst|by left]. intros [[<- <-]|[_ ?]]%lookup_insert_Some; [right|by left].
    exists x. split_and!; try done; [by left|apply letIn_afterDevice].
Qed.

Lemma online_step i c r p s t m : online (callStep i c r p s).2 !! t = Some m →
  online s !! t = Some m ∨ t = taguuid r ∧ m = Created i.
Proof.
  destruct p; cbn [callStep]; repeat case_match; cbn; try (by left).
  - intros [[<- <-]|[_ ?]]%lookup_insert_Some; [by right|by left].
  - intros [_ ?]%lookup_delete_Some. by left.
Qed.

Lemma users_step i c r p s t info : UserLimits (lim (callStep i c r p s).2) !! t = Some info →
  ∃ info0, UserLimits (lim s) !! t = Some info0 ∧ UID info0 = UID info.
Proof.
  destruct p; cbn [callStep]; try (repeat case_match; cbn; by eauto).
  destruct (UserLimits (lim s) !! taguuid r) as [u|] eqn:Eu; [|by eauto]. unfold userSpeedLimit. repeat case_match; simplify_eq; cbn; eauto.
  all: first [intros [[<- <-]|[_ ?]]%lookup_insert_Some|intros [_ ?]%lookup_delete_Some]; eauto.
Qed.

Lemma locals_step i c r p s x' : localsOf (callStep i c r p s).1 = Some x' →
  (∃ x, localsOf p = Some x ∧ uid x = uid x') ∨ ∃ info, UserLimits (lim s) !! taguuid r = Some info ∧ UID info = uid x'.
Proof.
  destruct p; cbn [callStep]; repeat case_match; cbn [fst]; rewrite ?localsOf_afterDevice; try done.
  all: try (intros H'; first [apply localsOf_afterCount in H'|apply localsOf_decide in H']; subst; left; by eauto).
  all: cbn; intros [= <-]; first [left; by eauto|right; by eauto].
Qed.

Lemma maps_step i c r p s m : m ∈ mapsOf (callStep i c r p s).1 →
  m ∈ mapsOf p ∨ online s !! taguuid r = Some m ∨ m = Created i ∨ m = Initial (taguuid r).
Proof.
  destruct p; cbn [callStep]; repeat case_match; cbn [fst]; rewrite ?mapsOf_afterDevice; intros Hm.
  all: try (first [apply mapsOf_afterCount in Hm|apply mapsOf_decide in Hm]).
  all: cbn in *; set_solver.
Qed.

(** A report only takes away. *)
Lemma commitStep_shrinks n (p : CommitPc) s :
  (∀ m k u, ipMapOf m (commitStep n p s).2 !! k = Some u → ipMapOf m s !! k = Some u)
  ∧ (∀ t m, online (commitStep n p s).2 !! t = Some m → online s !! t = Some m)
  ∧ UserLimits (lim (commitStep n p s).2) = UserLimits (lim s).
Proof.
  destruct p; cbn [commitStep]; repeat case_match; cbn [snd]; split_and!; try done.
  - intros m' k u. rewrite ipMapOf_withIPMap. case_decide; [subst|done]. by intros [_ ?]%lookup_delete_Some.
  - intros t m. cbn. by intros [_ ?]%lookup_delete_Some.
Qed.

(** ** What is listed was let in *)

(** The user a user key belongs to when the schedule starts. *)
Definition userIs l (t : string) (u : Z) : Prop := ∃ info, UserLimits l !! t = Some info ∧ UID info = u.

Definition requestOf (th : Thread) : option Request := match th with Call r _ => Some r | Commit _ _ => None end.

(** The goroutines whose address map can be the one of a user. *)
Definition owner (ths : list Thread) (t : string) (m : MapId) : Prop :=
  m = Initial t ∨ ∃ i th r, m = Created i ∧ ths !! i = Some th ∧ requestOf th = Some r ∧ taguuid r = t.

(** An address was listed at the beginning, or a call was let in with it. *)
Definition justified l (ths : list Thread) (t k : string) (u : Z) : Prop :=
  onlineAt (UserOnlineIP l) t k = Some u
  ∨ ∃ i r p, ths !! i = Some (Call r p) ∧ letIn p ∧ taguuid r = t ∧ ip r = k ∧ userIs l t u.

Record listed l y : Prop := {
  listed_users t info : UserLimits (lim (shared y)) !! t = Some info → userIs l t (UID info);
  listed_locals i r p x : threads y !! i = Some (Call r p) → localsOf p = Some x → userIs l (taguuid r) (uid x);
  listed_maps i r p m : threads y !! i = Some (Call r p) → m ∈ mapsOf p → owner (threads y) (taguuid r) m;
  listed_online t m : online (shared y) !! t = Some m → owner (threads y) t m;
  listed_entries t m k u : owner (threads y) t m → ipMapOf m (shared y) !! k = Some u → justified l (threads y) t k u
}.

Lemma owner_unique ths t t' m : owner ths t m → owner ths t' m → t = t'.
Proof. intros [->|(i & th & r & -> & Hi & Hr & <-)] [?|(i' & th' & r' & ? & Hi' & Hr' & <-)]; congruence. Qed.

(** A goroutine that goes on is asked for the same. *)
Definition same (ths ths' : list Thread) : Prop := ∀ i, requestOf <$> ths !! i = requestOf <$> ths' !! i.

Lemma owner_same ths ths' t m : same ths ths' → owner ths t m → owner ths' t m.
Proof.
  intros Hs [->|(i & th & r & -> & Hi & Hr & <-)]; [by left|right]. specialize (Hs i). rewrite Hi in Hs.
  destruct (ths' !! i) as [th'|] eqn:E; [|done]. cbn in Hs. injection Hs as Hs. exists i, th', r. split_and!; congruence.
Qed.

Lemma same_insert ths j th th' : ths !! j = Some th → requestOf th = requestOf th' → same ths (<[j := th']> ths).
Proof.
  intros Hj Hr i. destruct (decide (i = j)) as [->|Hne]; [|by rewrite list_lookup_insert_ne].
  rewrite list_lookup_insert_eq by (by eapply lookup_lt_Some). rewrite Hj. cbn. by f_equal.
Qed.

Lemma same_sym ths ths' : same ths ths' → same ths' ths.
Proof. intros H i. by rewrite H. Qed.

Lemma justified_insert l ths j th th' t k u : ths !! j = Some th → requestOf th = requestOf th' →
  (∀ r p, th = Call r p → letIn p → ∃ p', th' = Call r p' ∧ letIn p') →
  justified l ths t k u → justified l (<[j := th']> ths) t k u.
Proof.
  intros Hj Hr Hl [?|(i & r & p & Hi & Hp & ?)]; [by left|right]. destruct (decide (i = j)) as [->|Hne].
  - rewrite Hj in Hi. injection Hi as ->. destruct (Hl r p eq_refl Hp) as (p' & -> & ?). exists j, r, p'.
    split; [|done]. apply list_lookup_insert_eq. by eapply lookup_lt_Some.
  - exists i, r, p. by rewrite list_lookup_insert_ne.
Qed.

Lemma listed_start l ths : Forall (λ th, match th with Call _ p => p = LoadUser | Commit _ _ => True end) ths → listed l (start l ths).
Proof.
  intros Hths. rewrite Forall_lookup in Hths. split; cbn.
  - intros t info Ht. by exists info.
  - intros i r p x Hi Hx. specialize (Hths i _ Hi). cbn in Hths. by subst.
  - intros i r p m Hi Hm. specialize (Hths i _ Hi). cbn in Hths. subst. cbn in Hm. set_solver.
  - intros t m. rewrite map_lookup_imap. destruct (UserOnlineIP l !! t); cbn; [|done]. intros [= <-]. by left.
  - intros t m k u Ho Hk. unfold ipMapOf, load in Hk. cbn in Hk. destruct Ho as [->|(i & th & r & -> & _)].
    + rewrite lookup_kmap in Hk by (by apply _). left. unfold onlineAt. by destruct (UserOnlineIP l !! t).
    + exfalso. destruct (kmap Initial (UserOnlineIP l) !! Created i) as [m|] eqn:E; [|cbn in Hk; by apply lookup_empty_Some in Hk].
      apply lookup_kmap_Some in E as (t' & ? & _); [done|by apply _].
Qed.

Lemma listed_call l y i c r p : listed l y → threads y !! i = Some (Call r p) →
  listed l (mkSystem (callStep i c r p (shared y)).2 (<[i := Call r (callStep i c r p (shared y)).1]> (threads y))).
Proof.
  intros [Hu Hx Hm Ho He] Hi. set (p' := (callStep i c r p (shared y)).1). set (ths' := <[i := Call r p']> (threads y)).
  assert (Hsame : same (threads y) ths') by (by eapply same_insert).
  assert (Hmade : owner (threads y) (taguuid r) (Created i)) by (right; by exists i, (Call r p), r).
  assert (Hjust : ∀ t k u, justified l (threads y) t k u → justified l ths' t k u).
  { intros t k u. apply (justified_insert _ _ _ (Call r p)); [done|done|]. intros r0 p0 [= <- <-] Hl. exists p'. split; [done|]. by apply letIn_step. }
  split; cbn [shared threads].
  - intros t info Ht. apply users_step in Ht as (info0 & Ht & <-). by apply Hu.
  - intros i' r' q x Hi' Hq. destruct (decide (i' = i)) as [->|Hne].
    + unfold ths' in Hi'. rewrite list_lookup_insert_eq in Hi' by (by eapply lookup_lt_Some). injection Hi' as <- <-.
      apply locals_step in Hq as [(x0 & Hx0 & <-)|(info & Hinfo & <-)]; [by eapply Hx|by eapply Hu].
    + unfold ths' in Hi'. rewrite list_lookup_insert_ne in Hi' by done. by eapply Hx.
  - intros i' r' q m Hi' Hq. apply (owner_same (threads y)); [done|]. destruct (decide (i' = i)) as [->|Hne].
    + unfold ths' in Hi'. rewrite list_lookup_insert_eq in Hi' by (by eapply lookup_lt_Some). injection Hi' as <- <-.
      apply maps_step in Hq as [Hq|[Hq|[->| ->]]]; [by eapply Hm|by apply Ho|done|by left].
    + unfold ths' in Hi'. rewrite list_lookup_insert_ne in Hi' by done. by eapply Hm.
  - intros t m Ht. apply (owner_same (threads y)); [done|]. apply online_step in Ht as [Ht|[-> ->]]; [by apply Ho|done].
  - intros t m k u Hown Hk. apply (owner_same _ _ _ _ (same_sym _ _ Hsame)) in Hown.
    apply entries_step in Hk as [Hk|(x & Hp & Hmx & -> & -> & Hl)]; [by apply Hjust, (He t m)|].
    rewrite (owner_unique _ _ _ _ Hown (Hm i r p m Hi Hmx)). right. exists i, r, p'. split_and!; [|done..|by eapply Hx].
    apply list_lookup_insert_eq. by eapply lookup_lt_Some.
Qed.

Lemma listed_commit l y i n (p : CommitPc) : listed l y → threads y !! i = Some (Commit n p) →
  listed l (mkSystem (commitStep n p (shared y)).2 (<[i := Commit n (commitStep n p (shared y)).1]> (threads y))).
Proof.
  intros [Hu Hx Hm Ho He] Hi. destruct (commitStep_shrinks n p (shared y)) as (H1 & H2 & H3).
  set (ths' := <[i := Commit n (commitStep n p (shared y)).1]> (threads y)).
  assert (Hsame : same (threads y) ths') by (by eapply same_insert).
  assert (Hold : ∀ j r q, ths' !! j = Some (Call r q) → threads y !! j = Some (Call r q)).
  { intros j r q. unfold ths'. destruct (decide (j = i)) as [->|Hne]; [|by rewrite list_lookup_insert_ne].
    by rewrite list_lookup_insert_eq by (by eapply lookup_lt_Some). }
  split; cbn [shared threads].
  - intros t info. rewrite H3. apply Hu.
  - intros j r q x Hj. by eapply Hx, Hold.
  - intros j r q m Hj Hq. apply (owner_same (threads y)); [done|]. by eapply Hm; [apply Hold|].
  - intros t m Ht. apply (owner_same (threads y)); [done|]. by apply Ho, H2.
  - intros t m k u Hown Hk. apply (owner_same _ _ _ _ (same_sym _ _ Hsame)) in Hown.
    apply (justified_insert _ _ _ (Commit n p)); [done..|]. by apply (He t m), H1.
Qed.

Lemma listed_step l e y : listed l y → listed l (step e y).
Proof.
  intros Hl. destruct e as [i c]. unfold step. cbn [fst snd]. destruct (threads y !! i) as [[r p|n p]|] eqn:Hi; [| |done]; cbn [threadStep].
  - pose proof (listed_call l y i c r p Hl Hi) as H. by destruct (callStep i c r p (shared y)).
  - pose proof (listed_commit l y i n p Hl Hi) as H. by destruct (commitStep n p (shared y)).
Qed.

Lemma listed_run l schedule y : listed l y → listed l (run schedule y).
Proof. unfold run. revert y. induction schedule as [|e schedule IH]; intros y H; [done|]. by apply IH, listed_step. Qed.

(** C3. Whatever calls and reports run, and however they are interleaved: an
    address that is listed for a user was listed for it at the beginning, or is the
    address of a call of this user that the device limit has let in, with the id
    of the user; no two users share their addresses. *)
Theorem online_admitted l ths schedule :
  Forall (λ th, match th with Call _ p => p = LoadUser | Commit _ _ => True end) ths →
  let y := run schedule (start l ths) in
  separate (shared y)
  ∧ ∀ t k u, onlineAt (UserOnlineIP (view (shared y))) t k = Some u → justified l (threads y) t k u.
Proof.
  intros Hths y. pose proof (listed_run l schedule _ (listed_start l ths Hths)) as [Hu Hx Hm Ho He]. fold y in Hu, Hx, Hm, Ho, He. split.
  - intros t t' m Ht Ht'. eapply owner_unique; by apply Ho.
  - intros t k u. unfold onlineAt. rewrite view_lookup. destruct (online (shared y) !! t) as [m|] eqn:Et; [|done]. cbn. by apply He, Ho.
Qed.

(** ** Calls of one user that meet *)

(** No call has stored its address yet. *)
Definition before l (k : string) s : Prop :=
  lim s = withUserOnlineIP ∅ l
  ∧ default ∅ ((λ m, ipMapOf m s) <$> online s !! k) = default ∅ (UserOnlineIP l !! k).

(** A TCP connection that the device limit lets in. *)
Lemma tcp_admitted n k a u d l : (admitDevice n k a true u d l).2 = false → trackedIP k a l = None →
  negb (isKnownAliveIP n u a l) && (0 <? d) = true →
  (d <=? wrap64 (wrap64 (getAliveIP u l + recentReportedLocalIPCount n u l)
                 + rangeCount (isPendingNewIP n u l) (default ∅ (UserOnlineIP l !! k)))) = false.
Proof.
  unfold admitDevice, getOrCreateUserOnlineIPMap, trackedIP, onlineAt, evictPending. cbn [orb negb andb].
  destruct (UserOnlineIP l !! k) as [m|] eqn:Ek; intros Ha Ht Hk; cbn in Ht.
  - rewrite Ht, Hk in Ha. rewrite andb_false_r in Ha. cbn [andb] in Ha. unfold pendingNewIPCount in Ha. rewrite Ek in Ha.
    destruct (d <=? _) eqn:E in Ha; [done|exact E].
  - rewrite lookup_empty in Ha. change (isKnownAliveIP n u a (withUserOnlineIP _ l)) with (isKnownAliveIP n u a l) in Ha.
    rewrite Hk in Ha. rewrite andb_false_r in Ha. cbn [andb] in Ha. unfold pendingNewIPCount in Ha. cbn in Ha. rewrite lookup_insert_eq in Ha.
    destruct (d <=? _) eqn:E in Ha; [done|exact E].
Qed.

(** The call goes on until it would store its address. *)
Lemma arrives i r x l s : before l (taguuid r) s → noUDPsource r = true → trackedIP (taguuid r) (ip r) l = None →
  online s !! taguuid r = Some (ipMap x) →
  knownDeviceCount x = wrap64 (getAliveIP (uid x) l + recentReportedLocalIPCount (now r) (uid x) l) →
  (admitDevice (now r) (taguuid r) (ip r) true (uid x) (deviceLimit x) l).2 = false →
  rtc (callNext i r) (LoadIP x, s) (StoreIP x, s).
Proof.
  intros [Hl Hm] Ht Hn Ho Hc Ha. rewrite Ho in Hm. cbn in Hm.
  assert (Hip : default ∅ (UserOnlineIP l !! taguuid r) !! ip r = None).
  { unfold trackedIP, onlineAt in Hn. destruct (UserOnlineIP l !! taguuid r); [exact Hn|apply lookup_empty]. }
  eapply call_step; [cbn [callStep]; rewrite Hm, Hip; reflexivity|].
  eapply call_step; [reflexivity|]. rewrite Hl.
  change (isKnownAliveIP (now r) (uid x) (ip r) (withUserOnlineIP ∅ l)) with (isKnownAliveIP (now r) (uid x) (ip r) l).
  destruct (_ && _) eqn:Hk; [|apply rtc_refl]. pose proof (tcp_admitted _ _ _ _ _ _ Ha Hn Hk) as Hd.
  eapply call_step; [cbn; by rewrite Ho|]. eapply call_step; [reflexivity|]. apply counting_alone. rewrite countAt_range, Hm, Hl.
  change (isPendingNewIP (now r) (uid x) (withUserOnlineIP ∅ l)) with (isPendingNewIP (now r) (uid x) l).
  unfold afterCount, decide_, udpSourceTracked. rewrite Ht, Hc, Hd. cbn. apply rtc_refl.
Qed.

Lemma call_arrives i r l s u : UserLimits l !! taguuid r = Some u → ExpireTime u = 0 →
  noUDPsource r = true → trackedIP (taguuid r) (ip r) l = None → (check r l).2.2 = false → before l (taguuid r) s →
  ∃ x s', rtc (callNext i r) (LoadUser, s) (StoreIP x, s') ∧ before l (taguuid r) s' ∧ uid x = UID u
          ∧ online s' !! taguuid r = Some (ipMap x)
          ∧ ∀ m, online s !! taguuid r = Some m → online s' !! taguuid r = Some m.
Proof.
  intros Hu He Ht Hn Hc Hb0. pose proof Hb0 as [Hl Hm]. unfold check in Hc. rewrite (CheckLimit_unfold _ _ _ _ _ u Hu), userSpeedLimit_static in Hc by done.
  rewrite Ht in Hc. fold (ip r) in Hc. destruct (admitDevice _ _ _ _ _ _ _) as [l1 j] eqn:Ha in Hc.
  assert (j = false) as ->. { destruct j; [done|]. done. } clear Hc.
  set (x := mkLocals (UID u) (effectiveDeviceLimit u l) (determineSpeedLimit (SpeedLimit u) (DynamicSpeedLimit u))
              (wrap64 (getAliveIP (UID u) l + recentReportedLocalIPCount (now r) (UID u) l)) (Initial (taguuid r)) false).
  assert (Hfirst : ∀ c, rtc (callNext i r) (LoadMap x, s) c → rtc (callNext i r) (LoadUser, s) c).
  { intros c H. eapply call_step; [cbn; rewrite Hl; cbn [UserLimits withUserOnlineIP]; rewrite Hu, userSpeedLimit_static, Ht by done; reflexivity|].
    replace (withLim (withUserOnlineIP ∅ l) s) with s by (rewrite <- Hl; by destruct s).
    eapply call_step; [reflexivity|]. cbn [uid]. rewrite Hl. exact H. }
  assert (Hadm : (admitDevice (now r) (taguuid r) (ip r) true (UID u) (effectiveDeviceLimit u l) l).2 = false) by (by rewrite Ha).
  destruct (online s !! taguuid r) as [m|] eqn:Eo.
  - exists (withMap m false x), s. split_and!; [|done..|congruence]. apply Hfirst. eapply call_step; [cbn; by rewrite Eo|].
    by apply (arrives i r (withMap m false x) l s).
  - set (s1 := withOnline (<[taguuid r := Created i]> (online s)) (withIPMap (Created i) ∅ s)).
    assert (Hb : before l (taguuid r) s1).
    { split; [done|]. unfold s1, ipMapOf. cbn. rewrite lookup_insert_eq. cbn. rewrite lookup_insert_eq. done. }
    exists (withMap (Created i) true x), s1. split_and!; [|done|done| |done].
    + apply Hfirst. eapply call_step; [cbn; by rewrite Eo|]. eapply call_step; [cbn; by rewrite Eo|].
      apply (arrives i r (withMap (Created i) true x) l s1); try done. unfold s1. cbn. by rewrite lookup_insert_eq.
    + unfold s1. cbn. by rewrite lookup_insert_eq.
Qed.

Lemma bucket_keeps i r x l s : ∃ b s', rtc (callNext i r) (afterDevice x l, s) (Done b false, s')
  ∧ online s' = online s ∧ ipMaps s' = ipMaps s.
Proof.
  unfold afterDevice. case_goal; [exists None, s; split; [apply rtc_refl|done]|].
  destruct (SpeedLimiter (lim s) !! taguuid r) as [b|] eqn:E.
  - exists (Some b), s. split; [|done]. eapply call_step; [cbn; by rewrite E|apply rtc_refl].
  - do 2 eexists. split; [eapply call_step; [cbn; by rewrite E|]; eapply call_step; [cbn; by rewrite E|apply rtc_refl]|done].
Qed.

(** The calls of a user, each new to it and let in when it is the only one. *)
Definition welcome l (k : string) r : Prop :=
  taguuid r = k ∧ noUDPsource r = true ∧ trackedIP k (ip r) l = None ∧ (check r l).2.2 = false.

(** The first [n] calls are about to store their addresses. *)
Lemma all_arrive l k u rs n : UserLimits l !! k = Some u → ExpireTime u = 0 → Forall (welcome l k) rs → (n <= length rs)%nat →
  ∃ schedule, let y := run schedule (start l (newCall <$> rs)) in
    before l k (shared y) ∧ length (threads y) = length rs
    ∧ ∀ i r, rs !! i = Some r →
        ((i < n)%nat → ∃ x, threads y !! i = Some (Call r (StoreIP x)) ∧ online (shared y) !! k = Some (ipMap x) ∧ uid x = UID u)
        ∧ ((n <= i)%nat → threads y !! i = Some (newCall r)).
Proof.
  intros Hu He Hrs. rewrite Forall_lookup in Hrs. induction n as [|n IH]; intros Hn.
  - exists []. cbn. split_and!; [split; [done|]| |].
    + unfold load. cbn. rewrite map_lookup_imap. destruct (UserOnlineIP l !! k) as [m|] eqn:E; [|done].
      unfold ipMapOf. cbn. by rewrite lookup_kmap, E by (by apply _).
    + by rewrite length_fmap.
    + intros i r Hr. split; [lia|]. intros _. by rewrite list_lookup_fmap, Hr.
  - destruct IH as (schedule & Hb & Hlen & Hth); [lia|]. set (y := run schedule (start l (newCall <$> rs))) in *.
    destruct (lookup_lt_is_Some_2 rs n ltac:(lia)) as [r Hr]. destruct (Hrs n r Hr) as (Hk & Ht & Hnew & Hc). subst k.
    destruct (call_arrives n r l (shared y) u Hu He Ht Hnew Hc Hb) as (x & s' & Hrun & Hb' & Hx & Ho & Hkeep).
    destruct (run_call n r _ _ _ s' (threads y) Hrun (proj2 (Hth n r Hr) ltac:(lia))) as [more Hm].
    exists (schedule ++ more). rewrite run_app. fold y. replace y with (mkSystem (shared y) (threads y)) by (by destruct y). rewrite Hm.
    cbn [shared threads]. split_and!; [done|by rewrite length_insert|]. intros i r' Hr'. destruct (decide (i = n)) as [->|Hne].
    + rewrite Hr in Hr'. injection Hr' as <-. split; [|lia]. intros _. exists x. split; [|done]. apply list_lookup_insert_eq. lia.
    + rewrite list_lookup_insert_ne by done. destruct (Hth i r' Hr') as [H1 H2]. split; [|intros; apply H2; lia].
      intros Hi. destruct H1 as (x' & ? & Hox & ?); [lia|]. exists x'. split_and!; [done| |done]. by apply Hkeep.
Qed.

(** The first [n] calls have stored them, and answered. *)
Lemma all_stored k (u : Z) (m : MapId) rs n y : (n <= length rs)%nat → length (threads y) = length rs → online (shared y) !! k = Some m →
  (∀ i r, rs !! i = Some r → ∃ x, threads y !! i = Some (Call r (StoreIP x)) ∧ ipMap x = m ∧ uid x = u) →
  ∃ schedule, let y' := run schedule y in
    length (threads y') = length rs ∧ online (shared y') !! k = Some m
    ∧ ∀ i r, rs !! i = Some r →
        ((i < n)%nat → (∃ b, threads y' !! i = Some (Call r (Done b false))) ∧ ipMapOf m (shared y') !! ip r = Some u)
        ∧ ((n <= i)%nat → threads y' !! i = threads y !! i).
Proof.
  intros Hn Hlen Hm Hth. induction n as [|n IH].
  - exists []. cbn. split_and!; [done|done|]. intros i r Hr. split; [lia|done].
  - destruct IH as (schedule & Hlen' & Hm' & Hth'); [lia|]. set (y1 := run schedule y) in *.
    destruct (lookup_lt_is_Some_2 rs n ltac:(lia)) as [r Hr]. destruct (Hth n r Hr) as (x & Hx & Hxm & Hxu).
    set (s1 := withIPMap (ipMap x) (<[ip r := uid x]> (ipMapOf (ipMap x) (shared y1))) (shared y1)).
    destruct (bucket_keeps n r x (lim (shared y1)) s1) as (b & s2 & Hb & Ho & Hi).
    assert (Hrun : rtc (callNext n r) (StoreIP x, shared y1) (Done b false, s2)) by (eapply call_step; [reflexivity|exact Hb]).
    assert (Hnow : threads y1 !! n = Some (Call r (StoreIP x))) by (by rewrite (proj2 (Hth' n r Hr) ltac:(lia))).
    destruct (run_call n r _ _ _ s2 (threads y1) Hrun Hnow) as [more Hmore].
    exists (schedule ++ more). rewrite run_app. fold y1. replace y1 with (mkSystem (shared y1) (threads y1)) by (by destruct y1). rewrite Hmore.
    assert (Hnew : ipMapOf m s2 = <[ip r := u]> (ipMapOf m (shared y1))).
    { unfold ipMapOf. rewrite Hi. unfold s1. cbn. subst m. rewrite lookup_insert_eq, Hxu. done. }
    cbn [shared threads]. rewrite Ho. unfold s1. cbn [online withIPMap]. split_and!; [by rewrite length_insert|done|].
    intros i r' Hr'. rewrite Hnew. destruct (decide (i = n)) as [->|Hne].
    + rewrite Hr in Hr'. injection Hr' as <-. split; [|lia]. intros _. split; [|by rewrite lookup_insert_eq].
      exists b. apply list_lookup_insert_eq. lia.
    + rewrite list_lookup_insert_ne by done. destruct (Hth' i r' Hr') as [H1 H2]. split; [|intros; apply H2; lia].
      intros Hin. destruct H1 as [? Hip]; [lia|]. split; [done|]. rewrite lookup_insert. by case_decide.
Qed.

(** C31. The device limit does not hold for connections of a user that come at the
    same moment: any number of them, from addresses that are new to the user, are
    all let in and listed on some schedule, if the first of them to come would be
    let in. *)
Theorem race_admits_all l k u rs : UserLimits l !! k = Some u → ExpireTime u = 0 → Forall (welcome l k) rs →
  ∃ schedule, let y := run schedule (start l (newCall <$> rs)) in
    ∀ i r, rs !! i = Some r →
      (∃ b, threads y !! i = Some (Call r (Done b false)))
      ∧ onlineAt (UserOnlineIP (view (shared y))) k (ip r) = Some (UID u).
Proof.
  intros Hu He Hrs. destruct (all_arrive l k u rs (length rs) Hu He Hrs ltac:(lia)) as (s1 & _ & Hlen & Hth).
  set (y := run s1 (start l (newCall <$> rs))) in *. destruct (online (shared y) !! k) as [m|] eqn:Em.
  - destruct (all_stored k (UID u) m rs (length rs) y ltac:(lia) Hlen Em) as (s2 & _ & Hm & Hall).
    { intros i r Hr. destruct (proj1 (Hth i r Hr)) as (x & Hx & Ho & Hxu); [by eapply lookup_lt_Some|]. exists x. split_and!; [done|congruence|done]. }
    exists (s1 ++ s2). rewrite run_app. fold y. intros y2 i r Hr. destruct (proj1 (Hall i r Hr)) as [Hd Hip]; [by eapply lookup_lt_Some|].
    split; [done|]. unfold onlineAt, y2. by rewrite view_lookup, Hm.
  - exists s1. fold y. intros y2 i r Hr. destruct (proj1 (Hth i r Hr)) as (x & _ & Ho & _); [by eapply lookup_lt_Some|]. congruence.
Qed.
End schedules.

Module Examples.
#[local] Existing Instance exampleRateLimit.
#[local] Instance exampleOrder : RangeOrder string := canonical_order string.

Definition key : string := "t|u".

Definition connect (a : string) : Request := mkRequest 0 key a true.

(** A user that may have one device, or two. *)
Definition oneDevice : Limiter := newLimiter "vless" "t" [Panel.mkUserInfo 1 "u" 0 1] None.
Definition twoDevices : Limiter := newLimiter "vless" "t" [Panel.mkUserInfo 1 "u" 0 2] None.

(** Whether each call was rejected, and the addresses that are listed. *)
Definition rejections (y : System) : list (option bool) := (λ th, snd <$> answer th) <$> threads y.
Definition listedIPs (l : Limiter) : list string := (map_to_list (default ∅ (UserOnlineIP l !! key))).*1.

(** [n] steps of goroutine [i]. *)
Definition steps (i n : nat) : list (nat * option string) := replicate n (i, None).

Lemma users_isolated_witness :
  let rs := [connect "1.1.1.1"; mkRequest 0 "t|v" "2.2.2.2" true] in
  let l := newLimiter "vless" "t" [Panel.mkUserInfo 1 "u" 0 1; Panel.mkUserInfo 2 "v" 8 1] None in
  let y := run (steps 0 4 ++ steps 1 9 ++ steps 0 9 ++ steps 1 9) (start l (newCall <$> rs)) in
  view (shared y) = foldl (λ l r, (check r l).1) l rs.
Proof.
  intros rs l y. apply (users_isolated l rs (steps 0 4 ++ steps 1 9 ++ steps 0 9 ++ steps 1 9)).
  - apply (bool_decide_unpack _). vm_compute. exact I.
  - apply (bool_decide_unpack _). vm_compute. exact I.
Defined.

Lemma online_admitted_witness :
  let ths := [newCall (connect "1.1.1.1"); newCall (connect "2.2.2.2"); newCommit 5 [Panel.mkOnlineUser 1 "1.1.1.1" key]] in
  let y := run (steps 0 20 ++ steps 1 8 ++ steps 2 3 ++ steps 1 20) (start twoDevices ths) in
  listedIPs (view (shared y)) = ["1.1.1.1"; "2.2.2.2"]
  ∧ ∀ t k u, onlineAt (UserOnlineIP (view (shared y))) t k = Some u → justified twoDevices (threads y) t k u.
Proof.
  intros ths y. split; [vm_compute; reflexivity|].
  apply (online_admitted twoDevices ths (steps 0 20 ++ steps 1 8 ++ steps 2 3 ++ steps 1 20)). by repeat constructor.
Defined.

(** Three devices instead of one; one after the other the second is rejected. *)
Lemma race_admits_all_witness :
  let rs := [connect "1.1.1.1"; connect "2.2.2.2"; connect "3.3.3.3"] in
  (check (connect "2.2.2.2") (check (connect "1.1.1.1") oneDevice).1).2.2 = true
  ∧ ∃ schedule, let y := run schedule (start oneDevice (newCall <$> rs)) in
    ∀ i r, rs !! i = Some r →
      (∃ b, threads y !! i = Some (Call r (Done b false)))
      ∧ onlineAt (UserOnlineIP (view (shared y))) key (ip r) = Some 1.
Proof.
  intros rs. split; [vm_compute; reflexivity|].
  apply (race_admits_all oneDevice key (mkUserLimitInfo 1 0 1 0 0 false) rs); [reflexivity|reflexivity|].
  repeat constructor.
Defined.

(** A call that is rejected takes the map it made out of [UserOnlineIP], also when
    another call has stored its address in it meanwhile: the address that was let
    in is neither listed nor counted, and the next device is let in. *)
Example rejected_forgets :
  let y := run (steps 1 4 ++ steps 0 20 ++ steps 1 20) (start oneDevice [newCall (connect "1.1.1.1"); newCall (connect "2.2.2.2")]) in
  rejections y = [Some false; Some true] ∧ listedIPs (view (shared y)) = []
  ∧ (check (connect "3.3.3.3") (view (shared y))).2.2 = false.
Proof. vm_compute. split_and!; reflexivity. Qed.

Definition listedOne : Limiter := (check (connect "1.1.1.1") oneDevice).1.
Definition listedTwo : Limiter := (check (connect "1.1.1.1") twoDevices).1.
Definition reportOf (n : Z) : Thread := newCommit n [Panel.mkOnlineUser 1 "1.1.1.1" key].

(** A report that finds the map of a user empty takes it out of [UserOnlineIP],
    also when a call stores its address in it meanwhile. *)
Example reported_forgets :
  let y := run (steps 0 8 ++ steps 1 5 ++ steps 0 20 ++ steps 1 20) (start listedTwo [newCall (connect "2.2.2.2"); reportOf 5]) in
  rejections y = [Some false; None] ∧ listedIPs (view (shared y)) = [].
Proof. vm_compute. split_and!; reflexivity. Qed.

(** While a report is at work its devices are no longer pending and not yet
    reported: a call in between goes over the limit, which it does neither before
    nor after the report. *)
Example report_window :
  let y := run (steps 1 4 ++ steps 0 20 ++ steps 1 20) (start listedOne [newCall (connect "2.2.2.2"); reportOf 5]) in
  rejections y = [Some false; None]
  ∧ listedIPs (view (shared y)) ++ (map_to_list (OldUserOnline (view (shared y)))).*1 = ["2.2.2.2"; "1.1.1.1"]
  ∧ (check (connect "2.2.2.2") listedOne).2.2 = true
  ∧ (check (connect "2.2.2.2") (CommitOnlineDeviceReport 5 [Panel.mkOnlineUser 1 "1.1.1.1" key] listedOne)).2.2 = true.
Proof. vm_compute. split_and!; reflexivity. Qed.
End Examples.
End LimiterOnlineProps.
