(* ===== verification/Inbound.v ===== *)
(** * Inbound configurations (core/inbound.go, core/outbound.go)

    How the settings of a node become the inbound configuration that is handed
    to Xray. Xray's own structs are records with the fields the code sets;
    what Xray does with them ([Build], the decoding of transport settings,
    [net.ParseAddress]) is the interface [XrayConf]. [json.Marshal] of a
    settings struct is kept as the struct (it cannot fail for these types). *)

From Stdlib Require Import Ascii.
From S2P Require Import Prelude GoStrings Json Panel.

Module Inbound.
Import GoStrings Json.

(** The parts of github.com/xtls/xray-core/infra/conf the code calls. *)
Class XrayConf := {
  TCPConfig : Type;
  WebSocketConfig : Type;
  GRPCConfig : Type;
  HttpUpgradeConfig : Type;
  SplitHTTPConfig : Type;
  Address : Type;
  AuthMethodUserPass : string;
  ParseAddress : string → Address;
  (** [TCPConfig{AcceptProxyProtocol, HeaderConfig}] *)
  newTCPConfig : bool → option Json → TCPConfig;
  unmarshalTCP : Json → result (option TCPConfig);
  unmarshalWS : Json → result (option WebSocketConfig);
  unmarshalGRPC : Json → result (option GRPCConfig);
  unmarshalHTTPUpgrade : Json → result (option HttpUpgradeConfig);
  unmarshalSplitHTTP : Json → result (option SplitHTTPConfig)
}.

(** ** Xray's configuration structs *)

(** The [Settings] of an inbound. *)
Inductive InboundSettings :=
| VLessInboundConfig (Decryption : string)
| VMessInboundConfig
| TrojanServerConfig
| ShadowsocksServerConfig (Cipher Password : string) (Users : list (string * string))
    (NetworkList : list string)
| SocksServerConfig (AuthMethod : string) (UDP : bool)
| HTTPServerConfig (Accounts : list (string * string))
| HysteriaServerConfig (Version : Z)
| TuicServerConfig (CongestionControl : string) (ZeroRttHandshake : bool)
| AnyTLSServerConfig (PaddingScheme : option (list string)).

Record QuicParams := mkQuicParams { Congestion : string; BrutalUp : string; BrutalDown : string }.

(** A UDP mask: its type and the text of its settings. *)
Record Mask := mkMask { Mask_Type : string; Mask_Settings : string }.

Record FinalMask := mkFinalMask { Udp : list Mask; fm_QuicParams : option QuicParams }.

Record TLSConfig := mkTLSConfig {
  Certs : list (string * string * Z);      (* CertFile, KeyFile, OcspStapling *)
  RejectUnknownSNI : bool;
  tls_ALPN : option (list string)
}.

Record REALITYConfig := mkREALITYConfig {
  r_Dest : Json;
  r_Xver : Z;
  r_Show : bool;
  r_ServerNames : list string;
  r_PrivateKey : string;
  r_ShortIds : list string;
  r_Mldsa65Seed : string
}.

Section conf.
Context `{XC : XrayConf}.

Record StreamConfig := mkStreamConfig {
  sc_Network : option string;
  sc_Security : string;
  SocketSettings : option bool;            (* AcceptProxyProtocol *)
  TCPSettings : option TCPConfig;
  WSSettings : option WebSocketConfig;
  GRPCSettings : option GRPCConfig;
  HTTPUPGRADESettings : option HttpUpgradeConfig;
  SplitHTTPSettings : option SplitHTTPConfig;
  TLSSettings : option TLSConfig;
  REALITYSettings : option REALITYConfig;
  sc_FinalMask : option FinalMask;
  HysteriaSettings : option Z              (* Version *)
}.

Record InboundDetourConfig := mkInbound {
  in_Protocol : string;
  PortList : list (Z * Z);
  ListenOn : option Address;
  in_Settings : option InboundSettings;
  in_Tag : string;
  StreamSetting : option StreamConfig;
  SniffingConfig : option (bool * list string)   (* Enabled, DestOverride *)
}.

Definition emptyStream : StreamConfig :=
  mkStreamConfig None "" None None None None None None None None None None.

Definition emptyInbound : InboundDetourConfig := mkInbound "" [] None None "" None None.

Definition withSettings (p : string) (s : InboundSettings) (i : InboundDetourConfig) :=
  mkInbound p (PortList i) (ListenOn i) (Some s) (in_Tag i) (StreamSetting i) (SniffingConfig i).

Definition withStream (s : option StreamConfig) (i : InboundDetourConfig) :=
  mkInbound (in_Protocol i) (PortList i) (ListenOn i) (in_Settings i) (in_Tag i) s (SniffingConfig i).

Definition networkStream (network : string) : StreamConfig :=
  mkStreamConfig (Some network) "" None None None None None None None None None None.

Definition withSocket (a : bool) (s : StreamConfig) :=
  mkStreamConfig (sc_Network s) (sc_Security s) (Some a) (TCPSettings s) (WSSettings s)
    (GRPCSettings s) (HTTPUPGRADESettings s) (SplitHTTPSettings s) (TLSSettings s)
    (REALITYSettings s) (sc_FinalMask s) (HysteriaSettings s).

Definition withTCP (t : option TCPConfig) (s : StreamConfig) :=
  mkStreamConfig (sc_Network s) (sc_Security s) (SocketSettings s) t (WSSettings s)
    (GRPCSettings s) (HTTPUPGRADESettings s) (SplitHTTPSettings s) (TLSSettings s)
    (REALITYSettings s) (sc_FinalMask s) (HysteriaSettings s).

Definition withWS (t : option WebSocketConfig) (s : StreamConfig) :=
  mkStreamConfig (sc_Network s) (sc_Security s) (SocketSettings s) (TCPSettings s) t
    (GRPCSettings s) (HTTPUPGRADESettings s) (SplitHTTPSettings s) (TLSSettings s)
    (REALITYSettings s) (sc_FinalMask s) (HysteriaSettings s).

Definition withGRPC (t : option GRPCConfig) (s : StreamConfig) :=
  mkStreamConfig (sc_Network s) (sc_Security s) (SocketSettings s) (TCPSettings s) (WSSettings s)
    t (HTTPUPGRADESettings s) (SplitHTTPSettings s) (TLSSettings s)
    (REALITYSettings s) (sc_FinalMask s) (HysteriaSettings s).

Definition withHTTPUpgrade (t : option HttpUpgradeConfig) (s : StreamConfig) :=
  mkStreamConfig (sc_Network s) (sc_Security s) (SocketSettings s) (TCPSettings s) (WSSettings s)
    (GRPCSettings s) t (SplitHTTPSettings s) (TLSSettings s)
    (REALITYSettings s) (sc_FinalMask s) (HysteriaSettings s).

Definition withSplitHTTP (t : option SplitHTTPConfig) (s : StreamConfig) :=
  mkStreamConfig (sc_Network s) (sc_Security s) (SocketSettings s) (TCPSettings s) (WSSettings s)
    (GRPCSettings s) (HTTPUPGRADESettings s) t (TLSSettings s)
    (REALITYSettings s) (sc_FinalMask s) (HysteriaSettings s).

Definition withTLS (t : TLSConfig) (s : StreamConfig) :=
  mkStreamConfig (sc_Network s) "tls" (SocketSettings s) (TCPSettings s) (WSSettings s)
    (GRPCSettings s) (HTTPUPGRADESettings s) (SplitHTTPSettings s) (Some t)
    (REALITYSettings s) (sc_FinalMask s) (HysteriaSettings s).

Definition withREALITY (t : REALITYConfig) (s : StreamConfig) :=
  mkStreamConfig (sc_Network s) "reality" (SocketSettings s) (TCPSettings s) (WSSettings s)
    (GRPCSettings s) (HTTPUPGRADESettings s) (SplitHTTPSettings s) (TLSSettings s)
    (Some t) (sc_FinalMask s) (HysteriaSettings s).

Definition withHysteria (m : option FinalMask) (version : Z) (s : StreamConfig) :=
  mkStreamConfig (sc_Network s) (sc_Security s) (SocketSettings s) (TCPSettings s) (WSSettings s)
    (GRPCSettings s) (HTTPUPGRADESettings s) (SplitHTTPSettings s) (TLSSettings s)
    (REALITYSettings s) m (Some version).

(** ** Listen addresses *)

(** [strings.TrimSuffix(s, c)] for a [c] of one byte. *)
Definition TrimSuffixByte (c : ascii) (s : string) : string :=
  match rev (bytes s) with
  | a :: l => if Ascii.eqb a c then of_bytes (rev l) else s
  | [] => s
  end.

Definition HasSuffixByte (c : ascii) (s : string) : bool :=
  match rev (bytes s) with
  | a :: _ => Ascii.eqb a c
  | [] => false
  end.

Definition normalizeNodeListenIP (raw : string) : string :=
  let listenIP := TrimSpace raw in
  if HasPrefix listenIP "[" && HasSuffixByte "]" listenIP
  then TrimPrefix (TrimSuffixByte "]" listenIP) "["
  else listenIP.

Definition resolveNodeListenIP (raw : string) : string :=
  let listenIP := normalizeNodeListenIP raw in
  if bool_decide (listenIP = "" ∨ listenIP = "0.0.0.0") then "::" else listenIP.

Definition shouldFallbackNodeListenIP (raw : string) : bool :=
  let listenIP := normalizeNodeListenIP raw in
  bool_decide (listenIP = "" ∨ listenIP = "0.0.0.0" ∨ listenIP = "::").

(** ** ALPN *)

(** One iteration of the loop of [resolveTLSALPN]. *)
Definition alpnStep (acc : list string * gset string) (value : string) : list string * gset string :=
  let '(normalized, seen) := acc in
  let text := TrimSpace value in
  if bool_decide (text = "") then acc
  else if bool_decide (text ∈ seen) then acc
  else (normalized ++ [text], {[text]} ∪ seen).

Definition resolveTLSALPN (nodeInfo : option Panel.NodeInfo) : option (list string) :=
  match nodeInfo with
  | None => None
  | Some n =>
      match Panel.Common n with
      | None => None
      | Some c =>
          let normalized :=
            (foldl alpnStep ([], ∅) (Panel.slice (Panel.ALPN (Panel.Tls_Settings c)))).1 in
          match normalized with
          | [] =>
              if bool_decide (Panel.Type_ n = "hysteria2" ∨ Panel.Type_ n = "tuic")
              then Some ["h3"] else None
          | _ => Some normalized
          end
      end
  end.

(** ** Transports *)

(** The value of [NetworkSettings] when its length is positive. *)
Definition networkSettings (c : Panel.CommonNode) : option Json :=
  match Panel.NetworkSettings c with
  | Some r => if bool_decide (raw_text r = "") then None else Some (raw_value r)
  | None => None
  end.

Definition badNetwork : GoError := errorf "the network type is not vail".

Definition mapErr {A} (prefix : string) (r : result A) : result A :=
  match r with
  | Ok a => Ok a
  | Err e => Err (errorf (prefix +:+ err_msg e))
  end.

#[local] Open Scope go_scope.

(** The switch on [v.Network] shared by buildTrojan and, with two more
    cases, by buildVLess, buildVMess and buildAnyTLS. *)
Definition unmarshalTransport3 (network : string) (raw : Json) (s : StreamConfig)
    : option (result StreamConfig) :=
  if bool_decide (network = "tcp") then
    Some (t ←? mapErr "unmarshal tcp settings error: " (unmarshalTCP raw); Ok (withTCP t s))
  else if bool_decide (network = "ws") then
    Some (t ←? mapErr "unmarshal ws settings error: " (unmarshalWS raw); Ok (withWS t s))
  else if bool_decide (network = "grpc") then
    Some (t ←? mapErr "unmarshal grpc settings error: " (unmarshalGRPC raw); Ok (withGRPC t s))
  else None.

Definition unmarshalTransport5 (network : string) (raw : Json) (s : StreamConfig)
    : option (result StreamConfig) :=
  match unmarshalTransport3 network raw s with
  | Some r => Some r
  | None =>
      if bool_decide (network = "httpupgrade") then
        Some (t ←? mapErr "unmarshal httpupgrade settings error: " (unmarshalHTTPUpgrade raw);
              Ok (withHTTPUpgrade t s))
      else if bool_decide (network = "splithttp" ∨ network = "xhttp") then
        Some (t ←? mapErr "unmarshal xhttp settings error: " (unmarshalSplitHTTP raw);
              Ok (withSplitHTTP t s))
      else None
  end.

(** ** One builder per protocol *)

Definition vlessDecryption (c : Panel.CommonNode) : result string :=
  if bool_decide (Panel.Encryption c = "") then Ok "none"
  else if bool_decide (Panel.Encryption c = "mlkem768x25519plus") then
    let e := Panel.EncryptionSettings c in
    let parts := ["mlkem768x25519plus"; Panel.enc_Mode e; Panel.Ticket e] in
    let parts := if bool_decide (Panel.ServerPadding e = "") then parts
                 else parts ++ [Panel.ServerPadding e] in
    Ok (Join "." (parts ++ [Panel.enc_PrivateKey e]))
  else Err (errorf ("vless decryption method " +:+ Panel.Encryption c +:+ " is not support")).

Definition buildVLess (v : Panel.CommonNode) (inbound : InboundDetourConfig)
    : result InboundDetourConfig :=
  decryption ←? vlessDecryption v;
  let inbound := withSettings "vless" (VLessInboundConfig decryption) inbound in
  match networkSettings v with
  | None => Ok inbound
  | Some raw =>
      match unmarshalTransport5 (Panel.Network v) raw (networkStream (Panel.Network v)) with
      | Some r => s ←? r; Ok (withStream (Some s) inbound)
      | None => Err badNetwork
      end
  end.

Definition buildVMess (v : Panel.CommonNode) (inbound : InboundDetourConfig)
    : result InboundDetourConfig :=
  let inbound := withSettings "vmess" VMessInboundConfig inbound in
  match networkSettings v with
  | None => Ok inbound
  | Some raw =>
      match unmarshalTransport5 (Panel.Network v) raw (networkStream (Panel.Network v)) with
      | Some r => s ←? r; Ok (withStream (Some s) inbound)
      | None => Err badNetwork
      end
  end.

Definition buildTrojan (v : Panel.CommonNode) (inbound : InboundDetourConfig)
    : result InboundDetourConfig :=
  let inbound := withSettings "trojan" TrojanServerConfig inbound in
  let network := if bool_decide (Panel.Network v = "") then "tcp" else Panel.Network v in
  let inbound := withStream (Some (networkStream network)) inbound in
  match networkSettings v with
  | None => Ok inbound
  | Some raw =>
      match unmarshalTransport3 network raw (networkStream network) with
      | Some r => s ←? r; Ok (withStream (Some s) inbound)
      | None => Err badNetwork
      end
  end.

Record ShadowsocksHTTPNetworkSettings := mkShttp {
  AcceptProxyProtocol : bool;
  Path : string;
  Host : string
}.

Definition shttpFields : list (string * Setter ShadowsocksHTTPNetworkSettings) :=
  [("acceptProxyProtocol", setBool (λ b s, mkShttp b (Path s) (Host s)));
   ("path", setString (λ t s, mkShttp (AcceptProxyProtocol s) t (Host s)));
   ("Host", setString (λ t s, mkShttp (AcceptProxyProtocol s) (Path s) t))].

(** The header for HTTP obfuscation; encoding/json sorts the keys of a map. *)
Definition shttpHeader (shttp : ShadowsocksHTTPNetworkSettings) : Json :=
  let path := if bool_decide (Path shttp = "") then "/" else Path shttp in
  let headers :=
    if bool_decide (Host shttp = "") then []
    else [("headers", JObject [("Host", JArray [JString (Host shttp)])])] in
  JObject [("request", JObject (headers ++ [("path", JArray [JString path])]));
           ("type", JString "http")].

(** The stream settings for PROXY protocol and HTTP obfuscation. *)
Definition shttpStream (shttp : ShadowsocksHTTPNetworkSettings) : option StreamConfig :=
  let http := bool_decide (Path shttp ≠ "" ∨ Host shttp ≠ "") in
  if AcceptProxyProtocol shttp || http then
    let header := if http then Some (shttpHeader shttp) else None in
    Some (withTCP (Some (newTCPConfig (AcceptProxyProtocol shttp) header)) (networkStream "tcp"))
  else None.

(** [random] is what [rand.Read] puts into the 32 bytes, or its error. *)
Definition buildShadowsocks (random : result (list ascii)) (s : Panel.CommonNode)
    (inbound : InboundDetourConfig) : result InboundDetourConfig :=
  p ←? mapErr "generate random password error: " random;
  let randomPasswd := hexEncode p in
  let keyed := bool_decide (Panel.ServerKey s ≠ "") in
  let password := if keyed then Panel.ServerKey s else "" in
  let randomPasswd := if keyed then base64Std (bytes randomPasswd) else randomPasswd in
  let cipher := if keyed then "" else Panel.Cipher s in
  let settings := ShadowsocksServerConfig (Panel.Cipher s) password [(cipher, randomPasswd)] in
  match networkSettings s with
  | None => Ok (withSettings "shadowsocks" (settings ["tcp"; "udp"]) inbound)
  | Some raw =>
      shttp ←? mapErr "unmarshal shadowsocks settings error: "
                 (decodeStruct shttpFields raw (mkShttp false "" ""));
      let networks := if bool_decide (Path shttp ≠ "" ∨ Host shttp ≠ "")
                      then ["tcp"] else ["tcp"; "udp"] in
      let inbound := match shttpStream shttp with
                     | Some t => withStream (Some t) inbound
                     | None => inbound
                     end in
      Ok (withSettings "shadowsocks" (settings networks) inbound)
  end.

Definition buildSocks (inbound : InboundDetourConfig) : result InboundDetourConfig :=
  Ok (withSettings "socks" (SocksServerConfig AuthMethodUserPass true) inbound).

(** [strconv.FormatInt(n, 36)] for a positive [n] below 2^63, which has at
    most 13 digits. *)
Fixpoint formatBase36 (fuel : nat) (n : Z) (acc : list ascii) : list ascii :=
  match fuel with
  | O => acc
  | S fuel =>
      let digit := nth_byte "0123456789abcdefghijklmnopqrstuvwxyz" (Z.to_N (n mod 36)) in
      if n <? 36 then digit :: acc else formatBase36 fuel (n / 36) (digit :: acc)
  end.

Definition dynamicAuthGuard (random : result (list ascii)) (now : Z) : string :=
  match random with
  | Ok token => "__keli_dynamic_http_" +:+ base64RawURL token
  | Err _ => "__keli_dynamic_http_" +:+ of_bytes (formatBase36 13 now [])
  end.

Definition buildHTTP (random : result (list ascii)) (now : Z) (inbound : InboundDetourConfig)
    : result InboundDetourConfig :=
  let authGuard := dynamicAuthGuard random now in
  Ok (withSettings "http" (HTTPServerConfig [(authGuard, authGuard)]) inbound).

(** The quotation mark. *)
Definition quote : string := String "034"%char EmptyString.

(** [fmt.Sprintf] of the settings of the mask: the obfuscation password is
    put between the quotes of the JSON text as it is. *)
Definition obfsSettings (password : string) : string :=
  "{" +:+ quote +:+ "password" +:+ quote +:+ ":" +:+ quote +:+ password +:+ quote +:+ "}".

Definition hysteriaFinalMask (s : Panel.CommonNode) : option FinalMask :=
  let up := Itoa (Panel.UpMbps s) +:+ "mbps" in
  let down := Itoa (Panel.DownMbps s) +:+ "mbps" in
  let quic :=
    if negb (Panel.Ignore_Client_Bandwidth s)
       && ((0 <? Panel.UpMbps s) || (0 <? Panel.DownMbps s))
    then Some (mkQuicParams "force-brutal" up down) else None in
  let udp :=
    if bool_decide (Panel.Obfs s ≠ "" ∧ Panel.ObfsPassword s ≠ "")
    then Some [mkMask (Panel.Obfs s) (obfsSettings (Panel.ObfsPassword s))] else None in
  match quic, udp with
  | None, None => None
  | _, _ => Some (mkFinalMask (default [] udp) quic)
  end.

Definition buildHysteria2 (s : Panel.CommonNode) (inbound : InboundDetourConfig)
    : result InboundDetourConfig :=
  let stream := withHysteria (hysteriaFinalMask s) 2 (networkStream "hysteria") in
  Ok (withStream (Some stream) (withSettings "hysteria" (HysteriaServerConfig 2) inbound)).

Definition buildTuic (s : Panel.CommonNode) (inbound : InboundDetourConfig)
    : result InboundDetourConfig :=
  Ok (withStream (Some (networkStream "tuic"))
        (withSettings "tuic"
           (TuicServerConfig (Panel.CongestionControl s) (Panel.ZeroRTTHandshake s)) inbound)).

Definition buildAnyTLS (v : Panel.CommonNode) (inbound : InboundDetourConfig)
    : result InboundDetourConfig :=
  let stream := networkStream (Panel.Network v) in
  stream ←? match networkSettings v with
            | None => Ok stream
            | Some raw => match unmarshalTransport5 (Panel.Network v) raw stream with
                          | Some r => r
                          | None => Err badNetwork
                          end
            end;
  Ok (withStream (Some stream)
        (withSettings "anytls" (AnyTLSServerConfig (Panel.PaddingScheme v)) inbound)).

(** ** The whole inbound *)

Definition NetworkSettingsProxyProtocol : list (string * Setter bool) :=
  [("acceptProxyProtocol", setBool (λ b _, b))].

(** The switch on [nodeInfo.Type]. *)
Definition buildProtocol (random : result (list ascii)) (now : Z) (type : string)
    (c : Panel.CommonNode) : result InboundDetourConfig :=
  let i := emptyInbound in
  if bool_decide (type = "vless") then buildVLess c i
  else if bool_decide (type = "vmess") then buildVMess c i
  else if bool_decide (type = "trojan") then buildTrojan c i
  else if bool_decide (type = "shadowsocks") then buildShadowsocks random c i
  else if bool_decide (type = "socks") then buildSocks i
  else if bool_decide (type = "http") then buildHTTP random now i
  else if bool_decide (type = "hysteria2") then buildHysteria2 c i
  else if bool_decide (type = "tuic") then buildTuic c i
  else if bool_decide (type = "anytls") then buildAnyTLS c i
  else Err (errorf ("unsupported node type: " +:+ type)).

Definition setProxyProtocol (c : Panel.CommonNode) (i : InboundDetourConfig)
    : result InboundDetourConfig :=
  match networkSettings c with
  | None => Ok i
  | Some raw =>
      accept ←? mapErr "unmarshal network settings error: "
                  (decodeStruct NetworkSettingsProxyProtocol raw false);
      if accept : bool then
        Ok (withStream
              (Some (match StreamSetting i with
                     | None => withSocket accept (networkStream (Panel.Network c))
                     | Some s => withSocket accept s
                     end)) i)
      else Ok i
  end.

Definition setSecurity (n : Panel.NodeInfo) (c : Panel.CommonNode) (i : InboundDetourConfig)
    : result InboundDetourConfig :=
  let stream := default emptyStream (StreamSetting i) in
  if Panel.Security n =? Panel.SecurityTls then
    match Panel.Cert_Info c with
    | None => Err (errorf "the CertInfo is not vail")
    | Some ci =>
        if bool_decide (Panel.CertMode ci = "none" ∨ Panel.CertMode ci = "") then Ok i
        else
          Ok (withStream
                (Some (withTLS
                   (mkTLSConfig [(Panel.CertFile ci, Panel.KeyFile ci, 3600)]
                      (Panel.RejectUnknownSni ci) (resolveTLSALPN (Some n))) stream)) i)
    end
  else if Panel.Security n =? Panel.SecurityReality then
    let t := Panel.Tls_Settings c in
    let dest := if bool_decide (Panel.Dest t = "") then Panel.tls_ServerName t else Panel.Dest t in
    Ok (withStream
          (Some (withREALITY
             (mkREALITYConfig (JString (dest +:+ ":" +:+ Panel.tls_ServerPort t)) (Panel.Xver t) false
                [Panel.tls_ServerName t] (Panel.tls_PrivateKey t) [Panel.ShortId t]
                (Panel.Mldsa65Seed t)) stream)) i)
  else Ok i.

(** [buildInboundWithListenIP], up to the final call of Xray's [Build]. The
    code dereferences [nodeInfo.Common], which is not nil when a node is
    added. *)
Definition buildInboundWithListenIP (random : result (list ascii)) (now : Z) (n : Panel.NodeInfo)
    (c : Panel.CommonNode) (tag listenIP : string) : result InboundDetourConfig :=
  i ←? buildProtocol random now (Panel.Type_ n) c;
  i ←? setProxyProtocol c i;
  let port := Panel.ServerPort c mod 2 ^ 32 in
  let i := mkInbound (in_Protocol i) [(port, port)] (Some (ParseAddress listenIP)) (in_Settings i)
             (in_Tag i) (StreamSetting i) (Some (true, ["http"; "tls"])) in
  i ←? setSecurity n c i;
  Ok (mkInbound (in_Protocol i) (PortList i) (ListenOn i) (in_Settings i) tag (StreamSetting i)
        (SniffingConfig i)).

Definition buildInbound (random : result (list ascii)) (now : Z) (n : Panel.NodeInfo)
    (c : Panel.CommonNode) (tag : string) : result InboundDetourConfig :=
  buildInboundWithListenIP random now n c tag (resolveNodeListenIP (Panel.ListenIP c)).

End conf.

(** ** Outbounds (core/outbound.go) *)

Record OutboundDetourConfig := mkOutbound {
  out_Protocol : string;
  out_Tag : string;
  DomainStrategy : option string    (* of [FreedomConfig], when there are settings *)
}.

Definition buildDefaultOutbound (domainStrategy : string) : OutboundDetourConfig :=
  let domainStrategy := if bool_decide (domainStrategy = "") then "UseIPv4v6" else domainStrategy in
  mkOutbound "freedom" "Default" (Some domainStrategy).

Definition buildBlockOutbound : OutboundDetourConfig := mkOutbound "blackhole" "block" None.

Definition buildDnsOutbound : OutboundDetourConfig := mkOutbound "dns" "dns_out" None.

End Inbound.
