(* ===== verification/Task.v ===== *)
(** * Periodic tasks (common/task/task.go)

    A [Task] runs [Execute] again and again: [Start] starts a goroutine that
    waits for a timer or for the [Stop] channel; at every tick it starts a
    goroutine that executes, if it gets the token that says no other execution
    is under way. [Close] closes [Stop] and cancels the context.

    Goroutines are interleaved: an [event] is the next step of one of them, and
    a run of the task is a sequence of events. Channels and contexts are
    numbered by the [Start] that made them. When the timer fires is up to the
    events. *)

From S2P Require Import Prelude.

Module Task.

(** ** State *)

(** Where the goroutine of a [Start] is: before its first statement, in the
    [select] on a channel, or returned. *)
Inductive LoopState :=
| NotStarted (first : bool)
| Waiting (ch : nat)
| Returned.

(** That goroutine, with the token of its executions. *)
Record Loop := mkLoop { execToken : bool; state : LoopState }.

(** An execution of a loop: not begun, or running under a context. *)
Record Execution := mkExecution { ex_loop : nat; ex_ctx : option nat }.

Record Task := mkTask {
  Interval : Z;
  Timeout : Z;
  Running : bool;
  Stop : nat;                        (* the channel of the last [Start] *)
  closed : gset nat;                 (* closed channels *)
  baseCtx : nat;
  baseCancel : option nat;
  cancelled : gset nat;              (* cancelled contexts *)
  execStartedAt : option Z;
  loops : list Loop;
  executions : list Execution
}.

(** [&task.Task{...}] *)
Definition newTask (interval timeout : Z) : Task :=
  mkTask interval timeout false 0 ∅ 0 None ∅ None [] [].

Implicit Types t : Task.

(** ** Operations *)

(** [Start]: nothing if the task runs, otherwise a new channel, context and
    loop. *)
Definition Start (first : bool) t : Task :=
  if Running t then t
  else
    let g := length (loops t) in
    mkTask (Interval t) (Timeout t) true g (closed t) g (Some g) (cancelled t) None
      (loops t ++ [mkLoop true (NotStarted first)]) (executions t).

(** [safeStop]; [None] is the panic of closing a closed channel. *)
Definition safeStop t : option Task :=
  if Running t then
    if decide (Stop t ∈ closed t) then None
    else Some (mkTask (Interval t) (Timeout t) false (Stop t) ({[Stop t]} ∪ closed t) (baseCtx t) None
                 (match baseCancel t with Some c => {[c]} ∪ cancelled t | None => cancelled t end)
                 (execStartedAt t) (loops t) (executions t))
  else Some t.

Definition Close t : option Task := safeStop t.

Definition withLoops ls es t : Task :=
  mkTask (Interval t) (Timeout t) (Running t) (Stop t) (closed t) (baseCtx t) (baseCancel t)
    (cancelled t) (execStartedAt t) ls es.

Definition withStartedAt s t : Task :=
  mkTask (Interval t) (Timeout t) (Running t) (Stop t) (closed t) (baseCtx t) (baseCancel t)
    (cancelled t) s (loops t) (executions t).

(** [run] of the loop [i]: an execution is spawned if [Stop] is open and the
    token is there. *)
Definition run (i : nat) t : Task :=
  match loops t !! i with
  | None => t
  | Some l =>
      if decide (Stop t ∈ closed t) then t
      else if execToken l
           then withLoops (<[i := mkLoop false (state l)]> (loops t))
                  (executions t ++ [mkExecution i None]) t
           else t
  end.

(** The loop [i] enters its [select], which evaluates [t.Stop]. *)
Definition wait (i : nat) t : Task :=
  withLoops (alter (λ l, mkLoop (execToken l) (Waiting (Stop t))) i (loops t)) (executions t) t.

(** The goroutine of a [Start] begins. *)
Definition enter (i : nat) t : Task :=
  match state <$> loops t !! i with
  | Some (NotStarted first) => wait i (if first then run i t else t)
  | _ => t
  end.

(** The timer fires. *)
Definition tick (i : nat) t : Task :=
  match state <$> loops t !! i with
  | Some (Waiting _) => wait i (run i t)
  | _ => t
  end.

(** The spawned goroutine begins: [execStartedAt] is set and the context of the
    execution is derived from the current [baseCtx]. *)
Definition begin (j : nat) (now : Z) t : Task :=
  match executions t !! j with
  | Some (mkExecution i None) =>
      withLoops (loops t) (<[j := mkExecution i (Some (baseCtx t))]> (executions t))
        (withStartedAt (Some now) t)
  | _ => t
  end.

(** The time an execution has. *)
Definition effectiveTimeout t : Z :=
  if Timeout t <=? 0 then Z.min (3 * Interval t) (5 * 60 * 1000000000) else Timeout t.

(** What [ExecuteWithTimeout] returns, from the result of [Execute] and the
    error of its context. *)
Definition ExecuteWithTimeout (err ctxErr : option GoError) : option GoError :=
  match err with
  | None => None
  | Some e =>
      match ctxErr with
      | Some c => if errorsIs c SentinelCanceled || errorsIs c SentinelDeadlineExceeded then None else Some e
      | None => Some e
      end
  end.

(** [ctx.Err()] of an execution; [expired] tells that its time ran out first. *)
Definition ctxErr (ctx : nat) (expired : bool) t : option GoError :=
  if expired then Some (mkError "context deadline exceeded" (Some SentinelDeadlineExceeded))
  else if decide (ctx ∈ cancelled t) then Some (mkError "context canceled" (Some SentinelCanceled))
  else None.

(** An execution ends: an error stops the task; the token goes back. *)
Definition finish (j : nat) (err : option GoError) (expired : bool) t : option Task :=
  match executions t !! j with
  | Some (mkExecution i (Some ctx)) =>
      match (match ExecuteWithTimeout err (ctxErr ctx expired t) with
             | Some _ => safeStop t
             | None => Some t
             end) with
      | None => None
      | Some t =>
          Some (withLoops (alter (λ l, mkLoop true (state l)) i (loops t))
                  (delete j (executions t)) (withStartedAt None t))
      end
  | _ => Some t
  end.

(** The loop sees that its channel is closed and returns, which runs its
    deferred [safeStop]. *)
Definition stopSeen (i : nat) t : option Task :=
  match loops t !! i with
  | Some (mkLoop token (Waiting ch)) =>
      if decide (ch ∈ closed t)
      then safeStop (withLoops (<[i := mkLoop token Returned]> (loops t)) (executions t) t)
      else Some t
  | _ => Some t
  end.

Inductive event :=
| EvStart (first : bool)
| EvClose
| EvEnter (i : nat)
| EvTick (i : nat)
| EvBegin (j : nat) (now : Z)
| EvFinish (j : nat) (err : option GoError) (expired : bool)
| EvStopSeen (i : nat).

Definition step (e : event) t : option Task :=
  match e with
  | EvStart first => Some (Start first t)
  | EvClose => Close t
  | EvEnter i => Some (enter i t)
  | EvTick i => Some (tick i t)
  | EvBegin j now => Some (begin j now t)
  | EvFinish j err expired => finish j err expired t
  | EvStopSeen i => stopSeen i t
  end.

Fixpoint runEvents (es : list event) t : option Task :=
  match es with
  | [] => Some t
  | e :: es => match step e t with None => None | Some t => runEvents es t end
  end.

End Task.
