(* ===== verification/TaskProps.v ===== *)
(** * Properties of periodic tasks

    Whatever the interleaving, the [Stop] channel of a task is never closed
    twice and no two executions of one [Start] overlap ([task_exclusive]).
    After [Close] nothing new is executed: what still runs has a cancelled
    context and every loop can return ([closed_quiet]). A task that is started
    again before the loop of the first [Start] has returned is stopped by that
    loop ([restart_lost]). *)

From S2P Require Import Prelude Task.

Module TaskProps.
Import Task.
Implicit Types t : Task.

(** The executions of a loop. *)
Definition executionsOf (i : nat) (es : list Execution) : nat := length (filter (λ e, ex_loop e = i) es).

(** The number [g] was handed out by a [Start] that is over. *)
Definition over (g : nat) t : Prop := (g < length (loops t))%nat ∧ (Running t = true → g ≠ Stop t).

Record wf t : Prop := {
  wf_stop : Running t = true ∨ loops t ≠ [] → (Stop t < length (loops t))%nat;
  wf_ctx : baseCtx t = Stop t;
  wf_cancel : Running t = true → baseCancel t = Some (baseCtx t);
  wf_closed : ∀ g, g ∈ closed t ↔ over g t;
  wf_cancelled : ∀ g, g ∈ cancelled t ↔ over g t;
  wf_waiting : ∀ i l ch, loops t !! i = Some l → state l = Waiting ch → (ch < length (loops t))%nat;
  wf_contexts : ∀ e c, e ∈ executions t → ex_ctx e = Some c → (c < length (loops t))%nat;
  wf_loops : Forall (λ e, (ex_loop e < length (loops t))%nat) (executions t);
  wf_token : ∀ i l, loops t !! i = Some l →
    executionsOf i (executions t) = if execToken l then 0%nat else 1%nat
}.

Lemma executionsOf_cons i e es :
  executionsOf i (e :: es) = ((if decide (ex_loop e = i) then 1 else 0) + executionsOf i es)%nat.
Proof.
  unfold executionsOf. destruct (decide (ex_loop e = i)) as [He|He].
  - by rewrite filter_cons_True.
  - by rewrite filter_cons_False.
Qed.

Lemma executionsOf_snoc i es j c :
  executionsOf i (es ++ [mkExecution j c]) = (executionsOf i es + if decide (j = i) then 1 else 0)%nat.
Proof.
  induction es as [|e es IH]; cbn [app]; rewrite !executionsOf_cons; [cbn; case_decide; done|].
  rewrite IH. lia.
Qed.

Lemma executionsOf_insert i es j e e' :
  es !! j = Some e → ex_loop e' = ex_loop e → executionsOf i (<[j := e']> es) = executionsOf i es.
Proof.
  revert j. induction es as [|x es IH]; intros [|j]; simpl; [done|done| |]; intros Hj He; rewrite !executionsOf_cons.
  - injection Hj as ->. by rewrite He.
  - by rewrite (IH j).
Qed.

Lemma executionsOf_delete i es j e :
  es !! j = Some e →
  executionsOf i es = ((if decide (ex_loop e = i) then 1 else 0) + executionsOf i (delete j es))%nat.
Proof.
  revert j. induction es as [|x es IH]; intros [|j]; simpl; [done|done| |]; intros Hj; rewrite !executionsOf_cons.
  - by injection Hj as ->.
  - rewrite (IH j Hj). lia.
Qed.

Lemma newTask_wf interval timeout : wf (newTask interval timeout).
Proof.
  split; cbn; try done.
  - by intros [?|?].
  - intros g. unfold over. cbn. split; [set_solver|lia].
  - intros g. unfold over. cbn. split; [set_solver|lia].
  - intros e c He. by apply elem_of_nil in He.
Qed.

Lemma Start_wf first t : wf t → wf (Start first t).
Proof.
  intros Hwf. unfold Start. destruct (Running t) eqn:Hr; [done|].
  destruct Hwf as [H1 H2 H3 H4 H5 H6 H7 H8 H9].
  assert (Hover : ∀ g, over g t ↔ (g < length (loops t))%nat).
  { intros g. unfold over. rewrite Hr. naive_solver. }
  split; cbn; rewrite ?length_app; cbn; try done.
  - lia.
  - intros g. rewrite H4, Hover. unfold over. cbn. rewrite length_app. cbn. split; [lia|intros [? Hne]; specialize (Hne eq_refl); lia].
  - intros g. rewrite H5, Hover. unfold over. cbn. rewrite length_app. cbn. split; [lia|intros [? Hne]; specialize (Hne eq_refl); lia].
  - intros i l ch Hl Hs. apply lookup_app_Some in Hl as [Hl|[_ Hl]].
    + specialize (H6 _ _ _ Hl Hs). lia.
    + apply list_lookup_singleton_Some in Hl as [_ <-]. done.
  - intros e c He Hc. specialize (H7 _ _ He Hc). lia.
  - eapply Forall_impl; [exact H8|]. cbn. lia.
  - intros i l Hl. apply lookup_app_Some in Hl as [Hl|[Hge Hl]]; [by apply H9|].
    apply list_lookup_singleton_Some in Hl as [Hi <-]. cbn.
    unfold executionsOf. rewrite list_filter_none; [done|].
    intros e He. apply Forall_forall with (x := e) in H8; [|done]. lia.
Qed.

(** [safeStop] never panics. *)
Lemma safeStop_spec t :
  wf t → ∃ t', safeStop t = Some t' ∧ wf t' ∧ Running t' = false
    ∧ loops t' = loops t ∧ executions t' = executions t ∧ Stop t' = Stop t ∧ cancelled t ⊆ cancelled t'.
Proof.
  intros Hwf. unfold safeStop. destruct (Running t) eqn:Hr; [|by exists t].
  pose proof Hwf as [H1 H2 H3 H4 H5 H6 H7 H8 H9].
  rewrite decide_False. 2: { rewrite H4. intros [_ Hne]. by apply Hne. }
  rewrite (H3 Hr). eexists. split; [done|]. split_and!; try done; [|set_solver].
  assert (Hset : ∀ (X : gset nat) (Y : gset nat) g, (∀ g, g ∈ X ↔ over g t) →
    Y = {[Stop t]} ∪ X → g ∈ Y ↔ (g < length (loops t))%nat).
  { intros X Y g HX ->. rewrite elem_of_union, elem_of_singleton, HX. unfold over.
    specialize (H1 (or_introl Hr)).
    split; [intros [->|[? _]]; lia|]. intros Hg. destruct (decide (g = Stop t)) as [|Hne]; [by left|right; done]. }
  split; cbn; try done.
  - intros _. apply H1. by left.
  - intros g. rewrite (Hset (closed t) _ g H4 eq_refl). unfold over. cbn. naive_solver.
  - intros g. rewrite (Hset (cancelled t) _ g H5); [|by rewrite H2]. unfold over. cbn. naive_solver.
Qed.

Lemma withLoops_wf t ls es :
  wf t → length ls = length (loops t) →
  (∀ i l ch, ls !! i = Some l → state l = Waiting ch → (ch < length (loops t))%nat) →
  (∀ e, e ∈ es → (ex_loop e < length (loops t))%nat
                 ∧ ∀ c, ex_ctx e = Some c → (c < length (loops t))%nat) →
  (∀ i l, ls !! i = Some l → executionsOf i es = if execToken l then 0%nat else 1%nat) →
  wf (withLoops ls es t).
Proof.
  intros [H1 H2 H3 H4 H5 H6 H7 H8 H9] Hlen Hw He Ht.
  split; cbn; unfold over; cbn; rewrite ?Hlen; try done.
  - intros [Hr|Hne]; apply H1; [by left|right]. intros Hnil. rewrite Hnil in Hlen. by apply Hne, nil_length_inv.
  - intros e c Hin. by apply He.
  - apply Forall_forall. intros e Hin. by apply He.
Qed.

Lemma withStartedAt_wf s t : wf t → wf (withStartedAt s t).
Proof. by intros []. Qed.

Lemma wf_execution t e :
  wf t → e ∈ executions t →
  (ex_loop e < length (loops t))%nat ∧ ∀ c, ex_ctx e = Some c → (c < length (loops t))%nat.
Proof.
  intros Hwf He. split; [|intros c; by apply (wf_contexts _ Hwf)].
  pose proof (wf_loops _ Hwf) as Hl. rewrite Forall_forall in Hl. by apply Hl.
Qed.

Lemma wf_nonempty t i l : wf t → loops t !! i = Some l → (Stop t < length (loops t))%nat.
Proof. intros Hwf Hl. apply (wf_stop _ Hwf). right. intros He. by rewrite He in Hl. Qed.

Lemma run_spec i t :
  wf t → wf (run i t) ∧ length (loops (run i t)) = length (loops t) ∧ Stop (run i t) = Stop t
    ∧ (Stop t ∈ closed t → run i t = t).
Proof.
  intros Hwf. unfold run. destruct (loops t !! i) as [l|] eqn:Hl; [|done].
  case_decide as Hc; [done|]. destruct (execToken l) eqn:Htok; [|done].
  split_and!; [|cbn; apply length_insert|done|done].
  apply withLoops_wf; [done|apply length_insert| | |].
  - intros i' l' ch. rewrite list_lookup_insert_Some. intros [(_ & <- & _)|[_ Hl']]; [|by apply (wf_waiting _ Hwf _ _ _ Hl')].
    by apply (wf_waiting _ Hwf _ _ _ Hl).
  - intros e. rewrite elem_of_app, list_elem_of_singleton. intros [He| ->]; [by apply wf_execution|].
    cbn. split; [by eapply lookup_lt_Some|done].
  - intros i' l'. rewrite list_lookup_insert_Some, executionsOf_snoc. intros [(-> & <- & _)|[Hne Hl']].
    + rewrite decide_True by done. cbn. by rewrite (wf_token _ Hwf _ _ Hl), Htok.
    + rewrite decide_False by done. rewrite (wf_token _ Hwf _ _ Hl'). lia.
Qed.

Lemma wait_wf i t : wf t → wf (wait i t).
Proof.
  intros Hwf. unfold wait. apply withLoops_wf; [done|apply length_alter| | |].
  - intros i' l' ch. rewrite list_lookup_alter_Some. intros [(-> & l & Hl & ->)|[_ Hl]]; [|by apply (wf_waiting _ Hwf _ _ _ Hl)].
    intros [= <-]. by eapply wf_nonempty.
  - intros e. by apply wf_execution.
  - intros i' l'. rewrite list_lookup_alter_Some. intros [(-> & l & Hl & ->)|[_ Hl]]; by apply (wf_token _ Hwf _ _ Hl).
Qed.

Lemma begin_wf j now t : wf t → wf (begin j now t).
Proof.
  intros Hwf. unfold begin. destruct (executions t !! j) as [[i [c|]]|] eqn:Hj; [done| |done].
  pose proof (list_elem_of_lookup_2 _ _ _ Hj) as Hin. apply wf_execution in Hin as [Hi _]; [|done]. cbn in Hi.
  apply withLoops_wf; [by apply withStartedAt_wf|done|apply (wf_waiting _ Hwf)| |].
  - intros e He. apply list_elem_of_lookup in He as [k Hk]. apply list_lookup_insert_Some in Hk as [(_ & <- & _)|[_ Hk]].
    + cbn. split; [done|]. intros c [= <-]. rewrite (wf_ctx _ Hwf). apply (wf_stop _ Hwf). right.
      intros He. rewrite He in Hi. cbn in Hi. lia.
    + apply (wf_execution t); [done|by eapply list_elem_of_lookup_2].
  - intros i' l' Hl'. erewrite executionsOf_insert; [by apply (wf_token _ Hwf)|exact Hj|done].
Qed.

(** The end of an execution, once an error stopped the task. *)
Lemma release_wf i c j t :
  wf t → executions t !! j = Some (mkExecution i c) →
  wf (withLoops (alter (λ l, mkLoop true (state l)) i (loops t)) (delete j (executions t)) (withStartedAt None t)).
Proof.
  intros Hwf Hj. apply withLoops_wf; [by apply withStartedAt_wf|apply length_alter| | |].
  - intros i' l' ch. rewrite list_lookup_alter_Some. intros [(-> & l & Hl & ->)|[_ Hl]]; by apply (wf_waiting _ Hwf _ _ _ Hl).
  - intros e He. apply (wf_execution t); [done|]. by eapply elem_of_sublist; [|apply sublist_delete].
  - intros i' l' Hl'. pose proof (executionsOf_delete i' _ _ _ Hj) as Hdel. cbn in Hdel.
    apply list_lookup_alter_Some in Hl' as [(-> & l & Hl & ->)|[Hne Hl]].
    + rewrite (wf_token _ Hwf _ _ Hl) in Hdel. rewrite decide_True in Hdel by done. cbn. destruct (execToken l); lia.
    + rewrite (wf_token _ Hwf _ _ Hl) in Hdel. rewrite decide_False in Hdel by done. lia.
Qed.

Lemma returned_wf i t token ch :
  wf t → loops t !! i = Some (mkLoop token (Waiting ch)) →
  wf (withLoops (<[i := mkLoop token Returned]> (loops t)) (executions t) t).
Proof.
  intros Hwf Hl. apply withLoops_wf; [done|apply length_insert| | |].
  - intros i' l' ch'. rewrite list_lookup_insert_Some. intros [(_ & <- & _)|[_ Hl']]; [done|by apply (wf_waiting _ Hwf _ _ _ Hl')].
  - intros e. by apply wf_execution.
  - intros i' l'. rewrite list_lookup_insert_Some. intros [(-> & <- & _)|[_ Hl']]; [|by apply (wf_token _ Hwf _ _ Hl')].
    apply (wf_token _ Hwf _ _ Hl).
Qed.

Lemma step_wf e t : wf t → ∃ t', step e t = Some t' ∧ wf t'.
Proof.
  intros Hwf. destruct e as [first| |i|i|j now|j err expired|i]; cbn [step].
  - eexists. split; [done|by apply Start_wf].
  - destruct (safeStop_spec t Hwf) as (t' & H1 & H2 & _). by exists t'.
  - eexists. split; [done|]. unfold enter. destruct (loops t !! i) as [l|]; [|done]. cbn. destruct (state l) as [[]| |]; try done.
    + by apply wait_wf, run_spec.
    + by apply wait_wf.
  - eexists. split; [done|]. unfold tick. destruct (loops t !! i) as [l|]; [|done]. cbn. destruct (state l); try done.
    by apply wait_wf, run_spec.
  - eexists. split; [done|by apply begin_wf].
  - unfold finish. destruct (executions t !! j) as [[i [ctx|]]|] eqn:Hj; [|by exists t..].
    destruct (ExecuteWithTimeout _ _).
    + destruct (safeStop_spec t Hwf) as (t' & -> & H2 & _ & Hls & Hes & _). eexists. split; [done|].
      eapply release_wf; [done|]. rewrite Hes. exact Hj.
    + eexists. split; [done|]. by eapply release_wf.
  - unfold stopSeen. destruct (loops t !! i) as [[token [first|ch|]]|] eqn:Hl; try by exists t.
    case_decide as Hch; [|by exists t].
    destruct (safeStop_spec _ (returned_wf _ _ _ _ Hwf Hl)) as (t' & H1 & H2 & _). by exists t'.
Qed.

Lemma runEvents_app es es' t :
  runEvents (es ++ es') t = match runEvents es t with None => None | Some t => runEvents es' t end.
Proof. revert t. induction es as [|e es IH]; intros t; cbn; [done|]. destruct (step e t); [apply IH|done]. Qed.

Lemma run_wf es t : wf t → ∃ t', runEvents es t = Some t' ∧ wf t'.
Proof.
  revert t. induction es as [|e es IH]; intros t Hwf; cbn; [by exists t|].
  destruct (step_wf e t Hwf) as (t1 & -> & H1). by apply IH.
Qed.

(** C17. Whatever the interleaving of ticks, executions, [Start] and [Close], the
    task never panics (no channel is closed twice), and each [Start] has at most
    one execution at any time. *)
Theorem task_exclusive interval timeout es :
  ∃ t, runEvents es (newTask interval timeout) = Some t ∧ ∀ i, (executionsOf i (executions t) <= 1)%nat.
Proof.
  destruct (run_wf es _ (newTask_wf interval timeout)) as (t & Hr & Hwf). exists t. split; [done|].
  intros i. destruct (loops t !! i) as [l|] eqn:Hl.
  - rewrite (wf_token _ Hwf i l Hl). destruct (execToken l); lia.
  - unfold executionsOf. rewrite list_filter_none; [cbn; lia|]. intros e He Hi.
    apply (wf_execution t e Hwf) in He as [Hlt _]. apply lookup_ge_None in Hl. lia.
Qed.

Definition isStart (e : event) : bool := match e with EvStart _ => true | _ => false end.

(** ** After [Close] *)

(** Nothing is executed any more but what was under way. *)
Record quiet (n : nat) t : Prop := {
  qt_wf : wf t;
  qt_stopped : Running t = false;
  qt_bound : (length (executions t) <= n)%nat
}.

Lemma run_stopped i t : wf t → Running t = false → run i t = t.
Proof.
  intros Hwf Hr. unfold run. destruct (loops t !! i) as [l|] eqn:Hl; [|done].
  rewrite decide_True; [done|]. apply (wf_closed _ Hwf). split; [by eapply wf_nonempty|congruence].
Qed.

Lemma step_quiet n e t t' :
  quiet n t → isStart e = false → step e t = Some t' → quiet n t'.
Proof.
  intros [Hwf Hr Hn] He Hstep. destruct (step_wf e t Hwf) as (t1 & Hs1 & Hwf1). rewrite Hs1 in Hstep.
  injection Hstep as ->. split; [done| |]; revert Hs1; destruct e as [first| |i|i|j now|j err expired|i]; try done; cbn [step].
  - unfold Close, safeStop. rewrite Hr. by intros [= <-].
  - intros [= <-]. unfold enter. destruct (state <$> loops t !! i) as [[[]| |]|]; cbn; by rewrite ?run_stopped.
  - intros [= <-]. unfold tick. destruct (state <$> loops t !! i) as [[| |]|]; cbn; by rewrite ?run_stopped.
  - intros [= <-]. unfold begin. by destruct (executions t !! j) as [[? []]|].
  - unfold finish, safeStop. rewrite Hr. destruct (executions t !! j) as [[? []]|]; [|by intros [= <-]..].
    destruct (ExecuteWithTimeout _ _); by intros [= <-].
  - unfold stopSeen, safeStop. destruct (loops t !! i) as [[? []]|]; try by intros [= <-].
    case_decide; [|by intros [= <-]]. cbn. rewrite Hr. by intros [= <-].
  - unfold Close, safeStop. rewrite Hr. by intros [= <-].
  - intros [= <-]. unfold enter. destruct (state <$> loops t !! i) as [[[]| |]|]; cbn; by rewrite ?run_stopped.
  - intros [= <-]. unfold tick. destruct (state <$> loops t !! i) as [[| |]|]; cbn; by rewrite ?run_stopped.
  - intros [= <-]. unfold begin. destruct (executions t !! j) as [[? []]|]; [done| |done]. cbn. by rewrite length_insert.
  - unfold finish, safeStop. rewrite Hr. destruct (executions t !! j) as [[? []]|] eqn:Hj; [|by intros [= <-]..].
    pose proof (lookup_lt_Some _ _ _ Hj).
    destruct (ExecuteWithTimeout _ _); intros [= <-]; cbn; rewrite length_delete by done; lia.
  - unfold stopSeen, safeStop. destruct (loops t !! i) as [[? []]|]; try by intros [= <-].
    case_decide; [|by intros [= <-]]. cbn. rewrite Hr. by intros [= <-].
Qed.

Lemma steps_quiet n es t t' :
  quiet n t → forallb (λ e, negb (isStart e)) es = true → runEvents es t = Some t' → quiet n t'.
Proof.
  revert t. induction es as [|e es IH]; intros t Hq; cbn; [by intros _ [= <-]|].
  intros [He Hes]%andb_true_iff. destruct (step e t) as [t1|] eqn:Hs; [|done].
  apply IH; [|done]. eapply step_quiet; [done| |done]. by apply negb_true_iff.
Qed.

(** After [Close], until the next [Start]: the task is not running, no tick
    starts an execution, every execution has a cancelled context, so that
    whatever it returns is no error, and every waiting loop can return. *)
Theorem closed_quiet interval timeout es es' t t' :
  runEvents es (newTask interval timeout) = Some t →
  forallb (λ e, negb (isStart e)) es' = true →
  runEvents (EvClose :: es') t = Some t' →
  Running t' = false ∧ (length (executions t') <= length (executions t))%nat
  ∧ (∀ e c, e ∈ executions t' → ex_ctx e = Some c →
       c ∈ cancelled t' ∧ ∀ err expired, ExecuteWithTimeout err (ctxErr c expired t') = None)
  ∧ (∀ i l ch, loops t' !! i = Some l → state l = Waiting ch → ch ∈ closed t').
Proof.
  intros Hrun Hno Hclose. destruct (run_wf es _ (newTask_wf interval timeout)) as (t0 & Hr0 & Hwf).
  rewrite Hrun in Hr0. injection Hr0 as <-. cbn in Hclose. unfold Close in Hclose.
  destruct (safeStop_spec t Hwf) as (t1 & Hs & Hwf1 & Hr1 & _ & Hes & _). rewrite Hs in Hclose.
  assert (Hq : quiet (length (executions t)) t') by (eapply steps_quiet; [split; [done|done|by rewrite Hes]|done|done]).
  destruct Hq as [Hwf' Hr' Hn]. split_and!; [done|done| |].
  - intros e c He Hc. assert (Hin : c ∈ cancelled t').
    { apply (wf_cancelled _ Hwf'). split; [by eapply wf_contexts|congruence]. }
    split; [done|]. intros [e'|] expired; [|done]. unfold ctxErr. destruct expired; [done|]. by rewrite decide_True.
  - intros i l ch Hl Hs'. apply (wf_closed _ Hwf'). split; [by eapply wf_waiting|congruence].
Qed.

(** A loop of an earlier [Start] that still waits stops the task when it
    returns, although the task was started again. *)
Theorem restart_lost interval timeout es t i l ch :
  runEvents es (newTask interval timeout) = Some t →
  Running t = true → loops t !! i = Some l → state l = Waiting ch → ch ≠ Stop t →
  ∃ t', step (EvStopSeen i) t = Some t' ∧ Running t' = false ∧ Stop t' = Stop t ∧ Stop t' ∈ closed t'.
Proof.
  intros Hrun Hr Hl Hs Hne. destruct (run_wf es _ (newTask_wf interval timeout)) as (t0 & Hr0 & Hwf).
  rewrite Hrun in Hr0. injection Hr0 as <-. destruct l as [token st]. cbn in Hs. subst st.
  cbn [step]. unfold stopSeen. rewrite Hl.
  rewrite decide_True. 2: { apply (wf_closed _ Hwf). split; [by eapply wf_waiting|done]. }
  destruct (safeStop_spec _ (returned_wf _ _ _ _ Hwf Hl)) as (t' & -> & Hwf' & Hr' & Hls & _ & Hst & _).
  exists t'. split_and!; [done|done|done|]. apply (wf_closed _ Hwf'). unfold over. rewrite Hst, Hls. cbn.
  split; [|congruence]. rewrite length_insert. by eapply wf_nonempty.
Qed.

(** ** Examples *)

Module Examples.

(** A task that is closed while it executes. *)
Definition exampleEvents : list event := [EvStart true; EvEnter 0; EvBegin 0 5; EvTick 0].

Example exampleRun :
  match runEvents exampleEvents (newTask 60 0) with
  | Some t => executions t = [mkExecution 0 (Some 0%nat)] ∧ Running t = true
  | None => False
  end.
Proof. vm_compute. split; reflexivity. Qed.

Definition closeEvents : list event := [EvClose; EvTick 0; EvFinish 0 None false].

Lemma closed_quiet_witness :
  match runEvents (exampleEvents ++ closeEvents) (newTask 60 0) with
  | Some t' => Running t' = false
  | None => False
  end.
Proof.
  rewrite runEvents_app.
  destruct (run_wf exampleEvents (newTask 60 0) (newTask_wf 60 0)) as (t & E1 & Hwf). rewrite E1.
  destruct (run_wf closeEvents t Hwf) as (t' & E2 & _). rewrite E2.
  exact (proj1 (closed_quiet 60 0 exampleEvents [EvTick 0; EvFinish 0 None false] t t' E1 eq_refl E2)).
Defined.

(** [Start], [Close] and [Start] before the first loop has returned. *)
Definition restartEvents : list event := [EvStart false; EvEnter 0; EvClose; EvStart false].

Lemma restart_lost_witness :
  match runEvents restartEvents (newTask 60 0) with
  | Some t => ∃ t', step (EvStopSeen 0) t = Some t' ∧ Running t' = false
  | None => False
  end.
Proof.
  assert (Hc : match runEvents restartEvents (newTask 60 0) with
               | Some t => Running t && bool_decide (Stop t = 1%nat)
                   && match loops t !! 0%nat with Some (mkLoop _ (Waiting 0)) => true | _ => false end
               | None => false
               end = true) by (vm_compute; reflexivity).
  destruct (runEvents restartEvents (newTask 60 0)) as [t|] eqn:E1; [|discriminate Hc].
  apply andb_true_iff in Hc as [[Hr Hst%bool_decide_eq_true]%andb_true_iff Hl].
  destruct (loops t !! 0%nat) as [[token [|[|]|]]|] eqn:E2; try discriminate Hl.
  destruct (restart_lost 60 0 restartEvents t 0 (mkLoop token (Waiting 0)) 0 E1 Hr E2 eq_refl) as (t' & H1 & H2 & _).
  - rewrite Hst. discriminate.
  - by exists t'.
Defined.

End Examples.
End TaskProps.
