(* ===== verification/Links.v ===== *)
(** * Open links of the users (core/app/dispatcher/linkmanager.go)

    Every connection of a user registers its writer (wrapped in a
    [ManagedWriter]) and its reader with the user's [LinkManager], so that
    deleting the user can close them. Managers and managed writers are shared
    by pointer and live in a [World]; the underlying writers and readers
    ([buf.Writer], [buf.Reader]) are Xray's and appear as identifiers whose
    closing and interruption is recorded. *)

From S2P Require Import Prelude.

Module Links.

Record ManagedWriter := mkManagedWriter { writer : nat; manager : nat }.

Record World := mkWorld {
  managed : gmap nat ManagedWriter;       (* the ManagedWriters, by address *)
  managers : gmap nat (gmap nat nat);     (* the [links] of the LinkManagers, by address:
                                             address of a ManagedWriter to reader *)
  closed : list nat;                      (* the underlying writers closed, latest first *)
  interrupted : list nat                  (* the readers interrupted, latest first *)
}.

Definition emptyWorld : World := mkWorld ∅ ∅ [] [].

Definition links (m : nat) (w : World) : gmap nat nat := default ∅ (managers w !! m).

Definition withManagers ms (w : World) : World := mkWorld (managed w) ms (closed w) (interrupted w).

Definition withLinks (m : nat) (l : gmap nat nat) (w : World) : World :=
  withManagers (<[m := l]> (managers w)) w.

(** A new [LinkManager] and a new [ManagedWriter]. *)
Definition newLinkManager (w : World) : nat * World :=
  let m := fresh (dom (managers w)) in (m, withLinks m ∅ w).

Definition newManagedWriter (mw : ManagedWriter) (w : World) : nat * World :=
  let a := fresh (dom (managed w)) in
  (a, mkWorld (<[a := mw]> (managed w)) (managers w) (closed w) (interrupted w)).

Definition AddLink (m : nat) (wr reader : nat) (w : World) : World :=
  withLinks m (<[wr := reader]> (links m w)) w.

Definition RemoveWriter (m : nat) (wr : nat) (w : World) : World :=
  withLinks m (delete wr (links m w)) w.

(** [common.Close] of an underlying writer and [common.Interrupt] of a reader. *)
Definition closeWriter (x : nat) (w : World) : World :=
  mkWorld (managed w) (managers w) (x :: closed w) (interrupted w).

Definition interruptReader (x : nat) (w : World) : World :=
  mkWorld (managed w) (managers w) (closed w) (x :: interrupted w).

(** [ManagedWriter.Close] *)
Definition Close (a : nat) (w : World) : World :=
  match managed w !! a with
  | Some mw => closeWriter (writer mw) (RemoveWriter (manager mw) a w)
  | None => w
  end.

Definition closeLink (w : World) (link : nat * nat) : World :=
  interruptReader link.2 (Close link.1 w).

Section closeAll.
Context {RO : RangeOrder nat}.

(** [LinkManager.CloseAll]: the loop takes the links out of the manager and
    closes them, until it finds none. [arrivals] are the links that other
    goroutines add (by [AddLink]) while the links of one round are being
    closed, one list per round; after the last of them nothing is added, and
    the round that follows empties the manager for good. *)
Fixpoint CloseAll (arrivals : list (list (nat * nat))) (m : nat) (w : World) : World :=
  if bool_decide (links m w = ∅) then w
  else
    let taken := links m w in
    let w := withLinks m ∅ w in
    match arrivals with
    | [] => foldl closeLink w (range_list taken)
    | round :: arrivals =>
        let w := foldl (λ w link, AddLink m link.1 link.2 w) w round in
        CloseAll arrivals m (foldl closeLink w (range_list taken))
    end.
End closeAll.

(** ** What closing does *)

Implicit Types w : World.

(** What is closed or interrupted stays so, links only disappear, and the
    managed writers stay what they are. *)
Definition closesMore w w' : Prop :=
  managed w' = managed w
  ∧ (∀ x, x ∈ closed w → x ∈ closed w')
  ∧ (∀ x, x ∈ interrupted w → x ∈ interrupted w').

(** The two ends of a link are shut. *)
Definition linkClosed (a r : nat) w : Prop :=
  r ∈ interrupted w ∧ ∀ mw, managed w !! a = Some mw → writer mw ∈ closed w.

#[global] Instance closesMore_preorder : PreOrder closesMore.
Proof.
  split.
  - intros w. by repeat split.
  - intros w1 w2 w3 (H1 & H2 & H3) (H4 & H5 & H6). split_and!; [congruence|auto|auto].
Qed.

Lemma linkClosed_more a r w w' : closesMore w w' → linkClosed a r w → linkClosed a r w'.
Proof. intros (Hm & Hc & Hi) [? ?]. split; [auto|]. rewrite Hm. auto. Qed.

Lemma links_withLinks m m' l w : links m' (withLinks m l w) = if decide (m' = m) then l else links m' w.
Proof.
  unfold links, withLinks. simpl. case_decide as H; [subst; by rewrite lookup_insert_eq|].
  by rewrite lookup_insert_ne.
Qed.

Lemma closeLink_spec w a r :
  closesMore w (closeLink w (a, r)) ∧ linkClosed a r (closeLink w (a, r))
  ∧ ∀ m, links m (closeLink w (a, r)) ⊆ links m w.
Proof.
  unfold closeLink, Close. cbn [fst snd]. destruct (managed w !! a) as [mw|] eqn:Hmw.
  - split_and!.
    + split; [done|]. split; simpl; intros y; rewrite ?elem_of_cons; auto.
    + split; simpl; [set_solver|]. intros mw' Hmw'. rewrite Hmw in Hmw'. injection Hmw' as <-. set_solver.
    + intros m. change (links m (RemoveWriter (manager mw) a w) ⊆ links m w).
      unfold RemoveWriter. rewrite links_withLinks. case_decide as H; [subst|done]. apply delete_subseteq.
  - split_and!; [split; [done|]; split; simpl; intros y; rewrite ?elem_of_cons; auto| |done].
    split; simpl; [set_solver|]. congruence.
Qed.

Lemma closeLinks_spec (ls : list (nat * nat)) w :
  let w' := foldl closeLink w ls in
  closesMore w w' ∧ (∀ a r, (a, r) ∈ ls → linkClosed a r w') ∧ ∀ m, links m w' ⊆ links m w.
Proof.
  revert w. induction ls as [|[a r] ls IH]; intros w; cbn [foldl].
  - split_and!; [done| |done]. intros a r Hin. by apply elem_of_nil in Hin.
  - destruct (closeLink_spec w a r) as (H1 & H2 & H3). destruct (IH (closeLink w (a, r))) as (H4 & H5 & H6).
    split_and!.
    + etrans; [exact H1 | exact H4].
    + intros a' r' [[= -> ->]|Hin]%elem_of_cons; [eapply linkClosed_more; [exact H4 | exact H2] | auto].
    + intros m. etrans; [apply H6 | apply H3].
Qed.

Lemma addLinks_frame m (round : list (nat * nat)) w :
  let w' := foldl (λ w link, AddLink m link.1 link.2 w) w round in
  closesMore w w' ∧ ∀ m', m' ≠ m → links m' w' = links m' w.
Proof.
  revert w. induction round as [|[a r] round IH]; intros w; cbn [foldl]; [by split|].
  destruct (IH (AddLink m a r w)) as (Hc & Hl). split.
  - by etrans; [|exact Hc].
  - intros m' Hne. rewrite Hl by done. unfold AddLink. rewrite links_withLinks. by case_decide.
Qed.

(** [CloseAll] leaves the manager without links, with both ends of every link
    it held shut, whatever other goroutines add meanwhile. *)
Lemma CloseAll_spec {RO : RangeOrder nat} arrivals m w :
  let w' := CloseAll arrivals m w in
  links m w' = ∅ ∧ closesMore w w'
  ∧ (∀ a r, links m w !! a = Some r → linkClosed a r w')
  ∧ ∀ m', m' ≠ m → links m' w' ⊆ links m' w.
Proof.
  revert w. induction arrivals as [|round arrivals IH]; intros w; cbn [CloseAll].
  - case_bool_decide as He; [split_and!; try done; by intros a r; rewrite He, lookup_empty|].
    destruct (closeLinks_spec (range_list (links m w)) (withLinks m ∅ w)) as (H1 & H2 & H3).
    split_and!.
    + apply map_empty. intros i. specialize (H3 m). rewrite links_withLinks, decide_True in H3 by done.
      destruct (_ !! i) as [x|] eqn:Hx; [|done]. eapply lookup_weaken in H3; [|exact Hx]. by rewrite lookup_empty in H3.
    + by etrans; [|exact H1].
    + intros a r Hr. apply H2. by apply elem_of_range_list.
    + intros m' Hne. specialize (H3 m'). rewrite links_withLinks, decide_False in H3 by done. done.
  - case_bool_decide as He; [split_and!; try done; by intros a r; rewrite He, lookup_empty|].
    set (w1 := foldl (λ w link, AddLink m link.1 link.2 w) (withLinks m ∅ w) round).
    destruct (addLinks_frame m round (withLinks m ∅ w)) as (Ha & Hb). fold w1 in Ha, Hb.
    destruct (closeLinks_spec (range_list (links m w)) w1) as (H1 & H2 & H3).
    destruct (IH (foldl closeLink w1 (range_list (links m w)))) as (I1 & I2 & I3 & I4).
    split_and!; [done| | |].
    + etrans; [|exact I2]. etrans; [|exact H1]. by etrans; [|exact Ha].
    + intros a r Hr. eapply linkClosed_more; [exact I2|]. apply H2. by apply elem_of_range_list.
    + intros m' Hne. etrans; [by apply I4|]. etrans; [apply H3|]. rewrite Hb by done.
      rewrite links_withLinks, decide_False by done. done.
Qed.

(** A managed writer belongs to the manager [m]. *)
Definition managedBy (m a : nat) w : Prop := ∃ mw, managed w !! a = Some mw ∧ manager mw = m.

Lemma closeLinks_frame m (ls : list (nat * nat)) w :
  (∀ a r, (a, r) ∈ ls → managedBy m a w) →
  ∀ m', m' ≠ m → links m' (foldl closeLink w ls) = links m' w.
Proof.
  revert w. induction ls as [|[a r] ls IH]; intros w Hby m' Hne; cbn [foldl]; [done|].
  destruct (Hby a r ltac:(left)) as (mw & Hmw & <-).
  rewrite IH; [|intros a' r' Hin|done].
  - unfold closeLink, Close. cbn [fst snd]. rewrite Hmw.
    change (links m' (RemoveWriter (manager mw) a w) = links m' w).
    unfold RemoveWriter. rewrite links_withLinks. by case_decide.
  - destruct (closeLink_spec w a r) as ((Hm & _) & _).
    destruct (Hby a' r' ltac:(by right)) as (mw' & ? & ?). exists mw'. by rewrite Hm.
Qed.

(** Under this discipline the links of other managers are untouched. *)
Lemma CloseAll_frame {RO : RangeOrder nat} arrivals m w :
  (∀ a r, links m w !! a = Some r → managedBy m a w) →
  (∀ round a r, round ∈ arrivals → (a, r) ∈ round → managedBy m a w) →
  ∀ m', m' ≠ m → links m' (CloseAll arrivals m w) = links m' w.
Proof.
  revert w. induction arrivals as [|round arrivals IH]; intros w Hl Ha m' Hne; cbn [CloseAll];
    (case_bool_decide; [done|]).
  - rewrite (closeLinks_frame m); [|intros a r Hin%elem_of_range_list; by eapply Hl|done].
    rewrite links_withLinks. by rewrite decide_False.
  - set (w1 := foldl (λ w link, AddLink m link.1 link.2 w) (withLinks m ∅ w) round).
    destruct (addLinks_frame m round (withLinks m ∅ w)) as ((Hm1 & _) & Hf1). fold w1 in Hm1, Hf1.
    set (w2 := foldl closeLink w1 (range_list (links m w))).
    destruct (closeLinks_spec (range_list (links m w)) w1) as ((Hm2 & _) & _ & Hs2). fold w2 in Hm2, Hs2.
    assert (Hby : ∀ a, managedBy m a w → managedBy m a w2).
    { intros a (mw & ? & ?). exists mw. by rewrite Hm2, Hm1. }
    assert (Hby1 : ∀ a, managedBy m a w → managedBy m a w1).
    { intros a (mw & ? & ?). exists mw. by rewrite Hm1. }
    rewrite IH; [| |intros round' a r Hr Hin; eapply Hby, Ha; [by right|done] | done].
    + unfold w2. rewrite (closeLinks_frame m); [|intros a r Hin%elem_of_range_list; by eapply Hby1, Hl|done].
      rewrite Hf1 by done. rewrite links_withLinks. by rewrite decide_False.
    + intros a r Hr. apply Hby. specialize (Hs2 m). eapply lookup_weaken in Hs2; [|exact Hr].
      clear Hr. assert (Hround : ∀ l w0, links m (foldl (λ w link, AddLink m link.1 link.2 w) w0 l) !! a = Some r →
        (a, r) ∈ l ∨ links m w0 !! a = Some r).
      { clear. intros l. induction l as [|[b s] l IH]; intros w0; cbn [foldl]; [by right|].
        intros [Hin|Hin]%IH; [left; by right|]. unfold AddLink in Hin. cbn [fst snd] in Hin. rewrite links_withLinks, decide_True in Hin by done.
        apply lookup_insert_Some in Hin as [[-> ->]|[_ Hin]]; [left; by left|by right]. }
      apply Hround in Hs2 as [Hin|Hin]; [by eapply Ha; [left|]|].
      rewrite links_withLinks, decide_True, lookup_empty in Hin by done. done.
Qed.

End Links.
