(* ===== verification/Traffic.v ===== *)
(** * Per-user traffic counters

    common/counter/traffic.go, common/counter/xraytraffic.go and the part of
    core/user.go that collects the counters for a report
    ([GetUserTrafficSlice] and its rollback function).

    A [TrafficStorage] is shared by pointer: the counter map, the writers and
    readers of open connections ([XrayTrafficCounter], [CounterReader]) and
    the rollback items of a report all refer to the same two atomic counters.
    Storages therefore live in a [Store], and the map holds their addresses. *)

From S2P Require Import Prelude GoStrings Panel.

Module Traffic.

(** ** Storages and counters *)

Record TrafficStorage := mkTrafficStorage { UpCounter : Z; DownCounter : Z }.

#[global] Instance TrafficStorage_eq_dec : EqDecision TrafficStorage.
Proof. solve_decision. Defined.

(** The allocated storages; addresses below [next] are in use. *)
Record Store := mkStore { cells : gmap nat TrafficStorage; next : nat }.

Definition emptyStore : Store := mkStore ∅ 0.

Definition zeroStorage : TrafficStorage := mkTrafficStorage 0 0.

Definition loadStorage (p : nat) (st : Store) : TrafficStorage :=
  default zeroStorage (cells st !! p).

Definition setStorage (p : nat) (t : TrafficStorage) (st : Store) : Store :=
  mkStore (<[p := t]> (cells st)) (next st).

(** [&TrafficStorage{}] *)
Definition newStorage (st : Store) : nat * Store :=
  (next st, mkStore (<[next st := zeroStorage]> (cells st)) (S (next st))).

(** The two [atomic.Int64] fields of a storage and the operations on them. *)
Inductive Field := Up | Down.

#[global] Instance Field_eq_dec : EqDecision Field.
Proof. solve_decision. Defined.

Definition getField (f : Field) (t : TrafficStorage) : Z :=
  match f with Up => UpCounter t | Down => DownCounter t end.

Definition setField (f : Field) (v : Z) (t : TrafficStorage) : TrafficStorage :=
  match f with
  | Up => mkTrafficStorage v (DownCounter t)
  | Down => mkTrafficStorage (UpCounter t) v
  end.

Definition atomicLoad (p : nat) (f : Field) (st : Store) : Z := getField f (loadStorage p st).

Definition atomicStore (p : nat) (f : Field) (v : Z) (st : Store) : Store :=
  setStorage p (setField f v (loadStorage p st)) st.

Definition atomicAdd (p : nat) (f : Field) (delta : Z) (st : Store) : Z * Store :=
  let v := wrap64 (atomicLoad p f st + delta) in (v, atomicStore p f v st).

Definition atomicSwap (p : nat) (f : Field) (v : Z) (st : Store) : Z * Store :=
  (atomicLoad p f st, atomicStore p f v st).

(** [TrafficCounter]: the [Counters] map from user keys to storages. *)
Abbreviation TrafficCounter := (gmap string nat).

Definition NewTrafficCounter : TrafficCounter := ∅.

Definition GetCounter (uuid : string) (c : TrafficCounter) (st : Store)
    : nat * TrafficCounter * Store :=
  match c !! uuid with
  | Some p => (p, c, st)
  | None => let '(p, st) := newStorage st in (p, <[uuid := p]> c, st)
  end.

Definition GetUpCount (uuid : string) (c : TrafficCounter) (st : Store) : Z :=
  match c !! uuid with
  | Some p => atomicLoad p Up st
  | None => 0
  end.

Definition GetDownCount (uuid : string) (c : TrafficCounter) (st : Store) : Z :=
  match c !! uuid with
  | Some p => atomicLoad p Down st
  | None => 0
  end.

Definition Len (c : TrafficCounter) : Z := Z.of_nat (size c).

Definition Reset (uuid : string) (c : TrafficCounter) (st : Store) : Store :=
  match c !! uuid with
  | Some p => atomicStore p Down 0 (atomicStore p Up 0 st)
  | None => st
  end.

Definition Delete (uuid : string) (c : TrafficCounter) : TrafficCounter := delete uuid c.

Definition Rx (uuid : string) (n : Z) (c : TrafficCounter) (st : Store) : TrafficCounter * Store :=
  let '(p, c, st) := GetCounter uuid c st in
  (c, (atomicAdd p Down n st).2).

Definition Tx (uuid : string) (n : Z) (c : TrafficCounter) (st : Store) : TrafficCounter * Store :=
  let '(p, c, st) := GetCounter uuid c st in
  (c, (atomicAdd p Up n st).2).

(** [XrayTrafficCounter]: a pointer to one of the counters. *)
Record XrayTrafficCounter := mkXrayTrafficCounter { V_storage : nat; V_field : Field }.

Definition Value (x : XrayTrafficCounter) (st : Store) : Z :=
  atomicLoad (V_storage x) (V_field x) st.

Definition Set_ (x : XrayTrafficCounter) (newValue : Z) (st : Store) : Z * Store :=
  atomicSwap (V_storage x) (V_field x) newValue st.

Definition Add (x : XrayTrafficCounter) (delta : Z) (st : Store) : Z * Store :=
  atomicAdd (V_storage x) (V_field x) delta st.

(** Bytes that a connection counts for a user. *)
Record count := mkCount { c_field : Field; c_key : string; c_bytes : Z }.

Definition countOn (n : count) (c : TrafficCounter) (st : Store) : TrafficCounter * Store :=
  match c_field n with
  | Up => Tx (c_key n) (c_bytes n) c st
  | Down => Rx (c_key n) (c_bytes n) c st
  end.

(** ** Collecting a report (core/user.go) *)

Record trafficRollbackItem := mkRollbackItem { storage : nat; up : Z; down : Z }.

(** The state of the loop over the counters. *)
Record sliceState := mkSliceState {
  ss_traffic : list Panel.UserTraffic;
  ss_rollback : list trafficRollbackItem;
  ss_counter : TrafficCounter;
  ss_store : Store
}.

(** Bytes that open connections count for a user while the loop is between
    its test of the user's counters and the two swaps. *)
Definition Arrivals : Type := string → Z * Z.

Definition arrive (race : Arrivals) (email : string) (p : nat) (st : Store) : Store :=
  (atomicAdd p Down (race email).2 (atomicAdd p Up (race email).1 st).2).2.

(** One iteration: the counters are tested, [race] bytes arrive, and the
    counters are swapped for 0 if the test succeeded. *)
Definition sliceEntry (uidMap : gmap string Z) (race : Arrivals) (mintraffic : Z)
    (s : sliceState) (entry : string * nat) : sliceState :=
  let '(email, p) := entry in
  let st := ss_store s in
  let up := atomicLoad p Up st in
  let down := atomicLoad p Down st in
  let st := arrive race email p st in
  if wrap64 (mintraffic * 1000) <? wrap64 (up + down) then
    let '(up, st) := atomicSwap p Up 0 st in
    let '(down, st) := atomicSwap p Down 0 st in
    let uid := default 0 (uidMap !! email) in
    if uid =? 0 then
      mkSliceState (ss_traffic s) (ss_rollback s) (Delete email (ss_counter s)) st
    else
      mkSliceState (ss_traffic s ++ [Panel.mkUserTraffic uid up down])
        (ss_rollback s ++ [mkRollbackItem p up down]) (ss_counter s) st
  else mkSliceState (ss_traffic s) (ss_rollback s) (ss_counter s) st.

Section slice.
Context {RO : RangeOrder string}.

(** [GetUserTrafficSlice] on the counter of a tag: the loop of the function. *)
Definition trafficSlice (uidMap : gmap string Z) (race : Arrivals) (mintraffic : Z)
    (c : TrafficCounter) (st : Store) : sliceState :=
  foldl (sliceEntry uidMap race mintraffic) (mkSliceState [] [] c st) (range_list c).
End slice.

(** The function that [GetUserTrafficSlice] returns to undo the collection. *)
Definition rollbackItem (st : Store) (item : trafficRollbackItem) : Store :=
  let st := if up item =? 0 then st else (atomicAdd (storage item) Up (up item) st).2 in
  if down item =? 0 then st else (atomicAdd (storage item) Down (down item) st).2.

Definition rollback (items : list trafficRollbackItem) (st : Store) : Store :=
  foldl rollbackItem st items.

End Traffic.
