(* ===== verification/TrafficProps.v ===== *)
(** * Properties of the traffic counters

    What a report contains and what it leaves in the counters
    ([GetUserTrafficSlice_exact]), and the accounting of a user's bytes over
    any sequence of connections and reports ([traffic_accounting]). *)

From S2P Require Import Prelude GoStrings Panel Traffic.

Module TrafficProps.
Import Traffic.

(** Addresses in the map are allocated and belong to one key each. *)
Definition wfCounter (c : TrafficCounter) (st : Store) : Prop :=
  (∀ e p, c !! e = Some p → (p < next st)%nat)
  ∧ (∀ e e' p, c !! e = Some p → c !! e' = Some p → e = e').

(** The bytes of [race] in one direction. *)
Definition raceBytes (race : Arrivals) (f : Field) (e : string) : Z :=
  match f with Up => (race e).1 | Down => (race e).2 end.

Definition itemBytes (f : Field) (i : trafficRollbackItem) : Z :=
  match f with Up => up i | Down => down i end.

Definition trafficBytes (f : Field) (t : Panel.UserTraffic) : Z :=
  match f with Up => Panel.Upload t | Down => Panel.Download t end.

(** The bytes in the rollback items of a storage. *)
Definition itemsTotal (q : nat) (f : Field) (items : list trafficRollbackItem) : Z :=
  foldr (λ i acc, (if decide (storage i = q) then itemBytes f i else 0) + acc) 0 items.

(** The bytes reported for a user id. *)
Definition reportedTotal (uid : Z) (f : Field) (l : list Panel.UserTraffic) : Z :=
  foldr (λ t acc, (if decide (Panel.ut_UID t = uid) then trafficBytes f t else 0) + acc) 0 l.

(** What the map holds for a user. *)
Definition currentBytes (e : string) (f : Field) (c : TrafficCounter) (st : Store) : Z :=
  match f with Up => GetUpCount e c st | Down => GetDownCount e c st end.

(** ** The life of a tag's counters

    Connections count bytes; the report task collects the counters, reports
    them, and rolls the collection back when the panel did not accept it.
    Connections go on counting while the report is under way. *)
Inductive trafficOp :=
| Count (n : count)
| Report (mintraffic : Z) (race : Arrivals) (during : list count) (accepted : bool).

Record Ledger := mkLedger {
  lg_counter : TrafficCounter;
  lg_store : Store;
  lg_accepted : list Panel.UserTraffic;    (* what the panel accepted *)
  lg_counted : string → Field → Z          (* what connections counted *)
}.

Definition emptyLedger : Ledger := mkLedger NewTrafficCounter emptyStore [] (λ _ _, 0).

Definition addCounted (e : string) (f : Field) (n : Z) (g : string → Field → Z) :=
  λ e' f', g e' f' + (if decide (e' = e ∧ f' = f) then n else 0).

Definition runCount (l : Ledger) (n : count) : Ledger :=
  let '(c, st) := countOn n (lg_counter l) (lg_store l) in
  mkLedger c st (lg_accepted l) (addCounted (c_key n) (c_field n) (c_bytes n) (lg_counted l)).

Section run.
Context {RO : RangeOrder string}.

Definition runOp (uidMap : gmap string Z) (l : Ledger) (op : trafficOp) : Ledger :=
  match op with
  | Count n => runCount l n
  | Report mintraffic race during accepted =>
      let s := trafficSlice uidMap race mintraffic (lg_counter l) (lg_store l) in
      let counted e f :=
        lg_counted l e f + (if lg_counter l !! e is Some _ then raceBytes race f e else 0) in
      let l := foldl runCount (mkLedger (ss_counter s) (ss_store s) (lg_accepted l) counted) during in
      if accepted then
        mkLedger (lg_counter l) (lg_store l) (lg_accepted l ++ ss_traffic s) (lg_counted l)
      else
        mkLedger (lg_counter l) (rollback (ss_rollback s) (lg_store l)) (lg_accepted l) (lg_counted l)
  end.
End run.

(** ** Storages *)

Section lemmas.
Implicit Types (st : Store) (c : TrafficCounter) (f g : Field) (p q : nat).

Lemma loadStorage_set p q t st :
  loadStorage q (setStorage p t st) = if decide (q = p) then t else loadStorage q st.
Proof.
  unfold loadStorage, setStorage. simpl. case_decide as H.
  - subst. by rewrite lookup_insert_eq.
  - by rewrite lookup_insert_ne by congruence.
Qed.

Lemma atomicLoad_store p q f g v st :
  atomicLoad q g (atomicStore p f v st)
  = if decide (q = p ∧ g = f) then v else atomicLoad q g st.
Proof.
  unfold atomicLoad, atomicStore. rewrite loadStorage_set.
  destruct (decide (q = p)) as [->|Hne], (decide (_ ∧ g = f)) as [[? Hf]|Hf]; subst; try tauto.
  - by destruct f.
  - by destruct f, g; simpl; try (exfalso; apply Hf; done).
Qed.

Lemma atomicLoad_add p q f g d st :
  wrap64 (atomicLoad q g (atomicAdd p f d st).2)
  = wrap64 (atomicLoad q g st + (if decide (q = p ∧ g = f) then d else 0)).
Proof.
  unfold atomicAdd. simpl. rewrite atomicLoad_store. case_decide as H.
  - destruct H as [-> ->]. by rewrite wrap64_wrap64.
  - by rewrite Z.add_0_r.
Qed.

Lemma next_atomicAdd p f d st : next (atomicAdd p f d st).2 = next st.
Proof. done. Qed.

(** ** Counting bytes *)

Lemma GetCounter_wf e c st p c' st' :
  wfCounter c st → GetCounter e c st = (p, c', st') →
  wfCounter c' st' ∧ c' !! e = Some p
  ∧ (∀ e', e' ≠ e → c' !! e' = c !! e') ∧ (next st <= next st')%nat
  ∧ (∀ e' q, c !! e' = Some q → c' !! e' = Some q)
  ∧ (∀ q, (q < next st)%nat → loadStorage q st' = loadStorage q st)
  ∧ (c !! e = None → p = next st ∧ loadStorage p st' = zeroStorage).
Proof.
  intros [Hlt Hinj]. unfold GetCounter. destruct (c !! e) as [q|] eqn:He.
  - intros [= <- <- <-]. by repeat split; eauto.
  - unfold newStorage. intros [= <- <- <-]. split_and!.
    + split.
      * intros e' p'. destruct (decide (e' = e)) as [->|].
        -- rewrite lookup_insert_eq. intros [= <-]. simpl. lia.
        -- rewrite lookup_insert_ne by done. intros Hp%Hlt. simpl. lia.
      * intros e1 e2 p'. destruct (decide (e1 = e)) as [->|], (decide (e2 = e)) as [->|];
          rewrite ?lookup_insert_eq, ?lookup_insert_ne by done; try done; [| |by apply Hinj].
        -- intros [= <-] Hp%Hlt. lia.
        -- intros Hp%Hlt [= <-]. lia.
    + apply lookup_insert_eq.
    + intros e' ?. by rewrite lookup_insert_ne.
    + simpl. lia.
    + intros e' q Hq. rewrite lookup_insert_ne by congruence. done.
    + intros q Hq. unfold loadStorage. simpl. by rewrite lookup_insert_ne by lia.
    + intros _. split; [done|]. unfold loadStorage. simpl. by rewrite lookup_insert_eq.
Qed.

(** The storage of a key, or the one it would get. *)
Lemma currentBytes_load e p f c st :
  c !! e = Some p → currentBytes e f c st = atomicLoad p f st.
Proof. intros He. unfold currentBytes, GetUpCount, GetDownCount. rewrite He. by destruct f. Qed.

Lemma currentBytes_none e f c st : c !! e = None → currentBytes e f c st = 0.
Proof. intros He. unfold currentBytes, GetUpCount, GetDownCount. rewrite He. by destruct f. Qed.

Lemma runCount_unfold l n p c st :
  GetCounter (c_key n) (lg_counter l) (lg_store l) = (p, c, st) →
  runCount l n = mkLedger c (atomicAdd p (c_field n) (c_bytes n) st).2 (lg_accepted l)
    (addCounted (c_key n) (c_field n) (c_bytes n) (lg_counted l)).
Proof. intros E. unfold runCount, countOn, Rx, Tx. rewrite E. by destruct (c_field n). Qed.

Lemma runCount_spec l n e f :
  wfCounter (lg_counter l) (lg_store l) →
  let l' := runCount l n in
  let d := lg_counted l' e f - lg_counted l e f in
  wfCounter (lg_counter l') (lg_store l')
  ∧ (next (lg_store l) <= next (lg_store l'))%nat
  ∧ lg_accepted l' = lg_accepted l
  ∧ (∀ e' q, lg_counter l !! e' = Some q → lg_counter l' !! e' = Some q)
  ∧ (∀ q, lg_counter l !! e = None → lg_counter l' !! e = Some q → (next (lg_store l) <= q)%nat)
  ∧ wrap64 (currentBytes e f (lg_counter l') (lg_store l'))
    = wrap64 (currentBytes e f (lg_counter l) (lg_store l) + d).
Proof.
  intros Hwf. destruct (GetCounter (c_key n) (lg_counter l) (lg_store l)) as [[p c] st] eqn:E.
  rewrite (runCount_unfold l n p c st E). cbn [lg_counter lg_store lg_accepted lg_counted].
  destruct (GetCounter_wf _ _ _ _ _ _ Hwf E) as (Hwf' & Hp & Hother & Hnext & Hkeep & Hload & Hnew).
  split_and!; try done.
  { intros q Hn Hq. destruct (decide (e = c_key n)) as [->|].
    - rewrite Hp in Hq. injection Hq as <-. destruct (Hnew Hn) as [-> _]. done.
    - rewrite Hother in Hq by done. congruence. }
  unfold addCounted. destruct (decide (e = c_key n)) as [->|Hne].
  - rewrite (currentBytes_load _ p) by done. rewrite atomicLoad_add.
    replace (atomicLoad p f st) with (currentBytes (c_key n) f (lg_counter l) (lg_store l)).
    + f_equal. destruct (decide (p = p ∧ f = c_field n)), (decide (c_key n = c_key n ∧ f = c_field n));
        try tauto; lia.
    + destruct (lg_counter l !! c_key n) as [q|] eqn:Hq.
      * rewrite (currentBytes_load _ q) by done. pose proof (Hkeep _ _ Hq) as Hq'.
        rewrite Hp in Hq'. injection Hq' as <-. unfold atomicLoad.
        rewrite Hload; [done|]. destruct Hwf as [Hlt _]. eauto.
      * rewrite currentBytes_none by done. destruct (Hnew eq_refl) as [_ Hz].
        unfold atomicLoad. rewrite Hz. by destruct f.
  - rewrite decide_False by tauto. rewrite Z.add_0_r, Z.sub_diag, Z.add_0_r.
    destruct (lg_counter l !! e) as [q|] eqn:Hq.
    + rewrite !(currentBytes_load _ q) by (rewrite ?Hother; done).
      rewrite atomicLoad_add. rewrite decide_False.
      * unfold atomicLoad. rewrite Hload, Z.add_0_r; [done|]. destruct Hwf as [Hlt _]. eauto.
      * intros [-> _]. apply Hne. destruct Hwf' as [_ Hinj]. eapply Hinj; [|exact Hp].
        rewrite Hother by done. done.
    + rewrite !currentBytes_none by (rewrite ?Hother; done). done.
Qed.

Lemma runCounts_spec ns l e f :
  wfCounter (lg_counter l) (lg_store l) →
  let l' := foldl runCount l ns in
  let d := lg_counted l' e f - lg_counted l e f in
  wfCounter (lg_counter l') (lg_store l')
  ∧ (next (lg_store l) <= next (lg_store l'))%nat
  ∧ lg_accepted l' = lg_accepted l
  ∧ (∀ e' q, lg_counter l !! e' = Some q → lg_counter l' !! e' = Some q)
  ∧ (∀ q, lg_counter l !! e = None → lg_counter l' !! e = Some q → (next (lg_store l) <= q)%nat)
  ∧ wrap64 (currentBytes e f (lg_counter l') (lg_store l'))
    = wrap64 (currentBytes e f (lg_counter l) (lg_store l) + d).
Proof.
  revert l. induction ns as [|n ns IH]; intros l Hwf; simpl.
  - rewrite Z.sub_diag, Z.add_0_r. split_and!; try done. intros q ? ?. congruence.
  - destruct (runCount_spec l n e f Hwf) as (Hwf1 & Hn1 & Ha1 & Hk1 & Hq1 & Hc1).
    destruct (IH _ Hwf1) as (Hwf2 & Hn2 & Ha2 & Hk2 & Hq2 & Hc2).
    split_and!; [done|lia|congruence|eauto| |].
    + intros q Hnone Hq. destruct (lg_counter (runCount l n) !! e) as [q'|] eqn:Hq'.
      * pose proof (Hq1 q' Hnone eq_refl). rewrite (Hk2 _ _ Hq') in Hq. by injection Hq as <-.
      * pose proof (Hq2 q eq_refl Hq). lia.
    + rewrite Hc2. rewrite <- wrap64_add_l, Hc1, wrap64_add_l. f_equal. lia.
Qed.

(** ** Rolling back *)

Lemma rollbackItem_spec q f st i :
  wrap64 (atomicLoad q f (rollbackItem st i))
  = wrap64 (atomicLoad q f st + (if decide (storage i = q) then itemBytes f i else 0)).
Proof.
  unfold rollbackItem.
  assert (Hstep : ∀ g v st, wrap64 (atomicLoad q f
     (if v =? 0 then st else (atomicAdd (storage i) g v st).2))
     = wrap64 (atomicLoad q f st + (if decide (q = storage i ∧ f = g) then v else 0))).
  { intros g v st'. destruct (Z.eqb_spec v 0) as [->|]; [|apply atomicLoad_add].
    f_equal. case_decide; lia. }
  rewrite Hstep. rewrite <- wrap64_add_l, Hstep, wrap64_add_l. f_equal.
  destruct f; repeat case_decide; simpl; try lia; naive_solver.
Qed.

Lemma rollback_spec q f items st :
  wrap64 (atomicLoad q f (rollback items st)) = wrap64 (atomicLoad q f st + itemsTotal q f items).
Proof.
  revert st. induction items as [|i items IH]; intros st; simpl; [by rewrite Z.add_0_r|].
  change (foldl rollbackItem (rollbackItem st i) items) with (rollback items (rollbackItem st i)).
  rewrite IH. rewrite <- wrap64_add_l, rollbackItem_spec, wrap64_add_l. f_equal. lia.
Qed.

Lemma next_rollback items st : next (rollback items st) = next st.
Proof.
  unfold rollback. apply (foldl_invariant (λ s, next s = next st)); [done|].
  intros s i _ <-. unfold rollbackItem. by repeat case_match.
Qed.

Lemma itemsTotal_app q f l k : itemsTotal q f (l ++ k) = itemsTotal q f l + itemsTotal q f k.
Proof. induction l as [|i l IH]; simpl; [done|]. unfold itemsTotal in *. simpl. rewrite IH. lia. Qed.

Lemma reportedTotal_app u f l k :
  reportedTotal u f (l ++ k) = reportedTotal u f l + reportedTotal u f k.
Proof. induction l as [|i l IH]; simpl; [done|]. unfold reportedTotal in *. simpl. rewrite IH. lia. Qed.

(** ** Collecting *)

Lemma atomicLoad_add_ne p q f g d st :
  q ≠ p → atomicLoad q g (atomicAdd p f d st).2 = atomicLoad q g st.
Proof. intros Hne. unfold atomicAdd. simpl. rewrite atomicLoad_store. by rewrite decide_False by tauto. Qed.

Lemma arrive_bytes race e p q f st :
  wrap64 (atomicLoad q f (arrive race e p st))
  = wrap64 (atomicLoad q f st + (if decide (q = p) then raceBytes race f e else 0)).
Proof.
  unfold arrive. rewrite atomicLoad_add. rewrite <- wrap64_add_l, atomicLoad_add, wrap64_add_l.
  f_equal. destruct f; repeat case_decide; simpl; try lia; naive_solver.
Qed.

Lemma arrive_ne race e p q f st :
  q ≠ p → atomicLoad q f (arrive race e p st) = atomicLoad q f st.
Proof. intros Hne. unfold arrive. by rewrite !atomicLoad_add_ne. Qed.

Lemma arrive_eq race e p f st :
  atomicLoad p f (arrive race e p st) = wrap64 (atomicLoad p f st + raceBytes race f e).
Proof.
  unfold arrive, atomicAdd. cbn [snd]. rewrite !atomicLoad_store.
  destruct f; repeat case_decide; naive_solver.
Qed.

(** The test of one iteration. *)
Definition isDue (mintraffic : Z) (st : Store) (p : nat) : bool :=
  wrap64 (mintraffic * 1000) <? wrap64 (atomicLoad p Up st + atomicLoad p Down st).

Definition clearStorage (p : nat) (st : Store) : Store :=
  atomicStore p Down 0 (atomicStore p Up 0 st).

Lemma atomicLoad_clear p q f st :
  atomicLoad q f (clearStorage p st) = if decide (q = p) then 0 else atomicLoad q f st.
Proof.
  unfold clearStorage. rewrite !atomicLoad_store.
  destruct f; repeat case_decide; naive_solver.
Qed.

(** What one iteration reports, as a function of the store it starts from. *)
Definition itemOf (race : Arrivals) (e : string) (p : nat) st : trafficRollbackItem :=
  mkRollbackItem p (atomicLoad p Up (arrive race e p st)) (atomicLoad p Down (arrive race e p st)).

Definition trafficOf (uidMap : gmap string Z) (i : trafficRollbackItem) (e : string) : Panel.UserTraffic :=
  Panel.mkUserTraffic (default 0 (uidMap !! e)) (up i) (down i).

Lemma sliceEntry_unfold uidMap race m s e p :
  sliceEntry uidMap race m s (e, p) =
  let st' := arrive race e p (ss_store s) in
  let i := itemOf race e p (ss_store s) in
  if isDue m (ss_store s) p then
    if default 0 (uidMap !! e) =? 0
    then mkSliceState (ss_traffic s) (ss_rollback s) (delete e (ss_counter s)) (clearStorage p st')
    else mkSliceState (ss_traffic s ++ [trafficOf uidMap i e]) (ss_rollback s ++ [i])
           (ss_counter s) (clearStorage p st')
  else mkSliceState (ss_traffic s) (ss_rollback s) (ss_counter s) st'.
Proof.
  unfold sliceEntry, isDue, itemOf, trafficOf. case_match; [|done].
  unfold atomicSwap. cbn [fst snd].
  rewrite (atomicLoad_store p p Up Down). rewrite decide_False by (intros [? ?]; done).
  by case_match.
Qed.

Lemma sliceEntry_frame uidMap race m s e p :
  let s' := sliceEntry uidMap race m s (e, p) in
  next (ss_store s') = next (ss_store s)
  ∧ (∀ q f, q ≠ p → atomicLoad q f (ss_store s') = atomicLoad q f (ss_store s))
  ∧ (∀ e', default 0 (uidMap !! e') ≠ 0 ∨ e' ≠ e → ss_counter s' !! e' = ss_counter s !! e')
  ∧ (∀ e' q, ss_counter s' !! e' = Some q → ss_counter s !! e' = Some q).
Proof.
  rewrite sliceEntry_unfold. cbn zeta. destruct (isDue _ _ _).
  - destruct (Z.eqb_spec (default 0 (uidMap !! e)) 0); cbn [ss_store ss_counter]; split_and!; try done.
    + intros q f ?. by rewrite atomicLoad_clear, decide_False, arrive_ne.
    + intros e' [?|?]; apply lookup_delete_ne; congruence.
    + intros e' q. rewrite lookup_delete_Some. tauto.
    + intros q f ?. by rewrite atomicLoad_clear, decide_False, arrive_ne.
  - cbn [ss_store ss_counter]. split_and!; try done. intros q f ?. by apply arrive_ne.
Qed.

(** Nothing is lost between the counters and the rollback items. *)
Lemma sliceEntry_bytes uidMap race m s e p q f :
  (p = q → default 0 (uidMap !! e) ≠ 0) →
  let s' := sliceEntry uidMap race m s (e, p) in
  wrap64 (atomicLoad q f (ss_store s') + itemsTotal q f (ss_rollback s'))
  = wrap64 (atomicLoad q f (ss_store s) + itemsTotal q f (ss_rollback s)
            + (if decide (p = q) then raceBytes race f e else 0)).
Proof.
  intros Hknown. destruct (decide (p = q)) as [->|Hne].
  - specialize (Hknown eq_refl). rewrite sliceEntry_unfold. cbn zeta.
    rewrite (proj2 (Z.eqb_neq _ _)) by done. pose proof (arrive_bytes race e q q f (ss_store s)) as Ha.
    rewrite decide_True in Ha by done. destruct (isDue _ _ _); cbn [ss_store ss_rollback].
    + rewrite itemsTotal_app, atomicLoad_clear, decide_True by done. simpl. rewrite decide_True by done.
      replace (itemBytes f _) with (atomicLoad q f (arrive race e q (ss_store s))) by by destruct f.
      replace (0 + _) with (atomicLoad q f (arrive race e q (ss_store s)) + itemsTotal q f (ss_rollback s)) by lia.
      rewrite <- wrap64_add_l, Ha, wrap64_add_l. f_equal. lia.
    + rewrite <- wrap64_add_l, Ha, wrap64_add_l. f_equal. lia.
  - destruct (sliceEntry_frame uidMap race m s e p) as (_ & Hl & _). cbn zeta. rewrite Hl by congruence.
    rewrite sliceEntry_unfold. cbn zeta. f_equal.
    repeat case_match; cbn [ss_rollback]; rewrite ?itemsTotal_app; simpl; rewrite ?decide_False by done; lia.
Qed.

(** The report of a user id is what the rollback items of its storage hold. *)
Lemma sliceEntry_report uidMap race m s e p q f u :
  u ≠ 0 → (p = q ↔ default 0 (uidMap !! e) = u) →
  let s' := sliceEntry uidMap race m s (e, p) in
  reportedTotal u f (ss_traffic s') - itemsTotal q f (ss_rollback s')
  = reportedTotal u f (ss_traffic s) - itemsTotal q f (ss_rollback s).
Proof.
  intros Hu Hpq. rewrite sliceEntry_unfold. cbn zeta.
  repeat case_match; try done. cbn [ss_traffic ss_rollback].
  rewrite reportedTotal_app, itemsTotal_app. unfold trafficOf. simpl.
  destruct (decide (p = q)) as [->|Hne].
  - rewrite decide_True by tauto. destruct f; simpl; lia.
  - rewrite decide_False by tauto. lia.
Qed.

Section fold.
Context (uidMap : gmap string Z) (race : Arrivals) (m : Z).
#[local] Abbreviation loop := (foldl (sliceEntry uidMap race m)).

Lemma slice_frame l s :
  let s' := loop s l in
  next (ss_store s') = next (ss_store s)
  ∧ (∀ q f, q ∉ l.*2 → atomicLoad q f (ss_store s') = atomicLoad q f (ss_store s))
  ∧ (∀ e', default 0 (uidMap !! e') ≠ 0 ∨ e' ∉ l.*1 → ss_counter s' !! e' = ss_counter s !! e')
  ∧ (∀ e' q, ss_counter s' !! e' = Some q → ss_counter s !! e' = Some q).
Proof.
  revert s. induction l as [|[e p] l IH]; intros s; [done|]. cbn [foldl].
  destruct (IH (sliceEntry uidMap race m s (e, p))) as (Hn & Hl & Hc & Hs).
  destruct (sliceEntry_frame uidMap race m s e p) as (Hn0 & Hl0 & Hc0 & Hs0).
  split_and!; [congruence| | |by eauto].
  - intros q f Hq. cbn in Hq. rewrite not_elem_of_cons in Hq. rewrite Hl by tauto. apply Hl0. tauto.
  - intros e' He'. cbn in He'. rewrite not_elem_of_cons in He'. rewrite Hc by tauto. apply Hc0. tauto.
Qed.

(** The bytes that race with the loop in one storage. *)
Definition raceTotal (q : nat) f (l : list (string * nat)) : Z :=
  foldr (λ ep acc, (if decide (ep.2 = q) then raceBytes race f ep.1 else 0) + acc) 0 l.

Lemma slice_bytes l s q f :
  (∀ e, (e, q) ∈ l → default 0 (uidMap !! e) ≠ 0) →
  let s' := loop s l in
  wrap64 (atomicLoad q f (ss_store s') + itemsTotal q f (ss_rollback s'))
  = wrap64 (atomicLoad q f (ss_store s) + itemsTotal q f (ss_rollback s) + raceTotal q f l).
Proof.
  revert s. induction l as [|[e p] l IH]; intros s Hk; [by rewrite Z.add_0_r|]. cbn [foldl].
  rewrite IH by (intros e' He'; apply Hk; by right).
  rewrite <- wrap64_add_l, sliceEntry_bytes, wrap64_add_l by (intros ->; apply Hk; left).
  f_equal. unfold raceTotal. simpl. lia.
Qed.

Lemma slice_report l s q f u :
  u ≠ 0 → (∀ e p, (e, p) ∈ l → p = q ↔ default 0 (uidMap !! e) = u) →
  let s' := loop s l in
  reportedTotal u f (ss_traffic s') - itemsTotal q f (ss_rollback s')
  = reportedTotal u f (ss_traffic s) - itemsTotal q f (ss_rollback s).
Proof.
  revert s. induction l as [|[e p] l IH]; intros s Hu Hk; [done|]. cbn [foldl].
  cbn zeta. rewrite IH by (done || (intros e' p' He'; apply Hk; by right)).
  apply sliceEntry_report; [done|]. apply Hk. left.
Qed.

(** The items refer to storages of the map. *)
Lemma slice_items l s q f :
  q ∉ l.*2 → itemsTotal q f (ss_rollback (loop s l)) = itemsTotal q f (ss_rollback s).
Proof.
  revert s. induction l as [|[e p] l IH]; intros s Hq; [done|]. cbn [foldl].
  cbn in Hq. rewrite not_elem_of_cons in Hq. rewrite IH by tauto.
  rewrite sliceEntry_unfold. cbn zeta. repeat case_match; try done.
  cbn [ss_rollback]. rewrite itemsTotal_app. simpl. rewrite decide_False by naive_solver. lia.
Qed.

(** With one key per storage, the loop is a map over the entries. *)
Definition reportEntry st (ep : string * nat) : option trafficRollbackItem :=
  if isDue m st ep.2 then
    if default 0 (uidMap !! ep.1) =? 0 then None else Some (itemOf race ep.1 ep.2 st)
  else None.

Definition reportTraffic st (ep : string * nat) : option Panel.UserTraffic :=
  (λ i, trafficOf uidMap i ep.1) <$> reportEntry st ep.

Lemma reportEntry_frame st st' ep :
  (∀ f, atomicLoad ep.2 f st' = atomicLoad ep.2 f st) →
  reportEntry st' ep = reportEntry st ep.
Proof.
  intros Hl. destruct ep as [e p]. unfold reportEntry, isDue, itemOf. cbn [fst snd] in *. rewrite !Hl.
  assert (Hs : loadStorage p st' = loadStorage p st).
  { pose proof (Hl Up) as Hup. pose proof (Hl Down) as Hdown. unfold atomicLoad in *. simpl in *.
    destruct (loadStorage p st'), (loadStorage p st). simpl in *. congruence. }
  repeat case_match; try done. do 2 f_equal;
    unfold arrive, atomicAdd, atomicStore, atomicLoad; simpl; rewrite !loadStorage_set, !decide_True by done;
    by rewrite Hs.
Qed.

Lemma slice_traffic l s :
  NoDup l.*2 →
  ss_traffic (loop s l) = ss_traffic s ++ omap (reportTraffic (ss_store s)) l
  ∧ ss_rollback (loop s l) = ss_rollback s ++ omap (reportEntry (ss_store s)) l.
Proof.
  revert s. induction l as [|[e p] l IH]; intros s Hnd; [by rewrite !app_nil_r|].
  cbn [foldl]. cbn in Hnd. apply NoDup_cons in Hnd as [Hp Hnd].
  destruct (IH (sliceEntry uidMap race m s (e, p)) Hnd) as [-> ->].
  destruct (sliceEntry_frame uidMap race m s e p) as (_ & Hl & _).
  assert (Hsame : ∀ ep, ep ∈ l → reportEntry (ss_store (sliceEntry uidMap race m s (e, p))) ep
                                = reportEntry (ss_store s) ep).
  { intros [e' p'] Hin. apply reportEntry_frame. intros f. apply Hl. cbn. intros ->.
    apply Hp. simpl. apply list_elem_of_fmap. exists (e', p). done. }
  rewrite (list_omap_ext _ (reportEntry (ss_store s)) l l), (list_omap_ext (reportTraffic _) (reportTraffic (ss_store s)) l l).
  2,3: apply Forall_Forall2_diag, Forall_forall; intros ep Hep; unfold reportTraffic; by rewrite Hsame.
  rewrite sliceEntry_unfold. cbn [omap list_omap]. cbn zeta.
  assert (Ht : reportTraffic (ss_store s) (e, p)
    = (λ i, trafficOf uidMap i e) <$> reportEntry (ss_store s) (e, p)) by done.
  rewrite Ht. clear Ht.
  assert (Hr : reportEntry (ss_store s) (e, p) = if isDue m (ss_store s) p then
    if default 0 (uidMap !! e) =? 0 then None else Some (itemOf race e p (ss_store s)) else None) by done.
  rewrite Hr. clear Hr. repeat case_match; simplify_eq/=; by rewrite <- ?app_assoc.
Qed.

(** What the loop leaves of one user, [s] being the state it starts from. *)
Definition entryOutcome s s' e p : Prop :=
  if isDue m (ss_store s) p then
    if default 0 (uidMap !! e) =? 0 then ss_counter s' !! e = None
    else ss_counter s' !! e = Some p ∧ ∀ f, atomicLoad p f (ss_store s') = 0
  else ss_counter s' !! e = Some p
       ∧ ∀ f, atomicLoad p f (ss_store s') = wrap64 (atomicLoad p f (ss_store s) + raceBytes race f e).

Lemma entryOutcome_entry s e p :
  ss_counter s !! e = Some p → entryOutcome s (sliceEntry uidMap race m s (e, p)) e p.
Proof.
  intros Hc. unfold entryOutcome. rewrite sliceEntry_unfold. cbn zeta.
  repeat case_match; cbn [ss_counter ss_store].
  - apply lookup_delete_eq.
  - split; [done|]. intros f. rewrite atomicLoad_clear. by rewrite decide_True.
  - split; [done|]. intros f. apply arrive_eq.
Qed.

Lemma slice_entry l s e p :
  NoDup l.*1 → NoDup l.*2 → (e, p) ∈ l → ss_counter s !! e = Some p →
  entryOutcome s (loop s l) e p.
Proof.
  revert s. induction l as [|[e0 p0] l IH]; intros s Hk Hp Hin Hc; [by apply elem_of_nil in Hin|].
  cbn [foldl]. cbn in Hk, Hp. apply NoDup_cons in Hk as [He0 Hk]. apply NoDup_cons in Hp as [Hp0 Hp].
  apply elem_of_cons in Hin as [[= -> ->]|Hin].
  - pose proof (entryOutcome_entry s e0 p0 Hc) as Ho.
    destruct (slice_frame l (sliceEntry uidMap race m s (e0, p0))) as (_ & Hl & Hcs & _).
    unfold entryOutcome in *. rewrite Hcs by tauto.
    repeat case_match; try done; destruct Ho; (split; [done|]); intros f; by rewrite Hl.
  - assert (Hne : e ≠ e0 ∧ p ≠ p0).
    { split; intros ->; [apply He0 | apply Hp0]; apply list_elem_of_fmap; by eexists (_, _). }
    destruct (sliceEntry_frame uidMap race m s e0 p0) as (_ & Hl & Hcs & _).
    assert (Ho : entryOutcome (sliceEntry uidMap race m s (e0, p0)) (loop (sliceEntry uidMap race m s (e0, p0)) l) e p).
    { apply IH; try done. rewrite Hcs by tauto. done. }
    unfold entryOutcome, isDue in *. rewrite !Hl in Ho by tauto.
    repeat case_match; try done; destruct Ho as [? Ho]; (split; [done|]); intros f; rewrite Ho, ?Hl; tauto.
Qed.
End fold.

End lemmas.

(** ** The report of a tag *)

Section props.
Context {RO : RangeOrder string}.
Implicit Types (c : gmap string nat) (st : Store).

(** A single entry of a list with distinct keys. *)
Lemma raceTotal_unique race q f (l : list (string * nat)) e :
  NoDup l.*1 → (∀ e' p, (e', p) ∈ l → p = q ↔ e' = e) →
  raceTotal race q f l = if decide (e ∈ l.*1) then raceBytes race f e else 0.
Proof.
  induction l as [|[e' p] l IH]; intros Hnd Hpq; cbn; [by rewrite decide_False by apply not_elem_of_nil|].
  cbn in Hnd. apply NoDup_cons in Hnd as [He' Hnd].
  change (foldr _ 0 l) with (raceTotal race q f l).
  rewrite IH by (done || (intros; apply Hpq; by right)).
  pose proof (Hpq e' p) as Hp. specialize (Hp ltac:(left)).
  destruct (decide (e' = e)) as [->|].
  - rewrite (decide_True (P := p = q)) by tauto. rewrite (decide_False (P := e ∈ l.*1)) by done.
    rewrite decide_True by left. lia.
  - rewrite (decide_False (P := p = q)) by tauto.
    destruct (decide (e ∈ l.*1)), (decide (e ∈ e' :: l.*1)) as [Hin|Hin]; try lia;
      rewrite elem_of_cons in Hin; naive_solver.
Qed.

Lemma range_keys c e : e ∈ (range_list c).*1 ↔ is_Some (c !! e).
Proof.
  rewrite list_elem_of_fmap. split.
  - intros ([e' p] & -> & Hin%elem_of_range_list). simpl. eauto.
  - intros [p Hp]. exists (e, p). by rewrite elem_of_range_list.
Qed.

Lemma range_pointers c p : p ∈ (range_list c).*2 ↔ ∃ e, c !! e = Some p.
Proof.
  rewrite list_elem_of_fmap. split.
  - intros ([e q] & -> & Hin%elem_of_range_list). simpl. eauto.
  - intros [e He]. exists (e, p). by rewrite elem_of_range_list.
Qed.

Lemma NoDup_pointers c st : wfCounter c st → NoDup (range_list c).*2.
Proof.
  intros [_ Hinj]. pose proof (NoDup_range_list c) as Hnd.
  apply NoDup_fmap_2_strong.
  - intros [e p] [e' p'] Hin%elem_of_range_list Hin'%elem_of_range_list Heq. simpl in Heq.
    subst p'. f_equal. eauto.
  - by eapply NoDup_fmap_1.
Qed.

(** One collection, seen by one user. *)
Lemma trafficSlice_user uidMap race m c st e u f :
  wfCounter c st →
  uidMap !! e = Some u → u ≠ 0 → (∀ e', uidMap !! e' = Some u → e' = e) →
  let s := trafficSlice uidMap race m c st in
  wfCounter (ss_counter s) (ss_store s)
  ∧ next (ss_store s) = next st
  ∧ ss_counter s !! e = c !! e
  ∧ wrap64 (reportedTotal u f (ss_traffic s) + currentBytes e f (ss_counter s) (ss_store s))
    = wrap64 (currentBytes e f c st + (if c !! e is Some _ then raceBytes race f e else 0))
  ∧ (∀ q, (if c !! e is Some q0 then q = q0 else (next st <= q)%nat) →
       itemsTotal q f (ss_rollback s) = reportedTotal u f (ss_traffic s)).
Proof.
  intros Hwf He Hu Huniq s. pose proof Hwf as [Hlt Hinj].
  destruct (slice_frame uidMap race m (range_list c) (mkSliceState [] [] c st)) as (Hn & Hl & Hc & Hs).
  fold (trafficSlice uidMap race m c st) in *. fold s in Hn, Hl, Hc, Hs. simpl in Hn, Hl, Hc, Hs.
  assert (Hce : ss_counter s !! e = c !! e) by (apply Hc; left; by rewrite He).
  assert (Hitems : ∀ q, (if c !! e is Some q0 then q = q0 else (next st <= q)%nat) →
       itemsTotal q f (ss_rollback s) = reportedTotal u f (ss_traffic s)).
  { intros q Hq.
    assert (Hrep : reportedTotal u f (ss_traffic s) - itemsTotal q f (ss_rollback s) = 0); [|lia].
    apply (slice_report uidMap race m (range_list c) (mkSliceState [] [] c st) q f u Hu).
    intros e' p' Hin%elem_of_range_list. destruct (c !! e) as [q0|] eqn:Hq0.
    - subst q0. split.
      + intros ->. assert (e' = e) as -> by eauto. by rewrite He.
      + destruct (uidMap !! e') as [u'|] eqn:Hu'; simpl; [|congruence]. intros ->.
        assert (e' = e) as -> by eauto. congruence.
    - split.
      + intros ->. apply Hlt in Hin. lia.
      + destruct (uidMap !! e') as [u'|] eqn:Hu'; simpl; [|congruence]. intros ->.
        assert (e' = e) as -> by eauto. congruence. }
  split_and!; [|done|done| |done].
  - split; rewrite ?Hn; intros; eauto.
  - destruct (c !! e) as [q|] eqn:Hq.
    + rewrite <- (Hitems q) by done. rewrite !(currentBytes_load _ q) by done.
      pose proof (slice_bytes uidMap race m (range_list c) (mkSliceState [] [] c st) q f) as Hb.
      fold (trafficSlice uidMap race m c st) in Hb. fold s in Hb. cbn [ss_store ss_rollback] in Hb.
      rewrite Z.add_comm, Hb; clear Hb.
      * change (itemsTotal q f []) with 0. rewrite (raceTotal_unique _ _ _ _ e).
        -- rewrite decide_True by (apply range_keys; eauto). f_equal. lia.
        -- apply NoDup_range_list.
        -- intros e' p' Hin%elem_of_range_list. split; [intros ->; eauto|]. intros ->. congruence.
      * intros e' Hin%elem_of_range_list. assert (e' = e) as -> by eauto. by rewrite He.
    + rewrite !currentBytes_none by done. rewrite <- (Hitems (next st)) by lia.
      assert (itemsTotal (next st) f (ss_rollback s) = 0) as ->; [|done].
      unfold s, trafficSlice. rewrite slice_items; [done|].
      intros (e' & He')%range_pointers. apply Hlt in He'. lia.
Qed.

(** The books of one user are balanced. *)
Definition balanced (e : string) (u : Z) (l : Ledger) : Prop :=
  ∀ f, wrap64 (reportedTotal u f (lg_accepted l) + currentBytes e f (lg_counter l) (lg_store l))
       = wrap64 (lg_counted l e f).

Lemma runCounts_balanced ns l e u :
  wfCounter (lg_counter l) (lg_store l) → balanced e u l → balanced e u (foldl runCount l ns).
Proof.
  intros Hwf Hb f. destruct (runCounts_spec ns l e f Hwf) as (_ & _ & Ha & _ & _ & Hc).
  rewrite Ha. rewrite <- wrap64_add_r, Hc, wrap64_add_r. rewrite Z.add_assoc, <- wrap64_add_l, Hb, wrap64_add_l.
  f_equal. lia.
Qed.

Lemma runOp_balanced uidMap l op e u :
  uidMap !! e = Some u → u ≠ 0 → (∀ e', uidMap !! e' = Some u → e' = e) →
  wfCounter (lg_counter l) (lg_store l) → balanced e u l →
  wfCounter (lg_counter (runOp uidMap l op)) (lg_store (runOp uidMap l op))
  ∧ balanced e u (runOp uidMap l op).
Proof.
  intros He Hu Huniq Hwf Hb. destruct op as [n|m race during accepted]; cbn [runOp].
  { split; [by apply (runCount_spec l n e Up)|]. by apply (runCounts_balanced [n]). }
  set (s := trafficSlice uidMap race m (lg_counter l) (lg_store l)).
  set (counted := λ e f, _). set (l1 := mkLedger (ss_counter s) (ss_store s) (lg_accepted l) counted).
  assert (Hs := λ f, trafficSlice_user uidMap race m _ _ e u f Hwf He Hu Huniq). fold s in Hs.
  assert (Hwf1 : wfCounter (lg_counter l1) (lg_store l1)) by apply (Hs Up).
  set (l2 := foldl runCount l1 during).
  assert (Hwf2 : wfCounter (lg_counter l2) (lg_store l2)) by by apply (runCounts_spec during l1 e Up).
  (* after the collection and the concurrent counting, the books are balanced
     up to the collected traffic *)
  assert (Hb2 : ∀ f, wrap64 (reportedTotal u f (lg_accepted l) + reportedTotal u f (ss_traffic s)
      + currentBytes e f (lg_counter l2) (lg_store l2)) = wrap64 (lg_counted l2 e f)).
  { intros f. destruct (runCounts_spec during l1 e f Hwf1) as (_ & _ & _ & _ & _ & Hc). fold l2 in Hc.
    destruct (Hs f) as (_ & _ & _ & Hcur & _).
    rewrite <- wrap64_add_r, Hc, wrap64_add_r.
    replace (reportedTotal u f (lg_accepted l) + reportedTotal u f (ss_traffic s)
      + (currentBytes e f (lg_counter l1) (lg_store l1) + (lg_counted l2 e f - lg_counted l1 e f)))
    with (reportedTotal u f (ss_traffic s) + currentBytes e f (ss_counter s) (ss_store s)
      + (reportedTotal u f (lg_accepted l) + lg_counted l2 e f - lg_counted l1 e f)) by (simpl; lia).
    rewrite <- wrap64_add_l, Hcur, wrap64_add_l. change (lg_counted l1) with counted. unfold counted.
    replace (currentBytes e f (lg_counter l) (lg_store l) + _ + _) with
      (reportedTotal u f (lg_accepted l) + currentBytes e f (lg_counter l) (lg_store l)
       + (lg_counted l2 e f - lg_counted l e f)) by (case_match; lia).
    rewrite <- wrap64_add_l, Hb, wrap64_add_l. f_equal. lia. }
  destruct accepted; split; try done.
  - intros f. cbn [lg_accepted lg_counter lg_store lg_counted]. rewrite reportedTotal_app.
    destruct (runCounts_spec during l1 e f Hwf1) as (_ & _ & Ha & _). fold l2 in Ha.
    rewrite Ha. apply Hb2.
  - destruct Hwf2 as [Hlt2 Hinj2]. split; cbn; rewrite ?next_rollback; done.
  - intros f. cbn [lg_accepted lg_counter lg_store lg_counted].
    destruct (runCounts_spec during l1 e f Hwf1) as (_ & Hn & Ha & Hk & Hnew & _). fold l2 in Hn, Ha, Hk, Hnew.
    destruct (Hs f) as (_ & Hnext & Hce & _ & Hitems). rewrite Ha. cbn [lg_accepted l1].
    rewrite <- Hb2. destruct (lg_counter l2 !! e) as [q|] eqn:Hq.
    + rewrite !(currentBytes_load _ q) by done. rewrite <- wrap64_add_r, rollback_spec, wrap64_add_r.
      rewrite (Hitems q); [f_equal; lia|].
      destruct (lg_counter l !! e) as [q0|] eqn:Hq0.
      * assert (Hq' : lg_counter l2 !! e = Some q0) by (apply Hk; cbn; congruence). congruence.
      * rewrite <- Hnext. apply Hnew; [|done]. cbn. congruence.
    + rewrite !currentBytes_none by done.
      assert (reportedTotal u f (ss_traffic s) = 0) as ->; [|f_equal; lia].
      destruct (lg_counter l !! e) as [q0|] eqn:Hq0.
      { assert (Hq' : lg_counter l2 !! e = Some q0) by (apply Hk; cbn; congruence). congruence. }
      rewrite <- (Hitems (next (lg_store l))) by lia. unfold s, trafficSlice. rewrite slice_items; [done|].
      intros (e' & He')%range_pointers. destruct Hwf as [Hlt _]. apply Hlt in He'. lia.
Qed.

(** C8. Traffic accounting. For a user of a tag whose id is known and belongs to
    no other user all the time, and for any sequence of counted bytes and reports (with
    bytes arriving while the counters are collected and while the report is
    under way, and with reports accepted or rejected and rolled back): what
    the panel accepted for the user plus what is left in the counters is what
    the user's connections counted, in 64-bit arithmetic. No byte is reported
    twice and none is lost. *)
Theorem traffic_accounting uidMap e u ops f :
  uidMap !! e = Some u → u ≠ 0 → (∀ e', uidMap !! e' = Some u → e' = e) →
  let l := foldl (runOp uidMap) emptyLedger ops in
  wrap64 (reportedTotal u f (lg_accepted l) + currentBytes e f (lg_counter l) (lg_store l))
  = wrap64 (lg_counted l e f).
Proof.
  intros He Hu Huniq l. revert f.
  apply (foldl_invariant (λ l, wfCounter (lg_counter l) (lg_store l) ∧ balanced e u l)
           (runOp uidMap) ops emptyLedger).
  - split; [by split|]. intros f. by destruct f.
  - intros l' op _ [? ?]. by apply runOp_balanced.
Qed.

(** What one collection does to every user of the tag, for any iteration
    order: a user at or below the threshold keeps the counters; a user above
    it whose id is known is reported once, with the counters found by the
    swaps, and starts from zero; a user above it whose id is unknown (a
    deleted user) loses the counters, unreported. *)
Theorem GetUserTrafficSlice_exact uidMap race m c st :
  wfCounter c st →
  let s := trafficSlice uidMap race m c st in
  ss_traffic s ≡ₚ omap (reportTraffic uidMap race m st) (map_to_list c)
  ∧ ss_rollback s ≡ₚ omap (reportEntry uidMap race m st) (map_to_list c)
  ∧ ∀ e p, c !! e = Some p → entryOutcome uidMap race m (mkSliceState [] [] c st) s e p.
Proof.
  intros Hwf s. pose proof (NoDup_pointers c st Hwf) as Hp.
  destruct (slice_traffic uidMap race m (range_list c) (mkSliceState [] [] c st) Hp) as [Ht Hr].
  fold (trafficSlice uidMap race m c st) in Ht, Hr. fold s in Ht, Hr. simpl in Ht, Hr.
  split_and!.
  - rewrite Ht. by rewrite range_list_perm.
  - rewrite Hr. by rewrite range_list_perm.
  - intros e p He. apply slice_entry; [apply NoDup_range_list|done|by apply elem_of_range_list|done].
Qed.

End props.

(** ** Examples at which the hypotheses hold *)

Module Examples.
#[local] Instance exampleOrder : RangeOrder string := canonical_order string.

(** A user connects, the first report is rejected while 7 bytes arrive, the
    second is accepted. *)
Definition exampleOps : list trafficOp :=
  [Count (mkCount Up "t|u" 5000); Count (mkCount Down "t|u" 300);
   Report 1 (λ _, (11, 0)) [mkCount Up "t|u" 7] false;
   Report 0 (λ _, (0, 0)) [mkCount Down "t|u" 2] true].

Lemma traffic_accounting_witness :
  let l := foldl (runOp {["t|u" := 3]}) emptyLedger exampleOps in
  wrap64 (reportedTotal 3 Up (lg_accepted l) + currentBytes "t|u" Up (lg_counter l) (lg_store l))
  = wrap64 (lg_counted l "t|u" Up).
Proof.
  apply (traffic_accounting {["t|u" := 3]} "t|u" 3 exampleOps Up); [reflexivity|discriminate|].
  intros e' He'. rewrite lookup_singleton_Some in He'. by destruct He'.
Defined.

Definition exampleStore : Store := mkStore {[0%nat := mkTrafficStorage 900 200]} 1.

Lemma GetUserTrafficSlice_exact_witness :
  let s := trafficSlice {["t|u" := 3]} (λ _, (1, 1)) 1 {["t|u" := 0%nat]} exampleStore in
  ss_traffic s ≡ₚ omap (reportTraffic {["t|u" := 3]} (λ _, (1, 1)) 1 exampleStore)
                       (map_to_list {["t|u" := 0%nat]}).
Proof.
  refine (proj1 (GetUserTrafficSlice_exact {["t|u" := 3]} (λ _, (1, 1)) 1 {["t|u" := 0%nat]}
           exampleStore _)).
  split.
  - intros e p He. rewrite lookup_singleton_Some in He. destruct He as [_ <-]. simpl. lia.
  - intros e e' p He He'. rewrite lookup_singleton_Some in He, He'. destruct He, He'. congruence.
Defined.

Example exampleOps_accepted :
  lg_accepted (foldl (runOp {["t|u" := 3]}) emptyLedger exampleOps)
  = [Panel.mkUserTraffic 3 5018 300].
Proof. vm_compute. reflexivity. Qed.
End Examples.
End TrafficProps.
