(* ===== verification/Core.v ===== *)
(** * The proxy core (core/core.go, core/node.go, core/user.go)

    [V2Core] owns the running Xray instance, the map from user keys to user
    ids, the set of nodes served by external sidecars and the dispatcher with
    its traffic counters and link managers. Xray itself (instances, the
    inbound manager and the user managers of its handlers) is the interface
    [XrayCore]: a user manager is the handler of an inbound tag, and the
    operations on it change the state of the inbound manager. *)

From Stdlib Require Import Ascii.
From S2P Require Import Prelude GoStrings Json Panel Limiter Inbound Links Traffic.

Module Core.
Import GoStrings Json.

(** ** Users as Xray sees them *)

Inductive CipherType :=
| CipherType_UNKNOWN
| CipherType_AES_128_GCM
| CipherType_AES_256_GCM
| CipherType_CHACHA20_POLY1305
| CipherType_NONE.

#[global] Instance CipherType_eq_dec : EqDecision CipherType.
Proof. solve_decision. Defined.

(** The account structs the program builds. *)
Inductive Account :=
| VMessAccount (ID Security : string)
| VLessAccount (Id Flow : string)
| TrojanAccount (Password : string)
| ShadowsocksAccount (Password : string) (Cipher : CipherType)
| Shadowsocks2022Account (Key : string)
| SocksAccount (Username Password : string)
| HTTPAccount (Username Password : string)
| HysteriaAccount (Auth : string)
| TuicAccount (AccountUuid Password : string)
| AnyTLSAccount (Password : string).

Record User := mkUser { Level : Z; Email : string; User_Account : Account }.

#[global] Instance Account_eq_dec : EqDecision Account.
Proof. solve_decision. Defined.

#[global] Instance User_eq_dec : EqDecision User.
Proof. solve_decision. Defined.

Definition buildVmessUser (tag : string) (u : Panel.UserInfo) : User :=
  mkUser 0 (Limiter.UserTag tag (Panel.Uuid u)) (VMessAccount (Panel.Uuid u) "auto").

Definition buildVlessUser (tag : string) (u : Panel.UserInfo) (flow : string) : User :=
  mkUser 0 (Limiter.UserTag tag (Panel.Uuid u)) (VLessAccount (Panel.Uuid u) flow).

Definition buildTrojanUser (tag : string) (u : Panel.UserInfo) : User :=
  mkUser 0 (Limiter.UserTag tag (Panel.Uuid u)) (TrojanAccount (Panel.Uuid u)).

Definition getCipherFromString (c : string) : CipherType :=
  let c := ToLower c in
  if bool_decide (c ∈ ["aes-128-gcm"; "aead_aes_128_gcm"]) then CipherType_AES_128_GCM
  else if bool_decide (c ∈ ["aes-256-gcm"; "aead_aes_256_gcm"]) then CipherType_AES_256_GCM
  else if bool_decide (c ∈ ["chacha20-poly1305"; "aead_chacha20_poly1305"; "chacha20-ietf-poly1305"])
  then CipherType_CHACHA20_POLY1305
  else if bool_decide (c ∈ ["none"; "plain"]) then CipherType_NONE
  else CipherType_UNKNOWN.

(** The key length of a Shadowsocks 2022 cipher. *)
Definition ssKeyLength (cypher : string) : nat :=
  if bool_decide (cypher = "2022-blake3-aes-128-gcm") then 16
  else if bool_decide (cypher = "2022-blake3-aes-256-gcm") then 32
  else if bool_decide (cypher = "2022-blake3-chacha20-poly1305") then 32
  else 0.

(** [None]: slicing the uuid panics because it is shorter than the key. *)
Definition buildSSUser (tag : string) (u : Panel.UserInfo) (cypher serverKey : string)
    : option User :=
  if bool_decide (serverKey = "") then
    Some (mkUser 0 (Limiter.UserTag tag (Panel.Uuid u))
            (ShadowsocksAccount (Panel.Uuid u) (getCipherFromString cypher)))
  else
    let keyLength := ssKeyLength cypher in
    if (String.length (Panel.Uuid u) <? keyLength)%nat then None
    else
      let key := base64Std (take keyLength (bytes (Panel.Uuid u))) in
      Some (mkUser 0 (Limiter.UserTag tag (Panel.Uuid u)) (Shadowsocks2022Account key)).

Definition buildSocksUser (tag : string) (u : Panel.UserInfo) : User :=
  mkUser 0 (Limiter.UserTag tag (Panel.Uuid u)) (SocksAccount (Panel.Uuid u) (Panel.Uuid u)).

Definition buildHTTPUser (tag : string) (u : Panel.UserInfo) : User :=
  mkUser 0 (Limiter.UserTag tag (Panel.Uuid u)) (HTTPAccount (Panel.Uuid u) (Panel.Uuid u)).

Definition buildHysteria2User (tag : string) (u : Panel.UserInfo) : User :=
  mkUser 0 (Limiter.UserTag tag (Panel.Uuid u)) (HysteriaAccount (Panel.Uuid u)).

Definition buildTuicUser (tag : string) (u : Panel.UserInfo) : User :=
  mkUser 0 (Limiter.UserTag tag (Panel.Uuid u)) (TuicAccount (Panel.Uuid u) (Panel.Uuid u)).

Definition buildAnyTLSUser (tag : string) (u : Panel.UserInfo) : User :=
  mkUser 0 (Limiter.UserTag tag (Panel.Uuid u)) (AnyTLSAccount (Panel.Uuid u)).

(** The lists of users. *)
Definition buildVmessUsers (tag : string) (us : list Panel.UserInfo) : list User :=
  buildVmessUser tag <$> us.

Definition buildVlessUsers (tag : string) (us : list Panel.UserInfo) (flow : string) : list User :=
  (λ u, buildVlessUser tag u flow) <$> us.

Definition buildTrojanUsers (tag : string) (us : list Panel.UserInfo) : list User :=
  buildTrojanUser tag <$> us.

Definition buildSSUsers (tag : string) (us : list Panel.UserInfo) (cypher serverKey : string)
    : option (list User) :=
  mapM (λ u, buildSSUser tag u cypher serverKey) us.

Definition buildSocksUsers (tag : string) (us : list Panel.UserInfo) : list User :=
  buildSocksUser tag <$> us.

Definition buildHTTPUsers (tag : string) (us : list Panel.UserInfo) : list User :=
  buildHTTPUser tag <$> us.

Definition buildHysteria2Users (tag : string) (us : list Panel.UserInfo) : list User :=
  buildHysteria2User tag <$> us.

Definition buildTuicUsers (tag : string) (us : list Panel.UserInfo) : list User :=
  buildTuicUser tag <$> us.

Definition buildAnyTLSUsers (tag : string) (us : list Panel.UserInfo) : list User :=
  buildAnyTLSUser tag <$> us.

(** ** Benign errors *)

Definition isBenignAddUserError (e : GoError) : bool :=
  if errorsIs e SentinelCanceled || errorsIs e SentinelDeadlineExceeded then false
  else Contains (ToLower (err_msg e)) "already exists".

Definition isBenignRemoveUserError (e : GoError) : bool :=
  if errorsIs e SentinelCanceled || errorsIs e SentinelDeadlineExceeded then false
  else Contains (ToLower (err_msg e)) "not found".

Definition IsExternalSidecarNodeType (nodeType : string) : bool :=
  bool_decide (nodeType = "mieru" ∨ nodeType = "naive").

(** What [GetHandler] finds for a tag, by the interfaces it implements. *)
Inductive HandlerKind :=
| NotGetInbound         (* not a [proxy.GetInbound] *)
| NotUserManager        (* its inbound is not a [proxy.UserManager] *)
| UserManagerHandler.

(** Xray. *)
Class XrayCore `{Inbound.XrayConf} := {
  Instance_ : Type;
  IHM : Type;
  HandlerConfig : Type;
  Handler : Type;
  MemoryUser : Type;
  Build : Inbound.InboundDetourConfig → result HandlerConfig;
  (** [core.CreateObject]; [None] is an object that is not an inbound handler *)
  CreateObject : Instance_ → HandlerConfig → result (option Handler);
  AddHandler : IHM → Handler → IHM * option GoError;
  RemoveHandler : IHM → string → IHM * option GoError;
  GetHandler : IHM → string → result HandlerKind;
  ToMemoryUser : User → result MemoryUser;
  AddUser : IHM → string → MemoryUser → IHM * option GoError;
  RemoveUser : IHM → string → string → IHM * option GoError
}.

(** The counters and link managers of the dispatcher
    (core/app/dispatcher/default.go), with the objects they point to. *)
Record Dispatcher := mkDispatcher {
  Counter : gmap string (gmap string nat);
  LinkManagers : gmap string nat;
  storages : Traffic.Store;
  world : Links.World
}.

Definition emptyDispatcher : Dispatcher :=
  mkDispatcher ∅ ∅ Traffic.emptyStore Links.emptyWorld.

Section core.
Context `{XCore : XrayCore} {RO : RangeOrder string} {ROn : RangeOrder nat}.

Record V2Core := mkV2Core {
  Server : option Instance_;
  uidMap : option (gmap string Z);           (* [users]; nil before [New] *)
  externalSidecarTags : option (gset string);
  ihm : option IHM;
  dispatcher : option Dispatcher
}.

Implicit Types v : V2Core.

Definition New : V2Core := mkV2Core None (Some ∅) (Some ∅) None None.

(** [Start], once Xray has built and started the instance: its features are
    taken over. *)
Definition Start (server : Instance_) (m : IHM) (d : Dispatcher) v : V2Core :=
  mkV2Core (Some server) (uidMap v) (externalSidecarTags v) (Some m) (Some d).

Definition Close v : V2Core :=
  mkV2Core None (uidMap v) (externalSidecarTags v) None None.

Definition withIHM m v : V2Core :=
  mkV2Core (Server v) (uidMap v) (externalSidecarTags v) (Some m) (dispatcher v).

Definition withUsers u v : V2Core :=
  mkV2Core (Server v) u (externalSidecarTags v) (ihm v) (dispatcher v).

Definition withSidecarTags t v : V2Core :=
  mkV2Core (Server v) (uidMap v) t (ihm v) (dispatcher v).

Definition withDispatcher d v : V2Core :=
  mkV2Core (Server v) (uidMap v) (externalSidecarTags v) (ihm v) d.

(** The user id of a key; an absent key reads as 0. *)
Definition uidOf (k : string) v : Z := default 0 (default ∅ (uidMap v) !! k).

(** ** User managers *)

Definition getUserManagerLocked (tag : string) v : option GoError :=
  match ihm v with
  | None => Some (errorf "core is not ready")
  | Some m =>
      match GetHandler m tag with
      | Err e => Some (errorf ("no such inbound tag: " +:+ err_msg e))
      | Ok NotGetInbound =>
          Some (errorf ("handler " +:+ tag +:+ " is not implement proxy.GetInbound"))
      | Ok NotUserManager =>
          Some (errorf ("handler " +:+ tag +:+ " is not implement proxy.UserManager"))
      | Ok UserManagerHandler => None
      end
  end.

(** A [context.Context]: what [ctx.Err()] returns at the n-th test. *)
Definition Context_ : Type := nat → option GoError.

Definition background : Context_ := λ _, None.

(** *** Deleting users *)

(** Links that connections of a user add while [CloseAll] closes the others. *)
Definition LinkArrivals : Type := string → list (list (nat * nat)).

(** The steps of [DelUsers] after the user left the user manager. *)
Definition forgetUser (arrivals : LinkArrivals) (tag user : string) v : V2Core :=
  let v := withUsers (delete user <$> uidMap v) v in
  match dispatcher v with
  | None => v
  | Some d =>
      let counter :=
        match Counter d !! tag with
        | Some tc => <[tag := Traffic.Delete user tc]> (Counter d)
        | None => Counter d
        end in
      let '(lms, w) :=
        match LinkManagers d !! user with
        | Some lm => (delete user (LinkManagers d), Links.CloseAll (arrivals user) lm (world d))
        | None => (LinkManagers d, world d)
        end in
      withDispatcher (Some (mkDispatcher counter lms (storages d) w)) v
  end.

(** The loop of [DelUsers]; [i] counts the tests of the context. *)
Fixpoint delUsersLoop (arrivals : LinkArrivals) (ctx : Context_) (tag : string) (i : nat)
    (users : list Panel.UserInfo) v : V2Core * option GoError :=
  match users with
  | [] => (v, None)
  | u :: users =>
      match ctx i with
      | Some e => (v, Some e)
      | None =>
          let user := Limiter.UserTag tag (Panel.Uuid u) in
          match ihm v with
          | None => (v, Some (errorf "core is not ready"))
          | Some m =>
              let '(m, err) := RemoveUser m tag user in
              let v := withIHM m v in
              match err with
              | Some e =>
                  if negb (isBenignRemoveUserError e) then (v, Some e)
                  else delUsersLoop arrivals ctx tag (S i) users (forgetUser arrivals tag user v)
              | None => delUsersLoop arrivals ctx tag (S i) users (forgetUser arrivals tag user v)
              end
          end
      end
  end.

Definition DelUsers (arrivals : LinkArrivals) (ctx : Context_) (users : list Panel.UserInfo)
    (tag : string) v : V2Core * option GoError :=
  match dispatcher v with
  | None => (v, Some (errorf "core is not ready"))
  | Some _ =>
      match getUserManagerLocked tag v with
      | Some e => (v, Some (errorf ("get user manager error: " +:+ err_msg e)))
      | None => delUsersLoop arrivals ctx tag 0 users v
      end
  end.

(** *** Adding users *)

Record AddUsersParams := mkAddUsersParams {
  p_Tag : string;
  p_Users : list Panel.UserInfo;
  p_NodeInfo : option Panel.NodeInfo
}.

Definition setUids (tag : string) (users : list Panel.UserInfo) (m : gmap string Z) : gmap string Z :=
  foldl (λ m u, <[Limiter.UserTag tag (Panel.Uuid u) := Panel.Id u]> m) m users.

(** The switch on the node type: an outer [None] is a panic, an inner one the
    default case. *)
Definition buildUsers (type tag : string) (us : list Panel.UserInfo) (common : option Panel.CommonNode)
    : option (option (list User)) :=
  if bool_decide (type = "vmess") then Some (Some (buildVmessUsers tag us))
  else if bool_decide (type = "vless") then
    match common with
    | Some c => Some (Some (buildVlessUsers tag us (Panel.Flow c)))
    | None => None
    end
  else if bool_decide (type = "trojan") then Some (Some (buildTrojanUsers tag us))
  else if bool_decide (type = "shadowsocks") then
    match common with
    | Some c => Some <$> buildSSUsers tag us (Panel.Cipher c) (Panel.ServerKey c)
    | None => None
    end
  else if bool_decide (type = "socks") then Some (Some (buildSocksUsers tag us))
  else if bool_decide (type = "http") then Some (Some (buildHTTPUsers tag us))
  else if bool_decide (type = "hysteria2") then Some (Some (buildHysteria2Users tag us))
  else if bool_decide (type = "tuic") then Some (Some (buildTuicUsers tag us))
  else if bool_decide (type = "anytls") then Some (Some (buildAnyTLSUsers tag us))
  else Some None.

Fixpoint addUsersLoop (ctx : Context_) (tag : string) (i : nat) (added : Z) (users : list User) v
    : V2Core * (Z * option GoError) :=
  match users with
  | [] => (v, (added, None))
  | u :: users =>
      match ctx i with
      | Some e => (v, (added, Some e))
      | None =>
          match ToMemoryUser u with
          | Err e => (v, (0, Some e))
          | Ok mUser =>
              match ihm v with
              | None => (v, (added, Some (errorf "core is not ready")))
              | Some m =>
                  let '(m, err) := AddUser m tag mUser in
                  let v := withIHM m v in
                  match err with
                  | Some e =>
                      if negb (isBenignAddUserError e) then (v, (added, Some e))
                      else addUsersLoop ctx tag (S i) (added + 1) users v
                  | None => addUsersLoop ctx tag (S i) (added + 1) users v
                  end
              end
          end
      end
  end.

(** [AddUsersWithContext]; [None] is a panic (a nil node, or a uuid too short
    for the key of its cipher). *)
Definition AddUsersWithContext (ctx : Context_) (p : AddUsersParams) v
    : option (V2Core * (Z * option GoError)) :=
  let record v := withUsers (setUids (p_Tag p) (p_Users p) <$> uidMap v) v in
  let sidecar := match p_NodeInfo p with
                 | Some n => IsExternalSidecarNodeType (Panel.Type_ n)
                 | None => false
                 end in
  if sidecar then Some (record v, (Z.of_nat (length (p_Users p)), None))
  else
    match getUserManagerLocked (p_Tag p) v with
    | Some e => Some (v, (0, Some (errorf ("get user manager error: " +:+ err_msg e))))
    | None =>
        let v := record v in
        match p_NodeInfo p with
        | None => None
        | Some n =>
            match buildUsers (Panel.Type_ n) (p_Tag p) (p_Users p) (Panel.Common n) with
            | None => None
            | Some None => Some (v, (0, Some (errorf ("unsupported node type: " +:+ Panel.Type_ n))))
            | Some (Some users) => Some (addUsersLoop ctx (p_Tag p) 0 0 users v)
            end
        end
    end.

Definition AddUsers (p : AddUsersParams) v := AddUsersWithContext background p v.

Definition UpdateUserIDs (tag : string) (users : list Panel.UserInfo) v : V2Core * option GoError :=
  match uidMap v with
  | None => (v, Some (errorf "core is not ready"))
  | Some m => (withUsers (Some (setUids tag users m)) v, None)
  end.

(** *** Traffic *)

(** [GetUserTrafficSlice]: the traffic and the items of the rollback
    function; [None] when there is nothing to report. *)
Definition GetUserTrafficSlice (race : Traffic.Arrivals) (tag : string) (mintraffic : Z) v
    : V2Core * option (list Panel.UserTraffic * list Traffic.trafficRollbackItem) :=
  match dispatcher v with
  | None => (v, None)
  | Some d =>
      match Counter d !! tag with
      | None => (v, None)
      | Some c =>
          let s := Traffic.trafficSlice (default ∅ (uidMap v)) race mintraffic c (storages d) in
          let d := mkDispatcher (<[tag := Traffic.ss_counter s]> (Counter d)) (LinkManagers d)
                     (Traffic.ss_store s) (world d) in
          let v := withDispatcher (Some d) v in
          match Traffic.ss_traffic s with
          | [] => (v, None)
          | traffic => (v, Some (traffic, Traffic.ss_rollback s))
          end
      end
  end.

(** The rollback function, on the core the report was taken from. *)
Definition rollbackTraffic (items : list Traffic.trafficRollbackItem) v : V2Core :=
  match dispatcher v with
  | None => v
  | Some d =>
      withDispatcher (Some (mkDispatcher (Counter d) (LinkManagers d)
        (Traffic.rollback items (storages d)) (world d))) v
  end.

(** ** Nodes *)

Definition addInbound (config : HandlerConfig) v : V2Core * option GoError :=
  match Server v, ihm v with
  | Some server, Some m =>
      match CreateObject server config with
      | Err e => (v, Some e)
      | Ok None => (v, Some (errorf "not an InboundHandler: %!s(<nil>)"))
      | Ok (Some handler) =>
          let '(m, err) := AddHandler m handler in (withIHM m v, err)
      end
  | _, _ => (v, Some (errorf "core is not ready"))
  end.

Definition removeInbound (tag : string) v : V2Core * option GoError :=
  match ihm v with
  | Some m => let '(m, err) := RemoveHandler m tag in (withIHM m v, err)
  | None => (v, Some (errorf "core is not ready"))
  end.

(** [buildInbound] with a listen address and Xray's [Build]; each build reads
    its own random bytes. *)
Definition buildHandler (random : result (list ascii)) (now : Z) (n : Panel.NodeInfo)
    (c : Panel.CommonNode) (tag listenIP : string) : result HandlerConfig :=
  result_bind (Inbound.buildInboundWithListenIP random now n c tag listenIP) Build.

(** [AddNode]; [None] is a panic (a node without settings). *)
Definition AddNode (random : nat → result (list ascii)) (now : Z) (tag : string)
    (info : option Panel.NodeInfo) v : option (V2Core * option GoError) :=
  let sidecar := match info with
                 | Some n => IsExternalSidecarNodeType (Panel.Type_ n)
                 | None => false
                 end in
  if sidecar then
    Some (withSidecarTags (Some ({[tag]} ∪ default ∅ (externalSidecarTags v))) v, None)
  else
    match Server v, ihm v with
    | Some _, Some _ =>
        match info with
        | None => None
        | Some n =>
            match Panel.Common n with
            | None => None
            | Some c =>
                match buildHandler (random 0%nat) now n c tag (Inbound.resolveNodeListenIP (Panel.ListenIP c)) with
                | Err e => Some (v, Some (errorf ("build inbound error: " +:+ err_msg e)))
                | Ok config =>
                    let '(v, err) := addInbound config v in
                    match err with
                    | None => Some (v, None)
                    | Some err =>
                        if Inbound.shouldFallbackNodeListenIP (Panel.ListenIP c) then
                          let '(v, _) := removeInbound tag v in
                          match buildHandler (random 1%nat) now n c tag "0.0.0.0" with
                          | Err e =>
                              Some (v, Some (errorf ("build ipv4 fallback inbound error: " +:+ err_msg e)))
                          | Ok config =>
                              let '(v, fallbackErr) := addInbound config v in
                              match fallbackErr with
                              | None => Some (v, None)
                              | Some e =>
                                  Some (v, Some (errorf ("add inbound error: " +:+ err_msg err
                                    +:+ "; ipv4 fallback error: " +:+ err_msg e)))
                              end
                          end
                        else Some (v, Some (errorf ("add inbound error: " +:+ err_msg err)))
                    end
                end
            end
        end
    | _, _ => Some (v, Some (errorf "core is not ready"))
    end.

(** The loop deletes the keys of the tag while it ranges over the map. *)
Definition deleteUserIDsForTag (tag : string) v : V2Core :=
  match uidMap v with
  | None => v
  | Some m =>
      withUsers (Some (foldl (λ m' entry, if HasPrefix entry.1 (tag +:+ String "|"%char EmptyString)
                                          then delete entry.1 m' else m') m (range_list m))) v
  end.

Definition DelNode (tag : string) v : V2Core * option GoError :=
  if bool_decide (tag ∈ default ∅ (externalSidecarTags v)) then
    (deleteUserIDsForTag tag
       (withSidecarTags ((λ t, t ∖ {[tag]}) <$> externalSidecarTags v) v), None)
  else
    match ihm v with
    | None => (v, Some (errorf "core is not ready"))
    | Some _ =>
        let '(v, err) := removeInbound tag v in
        match err with
        | Some e => (v, Some (errorf ("remove in error: " +:+ err_msg e)))
        | None => (v, None)
        end
    end.

End core.
End Core.
