(* ===== verification/CoreProps.v ===== *)
(** * Properties of the proxy core

    What deleting and adding users does to every table that knows users
    ([DelUsers_forgets], [user_membership]), the users built for Xray
    ([buildUsers_panic_iff]), the users an inbound configures itself
    ([buildInbound_unkeyed]) and the life of a node served by an external sidecar
    ([sidecar_roundtrip]). *)

From Stdlib Require Import Ascii.
From S2P Require Import Prelude GoStrings Json Panel Limiter Inbound Links Traffic Core.

Module CoreProps.
Import GoStrings Core.

Definition key (tag : string) (u : Panel.UserInfo) : string := Limiter.UserTag tag (Panel.Uuid u).

(** ** What the tables know about a user *)

Section tables.
Context `{XCore : XrayCore} {RO : RangeOrder string} {ROn : RangeOrder nat}.
Implicit Types (v : V2Core) (d : Dispatcher).

(** The storage of a user's traffic under a tag. *)
Definition counterOf (tag k : string) d : option nat := Counter d !! tag ≫= (.!! k).

(** Everything the core keeps for a user key. *)
Definition userState (tag k : string) v : option Z * option (option nat * option nat) :=
  (default ∅ (uidMap v) !! k,
   (λ d, (counterOf tag k d, LinkManagers d !! k)) <$> dispatcher v).

(** Nothing is left of the user. *)
Definition forgotten (tag k : string) v : Prop :=
  default ∅ (uidMap v) !! k = None
  ∧ ∀ d, dispatcher v = Some d → counterOf tag k d = None ∧ LinkManagers d !! k = None.

(** Each link manager belongs to one user and manages its own writers. *)
Record wfLinks (arrivals : LinkArrivals) d : Prop := {
  wf_inj k k' lm : LinkManagers d !! k = Some lm → LinkManagers d !! k' = Some lm → k = k';
  wf_links k lm a r : LinkManagers d !! k = Some lm → Links.links lm (world d) !! a = Some r →
    Links.managedBy lm a (world d);
  wf_arrivals k lm round a r : LinkManagers d !! k = Some lm → round ∈ arrivals k → (a, r) ∈ round →
    Links.managedBy lm a (world d)
}.

(** Every link the user had in [d] is shut in [d']. *)
Definition linksShut (k : string) d d' : Prop :=
  ∀ lm a r, LinkManagers d !! k = Some lm → Links.links lm (world d) !! a = Some r →
    Links.linkClosed a r (world d').

(** [d'] is [d] after some users were forgotten. *)
Record forgets (tag : string) (ks : list string) v v' d d' : Prop := {
  fg_before : dispatcher v = Some d;
  fg_dispatcher : dispatcher v' = Some d';
  fg_forgotten k : k ∈ ks → forgotten tag k v';
  fg_others k : k ∉ ks → userState tag k v' = userState tag k v;
  fg_shut k : k ∈ ks → linksShut k d d';
  fg_links k lm : k ∉ ks → LinkManagers d !! k = Some lm →
    Links.links lm (world d') = Links.links lm (world d);
  fg_world : Links.closesMore (world d) (world d');
  fg_managers k lm : LinkManagers d' !! k = Some lm → LinkManagers d !! k = Some lm;
  fg_storages : storages d' = storages d
}.

Lemma forgetUser_forgets arrivals tag k v d :
  dispatcher v = Some d → wfLinks arrivals d →
  ∃ d', forgets tag [k] v (forgetUser arrivals tag k v) d d'.
Proof.
  intros Hd Hwf. unfold forgetUser. simpl. rewrite Hd.
  set (counter := match Counter d !! tag with Some _ => _ | None => _ end).
  assert (Hcounter : ∀ k', (counter !! tag ≫= (.!! k')) = if decide (k' = k) then None else counterOf tag k' d).
  { intros k'. unfold counter, counterOf. destruct (Counter d !! tag) as [c|] eqn:Hc; simpl.
    - rewrite lookup_insert_eq. simpl. unfold Traffic.Delete.
      case_decide; [subst; apply lookup_delete_eq|by apply lookup_delete_ne].
    - rewrite Hc. by case_decide. }
  assert (Hmap : ∀ k', default ∅ (delete k <$> uidMap v) !! k'
                       = if decide (k' = k) then None else default ∅ (uidMap v) !! k').
  { intros k'. destruct (uidMap v); simpl; rewrite ?lookup_empty;
      case_decide; subst; rewrite ?lookup_delete_eq, ?lookup_delete_ne by done; done. }
  destruct (LinkManagers d !! k) as [lm|] eqn:Hlm.
  - pose proof (Links.CloseAll_spec (arrivals k) lm (world d)) as (Hempty & Hmore & Hclosed & _).
    pose proof (Links.CloseAll_frame (arrivals k) lm (world d)
      (λ a r, wf_links _ _ Hwf k lm a r Hlm) (λ round a r, wf_arrivals _ _ Hwf k lm round a r Hlm)) as Hframe.
    eexists. constructor; simpl; try done.
    + intros k' ->%list_elem_of_singleton. split; [simpl; rewrite Hmap; by rewrite decide_True|].
      intros d' [= <-]. unfold counterOf. simpl. rewrite Hcounter, decide_True by done.
      split; [done|]. apply lookup_delete_eq.
    + intros k' Hk'. rewrite list_elem_of_singleton in Hk'. unfold userState, counterOf. simpl.
      rewrite Hmap, Hcounter, !decide_False by done. rewrite Hd. simpl. by rewrite lookup_delete_ne by done.
    + intros k' ->%list_elem_of_singleton lm' a r Hlm' Hr. rewrite Hlm in Hlm'. injection Hlm' as <-.
      by apply Hclosed.
    + intros k' lm' Hk' Hlm'. rewrite list_elem_of_singleton in Hk'. apply Hframe. intros ->.
      apply Hk'. by eapply (wf_inj _ _ Hwf).
    + intros k' lm' Hk'. simpl in Hk'. apply lookup_delete_Some in Hk'. tauto.
  - eexists. constructor; simpl; try done.
    + intros k' ->%list_elem_of_singleton. split; [simpl; rewrite Hmap; by rewrite decide_True|].
      intros d' [= <-]. unfold counterOf. simpl. by rewrite Hcounter, decide_True by done.
    + intros k' Hk'. rewrite list_elem_of_singleton in Hk'. unfold userState, counterOf. simpl.
      rewrite Hmap, Hcounter, !decide_False by done. by rewrite Hd.
    + intros k' ->%list_elem_of_singleton lm' a r Hlm'. congruence.
Qed.

Lemma forgets_wf arrivals tag ks v v' d d' :
  wfLinks arrivals d → forgets tag ks v v' d d' →
  (∀ k, k ∈ ks → ∀ lm, LinkManagers d' !! k = Some lm → False) → wfLinks arrivals d'.
Proof.
  intros Hwf Hf Hks. pose proof (fg_world _ _ _ _ _ _ Hf) as (Hm & _).
  assert (Hby : ∀ lm a, Links.managedBy lm a (world d) → Links.managedBy lm a (world d')).
  { intros lm a (mw & ? & ?). exists mw. by rewrite Hm. }
  constructor.
  - intros k k' lm H1%(fg_managers _ _ _ _ _ _ Hf) H2%(fg_managers _ _ _ _ _ _ Hf).
    by eapply (wf_inj _ _ Hwf).
  - intros k lm a r Hlm Hr. apply Hby. destruct (decide (k ∈ ks)) as [Hin|Hin]; [by edestruct Hks|].
    apply (fg_managers _ _ _ _ _ _ Hf) in Hlm. rewrite (fg_links _ _ _ _ _ _ Hf k) in Hr by done.
    by eapply (wf_links _ _ Hwf).
  - intros k lm round a r Hlm%(fg_managers _ _ _ _ _ _ Hf) Hround Hin. apply Hby.
    by eapply (wf_arrivals _ _ Hwf).
Qed.

Lemma forgets_managers tag ks v v' d d' k lm :
  forgets tag ks v v' d d' → k ∈ ks → LinkManagers d' !! k = Some lm → False.
Proof.
  intros Hf Hk Hlm. destruct (fg_forgotten _ _ _ _ _ _ Hf k Hk) as [_ Hno].
  destruct (Hno _ (fg_dispatcher _ _ _ _ _ _ Hf)) as [_ Hn]. congruence.
Qed.

Lemma forgets_nil tag v d : dispatcher v = Some d → forgets tag [] v v d d.
Proof. intros Hd. constructor; try done; intros k Hk; by apply elem_of_nil in Hk. Qed.

Lemma forgets_cons tag k ks v v1 v' d d1 d' :
  forgets tag [k] v v1 d d1 → forgets tag ks v1 v' d1 d' → forgets tag (k :: ks) v v' d d'.
Proof.
  intros H1 H2. pose proof (fg_dispatcher _ _ _ _ _ _ H1) as Hd1. pose proof (fg_dispatcher _ _ _ _ _ _ H2) as Hd'.
  constructor; [apply (fg_before _ _ _ _ _ _ H1)|done| | | | | | |].
  - intros k' Hk'. destruct (decide (k' ∈ ks)) as [Hin|Hin]; [by apply (fg_forgotten _ _ _ _ _ _ H2)|].
    assert (k' = k) as -> by (apply elem_of_cons in Hk'; naive_solver).
    destruct (fg_forgotten _ _ _ _ _ _ H1 k ltac:(left)) as [Hu Hn]. destruct (Hn _ Hd1) as [Hc Hl].
    pose proof (fg_others _ _ _ _ _ _ H2 k Hin) as Hs. unfold userState in Hs. rewrite Hd1, Hd' in Hs.
    simpl in Hs. rewrite Hu, Hc, Hl in Hs. injection Hs as Hs1 Hs2 Hs3.
    split; [done|]. intros d0. rewrite Hd'. by intros [= <-].
  - intros k' Hk'. rewrite not_elem_of_cons in Hk'.
    rewrite (fg_others _ _ _ _ _ _ H2) by tauto. apply (fg_others _ _ _ _ _ _ H1).
    rewrite list_elem_of_singleton. tauto.
  - intros k' Hk' lm a r Hlm Hr. destruct (decide (k' = k)) as [->|Hne].
    + eapply Links.linkClosed_more; [apply (fg_world _ _ _ _ _ _ H2)|].
      by eapply (fg_shut _ _ _ _ _ _ H1 k ltac:(left)).
    + assert (Hin : k' ∈ ks) by (apply elem_of_cons in Hk'; naive_solver).
      assert (Hn1 : k' ∉ [k]) by (by rewrite list_elem_of_singleton).
      eapply (fg_shut _ _ _ _ _ _ H2 k' Hin lm a r).
      * pose proof (fg_others _ _ _ _ _ _ H1 k' Hn1) as Hs. unfold userState in Hs.
        rewrite Hd1, (fg_before _ _ _ _ _ _ H1) in Hs. simpl in Hs. injection Hs as _ _ Hs. congruence.
      * by rewrite (fg_links _ _ _ _ _ _ H1 k').
  - intros k' lm Hk' Hlm. rewrite not_elem_of_cons in Hk'.
    assert (Hn1 : k' ∉ [k]) by (rewrite list_elem_of_singleton; tauto).
    rewrite <- (fg_links _ _ _ _ _ _ H1 k' lm) by done. apply (fg_links _ _ _ _ _ _ H2 k'); [tauto|].
    pose proof (fg_others _ _ _ _ _ _ H1 k' Hn1) as Hs. unfold userState in Hs.
    rewrite Hd1, (fg_before _ _ _ _ _ _ H1) in Hs. simpl in Hs. injection Hs as _ _ Hs. congruence.
  - etrans; [apply (fg_world _ _ _ _ _ _ H1)|apply (fg_world _ _ _ _ _ _ H2)].
  - intros k' lm Hlm. apply (fg_managers _ _ _ _ _ _ H1). by apply (fg_managers _ _ _ _ _ _ H2).
  - by rewrite (fg_storages _ _ _ _ _ _ H2), (fg_storages _ _ _ _ _ _ H1).
Qed.

(** The loop of [DelUsers] forgets the users before the one it stops at. *)
Lemma delUsersLoop_forgets arrivals ctx tag i users v v' err d :
  dispatcher v = Some d → wfLinks arrivals d →
  delUsersLoop arrivals ctx tag i users v = (v', err) →
  ∃ n d', (n <= length users)%nat ∧ (err = None → n = length users)
    ∧ forgets tag (key tag <$> take n users) v v' d d'.
Proof.
  revert i v d. induction users as [|u users IH]; intros i v d Hd Hwf; simpl.
  { intros [= <- <-]. exists 0%nat, d. split_and!; [done|done|]. by apply forgets_nil. }
  assert (Hstop : ∀ v0 e, dispatcher v0 = Some d → uidMap v0 = uidMap v → (v0, Some e) = (v', err) →
     ∃ n d', (n <= S (length users))%nat ∧ (err = None → n = S (length users))
       ∧ forgets tag (key tag <$> take n (u :: users)) v v' d d').
  { intros v0 e Hd0 Hu0 [= <- <-]. exists 0%nat, d. split_and!; [lia|done|].
    constructor; try done; intros k Hk; try (by apply elem_of_nil in Hk).
    unfold userState. by rewrite Hu0, Hd, Hd0. }
  destruct (ctx i) as [e|]; [by eapply Hstop|].
  destruct (ihm v) as [m|] eqn:Hm; [|by eapply Hstop].
  destruct (RemoveUser m tag _) as [m' r].
  assert (Hgo : delUsersLoop arrivals ctx tag (S i) users (forgetUser arrivals tag (key tag u) (withIHM m' v)) = (v', err) →
     ∃ n d', (n <= S (length users))%nat ∧ (err = None → n = S (length users))
       ∧ forgets tag (key tag <$> take n (u :: users)) v v' d d').
  { intros Hloop. destruct (forgetUser_forgets arrivals tag (key tag u) (withIHM m' v) d Hd Hwf) as (d1 & H1).
    assert (Hwf1 : wfLinks arrivals d1).
    { eapply forgets_wf; [done|done|]. intros k Hk lm. by eapply forgets_managers. }
    destruct (IH _ _ d1 (fg_dispatcher _ _ _ _ _ _ H1) Hwf1 Hloop) as (n & d' & Hn & Herr & H2).
    exists (S n), d'. split_and!; [lia|intros ->; by rewrite Herr|]. simpl.
    eapply forgets_cons; [|exact H2].
    destruct H1. constructor; try done. }
  destruct r as [e|]; [|by apply Hgo]. destruct (negb _); [by eapply Hstop|by apply Hgo].
Qed.

(** Deleting users. Up to the user it stops at (all of them, when it reports
    no error), [DelUsers] leaves nothing of a deleted user: the id, the
    traffic counter and the link manager are gone and both ends of every
    connection the user had open are shut. Every other user of the core keeps
    id, counter, link manager and connections, and the traffic storages that
    reports may still point to are untouched. *)
Theorem DelUsers_forgets arrivals ctx users tag v v' err d :
  dispatcher v = Some d → wfLinks arrivals d →
  DelUsers arrivals ctx users tag v = (v', err) →
  ∃ n d', (n <= length users)%nat ∧ (err = None → n = length users)
    ∧ forgets tag (key tag <$> take n users) v v' d d'.
Proof.
  intros Hd Hwf. unfold DelUsers. rewrite Hd.
  destruct (getUserManagerLocked tag v) as [e|]; [|by eapply delUsersLoop_forgets].
  intros [= <- <-]. exists 0%nat, d. split_and!; [lia|done|]. by apply forgets_nil.
Qed.

End tables.

(** ** The users built for Xray *)

Lemma mapM_emails {A} (f : A → option User) (g : A → string) us l :
  (∀ a u, f a = Some u → Email u = g a) → mapM f us = Some l → Email <$> l = g <$> us.
Proof.
  intros Hf Hl%mapM_Some. induction Hl as [|a u us l Ha Hl IH]; [done|].
  cbn. f_equal; [by apply Hf|done].
Qed.

Lemma buildSSUser_email tag u cypher serverKey x :
  buildSSUser tag u cypher serverKey = Some x → Email x = key tag u.
Proof. unfold buildSSUser. repeat case_match; by intros [= <-]. Qed.

Lemma buildUsers_keys type tag us common l :
  buildUsers type tag us common = Some (Some l) → Email <$> l = key tag <$> us.
Proof.
  unfold buildUsers. repeat case_match; try done; intros Heq.
  4: { apply fmap_Some in Heq as (l' & Hl' & [= ->]).
       eapply mapM_emails; [|exact Hl']. intros a u. apply buildSSUser_email. }
  all: injection Heq as <-; unfold buildVmessUsers, buildVlessUsers, buildTrojanUsers, buildSocksUsers,
    buildHTTPUsers, buildHysteria2Users, buildTuicUsers, buildAnyTLSUsers;
    by rewrite <- list_fmap_compose.
Qed.

(** Building the users of a node with settings panics exactly for a
    Shadowsocks 2022 node one of whose users has a uuid shorter than the key
    of the node's cipher. *)
Theorem buildUsers_panic_iff type tag us c :
  buildUsers type tag us (Some c) = None ↔
  type = "shadowsocks" ∧ Panel.ServerKey c ≠ ""
  ∧ ∃ u, u ∈ us ∧ (String.length (Panel.Uuid u) < ssKeyLength (Panel.Cipher c))%nat.
Proof.
  assert (Hss : buildSSUsers tag us (Panel.Cipher c) (Panel.ServerKey c) = None ↔
    Panel.ServerKey c ≠ "" ∧ ∃ u, u ∈ us ∧ (String.length (Panel.Uuid u) < ssKeyLength (Panel.Cipher c))%nat).
  { unfold buildSSUsers. rewrite mapM_None, Exists_exists. unfold buildSSUser. case_bool_decide as Hk.
    - split; [by intros (u & _ & ?) | tauto].
    - split.
      + intros (u & Hu & Hn). split; [done|]. exists u. split; [done|].
        by destruct (Nat.ltb_spec (String.length (Panel.Uuid u)) (ssKeyLength (Panel.Cipher c))).
      + intros (_ & u & Hu & Hlt). exists u. split; [done|]. by rewrite (proj2 (Nat.ltb_lt _ _)). }
  unfold buildUsers. repeat (case_bool_decide; [subst; try (split; [done|intros [? _]; done])|]).
  - rewrite fmap_None, Hss. naive_solver.
  - split; [done|]. by intros [? _].
Qed.

(** The keys of a tag are the ones with its prefix. *)
Definition hasTag (tag k : string) : bool := HasPrefix k (tag +:+ String "|"%char EmptyString).

Lemma hasTag_key tag u : hasTag tag (key tag u) = true.
Proof.
  unfold hasTag, key, Limiter.UserTag. apply HasPrefix_spec. exists (Panel.Uuid u).
  by rewrite app_string_assoc.
Qed.

(** ** The users an inbound configures itself *)

Section configured.
Context `{XC : Inbound.XrayConf}.

(** The names under which Xray knows the users of the settings: those of a
    Shadowsocks inbound have no e-mail, those of an HTTP inbound have the name of
    their account. *)
Definition settingsUsers (i : Inbound.InboundDetourConfig) : list string :=
  match Inbound.in_Settings i with
  | Some (Inbound.ShadowsocksServerConfig _ _ us _) => (λ _, "") <$> us
  | Some (Inbound.HTTPServerConfig accounts) => accounts.*1
  | _ => []
  end.

(** The separator of the keys of users. *)
Definition separator : ascii := "|"%char.

Lemma nth_byte_separator alphabet n :
  separator ∉ bytes alphabet → Json.nth_byte alphabet n ≠ separator.
Proof.
  intros Hs Heq. unfold Json.nth_byte in Heq. destruct (decide (N.to_nat n < length (bytes alphabet))%nat) as [Hlt|Hge].
  - apply Hs. rewrite <- Heq. by apply list_elem_of_In, nth_In.
  - by rewrite nth_overflow in Heq by lia.
Qed.

Lemma base64_separator alphabet l :
  separator ∉ bytes alphabet → separator ∉ Json.base64_bytes alphabet false l.
Proof.
  intros Hs. assert (Hn : ∀ n, separator ≠ Json.nth_byte alphabet n).
  { intros n E. by apply (nth_byte_separator alphabet n Hs). }
  assert (Hlen : ∀ n l, (length l ≤ n)%nat → separator ∉ Json.base64_bytes alphabet false l).
  { intros n. induction n as [|n IH]; intros [|a [|b [|c l']]] Hl; cbn in Hl |- *; try lia.
    all: rewrite ?not_elem_of_cons; split_and?; try apply Hn; try apply not_elem_of_nil.
    apply IH. lia. }
  by apply (Hlen (length l)).
Qed.

Lemma formatBase36_separator fuel n acc :
  separator ∉ acc → separator ∉ Inbound.formatBase36 fuel n acc.
Proof.
  revert n acc. induction fuel as [|fuel IH]; intros n acc Hacc; cbn [Inbound.formatBase36]; [done|].
  assert (Hd : separator ∉ Json.nth_byte "0123456789abcdefghijklmnopqrstuvwxyz" (Z.to_N (n mod 36)) :: acc).
  { rewrite not_elem_of_cons. split; [|done]. intros E. symmetry in E. revert E. apply nth_byte_separator.
    by apply (bool_decide_unpack (separator ∉ _)). }
  destruct (n <? 36); [done|]. by apply IH.
Qed.

Lemma dynamicAuthGuard_separator random now : separator ∉ bytes (Inbound.dynamicAuthGuard random now).
Proof.
  unfold Inbound.dynamicAuthGuard.
  assert (Hp : separator ∉ bytes "__keli_dynamic_http_") by by apply (bool_decide_unpack (separator ∉ _)).
  destruct random as [token|e]; rewrite bytes_app, elem_of_app; unfold Json.base64RawURL; rewrite bytes_of_bytes;
    intros [Hin|Hin]; try done; revert Hin.
  - apply base64_separator. by apply (bool_decide_unpack (separator ∉ _)).
  - apply formatBase36_separator, not_elem_of_nil.
Qed.

Lemma hasTag_separator tag k : hasTag tag k = true → separator ∈ bytes k.
Proof.
  intros (t & ->)%HasPrefix_spec. rewrite !bytes_app, !elem_of_app. left. right. apply list_elem_of_singleton. done.
Qed.

(** None of the users can be taken for a user of the panel. *)
Definition unkeyed (d : Inbound.InboundDetourConfig) : Prop :=
  Forall (λ k, separator ∉ bytes k) (settingsUsers d).

Lemma unkeyed_settings d d' : Inbound.in_Settings d' = Inbound.in_Settings d → unkeyed d → unkeyed d'.
Proof. unfold unkeyed, settingsUsers. by intros ->. Qed.

Lemma buildProtocol_unkeyed rnd now type cm d : Inbound.buildProtocol rnd now type cm = Ok d → unkeyed d.
Proof.
  unfold Inbound.buildProtocol, Inbound.buildVLess, Inbound.buildVMess, Inbound.buildTrojan, Inbound.buildShadowsocks,
    Inbound.buildSocks, Inbound.buildHTTP, Inbound.buildHysteria2, Inbound.buildTuic, Inbound.buildAnyTLS, result_bind.
  repeat (case_match; try done). all: intros [= <-]; unfold unkeyed, settingsUsers; cbn; repeat constructor.
  all: try apply not_elem_of_nil. all: try apply dynamicAuthGuard_separator.
Qed.

Lemma setProxyProtocol_settings cm d d' :
  Inbound.setProxyProtocol cm d = Ok d' → Inbound.in_Settings d' = Inbound.in_Settings d.
Proof. unfold Inbound.setProxyProtocol, result_bind. repeat (case_match; try done); by intros [= <-]. Qed.

Lemma setSecurity_settings n cm d d' :
  Inbound.setSecurity n cm d = Ok d' → Inbound.in_Settings d' = Inbound.in_Settings d.
Proof. unfold Inbound.setSecurity. repeat (case_match; try done); by intros [= <-]. Qed.

Lemma buildInbound_unkeyed rnd now n cm tag ip d :
  Inbound.buildInboundWithListenIP rnd now n cm tag ip = Ok d → unkeyed d.
Proof.
  unfold Inbound.buildInboundWithListenIP, result_bind.
  destruct (Inbound.buildProtocol _ _ _ _) as [d1|] eqn:H1; [|done]. apply buildProtocol_unkeyed in H1.
  destruct (Inbound.setProxyProtocol _ _) as [d2|] eqn:H2; [|done]. apply setProxyProtocol_settings in H2.
  destruct (Inbound.setSecurity _ _ _) as [d3|] eqn:H3; [|done]. apply setSecurity_settings in H3. cbn in H3.
  intros [= <-]. eapply unkeyed_settings; [|exact H1]. cbn. by rewrite H3.
Qed.

(** None of them has the prefix of a tag. *)
Lemma unkeyed_filter d t : unkeyed d → filter (λ k, hasTag t k = true) (settingsUsers d) = [].
Proof.
  unfold unkeyed. induction 1 as [|k l Hk Hl IH]; [done|]. rewrite filter_cons_False; [done|].
  by intros ?%hasTag_separator.
Qed.

End configured.

(** ** Membership in the user managers *)

(** The documented behaviour of Xray's user managers. [members] are the e-mails
    with the prefix of the tag that the manager of the tag knows; it may know
    other users, which the inbound itself configures. Adding and removing a user
    with such an e-mail change them by exactly that user, or report an error and
    change nothing; the errors the program takes for benign mean that the user was
    there, or was not there, already. *)
Class UserManagerLaws `{XCore : XrayCore} := {
  members : IHM → string → gset string;
  mu_email : MemoryUser → string;
  ToMemoryUser_email u mu : ToMemoryUser u = Ok mu → mu_email mu = Email u;
  AddUser_ok m tag mu m' : hasTag tag (mu_email mu) = true → AddUser m tag mu = (m', None) →
    members m' tag = {[mu_email mu]} ∪ members m tag;
  AddUser_benign m tag mu m' e : hasTag tag (mu_email mu) = true →
    AddUser m tag mu = (m', Some e) → isBenignAddUserError e = true →
    members m' tag = members m tag ∧ mu_email mu ∈ members m tag;
  RemoveUser_ok m tag k m' : hasTag tag k = true → RemoveUser m tag k = (m', None) →
    members m' tag = members m tag ∖ {[k]};
  RemoveUser_benign m tag k m' e : hasTag tag k = true → RemoveUser m tag k = (m', Some e) →
    isBenignRemoveUserError e = true →
    members m' tag = members m tag ∧ k ∉ members m tag
}.

(** What the controller does to the users of a node. *)
Inductive userOp :=
| OpAdd (us : list Panel.UserInfo) (n : Panel.NodeInfo)
| OpDel (us : list Panel.UserInfo)
| OpIDs (us : list Panel.UserInfo).

(** The abstract user table of a node: user keys to user ids. *)
Definition specOp (tag : string) (t : gmap string Z) (op : userOp) : gmap string Z :=
  match op with
  | OpAdd us _ => setUids tag us t
  | OpDel us => foldl (λ t u, delete (key tag u) t) t us
  | OpIDs us => foldl (λ t u, alter (λ _, Panel.Id u) (key tag u) t) t us
  end.

Section membership.
Context `{Laws : UserManagerLaws} {RO : RangeOrder string} {ROn : RangeOrder nat}.
Implicit Types v : V2Core.

(** One operation on the core; [None] unless it succeeds. *)
Definition runUserOp (arrivals : LinkArrivals) (ctx : Context_) (tag : string) v (op : userOp)
    : option V2Core :=
  match op with
  | OpAdd us n =>
      match AddUsersWithContext ctx (mkAddUsersParams tag us (Some n)) v with
      | Some (v', (_, None)) => if IsExternalSidecarNodeType (Panel.Type_ n) then None else Some v'
      | _ => None
      end
  | OpDel us => match DelUsers arrivals ctx us tag v with (v', None) => Some v' | _ => None end
  | OpIDs us => match UpdateUserIDs tag us v with (v', None) => Some v' | _ => None end
  end.

(** The core represents a user table: the manager of the node knows exactly
    the users of the table and the core knows their ids. *)
Definition represents (tag : string) v (t : gmap string Z) : Prop :=
  (∃ m, ihm v = Some m ∧ members m tag = dom t)
  ∧ ∃ um, uidMap v = Some um ∧ t ⊆ um.

Lemma addUsersLoop_members ctx tag i added users v v' n m :
  Forall (λ u, hasTag tag (Email u) = true) users →
  ihm v = Some m → addUsersLoop ctx tag i added users v = (v', (n, None)) →
  uidMap v' = uidMap v ∧ n = added + Z.of_nat (length users)
  ∧ ∃ m', ihm v' = Some m' ∧ members m' tag = members m tag ∪ list_to_set (Email <$> users).
Proof.
  revert i added v m. induction users as [|u users IH]; intros i added v m Hus Hm; cbn [addUsersLoop].
  { intros [= <- <-]. split_and!; [done|cbn; lia|]. exists m. split; [done|]. cbn. set_solver. }
  apply Forall_cons in Hus as [Hu Hus]. destruct (ctx i); [done|]. destruct (ToMemoryUser u) as [mu|e] eqn:Hmu; [|done]. rewrite Hm.
  destruct (AddUser m tag mu) as [m1 err] eqn:Hadd.
  assert (Hstep : ∀ i' , members m1 tag = {[Email u]} ∪ members m tag →
    addUsersLoop ctx tag i' (added + 1) users (withIHM m1 v) = (v', (n, None)) →
    uidMap v' = uidMap v ∧ n = added + Z.of_nat (length (u :: users))
    ∧ ∃ m', ihm v' = Some m' ∧ members m' tag = members m tag ∪ list_to_set (Email <$> u :: users)).
  { intros i' H1 Hloop. destruct (IH i' (added + 1) (withIHM m1 v) m1 Hus eq_refl Hloop) as (Huid & Hn & m' & Hm' & Hmem).
    split_and!; [done|cbn [length]; lia|]. exists m'. split; [done|]. rewrite Hmem, H1. cbn. set_solver. }
  rewrite <- (ToMemoryUser_email u mu Hmu) in Hstep, Hu.
  destruct err as [e|].
  - destruct (isBenignAddUserError e) eqn:Hb; cbn [negb]; [|done].
    apply AddUser_benign in Hadd as [Heq Hin]; [|done..]. apply Hstep. rewrite Heq. set_solver.
  - apply AddUser_ok in Hadd; [|done]. by apply Hstep.
Qed.

Lemma uidMap_forgetUser arrivals tag k v : uidMap (forgetUser arrivals tag k v) = delete k <$> uidMap v.
Proof. unfold forgetUser. simpl. repeat case_match; done. Qed.

Lemma ihm_forgetUser arrivals tag k v : ihm (forgetUser arrivals tag k v) = ihm v.
Proof. unfold forgetUser. simpl. repeat case_match; done. Qed.

Lemma delUsersLoop_members arrivals ctx tag i users v v' m :
  ihm v = Some m → delUsersLoop arrivals ctx tag i users v = (v', None) →
  uidMap v' = (λ um, foldl (λ um u, delete (key tag u) um) um users) <$> uidMap v
  ∧ ∃ m', ihm v' = Some m' ∧ members m' tag = members m tag ∖ list_to_set (key tag <$> users).
Proof.
  revert i v m. induction users as [|u users IH]; intros i v m Hm; cbn [delUsersLoop].
  { intros [= <-]. split; [by destruct (uidMap v)|]. exists m. split; [done|]. cbn. set_solver. }
  destruct (ctx i); [done|]. rewrite Hm. fold (key tag u).
  destruct (RemoveUser m tag (key tag u)) as [m1 err] eqn:Hrem.
  assert (Hstep : ∀ i', members m1 tag = members m tag ∖ {[key tag u]} →
    delUsersLoop arrivals ctx tag i' users (forgetUser arrivals tag (key tag u) (withIHM m1 v)) = (v', None) →
    uidMap v' = (λ um, foldl (λ um u, delete (key tag u) um) um (u :: users)) <$> uidMap v
    ∧ ∃ m', ihm v' = Some m' ∧ members m' tag = members m tag ∖ list_to_set (key tag <$> u :: users)).
  { intros i' H1 Hloop. destruct (IH i' (forgetUser arrivals tag (key tag u) (withIHM m1 v)) m1 ltac:(by rewrite ihm_forgetUser) Hloop) as (Hu & m' & Hm' & Hmem).
    split; [rewrite Hu, uidMap_forgetUser; change (uidMap (withIHM m1 v)) with (uidMap v); by destruct (uidMap v)|].
    exists m'. split; [done|]. rewrite Hmem, H1. cbn. set_solver. }
  destruct err as [e|].
  - destruct (isBenignRemoveUserError e) eqn:Hb; cbn [negb]; [|done].
    apply RemoveUser_benign in Hrem as [Heq Hin]; [|apply hasTag_key|done]. apply Hstep. rewrite Heq. set_solver.
  - apply RemoveUser_ok in Hrem; [|apply hasTag_key]. by apply Hstep.
Qed.

Lemma setUids_dom tag us t : dom (setUids tag us t) = dom t ∪ list_to_set (key tag <$> us).
Proof.
  unfold setUids. revert t. induction us as [|u us IH]; intros t; cbn; [set_solver|].
  rewrite IH, dom_insert_L. unfold key. set_solver.
Qed.

Lemma setUids_mono tag us t um : t ⊆ um → setUids tag us t ⊆ setUids tag us um.
Proof.
  unfold setUids. revert t um. induction us as [|u us IH]; intros t um Hsub; cbn; [done|].
  apply IH. by apply insert_mono.
Qed.

Lemma foldl_delete_dom tag us (t : gmap string Z) :
  dom (foldl (λ t u, delete (key tag u) t) t us) = dom t ∖ list_to_set (key tag <$> us).
Proof.
  revert t. induction us as [|u us IH]; intros t; cbn; [set_solver|].
  rewrite IH, dom_delete_L. set_solver.
Qed.

Lemma foldl_delete_mono tag us (t um : gmap string Z) :
  t ⊆ um → foldl (λ t u, delete (key tag u) t) t us ⊆ foldl (λ t u, delete (key tag u) t) um us.
Proof.
  revert t um. induction us as [|u us IH]; intros t um Hsub; cbn; [done|]. apply IH. by apply delete_mono.
Qed.

Lemma alter_ids tag us (t um : gmap string Z) :
  t ⊆ um →
  dom (specOp tag t (OpIDs us)) = dom t ∧ specOp tag t (OpIDs us) ⊆ setUids tag us um.
Proof.
  unfold setUids. cbn. revert t um. induction us as [|u us IH]; intros t um Hsub; cbn; [done|].
  destruct (IH (alter (λ _, Panel.Id u) (key tag u) t) (<[Limiter.UserTag tag (Panel.Uuid u):=Panel.Id u]> um))
    as [Hd Hs].
  - apply map_subseteq_spec. intros k i. fold (key tag u). rewrite lookup_alter. case_decide as Hk.
    + subst. rewrite lookup_insert_eq. intros Hi. by apply fmap_Some in Hi as (? & _ & ->).
    + rewrite lookup_insert_ne by congruence. intros Hi; by eapply lookup_weaken.
  - rewrite Hd, dom_alter_L. done.
Qed.

Lemma represents_runUserOp arrivals ctx tag op v t v' :
  represents tag v t → runUserOp arrivals ctx tag v op = Some v' →
  represents tag v' (specOp tag t op).
Proof.
  intros ((m & Hm & Hmem) & um & Hum & Hsub) Hop. destruct op as [us n|us|us]; cbn in Hop.
  - unfold AddUsersWithContext in Hop. cbn in Hop. destruct (IsExternalSidecarNodeType _); [done|].
    destruct (getUserManagerLocked tag v); [done|].
    destruct (buildUsers _ _ _ _) as [[l|]|] eqn:Hl; [|done|done].
    destruct (addUsersLoop _ _ _ _ _ _) as [v2 [k [e|]]] eqn:Hloop; [done|]. injection Hop as <-.
    assert (Hus : Forall (λ u, hasTag tag (Email u) = true) l).
    { apply buildUsers_keys in Hl. apply Forall_forall. intros u Hu. apply (list_elem_of_fmap_2 Email) in Hu.
      rewrite Hl in Hu. apply list_elem_of_fmap in Hu as (x & -> & _). apply hasTag_key. }
    destruct (addUsersLoop_members _ _ _ _ _ (withUsers _ v) _ _ m Hus Hm Hloop) as (Hu & _ & m' & Hm' & Hmem').
    split.
    + exists m'. split; [done|]. rewrite Hmem', Hmem. cbn.
      rewrite (buildUsers_keys _ _ _ _ _ Hl). by rewrite setUids_dom.
    + exists (setUids tag us um). split; [by rewrite Hu; cbn; rewrite Hum|]. by apply setUids_mono.
  - unfold DelUsers in Hop. destruct (dispatcher v); [|done].
    destruct (getUserManagerLocked tag v); [done|].
    destruct (delUsersLoop _ _ _ _ _ _) as [v2 [e|]] eqn:Hloop; [done|]. injection Hop as <-.
    destruct (delUsersLoop_members _ _ _ _ _ _ _ m Hm Hloop) as (Hu & m' & Hm' & Hmem').
    split.
    + exists m'. split; [done|]. rewrite Hmem', Hmem. cbn. by rewrite foldl_delete_dom.
    + rewrite Hum in Hu. eexists. split; [exact Hu|]. by apply foldl_delete_mono.
  - unfold UpdateUserIDs in Hop. rewrite Hum in Hop. injection Hop as <-.
    destruct (alter_ids tag us t um Hsub) as [Hd Hs]. split.
    + exists m. split; [done|]. by rewrite Hd.
    + eauto.
Qed.

(** C9. The core refines the user table: after any sequence of the additions,
    deletions and id updates the controller performs on a node that Xray serves,
    when each of them succeeds, Xray's user manager knows exactly the users of the
    table that the same operations give, and the map of ids has the current id of
    every one of them (it may have ids of other users besides). *)
Theorem user_membership arrivals ctx tag ops v t v' :
  represents tag v t →
  foldl (λ o op, o ≫= λ v, runUserOp arrivals ctx tag v op) (Some v) ops = Some v' →
  represents tag v' (foldl (specOp tag) t ops).
Proof.
  revert v t. induction ops as [|op ops IH]; intros v t Hr; cbn [foldl mbind option_bind]; [by intros [= <-]|].
  destruct (runUserOp arrivals ctx tag v op) as [v1|] eqn:Hop.
  - apply IH. by eapply represents_runUserOp.
  - intros Hn. exfalso. clear -Hn. induction ops as [|op' ops IHops]; [done|]. by apply IHops.
Qed.

End membership.

(** ** Nodes served by an external sidecar *)

Section sidecar.
Context `{XCore : XrayCore} {RO : RangeOrder string} {ROn : RangeOrder nat}.
Implicit Types v : V2Core.

(** Deleting the keys of a tag while ranging over the map. *)
Lemma deleteKeys_lookup (p : string → bool) (l : list (string * Z)) (m : gmap string Z) k :
  foldl (λ m' entry, if p entry.1 then delete entry.1 m' else m') m l !! k
  = if p k && bool_decide (k ∈ l.*1) then None else m !! k.
Proof.
  revert m. induction l as [|[k' i] l IH]; intros m; cbn; [by rewrite andb_false_r|].
  rewrite IH. destruct (p k) eqn:Hk; cbn [andb].
  - destruct (bool_decide_reflect (k ∈ l.*1)), (bool_decide_reflect (k ∈ k' :: l.*1)) as [H1|H1];
      rewrite elem_of_cons in H1; try tauto.
    + destruct H1 as [->|]; [|done]. rewrite Hk. apply lookup_delete_eq.
    + destruct (p k'); [|done]. apply lookup_delete_ne. intros ->. tauto.
  - destruct (p k') eqn:Hk'; [|done]. apply lookup_delete_ne. congruence.
Qed.

Lemma deleteUserIDsForTag_spec tag v um :
  uidMap v = Some um →
  uidMap (deleteUserIDsForTag tag v) = Some (filter (λ e, hasTag tag e.1 = false) um).
Proof.
  intros Hum. unfold deleteUserIDsForTag. rewrite Hum. cbn. f_equal. apply map_eq. intros k.
  rewrite (deleteKeys_lookup (hasTag tag)). destruct (um !! k) as [i|] eqn:Hk.
  - rewrite bool_decide_true.
    2: { apply list_elem_of_fmap. exists (k, i). by rewrite elem_of_range_list. }
    symmetry. destruct (hasTag tag k) eqn:Ht; cbn.
    + apply map_lookup_filter_None. right. intros x _ Hf. change (hasTag tag k = false) in Hf. congruence.
    + apply map_lookup_filter_Some. done.
  - symmetry. rewrite (proj2 (map_lookup_filter_None _ um k) (or_introl Hk)). by case_match.
Qed.

Lemma setUids_other tag us um k : hasTag tag k = false → setUids tag us um !! k = um !! k.
Proof.
  intros Hk. unfold setUids. revert um. induction us as [|u us IH]; intros um; cbn; [done|].
  rewrite IH. apply lookup_insert_ne. intros <-. fold (key tag u) in Hk. by rewrite hasTag_key in Hk.
Qed.

(** A node served by an external sidecar never touches Xray, adds all its
    users at once, and leaves no trace when it is deleted: the ids of its own
    users are gone, the ids of all other nodes' users are what they were. *)
Theorem sidecar_roundtrip random now tag n us v um :
  IsExternalSidecarNodeType (Panel.Type_ n) = true → uidMap v = Some um →
  ∃ v1 v2 v3,
    AddNode random now tag (Some n) v = Some (v1, None)
    ∧ AddUsers (mkAddUsersParams tag us (Some n)) v1 = Some (v2, (Z.of_nat (length us), None))
    ∧ (∀ u, u ∈ us → is_Some (default ∅ (uidMap v2) !! key tag u))
    ∧ DelNode tag v2 = (v3, None)
    ∧ uidMap v3 = Some (filter (λ e, hasTag tag e.1 = false) um)
    ∧ default ∅ (externalSidecarTags v3) = default ∅ (externalSidecarTags v) ∖ {[tag]}
    ∧ (Server v3, ihm v3, dispatcher v3) = (Server v, ihm v, dispatcher v).
Proof.
  intros Hs Hum. unfold AddNode, AddUsers, AddUsersWithContext. cbn [p_NodeInfo p_Tag p_Users]. rewrite Hs.
  eexists _, _, _. split_and!; [done|done| | | | |].
  - intros u Hu. cbn. rewrite Hum. cbn. rewrite <- elem_of_dom, setUids_dom.
    apply elem_of_union_r, elem_of_list_to_set, list_elem_of_fmap. eauto.
  - unfold DelNode. cbn. rewrite bool_decide_true by set_solver. done.
  - erewrite deleteUserIDsForTag_spec.
    2: { cbn. by rewrite Hum. }
    f_equal. apply map_eq. intros k. apply option_eq. intros i. rewrite !map_lookup_filter_Some. cbn.
    split; intros [H1 H2]; (split; [|done]); by rewrite setUids_other in * by done.
  - unfold deleteUserIDsForTag. cbn. rewrite Hum. cbn. set_solver.
  - unfold deleteUserIDsForTag. cbn. by rewrite Hum.
Qed.

End sidecar.
(** ** Examples at which the hypotheses hold *)

Module Examples.
#[local] Instance exampleOrder : RangeOrder string := canonical_order string.
#[local] Instance exampleOrderNat : RangeOrder nat := canonical_order nat.

(** An Xray whose transports have no settings and whose inbound manager is
    the map from tags to the e-mails of their users. *)
#[local] Instance exampleConf : Inbound.XrayConf := {|
  Inbound.TCPConfig := unit;
  Inbound.WebSocketConfig := unit;
  Inbound.GRPCConfig := unit;
  Inbound.HttpUpgradeConfig := unit;
  Inbound.SplitHTTPConfig := unit;
  Inbound.Address := string;
  Inbound.AuthMethodUserPass := "password";
  Inbound.ParseAddress s := s;
  Inbound.newTCPConfig _ _ := tt;
  Inbound.unmarshalTCP _ := Ok None;
  Inbound.unmarshalWS _ := Ok None;
  Inbound.unmarshalGRPC _ := Ok None;
  Inbound.unmarshalHTTPUpgrade _ := Ok None;
  Inbound.unmarshalSplitHTTP _ := Ok None
|}.

Definition exampleAdd (m : gmap string (gset string)) (tag : string) (u : User)
    : gmap string (gset string) * option GoError :=
  let s := default ∅ (m !! tag) in
  if bool_decide (Email u ∈ s) then (m, Some (errorf "User already exists."))
  else (<[tag := {[Email u]} ∪ s]> m, None).

Definition exampleRemove (m : gmap string (gset string)) (tag k : string)
    : gmap string (gset string) * option GoError :=
  let s := default ∅ (m !! tag) in
  if bool_decide (k ∈ s) then (<[tag := s ∖ {[k]}]> m, None)
  else (m, Some (errorf "User not found.")).

#[local] Instance exampleXray : XrayCore := {|
  Instance_ := unit;
  IHM := gmap string (gset string);
  HandlerConfig := Inbound.InboundDetourConfig;
  Handler := Inbound.InboundDetourConfig;
  MemoryUser := User;
  Build i := Ok i;
  CreateObject _ c := Ok (Some c);
  AddHandler m h := (<[Inbound.in_Tag h := list_to_set (settingsUsers h)]> m, None);
  RemoveHandler m t := (delete t m, None);
  GetHandler m t := match m !! t with
                    | Some _ => Ok UserManagerHandler
                    | None => Err (errorf "handler not found")
                    end;
  ToMemoryUser u := Ok u;
  AddUser := exampleAdd;
  RemoveUser := exampleRemove
|}.

(** The keys of a tag in a set of users. *)
Definition keysOf (tag : string) (s : gset string) : gset string := filter (λ k, hasTag tag k = true) s.

Lemma keysOf_add tag k s : hasTag tag k = true → keysOf tag ({[k]} ∪ s) = {[k]} ∪ keysOf tag s.
Proof.
  intros Hk. apply set_eq. intros x. unfold keysOf. rewrite !elem_of_union, !elem_of_filter. set_solver.
Qed.

Lemma filter_list_to_set tag l :
  keysOf tag (list_to_set l) = list_to_set (filter (λ k, hasTag tag k = true) l).
Proof. unfold keysOf. apply set_eq. intros k. rewrite elem_of_filter, !elem_of_list_to_set, list_elem_of_filter. done. Qed.

#[local] Instance exampleLaws : UserManagerLaws.
Proof.
  refine {| members m t := keysOf t (default ∅ ((m : gmap string (gset string)) !! t)); mu_email u := Email u |}.
  - by intros u mu [= <-].
  - intros m tag mu m' Hk. cbn. unfold exampleAdd. case_bool_decide; [done|]. intros [= <-].
    rewrite lookup_insert_eq. by apply keysOf_add.
  - intros m tag mu m' e Hk. cbn. unfold exampleAdd. case_bool_decide; [|done]. intros [= <- <-] _.
    split; [done|]. by apply elem_of_filter.
  - intros m tag k m' _. cbn. unfold exampleRemove. case_bool_decide; [|done]. intros [= <-].
    rewrite lookup_insert_eq. apply set_eq. intros x. unfold keysOf.
    rewrite elem_of_filter, !elem_of_difference, elem_of_filter. cbn. set_solver.
  - intros m tag k m' e _. cbn. unfold exampleRemove. case_bool_decide; [done|]. intros [= <- <-] _.
    split; [done|]. intros [_ Hin]%elem_of_filter. done.
Defined.

Definition exampleNode (type : string) : Panel.NodeInfo :=
  Panel.mkNodeInfo 1 type 0 0 0 "t" (Some Panel.zeroCommon).

Definition exampleUser (id : Z) (uuid : string) : Panel.UserInfo := Panel.mkUserInfo id uuid 0 0.

(** A dispatcher with a counter and an open link of the user "t|u". *)
Definition exampleDispatcher : Dispatcher :=
  mkDispatcher {["t" := {["t|u" := 0%nat]}]} {["t|u" := 0%nat]}
    (Traffic.mkStore {[0%nat := Traffic.mkTrafficStorage 5 6]} 1)
    (Links.mkWorld {[0%nat := Links.mkManagedWriter 7 0]} {[0%nat := {[0%nat := 8%nat]}]} [] []).

Definition exampleCore : V2Core :=
  mkV2Core (Some tt) (Some ∅) (Some ∅) (Some {["t" := ∅]}) (Some exampleDispatcher).

Definition exampleOps : list userOp :=
  [OpAdd [exampleUser 1 "u"; exampleUser 2 "w"] (exampleNode "vless"); OpDel [exampleUser 1 "u"];
   OpIDs [exampleUser 3 "w"; exampleUser 4 "x"]].

Definition exampleRun : option V2Core :=
  foldl (λ o op, o ≫= λ v, runUserOp (λ _, []) background "t" v op) (Some exampleCore) exampleOps.

Lemma user_membership_witness :
  represents "t" (default exampleCore exampleRun) (foldl (specOp "t") ∅ exampleOps).
Proof.
  apply (user_membership (λ _, []) background "t" exampleOps exampleCore ∅ (default exampleCore exampleRun)).
  - split; [exists {["t" := ∅]}; split; reflexivity|]. exists ∅. split; reflexivity.
  - change (exampleRun = Some (default exampleCore exampleRun)).
    assert (Hrun : (if exampleRun is Some _ then true else false) = true) by (vm_compute; reflexivity).
    destruct exampleRun; [reflexivity|discriminate].
Defined.

Example exampleOps_table : foldl (specOp "t") ∅ exampleOps = {["t|w" := 3]}.
Proof. vm_compute. reflexivity. Qed.

Lemma DelUsers_forgets_witness :
  let v' := (DelUsers (λ _, []) background [exampleUser 1 "u"] "t" exampleCore).1 in
  ∃ n d', (n <= 1)%nat ∧ (None = @None GoError → n = 1%nat)
    ∧ forgets "t" (key "t" <$> take n [exampleUser 1 "u"]) exampleCore v' exampleDispatcher d'.
Proof.
  apply (DelUsers_forgets (λ _, []) background [exampleUser 1 "u"] "t" exampleCore _ None exampleDispatcher).
  - reflexivity.
  - constructor.
    + intros k k' lm H1 H2. cbn in H1, H2. rewrite lookup_singleton_Some in H1, H2.
      destruct H1, H2. congruence.
    + intros k lm a r H1 H2. cbn in H1. rewrite lookup_singleton_Some in H1. destruct H1 as [_ <-].
      change (({[0%nat := 8%nat]} : gmap nat nat) !! a = Some r) in H2. rewrite lookup_singleton_Some in H2.
      destruct H2 as [<- _]. exists (Links.mkManagedWriter 7 0). split; reflexivity.
    + intros k lm round a r _ H1. by apply elem_of_nil in H1.
  - assert (Hnone : (DelUsers (λ _, []) background [exampleUser 1 "u"] "t" exampleCore).2 = None)
      by (vm_compute; reflexivity).
    rewrite <- Hnone. apply surjective_pairing.
Defined.

Lemma sidecar_roundtrip_witness :
  ∃ v1 v2 v3,
    AddNode (λ _, Ok []) 0 "t" (Some (exampleNode "mieru")) exampleCore = Some (v1, None)
    ∧ AddUsers (mkAddUsersParams "t" [exampleUser 1 "u"] (Some (exampleNode "mieru"))) v1
      = Some (v2, (1, None))
    ∧ (∀ u, u ∈ [exampleUser 1 "u"] → is_Some (default ∅ (uidMap v2) !! key "t" u))
    ∧ DelNode "t" v2 = (v3, None)
    ∧ uidMap v3 = Some (filter (λ e, hasTag "t" e.1 = false) ∅)
    ∧ default ∅ (externalSidecarTags v3) = ∅ ∖ {["t"]}
    ∧ (Server v3, ihm v3, dispatcher v3) = (Some tt, Some {["t" := ∅]}, Some exampleDispatcher).
Proof.
  apply (sidecar_roundtrip (λ _, Ok []) 0 "t" (exampleNode "mieru") [exampleUser 1 "u"] exampleCore ∅);
    reflexivity.
Defined.

(** A Shadowsocks 2022 node whose user has a short uuid. *)
Example ss2022_panics :
  buildSSUsers "t" [exampleUser 1 "short"] "2022-blake3-aes-256-gcm" "key" = None.
Proof. vm_compute. reflexivity. Qed.
End Examples.

End CoreProps.
