(* ===== verification/EdgeSidecar.v ===== *)
(** * Specifications for external sidecars (node/edge_sidecar.go)

    Nodes of type mieru and naive are served by programs that the keli-edge
    agent runs; the controller sends it a specification (binary, arguments,
    generated configuration) built from the node's settings and its users.

    A generated file is text, or the JSON document of a mieru configuration
    kept as its struct. SHA-1, of which the sidecar's name takes six bytes, is
    the interface [Sha1]. *)

From Stdlib Require Import Ascii.
From S2P Require Import Prelude GoStrings Json Panel Core.

Module EdgeSidecar.
Import GoStrings.

(** crypto/sha1 *)
Class Sha1 := { sha1Sum : string → list ascii }.

Record mieruPortBinding := mkMieruPortBinding {
  mb_Port : Z;
  PortRange : string;
  mb_Protocol : string
}.

Record mieruUser := mkMieruUser { Name : string; Password : string }.

Record mieruServerConfig := mkMieruServerConfig {
  PortBindings : list mieruPortBinding;
  mc_Users : list mieruUser;
  LoggingLevel : string;
  MTU : Z
}.

(** The contents of a generated file. *)
Inductive Contents :=
| MieruJSON (config : mieruServerConfig)
| Text (s : string).

Record EdgeGeneratedFile := mkEdgeGeneratedFile { gf_Path : string; gf_Contents : Contents }.

Record EdgeSidecarSpec := mkEdgeSidecarSpec {
  es_Name : string;
  es_Protocol : string;
  es_Enabled : bool;
  es_Binary : string;
  es_Args : list string;
  es_Env : gmap string string;
  GeneratedFiles : list EdgeGeneratedFile
}.

Record EdgeSidecarFailure := mkEdgeSidecarFailure { sf_Name : string; sf_Error : string }.

Record EdgeSidecarApplyReport := mkApplyReport {
  Started : list string;
  Stopped : list string;
  Failed : list EdgeSidecarFailure
}.

(** What [UpsertSidecar] of the bridge answers. *)
Definition EdgeSidecarBridge : Type := EdgeSidecarSpec → result EdgeSidecarApplyReport.

#[global] Instance mieruPortBinding_eq_dec : EqDecision mieruPortBinding.
Proof. solve_decision. Defined.

(** ** mieru *)

(** [strings.ToUpper] on the ASCII letters. *)
Definition upper_byte (a : ascii) : ascii :=
  if (N.leb 97 (N_of_ascii a) && N.leb (N_of_ascii a) 122)%bool
  then ascii_of_N (N_of_ascii a - 32) else a.

Definition ToUpper (s : string) : string := of_bytes (upper_byte <$> bytes s).

Definition mieruPortBindingFromNode (node : Panel.CommonNode) : mieruPortBinding :=
  let protocol := ToUpper (TrimSpace (Panel.Transport node)) in
  let protocol := if bool_decide (protocol = "") then "TCP" else protocol in
  let ports := TrimSpace (Panel.Ports node) in
  let port := TrimSpace (Panel.Port node) in
  if bool_decide (ports ≠ "") then mkMieruPortBinding 0 ports protocol
  else if bool_decide (port ≠ "") && Contains port "-" then mkMieruPortBinding 0 port protocol
  else if 0 <? Panel.ServerPort node then mkMieruPortBinding (Panel.ServerPort node) "" protocol
  else
    match Atoi port with
    | Some n => if 0 <? n then mkMieruPortBinding n "" protocol else mkMieruPortBinding 0 "" protocol
    | None => mkMieruPortBinding 0 "" protocol
    end.

Definition mieruUsersFromPanel (users : list Panel.UserInfo) : list mieruUser :=
  foldl (λ result u,
    if bool_decide (TrimSpace (Panel.Uuid u) = "") then result
    else result ++ [mkMieruUser (Panel.Uuid u) (Panel.Uuid u)]) [] users.

(** ** naive *)

Definition naiveListen (node : Panel.CommonNode) : string :=
  if 0 <? Panel.ServerPort node then ":" +:+ Itoa (Panel.ServerPort node)
  else
    let port := TrimSpace (Panel.Port node) in
    if bool_decide (port ≠ "") && negb (Contains port "-") then ":" +:+ port else ":443".

Definition naiveServerName (node : Panel.CommonNode) : string :=
  match Panel.Cert_Info node with
  | Some ci =>
      if bool_decide (TrimSpace (Panel.CertDomain ci) ≠ "") then TrimSpace (Panel.CertDomain ci)
      else TrimSpace (Panel.tls_ServerName (Panel.Tls_Settings node))
  | None => TrimSpace (Panel.tls_ServerName (Panel.Tls_Settings node))
  end.

Definition naiveCertFile (node : Panel.CommonNode) : string :=
  match Panel.Cert_Info node with Some ci => TrimSpace (Panel.CertFile ci) | None => "" end.

Definition naiveKeyFile (node : Panel.CommonNode) : string :=
  match Panel.Cert_Info node with Some ci => TrimSpace (Panel.KeyFile ci) | None => "" end.

Definition newline : string := String "010"%char EmptyString.

Definition quote : string := String "034"%char EmptyString.

(** [strings.ReplaceAll(s, c, with)] for a [c] of one byte. *)
Fixpoint ReplaceByte (c : ascii) (by_ : string) (s : string) : string :=
  match s with
  | EmptyString => EmptyString
  | String a s => if Ascii.eqb a c then by_ +:+ ReplaceByte c by_ s
                  else String a (ReplaceByte c by_ s)
  end.

(** The characters that need no quotes in a Caddyfile. *)
Definition caddySafe (a : ascii) : bool :=
  (let n := N_of_ascii a in
   (N.leb 97 n && N.leb n 122) || (N.leb 65 n && N.leb n 90) || (N.leb 48 n && N.leb n 57)
   || Ascii.eqb a "." || Ascii.eqb a "_" || Ascii.eqb a "-" || Ascii.eqb a "/"
   || Ascii.eqb a ":" || Ascii.eqb a "$")%char%bool.

Definition caddyToken (value : string) : string :=
  if bool_decide (value = "") then quote +:+ quote
  else if forallb caddySafe (bytes value) then value
  else
    let backslash := String "092"%char EmptyString in
    let escaped := ReplaceByte "092"%char (backslash +:+ backslash) value in
    let escaped := ReplaceByte "034"%char (backslash +:+ quote) escaped in
    quote +:+ escaped +:+ quote.

(** The [basic_auth] lines. *)
Definition caddyAuthLine (u : Panel.UserInfo) : string :=
  if bool_decide (TrimSpace (Panel.Uuid u) = "") then ""
  else "            basic_auth " +:+ caddyToken (Panel.Uuid u) +:+ " " +:+ caddyToken (Panel.Uuid u)
       +:+ newline.

Definition renderNaiveCaddyfile (listen serverName certFile keyFile : string)
    (users : list Panel.UserInfo) (probeResistance : string) : string :=
  let site := TrimSpace listen in
  let site := if bool_decide (site = "") then ":443" else site in
  let serverName := TrimSpace serverName in
  let site := if bool_decide (serverName ≠ "") then site +:+ ", " +:+ serverName else site in
  let nl := newline in
  let probe := TrimSpace probeResistance in
  "{" +:+ nl +:+ "    order forward_proxy first" +:+ nl +:+ "}" +:+ nl +:+ nl
  +:+ site +:+ " {" +:+ nl
  +:+ (if bool_decide (certFile ≠ "" ∧ keyFile ≠ "")
       then "    tls " +:+ caddyToken certFile +:+ " " +:+ caddyToken keyFile +:+ nl else "")
  +:+ "    route {" +:+ nl +:+ "        forward_proxy {" +:+ nl
  +:+ foldr (λ u text, caddyAuthLine u +:+ text) "" users
  +:+ "            hide_ip" +:+ nl +:+ "            hide_via" +:+ nl
  +:+ (if bool_decide (probe ≠ "")
       then "            probe_resistance " +:+ caddyToken probe +:+ nl else "")
  +:+ "        }" +:+ nl +:+ "        respond " +:+ quote +:+ "OK" +:+ quote +:+ " 200" +:+ nl
  +:+ "    }" +:+ nl +:+ "}" +:+ nl.

(** ** Specifications *)

Section spec.
Context `{Sha1}.

Definition edgeSidecarName (protocol tag : string) : string :=
  protocol +:+ "-" +:+ Json.hexEncode (take 6 (sha1Sum tag)).

Definition buildMieruSidecarSpec (common : option Panel.CommonNode) (tag : string)
    (userList : list Panel.UserInfo) : result EdgeSidecarSpec :=
  match common, userList with
  | None, _ => Err (errorf "mieru node common config is empty")
  | Some _, [] => Err (errorf "mieru node has no users")
  | Some node, _ =>
      let name := edgeSidecarName "mieru" tag in
      let configPath := "runtime/" +:+ name +:+ "/server.conf.json" in
      let config := mkMieruServerConfig [mieruPortBindingFromNode node]
                      (mieruUsersFromPanel userList) "INFO" 1400 in
      Ok (mkEdgeSidecarSpec name "mieru" true "mita" ["run"]
            {["MITA_CONFIG_JSON_FILE" := configPath]}
            [mkEdgeGeneratedFile configPath (MieruJSON config)])
  end.

Definition buildNaiveSidecarSpec (common : option Panel.CommonNode) (tag : string)
    (userList : list Panel.UserInfo) : result EdgeSidecarSpec :=
  match common, userList with
  | None, _ => Err (errorf "naive node common config is empty")
  | Some _, [] => Err (errorf "naive node has no users")
  | Some node, _ =>
      let name := edgeSidecarName "naive" tag in
      let configPath := "runtime/" +:+ name +:+ "/Caddyfile" in
      let caddyfile := renderNaiveCaddyfile (naiveListen node) (naiveServerName node)
                         (naiveCertFile node) (naiveKeyFile node) userList "" in
      Ok (mkEdgeSidecarSpec name "naive" true "caddy" ["run"; "--config"; configPath] ∅
            [mkEdgeGeneratedFile configPath (Text caddyfile)])
  end.

Definition buildEdgeSidecarSpec (info : option Panel.NodeInfo) (tag : string)
    (userList : list Panel.UserInfo) : result EdgeSidecarSpec :=
  match info with
  | None => Err (errorf "node info is empty")
  | Some n =>
      if bool_decide (Panel.Type_ n = "mieru") then buildMieruSidecarSpec (Panel.Common n) tag userList
      else if bool_decide (Panel.Type_ n = "naive") then buildNaiveSidecarSpec (Panel.Common n) tag userList
      else Err (errorf ("unsupported edge sidecar protocol: " +:+ Panel.Type_ n))
  end.

(** [applyEdgeSidecar], as a function of the parts of the controller it reads. *)
Definition applyEdgeSidecar (bridge : option EdgeSidecarBridge) (info : option Panel.NodeInfo)
    (tag : string) (userList : list Panel.UserInfo) : option GoError :=
  match info with
  | None => None
  | Some n =>
      if negb (Core.IsExternalSidecarNodeType (Panel.Type_ n)) then None
      else match bridge with
           | None => Some (errorf ("keli-edge sidecar bridge is required for " +:+ Panel.Type_ n +:+ " nodes"))
           | Some upsert =>
               match buildEdgeSidecarSpec info tag userList with
               | Err e => Some e
               | Ok spec =>
                   match upsert spec with
                   | Err e => Some e
                   | Ok report =>
                       match Failed report with
                       | [] => None
                       | failure :: _ =>
                           Some (errorf ("keli-edge sidecar " +:+ sf_Name failure +:+ " failed: "
                                         +:+ sf_Error failure))
                       end
                   end
               end
           end
  end.
End spec.

(** The users of a mieru server are the users with a uuid, in order. *)
Lemma mieruUsersFromPanel_filter users :
  mieruUsersFromPanel users
  = (λ u, mkMieruUser (Panel.Uuid u) (Panel.Uuid u)) <$>
      filter (λ u, TrimSpace (Panel.Uuid u) ≠ "") users.
Proof.
  unfold mieruUsersFromPanel.
  enough (H : ∀ acc, foldl (λ result u,
    if bool_decide (TrimSpace (Panel.Uuid u) = "") then result
    else result ++ [mkMieruUser (Panel.Uuid u) (Panel.Uuid u)]) acc users
    = acc ++ ((λ u, mkMieruUser (Panel.Uuid u) (Panel.Uuid u)) <$>
        filter (λ u, TrimSpace (Panel.Uuid u) ≠ "") users)) by apply H.
  induction users as [|u users IH]; intros acc; cbn [foldl]; [by rewrite app_nil_r|].
  rewrite IH. case_bool_decide as Hu.
  - by rewrite filter_cons_False by tauto.
  - rewrite filter_cons_True by done. cbn. by rewrite <- app_assoc.
Qed.

Example caddyToken_plain : caddyToken "8a6e0804-2bd0" = "8a6e0804-2bd0".
Proof. reflexivity. Qed.

Example caddyToken_quoted :
  caddyToken "a b" = String "034"%char ("a b" +:+ String "034"%char EmptyString).
Proof. reflexivity. Qed.

End EdgeSidecar.
