(* ===== verification/UserSync.v ===== *)
(** * Synchronisation of a node's users with the panel

    node/user.go ([compareUserList]), node/user_delta.go, node/task.go
    ([executeNodeUserSync] and the functions that apply a difference),
    node/user_sync_state.go and the parts of node/controller.go that load the
    users when a node starts.

    The control plane is an interface: its answers during one operation.
    Files are a map from paths to their contents; writing one may fail. *)

From S2P Require Import Prelude GoStrings Json Panel Limiter Inbound Links Traffic Core EdgeSidecar.

Module UserSync.

(** ** Differences between user lists *)

Section diff.
Context {RO : RangeOrder string}.

(** [oldMap] of [compareUserList] and [applyUserDelta]. *)
Definition userMap (l : list Panel.UserInfo) : gmap string Panel.UserInfo :=
  foldl (λ m u, <[Panel.Uuid u := u]> m) ∅ l.

Definition changedUser (old new : Panel.UserInfo) : bool :=
  negb (Panel.Id old =? Panel.Id new) || negb (Panel.SpeedLimit old =? Panel.SpeedLimit new)
  || negb (Panel.DeviceLimit old =? Panel.DeviceLimit new).

(** The state of the loop over the new list. *)
Record diffState := mkDiff {
  df_oldMap : gmap string Panel.UserInfo;
  df_added : list Panel.UserInfo;
  df_updated : list Panel.UserInfo
}.

Definition compareStep (s : diffState) (user : Panel.UserInfo) : diffState :=
  match df_oldMap s !! Panel.Uuid user with
  | None => mkDiff (df_oldMap s) (df_added s ++ [user]) (df_updated s)
  | Some oldUser =>
      mkDiff (delete (Panel.Uuid user) (df_oldMap s)) (df_added s)
        (if changedUser oldUser user then df_updated s ++ [user] else df_updated s)
  end.

(** [compareUserList]: deleted, added and updated users. *)
Definition compareUserList (old new : list Panel.UserInfo)
    : list Panel.UserInfo * list Panel.UserInfo * list Panel.UserInfo :=
  let s := foldl compareStep (mkDiff (userMap old) [] []) new in
  ((range_list (df_oldMap s)).*2, df_added s, df_updated s).

(** The order in which [sort.Slice] puts the users: by uuid, as bytes. *)
Definition uuidLe (a b : Panel.UserInfo) : Prop :=
  String.leb (Panel.Uuid a) (Panel.Uuid b) = true.

#[global] Instance uuidLe_dec a b : Decision (uuidLe a b).
Proof. unfold uuidLe. apply _. Defined.

Definition sortUsers (l : list Panel.UserInfo) : list Panel.UserInfo := merge_sort uuidLe l.

Definition deleteStep (s : gmap string Panel.UserInfo * list Panel.UserInfo) (u : Panel.UserInfo)
    : gmap string Panel.UserInfo * list Panel.UserInfo :=
  let '(oldMap, deletedApplied) := s in
  match oldMap !! Panel.Uuid u with
  | Some oldUser => (delete (Panel.Uuid u) oldMap, deletedApplied ++ [oldUser])
  | None => (oldMap, deletedApplied)
  end.

Definition upsertStep (s : diffState) (u : Panel.UserInfo) : diffState :=
  let m := <[Panel.Uuid u := u]> (df_oldMap s) in
  match df_oldMap s !! Panel.Uuid u with
  | Some _ => mkDiff m (df_added s) (df_updated s ++ [u])
  | None => mkDiff m (df_added s ++ [u]) (df_updated s)
  end.

(** [applyUserDelta]: the next list, and the deleted, added and updated users. *)
Definition applyUserDelta (old deleted upsert : list Panel.UserInfo)
    : list Panel.UserInfo * (list Panel.UserInfo * list Panel.UserInfo * list Panel.UserInfo) :=
  let '(oldMap, deletedApplied) := foldl deleteStep (userMap old, []) deleted in
  let s := foldl upsertStep (mkDiff oldMap [] []) upsert in
  (sortUsers (range_list (df_oldMap s)).*2, (deletedApplied, df_added s, df_updated s)).
End diff.

(** ** The control plane *)

Record ControlPlane := mkControlPlane {
  GetNodeInfo : result (option Panel.NodeInfo);
  GetUserList : result (list Panel.UserInfo);
  GetUserDelta : Z → result (option Panel.UserDeltaBody);
  GetUserAlive : result (option (gmap Z Z));
  CachedAliveMap : gmap Z Z;
  CachedAliveSnapshot : Panel.AliveMap
}.

(** ** The state file *)

Record userSyncStateFile := mkStateFile {
  sy_Revision : Z;
  sy_Users : list Panel.UserInfo;
  UpdatedAt : Z
}.

(** The disk: the state files by path, the time, and whether writing works. *)
Record Disk := mkDisk { files : gmap string userSyncStateFile; disk_now : Z; writable : bool }.

Definition loadUserSyncState (path : string) (d : Disk) : option userSyncStateFile := files d !! path.

Definition saveUserSyncState (path : string) (revision : Z) (users : list Panel.UserInfo) (d : Disk)
    : Disk :=
  if writable d then
    mkDisk (<[path := mkStateFile revision users (disk_now d)]> (files d)) (disk_now d) (writable d)
  else d.

(** ** The controller *)

Section controller.
Context `{XCore : Core.XrayCore} `{RL : Limiter.RateLimit} `{EdgeSidecar.Sha1}.
Context {RO : RangeOrder string} {ROn : RangeOrder nat}.

Record Controller := mkController {
  c_tag : string;
  c_info : option Panel.NodeInfo;
  c_limiter : Limiter.Limiter;
  c_server : Core.V2Core;
  userList : list Panel.UserInfo;
  userRevision : Z;
  userDeltaSupported : bool;
  userSyncStatePath : string;
  aliveMap : gmap Z Z;
  aliveSnapshot : option Panel.AliveMap;
  edgeSidecarBridge : option EdgeSidecar.EdgeSidecarBridge;
  disk : Disk
}.

Implicit Types c : Controller.

Definition withUsers users revision supported d c : Controller :=
  mkController (c_tag c) (c_info c) (c_limiter c) (c_server c) users revision supported
    (userSyncStatePath c) (aliveMap c) (aliveSnapshot c) (edgeSidecarBridge c) d.

Definition withAlive a s l c : Controller :=
  mkController (c_tag c) (c_info c) l (c_server c) (userList c) (userRevision c)
    (userDeltaSupported c) (userSyncStatePath c) a s (edgeSidecarBridge c) (disk c).

Definition withServer l v c : Controller :=
  mkController (c_tag c) (c_info c) l v (userList c) (userRevision c)
    (userDeltaSupported c) (userSyncStatePath c) (aliveMap c) (aliveSnapshot c)
    (edgeSidecarBridge c) (disk c).

(** ** Applying a difference (node/task.go) *)

Definition applyUpdatedUsers (updated : list Panel.UserInfo) c : Controller * option GoError :=
  let l := Limiter.UpdateUserInfo (c_tag c) updated (c_limiter c) in
  let '(v, err) := Core.UpdateUserIDs (c_tag c) updated (c_server c) in
  (withServer l v c, err).

Definition isSidecarNode c : bool :=
  match c_info c with
  | Some n => Core.IsExternalSidecarNodeType (Panel.Type_ n)
  | None => false
  end.

Definition applyDeletedUsers (arrivals : Core.LinkArrivals) (ctx : Core.Context_)
    (deleted : list Panel.UserInfo) c : Controller * option GoError :=
  if isSidecarNode c then (c, None)
  else
    let '(v, err) := Core.DelUsers arrivals ctx deleted (c_tag c) (c_server c) in
    (withServer (c_limiter c) v c, err).

(** [None] is a panic of [AddUsersWithContext]. *)
Definition applyAddedUsers (ctx : Core.Context_) (added : list Panel.UserInfo) c
    : option (Controller * option GoError) :=
  match Core.AddUsersWithContext ctx (Core.mkAddUsersParams (c_tag c) added (c_info c)) (c_server c) with
  | None => None
  | Some (v, (_, err)) => Some (withServer (c_limiter c) v c, err)
  end.

Record userSyncSummary := mkSummary { sm_Deleted : Z; sm_Added : Z; sm_Updated : Z }.

Definition noChange : userSyncSummary := mkSummary 0 0 0.

(** The difference a synchronisation has to apply. *)
Definition Diff : Type := list Panel.UserInfo * list Panel.UserInfo * list Panel.UserInfo.

(** *** Fetching *)

(** The full list of [GetUserList], when deltas are not supported. *)
Definition syncUserList (cp : ControlPlane) c : Controller * result Diff :=
  match GetUserList cp with
  | Err e => (c, Err e)
  | Ok [] => (c, Ok ([], [], []))
  | Ok newU =>
      (withUsers newU (userRevision c) (userDeltaSupported c) (disk c) c,
       Ok (compareUserList (userList c) newU))
  end.

(** The answer to [GetUserDelta] is taken over. *)
Definition syncUserDelta (delta : Panel.UserDeltaBody) c : Controller * Diff :=
  let '(next, diff) :=
    if Panel.Full delta then
      match Panel.Users delta with
      | [] => (userList c, ([], [], []))
      | newU => (newU, compareUserList (userList c) newU)
      end
    else
      match Panel.Deleted delta, Panel.Upsert delta with
      | [], [] => (userList c, ([], [], []))
      | deleted, upsert => applyUserDelta (userList c) deleted upsert
      end in
  let d := if bool_decide (userSyncStatePath c = "") then disk c
           else saveUserSyncState (userSyncStatePath c) (Panel.Revision delta) next (disk c) in
  (withUsers next (Panel.Revision delta) (userDeltaSupported c) d c, diff).

Definition fetchUsers (cp : ControlPlane) c : Controller * result Diff :=
  if userDeltaSupported c then
    match GetUserDelta cp (userRevision c) with
    | Err e =>
        if errorsIs e SentinelUserDeltaNotSupported
        then syncUserList cp (withUsers (userList c) (userRevision c) false (disk c) c)
        else (c, Err e)
    | Ok (Some delta) => let '(c, diff) := syncUserDelta delta c in (c, Ok diff)
    | Ok None => (c, Ok ([], [], []))
    end
  else syncUserList cp c.

Definition fetchAlive (cp : ControlPlane) (now : Z) c : Controller :=
  match GetUserAlive cp with
  | Ok (Some newA) =>
      let snapshot := CachedAliveSnapshot cp in
      withAlive newA (Some snapshot) (Limiter.SetAliveSnapshot now (Some snapshot) (c_limiter c)) c
  | _ => c
  end.

(** *** [executeNodeUserSync]

    [cancelled] is what [ctx.Err() != nil] answers after an application
    failed; [None] is a panic. *)
Definition executeNodeUserSync (cp : ControlPlane) (now : Z) (arrivals : Core.LinkArrivals)
    (ctx : Core.Context_) (cancelled : bool) c : option (Controller * result userSyncSummary) :=
  match fetchUsers cp c with
  | (c, Err e) => Some (c, Err e)
  | (c, Ok (deleted, added, updated)) =>
      let c := fetchAlive cp now c in
      let failed c e := Some (c, if cancelled then Ok noChange else Err e) in
      let '(c, err) := if bool_decide (updated = []) then (c, None)
                       else applyUpdatedUsers updated c in
      match err with
      | Some e => Some (c, Err e)
      | None =>
          let '(c, err) := if bool_decide (deleted = []) then (c, None)
                           else applyDeletedUsers arrivals ctx deleted c in
          match err with
          | Some e => failed c e
          | None =>
              match (if bool_decide (added = []) then Some (c, None)
                     else applyAddedUsers ctx added c) with
              | None => None
              | Some (c, Some e) => failed c e
              | Some (c, None) =>
                  let c :=
                    if bool_decide (added = [] ∧ deleted = []) then c
                    else withServer (Limiter.UpdateUser (c_tag c) added deleted (c_limiter c))
                           (c_server c) c in
                  let err :=
                    if bool_decide (added = [] ∧ deleted = [] ∧ updated = []) then None
                    else EdgeSidecar.applyEdgeSidecar (edgeSidecarBridge c) (c_info c) (c_tag c)
                           (userList c) in
                  match err with
                  | Some e => Some (c, Err e)
                  | None =>
                      Some (c, Ok (mkSummary (Z.of_nat (length deleted)) (Z.of_nat (length added))
                                     (Z.of_nat (length updated))))
                  end
              end
          end
      end
  end.

(** *** [loadAndSyncUsers] (node/controller.go) *)

(** The start from the cached state: [None] when it is not possible. *)
Definition warmStart (cp : ControlPlane) c : Controller * option (list Panel.UserInfo) :=
  if negb (userDeltaSupported c) || bool_decide (userSyncStatePath c = "") then (c, None)
  else
    match loadUserSyncState (userSyncStatePath c) (disk c) with
    | None => (c, None)
    | Some state =>
        if bool_decide (sy_Users state = []) || (sy_Revision state <=? 0) then (c, None)
        else
          match GetUserDelta cp (sy_Revision state) with
          | Ok (Some delta) =>
              let users := if Panel.Full delta then Panel.Users delta
                           else (applyUserDelta (sy_Users state) (Panel.Deleted delta)
                                   (Panel.Upsert delta)).1 in
              let d := saveUserSyncState (userSyncStatePath c) (Panel.Revision delta) users (disk c) in
              (withUsers (userList c) (Panel.Revision delta) true d c, Some users)
          | Ok None => (c, None)
          | Err e =>
              (if errorsIs e SentinelUserDeltaNotSupported
               then withUsers (userList c) (userRevision c) false (disk c) c else c, None)
          end
    end.

Definition loadUserList (cp : ControlPlane) c : Controller * result (list Panel.UserInfo) :=
  (c, GetUserList cp).

Definition loadAndSyncUsers (cp : ControlPlane) c : Controller * result (list Panel.UserInfo) :=
  let '(c, warm) := warmStart cp c in
  match warm with
  | Some users => (c, Ok users)
  | None =>
      if userDeltaSupported c then
        match GetUserDelta cp 0 with
        | Err e =>
            if errorsIs e SentinelUserDeltaNotSupported
            then loadUserList cp (withUsers (userList c) (userRevision c) false (disk c) c)
            else (c, Err e)
        | Ok (Some delta) =>
            let users := if Panel.Full delta then Panel.Users delta else Panel.Upsert delta in
            let d := if bool_decide (userSyncStatePath c = "") then disk c
                     else saveUserSyncState (userSyncStatePath c) (Panel.Revision delta) users (disk c) in
            (withUsers (userList c) (Panel.Revision delta) true d c, Ok users)
        | Ok None => loadUserList cp c
        end
      else loadUserList cp c
  end.

End controller.
End UserSync.
