(* ===== verification/UserSyncProps.v ===== *)
(** * Properties of the user synchronisation

    The difference of two user lists is exact and sufficient
    ([compareUserList_exact], [diff_reconstructs]), applying a delta gives one
    sorted list whatever the iteration order ([applyUserDelta_correct]), a
    synchronisation that succeeds leaves the limiter, Xray's user manager and
    the id map in agreement with the panel's list ([sync_refines_panel]), and
    one that fails half-way is not repeated ([sync_failure_sticks]). *)

From Stdlib Require Import Ascii.
From S2P Require Import Prelude GoStrings Json Panel Limiter LimiterProps Inbound Links Traffic Core.
From S2P Require Import CoreProps EdgeSidecar UserSync.

Module UserSyncProps.
Import UserSync.

Implicit Types (u : Panel.UserInfo) (l us : list Panel.UserInfo) (m : gmap string Panel.UserInfo).

(** The uuids of a list; lists of users are meant to have no duplicates. *)
Definition uuids l : list string := Panel.Uuid <$> l.

(** ** Tables of users *)

(** Inserting and removing users, in the order of a list. *)
Definition insertUsers m l : gmap string Panel.UserInfo :=
  foldl (λ m u, <[Panel.Uuid u := u]> m) m l.

Definition removeUsers m l : gmap string Panel.UserInfo :=
  foldl (λ m u, delete (Panel.Uuid u) m) m l.

(** What the program does with a difference: updated users are overwritten,
    then the deleted ones removed, then the added ones inserted. *)
Definition applyDiff m (d : Diff) : gmap string Panel.UserInfo :=
  let '(deleted, added, updated) := d in
  insertUsers (removeUsers (insertUsers m updated) deleted) added.

(** The user is in the table with other data. *)
Definition isChanged m u : Prop :=
  match m !! Panel.Uuid u with Some o => changedUser o u = true | None => False end.

#[global] Instance isChanged_dec m u : Decision (isChanged m u).
Proof. unfold isChanged. case_match; apply _. Defined.

(** The keys of a table are the uuids of its users. *)
Definition keyed m : Prop := ∀ k u, m !! k = Some u → Panel.Uuid u = k.

Lemma uuids_cons u l k : k ∈ uuids (u :: l) ↔ (k = Panel.Uuid u ∨ k ∈ uuids l).
Proof. apply elem_of_cons. Qed.

Lemma NoDup_uuids_cons u l : NoDup (uuids (u :: l)) ↔ ((Panel.Uuid u ∉ uuids l) ∧ NoDup (uuids l)).
Proof. apply NoDup_cons. Qed.

Lemma elem_of_uuids u l : u ∈ l → Panel.Uuid u ∈ uuids l.
Proof. intros Hu. apply list_elem_of_fmap. eauto. Qed.

Lemma insertUsers_union m l : insertUsers m l = userMap l ∪ m.
Proof.
  unfold userMap, insertUsers. induction l as [|u l IH] using rev_ind; cbn.
  - by rewrite (left_id_L ∅ (∪)).
  - rewrite !foldl_snoc, IH. by rewrite insert_union_l.
Qed.

Lemma removeUsers_lookup m l k :
  removeUsers m l !! k = if decide (k ∈ uuids l) then None else m !! k.
Proof.
  unfold removeUsers. revert m. induction l as [|u l IH]; intros m; cbn [foldl].
  - by rewrite decide_False by apply not_elem_of_nil.
  - rewrite IH. destruct (decide (k ∈ uuids l)) as [H1|H1], (decide (k ∈ uuids (u :: l))) as [H2|H2];
      rewrite uuids_cons in H2; try tauto.
    + assert (k = Panel.Uuid u) as -> by tauto. apply lookup_delete_eq.
    + apply lookup_delete_ne. intros <-. tauto.
Qed.

Lemma userMap_None l k : userMap l !! k = None ↔ k ∉ uuids l.
Proof.
  unfold userMap, uuids. induction l as [|u l IH] using rev_ind; cbn; [split; [by intros; apply not_elem_of_nil|done]|].
  rewrite foldl_snoc, lookup_insert_None, fmap_app, elem_of_app. cbn. rewrite list_elem_of_singleton, IH.
  naive_solver.
Qed.

Lemma userMap_Some_in l k u : userMap l !! k = Some u → u ∈ l ∧ Panel.Uuid u = k.
Proof.
  unfold userMap. induction l as [|u' l IH] using rev_ind; cbn; [done|].
  rewrite foldl_snoc, lookup_insert_Some, elem_of_app, list_elem_of_singleton. naive_solver.
Qed.

Lemma userMap_keyed l : keyed (userMap l).
Proof. intros k u Hu. by apply userMap_Some_in in Hu as [_ ?]. Qed.

Lemma userMap_Some l k u :
  NoDup (uuids l) → userMap l !! k = Some u ↔ u ∈ l ∧ Panel.Uuid u = k.
Proof.
  intros Hnd. split; [apply userMap_Some_in|]. intros [Hin <-].
  destruct (userMap l !! Panel.Uuid u) as [u'|] eqn:Hu'.
  - apply userMap_Some_in in Hu' as [Hin' Heq]. f_equal.
    apply list_elem_of_lookup in Hin as [i Hi]. apply list_elem_of_lookup in Hin' as [j Hj].
    assert (i = j) as ->.
    { eapply (NoDup_lookup (uuids l)); [done| |]; unfold uuids; rewrite list_lookup_fmap.
      - by rewrite Hi. - by rewrite Hj, <- Heq. }
    congruence.
  - apply userMap_None in Hu'. destruct Hu'. apply list_elem_of_fmap. eauto.
Qed.

Lemma uuids_filter_NoDup (P : Panel.UserInfo → Prop) `{∀ u, Decision (P u)} l :
  NoDup (uuids l) → NoDup (uuids (filter P l)).
Proof. intros Hnd. eapply sublist_NoDup; [done|]. apply fmap_sublist, sublist_filter. Qed.

Lemma userMap_filter (P : Panel.UserInfo → Prop) `{∀ u, Decision (P u)} l k :
  NoDup (uuids l) →
  userMap (filter P l) !! k
  = match userMap l !! k with Some u => if decide (P u) then Some u else None | None => None end.
Proof.
  intros Hnd. pose proof (uuids_filter_NoDup P l Hnd) as Hnd'. apply option_eq. intros u.
  rewrite userMap_Some by done. rewrite list_elem_of_filter. split.
  - intros [[HP Hin] Hk]. rewrite (proj2 (userMap_Some l k u Hnd)) by done. by rewrite decide_True.
  - destruct (userMap l !! k) as [u'|] eqn:Hu'; [|done]. case_decide; [|done]. intros [= <-].
    apply userMap_Some in Hu'; tauto.
Qed.

(** A list of the values of a keyed table. *)
Lemma userMap_values m l : keyed m → l ≡ₚ (map_to_list m).*2 → NoDup (uuids l) ∧ userMap l = m.
Proof.
  intros Hk Hl.
  assert (Hu : uuids l ≡ₚ (map_to_list m).*1).
  { unfold uuids. rewrite Hl, <- list_fmap_compose.
    match goal with |- ?a ≡ₚ ?b => cut (a = b); [by intros ->|] end.
    apply list_fmap_ext. intros i [k u] Hi. cbn. apply Hk, elem_of_map_to_list. by eapply list_elem_of_lookup_2. }
  assert (Hnd : NoDup (uuids l)) by (rewrite Hu; apply NoDup_fst_map_to_list).
  split; [done|]. apply map_eq. intros k. apply option_eq. intros u. rewrite userMap_Some by done.
  rewrite Hl, list_elem_of_fmap. split.
  - intros [([k' u'] & -> & Hin%elem_of_map_to_list) <-]. cbn. by rewrite (Hk _ _ Hin).
  - intros Hu'. split; [|by eapply Hk]. exists (k, u). by rewrite elem_of_map_to_list.
Qed.

(** ** Comparing lists *)

Section props.
Context {RO : RangeOrder string}.

Lemma compareSteps_spec new s :
  NoDup (uuids new) →
  let s' := foldl compareStep s new in
  (∀ k, df_oldMap s' !! k = if decide (k ∈ uuids new) then None else df_oldMap s !! k)
  ∧ df_added s' = df_added s ++ filter (λ u, df_oldMap s !! Panel.Uuid u = None) new
  ∧ df_updated s' = df_updated s ++ filter (isChanged (df_oldMap s)) new.
Proof.
  revert s. induction new as [|u new IH]; intros s Hnd; cbn [foldl].
  { split_and!; [|by rewrite app_nil_r|by rewrite app_nil_r]. intros k. by rewrite decide_False by apply not_elem_of_nil. }
  apply NoDup_uuids_cons in Hnd as [Hu Hnd].
  destruct (IH (compareStep s u) Hnd) as (Ho & Ha & Hup). clear IH.
  assert (Hsame : ∀ k, k ≠ Panel.Uuid u → df_oldMap (compareStep s u) !! k = df_oldMap s !! k).
  { intros k Hk. unfold compareStep. case_match; cbn; [by apply lookup_delete_ne|done]. }
  assert (Hin : ∀ x, x ∈ new → df_oldMap (compareStep s u) !! Panel.Uuid x = df_oldMap s !! Panel.Uuid x).
  { intros x Hx. apply Hsame. intros Heq. apply Hu. rewrite <- Heq. by apply elem_of_uuids. }
  split_and!.
  - intros k. rewrite Ho. destruct (decide (k ∈ uuids new)) as [H1|H1],
      (decide (k ∈ uuids (u :: new))) as [H2|H2]; rewrite uuids_cons in H2; try tauto.
    + assert (k = Panel.Uuid u) as -> by tauto. unfold compareStep. case_match; cbn; [apply lookup_delete_eq|done].
    + apply Hsame. tauto.
  - rewrite Ha. rewrite (list_filter_ext_in _ (λ x, df_oldMap s !! Panel.Uuid x = None) new)
      by (intros x Hx; by rewrite Hin).
    unfold compareStep. destruct (df_oldMap s !! Panel.Uuid u) as [o|] eqn:E; cbn [df_added].
    + rewrite (filter_cons_False (λ x, df_oldMap s !! Panel.Uuid x = None)) by congruence. done.
    + rewrite (filter_cons_True (λ x, df_oldMap s !! Panel.Uuid x = None)) by done. by rewrite <- app_assoc.
  - rewrite Hup. rewrite (list_filter_ext_in _ (isChanged (df_oldMap s)) new) by (intros x Hx; unfold isChanged; by rewrite Hin).
    unfold compareStep. destruct (df_oldMap s !! Panel.Uuid u) as [o|] eqn:E; cbn [df_updated].
    + destruct (changedUser o u) eqn:Hc.
      * rewrite filter_cons_True by (by unfold isChanged; rewrite E). by rewrite <- app_assoc.
      * rewrite filter_cons_False by (unfold isChanged; rewrite E; congruence). done.
    + rewrite filter_cons_False by (unfold isChanged; rewrite E; tauto). done.
Qed.

(** [compareUserList], for a new list without duplicates: the added users are
    the ones with a new uuid and the updated ones those whose id or limits
    differ, both in the order of the new list; the deleted ones are exactly
    the old users whose uuid is gone, each once, in an order that depends on
    the iteration over a map. *)
Theorem compareUserList_exact old new :
  NoDup (uuids new) →
  let '(deleted, added, updated) := compareUserList old new in
  added = filter (λ u, Panel.Uuid u ∉ uuids old) new
  ∧ updated = filter (isChanged (userMap old)) new
  ∧ NoDup (uuids deleted)
  ∧ ∀ u, u ∈ deleted ↔ userMap old !! Panel.Uuid u = Some u ∧ Panel.Uuid u ∉ uuids new.
Proof.
  intros Hnd. unfold compareUserList.
  destruct (compareSteps_spec new (mkDiff (userMap old) [] []) Hnd) as (Ho & Ha & Hup).
  set (s := foldl compareStep _ new) in *. cbn in Ho, Ha, Hup.
  assert (Hk : keyed (df_oldMap s)).
  { intros k u. rewrite Ho. case_decide; [done|]. apply userMap_keyed. }
  destruct (userMap_values (df_oldMap s) (range_list (df_oldMap s)).*2 Hk) as [Hnd' Hm].
  { by rewrite range_list_perm. }
  split_and!; [|done|done|].
  - rewrite Ha. apply list_filter_ext_in. intros u _. apply userMap_None.
  - intros u. pose proof (userMap_Some _ (Panel.Uuid u) u Hnd') as Hu. rewrite Hm, Ho in Hu.
    case_decide; naive_solver.
Qed.

Lemma changedUser_false o u : Panel.Uuid o = Panel.Uuid u → changedUser o u = false → o = u.
Proof.
  unfold changedUser. rewrite !orb_false_iff, !negb_false_iff, !Z.eqb_eq.
  destruct o, u; cbn. intros -> [[-> ->] ->]. done.
Qed.

(** Applying the difference of two lists to the table of the old one gives
    the table of the new one. *)
Lemma compareUserList_applyDiff old new :
  NoDup (uuids new) →
  applyDiff (userMap old) (compareUserList old new) = userMap new.
Proof.
  intros Hnd. unfold compareUserList.
  destruct (compareSteps_spec new (mkDiff (userMap old) [] []) Hnd) as (Ho & Ha & Hup).
  set (s := foldl compareStep _ new) in *. cbn in Ho, Ha, Hup.
  assert (Hk : keyed (df_oldMap s)).
  { intros k u. rewrite Ho. case_decide; [done|]. apply userMap_keyed. }
  destruct (userMap_values (df_oldMap s) (range_list (df_oldMap s)).*2 Hk) as [Hnd' Hm].
  { by rewrite range_list_perm. }
  unfold applyDiff. rewrite !insertUsers_union, Ha, Hup. apply map_eq. intros k.
  rewrite lookup_union, userMap_filter by done. rewrite removeUsers_lookup, lookup_union, userMap_filter by done.
  assert (Hdel : k ∈ uuids (range_list (df_oldMap s)).*2 ↔ is_Some (df_oldMap s !! k)).
  { rewrite <- not_eq_None_Some. rewrite <- Hm at 2. rewrite userMap_None. destruct (decide (k ∈ uuids (range_list (df_oldMap s)).*2)); tauto. }
  rewrite Ho in Hdel.
  destruct (userMap new !! k) as [u|] eqn:Hu.
  - apply userMap_Some_in in Hu as [Hin <-].
    rewrite (decide_True (P := Panel.Uuid u ∈ uuids new)) in Hdel by by apply elem_of_uuids.
    rewrite (decide_False (P := Panel.Uuid u ∈ uuids _)) by (rewrite Hdel; by intros [? ?]).
    destruct (userMap old !! Panel.Uuid u) as [o|] eqn:Ho'.
    + rewrite decide_False by done. case_decide as Hc; [done|].
      apply userMap_keyed in Ho' as Huid. cbn. f_equal. apply changedUser_false; [done|].
      unfold isChanged in Hc. rewrite Ho' in Hc. by destruct (changedUser o u).
    + rewrite (decide_True (P := @None Panel.UserInfo = None)) by done. by case_decide.
  - apply userMap_None in Hu. rewrite (decide_False (P := k ∈ uuids new)) in Hdel by done.
    destruct (userMap old !! k) as [o|] eqn:Ho'.
    + rewrite decide_True by (rewrite Hdel; eauto). done.
    + rewrite decide_False by (rewrite Hdel; by intros [? ?]). done.
Qed.

(** ** Deltas *)

Lemma deleteSteps_spec deleted m acc :
  keyed m →
  let '(m', applied) := foldl deleteStep (m, acc) deleted in
  (∀ k, m' !! k = if decide (k ∈ uuids deleted) then None else m !! k)
  ∧ ∀ u, u ∈ applied ↔ u ∈ acc ∨ (m !! Panel.Uuid u = Some u ∧ Panel.Uuid u ∈ uuids deleted).
Proof.
  revert m acc. induction deleted as [|d deleted IH]; intros m acc Hm; cbn [foldl].
  { split; [intros k; by rewrite decide_False by apply not_elem_of_nil|].
    intros u. split; [by left|]. intros [?|[_ Hin]]; [done|by apply elem_of_nil in Hin]. }
  cbn [deleteStep]. destruct (m !! Panel.Uuid d) as [o|] eqn:Ho.
  - assert (Hm' : keyed (delete (Panel.Uuid d) m)) by (intros k u [_ ?]%lookup_delete_Some; eauto).
    specialize (IH _ (acc ++ [o]) Hm'). destruct (foldl deleteStep _ deleted) as [m' applied].
    destruct IH as [Hk Ha]. split.
    + intros k. rewrite Hk. destruct (decide (k ∈ uuids deleted)), (decide (k ∈ uuids (d :: deleted))) as [H2|H2];
        rewrite uuids_cons in H2; try tauto.
      * assert (k = Panel.Uuid d) as -> by tauto. apply lookup_delete_eq.
      * apply lookup_delete_ne. intros <-. tauto.
    + intros u. rewrite Ha, elem_of_app, list_elem_of_singleton, lookup_delete_Some, uuids_cons.
      pose proof (Hm _ _ Ho) as Hod. destruct (decide (Panel.Uuid d = Panel.Uuid u)) as [Heq|Hne].
      * split; [intros [[?| ->]|]; [tauto| |tauto]|].
        -- right. split; [by rewrite <- Heq in *|by left].
        -- intros [?|[Hu _]]; [tauto|]. left. right. rewrite <- Heq in Hu. congruence.
      * split; [intros [[?| ->]|]; [tauto|congruence|tauto]|]. intros [?|[Hu [?|?]]]; [tauto|congruence|tauto].
  - specialize (IH m acc Hm). destruct (foldl deleteStep _ deleted) as [m' applied]. destruct IH as [Hk Ha]. split.
    + intros k. rewrite Hk. destruct (decide (k ∈ uuids deleted)), (decide (k ∈ uuids (d :: deleted))) as [H2|H2];
        rewrite uuids_cons in H2; try tauto. assert (k = Panel.Uuid d) as -> by tauto. done.
    + intros u. rewrite Ha, uuids_cons. split; [tauto|]. intros [?|[Hu [Heq|?]]]; [tauto| |tauto]. congruence.
Qed.

Lemma upsertSteps_spec upsert s :
  NoDup (uuids upsert) →
  let s' := foldl upsertStep s upsert in
  df_oldMap s' = insertUsers (df_oldMap s) upsert
  ∧ df_added s' = df_added s ++ filter (λ u, df_oldMap s !! Panel.Uuid u = None) upsert
  ∧ df_updated s' = df_updated s ++ filter (λ u, df_oldMap s !! Panel.Uuid u ≠ None) upsert.
Proof.
  revert s. induction upsert as [|u upsert IH]; intros s Hnd; cbn [foldl].
  { by rewrite !app_nil_r. }
  apply NoDup_uuids_cons in Hnd as [Hu Hnd].
  destruct (IH (upsertStep s u) Hnd) as (Ho & Ha & Hup). clear IH.
  assert (Hmap : df_oldMap (upsertStep s u) = <[Panel.Uuid u := u]> (df_oldMap s)).
  { unfold upsertStep. by case_match. }
  assert (Hin : ∀ x, x ∈ upsert → df_oldMap (upsertStep s u) !! Panel.Uuid x = df_oldMap s !! Panel.Uuid x).
  { intros x Hx. rewrite Hmap. apply lookup_insert_ne. intros Heq. apply Hu. rewrite Heq. by apply elem_of_uuids. }
  split_and!.
  - rewrite Ho, Hmap. done.
  - rewrite Ha. rewrite (list_filter_ext_in _ (λ x, df_oldMap s !! Panel.Uuid x = None) upsert)
      by (intros x Hx; by rewrite Hin).
    unfold upsertStep. destruct (df_oldMap s !! Panel.Uuid u) as [o|] eqn:E; cbn [df_added].
    + by rewrite (filter_cons_False (λ x, df_oldMap s !! Panel.Uuid x = None)) by congruence.
    + rewrite (filter_cons_True (λ x, df_oldMap s !! Panel.Uuid x = None)) by done. by rewrite <- app_assoc.
  - rewrite Hup. rewrite (list_filter_ext_in _ (λ x, df_oldMap s !! Panel.Uuid x ≠ None) upsert)
      by (intros x Hx; by rewrite Hin).
    unfold upsertStep. destruct (df_oldMap s !! Panel.Uuid u) as [o|] eqn:E; cbn [df_updated].
    + rewrite (filter_cons_True (λ x, df_oldMap s !! Panel.Uuid x ≠ None)) by congruence. by rewrite <- app_assoc.
    + by rewrite (filter_cons_False (λ x, df_oldMap s !! Panel.Uuid x ≠ None)) by tauto.
Qed.

(** The order by uuid. *)
Lemma ascii_compare_trans a b c :
  Ascii.compare a b ≠ Gt → Ascii.compare b c ≠ Gt → Ascii.compare a c ≠ Gt.
Proof. unfold Ascii.compare. rewrite !N.compare_gt_iff. lia. Qed.

Lemma ascii_compare_eq a b : Ascii.compare a b = Eq → a = b.
Proof.
  unfold Ascii.compare. rewrite N.compare_eq_iff. intros E.
  by rewrite <- (Ascii.ascii_N_embedding a), E, Ascii.ascii_N_embedding.
Qed.

Lemma string_compare_trans a b c :
  String.compare a b ≠ Gt → String.compare b c ≠ Gt → String.compare a c ≠ Gt.
Proof.
  revert b c. induction a as [|x a IH]; intros [|y b] [|z c]; cbn; try done.
  pose proof (ascii_compare_trans x y z) as Ht.
  destruct (Ascii.compare x y) eqn:E1; [apply ascii_compare_eq in E1 as ->| |done].
  - destruct (Ascii.compare y z) eqn:E2; [|done|done]. apply IH.
  - destruct (Ascii.compare y z) eqn:E2; [apply ascii_compare_eq in E2 as ->; by rewrite E1| |done].
    intros _ _. destruct (Ascii.compare x z) eqn:E3; [|done|].
    + apply ascii_compare_eq in E3 as ->. rewrite Ascii.compare_antisym, E2 in E1. done.
    + by destruct Ht.
Qed.

Lemma leb_compare a b : String.leb a b = true ↔ String.compare a b ≠ Gt.
Proof. unfold String.leb. destruct (String.compare a b); naive_solver. Qed.

#[global] Instance uuidLe_trans : Transitive uuidLe.
Proof. intros a b c. unfold uuidLe. rewrite !leb_compare. apply string_compare_trans. Qed.

#[global] Instance uuidLe_total : Total uuidLe.
Proof. intros a b. apply String.leb_total. Qed.

(** The order is strict on lists without duplicates. *)
Definition uuidLt u u' : Prop := uuidLe u u' ∧ Panel.Uuid u ≠ Panel.Uuid u'.

Lemma sorted_strict l : NoDup (uuids l) → StronglySorted uuidLe l → StronglySorted uuidLt l.
Proof.
  induction l as [|u l IH]; [constructor|].
  rewrite NoDup_uuids_cons. intros [Hu Hnd] Hs. inversion Hs as [|? ? Hs' Hall]; subst.
  constructor; [by apply IH|]. rewrite Forall_forall in *. intros x Hx. split; [by apply Hall|].
  intros Heq. apply Hu. rewrite Heq. by apply elem_of_uuids.
Qed.

Lemma applyUserDelta_spec old deleted upsert :
  NoDup (uuids upsert) →
  let '(next, diff) := applyUserDelta old deleted upsert in
  StronglySorted uuidLt next ∧ NoDup (uuids next)
  ∧ (∀ u, u ∈ diff.2 → is_Some (userMap old !! Panel.Uuid u))
  ∧ userMap next = insertUsers (removeUsers (userMap old) deleted) upsert
  ∧ applyDiff (userMap old) diff = userMap next.
Proof.
  intros Hnd. unfold applyUserDelta.
  pose proof (deleteSteps_spec deleted (userMap old) [] (userMap_keyed old)) as Hdel.
  destruct (foldl deleteStep _ deleted) as [m applied]. destruct Hdel as [Hm Happ].
  destruct (upsertSteps_spec upsert (mkDiff m [] []) Hnd) as (Ho & Ha & Hup).
  set (s := foldl upsertStep _ upsert) in *. cbn in Ho, Ha, Hup.
  assert (Hmap : insertUsers m upsert = insertUsers (removeUsers (userMap old) deleted) upsert).
  { f_equal. apply map_eq. intros k. by rewrite Hm, removeUsers_lookup. }
  assert (Hk : keyed (df_oldMap s)).
  { intros k u. rewrite Ho, insertUsers_union, lookup_union_Some_raw. intros [Hu|[_ Hu]].
    - by eapply userMap_keyed. - rewrite Hm in Hu. case_decide; [done|]. by eapply userMap_keyed. }
  destruct (userMap_values (df_oldMap s) (sortUsers (range_list (df_oldMap s)).*2) Hk) as [Hnd' Hnext].
  { unfold sortUsers. rewrite merge_sort_Permutation. by rewrite range_list_perm. }
  split_and!.
  - apply sorted_strict; [done|]. apply StronglySorted_merge_sort; apply _.
  - done.
  - intros u. cbn. rewrite Hup, list_elem_of_filter, Hm. intros [Hne _]. case_decide; [done|].
    by apply not_eq_None_Some.
  - rewrite Hnext, Ho. apply Hmap.
  - rewrite Hnext, Ho. unfold applyDiff. rewrite !insertUsers_union, Ha, Hup. apply map_eq. intros k.
    rewrite !lookup_union, userMap_filter by done.
    rewrite removeUsers_lookup, lookup_union, userMap_filter by done. rewrite Hm.
    assert (Hin : k ∈ uuids applied → k ∈ uuids deleted).
    { intros (u & -> & Hu)%list_elem_of_fmap. apply Happ in Hu as [Hu|[_ ?]]; [by apply elem_of_nil in Hu|done]. }
    assert (Hout : k ∈ uuids deleted → k ∉ uuids applied → userMap old !! k = None).
    { intros Hd Hna. destruct (userMap old !! k) as [o|] eqn:Hko; [|done]. destruct Hna.
      apply userMap_keyed in Hko as Hok. subst k. apply elem_of_uuids, Happ. by right. }
    destruct (userMap upsert !! k) as [u|] eqn:Hu; cbn.
    + apply userMap_keyed in Hu as Hku. rewrite Hku, !Hm. repeat case_decide; try done; try tauto.
      all: rewrite ?(left_id_L None (∪)); by destruct (userMap old !! k).
    + rewrite !(left_id_L None (∪)). repeat case_decide; try done; try tauto.
Qed.

End props.

(** [applyUserDelta], for upserts without duplicates. The next list is sorted
    strictly by uuid, and holds the users of the old list without the deleted
    ones and with the upserted ones; it is the same list for every iteration
    order. The difference returned with it turns the old table into the next. *)
Theorem applyUserDelta_correct (RO RO' : RangeOrder string) old deleted upsert :
  NoDup (uuids upsert) →
  let '(next, diff) := applyUserDelta (RO := RO) old deleted upsert in
  StronglySorted uuidLt next
  ∧ userMap next = insertUsers (removeUsers (userMap old) deleted) upsert
  ∧ applyDiff (userMap old) diff = userMap next
  ∧ (applyUserDelta (RO := RO') old deleted upsert).1 = next.
Proof.
  intros Hnd. pose proof (applyUserDelta_spec (RO := RO) old deleted upsert Hnd) as H1.
  pose proof (applyUserDelta_spec (RO := RO') old deleted upsert Hnd) as H2.
  destruct (applyUserDelta (RO := RO) _ _ _) as [next diff], (applyUserDelta (RO := RO') _ _ _) as [next' diff'].
  destruct H1 as (Hs & Hn & _ & Hm & Hd), H2 as (Hs' & Hn' & _ & Hm' & _). split_and!; try done. cbn.
  apply (StronglySorted_unique_strong uuidLt).
  - intros u1 u2 _ _ [H12 Hne] [H21 _]. destruct Hne. by apply String.leb_antisym.
  - done. - done.
  - apply NoDup_Permutation; [by eapply NoDup_fmap_1|by eapply NoDup_fmap_1|].
    intros u. pose proof (userMap_Some next (Panel.Uuid u) u Hn) as E1.
    pose proof (userMap_Some next' (Panel.Uuid u) u Hn') as E2. rewrite Hm in E1. rewrite Hm' in E2. naive_solver.
Qed.

(** ** Synchronisation *)

(** The tables the limiter and the core keep for a list of users. *)
Definition limiterTable m : gmap string LimiterProps.Table.entry :=
  LimiterProps.Table.of_user <$> m.

Definition coreTable (tag : string) m : gmap string Z :=
  kmap (Limiter.UserTag tag) (Panel.Id <$> m).

#[global] Instance UserTag_inj' tag : Inj (=) (=) (Limiter.UserTag tag).
Proof. intros x y. apply Limiter.UserTag_inj. Qed.

Lemma limiterTable_insert m us : LimiterProps.Table.upsert (limiterTable m) us = limiterTable (insertUsers m us).
Proof.
  unfold LimiterProps.Table.upsert, insertUsers. revert m. induction us as [|u us IH]; intros m; cbn; [done|].
  rewrite <- IH. unfold limiterTable at 2. by rewrite fmap_insert.
Qed.

Lemma limiterTable_remove m us : LimiterProps.Table.remove (limiterTable m) us = limiterTable (removeUsers m us).
Proof.
  unfold LimiterProps.Table.remove, removeUsers. revert m. induction us as [|u us IH]; intros m; cbn; [done|].
  rewrite <- IH. unfold limiterTable at 2. by rewrite fmap_delete.
Qed.

Lemma coreTable_insert tag m k u :
  coreTable tag (<[k := u]> m) = <[Limiter.UserTag tag k := Panel.Id u]> (coreTable tag m).
Proof. unfold coreTable. rewrite fmap_insert. apply (kmap_insert (Limiter.UserTag tag)). Qed.

Lemma coreTable_delete tag m k :
  coreTable tag (delete k m) = delete (Limiter.UserTag tag k) (coreTable tag m).
Proof. unfold coreTable. rewrite fmap_delete. apply (kmap_delete (Limiter.UserTag tag)). Qed.

Lemma coreTable_lookup tag m k : coreTable tag m !! Limiter.UserTag tag k = Panel.Id <$> m !! k.
Proof. unfold coreTable. rewrite (lookup_kmap (Limiter.UserTag tag)). apply lookup_fmap. Qed.

Lemma coreTable_add tag m us n :
  CoreProps.specOp tag (coreTable tag m) (CoreProps.OpAdd us n) = coreTable tag (insertUsers m us).
Proof.
  cbn. unfold Core.setUids, insertUsers. revert m. induction us as [|u us IH]; intros m; cbn; [done|].
  by rewrite <- IH, coreTable_insert.
Qed.

Lemma coreTable_del tag m us :
  CoreProps.specOp tag (coreTable tag m) (CoreProps.OpDel us) = coreTable tag (removeUsers m us).
Proof.
  cbn. unfold removeUsers. revert m. induction us as [|u us IH]; intros m; cbn; [done|].
  by rewrite <- IH, coreTable_delete.
Qed.

Lemma coreTable_ids tag m us :
  (∀ u, u ∈ us → is_Some (m !! Panel.Uuid u)) →
  CoreProps.specOp tag (coreTable tag m) (CoreProps.OpIDs us) = coreTable tag (insertUsers m us).
Proof.
  cbn. unfold insertUsers. revert m. induction us as [|u us IH]; intros m Hin; cbn; [done|].
  rewrite <- IH.
  - f_equal. apply map_eq. intros k. rewrite coreTable_insert. unfold CoreProps.key.
    rewrite lookup_alter. case_decide as Hk.
    + subst. rewrite lookup_insert_eq, coreTable_lookup.
      destruct (Hin u ltac:(left)) as [o Ho]. by rewrite Ho.
    + by rewrite lookup_insert_ne.
  - intros x Hx. destruct (decide (Panel.Uuid x = Panel.Uuid u)) as [->|Hne].
    + rewrite lookup_insert_eq. eauto.
    + rewrite lookup_insert_ne by done. apply Hin. by right.
Qed.

#[local] Arguments userMap : simpl never.

Section sync.
Context `{Laws : CoreProps.UserManagerLaws} `{RL : Limiter.RateLimit} `{Sha : EdgeSidecar.Sha1}.
Context {RO : RangeOrder string} {ROn : RangeOrder nat}.
Implicit Types (c : Controller) (cp : ControlPlane).

(** The limiter and the core agree with the controller's list. *)
Definition agrees c : Prop :=
  LimiterProps.represents (c_tag c) (c_limiter c) (limiterTable (userMap (userList c)))
  ∧ CoreProps.represents (c_tag c) (c_server c) (coreTable (c_tag c) (userMap (userList c))).

(** The users the panel wants, according to what it answers. *)
Definition listedTable cp c : gmap string Panel.UserInfo :=
  match GetUserList cp with
  | Ok ((_ :: _) as l) => userMap l
  | _ => userMap (userList c)
  end.

Definition wantedTable cp c : gmap string Panel.UserInfo :=
  if userDeltaSupported c then
    match GetUserDelta cp (userRevision c) with
    | Ok (Some d) =>
        if Panel.Full d then
          match Panel.Users d with [] => userMap (userList c) | l => userMap l end
        else insertUsers (removeUsers (userMap (userList c)) (Panel.Deleted d)) (Panel.Upsert d)
    | Ok None => userMap (userList c)
    | Err _ => listedTable cp c
    end
  else listedTable cp c.

(** The panel never names a uuid twice. *)
Definition saneAnswers cp c : Prop :=
  (∀ l, GetUserList cp = Ok l → NoDup (uuids l))
  ∧ ∀ d, GetUserDelta cp (userRevision c) = Ok (Some d) →
      NoDup (uuids (Panel.Users d)) ∧ NoDup (uuids (Panel.Upsert d)).

(** What fetching changes of the controller. *)
Definition sameNode c c' : Prop :=
  c_tag c' = c_tag c ∧ c_info c' = c_info c ∧ c_limiter c' = c_limiter c ∧ c_server c' = c_server c.

(** What applying a difference does not change. *)
Definition sameUsers c c' : Prop :=
  c_tag c' = c_tag c ∧ c_info c' = c_info c ∧ userList c' = userList c
  ∧ userRevision c' = userRevision c ∧ userDeltaSupported c' = userDeltaSupported c.

(** A difference that fits the old and the new list. *)
Definition goodDiff old new (d : Diff) : Prop :=
  applyDiff (userMap old) d = userMap new
  ∧ ∀ u, u ∈ d.2 → is_Some (userMap old !! Panel.Uuid u).

Lemma goodDiff_nil l : goodDiff l l ([], [], []).
Proof. split; [done|]. intros u Hu. by apply elem_of_nil in Hu. Qed.

Lemma goodDiff_compare old new : NoDup (uuids new) → goodDiff old new (compareUserList old new).
Proof.
  intros Hnd. split; [by apply compareUserList_applyDiff|]. intros u.
  destruct (compareSteps_spec new (mkDiff (userMap old) [] []) Hnd) as (_ & _ & Hup).
  unfold compareUserList. cbn. rewrite Hup. cbn. rewrite list_elem_of_filter. intros [Hc _].
  unfold isChanged in Hc. cbn in Hc. by destruct (userMap old !! Panel.Uuid u).
Qed.

Lemma syncUserList_spec cp c c1 d :
  saneAnswers cp c → syncUserList cp c = (c1, Ok d) →
  sameNode c c1 ∧ goodDiff (userList c) (userList c1) d ∧ userMap (userList c1) = listedTable cp c
  ∧ userDeltaSupported c1 = userDeltaSupported c.
Proof.
  intros [Hsane _]. unfold syncUserList, listedTable.
  destruct (GetUserList cp) as [[|u l]|e] eqn:Hl; [| |done]; intros [= <- <-].
  - split_and!; try done. apply goodDiff_nil.
  - split_and!; try done. apply goodDiff_compare. by apply Hsane.
Qed.

Lemma fetchUsers_spec cp c c1 d :
  saneAnswers cp c → fetchUsers cp c = (c1, Ok d) →
  sameNode c c1 ∧ goodDiff (userList c) (userList c1) d ∧ userMap (userList c1) = wantedTable cp c.
Proof.
  intros Hsane. unfold fetchUsers, wantedTable. destruct (userDeltaSupported c) eqn:Hs.
  2: { intros Hf. by apply syncUserList_spec in Hf as (? & ? & ? & _). }
  destruct (GetUserDelta cp (userRevision c)) as [[delta|]|e] eqn:Hd.
  - unfold syncUserDelta. destruct Hsane as [_ Hsane]. destruct (Hsane _ Hd) as [Hnu Hnp].
    destruct (Panel.Full delta).
    + destruct (Panel.Users delta) as [|u l] eqn:Hu; intros [= <- <-]; (split; [done|]).
      * split; [apply goodDiff_nil|done].
      * split; [|done]. by apply goodDiff_compare.
    + pose proof (applyUserDelta_spec (userList c) (Panel.Deleted delta) (Panel.Upsert delta) Hnp) as Hspec.
      destruct (applyUserDelta _ _ _) as [next diff] eqn:Happ. destruct Hspec as (_ & _ & Hup & Hm & Hdiff).
      destruct (Panel.Deleted delta) as [|x xs] eqn:Hdel; [destruct (Panel.Upsert delta) as [|y ys] eqn:Hups|].
      * intros [= <- <-]. split_and!; [done|apply goodDiff_nil|done].
      * rewrite Happ. intros [= <- <-]. split_and!; [done|by split|done].
      * rewrite Happ. intros [= <- <-]. split_and!; [done|by split|done].
  - intros [= <- <-]. split_and!; [done|apply goodDiff_nil|done].
  - destruct (errorsIs e _); [|done]. intros Hf. by apply syncUserList_spec in Hf as (? & ? & ? & _).
Qed.
Lemma fetchAlive_agrees cp now c :
  agrees c → agrees (fetchAlive cp now c) ∧ sameUsers c (fetchAlive cp now c)
  ∧ c_server (fetchAlive cp now c) = c_server c.
Proof.
  intros [Hl Hv]. unfold fetchAlive. repeat case_match; try done.
  split; [|done]. split; [|done].
  apply (LimiterProps.represents_runOp _ (LimiterProps.OpSetAliveSnapshot now (Some _)) _ _ Hl).
Qed.

(** The steps of [executeNodeUserSync] after the fetch, one lemma each: the
    tables follow, the list stays. [m] is the table the limiter and the core
    represent so far. *)
Definition tables (m ml : gmap string Panel.UserInfo) c : Prop :=
  LimiterProps.represents (c_tag c) (c_limiter c) (limiterTable ml)
  ∧ CoreProps.represents (c_tag c) (c_server c) (coreTable (c_tag c) m).

Lemma updated_tables m c updated c' :
  tables m m c → (∀ u, u ∈ updated → is_Some (m !! Panel.Uuid u)) →
  (if bool_decide (updated = []) then (c, None) else applyUpdatedUsers updated c) = (c', None) →
  tables (insertUsers m updated) (insertUsers m updated) c' ∧ sameUsers c c'.
Proof.
  intros [Hl Hv] Hin. case_bool_decide as Hnil; [subst; by intros [= <-]|].
  unfold applyUpdatedUsers. destruct (Core.UpdateUserIDs _ _ _) as [v err] eqn:Hu. intros [= <- ->].
  split; [|done]. split; cbn.
  - rewrite <- limiterTable_insert.
    apply (LimiterProps.represents_runOp _ (LimiterProps.OpUpdateUserInfo updated) _ _ Hl).
  - rewrite <- coreTable_ids by done.
    apply (CoreProps.represents_runUserOp (λ _, []) Core.background _ (CoreProps.OpIDs updated) _ _ _ Hv).
    cbn. by rewrite Hu.
Qed.

Lemma deleted_tables arrivals ctx m ml c deleted c' :
  tables m ml c → isSidecarNode c = false →
  (if bool_decide (deleted = []) then (c, None) else applyDeletedUsers arrivals ctx deleted c) = (c', None) →
  tables (removeUsers m deleted) ml c' ∧ sameUsers c c'.
Proof.
  intros [Hl Hv] Hside. case_bool_decide as Hnil; [subst; by intros [= <-]|].
  unfold applyDeletedUsers. rewrite Hside. destruct (Core.DelUsers _ _ _ _ _) as [v err] eqn:Hd.
  intros [= <- ->]. split; [|done]. split; cbn; [done|]. rewrite <- coreTable_del.
  apply (CoreProps.represents_runUserOp arrivals ctx _ (CoreProps.OpDel deleted) _ _ _ Hv). cbn. by rewrite Hd.
Qed.

Lemma added_tables ctx m ml c added c' :
  tables m ml c → isSidecarNode c = false →
  (if bool_decide (added = []) then Some (c, None) else applyAddedUsers ctx added c) = Some (c', None) →
  tables (insertUsers m added) ml c' ∧ sameUsers c c'.
Proof.
  intros [Hl Hv] Hside. case_bool_decide as Hnil; [subst; by intros [= <-]|].
  unfold applyAddedUsers. destruct (Core.AddUsersWithContext _ _ _) as [[v [k err]]|] eqn:Ha; [|done].
  intros [= <- ->]. split; [|done]. split; cbn; [done|].
  destruct (c_info c) as [n|] eqn:Hi.
  - rewrite <- (coreTable_add _ _ _ n).
    apply (CoreProps.represents_runUserOp (λ _, []) ctx _ (CoreProps.OpAdd added n) _ _ _ Hv). cbn.
    rewrite Ha. unfold isSidecarNode in Hside. rewrite Hi in Hside. by rewrite Hside.
  - unfold Core.AddUsersWithContext in Ha. cbn in Ha. by case_match.
Qed.

Lemma limiter_tables m ml c added deleted :
  tables m ml c →
  let c' := if bool_decide (added = [] ∧ deleted = []) then c
            else withServer (Limiter.UpdateUser (c_tag c) added deleted (c_limiter c)) (c_server c) c in
  tables m (insertUsers (removeUsers ml deleted) added) c' ∧ sameUsers c c'.
Proof.
  intros [Hl Hv]. case_bool_decide as Hnil; [by destruct Hnil as [-> ->]|].
  split; [|done]. split; cbn; [|done]. rewrite <- limiterTable_insert, <- limiterTable_remove.
  apply (LimiterProps.represents_runOp _ (LimiterProps.OpUpdateUser added deleted) _ _ Hl).
Qed.

#[global] Instance sameUsers_preorder : PreOrder sameUsers.
Proof.
  split.
  - intros c. by repeat split.
  - intros c1 c2 c3 (H1 & H2 & H3 & H4 & H5) (G1 & G2 & G3 & G4 & G5). repeat split; congruence.
Qed.


(** *** Failures *)

(** What the steps after the fetch leave alone, whether they succeed or not. *)
Lemma applyUpdated_same updated c c' err : applyUpdatedUsers updated c = (c', err) → sameUsers c c'.
Proof. unfold applyUpdatedUsers. case_match. by intros [= <- <-]. Qed.

Lemma applyDeleted_same arrivals ctx deleted c c' err :
  applyDeletedUsers arrivals ctx deleted c = (c', err) → sameUsers c c'.
Proof. unfold applyDeletedUsers. case_match; [by intros [= <- <-]|]. case_match. by intros [= <- <-]. Qed.

Lemma applyAdded_same ctx added c c' err :
  applyAddedUsers ctx added c = Some (c', err) → sameUsers c c'.
Proof. unfold applyAddedUsers. repeat case_match; try done. by intros [= <- <-]. Qed.

Lemma fetchAlive_same cp now c : sameUsers c (fetchAlive cp now c) ∧ c_server (fetchAlive cp now c) = c_server c.
Proof. unfold fetchAlive. by repeat case_match. Qed.

Lemma execute_same cp now arrivals ctx cancelled c c1 d c' r :
  fetchUsers cp c = (c1, Ok d) →
  executeNodeUserSync cp now arrivals ctx cancelled c = Some (c', r) → sameUsers c1 c'.
Proof.
  intros Hf. unfold executeNodeUserSync. rewrite Hf. destruct d as [[deleted added] updated].
  destruct (fetchAlive_same cp now c1) as [Hs1 _]. set (c2 := fetchAlive cp now c1) in *.
  destruct (if bool_decide (updated = []) then _ else _) as [c3 err3] eqn:E3.
  assert (Hs3 : sameUsers c2 c3).
  { case_bool_decide; [by injection E3 as <- <-|by eapply applyUpdated_same]. }
  destruct err3 as [e|]; [intros [= <- <-]; by etrans|].
  destruct (if bool_decide (deleted = []) then _ else _) as [c4 err4] eqn:E4.
  assert (Hs4 : sameUsers c2 c4).
  { etrans; [exact Hs3|]. case_bool_decide; [by injection E4 as <- <-|by eapply applyDeleted_same]. }
  destruct err4 as [e|]; [intros [= <- <-]; by etrans|].
  destruct (if bool_decide (added = []) then _ else _) as [[c5 err5]|] eqn:E5; [|done].
  assert (Hs5 : sameUsers c2 c5).
  { etrans; [exact Hs4|]. case_bool_decide; [by injection E5 as <- <-|by eapply applyAdded_same]. }
  destruct err5 as [e|]; [intros [= <- <-]; by etrans|].
  set (c6 := if bool_decide (added = [] ∧ deleted = []) then c5 else _).
  assert (Hs6 : sameUsers c1 c6).
  { etrans; [exact Hs1|]. etrans; [exact Hs5|]. unfold c6. destruct (bool_decide (added = [] ∧ deleted = [])); [reflexivity|by repeat split]. }
  destruct (if bool_decide (added = [] ∧ deleted = [] ∧ updated = []) then _ else _); by intros [= <- <-].
Qed.

Lemma compareUserList_self l : NoDup (uuids l) → compareUserList l l = ([], [], []).
Proof.
  intros Hnd. destruct (compareSteps_spec l (mkDiff (userMap l) [] []) Hnd) as (Ho & Ha & Hup).
  unfold compareUserList. set (s := foldl compareStep _ l) in *. cbn in Ho, Ha, Hup.
  assert (Hin : ∀ u, u ∈ l → userMap l !! Panel.Uuid u = Some u) by (intros u Hu; by apply userMap_Some).
  rewrite Ha, Hup. f_equal; [f_equal|].
  - assert (df_oldMap s = ∅) as ->; [|by rewrite range_list_empty].
    apply map_empty. intros k. rewrite Ho. case_decide; [done|]. by apply userMap_None.
  - cbn. apply list_filter_none. intros u Hu. by rewrite (Hin u Hu).
  - cbn. apply list_filter_none. intros u Hu. unfold isChanged. rewrite (Hin u Hu).
    unfold changedUser. rewrite !Z.eqb_refl. done.
Qed.

(** A synchronisation that fails half-way is not made up for. With the full
    user list ([GetUserDelta] not supported), the controller takes the panel's
    list over before it applies the difference. When an application fails, the
    core may lack users of the list or still have users that left it; the next
    synchronisation with the same list finds no difference, reports success
    and leaves the core as it is. *)
Theorem sync_failure_sticks cp now arrivals ctx cancelled c c' r now' arrivals' ctx' cancelled' l :
  userDeltaSupported c = false → GetUserList cp = Ok l → l ≠ [] → NoDup (uuids l) →
  executeNodeUserSync cp now arrivals ctx cancelled c = Some (c', r) →
  ∃ c'', executeNodeUserSync cp now' arrivals' ctx' cancelled' c' = Some (c'', Ok noChange)
         ∧ c_server c'' = c_server c'.
Proof.
  intros Hs Hl Hne Hnd Hrun.
  assert (Hf : fetchUsers cp c = (withUsers l (userRevision c) false (disk c) c,
                                  Ok (compareUserList (userList c) l))).
  { unfold fetchUsers, syncUserList. rewrite Hs, Hl. by destruct l. }
  destruct (execute_same _ _ _ _ _ _ _ _ _ _ Hf Hrun) as (_ & _ & Hu & _ & Hsup). cbn in Hu, Hsup.
  unfold executeNodeUserSync. assert (Hf' : fetchUsers cp c' =
    (withUsers l (userRevision c') false (disk c') c', Ok ([], [], []))).
  { unfold fetchUsers, syncUserList. rewrite Hsup, Hl, Hu, compareUserList_self by done. by destruct l. }
  rewrite Hf'. cbn. eexists. split; [done|].
  exact (proj2 (fetchAlive_same cp now' (withUsers l (userRevision c') false (disk c') c'))).
Qed.

(** *** Starting *)

(** A panel whose answers are consistent: [history] are the user tables of
    past revisions (revision 0 is the empty table), [cur] is the current one;
    a full answer lists the current table, a delta leads to it from the
    revision asked for. *)
Record consistentPanel (history : gmap Z (gmap string Panel.UserInfo)) (cur : Z)
    (table : gmap string Panel.UserInfo) cp : Prop := {
  cp_zero : history !! 0 = Some ∅;
  cp_cur : history !! cur = Some table;
  cp_list l : GetUserList cp = Ok l → userMap l = table;
  cp_delta since d : GetUserDelta cp since = Ok (Some d) →
    Panel.Revision d = cur ∧ NoDup (uuids (Panel.Upsert d))
    ∧ if Panel.Full d then userMap (Panel.Users d) = table
      else ∀ t, history !! since = Some t →
             insertUsers (removeUsers t (Panel.Deleted d)) (Panel.Upsert d) = table
}.

(** The state file, if there is one, is a snapshot of a past revision. *)
Definition trueSnapshot (history : gmap Z (gmap string Panel.UserInfo)) c : Prop :=
  ∀ st, loadUserSyncState (userSyncStatePath c) (disk c) = Some st →
    history !! sy_Revision st = Some (userMap (sy_Users st)).

Lemma save_snapshot (history : gmap Z (gmap string Panel.UserInfo)) path revision users d table :
  history !! revision = Some table → userMap users = table →
  (∀ st, loadUserSyncState path d = Some st → history !! sy_Revision st = Some (userMap (sy_Users st))) →
  ∀ st, loadUserSyncState path (saveUserSyncState path revision users d) = Some st →
    history !! sy_Revision st = Some (userMap (sy_Users st)).
Proof.
  intros Hh Hu Hold st. unfold saveUserSyncState. case_match; [|apply Hold].
  unfold loadUserSyncState. cbn. rewrite lookup_insert_eq. intros [= <-]. rewrite <- Hu in Hh. exact Hh.
Qed.

Lemma removeUsers_empty l : removeUsers ∅ l = ∅.
Proof. apply map_empty. intros k. rewrite removeUsers_lookup. by case_decide. Qed.

Lemma warmStart_current history cur table cp c c' users :
  consistentPanel history cur table cp → trueSnapshot history c →
  warmStart cp c = (c', users) →
  trueSnapshot history c' ∧ userSyncStatePath c' = userSyncStatePath c
  ∧ (∀ l, users = Some l → userMap l = table ∧ userRevision c' = cur).
Proof.
  intros Hcp Hsnap. unfold warmStart.
  destruct (negb _ || _); [by intros [= <- <-]|].
  destruct (loadUserSyncState _ _) as [st|] eqn:Hst; [|by intros [= <- <-]].
  destruct (_ || _); [by intros [= <- <-]|].
  destruct (GetUserDelta cp (sy_Revision st)) as [[d|]|e] eqn:Hd;
    [|by intros [= <- <-]|intros [= <- <-]; by case_match].
  destruct (cp_delta _ _ _ _ Hcp _ _ Hd) as (Hrev & Hnd & Htable).
  set (l := if Panel.Full d then _ else _). assert (Hl : userMap l = table).
  { unfold l. destruct (Panel.Full d); [done|].
    pose proof (applyUserDelta_spec (sy_Users st) (Panel.Deleted d) (Panel.Upsert d) Hnd) as Hspec.
    destruct (applyUserDelta _ _ _) as [next diff]. cbn. destruct Hspec as (_ & _ & _ & -> & _).
    apply Htable. by apply Hsnap. }
  intros [= <- <-]. split_and!; [|done|].
  - intros st'. cbn. eapply save_snapshot; [|exact Hl|exact Hsnap]. rewrite Hrev. apply (cp_cur _ _ _ _ Hcp).
  - intros l' [= <-]. by split.
Qed.

(** Starting a node. Whichever way [loadAndSyncUsers] gets the users (the
    cached list brought up to date by a delta, a delta from nothing, the full
    list), with a consistent panel and a state file that is a snapshot of some
    revision it returns the panel's current users, and the state file is a
    snapshot again. *)
Theorem loadAndSyncUsers_current history cur table cp c c' users :
  consistentPanel history cur table cp → trueSnapshot history c →
  loadAndSyncUsers cp c = (c', Ok users) →
  userMap users = table ∧ trueSnapshot history c'.
Proof.
  intros Hcp Hsnap. unfold loadAndSyncUsers.
  destruct (warmStart cp c) as [c1 warm] eqn:Hw.
  destruct (warmStart_current _ _ _ _ _ _ _ Hcp Hsnap Hw) as (Hsnap1 & Hpath & Hwarm).
  destruct warm as [l|].
  { intros [= <- <-]. split; [by apply Hwarm|done]. }
  assert (Hlist : ∀ c2, trueSnapshot history c2 → loadUserList cp c2 = (c', Ok users) →
    userMap users = table ∧ trueSnapshot history c').
  { intros c2 H2. unfold loadUserList. intros [= <- Hl]. split; [by apply (cp_list _ _ _ _ Hcp)|done]. }
  destruct (userDeltaSupported c1); [|by apply Hlist].
  destruct (GetUserDelta cp 0) as [[d|]|e] eqn:Hd; [|by apply Hlist|destruct (errorsIs e _); [by apply Hlist|done]].
  destruct (cp_delta _ _ _ _ Hcp _ _ Hd) as (Hrev & Hnd & Htable).
  set (l := if Panel.Full d then _ else _). assert (Hl : userMap l = table).
  { unfold l. destruct (Panel.Full d); [done|].
    specialize (Htable ∅ (cp_zero _ _ _ _ Hcp)). rewrite <- Htable, removeUsers_empty, insertUsers_union.
    by rewrite (right_id_L ∅ (∪)). }
  intros [= <- <-]. split; [done|]. intros st. cbn. case_bool_decide; [apply Hsnap1|].
  eapply save_snapshot; [|exact Hl|exact Hsnap1]. rewrite Hrev. apply (cp_cur _ _ _ _ Hcp).
Qed.

End sync.

(** ** Examples at which the hypotheses hold *)

Module Examples.
#[local] Existing Instance CoreProps.Examples.exampleConf.
#[local] Existing Instance CoreProps.Examples.exampleXray.
#[local] Existing Instance CoreProps.Examples.exampleLaws.
#[local] Existing Instance LimiterProps.exampleRateLimit.
#[local] Instance exampleOrder : RangeOrder string := canonical_order string.
#[local] Instance exampleOrderNat : RangeOrder nat := canonical_order nat.
#[local] Instance exampleSha : EdgeSidecar.Sha1 := {| EdgeSidecar.sha1Sum _ := [] |}.

Definition user (id : Z) (uuid : string) (speed : Z) : Panel.UserInfo := Panel.mkUserInfo id uuid speed 0.

Lemma compareUserList_exact_witness :
  let '(deleted, added, updated) :=
    compareUserList [user 1 "a" 0; user 2 "b" 0] [user 2 "b" 5; user 3 "c" 0] in
  added = filter (λ u, Panel.Uuid u ∉ uuids [user 1 "a" 0; user 2 "b" 0]) [user 2 "b" 5; user 3 "c" 0]
  ∧ updated = filter (isChanged (userMap [user 1 "a" 0; user 2 "b" 0])) [user 2 "b" 5; user 3 "c" 0]
  ∧ NoDup (uuids deleted)
  ∧ ∀ u, u ∈ deleted ↔ userMap [user 1 "a" 0; user 2 "b" 0] !! Panel.Uuid u = Some u
                       ∧ Panel.Uuid u ∉ uuids [user 2 "b" 5; user 3 "c" 0].
Proof.
  apply (compareUserList_exact [user 1 "a" 0; user 2 "b" 0] [user 2 "b" 5; user 3 "c" 0]).
  apply (bool_decide_unpack _). vm_compute. reflexivity.
Defined.

Example compareUserList_run :
  compareUserList [user 1 "a" 0; user 2 "b" 0] [user 2 "b" 5; user 3 "c" 0]
  = ([user 1 "a" 0], [user 3 "c" 0], [user 2 "b" 5]).
Proof. vm_compute. reflexivity. Qed.

Lemma applyUserDelta_correct_witness :
  let '(next, diff) := applyUserDelta [user 2 "b" 0; user 1 "a" 0] [user 2 "b" 0] [user 3 "c" 0; user 1 "a" 7] in
  StronglySorted uuidLt next
  ∧ userMap next = insertUsers (removeUsers (userMap [user 2 "b" 0; user 1 "a" 0]) [user 2 "b" 0])
                     [user 3 "c" 0; user 1 "a" 7]
  ∧ applyDiff (userMap [user 2 "b" 0; user 1 "a" 0]) diff = userMap next
  ∧ (applyUserDelta [user 2 "b" 0; user 1 "a" 0] [user 2 "b" 0] [user 3 "c" 0; user 1 "a" 7]).1 = next.
Proof.
  apply (applyUserDelta_correct exampleOrder exampleOrder [user 2 "b" 0; user 1 "a" 0] [user 2 "b" 0]
           [user 3 "c" 0; user 1 "a" 7]).
  apply (bool_decide_unpack _). vm_compute. reflexivity.
Defined.

Definition emptyAlive : Panel.AliveMap := Panel.mkAliveMap ∅ ∅ 0.

(** A panel without deltas that lists one user. *)
Definition examplePanel : ControlPlane :=
  mkControlPlane (Ok None) (Ok [user 1 "u" 0])
    (λ _, Err (mkError "user_delta not supported" (Some SentinelUserDeltaNotSupported)))
    (Ok None) ∅ emptyAlive.

Definition exampleController (v : Core.V2Core) (supported : bool) : Controller :=
  mkController "t" (Some (CoreProps.Examples.exampleNode "vless"))
    (Limiter.newLimiter "vless" "t" [] None) v [] 0 supported "" ∅ None None (mkDisk ∅ 0 true).

Definition startCore : Core.V2Core := CoreProps.Examples.exampleCore.

Definition exampleSync :=
  executeNodeUserSync examplePanel 0 (λ _, []) Core.background false (exampleController startCore true).

Lemma examplePanel_sane c : saneAnswers examplePanel c.
Proof. split; [|done]. intros l [= <-]. apply NoDup_singleton. Qed.


Lemma sync_failure_sticks_witness :
  let c := exampleController Core.New false in
  let run c := executeNodeUserSync examplePanel 0 (λ _, []) Core.background false c in
  match run c with
  | Some (c', Err _) => ∃ c'', run c' = Some (c'', Ok noChange) ∧ c_server c'' = c_server c'
  | _ => False
  end.
Proof.
  cbv zeta beta.
  assert (Hrun : (match executeNodeUserSync examplePanel 0 (λ _, []) Core.background false
    (exampleController Core.New false) with Some (_, Err _) => true | _ => false end) = true)
    by (vm_compute; reflexivity).
  destruct (executeNodeUserSync examplePanel 0 (λ _, []) Core.background false
    (exampleController Core.New false)) as [[c' [s|e]]|] eqn:E; [discriminate Hrun| |discriminate Hrun].
  apply (sync_failure_sticks examplePanel 0 (λ _, []) Core.background false
    (exampleController Core.New false) c' (Err e) 0 (λ _, []) Core.background false [user 1 "u" 0]).
  - reflexivity.
  - reflexivity.
  - discriminate.
  - apply NoDup_singleton.
  - exact E.
Defined.

(** A panel at revision 2: "b" was deleted and "a" added since revision 1. *)
Definition deltaPanel : ControlPlane :=
  mkControlPlane (Ok None) (Ok [user 1 "a" 0])
    (λ since, Ok (Some (if since =? 1
       then Panel.mkUserDeltaBody false 2 [] [user 2 "b" 0] [user 1 "a" 0]
       else Panel.mkUserDeltaBody true 2 [user 1 "a" 0] [] [])))
    (Ok None) ∅ emptyAlive.

Definition cachedController : Controller :=
  mkController "t" None (Limiter.newLimiter "vless" "t" [] None) Core.New [] 0 true "/state" ∅ None None
    (mkDisk {["/state" := mkStateFile 1 [user 2 "b" 0] 0]} 9 true).

Definition exampleHistory : gmap Z (gmap string Panel.UserInfo) :=
  {[0 := ∅; 1 := userMap [user 2 "b" 0]; 2 := userMap [user 1 "a" 0]]}.

Lemma deltaPanel_consistent : consistentPanel exampleHistory 2 (userMap [user 1 "a" 0]) deltaPanel.
Proof.
  constructor; [reflexivity|reflexivity|by intros l [= <-]|].
  intros since d. cbn. destruct (Z.eqb_spec since 1) as [->|]; intros [= <-]; cbn.
  - split_and!; [done|apply NoDup_singleton|]. intros t [= <-]. reflexivity.
  - split_and!; [done|apply NoDup_nil_2|done].
Qed.

Lemma loadAndSyncUsers_current_witness :
  userMap [user 1 "a" 0] = userMap [user 1 "a" 0]
  ∧ trueSnapshot exampleHistory (loadAndSyncUsers deltaPanel cachedController).1.
Proof.
  apply (loadAndSyncUsers_current exampleHistory 2 (userMap [user 1 "a" 0]) deltaPanel cachedController
           (loadAndSyncUsers deltaPanel cachedController).1 [user 1 "a" 0]).
  - apply deltaPanel_consistent.
  - intros st [= <-]. reflexivity.
  - assert (H2 : (loadAndSyncUsers deltaPanel cachedController).2 = Ok [user 1 "a" 0]) by (vm_compute; reflexivity).
    rewrite <- H2. apply surjective_pairing.
Defined.
End Examples.
End UserSyncProps.
