(* ===== verification/Realtime.v ===== *)
(** * Realtime messages (node/realtime.go, node/machine_realtime.go, node/task.go)

    A websocket tells the nodes when something changed at the panel. What is
    modelled: which connection a node or a machine opens
    ([resolveRealtimeOptions], [resolveMachineRealtimeOptions]), what a received
    message leads to, the bounded queues between the goroutines, and the two
    workers that act on the messages and answer with receipts. The websocket
    itself is left out; parsing and printing URLs (net/url) is an interface. *)

From Stdlib Require Import Ascii.
From S2P Require Import Prelude GoStrings Panel Conf UserSync.

Module Realtime.
Import GoStrings.

(** ** Data *)

Record realtimeMessage := mkMessage {
  Type_ : string;
  Message : string;
  EventID : string;
  Topic : string;
  Reason : string;
  Status : string;
  Revision : Z;
  ServerID : Z;
  Ts : Z;
  rm_Token : string;
  rm_NodeID : string;
  rm_MachineID : Z;
  rm_NodeType : string
}.

Record RealtimeOptions := mkOptions {
  URL : string;
  Token : string;
  NodeID : Z;
  MachineID : Z;
  NodeType : string;
  PingInterval : Z;
  ReconnectDelay : Z;
  LogTag : string
}.

Definition second : Z := 1000000000.

(** The parts of a [url.URL] that are read or set. *)
Class NetURL := {
  ParsedURL : Type;
  Parse : string → option ParsedURL;
  Scheme : ParsedURL → string;
  Host : ParsedURL → string;
  (** [String] after setting [Scheme] and [Path] and clearing the query and the fragment *)
  StringWith : ParsedURL → string → string → string
}.

(** ** Options *)

Definition realtimeIntervalToDuration (value : Panel.AnyValue) : option Z :=
  match value with
  | Panel.AnyNil => Some 0
  | Panel.AnyInt z => Some (Panel.seconds z)
  | Panel.AnyString s => Some (Panel.seconds (AtoiValue s))
  | Panel.AnyFloat m e => Some (Panel.seconds (Panel.floatToInt m e))
  | Panel.AnyBool _ | Panel.AnyJson _ => None
  end.

Section options.
Context `{NetURL}.

Definition deriveRealtimeURL (apiHost : string) : string :=
  match Parse (TrimSpace apiHost) with
  | None => ""
  | Some parsed =>
      if bool_decide (Host parsed = "") then ""
      else
        let scheme :=
          if bool_decide (Scheme parsed = "http") then "ws"
          else if bool_decide (Scheme parsed = "https") then "wss"
          else if bool_decide (Scheme parsed = "ws" ∨ Scheme parsed = "wss") then Scheme parsed
          else "ws" in
        StringWith parsed scheme "/ws/node"
  end.

(** What the panel says about the connection: enabled, address, interval. *)
Definition panelRealtime (info : option Panel.NodeInfo) : option (bool * string * Z) :=
  match
    n ← info; c ← Panel.Common n; b ← Panel.Base_Config c; Panel.Realtime b
  with
  | None => Some (false, "", 0)
  | Some r =>
      match realtimeIntervalToDuration (Panel.rb_PingInterval r) with
      | None => None
      | Some ping => Some (Panel.rb_Enabled r, TrimSpace (Panel.rb_URL r), ping)
      end
  end.

(** [resolveRealtimeOptions]: the outer [None] is a panic, the inner one no
    connection. *)
Definition resolveRealtimeOptions (info : option Panel.NodeInfo) (realtimeConfig : Conf.RealtimeConfig)
    (conf : Conf.NodeConfig) (tag : string) : option (option RealtimeOptions) :=
  match panelRealtime info with
  | None => None
  | Some (panelEnabled, panelURL, panelPing) =>
      let localURL := TrimSpace (Conf.rc_URL realtimeConfig) in
      let enabled := Conf.rc_Enabled realtimeConfig || negb (bool_decide (localURL = "")) || panelEnabled in
      if negb enabled then Some None
      else
        let url := if bool_decide (localURL = "") then panelURL else localURL in
        let url := if bool_decide (url = "") then deriveRealtimeURL (Conf.APIHost conf) else url in
        if bool_decide (url = "") then Some None
        else
          let ping := if 0 <? Conf.PingInterval realtimeConfig
                      then Panel.seconds (Conf.PingInterval realtimeConfig) else panelPing in
          let ping := if ping <=? 0 then 30 * second else ping in
          let delay := if 0 <? Conf.ReconnectInterval realtimeConfig
                       then Panel.seconds (Conf.ReconnectInterval realtimeConfig) else 5 * second in
          Some (Some (mkOptions url (Conf.Key conf) (Conf.NodeID conf) (Conf.MachineID conf) "v2node"
                        ping delay tag))
  end.

Definition resolveMachineRealtimeOptions (profile : Conf.MachineProfileConfig)
    (fallback : Conf.RealtimeConfig) : option RealtimeOptions :=
  if (Conf.mp_MachineID profile <=? 0) || bool_decide (TrimSpace (Conf.mp_Key profile) = "") then None
  else
    let profileRealtime := Conf.mp_Realtime profile in
    let fallbackURL := TrimSpace (Conf.rc_URL fallback) in
    let profileURL := TrimSpace (Conf.rc_URL profileRealtime) in
    let url := if bool_decide (fallbackURL = "") then profileURL else fallbackURL in
    let url := if bool_decide (url = "") then deriveRealtimeURL (Conf.mp_APIHost profile) else url in
    let enabled := Conf.rc_Enabled fallback || negb (bool_decide (fallbackURL = ""))
                   || Conf.rc_Enabled profileRealtime || negb (bool_decide (profileURL = "")) in
    if negb enabled || bool_decide (url = "") then None
    else
      let ping := if Conf.PingInterval fallback <=? 0 then Conf.PingInterval profileRealtime
                  else Conf.PingInterval fallback in
      let ping := if ping <=? 0 then 30 else ping in
      let delay := if Conf.ReconnectInterval fallback <=? 0 then 5 else Conf.ReconnectInterval fallback in
      Some (mkOptions url (TrimSpace (Conf.mp_Key profile)) 0 (Conf.mp_MachineID profile) "v2node"
              (Panel.seconds ping) (Panel.seconds delay)
              ("[" +:+ TrimRight Conf.is_slash (TrimSpace (Conf.mp_APIHost profile)) +:+ "]-machine:"
               +:+ Itoa (Conf.mp_MachineID profile))).

End options.

(** ** Queues

    A channel with its capacity. Sending in a [select] with a [default] drops
    the value when the channel is full, or nil. *)
Record Chan (A : Type) := mkChan { cap : nat; queued : list A }.
Arguments mkChan {A}.
Arguments cap {A}.
Arguments queued {A}.

Definition trySend {A} (x : A) (c : Chan A) : Chan A :=
  if (length (queued c) <? cap c)%nat then mkChan (cap c) (queued c ++ [x]) else c.

(** [RealtimeClient.Send] *)
Definition Send (message : realtimeMessage) (sendCh : Chan realtimeMessage) : Chan realtimeMessage :=
  trySend message sendCh.

(** The two queues of a controller, and what the callback of its client does. *)
Record Queues := mkQueues { configCh : Chan realtimeMessage; userCh : Chan realtimeMessage }.

Definition startQueues : Queues := mkQueues (mkChan 32 []) (mkChan 32 []).

Definition enqueueRealtimeConfigCheck (message : realtimeMessage) (q : Queues) : Queues :=
  mkQueues (trySend message (configCh q)) (userCh q).

Definition enqueueRealtimeUserSync (message : realtimeMessage) (q : Queues) : Queues :=
  mkQueues (configCh q) (trySend message (userCh q)).

Definition onControllerMessage (message : realtimeMessage) (q : Queues) : Queues :=
  if bool_decide (Topic message = "config") then enqueueRealtimeConfigCheck message q
  else if bool_decide (Topic message = "users") then enqueueRealtimeUserSync message q
  else q.

(** What the read loop of [connectAndServe] does with a message. *)
Inductive Reaction := Ignore | Pong | Invalidate.

Definition react (message : realtimeMessage) : Reaction :=
  if bool_decide (Type_ message = "ping") then Pong
  else if bool_decide (Type_ message = "invalidate") then Invalidate
  else Ignore.

(** ** Receipts *)

Definition truncateRealtimeReceiptMessage (message : string) : string :=
  let message := TrimSpace message in
  if (String.length message <=? 240)%nat then message
  else of_bytes (take 237 (bytes message)) +:+ "...".

Definition formatRealtimeUserSummary (s : UserSync.userSyncSummary) : string :=
  "deleted=" +:+ Itoa (UserSync.sm_Deleted s) +:+ " added=" +:+ Itoa (UserSync.sm_Added s)
  +:+ " updated=" +:+ Itoa (UserSync.sm_Updated s).

(** The message of [sendRealtimeReceipt]. *)
Definition realtimeReceipt (now : Z) (topic : string) (source : realtimeMessage) (status message : string)
    : realtimeMessage :=
  mkMessage "receipt" (truncateRealtimeReceiptMessage message) (EventID source) topic (Reason source) status
    0 0 now "" "" 0 "".

Definition machineRealtimeReceipt (now : Z) (source : realtimeMessage) (status message : string)
    : realtimeMessage :=
  mkMessage "receipt" (truncateRealtimeReceiptMessage message) (EventID source) "config" (Reason source) status
    0 0 now "" "" 0 "".

(** [sendRealtimeReceipt]; the queue of the client, if there is one. *)
Definition sendRealtimeReceipt (now : Z) (topic : string) (source : realtimeMessage)
    (status message : string) (sendCh : option (Chan realtimeMessage)) : option (Chan realtimeMessage) :=
  Send (realtimeReceipt now topic source status message) <$> sendCh.

(** ** The workers *)

(** The channel that asks the main loop to reload; [None] is nil. *)
Definition ReloadCh : Type := option (Chan unit).

Definition executeNodeConfigCheck (newN : result (option Panel.NodeInfo)) (reloadCh : ReloadCh)
    : ReloadCh * result bool :=
  match newN with
  | Err e => (reloadCh, Err e)
  | Ok None => (reloadCh, Ok false)
  | Ok (Some _) =>
      match reloadCh with
      | Some ch => (Some (trySend () ch), Ok true)
      | None => (None, Err (errorf "reload channel is nil"))
      end
  end.

Definition shouldForceRealtimeConfigReload (message : realtimeMessage) : bool :=
  bool_decide (Reason message = "subscription_proxy.cert_state_changed" ∨ Reason message = "admin.server_machine.bound").

Definition enqueueRealtimeReload (reloadCh : ReloadCh) : ReloadCh * option GoError :=
  match reloadCh with
  | Some ch => (Some (trySend () ch), None)
  | None => (None, Some (errorf "reload channel is nil"))
  end.

(** One iteration of [runRealtimeConfigWorker]; [clock] gives the times of its
    receipts. *)
Definition configWorker (clock : nat → Z) (newN : result (option Panel.NodeInfo)) (message : realtimeMessage)
    (reloadCh : ReloadCh) (sendCh : option (Chan realtimeMessage)) : ReloadCh * option (Chan realtimeMessage) :=
  let send k := sendRealtimeReceipt (clock k) "config" message in
  let sendCh := send 1%nat "applying" "" (send 0%nat "received" "" sendCh) in
  let send := send 2%nat in
  if shouldForceRealtimeConfigReload message then
    match enqueueRealtimeReload reloadCh with
    | (reloadCh, Some e) => (reloadCh, send "failed" (err_msg e) sendCh)
    | (reloadCh, None) => (reloadCh, send "applied" "reload queued" sendCh)
    end
  else
    match executeNodeConfigCheck newN reloadCh with
    | (reloadCh, Err e) => (reloadCh, send "failed" (err_msg e) sendCh)
    | (reloadCh, Ok changed) =>
        (reloadCh, send "applied" (if changed then "reload queued" else "no change") sendCh)
    end.

(** One iteration of [runRealtimeUserWorker]. *)
Definition userWorker (clock : nat → Z) (sync : result UserSync.userSyncSummary) (message : realtimeMessage)
    (sendCh : option (Chan realtimeMessage)) : option (Chan realtimeMessage) :=
  let send k := sendRealtimeReceipt (clock k) "users" message in
  let sendCh := send 1%nat "applying" "" (send 0%nat "received" "" sendCh) in
  match sync with
  | Err e => send 2%nat "failed" (err_msg e) sendCh
  | Ok summary => send 2%nat "applied" (formatRealtimeUserSummary summary) sendCh
  end.

(** The callback of a client of [MachineRealtimeManager]. *)
Definition onMachineMessage (clock : nat → Z) (message : realtimeMessage) (reloadCh : ReloadCh)
    (sendCh : Chan realtimeMessage) : ReloadCh * Chan realtimeMessage :=
  if bool_decide (Topic message = "config") then
    let sendCh := Send (machineRealtimeReceipt (clock 1%nat) message "applying" "")
                    (Send (machineRealtimeReceipt (clock 0%nat) message "received" "") sendCh) in
    ((trySend ()) <$> reloadCh, Send (machineRealtimeReceipt (clock 2%nat) message "applied" "reload queued") sendCh)
  else (reloadCh, sendCh).

(** ** A connection

    The goroutines of a connected controller: the read loop of
    [connectAndServe], the two workers, and the goroutine that writes what was
    queued. [wire] is what went out. *)
Record Session := mkSession {
  queues : Queues;
  outbox : Chan realtimeMessage;
  reloads : ReloadCh;
  wire : list realtimeMessage
}.

Definition pong (now : Z) : realtimeMessage := mkMessage "pong" "" "" "" "" "" 0 0 now "" "" 0 "".

Inductive sessionEvent :=
| Receive (now : Z) (message : realtimeMessage)
| ConfigWork (clock : nat → Z) (newN : result (option Panel.NodeInfo))
| UserWork (clock : nat → Z) (sync : result UserSync.userSyncSummary)
| WriteOut.

Definition dequeue {A} (c : Chan A) : option (A * Chan A) :=
  match queued c with
  | [] => None
  | x :: rest => Some (x, mkChan (cap c) rest)
  end.

Lemma dequeue_Some {A} (c : Chan A) x c' : dequeue c = Some (x, c') → queued c = x :: queued c'.
Proof. unfold dequeue. destruct (queued c); [done|]. by intros [= <- <-]. Qed.

Definition sessionStep (e : sessionEvent) (s : Session) : Session :=
  match e with
  | Receive now message =>
      match react message with
      | Ignore => s
      | Pong => mkSession (queues s) (outbox s) (reloads s) (wire s ++ [pong now])
      | Invalidate => mkSession (onControllerMessage message (queues s)) (outbox s) (reloads s) (wire s)
      end
  | ConfigWork clock newN =>
      match dequeue (configCh (queues s)) with
      | None => s
      | Some (message, ch) =>
          let '(reloadCh, sendCh) := configWorker clock newN message (reloads s) (Some (outbox s)) in
          mkSession (mkQueues ch (userCh (queues s))) (default (outbox s) sendCh) reloadCh (wire s)
      end
  | UserWork clock sync =>
      match dequeue (userCh (queues s)) with
      | None => s
      | Some (message, ch) =>
          mkSession (mkQueues (configCh (queues s)) ch)
            (default (outbox s) (userWorker clock sync message (Some (outbox s)))) (reloads s) (wire s)
      end
  | WriteOut =>
      match dequeue (outbox s) with
      | None => s
      | Some (message, ch) => mkSession (queues s) ch (reloads s) (wire s ++ [message])
      end
  end.

Definition runSession (es : list sessionEvent) (s : Session) : Session :=
  foldl (λ s e, sessionStep e s) s es.

(** A controller whose connection was just opened. *)
Definition startSession (reloadCh : ReloadCh) : Session := mkSession startQueues (mkChan 64 []) reloadCh [].

End Realtime.
