(* ===== verification/Certs.v ===== *)
(** * Certificates of a node (node/cert.go, common/file)

    Before a node with TLS starts, [requestCert] makes sure that its certificate
    files are there: files the operator provides, a self-signed certificate, or
    one from an ACME authority through node/lego.go. The file system, the
    cryptography and the ACME client are an interface; files are known by
    whether they exist. Lego.v implements it. *)

From S2P Require Import Prelude GoStrings FilePath Action Panel Conf.

Module Certs.
Import GoStrings FilePath Action.

Class CertEnv := {
  FS : Type;
  (** [os.Stat]: [None] is success, [Some notExist] an error *)
  Stat : FS → string → option bool;
  MkdirAll : string → FS → FS * option GoError;
  GenerateKey : option GoError;
  CreateCertificate : string → result string;
  (** [os.OpenFile] and [pem.Encode] of a block of a type *)
  writePEM : string → string → string → FS → FS * option GoError;
  keyPEM : string;
  (** of node/lego.go; [None] is a panic *)
  Lego : Type;
  NewLego : Panel.CertInfo → action FS Lego;
  CreateCert : Lego → action FS unit
}.

Section certs.
Context `{CertEnv}.
Implicit Types fs : FS.

Definition IsExist fs (path : string) : bool :=
  match Stat fs path with
  | None => true
  | Some notExist => negb notExist
  end.

Definition generateSelfSslCertificate (domain certPath keyPath : string) fs : FS * option GoError :=
  let domain := if bool_decide (domain = "") then "localhost" else domain in
  match GenerateKey with
  | Some e => (fs, Some e)
  | None =>
      match MkdirAll (Dir certPath) fs with
      | (fs, Some e) => (fs, Some e)
      | (fs, None) =>
          match MkdirAll (Dir keyPath) fs with
          | (fs, Some e) => (fs, Some e)
          | (fs, None) =>
              match CreateCertificate domain with
              | Err e => (fs, Some e)
              | Ok cert =>
                  match writePEM certPath "CERTIFICATE" cert fs with
                  | (fs, Some e) => (fs, Some e)
                  | (fs, None) => writePEM keyPath "RSA PRIVATE KEY" keyPEM fs
                  end
              end
          end
      end
  end.

(** The files a panel's default paths lead to. *)
Definition defaultCertFile (conf : option Conf.NodeConfig) (info : Panel.NodeInfo) (ext : string) : string :=
  let baseDir := match conf with
                 | Some c => Conf.NormalizeConfigDir (Conf.ConfigDir c)
                 | None => "/etc/v2node"
                 end in
  Join2 baseDir (Panel.Type_ info +:+ Itoa (Panel.NodeInfo_Id info) +:+ ext).

Definition noPath : GoError := errorf "cert file path or key file path not exist".

Definition selfSigned (cert : Panel.CertInfo) fs : FS * option GoError :=
  match generateSelfSslCertificate (Panel.CertDomain cert) (Panel.CertFile cert) (Panel.KeyFile cert) fs with
  | (fs, Some e) => (fs, Some (errorf ("generate self cert error: " +:+ err_msg e)))
  | (fs, None) => (fs, None)
  end.

Definition legoCert (cert : Panel.CertInfo) : action FS unit :=
  l ← mapErr (λ e, errorf ("create lego object error: " +:+ err_msg e)) (NewLego cert);
  mapErr (λ e, errorf ("create lego cert error: " +:+ err_msg e)) (CreateCert l).

Definition errorOf (r : option (FS * result unit)) : option (FS * option GoError) :=
  match r with
  | None => None
  | Some (fs, Ok _) => Some (fs, None)
  | Some (fs, Err e) => Some (fs, Some e)
  end.

(** [requestCert]; [None] is the nil dereference of a node without settings or
    certificate information. *)
Definition requestCert (conf : option Conf.NodeConfig) (info : Panel.NodeInfo) fs
    : option (FS * option GoError) :=
  match common ← Panel.Common info; Panel.Cert_Info common with
  | None => None
  | Some cert =>
      let mode := Panel.CertMode cert in
      let unnamed := bool_decide (Panel.CertFile cert = "") || bool_decide (Panel.KeyFile cert = "") in
      let present := IsExist fs (Panel.CertFile cert) && IsExist fs (Panel.KeyFile cert) in
      if bool_decide (mode = "none" ∨ mode = "") then Some (fs, None)
      else if bool_decide (mode = "file") then
        Some (if unnamed then (fs, Some noPath)
              else if present then (fs, None)
              else if bool_decide (Panel.CertFile cert = defaultCertFile conf info ".cer"
                                   ∧ Panel.KeyFile cert = defaultCertFile conf info ".key")
              then selfSigned cert fs
              else (fs, Some (errorf ("cert file or key file not exist: cert=" +:+ Panel.CertFile cert
                                      +:+ " key=" +:+ Panel.KeyFile cert))))
      else if bool_decide (mode = "dns" ∨ mode = "http") then
        if unnamed then Some (fs, Some noPath)
        else if present then Some (fs, None)
        else errorOf (legoCert cert fs)
      else if bool_decide (mode = "self") then
        Some (if unnamed then (fs, Some noPath)
              else if present then (fs, None)
              else selfSigned cert fs)
      else Some (fs, Some (errorf ("unsupported certmode: " +:+ mode)))
  end.

(** Only the client of the authority panics. *)
Lemma requestCert_panic conf info cm cert fs :
  Panel.Common info = Some cm → Panel.Cert_Info cm = Some cert →
  requestCert conf info fs = None → legoCert cert fs = None.
Proof.
  intros Hc Hi. unfold requestCert. rewrite Hc. cbn. rewrite Hi. repeat (case_bool_decide || destruct (_ || _) || destruct (_ && _)); try done.
  all: unfold errorOf; destruct (legoCert cert fs) as [[? []]|]; done.
Qed.
End certs.
End Certs.
