(* ===== verification/EdgeTraffic.v ===== *)
(** * Traffic counted by the edge agent (node/edge_traffic.go)

    Users of sidecar nodes are counted by the keli-edge agent, which hands its
    counters over when they are drained. The controller sorts the drained
    records into those of this node's users, merged per user id into the
    report, and those to give back to the agent. Counters are unsigned 64-bit
    and additions saturate. *)

From Stdlib Require Import Ascii.
From S2P Require Import Prelude GoStrings Panel.

Module EdgeTraffic.
Import GoStrings.

Record EdgeTrafficRecord := mkEdgeRecord {
  er_User : string;
  UploadBytes : Z;
  DownloadBytes : Z
}.

#[global] Instance EdgeTrafficRecord_eq_dec : EqDecision EdgeTrafficRecord.
Proof. solve_decision. Defined.

Record drainedEdgeTraffic := mkDrained {
  report : list Panel.UserTraffic;
  reportRecords : list EdgeTrafficRecord;
  restoreRecords : list EdgeTrafficRecord
}.

Record edgeTrafficAccumulator := mkAccumulator { upload : Z; download : Z }.

(** ** Saturating arithmetic *)

Definition saturatingAddUint64 (left right : Z) : Z :=
  if max_uint64 - left <? right then max_uint64 else wrapu64 (left + right).

Definition maxInt64 : Z := max_int64.

Definition uint64ToInt64Saturated (value : Z) : Z :=
  if maxInt64 <? value then maxInt64 else value.

Definition saturatingAddInt64 (left right : Z) : Z :=
  if (0 <? right) && (maxInt64 - right <? left) then maxInt64 else wrap64 (left + right).

(** [uint64(mintraffic) * 1000] for a positive [mintraffic]. *)
Definition trafficMinBytes (mintraffic : Z) : Z :=
  if mintraffic <=? 0 then 0 else wrapu64 (wrapu64 mintraffic * 1000).

Definition edgeTrafficBelowMin (record : EdgeTrafficRecord) (minBytes : Z) : bool :=
  if minBytes =? 0 then false
  else saturatingAddUint64 (UploadBytes record) (DownloadBytes record) <=? minBytes.

(** ** Draining *)

(** The uuid of a record's user, if the record is this node's. *)
Definition edgeTrafficUUID (tag user : string) : option string :=
  let user := TrimSpace user in
  if bool_decide (user = "") then None
  else match Cut "|"%char user with
       | None => None
       | Some (t, uuid) =>
           let uuid := TrimSpace uuid in
           if bool_decide (t ≠ tag ∨ uuid = "") then None else Some uuid
       end.

(** [uuidToUID] *)
Definition uuidToUID (userList : list Panel.UserInfo) : gmap string Z :=
  foldl (λ m u, if bool_decide (Panel.Uuid u = "") || (Panel.Id u <=? 0) then m
                else <[Panel.Uuid u := Panel.Id u]> m) ∅ userList.

(** Records without user or bytes are ignored. *)
Definition emptyRecord (r : EdgeTrafficRecord) : bool :=
  bool_decide (er_User r = "") || ((UploadBytes r =? 0) && (DownloadBytes r =? 0)).

(** The user id a record is reported for, if it is to be reported. *)
Definition recordUID (tag : string) (uids : gmap string Z) (minBytes : Z) (r : EdgeTrafficRecord)
    : option Z :=
  match edgeTrafficUUID tag (er_User r) with
  | None => None
  | Some uuid =>
      match uids !! uuid with
      | None => None
      | Some uid => if edgeTrafficBelowMin r minBytes then None else Some uid
      end
  end.

Definition zeroAccumulator : edgeTrafficAccumulator := mkAccumulator 0 0.

Definition drainStep (tag : string) (uids : gmap string Z) (minBytes : Z)
    (s : gmap Z edgeTrafficAccumulator * list EdgeTrafficRecord * list EdgeTrafficRecord)
    (record : EdgeTrafficRecord) :=
  let '(merged, reportRecords, restoreRecords) := s in
  if emptyRecord record then s
  else
    match recordUID tag uids minBytes record with
    | None => (merged, reportRecords, restoreRecords ++ [record])
    | Some uid =>
        let acc := default zeroAccumulator (merged !! uid) in
        let acc := mkAccumulator (saturatingAddUint64 (upload acc) (UploadBytes record))
                     (saturatingAddUint64 (download acc) (DownloadBytes record)) in
        (<[uid := acc]> merged, reportRecords ++ [record], restoreRecords)
    end.

Section drain.
Context {RO : RangeOrder Z}.

Definition drainRecords (tag : string) (userList : list Panel.UserInfo) (mintraffic : Z)
    (records : list EdgeTrafficRecord) : drainedEdgeTraffic :=
  let '(merged, reportRecords, restoreRecords) :=
    foldl (drainStep tag (uuidToUID userList) (trafficMinBytes mintraffic)) (∅, [], []) records in
  mkDrained
    ((λ e, Panel.mkUserTraffic e.1 (uint64ToInt64Saturated (upload e.2))
             (uint64ToInt64Saturated (download e.2))) <$> range_list merged)
    reportRecords restoreRecords.

(** [drainEdgeUserTraffic]; [bridge] is what [DrainTraffic] answers, if the
    controller has a bridge. *)
Definition drainEdgeUserTraffic (bridge : option (result (list EdgeTrafficRecord))) (tag : string)
    (userList : list Panel.UserInfo) (mintraffic : Z) : result (option drainedEdgeTraffic) :=
  match bridge with
  | None => Ok None
  | Some (Err e) => Err e
  | Some (Ok []) => Ok None
  | Some (Ok records) => Ok (Some (drainRecords tag userList mintraffic records))
  end.
End drain.

(** ** Giving back *)

(** [restoreEdgeTraffic]: the records the agent took back. The first error of
    [RecordTraffic] ends the loop. *)
Fixpoint restoreEdgeTraffic (recordTraffic : EdgeTrafficRecord → option GoError)
    (records : list EdgeTrafficRecord) : list EdgeTrafficRecord :=
  match records with
  | [] => []
  | record :: records =>
      if emptyRecord record then restoreEdgeTraffic recordTraffic records
      else match recordTraffic record with
           | Some _ => []
           | None => record :: restoreEdgeTraffic recordTraffic records
           end
  end.

(** ** Merging reports *)

Definition mergeStep (s : list Panel.UserTraffic * gmap Z nat) (traffic : Panel.UserTraffic)
    : list Panel.UserTraffic * gmap Z nat :=
  let '(merged, positions) := s in
  match positions !! Panel.ut_UID traffic with
  | Some idx =>
      match merged !! idx with
      | Some t =>
          (<[idx := Panel.mkUserTraffic (Panel.ut_UID t)
                      (saturatingAddInt64 (Panel.Upload t) (Panel.Upload traffic))
                      (saturatingAddInt64 (Panel.Download t) (Panel.Download traffic))]> merged,
           positions)
      | None => s
      end
  | None => (merged ++ [traffic], <[Panel.ut_UID traffic := length merged]> positions)
  end.

Definition mergeUserTraffic (primary extra : list Panel.UserTraffic) : list Panel.UserTraffic :=
  match extra, primary with
  | [], _ => primary
  | _, [] => extra
  | _, _ =>
      let positions := foldl (λ (m : gmap Z nat) e, <[Panel.ut_UID e.2 := e.1]> m) ∅ (imap pair primary) in
      (foldl mergeStep (primary, positions) extra).1
  end.

End EdgeTraffic.
