(* ===== verification/EdgeTrafficProps.v ===== *)
(** * Properties of the edge traffic

    Draining sorts the records into exactly two classes and reports per user
    id the saturated sum of the records of the first
    ([drainEdgeUserTraffic_exact]); merging two reports adds them per user id
    ([mergeUserTraffic_adds]); giving back stops at the first failure and
    loses exactly what comes after it ([restoreEdgeTraffic_prefix]). *)

From S2P Require Import Prelude GoStrings Panel Traffic TrafficProps EdgeTraffic.

Module EdgeTrafficProps.
Import EdgeTraffic.

(** A record as the agent sends it: two unsigned 64-bit counters. *)
Definition validRecord (r : EdgeTrafficRecord) : Prop := u64 (UploadBytes r) ∧ u64 (DownloadBytes r).

Definition recordBytes (f : Traffic.Field) (r : EdgeTrafficRecord) : Z :=
  match f with Traffic.Up => UploadBytes r | Traffic.Down => DownloadBytes r end.

Definition accBytes (f : Traffic.Field) (a : edgeTrafficAccumulator) : Z :=
  match f with Traffic.Up => upload a | Traffic.Down => download a end.

(** ** Saturation *)

Lemma saturatingAddUint64_min x y :
  0 <= x → u64 y → saturatingAddUint64 (Z.min x max_uint64) y = Z.min (x + y) max_uint64.
Proof.
  unfold u64, saturatingAddUint64, wrapu64, max_uint64. intros Hx Hy.
  destruct (Z.ltb_spec (2 ^ 64 - 1 - Z.min x (2 ^ 64 - 1)) y); [lia|].
  rewrite Z.mod_small; lia.
Qed.

Lemma uint64ToInt64Saturated_min x : 0 <= x →
  uint64ToInt64Saturated (Z.min x max_uint64) = Z.min x max_int64.
Proof.
  unfold uint64ToInt64Saturated, maxInt64, max_uint64, max_int64. intros Hx.
  destruct (Z.ltb_spec (2 ^ 63 - 1) (Z.min x (2 ^ 64 - 1))); lia.
Qed.

Lemma saturatingAddInt64_min x y :
  0 <= x <= max_int64 → 0 <= y <= max_int64 → saturatingAddInt64 x y = Z.min max_int64 (x + y).
Proof.
  unfold saturatingAddInt64, maxInt64, max_int64. intros Hx Hy.
  destruct (Z.ltb_spec 0 y), (Z.ltb_spec (2 ^ 63 - 1 - y) x); cbn [andb]; try lia;
    rewrite wrap64_id; unfold i64; lia.
Qed.

(** ** Draining *)

Section drain.
Context {RO : RangeOrder Z} (tag : string) (uids : gmap string Z) (minBytes : Z).

(** The records that go to the report of a user id. *)
Definition reportedFor (uid : Z) (r : EdgeTrafficRecord) : Prop :=
  emptyRecord r = false ∧ recordUID tag uids minBytes r = Some uid.

#[global] Instance reportedFor_dec uid r : Decision (reportedFor uid r).
Proof. unfold reportedFor. apply _. Defined.

Definition sumBytes (f : Traffic.Field) (uid : Z) (l : list EdgeTrafficRecord) : Z :=
  foldr (λ r acc, recordBytes f r + acc) 0 (filter (reportedFor uid) l).

Lemma recordBytes_u64 f r : validRecord r → u64 (recordBytes f r).
Proof. intros [? ?]. by destruct f. Qed.

Lemma sumBytes_nonneg f uid l : Forall validRecord l → 0 <= sumBytes f uid l.
Proof.
  unfold sumBytes. induction 1 as [|r l Hr Hl IH]; [done|].
  pose proof (recordBytes_u64 f r Hr) as [? ?]. rewrite filter_cons. case_decide; cbn; lia.
Qed.

Lemma sumBytes_snoc f uid l r :
  sumBytes f uid (l ++ [r]) = sumBytes f uid l + (if decide (reportedFor uid r) then recordBytes f r else 0).
Proof.
  unfold sumBytes. rewrite filter_app, foldr_app, filter_cons.
  assert (Hs : ∀ xs z, foldr (λ r acc, recordBytes f r + acc) z xs
               = foldr (λ r acc, recordBytes f r + acc) 0 xs + z).
  { induction xs as [|x xs IH]; intros z; cbn; [lia|]. rewrite IH. lia. }
  rewrite Hs. case_decide; cbn; lia.
Qed.

(** The state of the loop after the records [l]. *)
Lemma drainSteps_spec l :
  Forall validRecord l →
  let '(merged, rep, res) := foldl (drainStep tag uids minBytes) (∅, [], []) l in
  rep = filter (λ r, emptyRecord r = false ∧ recordUID tag uids minBytes r ≠ None) l
  ∧ res = filter (λ r, emptyRecord r = false ∧ recordUID tag uids minBytes r = None) l
  ∧ ∀ uid, match merged !! uid with
           | None => filter (reportedFor uid) l = []
           | Some acc => filter (reportedFor uid) l ≠ []
                         ∧ ∀ f, accBytes f acc = Z.min (sumBytes f uid l) max_uint64
           end.
Proof.
  induction l as [|r l IH] using rev_ind; intros Hl; [done|].
  apply Forall_app in Hl as [Hl Hr]. rewrite Forall_singleton in Hr. specialize (IH Hl).
  rewrite foldl_snoc. destruct (foldl _ _ l) as [[merged rep] res]. destruct IH as (Hrep & Hres & Hm).
  unfold drainStep. rewrite !filter_app. destruct (emptyRecord r) eqn:He.
  { rewrite !(filter_cons_False _ r) by (intros [? _]; congruence). rewrite !app_nil_r.
    split_and!; [done|done|]. intros uid. rewrite filter_app.
    rewrite filter_cons_False by (intros [? _]; congruence). rewrite app_nil_r.
    specialize (Hm uid). destruct (merged !! uid); [|done]. destruct Hm as [? Hf]. split; [done|].
    intros f. rewrite sumBytes_snoc, decide_False by (intros [? _]; congruence). by rewrite Z.add_0_r. }
  destruct (recordUID tag uids minBytes r) as [uid|] eqn:Hu.
  - rewrite (filter_cons_True _ r) by (split; congruence). rewrite (filter_cons_False _ r) by (intros [_ ?]; congruence).
    rewrite app_nil_r, Hrep. split_and!; [done|done|]. intros uid'. rewrite filter_app.
    destruct (decide (uid' = uid)) as [->|Hne].
    + rewrite lookup_insert_eq. rewrite filter_cons_True by (by split). split; [intros Hn; by apply app_nil in Hn as [_ ?]|].
      intros f. rewrite sumBytes_snoc, decide_True by (by split).
      rewrite <- saturatingAddUint64_min by (by apply sumBytes_nonneg || by apply recordBytes_u64).
      assert (Hacc : ∀ f, accBytes f (default zeroAccumulator (merged !! uid)) = Z.min (sumBytes f uid l) max_uint64).
      { specialize (Hm uid). destruct (merged !! uid) as [acc|]; [by destruct Hm|].
        intros f'. unfold sumBytes. rewrite Hm. by destruct f'. }
      destruct f; cbn; [specialize (Hacc Traffic.Up)|specialize (Hacc Traffic.Down)]; cbn in Hacc; by rewrite Hacc.
    + rewrite lookup_insert_ne by done. rewrite filter_cons_False by (intros [_ ?]; congruence). rewrite app_nil_r.
      specialize (Hm uid'). destruct (merged !! uid'); [|done]. destruct Hm as [? Hf]. split; [done|].
      intros f. rewrite sumBytes_snoc, decide_False by (intros [_ ?]; congruence). by rewrite Z.add_0_r.
  - rewrite (filter_cons_False _ r) by (intros [_ ?]; congruence). rewrite (filter_cons_True _ r) by (by split).
    rewrite app_nil_r, Hres. split_and!; [done|done|]. intros uid'. rewrite filter_app.
    rewrite filter_cons_False by (intros [_ ?]; congruence). rewrite app_nil_r.
    specialize (Hm uid'). destruct (merged !! uid'); [|done]. destruct Hm as [? Hf]. split; [done|].
    intros f. rewrite sumBytes_snoc, decide_False by (intros [_ ?]; congruence). by rewrite Z.add_0_r.
Qed.
End drain.

(** What is drained is partitioned. *)
Lemma drainRecords_perm (RO : RangeOrder Z) tag userList mintraffic records :
  Forall validRecord records →
  let d := drainRecords tag userList mintraffic records in
  reportRecords d ++ restoreRecords d ≡ₚ filter (λ r, emptyRecord r = false) records.
Proof.
  intros Hv. unfold drainRecords. set (uids := uuidToUID userList). set (minBytes := trafficMinBytes mintraffic).
  pose proof (drainSteps_spec tag uids minBytes records Hv) as Hspec.
  destruct (foldl _ _ records) as [[merged rep] res]. destruct Hspec as (-> & -> & _). cbn.
  clear -uids. induction records as [|r l IH]; [done|]. rewrite !filter_cons.
  destruct (emptyRecord r) eqn:He, (recordUID tag uids minBytes r) eqn:Hu;
    repeat case_decide; try naive_solver; cbn; rewrite <- ?Permutation_middle; by rewrite IH.
Qed.

(** Draining. Of the drained records that name a user and have bytes, those
    of a known user of this node that are above the threshold go to the
    report, all others are kept to be given back; none is lost or counted
    twice. The report has one entry for each user id with records, and the
    entry is the sum of these records, or the largest [int64] if the sum does
    not fit. *)
Theorem drainEdgeUserTraffic_exact (RO : RangeOrder Z) tag userList mintraffic records d :
  Forall validRecord records →
  drainEdgeUserTraffic (Some (Ok records)) tag userList mintraffic = Ok (Some d) →
  let uids := uuidToUID userList in
  let minBytes := trafficMinBytes mintraffic in
  reportRecords d ++ restoreRecords d ≡ₚ filter (λ r, emptyRecord r = false) records
  ∧ (∀ r, r ∈ reportRecords d ↔ r ∈ records ∧ ∃ uid, reportedFor tag uids minBytes uid r)
  ∧ NoDup (Panel.ut_UID <$> report d)
  ∧ ∀ t, t ∈ report d ↔
      (∃ r, r ∈ records ∧ reportedFor tag uids minBytes (Panel.ut_UID t) r)
      ∧ ∀ f, TrafficProps.trafficBytes f t
             = Z.min (sumBytes tag uids minBytes f (Panel.ut_UID t) records) max_int64.
Proof.
  intros Hv Hd. cbn. set (uids := uuidToUID userList). set (minBytes := trafficMinBytes mintraffic).
  assert (Hd' : d = drainRecords tag userList mintraffic records).
  { unfold drainEdgeUserTraffic in Hd. destruct records; [done|]. by injection Hd as <-. }
  clear Hd. subst d. pose proof (drainRecords_perm RO tag userList mintraffic records Hv) as Hperm.
  revert Hperm. cbn zeta. unfold drainRecords. fold uids minBytes.
  pose proof (drainSteps_spec tag uids minBytes records Hv) as Hspec.
  destruct (foldl _ _ records) as [[merged rep] res]. destruct Hspec as (-> & -> & Hm). cbn. intros Hperm.
  split_and!.
  - exact Hperm.
  - intros r. rewrite list_elem_of_filter. unfold reportedFor. destruct (recordUID tag uids minBytes r); naive_solver.
  - rewrite <- list_fmap_compose. apply NoDup_range_list.
  - intros t. rewrite list_elem_of_fmap. split.
    + intros ([uid acc] & -> & Hin%elem_of_range_list). cbn. specialize (Hm uid). rewrite Hin in Hm.
      destruct Hm as [Hne Hf]. split.
      * destruct (filter _ records) as [|r l] eqn:E; [done|]. exists r.
        apply and_comm, (list_elem_of_filter (reportedFor tag uids minBytes uid)). rewrite E. left.
      * intros f. rewrite <- uint64ToInt64Saturated_min by by apply sumBytes_nonneg. rewrite <- Hf.
        by destruct f.
    + intros [(r & Hr & Hrep) Hf]. specialize (Hm (Panel.ut_UID t)).
      destruct (merged !! Panel.ut_UID t) as [acc|] eqn:E.
      * exists (Panel.ut_UID t, acc). split; [|by apply elem_of_range_list]. cbn.
        destruct Hm as [_ Hm]. destruct t as [uid up down]. cbn in *.
        pose proof (Hf Traffic.Up) as H1. pose proof (Hf Traffic.Down) as H2. cbn in H1, H2.
        pose proof (Hm Traffic.Up) as H3. pose proof (Hm Traffic.Down) as H4. cbn in H3, H4.
        rewrite H3, H4, !uint64ToInt64Saturated_min by by apply sumBytes_nonneg. by rewrite H1, H2.
      * assert (Hin : r ∈ filter (reportedFor tag uids minBytes (Panel.ut_UID t)) records)
          by by apply list_elem_of_filter.
        rewrite Hm in Hin. by apply elem_of_nil in Hin.
Qed.

(** ** Merging *)

Definition boundedTraffic (t : Panel.UserTraffic) : Prop :=
  ∀ f, 0 <= TrafficProps.trafficBytes f t <= max_int64.

(** The positions of the merge loop are those of its list. *)
Definition wfPositions (merged : list Panel.UserTraffic) (positions : gmap Z nat) : Prop :=
  ∀ uid i, positions !! uid = Some i ↔ ∃ t, merged !! i = Some t ∧ Panel.ut_UID t = uid.

Lemma wfPositions_NoDup merged positions : wfPositions merged positions → NoDup (Panel.ut_UID <$> merged).
Proof.
  intros Hwf. apply NoDup_alt. intros i j uid. rewrite !list_lookup_fmap.
  intros (t & Ht & Hu)%fmap_Some (t' & Ht' & Hu')%fmap_Some.
  assert (positions !! uid = Some i) by (apply Hwf; eauto).
  assert (positions !! uid = Some j) by (apply Hwf; eauto). congruence.
Qed.

Lemma reportedTotal_cons u f t l :
  TrafficProps.reportedTotal u f (t :: l)
  = (if decide (Panel.ut_UID t = u) then TrafficProps.trafficBytes f t else 0) + TrafficProps.reportedTotal u f l.
Proof. done. Qed.

Lemma reportedTotal_absent u f l : u ∉ Panel.ut_UID <$> l → TrafficProps.reportedTotal u f l = 0.
Proof.
  induction l as [|t l IH]; intros Hu; [done|]. cbn in Hu. apply not_elem_of_cons in Hu as [Hne Hu].
  rewrite reportedTotal_cons, decide_False, IH by congruence. done.
Qed.

Lemma reportedTotal_unique u f l t :
  NoDup (Panel.ut_UID <$> l) → t ∈ l → Panel.ut_UID t = u →
  TrafficProps.reportedTotal u f l = TrafficProps.trafficBytes f t.
Proof.
  induction l as [|t' l IH]; intros Hnd Hin Hu; [by apply elem_of_nil in Hin|].
  cbn in Hnd. apply NoDup_cons in Hnd as [Ht' Hnd]. rewrite reportedTotal_cons.
  apply elem_of_cons in Hin as [->|Hin].
  - rewrite decide_True, reportedTotal_absent by (congruence || by rewrite <- Hu). lia.
  - rewrite IH by done. rewrite decide_False; [lia|]. intros Heq. apply Ht'. rewrite Heq, <- Hu.
    apply list_elem_of_fmap. eauto.
Qed.

Lemma reportedTotal_insert u f l i t t' :
  l !! i = Some t → Panel.ut_UID t' = Panel.ut_UID t →
  TrafficProps.reportedTotal u f (<[i := t']> l)
  = TrafficProps.reportedTotal u f l
    + (if decide (Panel.ut_UID t = u) then TrafficProps.trafficBytes f t' - TrafficProps.trafficBytes f t else 0).
Proof.
  revert i. induction l as [|x l IH]; intros [|i] Hi Hu; try done; cbn in Hi.
  - injection Hi as ->. change (<[0%nat := t']> (t :: l)) with (t' :: l).
    rewrite !reportedTotal_cons, Hu. case_decide; lia.
  - change (<[S i := t']> (x :: l)) with (x :: <[i := t']> l).
    rewrite !reportedTotal_cons, (IH i) by done. lia.
Qed.

Lemma reportedTotal_bound u f l :
  NoDup (Panel.ut_UID <$> l) → Forall boundedTraffic l → 0 <= TrafficProps.reportedTotal u f l <= max_int64.
Proof.
  intros Hnd Hb. destruct (decide (u ∈ Panel.ut_UID <$> l)) as [Hin|Hin].
  - apply list_elem_of_fmap in Hin as (t & -> & Ht). rewrite (reportedTotal_unique _ f l t) by done.
    rewrite Forall_forall in Hb. by apply Hb.
  - rewrite reportedTotal_absent by done. unfold max_int64. lia.
Qed.

Lemma mergeStep_spec merged positions t merged' positions' :
  wfPositions merged positions → Forall boundedTraffic merged → boundedTraffic t →
  mergeStep (merged, positions) t = (merged', positions') →
  wfPositions merged' positions' ∧ Forall boundedTraffic merged'
  ∧ ∀ u f, TrafficProps.reportedTotal u f merged'
           = Z.min max_int64 (TrafficProps.reportedTotal u f merged
               + (if decide (Panel.ut_UID t = u) then TrafficProps.trafficBytes f t else 0)).
Proof.
  intros Hwf Hb Ht. pose proof (wfPositions_NoDup _ _ Hwf) as Hnd. unfold mergeStep.
  destruct (positions !! Panel.ut_UID t) as [i|] eqn:Hi.
  - destruct (proj1 (Hwf _ _) Hi) as (o & Ho & Huid). rewrite Ho. intros [= <- <-].
    pose proof (Forall_lookup_1 _ _ _ _ Hb Ho) as Hob.
    set (o' := Panel.mkUserTraffic _ _ _).
    assert (Hf : ∀ f, TrafficProps.trafficBytes f o'
      = Z.min max_int64 (TrafficProps.trafficBytes f o + TrafficProps.trafficBytes f t)).
    { intros f. pose proof (Hob f). pose proof (Ht f). destruct f; cbn in *; by apply saturatingAddInt64_min. }
    split_and!.
    + intros uid j. rewrite (Hwf uid j). destruct (decide (j = i)) as [->|Hne].
      * rewrite list_lookup_insert_eq by by eapply lookup_lt_Some. rewrite Ho.
        split; [intros (x & [= <-] & <-); by exists o'|intros (x & [= <-] & <-); by exists o].
      * by rewrite list_lookup_insert_ne by done.
    + apply Forall_insert; [done|]. intros f. rewrite Hf. pose proof (Hob f). pose proof (Ht f). lia.
    + intros u f. rewrite (reportedTotal_insert u f merged i o o') by done. rewrite <- Huid.
      case_decide as Hu.
      * rewrite (reportedTotal_unique u f merged o) by (done || by eapply list_elem_of_lookup_2).
        rewrite Hf. lia.
      * pose proof (reportedTotal_bound u f merged Hnd Hb). lia.
  - intros [= <- <-].
    assert (Hnew : Panel.ut_UID t ∉ Panel.ut_UID <$> merged).
    { intros (x & Hx & [i Hi']%list_elem_of_lookup)%list_elem_of_fmap.
      assert (positions !! Panel.ut_UID t = Some i) by (apply Hwf; eauto). congruence. }
    split_and!.
    + intros uid i. rewrite lookup_insert_Some, (Hwf uid i). split.
      * intros [[<- <-]|[Hne (x & Hx & Hu)]].
        -- exists t. split; [|done]. by rewrite lookup_app_r, Nat.sub_diag.
        -- exists x. split; [|done]. by apply lookup_app_l_Some.
      * intros (x & Hx & Hu). apply lookup_app_Some in Hx as [Hx|[Hlen Hx]].
        -- right. split; [|eauto]. intros Heq. apply Hnew. rewrite Heq, <- Hu.
           apply list_elem_of_fmap. exists x. split; [done|]. by eapply list_elem_of_lookup_2.
        -- left. apply list_lookup_singleton_Some in Hx as [Hz <-]. split; [done|lia].
    + apply Forall_app. split; [done|]. by apply Forall_singleton.
    + intros u f. rewrite TrafficProps.reportedTotal_app, reportedTotal_cons. cbn.
      pose proof (reportedTotal_bound u f merged Hnd Hb). pose proof (Ht f). case_decide as Hu; [|lia].
      subst u. rewrite reportedTotal_absent by done. lia.
Qed.

Lemma initialPositions_wf l (n : nat) (m : gmap Z nat) :
  NoDup (Panel.ut_UID <$> l) →
  ∀ uid i, foldl (λ (m : gmap Z nat) e, <[Panel.ut_UID e.2 := e.1]> m) m (imap (λ k t, (n + k, t)%nat) l) !! uid = Some i
    ↔ (∃ k t, i = (n + k)%nat ∧ l !! k = Some t ∧ Panel.ut_UID t = uid)
      ∨ ((uid ∉ (Panel.ut_UID <$> l)) ∧ m !! uid = Some i).
Proof.
  revert n m. induction l as [|t l IH]; intros n m Hnd uid i; cbn [imap foldl].
  { split; [intros ?; right; split; [apply not_elem_of_nil|done]|]. intros [(k & t & _ & Hk & _)|[_ ?]]; done. }
  cbn in Hnd. apply NoDup_cons in Hnd as [Ht Hnd].
  rewrite (imap_ext _ (λ k t, (S n + k, t)%nat)) by (intros; cbn; f_equal; lia). rewrite IH by done. cbn.
  rewrite not_elem_of_cons. split.
  - intros [(k & x & -> & Hk & Hu)|[Hn Hm]].
    + left. exists (S k), x. split_and!; [lia|done|done].
    + apply lookup_insert_Some in Hm as [[<- <-]|[Hne Hm]].
      * left. exists 0%nat, t. split_and!; [lia|done|done].
      * right. split; [|done]. split; [congruence|done].
  - intros [(k & x & -> & Hk & Hu)|[[Hne Hn] Hm]].
    + destruct k as [|k]; cbn in Hk.
      * injection Hk as ->. right. subst uid. split; [done|]. rewrite Nat.add_0_r. apply lookup_insert_eq.
      * left. exists k, x. split_and!; [lia|done|done].
    + right. split; [done|]. by rewrite lookup_insert_ne by congruence.
Qed.

Lemma mergeSteps_spec extra merged positions :
  wfPositions merged positions → Forall boundedTraffic merged → Forall boundedTraffic extra →
  let merged' := (foldl mergeStep (merged, positions) extra).1 in
  NoDup (Panel.ut_UID <$> merged') ∧ Forall boundedTraffic merged'
  ∧ ∀ u f, TrafficProps.reportedTotal u f merged'
           = Z.min max_int64 (TrafficProps.reportedTotal u f merged + TrafficProps.reportedTotal u f extra).
Proof.
  revert merged positions. induction extra as [|t extra IH]; intros merged positions Hwf Hb He; cbn [foldl].
  { split_and!; [by eapply wfPositions_NoDup|done|]. intros u f. cbn [foldl fst].
    pose proof (reportedTotal_bound u f merged (wfPositions_NoDup _ _ Hwf) Hb).
    change (TrafficProps.reportedTotal u f []) with 0. lia. }
  apply Forall_cons in He as [Ht He]. destruct (mergeStep (merged, positions) t) as [m' p'] eqn:E.
  destruct (mergeStep_spec _ _ _ _ _ Hwf Hb Ht E) as (Hwf' & Hb' & Hs).
  destruct (IH m' p' Hwf' Hb' He) as (Hnd & Hb'' & Htot). split_and!; [done|done|].
  intros u f. rewrite Htot, Hs, reportedTotal_cons. pose proof (Ht f).
  assert (0 <= TrafficProps.reportedTotal u f extra).
  { clear -He. induction He as [|x l Hx Hl IH]; [done|]. rewrite reportedTotal_cons.
    pose proof (Hx f). case_decide; lia. }
  case_decide; lia.
Qed.

(** *** One user id

    Without any assumption on the other entries: unless an entry of the user
    saturates, merging adds up what the two reports say about the user. *)

Lemma saturatingAddInt64_wrap x y :
  0 <= y → saturatingAddInt64 x y = max_int64 ∨ wrap64 (saturatingAddInt64 x y) = wrap64 (x + y).
Proof.
  intros Hy. unfold saturatingAddInt64. destruct (_ && _); [by left|]. right. apply wrap64_wrap64.
Qed.

Lemma saturatingAddInt64_max y : 0 <= y → saturatingAddInt64 max_int64 y = max_int64.
Proof.
  intros Hy. unfold saturatingAddInt64, maxInt64.
  destruct (Z.ltb_spec 0 y), (Z.ltb_spec (max_int64 - y) max_int64); cbn [andb]; try lia.
  all: by replace y with 0 by lia.
Qed.

Definition validPositions (merged : list Panel.UserTraffic) (positions : gmap Z nat) : Prop :=
  ∀ uid i, positions !! uid = Some i → ∃ t, merged !! i = Some t ∧ Panel.ut_UID t = uid.

Lemma initialPositions_valid l (n : nat) (m : gmap Z nat) uid i :
  foldl (λ (m : gmap Z nat) e, <[Panel.ut_UID e.2 := e.1]> m) m (imap (λ k t, (n + k, t)%nat) l) !! uid = Some i →
  (∃ k t, i = (n + k)%nat ∧ l !! k = Some t ∧ Panel.ut_UID t = uid) ∨ m !! uid = Some i.
Proof.
  revert n m. induction l as [|t l IH]; intros n m; cbn [imap foldl]; [by right|].
  rewrite (imap_ext _ (λ k t, (S n + k, t)%nat)) by (intros; cbn; f_equal; lia).
  intros [(k & x & -> & Hk & Hu)|Hm]%IH.
  - left. exists (S k), x. split_and!; [lia|done|done].
  - cbn in Hm. apply lookup_insert_Some in Hm as [[<- <-]|[_ Hm]]; [|by right].
    left. exists 0%nat, t. split_and!; [lia|done|done].
Qed.

(** The user's entry is the largest [int64]. *)
Definition saturated u f (l : list Panel.UserTraffic) : Prop :=
  ∃ t, t ∈ l ∧ Panel.ut_UID t = u ∧ TrafficProps.trafficBytes f t = max_int64.

Lemma mergeStep_user u f merged positions t merged' positions' :
  validPositions merged positions → 0 <= TrafficProps.trafficBytes f t →
  mergeStep (merged, positions) t = (merged', positions') →
  validPositions merged' positions' ∧ (saturated u f merged → saturated u f merged')
  ∧ (saturated u f merged' ∨
     wrap64 (TrafficProps.reportedTotal u f merged')
     = wrap64 (TrafficProps.reportedTotal u f merged
               + (if decide (Panel.ut_UID t = u) then TrafficProps.trafficBytes f t else 0))).
Proof.
  intros Hv Ht. unfold mergeStep. destruct (positions !! Panel.ut_UID t) as [i|] eqn:Hi.
  - destruct (Hv _ _ Hi) as (o & Ho & Huid). rewrite Ho. intros [= <- <-]. set (o' := Panel.mkUserTraffic _ _ _).
    assert (Hlen : (i < length merged)%nat) by by eapply lookup_lt_Some.
    assert (Hb : TrafficProps.trafficBytes f o'
                 = saturatingAddInt64 (TrafficProps.trafficBytes f o) (TrafficProps.trafficBytes f t)) by by destruct f.
    split_and!.
    + intros uid j Hj. destruct (decide (j = i)) as [->|Hne].
      * rewrite list_lookup_insert_eq by done. exists o'. split; [done|].
        destruct (Hv _ _ Hj) as (x & Hx & <-). cbn. congruence.
      * rewrite list_lookup_insert_ne by done. eauto.
    + intros (x & [j Hj]%list_elem_of_lookup & Hu & Hx). destruct (decide (j = i)) as [->|Hne].
      * exists o'. rewrite Ho in Hj. injection Hj as ->. split_and!; [|done|].
        -- apply (list_elem_of_lookup_2 _ i). by apply list_lookup_insert_eq.
        -- rewrite Hb, Hx. by apply saturatingAddInt64_max.
      * exists x. split_and!; [|done|done]. apply (list_elem_of_lookup_2 _ j). by rewrite list_lookup_insert_ne.
    + rewrite (reportedTotal_insert u f merged i o o') by done. rewrite Huid.
      case_decide as Hu; [|by right]. rewrite Hb.
      destruct (saturatingAddInt64_wrap (TrafficProps.trafficBytes f o) (TrafficProps.trafficBytes f t) Ht) as [Hs|Hs].
      * left. exists o'. split_and!; [|cbn; congruence|congruence].
        apply (list_elem_of_lookup_2 _ i). by apply list_lookup_insert_eq.
      * right. replace (TrafficProps.reportedTotal u f merged + (saturatingAddInt64 _ _ - TrafficProps.trafficBytes f o))
          with (TrafficProps.reportedTotal u f merged - TrafficProps.trafficBytes f o
                + saturatingAddInt64 (TrafficProps.trafficBytes f o) (TrafficProps.trafficBytes f t)) by lia.
        rewrite <- wrap64_add_r, Hs, wrap64_add_r. f_equal. lia.
  - intros [= <- <-]. split_and!.
    + intros uid j Hj. apply lookup_insert_Some in Hj as [[<- <-]|[_ Hj]].
      * exists t. split; [|done]. by rewrite lookup_app_r, Nat.sub_diag.
      * destruct (Hv _ _ Hj) as (x & Hx & Hu). exists x. split; [|done]. by apply lookup_app_l_Some.
    + intros (x & Hx & ?). exists x. split; [|done]. apply elem_of_app. by left.
    + right. rewrite TrafficProps.reportedTotal_app, reportedTotal_cons. f_equal.
      change (TrafficProps.reportedTotal u f []) with 0. lia.
Qed.

Lemma mergeSteps_user u f extra merged positions :
  validPositions merged positions → Forall (λ t, 0 <= TrafficProps.trafficBytes f t) extra →
  let merged' := (foldl mergeStep (merged, positions) extra).1 in
  (saturated u f merged → saturated u f merged')
  ∧ (saturated u f merged' ∨
     wrap64 (TrafficProps.reportedTotal u f merged')
     = wrap64 (TrafficProps.reportedTotal u f merged + TrafficProps.reportedTotal u f extra)).
Proof.
  revert merged positions. induction extra as [|t extra IH]; intros merged positions Hv He; cbn [foldl].
  { split; [done|]. right. cbn [fst]. f_equal. change (TrafficProps.reportedTotal u f []) with 0. lia. }
  apply Forall_cons in He as [Ht He]. destruct (mergeStep (merged, positions) t) as [m' p'] eqn:E.
  destruct (mergeStep_user u f _ _ _ _ _ Hv Ht E) as (Hv' & Hsat & Hstep).
  destruct (IH m' p' Hv' He) as [Hsat' Hrest]. split; [by auto|].
  destruct Hrest as [|Hrest]; [by left|]. destruct Hstep as [Hstep|Hstep]; [left; by auto|].
  right. rewrite Hrest, <- wrap64_add_l, Hstep, wrap64_add_l, reportedTotal_cons. f_equal. lia.
Qed.

Lemma mergeUserTraffic_user u f primary extra :
  Forall (λ t, 0 <= TrafficProps.trafficBytes f t) extra →
  let merged := mergeUserTraffic primary extra in
  saturated u f merged ∨
  wrap64 (TrafficProps.reportedTotal u f merged)
  = wrap64 (TrafficProps.reportedTotal u f primary + TrafficProps.reportedTotal u f extra).
Proof.
  intros He. unfold mergeUserTraffic. destruct extra as [|x extra].
  { right. f_equal. change (TrafficProps.reportedTotal u f []) with 0. lia. }
  destruct primary as [|p primary]; [by right|].
  apply mergeSteps_user; [|done]. intros uid i Hi.
  apply (initialPositions_valid (p :: primary) 0 ∅) in Hi as [(k & t & -> & Hk & Hu)|Hi]; [eauto|].
  by rewrite lookup_empty in Hi.
Qed.

(** Merging the edge traffic into the traffic of the core adds the two
    reports per user id, saturating at the largest [int64]; every user id of
    either report appears once. *)
Theorem mergeUserTraffic_adds primary extra :
  NoDup (Panel.ut_UID <$> primary) → NoDup (Panel.ut_UID <$> extra) →
  Forall boundedTraffic primary → Forall boundedTraffic extra →
  let merged := mergeUserTraffic primary extra in
  NoDup (Panel.ut_UID <$> merged)
  ∧ ∀ u f, TrafficProps.reportedTotal u f merged
           = Z.min max_int64 (TrafficProps.reportedTotal u f primary + TrafficProps.reportedTotal u f extra).
Proof.
  intros Hp Hx Hbp Hbx. unfold mergeUserTraffic.
  destruct extra as [|x extra].
  { split; [done|]. intros u f. change (TrafficProps.reportedTotal u f []) with 0.
    pose proof (reportedTotal_bound u f primary Hp Hbp). lia. }
  destruct primary as [|p primary].
  { split; [done|]. intros u f. change (TrafficProps.reportedTotal u f []) with 0.
    pose proof (reportedTotal_bound u f (x :: extra) Hx Hbx). lia. }
  set (prim := p :: primary) in *. set (pos := foldl _ ∅ (imap pair prim)).
  assert (Hwf : wfPositions prim pos).
  { intros uid i. unfold pos.
    pose proof (initialPositions_wf prim 0 ∅ Hp uid i) as Hi. cbn [Nat.add] in Hi. rewrite Hi. split.
    - intros [(k & t & -> & Hk & Hu)|[_ Hm]]; [eauto|]. by rewrite lookup_empty in Hm.
    - intros (t & Ht & Hu). left. eauto 10. }
  destruct (mergeSteps_spec (x :: extra) prim pos Hwf Hbp Hbx) as (H1 & _ & H2). done.
Qed.

(** Giving records back. The agent takes back the records in order up to the
    first one it refuses; that one and the ones after it are lost. If it
    refuses none, all are given back. *)
Theorem restoreEdgeTraffic_prefix recordTraffic records :
  let kept := filter (λ r, emptyRecord r = false) records in
  ∃ n, restoreEdgeTraffic recordTraffic records = take n kept
    ∧ (∀ r, r ∈ take n kept → recordTraffic r = None)
    ∧ (∀ r, kept !! n = Some r → recordTraffic r ≠ None)
    ∧ ((∀ r, r ∈ kept → recordTraffic r = None) → take n kept = kept).
Proof.
  cbn. induction records as [|r records IH]; cbn [restoreEdgeTraffic].
  { exists 0%nat. split_and!; try done. intros r Hr. by apply elem_of_nil in Hr. }
  rewrite filter_cons. destruct (emptyRecord r) eqn:He; [rewrite decide_False by done; exact IH|].
  rewrite decide_True by done. destruct (recordTraffic r) as [e|] eqn:Hr.
  - exists 0%nat. split_and!; [done| |by intros x [= <-]; rewrite Hr|].
    + intros x Hx. by apply elem_of_nil in Hx.
    + intros Hall. rewrite (Hall r ltac:(left)) in Hr. done.
  - destruct IH as (n & Hn & H1 & H2 & H3). exists (S n). cbn. split_and!.
    + by rewrite Hn.
    + intros x [->|Hx]%elem_of_cons; [done|by apply H1].
    + done.
    + intros Hall. f_equal. apply H3. intros x Hx. apply Hall. by right.
Qed.

(** ** One user through draining and giving back *)

Section user.
Context {RO : RangeOrder Z} (tag : string) (userList : list Panel.UserInfo) (mintraffic : Z).
#[local] Abbreviation bytesOf := (sumBytes tag (uuidToUID userList) (trafficMinBytes mintraffic)).

Lemma sumBytes_app f u l k : bytesOf f u (l ++ k) = bytesOf f u l + bytesOf f u k.
Proof.
  induction k as [|r k IH] using rev_ind; [rewrite app_nil_r; unfold sumBytes; cbn; lia|].
  rewrite app_assoc, !sumBytes_snoc, IH. lia.
Qed.

Lemma drainRecords_user u f records :
  Forall validRecord records → bytesOf f u records <= max_int64 →
  let d := drainRecords tag userList mintraffic records in
  TrafficProps.reportedTotal u f (report d) = bytesOf f u records
  ∧ Forall (λ t, 0 <= TrafficProps.trafficBytes f t) (report d)
  ∧ bytesOf f u (reportRecords d) = bytesOf f u records
  ∧ bytesOf f u (restoreRecords d) = 0
  ∧ Forall (λ r, emptyRecord r = false) (reportRecords d ++ restoreRecords d).
Proof.
  intros Hv Hmax. unfold drainRecords.
  pose proof (drainSteps_spec tag (uuidToUID userList) (trafficMinBytes mintraffic) records Hv) as Hspec.
  destruct (foldl _ _ records) as [[merged rep] res]. destruct Hspec as (-> & -> & Hm).
  cbn [report reportRecords restoreRecords].
  assert (Hentry : ∀ uid acc, merged !! uid = Some acc →
    TrafficProps.trafficBytes f (Panel.mkUserTraffic uid (uint64ToInt64Saturated (upload acc))
                                   (uint64ToInt64Saturated (download acc)))
    = Z.min (bytesOf f uid records) max_int64).
  { intros uid acc Hacc. specialize (Hm uid). rewrite Hacc in Hm. destruct Hm as [_ Hf].
    rewrite <- uint64ToInt64Saturated_min by by apply sumBytes_nonneg. rewrite <- Hf. by destruct f. }
  split_and!.
  - destruct (merged !! u) as [acc|] eqn:E.
    + erewrite reportedTotal_unique; [rewrite Hentry by done; lia| |apply list_elem_of_fmap; exists (u, acc);
        split; [reflexivity|by apply elem_of_range_list]|done].
      rewrite <- list_fmap_compose. apply NoDup_range_list.
    + rewrite reportedTotal_absent.
      * specialize (Hm u). rewrite E in Hm. unfold sumBytes. by rewrite Hm.
      * rewrite <- list_fmap_compose. intros ([uid acc] & -> & Hin%elem_of_range_list)%list_elem_of_fmap.
        cbn in E. congruence.
  - apply Forall_forall. intros t ([uid acc] & -> & Hin%elem_of_range_list)%list_elem_of_fmap. cbn [fst snd].
    rewrite Hentry by done. pose proof (sumBytes_nonneg tag (uuidToUID userList) (trafficMinBytes mintraffic) f uid records Hv).
    unfold max_int64. lia.
  - unfold sumBytes. f_equal. rewrite list_filter_filter. apply list_filter_ext_in.
    intros r _. unfold reportedFor. split; [tauto|]. intros [? Hr]. split_and!; try done. by rewrite Hr.
  - unfold sumBytes. rewrite list_filter_filter. rewrite list_filter_none; [done|].
    intros r _ [[_ Hr] [_ Hr']]. congruence.
  - rewrite Forall_app. split; apply Forall_forall; intros r Hr%list_elem_of_filter; tauto.
Qed.
End user.

(** What the agent does not take back of some records: nothing, or the first one it
    refuses and all that come after. *)
Definition refusedFrom (recordTraffic : EdgeTrafficRecord → option GoError) (l : list EdgeTrafficRecord) : Prop :=
  match l with [] => True | r :: _ => recordTraffic r ≠ None end.

Lemma restoreEdgeTraffic_split recordTraffic records :
  Forall (λ r, emptyRecord r = false) records →
  ∃ lost, records = restoreEdgeTraffic recordTraffic records ++ lost ∧ refusedFrom recordTraffic lost.
Proof.
  induction 1 as [|r l Hr Hl (lost & IH & Hlost)]; cbn; [by exists []|]. rewrite Hr.
  destruct (recordTraffic r) eqn:E; [exists (r :: l); cbn; by rewrite E|]. exists lost. by rewrite <- app_comm_cons, <- IH.
Qed.

(** ** Examples at which the hypotheses hold *)

Module Examples.
#[local] Instance exampleOrder : RangeOrder Z := canonical_order Z.

Definition exampleRecords : list EdgeTrafficRecord :=
  [mkEdgeRecord "t|u" max_uint64 5; mkEdgeRecord "other|u" 7 7; mkEdgeRecord "t|u" 1 1; mkEdgeRecord "" 3 3].

Definition exampleUsers : list Panel.UserInfo := [Panel.mkUserInfo 4 "u" 0 0].

Lemma drainEdgeUserTraffic_exact_witness :
  let d := drainRecords "t" exampleUsers 0 exampleRecords in
  reportRecords d ++ restoreRecords d ≡ₚ filter (λ r, emptyRecord r = false) exampleRecords
  ∧ (∀ r, r ∈ reportRecords d ↔ r ∈ exampleRecords ∧ ∃ uid, reportedFor "t" (uuidToUID exampleUsers) 0 uid r)
  ∧ NoDup (Panel.ut_UID <$> report d)
  ∧ ∀ t, t ∈ report d ↔
      (∃ r, r ∈ exampleRecords ∧ reportedFor "t" (uuidToUID exampleUsers) 0 (Panel.ut_UID t) r)
      ∧ ∀ f, TrafficProps.trafficBytes f t
             = Z.min (sumBytes "t" (uuidToUID exampleUsers) 0 f (Panel.ut_UID t) exampleRecords) max_int64.
Proof.
  apply (drainEdgeUserTraffic_exact exampleOrder "t" exampleUsers 0 exampleRecords).
  - repeat constructor; vm_compute; congruence.
  - reflexivity.
Defined.

Example drain_saturates :
  report (drainRecords "t" exampleUsers 0 exampleRecords) = [Panel.mkUserTraffic 4 max_int64 6].
Proof. vm_compute. reflexivity. Qed.

Lemma mergeUserTraffic_adds_witness :
  let merged := mergeUserTraffic [Panel.mkUserTraffic 1 5 5] [Panel.mkUserTraffic 2 1 1; Panel.mkUserTraffic 1 2 3] in
  NoDup (Panel.ut_UID <$> merged)
  ∧ ∀ u f, TrafficProps.reportedTotal u f merged
           = Z.min max_int64 (TrafficProps.reportedTotal u f [Panel.mkUserTraffic 1 5 5]
               + TrafficProps.reportedTotal u f [Panel.mkUserTraffic 2 1 1; Panel.mkUserTraffic 1 2 3]).
Proof.
  apply (mergeUserTraffic_adds [Panel.mkUserTraffic 1 5 5] [Panel.mkUserTraffic 2 1 1; Panel.mkUserTraffic 1 2 3]).
  - apply (bool_decide_unpack _). reflexivity.
  - apply (bool_decide_unpack _). reflexivity.
  - repeat (apply Forall_cons; split; [intros []; cbn; unfold max_int64; lia|]); by apply Forall_nil.
  - repeat (apply Forall_cons; split; [intros []; cbn; unfold max_int64; lia|]); by apply Forall_nil.
Defined.
End Examples.
End EdgeTrafficProps.
