(* ===== verification/Report.v ===== *)
(** * The report task (node/user.go)

    Every push interval the controller collects the counters of its node and
    what the edge agent counted, and sends both together with the addresses
    its users are online from: with one call if the control plane has the
    unified report, otherwise, or when that call fails, with one call each.
    Traffic the panel did not take goes back where it came from; devices are
    marked as reported only once the panel has them.

    Connections are open all the time. What they count, and what they make the
    limiter admit, while the task waits for a reply, is an input of the model
    ([Meanwhile]). *)

From S2P Require Import Prelude GoStrings Panel Limiter Links Traffic Core EdgeSidecar UserSync EdgeTraffic.

Module Report.

(** The reporting side of a control plane; [ReportSnapshot] is the optional
    interface [ControlPlaneUnifiedReporter]. *)
Record ReportPlane := mkReportPlane {
  ReportSnapshot : option (list Panel.UserTraffic → gmap Z (list string) → option GoError);
  ReportUserTraffic : list Panel.UserTraffic → option GoError;
  ReportNodeOnlineUsers : gmap Z (list string) → option GoError
}.

(** The edge agent; [RecordTraffic] takes a record back. *)
Record EdgeTrafficBridge := mkEdgeTrafficBridge {
  DrainTraffic : result (list EdgeTraffic.EdgeTrafficRecord);
  RecordTraffic : EdgeTraffic.EdgeTrafficRecord → option GoError
}.

(** ** What happens during a call *)

Inductive Phase := Draining | Snapshotting | SendingTraffic | SendingOnline.

Record Meanwhile `{Limiter.RateLimit} := mkMeanwhile {
  counts : Phase → list Traffic.count;
  admissions : Phase → Limiter.Limiter → Limiter.Limiter
}.

Section report.
Context `{XCore : Core.XrayCore} `{RL : Limiter.RateLimit}.
Context {RO : RangeOrder string} {ROz : RangeOrder Z}.
Implicit Types (c : UserSync.Controller) (v : Core.V2Core).

(** A connection of the node [tag] counts bytes. *)
Definition countBytes (tag : string) v (n : Traffic.count) : Core.V2Core :=
  match Core.dispatcher v with
  | None => v
  | Some d =>
      let ctr := default Traffic.NewTrafficCounter (Core.Counter d !! tag) in
      let '(ctr, st) := Traffic.countOn n ctr (Core.storages d) in
      Core.withDispatcher
        (Some (Core.mkDispatcher (<[tag := ctr]> (Core.Counter d)) (Core.LinkManagers d) st (Core.world d))) v
  end.

Definition during (m : Meanwhile) (phase : Phase) c : UserSync.Controller :=
  UserSync.withServer (admissions m phase (UserSync.c_limiter c))
    (foldl (countBytes (UserSync.c_tag c)) (UserSync.c_server c) (counts m phase)) c.

Definition withCore v c : UserSync.Controller := UserSync.withServer (UserSync.c_limiter c) v c.

(** ** The steps of the task *)

(** [reportmin] and [devicemin]; [None] is the nil dereference of a node
    without settings. *)
Definition reportMinima c : option (Z * Z) :=
  match UserSync.c_info c with
  | None => None
  | Some n =>
      match Panel.Common n with
      | None => None
      | Some common =>
          match Panel.Base_Config common with
          | None => Some (0, 0)
          | Some b => Some (Panel.NodeReportMinTraffic b, Panel.DeviceOnlineMinTraffic b)
          end
      end
  end.

(** [onlineAllowedUID]: the users above the traffic threshold for devices.
    The counters are collected and put back at once. *)
Definition onlineAllowedUID (race : Traffic.Arrivals) (devicemin : Z) c
    : UserSync.Controller * option (list Z) :=
  if 0 <? devicemin then
    let '(v, slice) := Core.GetUserTrafficSlice race (UserSync.c_tag c) devicemin (UserSync.c_server c) in
    match slice with
    | None => (withCore v c, Some [])
    | Some (traffic, items) =>
        (withCore (Core.rollbackTraffic items v) c, Some (Panel.ut_UID <$> traffic))
    end
  else (c, None).

(** What the counters of the node hold, and how to undo the collection. *)
Definition collectCore (race : Traffic.Arrivals) (reportmin : Z) c
    : UserSync.Controller * (list Panel.UserTraffic * list Traffic.trafficRollbackItem) :=
  let '(v, slice) := Core.GetUserTrafficSlice race (UserSync.c_tag c) reportmin (UserSync.c_server c) in
  (withCore v c, default ([], []) slice).

Definition giveBack (bridge : option EdgeTrafficBridge) (records : list EdgeTraffic.EdgeTrafficRecord)
    : list EdgeTraffic.EdgeTrafficRecord :=
  match bridge with
  | None => []
  | Some b => EdgeTraffic.restoreEdgeTraffic (RecordTraffic b) records
  end.

(** What the edge agent counted; [None] is nothing, or an error. *)
Definition collectEdge (bridge : option EdgeTrafficBridge) (reportmin : Z) c
    : option EdgeTraffic.drainedEdgeTraffic :=
  match EdgeTraffic.drainEdgeUserTraffic (DrainTraffic <$> bridge) (UserSync.c_tag c)
          (UserSync.userList c) reportmin with
  | Err _ => None
  | Ok d => d
  end.

(** [onlineResult] *)
Definition onlineResult (allowed : option (list Z)) c : list Panel.OnlineUser :=
  let online := Limiter.GetOnlineDevice (UserSync.c_limiter c) in
  match allowed with
  | None => online
  | Some uids => filter (λ o, Panel.ou_UID o ∈ uids) online
  end.

(** [onlineData] *)
Definition onlineData (online : list Panel.OnlineUser) : gmap Z (list string) :=
  foldl (λ (data : gmap Z (list string)) o,
    <[Panel.ou_UID o := default [] (data !! Panel.ou_UID o) ++ [Panel.ou_IP o]]> data) ∅ online.

Definition commitReportedOnlineDevices (now : Z) (online : list Panel.OnlineUser) c
    : UserSync.Controller :=
  match online with
  | [] => c
  | _ => UserSync.withServer (Limiter.CommitOnlineDeviceReport now online (UserSync.c_limiter c))
           (UserSync.c_server c) c
  end.

(** ** The task *)

(** What a run of the task did. *)
Record Outcome := mkOutcome {
  controller : UserSync.Controller;
  calls : list Phase;                             (* in order *)
  acceptedTraffic : list Panel.UserTraffic;       (* taken by the panel *)
  acceptedOnline : list Panel.OnlineUser;
  returned : list EdgeTraffic.EdgeTrafficRecord   (* taken back by the edge agent *)
}.

(** The traffic report on its own; the records of [edge] go back when the
    panel refuses it. *)
Definition sendTraffic (rp : ReportPlane) (bridge : option EdgeTrafficBridge) (m : Meanwhile)
    (items : list Traffic.trafficRollbackItem) (edge : option EdgeTraffic.drainedEdgeTraffic)
    (traffic : list Panel.UserTraffic) c
    : UserSync.Controller * list Phase * list Panel.UserTraffic * list EdgeTraffic.EdgeTrafficRecord :=
  match traffic with
  | [] => (c, [], [], [])
  | _ =>
      let c := during m SendingTraffic c in
      match ReportUserTraffic rp traffic with
      | None => (c, [SendingTraffic], traffic, [])
      | Some _ =>
          (withCore (Core.rollbackTraffic items (UserSync.c_server c)) c, [SendingTraffic], [],
           match edge with
           | None => []
           | Some d => giveBack bridge (EdgeTraffic.reportRecords d)
           end)
      end
  end.

Definition sendOnline (rp : ReportPlane) (m : Meanwhile) (now : Z) (online : list Panel.OnlineUser) c
    : UserSync.Controller * list Phase * list Panel.OnlineUser :=
  match online with
  | [] => (c, [], [])
  | _ =>
      let c := during m SendingOnline c in
      match ReportNodeOnlineUsers rp (onlineData online) with
      | Some _ => (c, [SendingOnline], [])
      | None => (commitReportedOnlineDevices now online c, [SendingOnline], online)
      end
  end.

(** The unified report; the boolean tells whether the task is done. *)
Definition sendSnapshot (rp : ReportPlane) (m : Meanwhile) (now : Z)
    (traffic : list Panel.UserTraffic) (online : list Panel.OnlineUser) c
    : UserSync.Controller * list Phase * bool :=
  match ReportSnapshot rp with
  | None => (c, [], false)
  | Some report =>
      if bool_decide (traffic = [] ∧ online = []) then (c, [], false)
      else
        let c := during m Snapshotting c in
        match report traffic (onlineData online) with
        | None => (commitReportedOnlineDevices now online c, [Snapshotting], true)
        | Some _ => (c, [Snapshotting], false)
        end
  end.

Definition reportUserTrafficTask (rp : ReportPlane) (bridge : option EdgeTrafficBridge)
    (race race' : Traffic.Arrivals) (m : Meanwhile) (now : Z) c : option Outcome :=
  match reportMinima c with
  | None => None
  | Some (reportmin, devicemin) =>
      let '(c, allowed) := onlineAllowedUID race devicemin c in
      let '(c, (coreTraffic, items)) := collectCore race' reportmin c in
      let edge := collectEdge bridge reportmin c in
      let c := during m Draining c in
      let unmatched :=
        match edge with None => [] | Some d => giveBack bridge (EdgeTraffic.restoreRecords d) end in
      let traffic :=
        match edge with
        | None => coreTraffic
        | Some d => EdgeTraffic.mergeUserTraffic coreTraffic (EdgeTraffic.report d)
        end in
      let online := onlineResult allowed c in
      let '(c, called, done) := sendSnapshot rp m now traffic online c in
      if done then Some (mkOutcome c (Draining :: called) traffic online unmatched)
      else
        let '(c, called', accepted, restored) := sendTraffic rp bridge m items edge traffic c in
        let '(c, called'', acceptedOnline) := sendOnline rp m now online c in
        Some (mkOutcome c (Draining :: called ++ called' ++ called'') accepted acceptedOnline
                (unmatched ++ restored))
  end.

End report.
End Report.
