(* ===== verification/ReportProps.v ===== *)
(** * Properties of the report task

    No byte is reported twice, and none is lost but with the records that the edge
    agent does not take back ([reportUserTrafficTask_conserves]); devices are marked as reported
    exactly when the panel took them, and only devices of users above the
    threshold are sent ([reportUserTrafficTask_online]). *)

From S2P Require Import Prelude GoStrings Panel Limiter Links Traffic TrafficProps Core CoreProps LimiterProps.
From S2P Require Import EdgeSidecar UserSync EdgeTraffic EdgeTrafficProps Report.

Module ReportProps.
Import Report.
Import Traffic(Field, Up, Down, Arrivals).
Import TrafficProps(reportedTotal, trafficBytes, currentBytes, wfCounter, raceBytes, itemsTotal).

(** ** The counters of one user *)

Section bytes.
Context `{XCore : Core.XrayCore}.
Implicit Types (v : Core.V2Core).

Definition counterOf (tag : string) v : gmap string nat :=
  match Core.dispatcher v with
  | Some d => default ∅ (Core.Counter d !! tag)
  | None => ∅
  end.

Definition storeOf v : Traffic.Store :=
  match Core.dispatcher v with
  | Some d => Core.storages d
  | None => Traffic.emptyStore
  end.

(** What the counters of a user key hold. *)
Definition userBytes (tag e : string) (f : Field) v : Z := currentBytes e f (counterOf tag v) (storeOf v).

Definition wfCore (tag : string) v : Prop := wfCounter (counterOf tag v) (storeOf v).

(** From [v] to [v'] the counters of the user have grown by [δ]; a storage the
    user had is kept, and a storage the user got is a new one. *)
Record grows (tag e : string) (δ : Field → Z) v v' : Prop := {
  g_wf : wfCore tag v';
  g_next : (Traffic.next (storeOf v) <= Traffic.next (storeOf v'))%nat;
  g_keep : ∀ q, counterOf tag v !! e = Some q → counterOf tag v' !! e = Some q;
  g_new : ∀ q, counterOf tag v !! e = None → counterOf tag v' !! e = Some q →
               (Traffic.next (storeOf v) <= q)%nat;
  g_bytes : ∀ f, wrap64 (userBytes tag e f v') = wrap64 (userBytes tag e f v + δ f);
  g_users : Core.uidMap v' = Core.uidMap v
}.

Lemma grows_refl tag e v : wfCore tag v → grows tag e (λ _, 0) v v.
Proof. split; try done; [congruence|]. intros f. by rewrite Z.add_0_r. Qed.

Lemma grows_trans tag e δ δ' v v' v'' :
  grows tag e δ v v' → grows tag e δ' v' v'' → grows tag e (λ f, δ f + δ' f) v v''.
Proof.
  intros [_ Hn Hk Hnew Hb Hu] [Hwf Hn' Hk' Hnew' Hb' Hu']. split; [done|lia|eauto| | |congruence].
  - intros q Hnone Hq. destruct (counterOf tag v' !! e) as [q'|] eqn:E.
    + rewrite (Hk' q' eq_refl) in Hq. injection Hq as <-. eauto.
    + pose proof (Hnew' q eq_refl Hq). lia.
  - intros f. rewrite Hb', <- wrap64_add_l, Hb, wrap64_add_l. f_equal. lia.
Qed.

Lemma grows_ext tag e δ δ' v v' : (∀ f, δ f = δ' f) → grows tag e δ v v' → grows tag e δ' v v'.
Proof. intros Hδ [? ? ? ? Hb ?]. split; try done. intros f. by rewrite Hb, Hδ. Qed.

Definition countOf (e : string) (n : Traffic.count) (f : Field) : Z :=
  if decide (Traffic.c_key n = e ∧ Traffic.c_field n = f) then Traffic.c_bytes n else 0.

Definition countsOf (e : string) (ns : list Traffic.count) (f : Field) : Z :=
  foldr (λ n acc, countOf e n f + acc) 0 ns.

Lemma countBytes_grows tag e v n :
  is_Some (Core.dispatcher v) → wfCore tag v →
  grows tag e (countOf e n) v (countBytes tag v n) ∧ is_Some (Core.dispatcher (countBytes tag v n)).
Proof.
  intros [d Hd] Hwf. unfold countBytes. rewrite Hd. fold Traffic.NewTrafficCounter.
  set (l := TrafficProps.mkLedger (counterOf tag v) (storeOf v) [] (λ _ _, 0)).
  assert (Hspec := λ f, TrafficProps.runCount_spec l n e f Hwf).
  unfold TrafficProps.runCount in Hspec. cbn [TrafficProps.lg_counter TrafficProps.lg_store l] in Hspec.
  assert (Ec : counterOf tag v = default Traffic.NewTrafficCounter (Core.Counter d !! tag)).
  { unfold counterOf. by rewrite Hd. }
  assert (Es : storeOf v = Core.storages d) by (unfold storeOf; by rewrite Hd).
  rewrite Ec, Es in Hspec.
  destruct (Traffic.countOn n _ _) as [ctr st]. split; [|done].
  set (v' := Core.withDispatcher _ v).
  assert (Ec' : counterOf tag v' = ctr) by (unfold counterOf; cbn; by rewrite lookup_insert_eq).
  assert (Es' : storeOf v' = st) by done.
  cbn in Hspec. destruct (Hspec Up) as (Hw & Hn & _ & Hk & Hnew & _).
  split; unfold userBytes, wfCore; rewrite ?Ec', ?Es', ?Ec, ?Es; try done; [eauto|].
  intros f. destruct (Hspec f) as (_ & _ & _ & _ & _ & ->).
  f_equal. unfold TrafficProps.addCounted, countOf. repeat case_decide; naive_solver lia.
Qed.

Lemma countsBytes_grows tag e ns v :
  is_Some (Core.dispatcher v) → wfCore tag v →
  grows tag e (countsOf e ns) v (foldl (countBytes tag) v ns)
  ∧ is_Some (Core.dispatcher (foldl (countBytes tag) v ns)).
Proof.
  revert v. induction ns as [|n ns IH]; intros v Hd Hwf; cbn [foldl].
  { split; [|done]. by apply grows_refl. }
  destruct (countBytes_grows tag e v n Hd Hwf) as [Hg Hd'].
  destruct (IH _ Hd' (g_wf _ _ _ _ _ Hg)) as [Hg' ?]. split; [|done]. by eapply grows_ext, grows_trans.
Qed.
End bytes.

(** ** Collecting and rolling back *)

Section collect.
Context `{XCore : Core.XrayCore}.
Context {RO : RangeOrder string}.
Implicit Types (v : Core.V2Core).

(** The user [u] of the key [e]; the id belongs to no other key. *)
Definition ownsUid (v : Core.V2Core) (e : string) (u : Z) : Prop :=
  default ∅ (Core.uidMap v) !! e = Some u ∧ u ≠ 0
  ∧ ∀ e', default ∅ (Core.uidMap v) !! e' = Some u → e' = e.

(** The items undo the collection of the user's part of [traffic], in a core
    that has the user's storage of [v] or a newer one. *)
Definition undoes (tag e : string) (u : Z) v (traffic : list Panel.UserTraffic)
    (items : list Traffic.trafficRollbackItem) : Prop :=
  (∀ q f, (if counterOf tag v !! e is Some q0 then q = q0 else (Traffic.next (storeOf v) <= q)%nat) →
     itemsTotal q f items = reportedTotal u f traffic)
  ∧ (counterOf tag v !! e = None → ∀ f, reportedTotal u f traffic = 0).

Definition raceOf (race : Arrivals) tag e v (f : Field) : Z :=
  if counterOf tag v !! e is Some _ then raceBytes race f e else 0.

Lemma GetUserTrafficSlice_grows race tag m e u v :
  is_Some (Core.dispatcher v) → wfCore tag v → ownsUid v e u →
  let '(v', slice) := Core.GetUserTrafficSlice race tag m v in
  let '(traffic, items) := default ([], []) slice in
  is_Some (Core.dispatcher v')
  ∧ grows tag e (λ f, raceOf race tag e v f - reportedTotal u f traffic) v v'
  ∧ undoes tag e u v' traffic items
  ∧ counterOf tag v' !! e = counterOf tag v !! e.
Proof.
  intros [d Hd] Hwf (Hu & Hu0 & Huniq). unfold Core.GetUserTrafficSlice. rewrite Hd.
  assert (Ec : counterOf tag v = default ∅ (Core.Counter d !! tag)) by (unfold counterOf; by rewrite Hd).
  assert (Es : storeOf v = Core.storages d) by (unfold storeOf; by rewrite Hd).
  destruct (Core.Counter d !! tag) as [ctr|] eqn:Hc; cbn [default] in *.
  - assert (Hspec := λ f, TrafficProps.trafficSlice_user _ race m (counterOf tag v) (storeOf v) e u f Hwf Hu Hu0 Huniq).
    cbn in Ec. rewrite Ec, Es in Hspec.
    set (s := Traffic.trafficSlice _ race m ctr (Core.storages d)) in *.
    set (v' := Core.withDispatcher _ v).
    assert (Ec' : counterOf tag v' = Traffic.ss_counter s) by (unfold counterOf; cbn; by rewrite lookup_insert_eq).
    assert (Es' : storeOf v' = Traffic.ss_store s) by done.
    assert (Hall : grows tag e (λ f, raceOf race tag e v f - reportedTotal u f (Traffic.ss_traffic s)) v v'
      ∧ undoes tag e u v' (Traffic.ss_traffic s) (Traffic.ss_rollback s)
      ∧ counterOf tag v' !! e = counterOf tag v !! e).
    { destruct (Hspec Up) as (Hw & Hn & Hk & _ & _). split_and!.
      - split; unfold userBytes, wfCore, raceOf; rewrite ?Ec', ?Es', ?Ec, ?Es, ?Hn; try done.
        + intros q. by rewrite Hk.
        + intros q. rewrite Hk. congruence.
        + intros f. destruct (Hspec f) as (_ & _ & _ & Hb & _).
          replace (currentBytes e f (Traffic.ss_counter s) (Traffic.ss_store s))
            with (- reportedTotal u f (Traffic.ss_traffic s)
                  + (reportedTotal u f (Traffic.ss_traffic s)
                     + currentBytes e f (Traffic.ss_counter s) (Traffic.ss_store s))) by lia.
          rewrite <- wrap64_add_r, Hb, wrap64_add_r. f_equal. lia.
      - assert (Hundo : ∀ q f, (if ctr !! e is Some q0 then q = q0 else (Traffic.next (Core.storages d) <= q)%nat) →
          itemsTotal q f (Traffic.ss_rollback s) = reportedTotal u f (Traffic.ss_traffic s)).
        { intros q f Hq. destruct (Hspec f) as (_ & _ & _ & _ & Hi). by apply Hi. }
        split; rewrite Ec', ?Es', ?Hn, Hk; [done|]. intros Hnone f.
        rewrite <- (Hundo (Traffic.next (Core.storages d)) f) by by rewrite Hnone.
        unfold s, Traffic.trafficSlice. rewrite TrafficProps.slice_items; [done|].
        intros (e' & He')%TrafficProps.range_pointers. destruct Hwf as [Hlt _].
        rewrite Ec, Es in Hlt. apply Hlt in He'. lia.
      - by rewrite Ec', Ec, Hk. }
    destruct (Traffic.ss_traffic s) as [|t ts] eqn:Et; cbn [default]; [|by split].
    split; [done|]. destruct Hall as (Hg & Hundo & Hk). done.
  - cbn. assert (Hnone : counterOf tag v !! e = None) by (by rewrite Ec, lookup_empty).
    split_and!; [by rewrite Hd| |by split|done]. eapply grows_ext; [|by apply grows_refl].
    intros f. unfold raceOf. by rewrite Hnone.
Qed.

Lemma rollbackTraffic_grows tag e u v v' δ traffic items :
  is_Some (Core.dispatcher v') → grows tag e δ v v' → undoes tag e u v traffic items →
  grows tag e (λ f, reportedTotal u f traffic) v' (Core.rollbackTraffic items v')
  ∧ is_Some (Core.dispatcher (Core.rollbackTraffic items v')).
Proof.
  intros [d Hd] [[Hlt Hinj] Hn Hk Hnew _ _] [Hundo Hzero]. unfold Core.rollbackTraffic. rewrite Hd. split; [|done].
  assert (Ec : counterOf tag v' = default ∅ (Core.Counter d !! tag)) by (unfold counterOf; by rewrite Hd).
  assert (Es : storeOf v' = Core.storages d) by (unfold storeOf; by rewrite Hd).
  set (v'' := Core.withDispatcher _ v').
  assert (Ec'' : counterOf tag v'' = counterOf tag v') by by rewrite Ec.
  assert (Es'' : storeOf v'' = Traffic.rollback items (Core.storages d)) by done.
  split; rewrite ?Ec''; try done.
  - unfold wfCore. rewrite Ec'', Es''. split; rewrite ?TrafficProps.next_rollback, <- ?Es; eauto.
  - by rewrite Es'', TrafficProps.next_rollback, Es.
  - congruence.
  - intros f. unfold userBytes. rewrite Ec'', Es'', Es.
    destruct (counterOf tag v' !! e) as [q|] eqn:Hq.
    + rewrite !(TrafficProps.currentBytes_load _ q) by done. rewrite TrafficProps.rollback_spec.
      rewrite (Hundo q); [done|]. destruct (counterOf tag v !! e) as [q0|] eqn:Hq0; [|by apply Hnew].
      pose proof (Hk q0 eq_refl). congruence.
    + rewrite !TrafficProps.currentBytes_none by done.
      assert (Hnone : counterOf tag v !! e = None).
      { destruct (counterOf tag v !! e) as [q0|] eqn:Hq0; [|done]. pose proof (Hk q0 eq_refl). congruence. }
      rewrite Hzero by done. by rewrite Z.add_0_r.
Qed.
End collect.

(** ** The task *)

Section task.
Context `{XCore : Core.XrayCore} `{RL : Limiter.RateLimit}.
Context {RO : RangeOrder string} {ROz : RangeOrder Z}.
Implicit Types (c : UserSync.Controller) (v : Core.V2Core) (m : Meanwhile).

(** What connections of the user count during the calls. *)
Definition countedDuring m (e : string) (calls : list Phase) (f : Field) : Z :=
  foldr (λ phase acc, countsOf e (counts m phase) f + acc) 0 calls.

Lemma countedDuring_app m e l k f :
  countedDuring m e (l ++ k) f = countedDuring m e l f + countedDuring m e k f.
Proof. unfold countedDuring. induction l as [|phase l IH]; cbn; [done|]. rewrite IH. lia. Qed.

(** The state of the user in a controller. *)
Definition grown (e : string) (δ : Field → Z) c c' : Prop :=
  grows (UserSync.c_tag c) e δ (UserSync.c_server c) (UserSync.c_server c')
  ∧ is_Some (Core.dispatcher (UserSync.c_server c'))
  ∧ UserSync.c_tag c' = UserSync.c_tag c ∧ UserSync.userList c' = UserSync.userList c.

Definition ready c : Prop :=
  is_Some (Core.dispatcher (UserSync.c_server c)) ∧ wfCore (UserSync.c_tag c) (UserSync.c_server c).

Lemma grown_refl e c : ready c → grown e (λ _, 0) c c.
Proof. intros [? ?]. split; [by apply grows_refl|done]. Qed.

Lemma grown_trans e δ δ' δ'' c c' c'' :
  grown e δ c c' → grown e δ' c' c'' → (∀ f, δ f + δ' f = δ'' f) → grown e δ'' c c''.
Proof.
  intros (Hg & _ & Ht & Hl) (Hg' & Hd & Ht' & Hl') Hδ. rewrite Ht in Hg'.
  split; [|split; [done|split; congruence]].
  apply (grows_ext _ _ (λ f, δ f + δ' f)); [exact Hδ|by eapply grows_trans].
Qed.

Lemma grown_ready e δ c c' : grown e δ c c' → ready c'.
Proof. intros (Hg & Hd & Ht & _). split; [done|]. rewrite Ht. apply Hg. Qed.

Lemma during_grown m e phase c : ready c → grown e (countedDuring m e [phase]) c (during m phase c).
Proof.
  intros [Hd Hwf]. destruct (countsBytes_grows _ e (counts m phase) _ Hd Hwf) as [Hg Hd'].
  split; [|done]. eapply grows_ext; [|exact Hg]. intros f. cbn. lia.
Qed.

Lemma ownsUid_grown e u δ c c' :
  ownsUid (UserSync.c_server c) e u → grown e δ c c' → ownsUid (UserSync.c_server c') e u.
Proof. intros Ho (Hg & _). unfold ownsUid. by rewrite (g_users _ _ _ _ _ Hg). Qed.

Lemma collectCore_grown race reportmin e u c :
  ready c → ownsUid (UserSync.c_server c) e u →
  let '(c', (traffic, items)) := collectCore race reportmin c in
  grown e (λ f, raceOf race (UserSync.c_tag c) e (UserSync.c_server c) f - reportedTotal u f traffic) c c'
  ∧ undoes (UserSync.c_tag c) e u (UserSync.c_server c') traffic items
  ∧ counterOf (UserSync.c_tag c) (UserSync.c_server c') !! e
    = counterOf (UserSync.c_tag c) (UserSync.c_server c) !! e.
Proof.
  intros [Hd Hwf] Ho. unfold collectCore.
  pose proof (GetUserTrafficSlice_grows race (UserSync.c_tag c) reportmin e u _ Hd Hwf Ho) as Hs.
  destruct (Core.GetUserTrafficSlice _ _ _ _) as [v' slice]. destruct (default ([], []) slice) as [traffic items].
  destruct Hs as (Hd' & Hg & Hundo & Hk). by split_and!.
Qed.

Lemma onlineAllowedUID_grown race devicemin e u c :
  ready c → ownsUid (UserSync.c_server c) e u →
  let '(c', _) := onlineAllowedUID race devicemin c in
  grown e (λ f, if 0 <? devicemin then raceOf race (UserSync.c_tag c) e (UserSync.c_server c) f else 0) c c'
  ∧ is_Some (counterOf (UserSync.c_tag c) (UserSync.c_server c') !! e)
    = is_Some (counterOf (UserSync.c_tag c) (UserSync.c_server c) !! e).
Proof.
  intros Hr Ho. unfold onlineAllowedUID. destruct (0 <? devicemin); [|split; [by apply grown_refl|done]].
  pose proof (GetUserTrafficSlice_grows race (UserSync.c_tag c) devicemin e u _ (proj1 Hr) (proj2 Hr) Ho) as Hs.
  destruct (Core.GetUserTrafficSlice _ _ _ _) as [v' [[traffic items]|]]; cbn [default] in Hs;
    destruct Hs as (Hd' & Hg & Hundo & Hk).
  - destruct (rollbackTraffic_grows (UserSync.c_tag c) e u v' v' (λ _, 0) traffic items) as [Hg' Hd'']; try done.
    { by apply grows_refl, Hg. }
    split; [split; [|by split_and!]|].
    + eapply grows_ext; [|by eapply grows_trans]. intros f. cbn. lia.
    + cbn [withCore UserSync.withServer UserSync.c_server]. unfold Core.rollbackTraffic.
      destruct Hd' as [d Hd']. rewrite Hd'. unfold counterOf in *. cbn. rewrite Hd' in Hk. cbn in Hk. by rewrite Hk.
  - cbn [withCore UserSync.withServer UserSync.c_server]. rewrite Hk. split; [|done].
    split; [|by split_and!]. eapply grows_ext; [|exact Hg]. intros f. cbn. lia.
Qed.

Lemma sendSnapshot_grown rp m now traffic online e c :
  ready c →
  let '(c', called, _) := sendSnapshot rp m now traffic online c in
  grown e (countedDuring m e called) c c'.
Proof.
  intros Hr. unfold sendSnapshot. destruct (ReportSnapshot rp) as [report|]; [|by apply grown_refl].
  case_bool_decide; [by apply grown_refl|].
  pose proof (during_grown m e Snapshotting c Hr) as Hg.
  destruct (report _ _); [done|]. unfold commitReportedOnlineDevices. by destruct online.
Qed.

(** Sending the traffic on its own: the panel takes all of it, or it goes back. *)
Lemma sendTraffic_grown rp bridge m items edge traffic e u v coreTraffic δ c :
  ready c → grows (UserSync.c_tag c) e δ v (UserSync.c_server c) →
  undoes (UserSync.c_tag c) e u v coreTraffic items →
  let '(c', called, accepted, restored) := sendTraffic rp bridge m items edge traffic c in
  ∃ back, grown e (λ f, countedDuring m e called f + back f) c c'
  ∧ ((accepted = traffic ∧ restored = [] ∧ ∀ f, back f = 0)
     ∨ (accepted = [] ∧ (∀ f, back f = reportedTotal u f coreTraffic)
        ∧ restored = match edge with None => [] | Some d => giveBack bridge (EdgeTraffic.reportRecords d) end)).
Proof.
  intros Hr Hg Hundo. unfold sendTraffic. destruct traffic as [|t ts].
  { exists (λ _, 0). split; [by apply grown_refl|by left]. }
  pose proof (during_grown m e SendingTraffic c Hr) as Hd. destruct (ReportUserTraffic _ _).
  - exists (λ f, reportedTotal u f coreTraffic). split; [|by right].
    destruct (rollbackTraffic_grows (UserSync.c_tag c) e u v
      (UserSync.c_server (during m SendingTraffic c)) (λ f, δ f + countedDuring m e [SendingTraffic] f)
      coreTraffic items) as [Hg' Hd']; [apply Hd|eapply grows_trans; [done|apply Hd]|done|].
    apply (grown_trans e _ (λ f, reportedTotal u f coreTraffic) _ _ _ _ Hd); [|done]. by split_and!.
  - exists (λ _, 0). split; [|by left]. eapply grown_trans; [exact Hd|by apply grown_refl, (grown_ready e _ _ _ Hd)|done].
Qed.

Lemma sendOnline_grown rp m now online e c :
  ready c →
  let '(c', called, _) := sendOnline rp m now online c in
  grown e (countedDuring m e called) c c'.
Proof.
  intros Hr. unfold sendOnline. destruct online as [|o os]; [by apply grown_refl|].
  pose proof (during_grown m e SendingOnline c Hr) as Hg. by destruct (ReportNodeOnlineUsers _ _).
Qed.

(** ** Conservation *)

(** What the edge agent handed over. *)
Definition drained (bridge : option EdgeTrafficBridge) : list EdgeTraffic.EdgeTrafficRecord :=
  match DrainTraffic <$> bridge with Some (Ok records) => records | _ => [] end.

(** The bytes of records that are reported for a user id. *)
Definition edgeBytes c (reportmin : Z) (f : Field) (u : Z) (l : list EdgeTraffic.EdgeTrafficRecord) : Z :=
  EdgeTrafficProps.sumBytes (UserSync.c_tag c) (EdgeTraffic.uuidToUID (UserSync.userList c))
    (EdgeTraffic.trafficMinBytes reportmin) f u l.

Lemma edgeBytes_app c reportmin f u l k :
  edgeBytes c reportmin f u (l ++ k) = edgeBytes c reportmin f u l + edgeBytes c reportmin f u k.
Proof. apply EdgeTrafficProps.sumBytes_app. Qed.

(** What the agent does not take back of the records the task gives back. *)
Definition refusedBy (bridge : option EdgeTrafficBridge) (lost : list EdgeTraffic.EdgeTrafficRecord) : Prop :=
  match bridge with
  | None => lost = []
  | Some b => EdgeTrafficProps.refusedFrom (RecordTraffic b) lost
  end.

(** The merge of the two sources, what giving the records back returns, and what it
    loses. *)
Lemma edge_spec bridge reportmin c f u coreTraffic :
  Forall EdgeTrafficProps.validRecord (drained bridge) →
  edgeBytes c reportmin f u (drained bridge) <= max_int64 →
  let edge := collectEdge bridge reportmin c in
  let traffic :=
    match edge with
    | None => coreTraffic
    | Some d => EdgeTraffic.mergeUserTraffic coreTraffic (EdgeTraffic.report d)
    end in
  let back g := match edge with None => [] | Some d => giveBack bridge (g d) end in
  (EdgeTrafficProps.saturated u f traffic ∨
   wrap64 (reportedTotal u f traffic)
   = wrap64 (reportedTotal u f coreTraffic + edgeBytes c reportmin f u (drained bridge)))
  ∧ ∃ lost lost', refusedBy bridge lost ∧ refusedBy bridge lost'
    ∧ edgeBytes c reportmin f u (back EdgeTraffic.restoreRecords ++ lost) = 0
    ∧ edgeBytes c reportmin f u (back EdgeTraffic.reportRecords ++ lost') = edgeBytes c reportmin f u (drained bridge)
    ∧ (back EdgeTraffic.restoreRecords ++ lost) ++ (back EdgeTraffic.reportRecords ++ lost') ⊆+ drained bridge.
Proof.
  intros Hv Hmax. unfold collectEdge, EdgeTraffic.drainEdgeUserTraffic.
  assert (H0 : ∀ l, l = [] → edgeBytes c reportmin f u l = 0) by by intros ? ->.
  destruct bridge as [b|]; cbn [fmap option_fmap option_map].
  2:{ split; [right; rewrite H0 by done; f_equal; lia|]. by exists [], []. }
  assert (Ed : drained (Some b) = match DrainTraffic b with Ok records => records | Err _ => [] end)
    by (unfold drained; cbn; by destruct (DrainTraffic b)).
  rewrite Ed in *. destruct (DrainTraffic b) as [records|err].
  2:{ split; [right; rewrite H0 by done; f_equal; lia|]. by exists [], []. }
  destruct records as [|r records].
  { split; [right; rewrite H0 by done; f_equal; lia|]. by exists [], []. }
  destruct (EdgeTrafficProps.drainRecords_user (UserSync.c_tag c) (UserSync.userList c) reportmin u f
              (r :: records) Hv Hmax) as (Htot & Hnonneg & Hrep & Hres & Hne).
  apply Forall_app in Hne as [Hne1 Hne2]. cbn [giveBack]. split.
  - destruct (EdgeTrafficProps.mergeUserTraffic_user u f coreTraffic _ Hnonneg) as [|Hm]; [by left|right].
    rewrite Hm, Htot. done.
  - destruct (EdgeTrafficProps.restoreEdgeTraffic_split (RecordTraffic b) _ Hne2) as (lost & E & Hlost).
    destruct (EdgeTrafficProps.restoreEdgeTraffic_split (RecordTraffic b) _ Hne1) as (lost' & E' & Hlost').
    exists lost, lost'. rewrite <- E, <- E'. split_and!; [done..|].
    pose proof (EdgeTrafficProps.drainRecords_perm _ (UserSync.c_tag c) (UserSync.userList c) reportmin _ Hv) as Hperm.
    cbn zeta in Hperm. rewrite (Permutation_app_comm (EdgeTraffic.restoreRecords _)), Hperm.
    apply sublist_submseteq, sublist_filter.
Qed.

(** Both collections, before anything is sent. *)
Lemma collect_grown race race' devicemin reportmin e u c :
  ready c → ownsUid (UserSync.c_server c) e u →
  let '(c1, allowed) := onlineAllowedUID race devicemin c in
  let '(c2, (coreTraffic, items)) := collectCore race' reportmin c1 in
  let tag := UserSync.c_tag c in
  grown e (λ f, (if 0 <? devicemin then raceOf race tag e (UserSync.c_server c) f else 0)
                + raceOf race' tag e (UserSync.c_server c) f - reportedTotal u f coreTraffic) c c2
  ∧ undoes tag e u (UserSync.c_server c2) coreTraffic items.
Proof.
  intros Hr Hown. pose proof (onlineAllowedUID_grown race devicemin e u c Hr Hown) as H1.
  destruct (onlineAllowedUID race devicemin c) as [c1 allowed]. destruct H1 as [G1 K1].
  pose proof (collectCore_grown race' reportmin e u c1 (grown_ready _ _ _ _ G1) (ownsUid_grown _ _ _ _ _ Hown G1)) as H2.
  destruct (collectCore race' reportmin c1) as [c2 [coreTraffic items]]. destruct H2 as (G2 & Hundo & _).
  assert (E1 : UserSync.c_tag c1 = UserSync.c_tag c) by apply G1. rewrite E1 in Hundo. split; [|done].
  apply (grown_trans e _ _ _ _ _ _ G1 G2). intros f. cbn beta.
  assert (R' : raceOf race' (UserSync.c_tag c1) e (UserSync.c_server c1) f
               = raceOf race' (UserSync.c_tag c) e (UserSync.c_server c) f); [|lia].
  unfold raceOf. rewrite E1.
  destruct (counterOf _ (UserSync.c_server c1) !! e), (counterOf _ (UserSync.c_server c) !! e); try done;
    exfalso; [assert (X : is_Some (None : option nat)) by (rewrite <- K1; eauto)
             |assert (X : is_Some (None : option nat)) by (rewrite K1; eauto)]; by destruct X.
Qed.

(** The two separate reports. *)
Lemma separate_grown rp bridge m now items edge traffic online e u v coreTraffic δ c :
  ready c → grows (UserSync.c_tag c) e δ v (UserSync.c_server c) →
  undoes (UserSync.c_tag c) e u v coreTraffic items →
  let '(c', called, accepted, restored) := sendTraffic rp bridge m items edge traffic c in
  let '(c'', called', _) := sendOnline rp m now online c' in
  ∃ back, grown e (λ f, countedDuring m e (called ++ called') f + back f) c c''
  ∧ ((accepted = traffic ∧ restored = [] ∧ ∀ f, back f = 0)
     ∨ (accepted = [] ∧ (∀ f, back f = reportedTotal u f coreTraffic)
        ∧ restored = match edge with None => [] | Some d => giveBack bridge (EdgeTraffic.reportRecords d) end)).
Proof.
  intros Hr Hg Hundo. pose proof (sendTraffic_grown rp bridge m items edge traffic e u v coreTraffic δ c Hr Hg Hundo) as H5.
  destruct (sendTraffic rp bridge m items edge traffic c) as [[[c' called] accepted] restored]. destruct H5 as (back & G5 & Hcase).
  pose proof (sendOnline_grown rp m now online e c' (grown_ready _ _ _ _ G5)) as G6.
  destruct (sendOnline rp m now online c') as [[c'' called'] acceptedOnline]. exists back. split; [|done].
  apply (grown_trans e _ _ _ _ _ _ G5 G6). intros f. rewrite countedDuring_app. lia.
Qed.


(** ** Devices *)

(** The user has counters of the node above the threshold. *)
Definition aboveMinimum (devicemin : Z) c (uid : Z) : Prop :=
  uid ≠ 0 ∧ ∃ k p, default ∅ (Core.uidMap (UserSync.c_server c)) !! k = Some uid
    ∧ counterOf (UserSync.c_tag c) (UserSync.c_server c) !! k = Some p
    ∧ TrafficProps.isDue devicemin (storeOf (UserSync.c_server c)) p = true.

(** The devices a report is about. *)
Definition reportable m devicemin c (x : Panel.OnlineUser) : Prop :=
  x ∈ Limiter.GetOnlineDevice (admissions m Draining (UserSync.c_limiter c))
  ∧ (0 < devicemin → aboveMinimum devicemin c (Panel.ou_UID x)).

Lemma GetUserTrafficSlice_uids race tag devicemin v :
  wfCore tag v → ∀ uid,
  uid ∈ Panel.ut_UID <$> (default ([], []) (Core.GetUserTrafficSlice race tag devicemin v).2).1
  ↔ uid ≠ 0 ∧ ∃ k p, default ∅ (Core.uidMap v) !! k = Some uid ∧ counterOf tag v !! k = Some p
      ∧ TrafficProps.isDue devicemin (storeOf v) p = true.
Proof.
  intros Hwf uid. unfold Core.GetUserTrafficSlice, counterOf, storeOf, wfCore in *.
  destruct (Core.dispatcher v) as [d|] eqn:Hd.
  2:{ split; [intros Hin; by apply elem_of_nil in Hin|]. intros (_ & k & p & _ & Hk & _). done. }
  unfold counterOf, storeOf in Hwf. rewrite Hd in Hwf. destruct (Core.Counter d !! tag) as [ctr|].
  2:{ split; [intros Hin; by apply elem_of_nil in Hin|]. intros (_ & k & p & _ & Hk & _). done. }
  cbn [default] in *. set (s := Traffic.trafficSlice _ race devicemin ctr (Core.storages d)).
  assert (Es : (default ([], []) (match Traffic.ss_traffic s with
      | [] => (Core.withDispatcher (Some (Core.mkDispatcher (<[tag:=Traffic.ss_counter s]> (Core.Counter d))
                 (Core.LinkManagers d) (Traffic.ss_store s) (Core.world d))) v, None)
      | t :: ts => (Core.withDispatcher (Some (Core.mkDispatcher (<[tag:=Traffic.ss_counter s]> (Core.Counter d))
                 (Core.LinkManagers d) (Traffic.ss_store s) (Core.world d))) v, Some (t :: ts, Traffic.ss_rollback s))
      end).2).1 = Traffic.ss_traffic s) by by destruct (Traffic.ss_traffic s).
  rewrite Es. unfold s, Traffic.trafficSlice.
  destruct (TrafficProps.slice_traffic (default ∅ (Core.uidMap v)) race devicemin (range_list ctr)
    (Traffic.mkSliceState [] [] ctr (Core.storages d)) (TrafficProps.NoDup_pointers _ _ Hwf)) as [-> _].
  cbn [Traffic.ss_traffic Traffic.ss_store app]. rewrite list_elem_of_fmap. setoid_rewrite list_elem_of_omap.
  unfold TrafficProps.reportTraffic, TrafficProps.reportEntry. split.
  - intros (t & -> & [k p] & Hin%elem_of_range_list & Ht). cbn in Ht.
    destruct (TrafficProps.isDue _ _ p) eqn:Hdue; [|done].
    destruct (Z.eqb_spec (default 0 (default ∅ (Core.uidMap v) !! k)) 0) as [|Hne]; [done|].
    injection Ht as <-. cbn. split; [done|]. exists k, p. split_and!; [|done|done].
    by destruct (default ∅ (Core.uidMap v) !! k).
  - intros (Hne & k & p & Hk & Hp & Hdue).
    eexists. split; [|exists (k, p); split; [by apply elem_of_range_list|]; cbn; rewrite Hdue, Hk; cbn;
      rewrite (proj2 (Z.eqb_neq _ _)) by done; reflexivity].
    cbn. by rewrite Hk.
Qed.

Lemma onlineResult_reportable race race' reportmin devicemin m c :
  ready c →
  let '(c1, allowed) := onlineAllowedUID race devicemin c in
  let '(c2, _) := collectCore race' reportmin c1 in
  UserSync.c_limiter c2 = UserSync.c_limiter c
  ∧ ∀ x, x ∈ onlineResult allowed (during m Draining c2) ↔ reportable m devicemin c x.
Proof.
  intros [_ Hwf]. unfold onlineAllowedUID, collectCore, onlineResult, reportable, aboveMinimum.
  pose proof (GetUserTrafficSlice_uids race (UserSync.c_tag c) devicemin (UserSync.c_server c) Hwf) as Hu.
  destruct (Z.ltb_spec 0 devicemin) as [Hpos|Hneg].
  - destruct (Core.GetUserTrafficSlice race _ _ _) as [v [[traffic items]|]]; cbn [default snd fst] in Hu.
    + destruct (Core.GetUserTrafficSlice race' _ _ _) as [v2 slice]. split; [done|]. intros x.
      rewrite list_elem_of_filter, Hu. cbn. naive_solver.
    + destruct (Core.GetUserTrafficSlice race' _ _ _) as [v2 slice]. split; [done|]. intros x.
      rewrite list_elem_of_filter. specialize (Hu (Panel.ou_UID x)). cbn in Hu |- *. naive_solver.
  - destruct (Core.GetUserTrafficSlice race' _ _ _) as [v2 slice]. split; [done|]. intros x. cbn.
    split; [intros ?; split; [done|lia]|tauto].
Qed.

(** The limiter after some calls. *)
Definition admitted m (calls : list Phase) (l : Limiter.Limiter) : Limiter.Limiter :=
  foldl (λ l phase, admissions m phase l) l calls.

Definition marked (now : Z) (online : list Panel.OnlineUser) (l : Limiter.Limiter) : Limiter.Limiter :=
  match online with [] => l | _ => Limiter.CommitOnlineDeviceReport now online l end.

Lemma commit_limiter now online c :
  UserSync.c_limiter (commitReportedOnlineDevices now online c) = marked now online (UserSync.c_limiter c).
Proof. by destruct online. Qed.

(** The devices that the separate reports mark, and the limiter after them. *)
Lemma separate_online rp bridge m now items edge traffic online l0 called c4 :
  UserSync.c_limiter c4 = admitted m (Draining :: called) l0 →
  let '(c5, called', _, _) := sendTraffic rp bridge m items edge traffic c4 in
  let '(c6, called'', accepted) := sendOnline rp m now online c5 in
  UserSync.c_limiter c6 = marked now accepted (admitted m (Draining :: called ++ called' ++ called'') l0)
  ∧ (accepted = online ∧ (online = [] ∨ ReportNodeOnlineUsers rp (onlineData online) = None)
     ∨ accepted = [] ∧ ReportNodeOnlineUsers rp (onlineData online) ≠ None).
Proof.
  intros H4.
  assert (H5 : let '(c5, called', _, _) := sendTraffic rp bridge m items edge traffic c4 in
    UserSync.c_limiter c5 = admitted m (Draining :: called ++ called') l0).
  { unfold sendTraffic. destruct traffic; [by rewrite app_nil_r|].
    destruct (ReportUserTraffic _ _); cbn [during withCore UserSync.withServer UserSync.c_limiter];
      rewrite H4; unfold admitted; by rewrite app_comm_cons, foldl_snoc. }
  destruct (sendTraffic _ _ _ _ _ _ c4) as [[[c5 called'] accepted] restored].
  unfold sendOnline. destruct online as [|x xs] eqn:Eo.
  { rewrite app_nil_r. split; [done|]. left. split; [done|by left]. }
  assert (Hd : UserSync.c_limiter (during m SendingOnline c5) = admitted m (Draining :: called ++ called' ++ [SendingOnline]) l0).
  { cbn [during UserSync.withServer UserSync.c_limiter]. rewrite H5. unfold admitted.
    by rewrite app_assoc, (app_comm_cons (called ++ called') [SendingOnline]), foldl_snoc. }
  destruct (ReportNodeOnlineUsers rp _) eqn:Er.
  - split; [exact Hd|by right].
  - split; [by rewrite commit_limiter, Hd|left; split; [done|by right]].
Qed.

(** The unified report. *)
Lemma snapshot_online rp m now traffic online l0 c3 :
  UserSync.c_limiter c3 = admissions m Draining l0 →
  let '(c4, called, done) := sendSnapshot rp m now traffic online c3 in
  if done : bool then
    UserSync.c_limiter c4 = marked now online (admitted m (Draining :: called) l0)
    ∧ ∃ report, ReportSnapshot rp = Some report ∧ report traffic (onlineData online) = None
  else UserSync.c_limiter c4 = admitted m (Draining :: called) l0.
Proof.
  intros Hl3. unfold sendSnapshot. destruct (ReportSnapshot rp) as [report|]; [|exact Hl3]. case_bool_decide; [exact Hl3|].
  assert (Hd : UserSync.c_limiter (during m Snapshotting c3) = admitted m [Draining; Snapshotting] l0)
    by (cbn [during UserSync.withServer UserSync.c_limiter]; by rewrite Hl3).
  destruct (report traffic (onlineData online)) eqn:Er; [exact Hd|].
  split; [by rewrite commit_limiter, Hd|by exists report].
Qed.

(** C38. Devices. When the panel took the devices of the users above the threshold
    (all of them if there is no threshold), with the unified report or on
    their own, exactly these are marked as reported in the limiter, on top of
    what connections did to it meanwhile. Otherwise nothing is marked, and
    either there was nothing to report or the panel refused it. *)
Theorem reportUserTrafficTask_online rp bridge race race' m now c o reportmin devicemin :
  reportUserTrafficTask rp bridge race race' m now c = Some o →
  reportMinima c = Some (reportmin, devicemin) → ready c →
  UserSync.c_limiter (controller o)
  = marked now (acceptedOnline o) (admitted m (calls o) (UserSync.c_limiter c))
  ∧ ∃ online, (∀ x, x ∈ online ↔ reportable m devicemin c x)
    ∧ (acceptedOnline o = online
         ∧ (online = [] ∨ ReportNodeOnlineUsers rp (onlineData online) = None
            ∨ ∃ report, ReportSnapshot rp = Some report
                ∧ report (acceptedTraffic o) (onlineData online) = None)
       ∨ acceptedOnline o = [] ∧ ReportNodeOnlineUsers rp (onlineData online) ≠ None).
Proof.
  intros Ho Hmin Hr. revert Ho. unfold reportUserTrafficTask. rewrite Hmin.
  pose proof (onlineResult_reportable race race' reportmin devicemin m c Hr) as Honline.
  destruct (onlineAllowedUID race devicemin c) as [c1 allowed].
  destruct (collectCore race' reportmin c1) as [c2 [coreTraffic items]]. destruct Honline as [Hl Honline].
  set (traffic := match collectEdge bridge reportmin c2 with Some d => _ | None => _ end).
  set (online := onlineResult allowed (during m Draining c2)) in *.
  assert (Hl3 : UserSync.c_limiter (during m Draining c2) = admissions m Draining (UserSync.c_limiter c))
    by (cbn; by rewrite Hl).
  set (c3 := during m Draining c2) in *.
  pose proof (snapshot_online rp m now traffic online _ c3 Hl3) as Hsnap.
  destruct (sendSnapshot rp m now traffic online c3) as [[c4 called] done]. destruct done.
  - destruct Hsnap as [Hs Hrep]. intros [= <-]. split; [exact Hs|]. exists online. split; [done|]. left. split; [done|]. by right; right.
  - pose proof (separate_online rp bridge m now items (collectEdge bridge reportmin c2) traffic online _ _ _ Hsnap) as Hsep.
    destruct (sendTraffic _ _ _ _ _ _ c4) as [[[c5 called'] accepted] restored].
    destruct (sendOnline rp m now online c5) as [[c6 called''] acceptedOnline]. destruct Hsep as [Hs Hcase].
    intros [= <-]. split; [exact Hs|]. exists online. split; [done|]. cbn. naive_solver.
Qed.
End task.

(** ** Examples at which the hypotheses hold *)

Module Examples.
#[local] Existing Instance CoreProps.CoreProps.Examples.exampleConf.
#[local] Existing Instance CoreProps.CoreProps.Examples.exampleXray.
#[local] Existing Instance LimiterProps.LimiterProps.exampleRateLimit.
#[local] Instance exampleOrder : RangeOrder string := canonical_order string.
#[local] Instance exampleOrderZ : RangeOrder Z := canonical_order Z.

(** The user "u" of the node "t" has 5 and 6 bytes in the counters of the core. *)
Definition exampleCore : Core.V2Core :=
  Core.mkV2Core (Some tt) (Some {["t|u" := 3]}) (Some ∅) (Some {["t" := ∅]})
    (Some CoreProps.CoreProps.Examples.exampleDispatcher).

Definition exampleLimiter : Limiter.Limiter :=
  (Limiter.CheckLimit 0 "t|u" "1.2.3.4" true
     (Limiter.newLimiter "vless" "t" [Panel.mkUserInfo 3 "u" 0 2] None)).1.

Definition exampleController : UserSync.Controller :=
  UserSync.mkController "t" (Some (CoreProps.CoreProps.Examples.exampleNode "vless"))
    exampleLimiter exampleCore [Panel.mkUserInfo 3 "u" 0 0] 0 true "" ∅ None None (UserSync.mkDisk ∅ 0 true).

(** A panel that accepts the unified report, or refuses all reports. *)
Definition examplePlane (accepts : bool) : ReportPlane :=
  let answer := if accepts then None else Some (errorf "refused") in
  mkReportPlane (Some (λ _ _, answer)) (λ _, answer) (λ _, answer).

Definition exampleBridge : EdgeTrafficBridge :=
  mkEdgeTrafficBridge (Ok [EdgeTraffic.mkEdgeRecord "t|u" 7 7; EdgeTraffic.mkEdgeRecord "t|other" 1 1]) (λ _, None).

(** The user's connection counts 2 bytes during each call. *)
Definition exampleMeanwhile : Meanwhile :=
  mkMeanwhile _ (λ _, [Traffic.mkCount Up "t|u" 2]) (λ _ l, l).

Definition exampleRun (accepts : bool) : option Outcome :=
  reportUserTrafficTask (examplePlane accepts) (Some exampleBridge) (λ _, (0, 0)) (λ _, (1, 0))
    exampleMeanwhile 0 exampleController.

Lemma exampleReady : ready exampleController.
Proof.
  split; [eexists; reflexivity|].
  change (wfCounter {["t|u" := 0%nat]} (Core.storages CoreProps.CoreProps.Examples.exampleDispatcher)). split.
  - intros e p He. rewrite lookup_singleton_Some in He. destruct He as [_ <-]. cbn. lia.
  - intros e e' p He He'. rewrite lookup_singleton_Some in He, He'. destruct He, He'. congruence.
Qed.

Example exampleRun_accepted :
  acceptedTraffic <$> exampleRun true = Some [Panel.mkUserTraffic 3 13 13].
Proof. vm_compute. reflexivity. Qed.

Example exampleRun_devices :
  acceptedOnline <$> exampleRun true = Some [Panel.mkOnlineUser 3 "1.2.3.4" "t|u"].
Proof. vm_compute. reflexivity. Qed.

Example exampleRun_refused :
  acceptedTraffic <$> exampleRun false = Some []
  ∧ userBytes "t" "t|u" Up <$> (UserSync.c_server <$> (controller <$> exampleRun false)) = Some 14.
Proof. split; vm_compute; reflexivity. Qed.

(** A panel that refuses, and an agent that takes no record back: the record of the
    user is lost, and so is the other one. *)
Definition exampleLossy : option Outcome :=
  reportUserTrafficTask (examplePlane false)
    (Some (mkEdgeTrafficBridge (DrainTraffic exampleBridge) (λ _, Some (errorf "refused"))))
    (λ _, (0, 0)) (λ _, (1, 0)) exampleMeanwhile 0 exampleController.

Example exampleLossy_returned : (λ o, (acceptedTraffic o, returned o)) <$> exampleLossy = Some ([], []).
Proof. vm_compute. reflexivity. Qed.


Lemma reportUserTrafficTask_online_witness :
  match exampleRun true with
  | Some o =>
      UserSync.c_limiter (controller o)
      = marked 0 (acceptedOnline o) (admitted exampleMeanwhile (calls o) exampleLimiter)
  | None => False
  end.
Proof.
  pose proof exampleRun_accepted as Hacc. destruct (exampleRun true) as [o|] eqn:E; [|discriminate Hacc].
  refine (proj1 (reportUserTrafficTask_online (examplePlane true) (Some exampleBridge) (λ _, (0, 0)) (λ _, (1, 0))
    exampleMeanwhile 0 exampleController o 0 0 E _ exampleReady)).
  reflexivity.
Defined.
End Examples.
End ReportProps.
