(* ===== verification/Machine.v ===== *)
(** * Machine mode (node/node.go, node/machine.go)

    A [Node] manages the controllers of a machine. It creates them from the
    configured nodes ([newWithFactory]), starts and closes them, and brings
    them in line with a changed list of nodes ([reconcileWithFactory]):
    controllers of nodes that are gone are closed, new ones are started,
    changed ones are replaced, all others are left alone.

    Controllers are objects: a [Node] holds references ([nat]) to them, and
    what starting, closing and replacing does is the interface
    [ControllerOps], after the three function variables of node/machine.go.
    How the controllers work inside is Lifecycle.v. *)

From Stdlib Require Import Ascii.
From S2P Require Import Prelude GoStrings Panel Conf.

Module Machine.
Import GoStrings.

(** ** The interface to the controllers *)

Inductive HY2Action :=
| HY2Disabled                                 (* [SetHysteriaPortForwardDisabled] *)
| HY2Cleanup                                  (* [cleanupHysteriaPortForwardRuntime] *)
| HY2Reconcile (infos : list Panel.NodeInfo). (* [reconcileHysteriaPortForward] *)

Class ControllerOps := {
  World : Type;                               (* the controllers and all they act on *)
  CPlane : Type;                              (* control planes *)
  EdgeBridges : Type;                         (* the two bridges to the edge agent *)
  noBridges : EdgeBridges;
  (** [NewControllerWithControlPlane], and setting the bridges of the result *)
  newController : CPlane → Conf.NodeConfig → Panel.NodeInfo → Conf.RealtimeConfig → EdgeBridges →
    World → nat * World;
  startControllerForMachine : nat → World → World * option GoError;
  closeControllerForMachine : nat → World → World * option GoError;
  (** the old and the new controller; whether the old one is still active *)
  replaceControllerForMachine : nat → nat → World → World * (bool * option GoError);
  setBridges : nat → EdgeBridges → World → World;
  portForward : HY2Action → World → World
}.

(** A control plane factory with the network behind it. *)
Record ControlPlaneFactory `{ControllerOps} := mkFactory {
  factoryNew : Conf.NodeConfig → result CPlane;
  GetNodeInfo : CPlane → result (option Panel.NodeInfo)
}.

(** ** Data *)

Record MachineOptions := mkMachineOptions { ContinueOnError : bool }.

Record NodeFailure := mkNodeFailure { nf_Config : Conf.NodeConfig; nf_Err : option GoError }.

Record ReconcileResult := mkReconcileResult {
  Added : Z;
  Removed : Z;
  Restarted : Z;
  Unchanged : Z;
  Skipped : Z;
  FullReloadRequired : bool;
  Failures : list NodeFailure
}.

Definition emptyResult : ReconcileResult := mkReconcileResult 0 0 0 0 0 false [].

Definition bumpAdded r := mkReconcileResult (Added r + 1) (Removed r) (Restarted r) (Unchanged r) (Skipped r) (FullReloadRequired r) (Failures r).
Definition bumpRemoved r := mkReconcileResult (Added r) (Removed r + 1) (Restarted r) (Unchanged r) (Skipped r) (FullReloadRequired r) (Failures r).
Definition bumpRestarted r := mkReconcileResult (Added r) (Removed r) (Restarted r + 1) (Unchanged r) (Skipped r) (FullReloadRequired r) (Failures r).
Definition bumpUnchanged r := mkReconcileResult (Added r) (Removed r) (Restarted r) (Unchanged r + 1) (Skipped r) (FullReloadRequired r) (Failures r).
Definition bumpSkipped r := mkReconcileResult (Added r) (Removed r) (Restarted r) (Unchanged r) (Skipped r + 1) (FullReloadRequired r) (Failures r).
Definition requireFullReload r := mkReconcileResult (Added r) (Removed r) (Restarted r) (Unchanged r) (Skipped r) true (Failures r).

(** [handleMachineFailure]: the failure is recorded; it ends the operation
    unless [ContinueOnError] is set. *)
Definition handleMachineFailure (opts : MachineOptions) (cfg : Conf.NodeConfig) (err : GoError) r
    : ReconcileResult * option GoError :=
  let r := bumpSkipped (mkReconcileResult (Added r) (Removed r) (Restarted r) (Unchanged r) (Skipped r)
             (FullReloadRequired r) (Failures r ++ [mkNodeFailure cfg (Some err)])) in
  (r, if ContinueOnError opts then None else Some err).

Definition machineNodeKey (cfg : Conf.NodeConfig) : string :=
  let apiHost := TrimRight Conf.is_slash (TrimSpace (Conf.APIHost cfg)) in
  if bool_decide (apiHost = "") || (Conf.NodeID cfg <=? 0) then ""
  else apiHost +:+ "#" +:+ Itoa (Conf.NodeID cfg).

Definition nodeHasCustomRoutes (info : Panel.NodeInfo) : bool :=
  match Panel.Common info with
  | Some c => negb (bool_decide (default [] (Panel.Routes c) = []))
  | None => false
  end.

Definition sameMachineNode (oldConfig : Conf.NodeConfig) (oldInfo : Panel.NodeInfo)
    (newConfig : Conf.NodeConfig) (newInfo : Panel.NodeInfo) : bool :=
  bool_decide (oldConfig = newConfig ∧ oldInfo = newInfo).

Section machine.
Context `{ControllerOps} {RO : RangeOrder string}.

Record machineSlot := mkSlot {
  sl_Config : Conf.NodeConfig;
  sl_Info : Panel.NodeInfo;
  sl_Controller : nat
}.

Record machineCandidate := mkCandidate {
  cd_Config : Conf.NodeConfig;
  cd_Info : Panel.NodeInfo;
  cd_ControlPlane : CPlane
}.

Record Node := mkNode {
  controllers : list nat;
  NodeInfos : list Panel.NodeInfo;
  configs : list Conf.NodeConfig;
  failures : list NodeFailure;
  bridges : EdgeBridges;
  autoHY2PortForward : bool;
  cleanupHY2OnDisable : bool;
  continueOnError : bool
}.

Implicit Types (n : Node) (w : World).

Definition withSlots (cs : list nat) (infos : list Panel.NodeInfo) (cfgs : list Conf.NodeConfig)
    (fs : list NodeFailure) n : Node :=
  mkNode cs infos cfgs fs (bridges n) (autoHY2PortForward n) (cleanupHY2OnDisable n) (continueOnError n).

Definition withHY2 (auto cleanup : bool) n : Node :=
  mkNode (controllers n) (NodeInfos n) (configs n) (failures n) (bridges n) auto cleanup (continueOnError n).

Definition withBridges (b : EdgeBridges) n : Node :=
  mkNode (controllers n) (NodeInfos n) (configs n) (failures n) b (autoHY2PortForward n)
    (cleanupHY2OnDisable n) (continueOnError n).

(** ** Creating *)

Definition recordFailure (cfg : Conf.NodeConfig) (err : GoError) n : Node :=
  withSlots (controllers n) (NodeInfos n) (configs n) (failures n ++ [mkNodeFailure cfg (Some err)]) n.

(** [failureSummary] *)
Definition failurePart (f : NodeFailure) : string :=
  let node := Conf.APIHost (nf_Config f) +:+ "-" +:+ Itoa (Conf.NodeID (nf_Config f)) in
  match nf_Err f with
  | None => node
  | Some e => node +:+ ": " +:+ err_msg e
  end.

Definition failureSummary n : string :=
  match failures n with
  | [] => "none"
  | fs => Join "; " (failurePart <$> fs)
  end.

(** What the factory and the panel say about a node. *)
Definition fetchInfo (factory : ControlPlaneFactory) (cfg : Conf.NodeConfig)
    : result (CPlane * option Panel.NodeInfo) :=
  match factoryNew factory cfg with
  | Err e => Err e
  | Ok cp => match GetNodeInfo factory cp with
             | Err e => Err e
             | Ok info => Ok (cp, info)
             end
  end.

Definition nodeError (what : string) (cfg : Conf.NodeConfig) (e : GoError) : GoError :=
  wrapErr (what +:+ " [" +:+ Conf.APIHost cfg +:+ "-" +:+ Itoa (Conf.NodeID cfg) +:+ "] error: " +:+ err_msg e) e.

(** One iteration of [newWithFactory]. *)
Definition newNodeStep (factory : ControlPlaneFactory) (realtime : Conf.RealtimeConfig) (opts : MachineOptions)
    (cfg : Conf.NodeConfig) n w : result (Node * World) :=
  let skip what e := if ContinueOnError opts then Ok (recordFailure cfg e n, w) else Err (nodeError what cfg e) in
  match factoryNew factory cfg with
  | Err e => skip "create control plane" e
  | Ok cp =>
      match GetNodeInfo factory cp with
      | Err e => skip "get node info" e
      | Ok None => skip "get node info" (errorf "received empty node info")
      | Ok (Some info) =>
          let '(c, w) := newController cp cfg info realtime (bridges n) w in
          Ok (withSlots (controllers n ++ [c]) (NodeInfos n ++ [info]) (configs n ++ [cfg]) (failures n) n, w)
      end
  end.

Fixpoint newNodes (factory : ControlPlaneFactory) (realtime : Conf.RealtimeConfig) (opts : MachineOptions)
    (nodes : list Conf.NodeConfig) n w : result (Node * World) :=
  match nodes with
  | [] => Ok (n, w)
  | cfg :: nodes =>
      match newNodeStep factory realtime opts cfg n w with
      | Err e => Err e
      | Ok (n, w) => newNodes factory realtime opts nodes n w
      end
  end.

Definition newWithFactory (nodes : list Conf.NodeConfig) (realtime : Conf.RealtimeConfig)
    (factory : ControlPlaneFactory) (opts : MachineOptions) w : result (Node * World) :=
  match newNodes factory realtime opts nodes (mkNode [] [] [] [] noBridges false false (ContinueOnError opts)) w with
  | Err e => Err e
  | Ok (n, w) =>
      if bool_decide (nodes ≠ [] ∧ controllers n = []) && negb (ContinueOnError opts)
      then Err (errorf ("no available nodes after initialization: " +:+ failureSummary n))
      else Ok (n, w)
  end.

(** ** Settings *)

Definition SetAutoHY2PortForward (enabled : bool) n : Node :=
  let cleanup := if enabled then false else cleanupHY2OnDisable n in
  let cleanup := if autoHY2PortForward n && negb enabled then true else cleanup in
  withHY2 enabled cleanup n.

Definition SetEdgeBridges (b : EdgeBridges) n w : Node * World :=
  (withBridges b n, foldl (λ w c, setBridges c b w) w (controllers n)).

Definition reconcileAutoHY2PortForward n w : Node * World :=
  if negb (autoHY2PortForward n) then
    if cleanupHY2OnDisable n then (withHY2 false false n, portForward HY2Cleanup w)
    else (n, portForward HY2Disabled w)
  else
    let n := withHY2 true false n in
    (n, portForward (HY2Reconcile (NodeInfos n)) w).

(** ** Starting and closing *)

Definition activeConfigs (fallback : list Conf.NodeConfig) n : list Conf.NodeConfig :=
  if bool_decide (configs n ≠ [] ∨ controllers n = []) then configs n else fallback.

(** The loop of [Start] that goes on after an error: what is kept. *)
Fixpoint startEach (cfgs : list Conf.NodeConfig) (cs : list nat) (infos : list Panel.NodeInfo) w
    : World * (list nat * list Panel.NodeInfo * list Conf.NodeConfig * list NodeFailure) :=
  match cfgs, cs with
  | cfg :: cfgs, c :: cs =>
      match startControllerForMachine c w with
      | (w, Some e) =>
          let '(w, _) := closeControllerForMachine c w in
          let '(w, (keep, keepInfos, keepCfgs, fs)) := startEach cfgs cs (tail infos) w in
          (w, (keep, keepInfos, keepCfgs, mkNodeFailure cfg (Some e) :: fs))
      | (w, None) =>
          let '(w, (keep, keepInfos, keepCfgs, fs)) := startEach cfgs cs (tail infos) w in
          (w, (c :: keep, take 1 infos ++ keepInfos, cfg :: keepCfgs, fs))
      end
  | _, _ => (w, ([], [], [], []))
  end.

(** The loop that ends at the first error. *)
Fixpoint startAll (cfgs : list Conf.NodeConfig) (cs : list nat) w : World * option GoError :=
  match cfgs, cs with
  | cfg :: cfgs, c :: cs =>
      match startControllerForMachine c w with
      | (w, Some e) =>
          (w, Some (errorf ("start node controller [" +:+ Conf.APIHost cfg +:+ "-" +:+ Itoa (Conf.NodeID cfg)
                            +:+ "] error: " +:+ err_msg e)))
      | (w, None) => startAll cfgs cs w
      end
  | _, _ => (w, None)
  end.

Definition Start (nodes : list Conf.NodeConfig) n w : Node * World * option GoError :=
  let cfgs := activeConfigs nodes n in
  if negb (bool_decide (length cfgs = length (controllers n)))
  then (n, w, Some (errorf "node controller/config count mismatch"))
  else if continueOnError n then
    let '(w, (keep, keepInfos, keepCfgs, fs)) := startEach cfgs (controllers n) (NodeInfos n) w in
    let n := withSlots keep keepInfos keepCfgs (failures n ++ fs) n in
    let '(n, w) := reconcileAutoHY2PortForward n w in (n, w, None)
  else
    match startAll cfgs (controllers n) w with
    | (w, Some e) => (n, w, Some e)
    | (w, None) => let '(n, w) := reconcileAutoHY2PortForward n w in (n, w, None)
    end.

Fixpoint closeAll (cs : list nat) w : World * option GoError :=
  match cs with
  | [] => (w, None)
  | c :: cs =>
      match closeControllerForMachine c w with
      | (w, Some e) => (w, Some e)
      | (w, None) => closeAll cs w
      end
  end.

Definition Close n w : Node * World * option GoError :=
  match closeAll (controllers n) w with
  | (w, Some e) => (n, w, Some e)
  | (w, None) =>
      let '(n, w) := reconcileAutoHY2PortForward (withSlots [] [] (configs n) (failures n) n) w in
      (n, w, None)
  end.

(** ** Reconciling *)

Fixpoint slots (cfgs : list Conf.NodeConfig) (infos : list Panel.NodeInfo) (cs : list nat)
    (current : gmap string machineSlot) : result (gmap string machineSlot) :=
  match cfgs, infos, cs with
  | cfg :: cfgs, info :: infos, c :: cs =>
      let key := machineNodeKey cfg in
      if bool_decide (key = "") then Err (errorf "current node config requires api host and node id")
      else slots cfgs infos cs (<[key := mkSlot cfg info c]> current)
  | _, _, _ => Ok current
  end.

Definition currentMachineSlots n : result (gmap string machineSlot) :=
  let cfgs := activeConfigs [] n in
  if negb (bool_decide (length cfgs = length (controllers n) ∧ length (NodeInfos n) = length (controllers n)))
  then Err (errorf "node controller/config/info count mismatch")
  else slots cfgs (NodeInfos n) (controllers n) ∅.

(** The state of the loop over the desired nodes. *)
Record refresh := mkRefresh {
  rf_result : ReconcileResult;
  desiredKeys : gset string;
  candidates : gmap string machineCandidate;
  orderedKeys : list string
}.

Definition withResult (r : ReconcileResult) (s : refresh) : refresh :=
  mkRefresh r (desiredKeys s) (candidates s) (orderedKeys s).

(** A failure of one node. *)
Definition refreshFail (opts : MachineOptions) (cfg : Conf.NodeConfig) (err : GoError) (s : refresh)
    : result refresh :=
  match handleMachineFailure opts cfg err (rf_result s) with
  | (r, None) => Ok (withResult r s)
  | (_, Some e) => Err e
  end.

Definition refreshStep (factory : ControlPlaneFactory) (opts : MachineOptions)
    (current : gmap string machineSlot) (cfg : Conf.NodeConfig) (s : refresh) : result refresh :=
  let key := machineNodeKey cfg in
  if bool_decide (key = "") then refreshFail opts cfg (errorf "node config requires api host and node id") s
  else if bool_decide (key ∈ desiredKeys s)
  then refreshFail opts cfg (errorf ("duplicate node config: " +:+ key)) s
  else
    let s := mkRefresh (rf_result s) ({[key]} ∪ desiredKeys s) (candidates s) (orderedKeys s ++ [key]) in
    match fetchInfo factory cfg with
    | Err e => refreshFail opts cfg e s
    | Ok (_, None) =>
        match current !! key with
        | Some _ => Ok (withResult (bumpSkipped (rf_result s)) s)
        | None => refreshFail opts cfg (errorf "received empty node info") s
        end
    | Ok (cp, Some info) =>
        Ok (mkRefresh (rf_result s) (desiredKeys s) (<[key := mkCandidate cfg info cp]> (candidates s))
              (orderedKeys s))
    end.

Fixpoint refreshAll (factory : ControlPlaneFactory) (opts : MachineOptions)
    (current : gmap string machineSlot) (desired : list Conf.NodeConfig) (s : refresh) : result refresh :=
  match desired with
  | [] => Ok s
  | cfg :: desired =>
      match refreshStep factory opts current cfg s with
      | Err e => Err e
      | Ok s => refreshAll factory opts current desired s
      end
  end.

(** Custom routes are part of the core's configuration: a change of a node
    that has some needs a new core. *)
Definition machineReconcileNeedsFullReload (current : gmap string machineSlot) (desiredKeys : gset string)
    (candidates : gmap string machineCandidate) : bool :=
  existsb (λ e, negb (bool_decide (e.1 ∈ desiredKeys)) && nodeHasCustomRoutes (sl_Info e.2)) (range_list current)
  || existsb (λ e,
       match current !! e.1 with
       | None => nodeHasCustomRoutes (cd_Info e.2)
       | Some slot =>
           negb (sameMachineNode (sl_Config slot) (sl_Info slot) (cd_Config e.2) (cd_Info e.2))
           && (nodeHasCustomRoutes (sl_Info slot) || nodeHasCustomRoutes (cd_Info e.2))
       end) (range_list candidates).

(** The loop that closes the controllers of nodes that are gone. *)
Fixpoint closeRemoved (desiredKeys : gset string) (l : list (string * machineSlot)) (r : ReconcileResult) w
    : World * result ReconcileResult :=
  match l with
  | [] => (w, Ok r)
  | (key, slot) :: l =>
      if bool_decide (key ∈ desiredKeys) then closeRemoved desiredKeys l r w
      else
        match closeControllerForMachine (sl_Controller slot) w with
        | (w, Some e) => (w, Err (nodeError "close removed node" (sl_Config slot) e))
        | (w, None) => closeRemoved desiredKeys l (bumpRemoved r) w
        end
  end.

(** The state of the loop over the ordered keys: the slots of the next
    configuration. *)
Record building := mkBuilding { next : list machineSlot; bd_result : ReconcileResult }.

Definition buildStep (realtime : Conf.RealtimeConfig) (opts : MachineOptions) (b : EdgeBridges)
    (current : gmap string machineSlot) (candidates : gmap string machineCandidate)
    (key : string) (s : building) w : World * result building :=
  match candidates !! key, current !! key with
  | None, Some slot => (w, Ok (mkBuilding (next s ++ [slot]) (bumpUnchanged (bd_result s))))
  | None, None => (w, Ok s)
  | Some candidate, hasCurrent =>
      let same := match hasCurrent with
                  | Some slot => sameMachineNode (sl_Config slot) (sl_Info slot) (cd_Config candidate) (cd_Info candidate)
                  | None => false
                  end in
      match hasCurrent, same with
      | Some slot, true => (w, Ok (mkBuilding (next s ++ [slot]) (bumpUnchanged (bd_result s))))
      | _, _ =>
          let cfg := cd_Config candidate in
          let info := cd_Info candidate in
          let '(c, w) := newController (cd_ControlPlane candidate) cfg info realtime b w in
          let '(w, (oldStillActive, err)) :=
            match hasCurrent with
            | Some slot => replaceControllerForMachine (sl_Controller slot) c w
            | None => let '(w, err) := startControllerForMachine c w in (w, (false, err))
            end in
          match err with
          | Some e =>
              let '(w, kept) :=
                match hasCurrent with
                | None => ((closeControllerForMachine c w).1, [])
                | Some slot => (w, if oldStillActive : bool then [slot] else [])
                end in
              match handleMachineFailure opts cfg e (bd_result s) with
              | (_, Some e) => (w, Err e)
              | (r, None) => (w, Ok (mkBuilding (next s ++ kept) r))
              end
          | None =>
              (w, Ok (mkBuilding (next s ++ [mkSlot cfg info c])
                        (match hasCurrent with
                         | Some _ => bumpRestarted (bd_result s)
                         | None => bumpAdded (bd_result s)
                         end)))
          end
      end
  end.

Fixpoint buildAll (realtime : Conf.RealtimeConfig) (opts : MachineOptions) (b : EdgeBridges)
    (current : gmap string machineSlot) (candidates : gmap string machineCandidate)
    (keys : list string) (s : building) w : World * result building :=
  match keys with
  | [] => (w, Ok s)
  | key :: keys =>
      match buildStep realtime opts b current candidates key s w with
      | (w, Err e) => (w, Err e)
      | (w, Ok s) => buildAll realtime opts b current candidates keys s w
      end
  end.

Definition reconcileWithFactory (desired : list Conf.NodeConfig) (realtime : Conf.RealtimeConfig)
    (factory : ControlPlaneFactory) (opts : MachineOptions) n w : Node * World * result ReconcileResult :=
  match currentMachineSlots n with
  | Err e => (n, w, Err e)
  | Ok current =>
      match refreshAll factory opts current desired (mkRefresh emptyResult ∅ ∅ []) with
      | Err e => (n, w, Err e)
      | Ok s =>
          let r := rf_result s in
          if bool_decide (candidates s = ∅ ∧ Failures r ≠ []) && ContinueOnError opts
          then (withSlots (controllers n) (NodeInfos n) (configs n) (Failures r) n, w, Ok r)
          else if machineReconcileNeedsFullReload current (desiredKeys s) (candidates s)
          then (n, w, Ok (requireFullReload r))
          else
            match closeRemoved (desiredKeys s) (range_list current) r w with
            | (w, Err e) => (n, w, Err e)
            | (w, Ok r) =>
                match buildAll realtime opts (bridges n) current (candidates s) (orderedKeys s) (mkBuilding [] r) w with
                | (w, Err e) => (n, w, Err e)
                | (w, Ok b) =>
                    let n := withSlots (sl_Controller <$> next b) (sl_Info <$> next b) (sl_Config <$> next b)
                               (Failures (bd_result b)) n in
                    let '(n, w) := reconcileAutoHY2PortForward n w in (n, w, Ok (bd_result b))
                end
            end
      end
  end.

(** [FetchNodeInfos] (node/info_fetch.go): the settings of the nodes, without
    controllers. *)
Fixpoint fetchNodeInfos (factory : ControlPlaneFactory) (opts : MachineOptions) (cfgs : list Conf.NodeConfig)
    (infos : list Panel.NodeInfo) (fs : list NodeFailure)
    : list Panel.NodeInfo * list NodeFailure * option GoError :=
  match cfgs with
  | [] => (infos, fs, None)
  | cfg :: cfgs =>
      let skip what e :=
        if ContinueOnError opts then fetchNodeInfos factory opts cfgs infos (fs ++ [mkNodeFailure cfg (Some e)])
        else ([], fs, Some (nodeError what cfg e)) in
      match factoryNew factory cfg with
      | Err e => skip "create control plane" e
      | Ok cp =>
          match GetNodeInfo factory cp with
          | Err e => skip "get node info" e
          | Ok None => skip "get node info" (errorf "received empty node info")
          | Ok (Some info) => fetchNodeInfos factory opts cfgs (infos ++ [info]) fs
          end
      end
  end.

Definition FetchNodeInfos (factory : ControlPlaneFactory) (opts : MachineOptions) (cfgs : list Conf.NodeConfig)
    : list Panel.NodeInfo * list NodeFailure * option GoError :=
  let '(infos, fs, err) := fetchNodeInfos factory opts cfgs [] [] in
  match err with
  | Some _ => (infos, fs, err)
  | None =>
      if bool_decide (cfgs ≠ [] ∧ infos = []) && negb (ContinueOnError opts)
      then ([], fs, Some (errorf "no node infos resolved"))
      else (infos, fs, None)
  end.

End machine.
End Machine.
