(* ===== verification/MachineProps.v ===== *)
(** * Properties of machine mode

    The controllers a [Node] lists are exactly the ones that run: creating,
    starting and reconciling keep that invariant ([reconcile_running],
    [Start_machine]). A reconciliation without failures ends at the desired
    nodes without touching the controllers that need no change
    ([reconcile_converges]); one that needs a new core, or that learned nothing,
    changes nothing ([reconcile_untouched]). The one way out of the
    invariant is an error without [ContinueOnError]
    ([reconcile_error_stale]). *)

From S2P Require Import Prelude GoStrings Panel Conf Machine.

Module MachineProps.
Import Machine.

(** ** What the controllers promise

    [running] are the controllers whose tasks run; [known] all there are. *)
Class ControllerLaws `{ControllerOps} := {
  running : World → gset nat;
  known : World → gset nat;
  new_law : ∀ cp cfg info rt b w c w', newController cp cfg info rt b w = (c, w') →
    (c ∉ known w) ∧ known w' = {[c]} ∪ known w ∧ running w' = running w;
  start_law : ∀ c w w' err, startControllerForMachine c w = (w', err) →
    known w' = known w
    ∧ running w' = match err with None => {[c]} ∪ running w | Some _ => running w end;
  close_law : ∀ c w w' err, closeControllerForMachine c w = (w', err) →
    known w' = known w ∧ running w' = running w ∖ {[c]};
  replace_law : ∀ old c w w' active err, c ∉ running w → c ≠ old →
    replaceControllerForMachine old c w = (w', (active, err)) →
    known w' = known w
    ∧ running w' = match err with
                   | None => {[c]} ∪ running w ∖ {[old]}
                   | Some _ => if active then running w else running w ∖ {[old]}
                   end;
  forward_law : ∀ a w,
    known (portForward a w) = known w ∧ running (portForward a w) = running w
}.

Section props.
Context `{CL : ControllerLaws} {RO : RangeOrder string}.
Implicit Types (n : Node) (w : World).

Definition slotKey (s : machineSlot) : string := machineNodeKey (sl_Config s).

(** The node lists the slots [l]. *)
Definition lists n (l : list machineSlot) : Prop :=
  controllers n = sl_Controller <$> l ∧ NodeInfos n = sl_Info <$> l ∧ configs n = sl_Config <$> l.

(** The slots are of different nodes, with different controllers that run. *)
Definition sound (l : list machineSlot) w : Prop :=
  NoDup (slotKey <$> l) ∧ NoDup (sl_Controller <$> l) ∧ Forall (λ s, slotKey s ≠ "") l
  ∧ (∀ s, s ∈ l → sl_Controller s ∈ running w) ∧ running w ⊆ known w.

(** The current slots, as the map of [currentMachineSlots]. *)
Lemma slots_spec l current m :
  slots (sl_Config <$> l) (sl_Info <$> l) (sl_Controller <$> l) current = Ok m →
  NoDup (slotKey <$> l) → (∀ s, s ∈ l → current !! slotKey s = None) →
  (∀ key s, m !! key = Some s ↔ current !! key = Some s ∨ s ∈ l ∧ key = slotKey s).
Proof.
  revert current. induction l as [|s l IH]; intros current; cbn [fmap list_fmap slots].
  { intros [= <-] _ _ key s'. split; [by left|]. intros [?|[Hin _]]; [done|by apply elem_of_nil in Hin]. }
  case_bool_decide as Hk; [done|]. intros Hm Hnd Hfresh. cbn in Hnd. apply NoDup_cons in Hnd as [Hs Hnd].
  intros key s'. rewrite (IH _ Hm Hnd).
  - fold (slotKey s). rewrite lookup_insert_Some, elem_of_cons. destruct s as [cfg info c]. cbn.
    split.
    + intros [[[<- <-]|[Hne ?]]|[? ?]]; [right; by split; [left|]|by left|right; by split; [right|]].
    + intros [Hc|[[->|Hin] ->]]; [|left; by left|right; done].
      left. right. split; [|done]. intros <-. rewrite (Hfresh (mkSlot cfg info c)) in Hc; [done|left].
  - intros s'' Hin. rewrite lookup_insert_ne; [apply Hfresh; by right|].
    intros Heq. apply Hs. apply list_elem_of_fmap. exists s''. split; [|done]. exact Heq.
Qed.

Lemma currentMachineSlots_spec n l w m :
  lists n l → sound l w → currentMachineSlots n = Ok m → ∀ key s, m !! key = Some s ↔ s ∈ l ∧ key = slotKey s.
Proof.
  intros (Hc & Hi & Hf) (Hnd & _). unfold currentMachineSlots, activeConfigs.
  assert (Hcfg : (if bool_decide (configs n ≠ [] ∨ controllers n = []) then configs n else []) = sl_Config <$> l).
  { rewrite Hf, Hc. case_bool_decide as Hb; [done|]. destruct l; [done|]. exfalso. apply Hb. by left. }
  rewrite Hcfg. destruct (negb _); [done|]. intros Hm key s. rewrite Hi, Hc in Hm. rewrite (slots_spec l ∅ m Hm Hnd) by (intros; by rewrite lookup_empty).
  rewrite lookup_empty. naive_solver.
Qed.

(** ** Refreshing *)

Section refresh.
Context (factory : ControlPlaneFactory) (opts : MachineOptions) (current : gmap string machineSlot).

Definition counted (r : ReconcileResult) : Prop := Z.of_nat (length (Failures r)) <= Skipped r.

Lemma handleMachineFailure_spec cfg err r r' :
  handleMachineFailure opts cfg err r = (r', None) →
  Skipped r' = Skipped r + 1 ∧ FullReloadRequired r' = FullReloadRequired r ∧ (counted r → counted r').
Proof.
  unfold handleMachineFailure, counted. destruct (ContinueOnError opts); [|done]. intros [= <-]. cbn.
  rewrite length_app. cbn. split_and!; [done|done|lia].
Qed.

(** The state of the refresh, after the desired nodes [done]. *)
Record refreshed (done : list Conf.NodeConfig) (s : refresh) : Prop := {
  rf_keys : NoDup (orderedKeys s);
  rf_nonempty : "" ∉ orderedKeys s;
  rf_desired : ∀ key, key ∈ desiredKeys s ↔ key ∈ orderedKeys s;
  rf_candidates : ∀ key cd, candidates s !! key = Some cd →
    key ∈ orderedKeys s ∧ machineNodeKey (cd_Config cd) = key;
  rf_counted : counted (rf_result s) ∧ 0 <= Skipped (rf_result s) ∧ FullReloadRequired (rf_result s) = false;
  rf_all : Skipped (rf_result s) = 0 →
    orderedKeys s = machineNodeKey <$> done
    ∧ ∀ cfg, cfg ∈ done → ∃ cp info, fetchInfo factory cfg = Ok (cp, Some info)
        ∧ candidates s !! machineNodeKey cfg = Some (mkCandidate cfg info cp)
}.

(** A failure keeps the state and counts. *)
Lemma refreshFail_refreshed done cfg err s s' :
  refreshed done s → refreshFail opts cfg err s = Ok s' → refreshed (done ++ [cfg]) s'.
Proof.
  intros [H1 H2 H3 H4 (H5 & H6 & H7) H8]. unfold refreshFail.
  destruct (handleMachineFailure opts cfg err (rf_result s)) as [r [e|]] eqn:E; [done|]. intros [= <-].
  apply handleMachineFailure_spec in E as (E1 & E2 & E3).
  split; try done; cbn; [by split_and!; [auto|lia|congruence]|lia].
Qed.

(** The keys with one more desired node. *)
Definition pushKey (key : string) (s : refresh) : refresh :=
  mkRefresh (rf_result s) ({[key]} ∪ desiredKeys s) (candidates s) (orderedKeys s ++ [key]).

Lemma refreshStep_refreshed done cfg s s' :
  refreshed done s → refreshStep factory opts current cfg s = Ok s' → refreshed (done ++ [cfg]) s'.
Proof.
  intros Hr. unfold refreshStep. case_bool_decide as Hk; [by apply refreshFail_refreshed|].
  case_bool_decide as Hin; [by apply refreshFail_refreshed|].
  fold (pushKey (machineNodeKey cfg) s). set (key := machineNodeKey cfg) in *.
  destruct Hr as [H1 H2 H3 H4 (H5 & H6 & H7) H8]. rewrite H3 in Hin.
  assert (HK : NoDup (orderedKeys s ++ [key])).
  { apply NoDup_app. split_and!; [done| |apply NoDup_singleton]. intros k Hk' ->%list_elem_of_singleton. done. }
  assert (HN : "" ∉ orderedKeys s ++ [key]).
  { rewrite elem_of_app, list_elem_of_singleton. intros [?|?]; congruence. }
  assert (HD : ∀ k, k ∈ {[key]} ∪ desiredKeys s ↔ k ∈ orderedKeys s ++ [key]).
  { intros k. rewrite elem_of_union, elem_of_singleton, H3, elem_of_app, list_elem_of_singleton. tauto. }
  assert (HC : ∀ k cd, candidates s !! k = Some cd → k ∈ orderedKeys s ++ [key] ∧ machineNodeKey (cd_Config cd) = k).
  { intros k cd Hcd%H4. rewrite elem_of_app. tauto. }
  (* the keys, with the node pushed and counted as skipped *)
  assert (Hpush : ∀ r, counted r → 0 < Skipped r → FullReloadRequired r = false →
            refreshed (done ++ [cfg]) (withResult r (pushKey key s))).
  { intros r Hr1 Hr2 Hr3. split; cbn.
    - apply NoDup_app. split_and!; [done|set_solver|apply NoDup_singleton].
    - set_solver.
    - set_solver.
    - intros k cd Hcd%H4. set_solver.
    - split_and!; [done|lia|done].
    - lia. }
  assert (Hfail : ∀ err s'', refreshFail opts cfg err (pushKey key s) = Ok s'' → refreshed (done ++ [cfg]) s'').
  { intros err s''. unfold refreshFail.
    destruct (handleMachineFailure opts cfg err _) as [r [e|]] eqn:E; [done|]. intros [= <-].
    apply handleMachineFailure_spec in E as (E1 & E2 & E3). cbn in E1, E2, E3. apply Hpush; [auto|lia|congruence]. }
  destruct (fetchInfo factory cfg) as [[cp [info|]]|e] eqn:Hf; [| |by apply Hfail].
  - intros [= <-]. split; cbn; [done|done|done| |by split_and!|].
    + intros k cd. rewrite lookup_insert_Some. intros [[<- <-]|[_ Hcd%HC]]; [|done]. split; [|done].
      apply elem_of_app. right. by left.
    + intros Hz. destruct (H8 Hz) as [Ho Hall]. split; [by rewrite fmap_app, Ho|].
      intros cfg' [Hc| ->%list_elem_of_singleton]%elem_of_app.
      * destruct (Hall _ Hc) as (cp' & info' & Hf' & Hcd). exists cp', info'. split; [done|].
        rewrite lookup_insert_ne; [done|]. intros Heq. apply Hin. rewrite Ho, Heq. by apply list_elem_of_fmap_2.
      * exists cp, info. split; [done|]. apply lookup_insert_eq.
  - destruct (current !! key); [|by apply Hfail]. intros [= <-]. apply Hpush; cbn; [|lia|done].
    unfold counted in *. cbn. lia.
Qed.

Lemma refreshAll_refreshed done desired s s' :
  refreshed done s → refreshAll factory opts current desired s = Ok s' → refreshed (done ++ desired) s'.
Proof.
  revert done s. induction desired as [|cfg desired IH]; intros done s Hr; cbn [refreshAll].
  { intros [= <-]. by rewrite app_nil_r. }
  destruct (refreshStep factory opts current cfg s) as [s1|] eqn:E; [|done]. intros Hall.
  apply (IH _ _ (refreshStep_refreshed _ _ _ _ Hr E)) in Hall. by rewrite <- app_assoc in Hall.
Qed.

Lemma refreshAll_keys d s s' :
  refreshAll factory opts current d s = Ok s' →
  ∀ k, k ∈ orderedKeys s' → k ∈ orderedKeys s ∨ k ∈ machineNodeKey <$> d.
Proof.
  revert s. induction d as [|cfg d IH]; intros s; cbn [refreshAll]; [intros [= <-]; by left|].
  destruct (refreshStep factory opts current cfg s) as [s1|] eqn:E; [|done]. intros Hall k Hk.
  destruct (IH _ Hall k Hk) as [Hk1|Hk1]; [|right; cbn; by right].
  assert (Hstep : orderedKeys s1 = orderedKeys s ∨ orderedKeys s1 = orderedKeys s ++ [machineNodeKey cfg]).
  { revert E. unfold refreshStep, refreshFail. repeat case_match; intros [= <-]; cbn; tauto. }
  destruct Hstep as [Hstep|Hstep]; rewrite Hstep in Hk1; [by left|].
  apply elem_of_app in Hk1 as [?|Hk1]; [by left|]. apply list_elem_of_singleton in Hk1 as ->. right. cbn. left.
Qed.

Lemma refreshed_start : refreshed [] (mkRefresh emptyResult ∅ ∅ []).
Proof.
  split; cbn; [apply NoDup_nil_2|apply not_elem_of_nil|set_solver|by intros ? ? ?|by split_and!|].
  intros _. split; [done|]. intros cfg Hc. by apply elem_of_nil in Hc.
Qed.
End refresh.

(** ** Custom routes *)

Lemma needsFullReload_false current desired cands :
  machineReconcileNeedsFullReload current desired cands = false →
  (∀ key o, current !! key = Some o → key ∉ desired → nodeHasCustomRoutes (sl_Info o) = false)
  ∧ ∀ key cd, cands !! key = Some cd →
      (current !! key = None → nodeHasCustomRoutes (cd_Info cd) = false)
      ∧ ∀ o, current !! key = Some o → ¬ (sl_Config o = cd_Config cd ∧ sl_Info o = cd_Info cd) →
          nodeHasCustomRoutes (sl_Info o) = false ∧ nodeHasCustomRoutes (cd_Info cd) = false.
Proof.
  unfold machineReconcileNeedsFullReload. intros [H1 H2]%orb_false_iff.
  assert (Hex : ∀ A (f : A → bool) (l : list A), existsb f l = false → ∀ x, x ∈ l → f x = false).
  { intros A f l Hl x Hx. destruct (f x) eqn:E; [|done]. rewrite <- Hl. symmetry. apply existsb_exists.
    exists x. split; [by apply list_elem_of_In|done]. }
  split.
  - intros key o Ho Hk. apply elem_of_range_list in Ho. apply (Hex _ _ _ H1) in Ho. cbn in Ho.
    rewrite bool_decide_false in Ho by done. exact Ho.
  - intros key cd Hcd. apply elem_of_range_list in Hcd. apply (Hex _ _ _ H2) in Hcd. cbn in Hcd.
    destruct (current !! key) as [slot|]; [|done]. split; [done|]. intros o [= <-] Hne.
    unfold sameMachineNode in Hcd. rewrite bool_decide_false in Hcd by done. cbn in Hcd. by apply orb_false_iff in Hcd.
Qed.

(** ** Closing the removed nodes *)

Definition removed (desired : gset string) (l : list (string * machineSlot)) : gset nat :=
  list_to_set (sl_Controller <$> (filter (λ e : string * machineSlot, e.1 ∉ desired) l).*2).

Lemma closeRemoved_law desired l r w w' res :
  closeRemoved desired l r w = (w', res) →
  known w' = known w
  ∧ running w' ⊆ running w
  ∧ match res with
    | Ok r' => running w' = running w ∖ removed desired l ∧ Skipped r' = Skipped r
               ∧ FullReloadRequired r' = FullReloadRequired r ∧ Failures r' = Failures r
    | Err _ => True
    end.
Proof.
  revert r w. induction l as [|[key slot] l IH]; intros r w; cbn [closeRemoved].
  { intros [= <- <-]. unfold removed. cbn. split_and!; try done; set_solver. }
  case_bool_decide as Hk.
  - intros Hl. apply IH in Hl. unfold removed in *. by rewrite filter_cons_False by (cbn; tauto).
  - destruct (closeControllerForMachine (sl_Controller slot) w) as [w1 [e|]] eqn:E;
      apply close_law in E as [Hkn Hrun].
    + intros [= <- <-]. split_and!; [done|set_solver|done].
    + intros Hl. apply IH in Hl as (H1 & H2 & H3). rewrite Hkn in H1. split_and!; [done|set_solver|].
      destruct res as [r'|]; [|done]. destruct H3 as (H3 & H4 & H5 & H6). split_and!; try done.
      unfold removed. rewrite filter_cons_True by done. cbn [fmap list_fmap snd list_to_set].
      fold (removed desired l). rewrite H3, Hrun. set_solver.
Qed.

(** ** Building the next slots *)

Section build.
Context (realtime : Conf.RealtimeConfig) (opts : MachineOptions) (b : EdgeBridges).
Context (current : gmap string machineSlot) (candidates : gmap string machineCandidate).

Definition controllerAt (key : string) (c : nat) : Prop :=
  ∃ o, current !! key = Some o ∧ sl_Controller o = c.

(** The node's current slot needs no change, as far as is known. *)
Definition unchanged (key : string) (o : machineSlot) : Prop :=
  ∀ cd, candidates !! key = Some cd → sl_Config o = cd_Config cd ∧ sl_Info o = cd_Info cd.

(** What one step does: it adds the current slot of the node, or a slot with
    a new controller, or nothing; of the controllers, the node's current one
    stops unless it is kept, and the added one runs; a slot that needs no
    change is kept. *)
Definition effect (key : string) (add : list machineSlot) w w' : Prop :=
  known w ⊆ known w'
  ∧ (∀ c, c ∈ running w' ↔ (c ∈ sl_Controller <$> add) ∨ c ∈ running w ∧ ¬ controllerAt key c)
  ∧ (add = [] ∨ (∃ o, current !! key = Some o ∧ add = [o])
     ∨ ∃ cd c, candidates !! key = Some cd ∧ add = [mkSlot (cd_Config cd) (cd_Info cd) c]
         ∧ (c ∉ known w) ∧ c ∈ known w')
  ∧ ∀ o, current !! key = Some o → unchanged key o → add = [o].

(** A step that counts no failure takes the node over as desired, with the
    current controller if nothing changed. *)
Definition takenOver (key : string) (add : list machineSlot) : Prop :=
  ∀ cd, candidates !! key = Some cd → ∃ x, add = [x] ∧ sl_Config x = cd_Config cd ∧ sl_Info x = cd_Info cd
    ∧ ∀ o, current !! key = Some o → sl_Config o = cd_Config cd → sl_Info o = cd_Info cd → x = o.

Lemma controllerAt_Some key o c : current !! key = Some o → controllerAt key c ↔ c = sl_Controller o.
Proof. intros Ho. unfold controllerAt. rewrite Ho. naive_solver. Qed.

Lemma controllerAt_None key c : current !! key = None → ¬ controllerAt key c.
Proof. intros Ho (o & Ho' & _). congruence. Qed.

(** Sets of controllers around a new one. *)
Lemma grow_new (K R R' : gset nat) c :
  c ∉ K → R ⊆ K → R' ⊆ {[c]} ∪ R →
  K ⊆ {[c]} ∪ K ∧ R' ⊆ {[c]} ∪ K ∧ ∀ x, x ∈ R' → x ∈ R ∨ x ∉ K.
Proof. clear. set_solver. Qed.

Lemma buildStep_law key s w w' res :
  running w ⊆ known w → (∀ c, controllerAt key c → c ∈ running w) →
  buildStep realtime opts b current candidates key s w = (w', res) →
  (known w ⊆ known w' ∧ running w' ⊆ known w' ∧ ∀ c, c ∈ running w' → c ∈ running w ∨ c ∉ known w)
  ∧ match res with
    | Err _ => True
    | Ok s' => ∃ add, next s' = next s ++ add ∧ effect key add w w'
        ∧ Skipped (bd_result s) <= Skipped (bd_result s')
        ∧ FullReloadRequired (bd_result s') = FullReloadRequired (bd_result s)
        ∧ (Skipped (bd_result s') = Skipped (bd_result s) → takenOver key add)
    end.
Proof.
  intros Hrk Hcur. unfold buildStep.
  (* the current slot is kept *)
  assert (Hkeep : ∀ o r, current !! key = Some o → Skipped r = Skipped (bd_result s) →
    FullReloadRequired r = FullReloadRequired (bd_result s) → takenOver key [o] →
    ∃ add, next (mkBuilding (next s ++ [o]) r) = next s ++ add ∧ effect key add w w
      ∧ Skipped (bd_result s) <= Skipped r ∧ FullReloadRequired r = FullReloadRequired (bd_result s)
      ∧ (Skipped r = Skipped (bd_result s) → takenOver key add)).
  { intros o r Ho Hs Hf Ht. exists [o]. split_and!; [done| |lia|done|done].
    split_and!; [done| |right; left; eauto|intros o' Ho' _; congruence].
    intros c. cbn. rewrite list_elem_of_singleton. unfold controllerAt. split.
    - intros Hc. destruct (decide (c = sl_Controller o)); [by left|right]. split; [done|].
      intros (o' & Ho' & Hc'). congruence.
    - intros [->|[? _]]; [|done]. apply Hcur. by exists o. }
  destruct (candidates !! key) as [cd|] eqn:Hcd.
  2:{ destruct (current !! key) as [o|] eqn:Ho; intros [= <- <-]; (split; [split_and!; [done|done|by left]|]).
      - apply Hkeep; try done. intros cd Hcd'. congruence.
      - exists []. cbn. rewrite app_nil_r. split_and!; [done| |lia|done|by intros _ cd Hcd'; congruence].
        split_and!; [done| |by left|intros o' Ho'; congruence]. intros c. unfold controllerAt. set_solver. }
  destruct (match current !! key with Some o => sameMachineNode _ _ _ _ | None => false end) eqn:Hsame.
  { destruct (current !! key) as [o|] eqn:Ho; [|done]. apply bool_decide_eq_true in Hsame as [Hc Hi].
    intros [= <- <-]. split; [split_and!; [done|done|by left]|]. apply Hkeep; try done.
    intros cd' Hcd'. exists o. split_and!; [done|congruence|congruence|]. congruence. }
  destruct (newController (cd_ControlPlane cd) (cd_Config cd) (cd_Info cd) realtime b w) as [c w1] eqn:Hnew.
  apply new_law in Hnew as (Hfresh & Hk1 & Hr1).
  (* the current slot is not the desired one *)
  assert (Hchanged : ∀ o, current !! key = Some o → sl_Config o = cd_Config cd → sl_Info o = cd_Info cd → False).
  { intros o Ho H1 H2. rewrite Ho in Hsame. apply bool_decide_eq_false in Hsame. tauto. }
  destruct (current !! key) as [o|] eqn:Ho.
  - destruct (replaceControllerForMachine (sl_Controller o) c w1) as [w2 [active err]] eqn:Hrep.
    assert (Hold : sl_Controller o ∈ running w) by (apply Hcur; by apply (controllerAt_Some key o)).
    apply replace_law in Hrep as [Hk2 Hr2]; [|rewrite Hr1; clear -Hfresh Hrk; set_solver|clear -Hfresh Hrk Hold; set_solver].
    destruct err as [e|].
    + destruct (handleMachineFailure opts (cd_Config cd) e (bd_result s)) as [r [e'|]] eqn:Hh.
      * intros [= <- <-]. split; [|done]. rewrite Hk2, Hk1. apply grow_new; [done|done|].
        rewrite Hr2, Hr1. clear. destruct active; set_solver.
      * intros [= <- <-]. apply handleMachineFailure_spec in Hh as (E1 & E2 & _).
        split; [rewrite Hk2, Hk1; apply grow_new; [done|done|]; rewrite Hr2, Hr1; clear; destruct active; set_solver|].
        exists (if active then [o] else []). cbn [next bd_result].
        split_and!; [done| |lia|done|lia]. split_and!; [rewrite Hk2, Hk1; apply union_subseteq_r| | |].
        -- intros c'. rewrite Hr2, Hr1, (controllerAt_Some key o) by done.
           assert (Hrun : sl_Controller o ∈ running w) by (apply Hcur; by apply (controllerAt_Some key o)).
           clear -Hrun. destruct active; cbn; [rewrite list_elem_of_singleton|rewrite elem_of_nil, elem_of_difference, elem_of_singleton; tauto].
           destruct (decide (c' = sl_Controller o)); naive_solver.
        -- destruct active; [right; left; eauto|by left].
        -- intros o' [= <-]%(eq_trans (eq_sym Ho)) Hun. exfalso. destruct (Hun cd Hcd). by apply (Hchanged o).
    + intros [= <- <-]. split; [rewrite Hk2, Hk1; apply grow_new; [done|done|]; rewrite Hr2, Hr1; clear; set_solver|].
      exists [mkSlot (cd_Config cd) (cd_Info cd) c]. cbn [next bd_result].
      split_and!; [done| |cbn; lia|done|].
      * split_and!; [rewrite Hk2, Hk1; apply union_subseteq_r| |right; right; exists cd, c; split_and!; [done|done|done|rewrite Hk2, Hk1; clear; set_solver]
          |intros o' [= <-]%(eq_trans (eq_sym Ho)) Hun; exfalso; destruct (Hun cd Hcd); by apply (Hchanged o)].
        intros c'. rewrite Hr2, Hr1, (controllerAt_Some key o) by done. cbn. rewrite list_elem_of_singleton. clear. set_solver.
      * intros _ cd' Hcd'. rewrite Hcd in Hcd'. injection Hcd' as <-. eexists. split_and!; [done|done|done|].
        intros o' Ho' ? ?. exfalso. rewrite Ho in Ho'. injection Ho' as <-. by eapply Hchanged.
  - destruct (startControllerForMachine c w1) as [w2 err] eqn:Hst. apply start_law in Hst as [Hk2 Hr2].
    destruct err as [e|].
    + destruct (closeControllerForMachine c w2) as [w3 err] eqn:Hcl. apply close_law in Hcl as [Hk3 Hr3]. cbn [fst].
      destruct (handleMachineFailure opts (cd_Config cd) e (bd_result s)) as [r [e'|]] eqn:Hh.
      * intros [= <- <-]. split; [|done]. rewrite Hk3, Hk2, Hk1. apply grow_new; [done|done|].
        rewrite Hr3, Hr2, Hr1. clear. set_solver.
      * intros [= <- <-]. apply handleMachineFailure_spec in Hh as (E1 & E2 & _).
        split; [rewrite Hk3, Hk2, Hk1; apply grow_new; [done|done|]; rewrite Hr3, Hr2, Hr1; clear; set_solver|].
        exists []. cbn [next bd_result]. split_and!; [done| |lia|done|lia].
        split_and!; [rewrite Hk3, Hk2, Hk1; apply union_subseteq_r| |by left|intros o' Ho'; congruence].
        intros c'. rewrite Hr3, Hr2, Hr1. pose proof (controllerAt_None key c' Ho) as Hno.
        assert (Hc : c ∉ running w) by (intros Hc; by apply Hfresh, Hrk).
        clear -Hno Hc. cbn. set_solver.
    + intros [= <- <-]. split; [rewrite Hk2, Hk1; apply grow_new; [done|done|]; rewrite Hr2, Hr1; clear; set_solver|].
      exists [mkSlot (cd_Config cd) (cd_Info cd) c]. cbn [next bd_result].
      split_and!; [done| |cbn; lia|done|].
      * split_and!; [rewrite Hk2, Hk1; apply union_subseteq_r| |right; right; exists cd, c; split_and!; [done|done|done|rewrite Hk2, Hk1; clear; set_solver]
          |intros o' Ho'; congruence].
        intros c'. rewrite Hr2, Hr1. pose proof (controllerAt_None key c' Ho) as Hno. cbn. rewrite list_elem_of_singleton. clear -Hno. set_solver.
      * intros _ cd' Hcd'. rewrite Hcd in Hcd'. injection Hcd' as <-. eexists. split_and!; [done|done|done|].
        intros o' Ho'. congruence.
Qed.

(** The loop over the keys [all], from the world [w0] that the current
    controllers of these keys run in; [seen] are the keys it has gone
    through. *)
Section loop.
Context (w0 : World) (all : list string).
Context (Hknown0 : running w0 ⊆ known w0).
Context (Hcur0 : ∀ key c, key ∈ all → controllerAt key c → c ∈ running w0).
Context (Hinj : ∀ key key' c, controllerAt key c → controllerAt key' c → key = key').
Context (Hkeys : ∀ key o, current !! key = Some o → slotKey o = key).
Context (Hcand : ∀ key cd, candidates !! key = Some cd → machineNodeKey (cd_Config cd) = key).

Record built (seen : list string) (l : list machineSlot) w : Prop := {
  bu_known : known w0 ⊆ known w ∧ running w ⊆ known w;
  bu_keys : (slotKey <$> l) `sublist_of` seen;
  bu_nodup : NoDup (sl_Controller <$> l);
  bu_listed : ∀ x, x ∈ l → sl_Controller x ∈ known w ∧
    (controllerAt (slotKey x) (sl_Controller x) ∨ sl_Controller x ∉ known w0);
  bu_running : ∀ c, c ∈ running w ↔ (c ∈ sl_Controller <$> l) ∨
    c ∈ running w0 ∧ ∀ key, key ∈ seen → ¬ controllerAt key c;
  bu_kept : ∀ key o, key ∈ seen → current !! key = Some o → unchanged key o → o ∈ l;
  bu_from : ∀ x, x ∈ l → current !! slotKey x = Some x ∨
    ∃ cd, candidates !! slotKey x = Some cd ∧ sl_Config x = cd_Config cd ∧ sl_Info x = cd_Info cd
          ∧ ∀ o, current !! slotKey x = Some o → ¬ unchanged (slotKey x) o
}.

Lemma built_step seen l w key add w' :
  key ∈ all → key ∉ seen → built seen l w → effect key add w w' → running w' ⊆ known w' →
  built (seen ++ [key]) (l ++ add) w'.
Proof.
  intros Hin_all Hkey [[Hk1 Hk2] Hsub Hnd Hl Hr Hkept Hfrom] (Hk & Hr' & Hadd & Hun) Hkn.
  assert (Hnot : ∀ x, x ∈ l → slotKey x ≠ key).
  { intros x Hx Heq. apply Hkey. rewrite <- Heq. eapply elem_of_sublist; [|exact Hsub]. by apply list_elem_of_fmap_2. }
  (* the controller of an added slot *)
  assert (Hnew : ∀ x, x ∈ add → slotKey x = key ∧ sl_Controller x ∈ known w'
    ∧ (controllerAt key (sl_Controller x) ∨ sl_Controller x ∉ known w) ∧ add = [x]).
  { intros x Hx. destruct Hadd as [->|[(o & Ho & ->)|(cd & c & Hcd & -> & Hc1 & Hc2)]].
    - by apply elem_of_nil in Hx.
    - apply list_elem_of_singleton in Hx as ->. split_and!; [by apply Hkeys| |left; by exists o|done].
      apply Hkn, Hr'. left. by apply list_elem_of_fmap_2, list_elem_of_singleton.
    - apply list_elem_of_singleton in Hx as ->. split_and!; [by apply Hcand|done|by right|done]. }
  split.
  - split; [|done]. by etransitivity.
  - rewrite fmap_app. apply sublist_app; [done|].
    destruct add as [|x add]; [apply sublist_nil_l|].
    destruct (Hnew x ltac:(left)) as (Hx & _ & _ & [= ->]). cbn. by rewrite Hx.
  - rewrite fmap_app. apply NoDup_app. split_and!; [done| |].
    + intros c (x & -> & Hx)%list_elem_of_fmap (y & Hc & Hy)%list_elem_of_fmap.
      destruct (Hnew y Hy) as (_ & _ & Hyc & _). destruct (Hl x Hx) as [Hxk Hxc].
      destruct Hyc as [Hyc|Hyc]; [|congruence]. rewrite <- Hc in Hyc.
      destruct Hxc as [Hxc|Hxc]; [by apply (Hnot x Hx), (Hinj _ _ (sl_Controller x))|].
      apply Hxc. apply Hknown0. by apply (Hcur0 key).
    + destruct add as [|x add]; [apply NoDup_nil_2|].
      destruct (Hnew x ltac:(left)) as (_ & _ & _ & [= ->]). apply NoDup_singleton.
  - intros x [Hx|Hx]%elem_of_app.
    + destruct (Hl x Hx) as [? ?]. split; [by apply Hk|done].
    + destruct (Hnew x Hx) as (-> & Hxk & Hxc & _). split; [done|]. destruct Hxc as [|Hxc]; [by left|right].
      intros Hin. by apply Hxc, Hk1.
  - intros c. rewrite Hr', Hr, fmap_app, elem_of_app. split.
    + intros [?|[[?|[? Hs]] Hno]]; [tauto|tauto|]. right. split; [done|].
      intros k [Hin| ->%list_elem_of_singleton]%elem_of_app; [by apply Hs|done].
    + intros [[Hc|Hc]|[Hc Hs]]; [|by left|].
      * right. split; [by left|]. apply list_elem_of_fmap in Hc as (x & -> & Hx). intros Hat.
        destruct (Hl x Hx) as [_ [Hxc|Hxc]]; [by apply (Hnot x Hx), (Hinj _ _ (sl_Controller x))|].
        apply Hxc, Hknown0. by apply (Hcur0 key).
      * right. split; [|apply Hs; apply elem_of_app; right; by left].
        right. split; [done|]. intros k Hin. apply Hs, elem_of_app. by left.
  - intros k o [Hin| ->%list_elem_of_singleton]%elem_of_app Ho Hu; apply elem_of_app; [left; by apply (Hkept k)|].
    right. rewrite (Hun o) by done. by left.
  - intros x [Hx|Hx]%elem_of_app; [by apply Hfrom|]. destruct (Hnew x Hx) as (Hxk & _).
    rewrite Hxk. destruct Hadd as [->|[(o & Ho & ->)|(cd & c & Hcd & -> & Hcf & _)]].
    + by apply elem_of_nil in Hx.
    + apply list_elem_of_singleton in Hx as ->. by left.
    + apply list_elem_of_singleton in Hx as ->. right. exists cd. split_and!; try done.
      intros o Ho Hu. specialize (Hun o Ho Hu). injection Hun as <-.
      apply Hcf, Hk1, Hknown0, (Hcur0 key); [done|]. by eexists.
Qed.

Lemma buildAll_built seen keys s w w' s' :
  NoDup (seen ++ keys) → (∀ key, key ∈ keys → key ∈ all) → built seen (next s) w →
  buildAll realtime opts b current candidates keys s w = (w', Ok s') →
  built (seen ++ keys) (next s') w' ∧ Skipped (bd_result s) <= Skipped (bd_result s')
  ∧ FullReloadRequired (bd_result s') = FullReloadRequired (bd_result s)
  ∧ (Skipped (bd_result s') = Skipped (bd_result s) →
     (∀ key, key ∈ keys → is_Some (candidates !! key)) →
     ∃ adds, next s' = next s ++ adds ∧ Forall2 (λ key x, takenOver key [x]) keys adds).
Proof.
  revert seen s w. induction keys as [|key keys IH]; intros seen s w Hnd Hall_keys Hb; cbn [buildAll].
  { intros [= <- <-]. rewrite app_nil_r. split_and!; [done|lia|done|]. intros _ _. exists [].
    by rewrite app_nil_r. }
  assert (Hkey : key ∉ seen).
  { apply NoDup_app in Hnd as (_ & Hdis & _). intros Hin. apply (Hdis _ Hin). left. }
  destruct (buildStep realtime opts b current candidates key s w) as [w1 [s1|]] eqn:E; [|done].
  pose proof (bu_known _ _ _ Hb) as [Hk0 Hk].
  apply buildStep_law in E as [(Hk1 & Hrk & _) (add & Hadd & Heff & Hs1 & Hf1 & Ht)]; [|done|].
  2:{ intros c Hc. apply (bu_running _ _ _ Hb). right. split; [apply (Hcur0 key); [apply Hall_keys; left|done]|].
      intros k Hin Hat. apply Hkey. by rewrite <- (Hinj _ _ _ Hat Hc). }
  intros Hall. assert (Hb1 : built (seen ++ [key]) (next s1) w1).
  { rewrite Hadd. eapply built_step; try done. apply Hall_keys. left. }
  assert (Hnd1 : NoDup ((seen ++ [key]) ++ keys)) by by rewrite <- app_assoc.
  destruct (IH _ _ _ Hnd1 ltac:(intros k Hin; apply Hall_keys; by right) Hb1 Hall) as (Hb' & Hs' & Hf' & Ht'). rewrite <- app_assoc in Hb'.
  split_and!; [done|lia|congruence|]. intros Hz Hsome.
  destruct Ht' as (adds & Hadds & Hall2); [lia|intros k Hin; apply Hsome; by right|].
  destruct (Hsome key ltac:(left)) as [cd Hcd]. specialize (Ht ltac:(lia)).
  destruct (Ht cd Hcd) as (x & -> & _). exists (x :: adds).
  rewrite Hadds, Hadd, <- app_assoc. split; [done|]. by constructor.
Qed.
End loop.

Lemma buildStep_full key s w w' s' :
  buildStep realtime opts b current candidates key s w = (w', Ok s') →
  FullReloadRequired (bd_result s') = FullReloadRequired (bd_result s).
Proof.
  unfold buildStep. repeat case_match; intros Heq; simplify_eq; try done; cbn;
    by match goal with H : handleMachineFailure _ _ _ _ = _ |- _ => apply handleMachineFailure_spec in H as (_ & ? & _) end.
Qed.

Lemma buildAll_full keys s w w' s' :
  buildAll realtime opts b current candidates keys s w = (w', Ok s') →
  FullReloadRequired (bd_result s') = FullReloadRequired (bd_result s).
Proof.
  revert s w. induction keys as [|key keys IH]; intros s w; cbn [buildAll]; [by intros [= <- <-]|].
  destruct (buildStep _ _ _ _ _ _ _ _) as [w1 [s1|]] eqn:E; [|done]. intros Hall%IH.
  apply buildStep_full in E. congruence.
Qed.

(** Whatever happens, only new controllers get to run. *)
Lemma buildAll_only_new keys s w w' res :
  running w ⊆ known w → (∀ key c, key ∈ keys → controllerAt key c → c ∈ running w) → NoDup keys →
  (∀ key key' c, controllerAt key c → controllerAt key' c → key = key') →
  buildAll realtime opts b current candidates keys s w = (w', res) →
  ∀ c, c ∈ running w' → c ∈ running w ∨ c ∉ known w.
Proof.
  intros Hrk Hcur Hnd Hinj. revert s w Hrk Hcur. induction keys as [|key keys IH]; intros s w Hrk Hcur; cbn [buildAll].
  { intros [= <- <-] c Hc. by left. }
  apply NoDup_cons in Hnd as [Hkey Hnd].
  destruct (buildStep realtime opts b current candidates key s w) as [w1 r1] eqn:E.
  apply buildStep_law in E as [(Hk1 & Hrk1 & Hnew) Hres]; [|done|intros c; apply Hcur; left].
  destruct r1 as [s1|e].
  - intros Hall c Hc. destruct Hres as (add & _ & (_ & Hr & _) & _).
    destruct (IH Hnd s1 w1 Hrk1) with (c := c) as [Hc1|Hc1]; [|done|done| |].
    + intros k c' Hin Hat. apply Hr. right. split; [apply (Hcur k); [by right|done]|].
      intros Hat'. apply Hkey. by rewrite <- (Hinj _ _ _ Hat Hat').
    + by apply Hnew.
    + right. intros Hin. by apply Hc1, Hk1.
  - intros [= <- <-]. exact Hnew.
Qed.
End build.

(** ** Reconciling *)

(** The node and its world: it lists slots of different nodes, and exactly the
    listed controllers of the machine run. *)
Definition managed n w (l : list machineSlot) : Prop := lists n l ∧ sound l w.

Lemma lists_unique n l l' : lists n l → lists n l' → l = l'.
Proof.
  intros (H1 & H2 & H3) (H1' & H2' & H3'). rewrite H1 in H1'. rewrite H2 in H2'. rewrite H3 in H3'.
  clear H1 H2 H3. revert l' H1' H2' H3'. induction l as [|[cfg i c] l IH]; intros [|[cfg' i' c'] l'];
    cbn; try done. intros [= -> ?] [= -> ?] [= -> ?]. f_equal. by apply IH.
Qed.

Lemma forward_managed n w n' w' :
  reconcileAutoHY2PortForward n w = (n', w') →
  known w' = known w ∧ running w' = running w ∧ ∀ l, lists n l → lists n' l.
Proof.
  unfold reconcileAutoHY2PortForward.
  destruct (negb _); [destruct (cleanupHY2OnDisable n)|]; intros [= <- <-];
    split_and!; by try apply forward_law.
Qed.

Section reconcile.
Context (desired : list Conf.NodeConfig) (realtime : Conf.RealtimeConfig) (factory : ControlPlaneFactory)
  (opts : MachineOptions).
Context n w (l : list machineSlot) (Hm : managed n w l).

(** The facts about the current slots that the loops need. *)
Lemma current_facts current :
  currentMachineSlots n = Ok current →
  (∀ key c, controllerAt current key c ↔ ∃ s, s ∈ l ∧ slotKey s = key ∧ sl_Controller s = c)
  ∧ (∀ key key' c, controllerAt current key c → controllerAt current key' c → key = key')
  ∧ (∀ key o, current !! key = Some o → slotKey o = key)
  ∧ ∀ keys, removed keys (range_list current)
            = list_to_set (sl_Controller <$> filter (λ s, slotKey s ∉ keys) l).
Proof.
  intros Hc. destruct Hm as [Hl Hs]. pose proof (currentMachineSlots_spec _ _ _ _ Hl Hs Hc) as Hspec.
  destruct Hs as (Hk & Hctl & _).
  assert (Hat : ∀ key c, controllerAt current key c ↔ ∃ s, s ∈ l ∧ slotKey s = key ∧ sl_Controller s = c).
  { intros key c. unfold controllerAt. setoid_rewrite Hspec. naive_solver. }
  split_and!; [done| | |].
  - intros key key' c (s & Hin & <- & <-)%Hat (s' & Hin' & <- & Heq)%Hat.
    apply list_elem_of_lookup in Hin as [i Hi]. apply list_elem_of_lookup in Hin' as [j Hj].
    assert (i = j) as ->; [|congruence].
    eapply (NoDup_lookup (sl_Controller <$> l)); [done| |]; rewrite list_lookup_fmap.
    + rewrite Hi. reflexivity.
    + rewrite Hj. cbn. by rewrite Heq.
  - intros key o [_ ->]%Hspec. done.
  - intros keys. apply set_eq. intros c. unfold removed. rewrite !elem_of_list_to_set, !list_elem_of_fmap.
    setoid_rewrite list_elem_of_fmap. setoid_rewrite list_elem_of_filter. split.
    + intros (s & -> & [key s'] & -> & Hn & Hin%elem_of_range_list). cbn in *.
      apply Hspec in Hin as [Hin ->]. eauto.
    + intros (s & -> & Hn & Hin). exists s. split; [done|]. exists (slotKey s, s). split_and!; [done|done|].
      apply elem_of_range_list. by apply Hspec.
Qed.

(** A reconciliation that went through to the end. *)
Lemma reconcile_finished n' w' r :
  reconcileWithFactory desired realtime factory opts n w = (n', w', Ok r) →
  (FullReloadRequired r = true ∧ n' = n ∧ w' = w)
  ∨ (Failures r ≠ [] ∧ counted r ∧ FullReloadRequired r = false
     ∧ n' = withSlots (controllers n) (NodeInfos n) (configs n) (Failures r) n ∧ w' = w)
  ∨ FullReloadRequired r = false
    ∧ ∃ current s w1 r1 b w2 n1,
        currentMachineSlots n = Ok current ∧ refreshed factory desired s
        ∧ known w1 = known w ∧ running w1 = running w ∖ removed (desiredKeys s) (range_list current)
        ∧ Skipped r1 = Skipped (rf_result s) ∧ r = bd_result b
        ∧ buildAll realtime opts (bridges n) current (candidates s) (orderedKeys s) (mkBuilding [] r1) w1 = (w2, Ok b)
        ∧ lists n1 (next b) ∧ reconcileAutoHY2PortForward n1 w2 = (n', w')
        ∧ machineReconcileNeedsFullReload current (desiredKeys s) (candidates s) = false.
Proof.
  unfold reconcileWithFactory. destruct (currentMachineSlots n) as [current|] eqn:Hc; [|done].
  destruct (refreshAll _ _ _ _ _) as [s|] eqn:Hs; [|done].
  apply (refreshAll_refreshed _ _ _ [] desired) in Hs; [|apply refreshed_start]. cbn in Hs.
  destruct (rf_counted _ _ _ Hs) as (Hcount & Hpos & Hfull).
  destruct (bool_decide _ && _) eqn:Hkeep.
  { intros [= <- <- <-]. right. left. bool_to_prop. tauto. }
  destruct (machineReconcileNeedsFullReload _ _ _) eqn:Hfr0.
  { intros [= <- <- <-]. by left. }
  destruct (closeRemoved _ _ _ w) as [w1 [r1|]] eqn:Hcl; [|done].
  apply closeRemoved_law in Hcl as (Hk1 & _ & Hr1 & Hs1 & Hf1 & _).
  destruct (buildAll _ _ _ _ _ _ _ w1) as [w2 [b|]] eqn:Hb; [|done].
  destruct (reconcileAutoHY2PortForward _ w2) as [n2 w3] eqn:Hf. intros [= <- <- <-]. right. right.
  assert (Hfr : FullReloadRequired (bd_result b) = FullReloadRequired r1).
  { by apply buildAll_full in Hb. }
  split; [congruence|]. exists current, s, w1, r1, b, w2.
  eexists (withSlots (sl_Controller <$> next b) (sl_Info <$> next b) (sl_Config <$> next b) (Failures (bd_result b)) n).
  split_and!; try done; congruence.
Qed.

(** The slots after a reconciliation that went through. *)
Lemma finished_built current s w1 r1 b w2 :
  currentMachineSlots n = Ok current → refreshed factory desired s →
  known w1 = known w → running w1 = running w ∖ removed (desiredKeys s) (range_list current) →
  buildAll realtime opts (bridges n) current (candidates s) (orderedKeys s) (mkBuilding [] r1) w1 = (w2, Ok b) →
  built current (candidates s) w1 (orderedKeys s) (next b) w2
  ∧ Skipped r1 <= Skipped (bd_result b)
  ∧ (Skipped (bd_result b) = Skipped r1 → (∀ key, key ∈ orderedKeys s → is_Some (candidates s !! key)) →
     Forall2 (λ key x, takenOver current (candidates s) key [x]) (orderedKeys s) (next b)).
Proof.
  intros Hc Hs Hk1 Hr1 Hb. destruct (current_facts current Hc) as (Hat & Hinj & Hkeys & Hrem).
  destruct Hm as [Hl (Hnd & Hctl & Hne & Hrun & Hsub)].
  assert (Hsub1 : running w1 ⊆ known w1) by (rewrite Hk1, Hr1; set_solver).
  destruct (buildAll_built realtime opts (bridges n) current (candidates s) w1 (orderedKeys s) Hsub1)
    with (seen := @nil string) (keys := orderedKeys s) (s := mkBuilding [] r1) (w := w1) (w' := w2) (s' := b)
    as (Hbuilt & Hskip & _ & Htaken); try done.
  - intros key c Hin Hkc. rewrite Hr1, elem_of_difference. apply Hat in Hkc as (x & Hx & Hxk & <-).
    split; [by apply Hrun|]. rewrite Hrem, elem_of_list_to_set, list_elem_of_fmap.
    intros (y & Hyx & [Hy Hyl]%list_elem_of_filter). apply Hy, (rf_desired _ _ _ Hs).
    assert (slotKey y = key) as ->; [|done].
    apply (Hinj _ _ (sl_Controller x)); apply Hat; [by exists y|by exists x].
  - intros key cd Hcd. by apply (rf_candidates _ _ _ Hs).
  - apply (rf_keys _ _ _ Hs).
  - split; [done|apply sublist_nil_l|apply NoDup_nil_2| | | |].
    1,4: by intros x Hx%elem_of_nil.
    2: by intros key o Hx%elem_of_nil.
    + intros c. cbn. rewrite elem_of_nil. split; [|naive_solver]. intros Hcr. right. split; [done|].
      intros key Hin. by apply elem_of_nil in Hin.
  - split_and!; [done|done|]. intros Hz Hsome. destruct (Htaken Hz Hsome) as (adds & Hadds & Hall).
    by rewrite Hadds.
Qed.

Lemma finished_managed current s w1 r1 b w2 n1 n' w' :
  currentMachineSlots n = Ok current → refreshed factory desired s →
  known w1 = known w → running w1 = running w ∖ removed (desiredKeys s) (range_list current) →
  buildAll realtime opts (bridges n) current (candidates s) (orderedKeys s) (mkBuilding [] r1) w1 = (w2, Ok b) →
  lists n1 (next b) → reconcileAutoHY2PortForward n1 w2 = (n', w') →
  managed n' w' (next b)
  ∧ ∀ c, c ∈ running w' ↔ (c ∈ controllers n') ∨ (c ∈ running w ∧ c ∉ controllers n).
Proof.
  intros Hc Hs Hk1 Hr1 Hb Hln Hf. pose proof Hm as [Hl (Hnd & Hctl & Hne & Hrun & Hsub)].
  destruct (finished_built _ _ _ _ _ _ Hc Hs Hk1 Hr1 Hb) as ([[Hkn Hrk] Hsublist Hnd' Hlisted Hrunning _ _] & _).
  destruct (current_facts current Hc) as (Hat & Hinj & Hkeys & Hrem).
  destruct (forward_managed _ _ _ _ Hf) as (Hk' & Hr' & Hlists). split.
  - split; [by apply Hlists|]. unfold sound. rewrite Hk', Hr'. split_and!; try done.
    + eapply sublist_NoDup; [apply (rf_keys _ _ _ Hs)|done].
    + apply Forall_forall. intros x Hx Hnil. apply (rf_nonempty _ _ _ Hs). rewrite <- Hnil.
      eapply elem_of_sublist; [|exact Hsublist]. by apply list_elem_of_fmap_2.
    + intros x Hx. apply Hrunning. left. by apply list_elem_of_fmap_2.
  - intros c. rewrite Hr', Hrunning. destruct (Hlists _ Hln) as [-> _].
    destruct (decide (c ∈ sl_Controller <$> next b)) as [|Hnext]; [tauto|].
    rewrite Hr1, elem_of_difference, Hrem. destruct Hl as [-> _].
    rewrite elem_of_list_to_set, !list_elem_of_fmap. setoid_rewrite list_elem_of_filter. split.
    + intros [?|[[Hcr Hnr] Hno]]; [tauto|]. right. split; [done|]. intros (x & -> & Hx).
      destruct (decide (slotKey x ∈ desiredKeys s)) as [Hd|Hd]; [|by apply Hnr; exists x].
      apply (rf_desired _ _ _ Hs) in Hd. apply (Hno _ Hd), Hat. by exists x.
    + intros [?|[Hcr Hno]]; [tauto|]. right. split_and!; [done| |].
      * intros (x & -> & _ & Hx). apply Hno. by exists x.
      * intros key _ (x & Hx & _ & <-)%Hat. apply Hno. by exists x.
Qed.

(** Without a change of the slots, the listed controllers run as before. *)
Lemma unfinished_running c : c ∈ running w ↔ (c ∈ controllers n) ∨ (c ∈ running w ∧ c ∉ controllers n).
Proof.
  destruct Hm as [Hl (_ & _ & _ & Hrun & _)]. destruct (decide (c ∈ controllers n)) as [Hin|]; [|tauto].
  split; [tauto|]. intros _. destruct Hl as [Hlc _]. rewrite Hlc in Hin.
  apply list_elem_of_fmap in Hin as (s & -> & Hs). by apply Hrun.
Qed.

(** Which controllers run after a reconciliation. *)
Lemma reconcile_ran n' w' r :
  reconcileWithFactory desired realtime factory opts n w = (n', w', Ok r) →
  ∃ l', managed n' w' l'
    ∧ ∀ c, c ∈ running w' ↔ (c ∈ controllers n') ∨ (c ∈ running w ∧ c ∉ controllers n).
Proof.
  intros Hrec. apply reconcile_finished in Hrec as [(_ & -> & ->)|[(_ & _ & _ & -> & ->)|Hrec]].
  - exists l. split; [done|apply unfinished_running].
  - exists l. split; [exact Hm|apply unfinished_running].
  - destruct Hrec as (_ & current & s & w1 & r1 & b & w2 & n1 & Hc & Hs & Hk1 & Hr1 & _ & _ & Hb & Hln & Hf & _).
    exists (next b). by eapply finished_managed.
Qed.

(** C6. The invariant of machine mode. If the listed controllers are of different
    nodes and all run, then so they are after a reconciliation that answers a
    result; and of the controllers that were listed, those that are not listed
    any more do not run. So no controller is lost while it runs, and none is
    started twice for a node. *)
Theorem reconcile_running n' w' r :
  reconcileWithFactory desired realtime factory opts n w = (n', w', Ok r) →
  ∃ l', managed n' w' l'
    ∧ ∀ c, c ∈ running w' ↔ (c ∈ controllers n') ∨ (c ∈ running w ∧ c ∉ controllers n).
Proof. apply reconcile_ran. Qed.

(** Where a reconciliation without failures ends. *)
Lemma reconcile_converged n' w' r :
  reconcileWithFactory desired realtime factory opts n w = (n', w', Ok r) →
  FullReloadRequired r = false → Skipped r = 0 →
  configs n' = desired
  ∧ Forall2 (λ cfg info, ∃ cp, fetchInfo factory cfg = Ok (cp, Some info)) desired (NodeInfos n')
  ∧ ∀ x i, x ∈ l → configs n' !! i = Some (sl_Config x) → NodeInfos n' !! i = Some (sl_Info x) →
      controllers n' !! i = Some (sl_Controller x).
Proof.
  intros Hrec Hfull Hskip. pose proof Hm as [Hl Hsound].
  apply reconcile_finished in Hrec as [(? & _)|[(Hne & Hc & _)|Hrec]]; [congruence| |].
  { exfalso. unfold counted in Hc. apply Hne. destruct (Failures r); [done|]. cbn in Hc. lia. }
  destruct Hrec as (_ & current & s & w1 & r1 & b & w2 & n1 & Hc & Hs & Hk1 & Hr1 & Hs1 & -> & Hb & Hln & Hf & _).
  destruct (finished_built _ _ _ _ _ _ Hc Hs Hk1 Hr1 Hb) as (_ & Hle & Htaken).
  destruct (rf_counted _ _ _ Hs) as (_ & Hpos & _).
  destruct (rf_all _ _ _ Hs) as [Hkeys Hcands]; [lia|].
  assert (Hall : Forall2 (λ cfg x, takenOver current (candidates s) (machineNodeKey cfg) [x]) desired (next b)).
  { assert (Ht : Forall2 (λ key x, takenOver current (candidates s) key [x]) (machineNodeKey <$> desired) (next b)).
    { rewrite <- Hkeys. apply Htaken; [lia|]. intros key Hin. rewrite Hkeys in Hin. apply list_elem_of_fmap in Hin as (cfg & -> & Hin).
      destruct (Hcands cfg Hin) as (cp & info & _ & ->). eauto. }
    by apply Forall2_fmap_l in Ht. }
  assert (Hcfg : Forall2 (λ cfg x, sl_Config x = cfg ∧ ∃ cp, fetchInfo factory cfg = Ok (cp, Some (sl_Info x))
    ∧ ∀ o, current !! machineNodeKey cfg = Some o → sl_Config o = cfg → sl_Info o = sl_Info x → x = o) desired (next b)).
  { apply Forall2_same_length_lookup. split; [by eapply Forall2_length|]. intros i cfg x Hi Hx.
    pose proof (Forall2_lookup_lr _ _ _ _ _ _ Hall Hi Hx) as Ht. cbn in Ht.
    destruct (Hcands cfg (list_elem_of_lookup_2 _ _ _ Hi)) as (cp & info & Hfetch & Hcd).
    destruct (Ht _ Hcd) as (y & [= ->] & H1 & H2 & H3). cbn in H1, H2. split; [done|].
    exists cp. rewrite H2. split; [done|]. intros o Ho Ho1 Ho2. apply H3; done. }
  destruct (forward_managed _ _ _ _ Hf) as (_ & _ & Hlists). destruct (Hlists _ Hln) as (Hctl & Hinfo & Hconf).
  split_and!.
  - rewrite Hconf. clear -Hcfg. induction Hcfg as [|cfg x cfgs xs [<- _] _ IH]; [done|]. cbn. by rewrite IH.
  - rewrite Hinfo. apply Forall2_fmap_r. eapply Forall2_impl; [exact Hcfg|]. intros cfg x (_ & cp & ? & _). by exists cp.
  - rewrite Hconf, Hinfo, Hctl. intros x i Hx. rewrite !list_lookup_fmap.
    destruct (next b !! i) as [y|] eqn:Hy; [|done]. cbn. intros [= Hyc] [= Hyi]. f_equal. f_equal.
    destruct (Forall2_lookup_r _ _ _ _ _ Hcfg Hy) as (cfg & _ & Hcfgy & cp & _ & Huniq).
    apply Huniq; [|congruence|done].
    apply (currentMachineSlots_spec _ _ _ _ Hl Hsound Hc). split; [done|]. unfold slotKey. congruence.
Qed.

(** C33. A reconciliation that does not ask for a full reload (as a change of custom
    routes does, [reconcile_routes]) and skips no node ends at the desired nodes:
    they are listed in their order, with the settings the panel answered, and a node
    whose configuration and settings are what they were keeps its controller. *)
Theorem reconcile_converges n' w' r :
  reconcileWithFactory desired realtime factory opts n w = (n', w', Ok r) →
  FullReloadRequired r = false → Skipped r = 0 →
  configs n' = desired
  ∧ Forall2 (λ cfg info, ∃ cp, fetchInfo factory cfg = Ok (cp, Some info)) desired (NodeInfos n')
  ∧ ∀ x i, x ∈ l → configs n' !! i = Some (sl_Config x) → NodeInfos n' !! i = Some (sl_Info x) →
      controllers n' !! i = Some (sl_Controller x).
Proof. apply reconcile_converged. Qed.

(** Custom routes are built into the core. A reconciliation that does not ask
    for a new core neither drops a node with custom routes, nor takes one up,
    nor changes one. *)
Theorem reconcile_routes n' w' r :
  reconcileWithFactory desired realtime factory opts n w = (n', w', Ok r) →
  (FullReloadRequired r = true → n' = n ∧ w' = w)
  ∧ (FullReloadRequired r = false → ∃ l', managed n' w' l'
      ∧ ∀ x, (x ∈ l ∧ x ∉ l') ∨ (x ∈ l' ∧ x ∉ l) → nodeHasCustomRoutes (sl_Info x) = false).
Proof.
  intros Hrec. apply reconcile_finished in Hrec as [(Hf & -> & ->)|[(_ & _ & Hf & -> & ->)|Hrec]].
  { split; [done|congruence]. }
  { split; [congruence|]. intros _. exists l. split; [exact Hm|]. intros x [[? ?]|[? ?]]; done. }
  destruct Hrec as (Hf0 & current & s & w1 & r1 & b & w2 & n1 & Hc & Hs & Hk1 & Hr1 & _ & _ & Hb & Hln & Hf & Hneed).
  split; [congruence|]. intros _. exists (next b). split; [by eapply finished_managed|].
  destruct (finished_built _ _ _ _ _ _ Hc Hs Hk1 Hr1 Hb) as ([_ Hsub _ _ _ Hkept Hfrom] & _).
  destruct Hm as [Hl Hsound]. pose proof (currentMachineSlots_spec _ _ _ _ Hl Hsound Hc) as Hspec.
  apply needsFullReload_false in Hneed as [Hgone Hchanged].
  intros x [[Hx Hnx]|[Hx Hnx]].
  - destruct (decide (slotKey x ∈ desiredKeys s)) as [Hd|Hd]; [|apply (Hgone (slotKey x)); [by apply Hspec|done]].
    destruct (candidates s !! slotKey x) as [cd|] eqn:Hcd.
    + destruct (decide (sl_Config x = cd_Config cd ∧ sl_Info x = cd_Info cd)) as [Hsame|Hdiff].
      * exfalso. apply Hnx, (Hkept (slotKey x)); [by apply (rf_desired _ _ _ Hs)|by apply Hspec|].
        intros cd' Hcd'. congruence.
      * destruct (Hchanged _ _ Hcd) as [_ Hch]. apply (Hch x); [by apply Hspec|done].
    + exfalso. apply Hnx, (Hkept (slotKey x)); [by apply (rf_desired _ _ _ Hs)|by apply Hspec|].
      intros cd' Hcd'. congruence.
  - destruct (Hfrom x Hx) as [Hcur|(cd & Hcd & _ & Hinfo & Hch)]; [exfalso; apply Hnx; by apply Hspec in Hcur as [? _]|].
    rewrite Hinfo. destruct (Hchanged _ _ Hcd) as [Hnew Hold]. destruct (current !! slotKey x) as [o|] eqn:Ho; [|by apply Hnew].
    apply (Hold o); [done|]. intros Hsame. apply (Hch o eq_refl). intros cd' Hcd'. congruence.
Qed.

(** An error of a node, without [ContinueOnError]. The node keeps its lists,
    but the controllers of the removed nodes, closed before the error, do not
    run any more: they stay listed, and the invariant is lost. *)
Theorem reconcile_error_stale n' w' e current s :
  reconcileWithFactory desired realtime factory opts n w = (n', w', Err e) →
  currentMachineSlots n = Ok current →
  refreshAll factory opts current desired (mkRefresh emptyResult ∅ ∅ []) = Ok s →
  (∀ c w1, (closeControllerForMachine c w1).2 = None) →
  n' = n
  ∧ ∀ x, x ∈ l → slotKey x ∉ machineNodeKey <$> desired →
      sl_Controller x ∈ controllers n' ∧ sl_Controller x ∉ running w'.
Proof.
  intros Hrec Hc Hs Hclose. revert Hrec. unfold reconcileWithFactory. rewrite Hc, Hs.
  destruct (bool_decide _ && _); [done|]. destruct (machineReconcileNeedsFullReload _ _ _); [done|].
  pose proof Hm as [Hl (Hnd & Hctl & _ & Hrun & Hsub)].
  destruct (current_facts current Hc) as (Hat & Hinj & Hkeys & Hrem).
  assert (Hr : refreshed factory desired s).
  { apply (refreshAll_refreshed _ _ _ [] desired) in Hs; [exact Hs|apply refreshed_start]. }
  destruct (closeRemoved (desiredKeys s) (range_list current) (rf_result s) w) as [w1 [r1|e1]] eqn:Hcl.
  2:{ exfalso. clear -Hcl Hclose. revert Hcl. generalize (rf_result s) as r. revert w.
      induction (range_list current) as [|[key slot] sl IH]; intros w r; cbn [closeRemoved]; [done|].
      case_bool_decide; [by apply IH|]. specialize (Hclose (sl_Controller slot) w).
      destruct (closeControllerForMachine (sl_Controller slot) w) as [w2 err]. cbn in Hclose. subst err. by apply IH. }
  apply closeRemoved_law in Hcl as (Hk1 & _ & Hr1 & _).
  destruct (buildAll _ _ _ _ _ _ _ w1) as [w2 [b|e2]] eqn:Hb; [by destruct (reconcileAutoHY2PortForward _ _)|].
  intros [= <- <- <-]. split; [done|]. intros x Hx Hkey. destruct Hl as [-> _].
  split; [by apply list_elem_of_fmap_2|].
  assert (Hdk : slotKey x ∉ desiredKeys s).
  { rewrite (rf_desired _ _ _ Hr). intros Hin. apply Hkey.
    assert (Hincl : ∀ d s0 s1, refreshAll factory opts current d s0 = Ok s1 →
      ∀ k, k ∈ orderedKeys s1 → k ∈ orderedKeys s0 ∨ k ∈ machineNodeKey <$> d) by apply refreshAll_keys.
    destruct (Hincl _ _ _ Hs _ Hin) as [Hnil|?]; [by apply elem_of_nil in Hnil|done]. }
  intros Hin. eapply buildAll_only_new in Hin; [| | |apply (rf_keys _ _ _ Hr)|exact Hinj|exact Hb].
  - destruct Hin as [Hin|Hin].
    + rewrite Hr1, elem_of_difference, Hrem, elem_of_list_to_set in Hin. destruct Hin as [_ Hin].
      apply Hin, list_elem_of_fmap_2, list_elem_of_filter. done.
    + apply Hin. rewrite Hk1. apply Hsub. by apply Hrun.
  - rewrite Hk1, Hr1. set_solver.
  - intros key c Hk Hkc. rewrite Hr1, elem_of_difference, Hrem, elem_of_list_to_set.
    apply Hat in Hkc as (y & Hy & Hyk & <-). split; [by apply Hrun|].
    intros (z & Hz & [Hzk Hzl]%list_elem_of_filter)%list_elem_of_fmap. apply Hzk, (rf_desired _ _ _ Hr).
    assert (slotKey z = key) as ->; [|done]. apply (Hinj _ _ (sl_Controller y)); apply Hat; [by exists z|by exists y].
Qed.
End reconcile.

(** ** What a reconciliation lists *)

(** A configured node is listed, or recorded as one that failed. *)
Definition accounted n (d : Conf.NodeConfig) : Prop :=
  d ∈ nf_Config <$> failures n ∨ machineNodeKey d ∈ machineNodeKey <$> configs n.

Section accounts.
Context (desired : list Conf.NodeConfig) (realtime : Conf.RealtimeConfig) (factory : ControlPlaneFactory) (opts : MachineOptions).

Definition failed (r : ReconcileResult) : list Conf.NodeConfig := nf_Config <$> Failures r.

Lemma handleMachineFailure_failed cfg e r r' err : handleMachineFailure opts cfg e r = (r', err) → failed r' = failed r ++ [cfg].
Proof. unfold handleMachineFailure, failed. intros [= <- _]. cbn. by rewrite fmap_app. Qed.

(** The current slots are those of the listed configurations. *)
Lemma slots_configs cfgs infos cs cur m key x : slots cfgs infos cs cur = Ok m → m !! key = Some x →
  cur !! key = Some x ∨ (sl_Config x ∈ cfgs ∧ slotKey x = key).
Proof.
  revert infos cs cur. induction cfgs as [|cfg cfgs IH]; intros infos cs cur; cbn [slots]; [intros [= <-]; by left|].
  destruct infos as [|info infos], cs as [|c cs]; try (intros [= <-]; by left). case_bool_decide; [done|]. intros Hm Hx.
  destruct (IH _ _ _ Hm Hx) as [[[<- <-]|[_ ?]]%lookup_insert_Some|[? ?]]; [right|by left|right]; (split; [|done]); cbn; [left|by right].
Qed.

Lemma current_configs n current key x : currentMachineSlots n = Ok current → current !! key = Some x →
  sl_Config x ∈ configs n ∧ slotKey x = key.
Proof.
  unfold currentMachineSlots, activeConfigs. destruct (negb _); [done|]. intros Hs Hx.
  destruct (slots_configs _ _ _ _ _ _ _ Hs Hx) as [Hn|[Hin Hk]]; [by rewrite lookup_empty in Hn|]. split; [|done].
  revert Hin. case_bool_decide; [done|]. by intros ?%elem_of_nil.
Qed.

(** What the refresh knows of a desired node. *)
Definition met (current : gmap string machineSlot) (s : refresh) (d : Conf.NodeConfig) : Prop :=
  d ∈ failed (rf_result s) ∨
  (machineNodeKey d ∈ orderedKeys s ∧
   ((∃ cd, candidates s !! machineNodeKey d = Some cd ∧ cd_Config cd = d)
    ∨ (candidates s !! machineNodeKey d = None ∧ is_Some (current !! machineNodeKey d)))).

Lemma refreshFail_met current cfg err s s' d : refreshFail opts cfg err s = Ok s' →
  (d = cfg ∨ met current s d) → met current s' d.
Proof.
  unfold refreshFail. destruct (handleMachineFailure opts cfg err (rf_result s)) as [r [e|]] eqn:E; [done|]. intros [= <-].
  apply handleMachineFailure_failed in E. unfold met. cbn. rewrite E, elem_of_app, list_elem_of_singleton. tauto.
Qed.

Lemma refreshStep_met current done_ cfg s s' d : refreshed factory done_ s → refreshStep factory opts current cfg s = Ok s' →
  (d = cfg ∨ met current s d) → met current s' d.
Proof.
  intros Hr. unfold refreshStep. case_bool_decide; [apply refreshFail_met|].
  case_bool_decide as Hin; [apply refreshFail_met|]. set (key := machineNodeKey cfg) in *.
  fold (pushKey key s). rewrite (rf_desired _ _ _ Hr) in Hin.
  assert (Hpush : met current s d → met current (pushKey key s) d).
  { intros [?|[Hk Hc]]; [by left|]. right. split; [|exact Hc]. apply elem_of_app. by left. }
  assert (Hnone : candidates s !! key = None).
  { destruct (candidates s !! key) as [cd|] eqn:E; [|done]. by apply (rf_candidates _ _ _ Hr) in E as [? _]. }
  assert (Hlast : key ∈ orderedKeys (pushKey key s)) by (cbn; apply elem_of_app; right; by left).
  destruct (fetchInfo factory cfg) as [[cp [info|]]|e].
  - intros [= <-] Hd. destruct (decide (machineNodeKey d = key)) as [E|Hne].
    + destruct Hd as [->|[?|[Hk _]]]; [|by left|by rewrite E in Hk]. right. cbn. split; [exact Hlast|]. left.
      exists (mkCandidate cfg info cp). by rewrite lookup_insert_eq.
    + destruct Hd as [->|Hd]; [done|]. destruct (Hpush Hd) as [?|[Hk Hc]]; [by left|]. right. split; [exact Hk|]. cbn.
      by rewrite lookup_insert_ne.
  - destruct (current !! key) as [slot|] eqn:Ecur.
    + intros [= <-] [->|Hd]; [|by apply Hpush]. right. split; [exact Hlast|]. right. cbn. fold key. split; [done|]. rewrite Ecur. by eexists.
    + intros Hf Hd. eapply refreshFail_met; [exact Hf|]. destruct Hd as [->|Hd]; [by left|right; by apply Hpush].
  - intros Hf Hd. eapply refreshFail_met; [exact Hf|]. destruct Hd as [->|Hd]; [by left|right; by apply Hpush].
Qed.

Lemma refreshAll_met current done_ ds s s' d : refreshed factory done_ s → refreshAll factory opts current ds s = Ok s' →
  (d ∈ ds ∨ met current s d) → met current s' d.
Proof.
  revert done_ s. induction ds as [|cfg ds IH]; intros done_ s Hr; cbn [refreshAll].
  { intros [= <-] [?%elem_of_nil|?]; done. }
  destruct (refreshStep factory opts current cfg s) as [s1|] eqn:E; [|done]. intros Hall Hd.
  apply (IH _ _ (refreshStep_refreshed _ _ _ _ _ _ _ Hr E) Hall). rewrite elem_of_cons in Hd.
  destruct Hd as [[->|?]|?]; [right|by left|right]; (eapply refreshStep_met; [exact Hr|exact E|]); [by left|by right].
Qed.

(** What building keeps and adds for a key. *)
Definition placed (current : gmap string machineSlot) (cands : gmap string machineCandidate) (key : string) (s : building) : Prop :=
  (∀ cd, cands !! key = Some cd → cd_Config cd ∈ failed (bd_result s) ∨ cd_Config cd ∈ sl_Config <$> next s)
  ∧ (cands !! key = None → ∀ x, current !! key = Some x → x ∈ next s).

Definition grows (s s' : building) : Prop :=
  (∀ d, d ∈ failed (bd_result s) → d ∈ failed (bd_result s')) ∧ (∀ x, x ∈ next s → x ∈ next s').

Lemma buildStep_placed b current cands key s w w' s' :
  buildStep realtime opts b current cands key s w = (w', Ok s') →
  grows s s' ∧ placed current cands key s'
  ∧ ∀ x, x ∈ next s' → x ∈ next s ∨ current !! key = Some x ∨ ∃ cd, cands !! key = Some cd ∧ sl_Config x = cd_Config cd.
Proof.
  assert (Hgrow : ∀ r add, failed (bd_result s) `prefix_of` failed r → grows s (mkBuilding (next s ++ add) r)).
  { intros r add [k Hk]. split; cbn; [intros d; rewrite Hk|intros x]; rewrite elem_of_app; tauto. }
  assert (Hadd : ∀ r (y : machineSlot) (P : machineSlot → Prop), P y → ∀ x, x ∈ next (mkBuilding (next s ++ [y]) r) → x ∈ next s ∨ P x).
  { cbn. intros r y P Hy x [?|Hx]%elem_of_app; [by left|]. apply list_elem_of_singleton in Hx as ->. by right. }
  assert (Hnew : ∀ r y, sl_Config y ∈ sl_Config <$> next (mkBuilding (next s ++ [y]) r)).
  { intros r y. cbn. rewrite fmap_app. apply elem_of_app. right. by left. }
  unfold buildStep. destruct (cands !! key) as [cd|] eqn:Ecd.
  2: { destruct (current !! key) as [slot|] eqn:Ecur; intros [= <- <-].
       - split_and!; [by apply Hgrow| |apply Hadd; by left]. unfold placed. rewrite Ecd, Ecur. split; [done|].
         intros _ x [= <-]. cbn. apply elem_of_app. right. by left.
       - split_and!; [by split| |by left]. unfold placed. rewrite Ecd, Ecur. by split. }
  assert (Hplaced : ∀ s', cd_Config cd ∈ failed (bd_result s') ∨ cd_Config cd ∈ sl_Config <$> next s' → placed current cands key s').
  { intros s1 Hs. unfold placed. rewrite Ecd. split; [by intros ? [= <-]|done]. }
  set (info := cd_Info cd). destruct (current !! key) as [slot|] eqn:Ecur.
  - destruct (sameMachineNode _ _ _ _) eqn:Hsame.
    { intros [= <- <-]. split_and!; [by apply Hgrow| |apply Hadd; by left]. apply Hplaced. right.
      unfold sameMachineNode in Hsame. apply bool_decide_eq_true in Hsame as [<- _]. apply Hnew. }
    destruct (newController _ _ _ _ _ w) as [c w1]. destruct (replaceControllerForMachine _ c w1) as [w2 [active [e|]]].
    + destruct (handleMachineFailure opts _ e _) as [r [e'|]] eqn:Eh; [done|]. apply handleMachineFailure_failed in Eh. intros [= <- <-].
      split_and!; [apply Hgrow; rewrite Eh; by apply prefix_app_r| |].
      * apply Hplaced. left. cbn. rewrite Eh. apply elem_of_app. right. by left.
      * intros x. cbn. rewrite elem_of_app. destruct active; [|intros [?|?%elem_of_nil]; [by left|done]].
        rewrite list_elem_of_singleton. intros [?| ->]; [by left|right; by left].
    + intros [= <- <-]. split_and!; [by apply Hgrow|apply Hplaced; right; apply (Hnew _ (mkSlot (cd_Config cd) info c))|].
      apply Hadd. right. by exists cd.
  - destruct (newController _ _ _ _ _ w) as [c w1]. destruct (startControllerForMachine c w1) as [w2 [e|]].
    + destruct (handleMachineFailure opts _ e _) as [r [e'|]] eqn:Eh; [done|]. apply handleMachineFailure_failed in Eh. intros [= <- <-].
      split_and!; [apply Hgrow; rewrite Eh; by apply prefix_app_r| |].
      * apply Hplaced. left. cbn. rewrite Eh. apply elem_of_app. right. by left.
      * intros x. cbn. rewrite app_nil_r. by left.
    + intros [= <- <-]. split_and!; [by apply Hgrow|apply Hplaced; right; apply (Hnew _ (mkSlot (cd_Config cd) info c))|].
      apply Hadd. right. by exists cd.
Qed.

Lemma placed_grows current cands key s s' : grows s s' → placed current cands key s → placed current cands key s'.
Proof.
  intros [Hf Hn] [H1 H2]. split; [|intros Hc x Hx; by apply Hn, H2]. intros cd Hcd. destruct (H1 cd Hcd) as [?|Hin]; [left; by apply Hf|right].
  apply list_elem_of_fmap in Hin as (x & -> & Hx). apply list_elem_of_fmap_2. by apply Hn.
Qed.

Lemma buildAll_placed b current cands keys s w w' s' :
  buildAll realtime opts b current cands keys s w = (w', Ok s') →
  grows s s' ∧ (∀ key, key ∈ keys → placed current cands key s')
  ∧ ∀ x, x ∈ next s' → x ∈ next s ∨ ∃ key, key ∈ keys ∧ (current !! key = Some x ∨ ∃ cd, cands !! key = Some cd ∧ sl_Config x = cd_Config cd).
Proof.
  revert s w. induction keys as [|key keys IH]; intros s w; cbn [buildAll].
  { intros [= <- <-]. split_and!; [by split|by intros ? ?%elem_of_nil|by left]. }
  destruct (buildStep _ _ _ _ _ _ _ _) as [w1 [s1|]] eqn:E; [|done]. intros Hall.
  apply buildStep_placed in E as (Hg1 & Hp1 & Hf1). apply IH in Hall as (Hg & Hp & Hf). split_and!.
  - destruct Hg1, Hg. split; auto.
  - intros k [->|Hk]%elem_of_cons; [by eapply placed_grows|by apply Hp].
  - intros x Hx. destruct (Hf x Hx) as [Hx1|(k & Hk & Hx1)]; [|right; exists k; split; [by right|done]].
    destruct (Hf1 x Hx1) as [?|Hx2]; [by left|]. right. exists key. split; [left|exact Hx2].
Qed.

Lemma closeRemoved_failed keys l r w w' r' : closeRemoved keys l r w = (w', Ok r') → failed r' = failed r.
Proof.
  revert r w. induction l as [|[key slot] l IH]; intros r w; cbn [closeRemoved]; [by intros [= _ <-]|].
  case_bool_decide; [apply IH|]. destruct (closeControllerForMachine _ w) as [w1 [e|]]; [done|]. by intros ->%IH.
Qed.

Lemma forward_lists n w n' w' : reconcileAutoHY2PortForward n w = (n', w') → configs n' = configs n ∧ failures n' = failures n.
Proof. unfold reconcileAutoHY2PortForward. destruct (negb _); [destruct (cleanupHY2OnDisable n)|]; by intros [= <- _]. Qed.

(** A reconciliation accounts for every configured node, and if none failed it
    lists no other. *)
Lemma reconcile_accounts n w n' w' r :
  reconcileWithFactory desired realtime factory opts n w = (n', w', Ok r) → FullReloadRequired r = false →
  (∀ d, d ∈ desired → accounted n' d)
  ∧ (failures n' = [] → ∀ c, c ∈ configs n' → machineNodeKey c ∈ machineNodeKey <$> desired).
Proof.
  unfold reconcileWithFactory. destruct (currentMachineSlots n) as [current|] eqn:Hcur; [|done].
  destruct (refreshAll _ _ _ _ _) as [s|] eqn:Hs; [|done].
  pose proof (λ d Hd, refreshAll_met _ _ _ _ _ d (refreshed_start factory) Hs (or_introl Hd)) as Hmet.
  pose proof (refreshAll_keys _ _ _ _ _ _ Hs) as Hkeys. cbn in Hkeys.
  apply (refreshAll_refreshed _ _ _ [] desired) in Hs; [|apply refreshed_start].
  destruct (bool_decide _ && _) eqn:Hkeep.
  { intros [= <- <- <-] _. apply andb_true_iff in Hkeep as [[Hcand Hne]%bool_decide_eq_true _]. split; [|done].
    intros d Hd. destruct (Hmet d Hd) as [Hf|[_ [(cd & Hcd & _)|[_ [x Hx]]]]]; [by left|by rewrite Hcand, lookup_empty in Hcd|right].
    apply (current_configs n) in Hx as [Hx <-]; [|done]. cbn. by apply (list_elem_of_fmap_2 machineNodeKey). }
  destruct (machineReconcileNeedsFullReload _ _ _); [by intros [= <- <- <-]|].
  destruct (closeRemoved _ _ _ w) as [w1 [r1|]] eqn:Hcl; [|done]. apply closeRemoved_failed in Hcl.
  destruct (buildAll _ _ _ _ _ _ _ w1) as [w2 [b|]] eqn:Hb; [|done].
  destruct (reconcileAutoHY2PortForward _ w2) as [n2 w3] eqn:Hf. intros [= <- <- <-] _. apply forward_lists in Hf as [Hcf Hff].
  apply buildAll_placed in Hb as ([Hgf _] & Hpl & Hfrom). cbn in Hgf, Hcf, Hff. unfold accounted. rewrite Hcf, Hff. split.
  - intros d Hd. destruct (Hmet d Hd) as [Hfd|[Hk [(cd & Hcd & <-)|[Hnone [x Hx]]]]].
    + left. apply Hgf. by rewrite Hcl.
    + destruct (proj1 (Hpl _ Hk) cd Hcd) as [?|Hin]; [by left|right]. by apply list_elem_of_fmap_2.
    + right. pose proof (proj2 (Hpl _ Hk) Hnone x Hx) as Hin. apply (current_configs n) in Hx as [_ Hxk]; [|done]. rewrite <- Hxk.
      apply (list_elem_of_fmap_2 machineNodeKey). by apply list_elem_of_fmap_2.
  - intros _ c (x & -> & Hx)%list_elem_of_fmap. destruct (Hfrom x Hx) as [Hn|(key & Hk & Hx')]; [by apply elem_of_nil in Hn|].
    destruct (Hkeys key Hk) as [Hn|Hin]; [by apply elem_of_nil in Hn|].
    destruct Hx' as [Hx'|(cd & Hcd & ->)].
    + apply (current_configs n) in Hx' as [_ Hx']; [|done]. unfold slotKey in Hx'. by rewrite Hx'.
    + apply (rf_candidates _ _ _ Hs) in Hcd as [_ ->]. done.
Qed.

(** Creating nodes lists those that could be fetched, in order, and records the others. *)
Lemma newNodes_accounts cfgs n w n' w' :
  newNodes factory realtime opts cfgs n w = Ok (n', w') →
  length (controllers n) = length (configs n) →
  length (controllers n') = length (configs n')
  ∧ (∀ d, d ∈ cfgs ∨ d ∈ configs n ∨ d ∈ nf_Config <$> failures n → d ∈ configs n' ∨ d ∈ nf_Config <$> failures n')
  ∧ ∀ c, c ∈ configs n' → c ∈ configs n ∨ c ∈ cfgs.
Proof.
  revert n w. induction cfgs as [|cfg cfgs IH]; intros n w; cbn [newNodes].
  { intros [= <- <-] Hlen. split_and!; [done| |by left]. intros d [?%elem_of_nil|?]; [done|tauto]. }
  destruct (newNodeStep factory realtime opts cfg n w) as [[n1 w1]|] eqn:E; [|done]. intros Hall Hlen.
  assert (Hstep : length (controllers n1) = length (configs n1)
    ∧ ((configs n1 = configs n ++ [cfg] ∧ failures n1 = failures n)
       ∨ (configs n1 = configs n ∧ nf_Config <$> failures n1 = (nf_Config <$> failures n) ++ [cfg]))).
  { unfold newNodeStep in E. destruct (factoryNew factory cfg) as [cp|e]; [destruct (GetNodeInfo factory cp) as [[info|]|e]|].
    1: destruct (newController cp cfg info realtime (bridges n) w) as [c w2]; injection E as <- <-; cbn; rewrite !length_app; cbn; split; [lia|by left].
    all: destruct (ContinueOnError opts); [|done]; injection E as <- <-; cbn; split; [done|right]; by rewrite fmap_app. }
  destruct Hstep as [Hlen1 Hstep]. apply IH in Hall as (Hl & Ha & Hb); [|done]. split_and!; [done| |].
  - intros d Hd. apply Ha. destruct Hstep as [[-> ->]|[-> ->]]; rewrite elem_of_cons in Hd; rewrite elem_of_app, list_elem_of_singleton; tauto.
  - intros c Hc. rewrite elem_of_cons. apply Hb in Hc as [Hc|?]; [|tauto].
    destruct Hstep as [[E1 _]|[E1 _]]; rewrite E1 in Hc; [|tauto]. rewrite elem_of_app, list_elem_of_singleton in Hc. tauto.
Qed.

Lemma startEach_accounts cfgs cs infos w w' keep keepInfos keepCfgs fs : length cs = length cfgs →
  startEach cfgs cs infos w = (w', (keep, keepInfos, keepCfgs, fs)) →
  (∀ d, d ∈ cfgs → d ∈ keepCfgs ∨ d ∈ nf_Config <$> fs) ∧ ∀ c, c ∈ keepCfgs → c ∈ cfgs.
Proof.
  revert cs infos w w' keep keepInfos keepCfgs fs. induction cfgs as [|cfg cfgs IH]; intros [|c cs] infos w w' keep ki kc fs; cbn [startEach]; try done.
  { intros _ [= <- <- <- <- <-]. split; intros ? ?%elem_of_nil; done. }
  intros [= Hlen]. destruct (startControllerForMachine c w) as [w1 [e|]].
  - destruct (closeControllerForMachine c w1) as [w2 err]. destruct (startEach cfgs cs (tail infos) w2) as [w3 [[[k k2] k3] f]] eqn:E.
    apply IH in E as [H1 H2]; [|done]. intros [= <- <- <- <- <-]. split.
    + intros d [->|Hd]%elem_of_cons; [right; cbn; by left|]. destruct (H1 d Hd); [by left|right; cbn; by right].
    + intros x Hx. right. by apply H2.
  - destruct (startEach cfgs cs (tail infos) w1) as [w3 [[[k k2] k3] f]] eqn:E.
    apply IH in E as [H1 H2]; [|done]. intros [= <- <- <- <- <-]. split.
    + intros d [->|Hd]%elem_of_cons; [left; by left|]. destruct (H1 d Hd); [left; by right|by right].
    + intros x [->|Hx]%elem_of_cons; [by left|right; by apply H2].
Qed.

Lemma Start_accounts cfgs n w n' w' : length (controllers n) = length (configs n) → Start cfgs n w = (n', w', None) →
  (∀ d, d ∈ configs n ∨ d ∈ nf_Config <$> failures n → d ∈ configs n' ∨ d ∈ nf_Config <$> failures n')
  ∧ ∀ c, c ∈ configs n' → c ∈ configs n.
Proof.
  intros Hlen. unfold Start, activeConfigs.
  assert (Hact : (if bool_decide (configs n ≠ [] ∨ controllers n = []) then configs n else cfgs) = configs n).
  { case_bool_decide as Hb; [done|]. destruct (configs n); [|destruct Hb; by left]. destruct Hb. right. by destruct (controllers n). }
  rewrite Hact, Hlen, bool_decide_true by done. cbn [negb]. destruct (continueOnError n).
  - destruct (startEach _ _ _ w) as [w3 [[[keep ki] kc] fs]] eqn:E. apply startEach_accounts in E as [H1 H2]; [|done].
    destruct (reconcileAutoHY2PortForward _ w3) as [n2 w4] eqn:Hf. apply forward_lists in Hf as [Hc Hff]. cbn in Hc, Hff. intros [= <- <-].
    rewrite Hc, Hff, fmap_app. split; [|exact H2]. intros d [Hd|Hd]; rewrite elem_of_app; [|tauto]. destruct (H1 d Hd); tauto.
  - destruct (startAll _ _ w) as [w3 [e|]]; [done|].
    destruct (reconcileAutoHY2PortForward n w3) as [n2 w4] eqn:Hf. apply forward_lists in Hf as [Hc Hff]. intros [= <- <-].
    rewrite Hc, Hff. tauto.
Qed.
End accounts.

(** ** Creating and starting *)

(** What a new machine lists: aligned lists of new controllers. *)
Definition prepared n (l : list machineSlot) w : Prop :=
  lists n l ∧ NoDup (sl_Controller <$> l) ∧ (∀ s, s ∈ l → sl_Controller s ∈ known w)
  ∧ ∀ c, c ∈ running w → c ∉ sl_Controller <$> l.

Lemma newNodeStep_prepared factory rt opts cfg n w n' w' l :
  prepared n l w → running w ⊆ known w → newNodeStep factory rt opts cfg n w = Ok (n', w') →
  ∃ l', prepared n' l' w' ∧ running w' = running w ∧ running w' ⊆ known w'
    ∧ (length l' + length (failures n') = S (length l + length (failures n)))%nat
    ∧ continueOnError n' = continueOnError n.
Proof.
  intros Hp Hsub. unfold newNodeStep.
  assert (Hskip : ∀ what e, (if ContinueOnError opts then Ok (recordFailure cfg e n, w) else Err (nodeError what cfg e)) = Ok (n', w') →
    ∃ l', prepared n' l' w' ∧ running w' = running w ∧ running w' ⊆ known w'
      ∧ (length l' + length (failures n') = S (length l + length (failures n)))%nat ∧ continueOnError n' = continueOnError n).
  { intros what e. destruct (ContinueOnError opts); [|done]. intros [= <- <-]. exists l.
    split_and!; try done. cbn. rewrite length_app. cbn. lia. }
  destruct (factoryNew factory cfg) as [cp|e]; [|apply Hskip].
  destruct (GetNodeInfo factory cp) as [[info|]|e]; [|apply Hskip|apply Hskip].
  destruct (newController cp cfg info rt (bridges n) w) as [c w1] eqn:Hnew. intros [= <- <-].
  apply new_law in Hnew as (Hfresh & Hk & Hr). destruct Hp as ((H1 & H2 & H3) & Hnd & Hin & Hdis).
  exists (l ++ [mkSlot cfg info c]). split_and!.
  - split_and!.
    + split_and!; cbn; by rewrite fmap_app, ?H1, ?H2, ?H3.
    + rewrite fmap_app. apply NoDup_app. split_and!; [done| |apply NoDup_singleton].
      intros c' (s & -> & Hs)%list_elem_of_fmap Hc%list_elem_of_singleton. cbn in Hc. apply Hfresh. rewrite <- Hc. by apply Hin.
    + rewrite Hk. intros s [Hs|Hs]%elem_of_app; [apply elem_of_union_r; by apply Hin|].
      apply list_elem_of_singleton in Hs as ->. apply elem_of_union_l. by apply elem_of_singleton.
    + rewrite Hr, fmap_app. intros c' Hc' [Hl|Hl]%elem_of_app; [by apply (Hdis c')|].
      apply list_elem_of_singleton in Hl as ->. by apply Hfresh, Hsub.
  - done.
  - rewrite Hk, Hr. set_solver.
  - cbn. rewrite length_app. cbn. lia.
  - done.
Qed.

Lemma newNodes_prepared factory rt opts cfgs n w n' w' l :
  prepared n l w → running w ⊆ known w → newNodes factory rt opts cfgs n w = Ok (n', w') →
  ∃ l', prepared n' l' w' ∧ running w' = running w ∧ running w' ⊆ known w'
    ∧ (length l' + length (failures n') = length cfgs + (length l + length (failures n)))%nat
    ∧ continueOnError n' = continueOnError n.
Proof.
  revert n w l. induction cfgs as [|cfg cfgs IH]; intros n w l Hp Hsub; cbn [newNodes].
  { intros [= <- <-]. exists l. by split_and!. }
  destruct (newNodeStep factory rt opts cfg n w) as [[n1 w1]|] eqn:E; [|done].
  destruct (newNodeStep_prepared _ _ _ _ _ _ _ _ _ Hp Hsub E) as (l1 & Hp1 & Hr1 & Hs1 & Hlen & Hc).
  intros Hall. destruct (IH _ _ _ Hp1 Hs1 Hall) as (l' & Hp' & Hr' & Hs' & Hlen' & Hc'). exists l'.
  split_and!; [done|congruence|done|cbn; lia|congruence].
Qed.

(** Creating nodes without failures fetches the settings of each. *)
Lemma newNodes_fetched factory rt opts cfgs n w n' w' :
  newNodes factory rt opts cfgs n w = Ok (n', w') → failures n' = failures n →
  configs n' = configs n ++ cfgs
  ∧ ∃ infos, NodeInfos n' = NodeInfos n ++ infos
      ∧ Forall2 (λ cfg info, ∃ cp, fetchInfo factory cfg = Ok (cp, Some info)) cfgs infos.
Proof.
  assert (Hgrow : ∀ cfgs n w n' w', newNodes factory rt opts cfgs n w = Ok (n', w') →
    (length (failures n) <= length (failures n'))%nat).
  { clear. induction cfgs as [|cfg cfgs IH]; intros n w n' w'; cbn [newNodes]; [by intros [= <- <-]|].
    destruct (newNodeStep factory rt opts cfg n w) as [[n1 w1]|] eqn:E; [|done]. intros Hle%IH.
    etrans; [|exact Hle]. unfold newNodeStep in E. repeat case_match; simplify_eq; cbn; rewrite ?length_app; lia. }
  revert n w. induction cfgs as [|cfg cfgs IH]; intros n w; cbn [newNodes].
  { intros [= <- <-] _. rewrite app_nil_r. split; [done|]. exists []. by rewrite app_nil_r. }
  destruct (newNodeStep factory rt opts cfg n w) as [[n1 w1]|] eqn:E; [|done]. intros Hall Hf.
  assert (Hstep : failures n1 = failures n ∧ configs n1 = configs n ++ [cfg]
    ∧ ∃ info cp, NodeInfos n1 = NodeInfos n ++ [info] ∧ fetchInfo factory cfg = Ok (cp, Some info)).
  { apply Hgrow in Hall. rewrite Hf in Hall. unfold newNodeStep in E. unfold fetchInfo.
    destruct (factoryNew factory cfg) as [cp|e]; [destruct (GetNodeInfo factory cp) as [[info|]|e]|].
    1: destruct (newController cp cfg info rt (bridges n) w) as [c w2]; simplify_eq; split_and!; [done|done|by do 2 eexists].
    all: destruct (ContinueOnError opts); simplify_eq; cbn in Hall; rewrite length_app in Hall; cbn in Hall; lia. }
  destruct Hstep as (Hf1 & Hc1 & info & cp & Hi1 & Hfetch). destruct (IH _ _ Hall) as (Hc & infos & Hi & Hall2); [congruence|].
  split; [by rewrite Hc, Hc1, <- app_assoc|]. exists (info :: infos). rewrite Hi, Hi1, <- app_assoc.
  split; [done|]. constructor; [by eexists|done].
Qed.

Lemma fetched_unique factory cfgs infos infos' :
  Forall2 (λ cfg info, ∃ cp, fetchInfo factory cfg = Ok (cp, Some info)) cfgs infos →
  Forall2 (λ cfg info, ∃ cp, fetchInfo factory cfg = Ok (cp, Some info)) cfgs infos' → infos = infos'.
Proof.
  intros H1. revert infos'. induction H1 as [|cfg info cfgs infos [cp Hf] _ IH]; intros infos'.
  - by inversion 1.
  - inversion 1 as [|? info' ? infos2 [cp' Hf'] Hrest]; subst. rewrite Hf in Hf'. injection Hf' as <- <-.
    f_equal. by apply IH.
Qed.

(** C16. Reconciling in place gives the list of nodes that building everything from
    scratch gives: if neither skips a node, the configurations and the settings
    listed afterwards are the same, in the same order. *)
Theorem reconcile_like_new desired realtime factory opts opts' n w l n' w' r n0 w0 w1 :
  managed n w l → reconcileWithFactory desired realtime factory opts n w = (n', w', Ok r) →
  FullReloadRequired r = false → Skipped r = 0 →
  newWithFactory desired realtime factory opts' w0 = Ok (n0, w1) → failures n0 = [] →
  configs n' = configs n0 ∧ NodeInfos n' = NodeInfos n0.
Proof.
  intros Hm Hrec Hfull Hskip Hnew Hfail.
  destruct (reconcile_converged desired realtime factory opts n w l Hm n' w' r Hrec Hfull Hskip) as (Hc & Hi & _).
  unfold newWithFactory in Hnew. destruct (newNodes _ _ _ _ _ w0) as [[n1 w2]|] eqn:E; [|done].
  destruct (_ && _); [done|]. injection Hnew as -> ->.
  apply newNodes_fetched in E as (Hc0 & infos & Hi0 & Hall); [|done]. cbn in Hc0, Hi0. subst infos.
  split; [congruence|]. by eapply fetched_unique.
Qed.

(** Starting each of the slots: what is kept runs, what is not does not. *)
Lemma startEach_spec l w w' keep keepInfos keepCfgs fs :
  NoDup (sl_Controller <$> l) → running w ⊆ known w →
  (∀ s, s ∈ l → sl_Controller s ∈ known w) → (∀ c, c ∈ running w → c ∉ sl_Controller <$> l) →
  startEach (sl_Config <$> l) (sl_Controller <$> l) (sl_Info <$> l) w = (w', (keep, keepInfos, keepCfgs, fs)) →
  ∃ l', keep = sl_Controller <$> l' ∧ keepInfos = sl_Info <$> l' ∧ keepCfgs = sl_Config <$> l'
    ∧ l' `sublist_of` l ∧ known w' = known w ∧ running w' ⊆ known w'
    ∧ (length l' + length fs = length l)%nat
    ∧ ∀ c, c ∈ running w' ↔ c ∈ running w ∨ c ∈ keep.
Proof.
  revert w w' keep keepInfos keepCfgs fs.
  induction l as [|[cfg info c] l IH]; intros w w' keep keepInfos keepCfgs fs Hnd Hsub Hin Hdis; rewrite ?fmap_cons; cbn [startEach sl_Config sl_Controller sl_Info].
  { intros [= <- <- <- <- <-]. exists []. split_and!; try done. intros c. rewrite elem_of_nil. tauto. }
  cbn in Hnd. apply NoDup_cons in Hnd as [Hc Hnd]. cbn [tail].
  assert (Hc0 : c ∈ known w) by apply (Hin (mkSlot cfg info c) ltac:(left)).
  assert (Hcr : c ∉ running w) by (intros Hcr; apply (Hdis c Hcr); left).
  destruct (startControllerForMachine c w) as [w1 [e|]] eqn:E; apply start_law in E as [Hk1 Hr1].
  - destruct (closeControllerForMachine c w1) as [w2 err] eqn:E2. apply close_law in E2 as [Hk2 Hr2].
    destruct (startEach (sl_Config <$> l) (sl_Controller <$> l) (sl_Info <$> l) w2) as [w3 [[[k ki] kc] f]] eqn:E3. intros [= <- <- <- <- <-].
    apply IH in E3 as (l' & -> & -> & -> & Hsubl & Hk & Hrk & Hlen & Hrun); [|done| | |].
    + exists l'. split_and!; try done; [by constructor|congruence|cbn; lia|].
      intros c'. rewrite Hrun, Hr2, Hr1, elem_of_difference, elem_of_singleton. split; [tauto|].
      intros [Hc'|]; [|tauto]. left. split; [done|]. congruence.
    + rewrite Hr2, Hr1, Hk2, Hk1. set_solver.
    + intros s Hs. rewrite Hk2, Hk1. apply Hin. by right.
    + intros c'. rewrite Hr2, Hr1, elem_of_difference. intros [Hc' _] Hl. apply (Hdis c' Hc'). by right.
  - destruct (startEach (sl_Config <$> l) (sl_Controller <$> l) (sl_Info <$> l) w1) as [w3 [[[k ki] kc] f]] eqn:E3. intros [= <- <- <- <- <-].
    apply IH in E3 as (l' & -> & -> & -> & Hsubl & Hk & Hrk & Hlen & Hrun); [|done| | |].
    + exists (mkSlot cfg info c :: l'). split_and!; try done; [by constructor|congruence|cbn; lia|].
      intros c'. rewrite Hrun, Hr1, elem_of_union, elem_of_singleton, elem_of_cons. tauto.
    + rewrite Hr1, Hk1. set_solver.
    + intros s Hs. rewrite Hk1. apply Hin. by right.
    + intros c'. rewrite Hr1, elem_of_union, elem_of_singleton. intros [->|Hc'] Hl; [done|]. apply (Hdis c' Hc'). by right.
Qed.

(** Starting all of the slots without an error. *)
Lemma startAll_spec l w w' :
  running w ⊆ known w → (∀ s, s ∈ l → sl_Controller s ∈ known w) →
  startAll (sl_Config <$> l) (sl_Controller <$> l) w = (w', None) →
  known w' = known w ∧ ∀ c, c ∈ running w' ↔ c ∈ running w ∨ c ∈ sl_Controller <$> l.
Proof.
  revert w. induction l as [|[cfg info c] l IH]; intros w Hsub Hin; rewrite ?fmap_cons; cbn [startAll sl_Config sl_Controller].
  { intros [= <-]. split; [done|]. intros c. rewrite elem_of_nil. tauto. }
  destruct (startControllerForMachine c w) as [w1 [e|]] eqn:E; apply start_law in E as [Hk1 Hr1]; [done|].
  assert (Hc0 : c ∈ known w) by apply (Hin (mkSlot cfg info c) ltac:(left)).
  intros Hall. destruct (IH w1) as [Hk Hr]; [rewrite Hr1, Hk1; set_solver| |done|].
  { intros s Hs. rewrite Hk1. apply Hin. by right. }
  split; [congruence|]. intros c'. rewrite Hr, Hr1, elem_of_union, elem_of_singleton, elem_of_cons. tauto.
Qed.

Lemma newWithFactory_prepared cfgs rt factory opts w n w1 :
  running w ⊆ known w → newWithFactory cfgs rt factory opts w = Ok (n, w1) →
  ∃ l, prepared n l w1 ∧ running w1 = running w ∧ running w1 ⊆ known w1
    ∧ (length l + length (failures n) = length cfgs)%nat ∧ continueOnError n = ContinueOnError opts.
Proof.
  intros Hsub. unfold newWithFactory.
  destruct (newNodes _ _ _ _ _ w) as [[n1 w2]|] eqn:E; [|done]. destruct (_ && _); [done|]. intros [= -> ->].
  apply (newNodes_prepared _ _ _ _ _ _ _ _ []) in E as (l & Hp & Hr & Hs & Hlen & Hce); [| |done].
  - exists l. split_and!; [done..|cbn in Hlen; lia|done].
  - split_and!; [done|apply NoDup_nil_2|by intros s Hs%elem_of_nil|by intros c _ Hc%elem_of_nil].
Qed.

(** What [Start] of nodes that were just created leads to. *)
Lemma Start_prepared cfgs n l w n' w' err :
  prepared n l w → running w ⊆ known w → Start cfgs n w = (n', w', err) →
  (continueOnError n = true → err = None)
  ∧ (err = None → ∃ l', lists n' l' ∧ NoDup (sl_Controller <$> l')
       ∧ (length l' + length (failures n') = length l + length (failures n))%nat
       ∧ ∀ c, c ∈ running w' ↔ c ∈ running w ∨ c ∈ controllers n').
Proof.
  intros ((H1 & H2 & H3) & Hnd & Hin & Hdis) Hs. unfold Start, activeConfigs. rewrite H3, H1.
  assert (Hact : (if bool_decide (sl_Config <$> l ≠ [] ∨ sl_Controller <$> l = []) then sl_Config <$> l else cfgs) = sl_Config <$> l).
  { case_bool_decide as Hb; [done|]. destruct l; [|destruct Hb; by left]. destruct Hb; by right. }
  rewrite Hact, !length_fmap, bool_decide_true by done. cbn [negb]. rewrite H2.
  assert (Hfail : ∀ n1 w1 n2 w2, reconcileAutoHY2PortForward n1 w1 = (n2, w2) → failures n2 = failures n1).
  { intros n1 w1 n2 w2. unfold reconcileAutoHY2PortForward.
    destruct (negb _); [destruct (cleanupHY2OnDisable _)|]; by intros [= <- _]. }
  destruct (continueOnError n) eqn:Hce.
  - destruct (startEach (sl_Config <$> l) (sl_Controller <$> l) (sl_Info <$> l) w) as [w3 [[[keep ki] kc] fs]] eqn:E2.
    apply startEach_spec in E2 as (l' & -> & -> & -> & Hsubl & Hk & Hrk & Hlen' & Hrun); [|done|done|done|done].
    destruct (reconcileAutoHY2PortForward _ w3) as [n2 w4] eqn:Hf. intros [= <- <- <-]. split; [done|]. intros _.
    destruct (forward_managed _ _ _ _ Hf) as (_ & Hr4 & Hlists).
    exists l'. destruct (Hlists l') as (L1 & L2 & L3); [by split_and!|]. split_and!; try done.
    + eapply sublist_NoDup; [exact Hnd|]. by apply fmap_sublist.
    + rewrite (Hfail _ _ _ _ Hf). cbn [failures withSlots]. rewrite length_app. lia.
    + intros c. rewrite Hr4, Hrun, L1. tauto.
  - intros Heq. split; [done|]. intros ->. destruct (startAll _ _ w) as [w3 [e|]] eqn:E2; [done|].
    apply startAll_spec in E2 as [Hk Hrun]; [|done|done].
    destruct (reconcileAutoHY2PortForward n w3) as [n2 w4] eqn:Hf. injection Heq as <- <-.
    destruct (forward_managed _ _ _ _ Hf) as (_ & Hr4 & Hlists).
    exists l. destruct (Hlists l) as (L1 & L2 & L3); [by split_and!|]. split_and!; try done.
    + by rewrite (Hfail _ _ _ _ Hf).
    + intros c. rewrite Hr4, Hrun, L1. tauto.
Qed.

(** Machine mode from the beginning. Every configured node is either started
    or recorded as a failure. What is listed then are aligned lists of
    running controllers, and no other new controller runs. *)
Theorem Start_machine factory rt cfgs w n w1 n' w' err :
  running w ⊆ known w →
  newWithFactory cfgs rt factory (mkMachineOptions true) w = Ok (n, w1) →
  Start cfgs n w1 = (n', w', err) →
  err = None
  ∧ ∃ l, lists n' l ∧ NoDup (sl_Controller <$> l)
    ∧ (length l + length (failures n') = length cfgs)%nat
    ∧ ∀ c, c ∈ running w' ↔ c ∈ running w ∨ c ∈ controllers n'.
Proof.
  intros Hsub Hnew Hstart. destruct (newWithFactory_prepared _ _ _ _ _ _ _ Hsub Hnew) as (l & Hp & Hr & Hs & Hlen & Hce).
  destruct (Start_prepared _ _ _ _ _ _ _ Hp Hs Hstart) as [Herr Hok]. specialize (Herr Hce). split; [done|].
  destruct (Hok Herr) as (l' & H1 & H2 & H3 & H4). exists l'. split_and!; [done|done|lia|].
  intros c. rewrite H4, Hr. tauto.
Qed.

(** Closing all controllers of a node. *)
Lemma closeAll_spec cs w w' :
  closeAll cs w = (w', None) → known w' = known w ∧ running w' = running w ∖ list_to_set cs.
Proof.
  revert w. induction cs as [|c cs IH]; intros w; cbn [closeAll]; [intros [= <-]; split; [done|set_solver]|].
  destruct (closeControllerForMachine c w) as [w1 [e|]] eqn:E; [done|]. apply close_law in E as [Hk1 Hr1].
  intros [Hk Hr]%IH. split; [congruence|]. rewrite Hr, Hr1. cbn. set_solver.
Qed.

Lemma Close_spec n w n' w' :
  Close n w = (n', w', None) →
  known w' = known w ∧ running w' = running w ∖ list_to_set (controllers n) ∧ controllers n' = [].
Proof.
  unfold Close. destruct (closeAll (controllers n) w) as [w1 [e|]] eqn:E; [done|].
  destruct (reconcileAutoHY2PortForward _ w1) as [n2 w2] eqn:Hf. intros [= <- <-].
  apply closeAll_spec in E as [Hk Hr]. destruct (forward_managed _ _ _ _ Hf) as (Hk2 & Hr2 & _).
  split_and!; [congruence|congruence|]. revert Hf. unfold reconcileAutoHY2PortForward.
  destruct (negb _); [destruct (cleanupHY2OnDisable _)|]; by intros [= <- _].
Qed.

End props.

(** ** Examples at which the hypotheses hold *)

Module Examples.
#[local] Instance exampleOrder : RangeOrder string := canonical_order string.

(** Controllers as numbers; a controller whose control plane is [false] does
    not start. *)
Record exampleWorld := mkExampleWorld {
  ew_known : gset nat;
  ew_running : gset nat;
  ew_bad : gset nat
}.

#[local] Instance exampleOps : ControllerOps := {|
  World := exampleWorld;
  CPlane := bool;
  EdgeBridges := unit;
  noBridges := tt;
  newController cp _ _ _ _ w :=
    let c := fresh (ew_known w) in
    (c, mkExampleWorld ({[c]} ∪ ew_known w) (ew_running w) (if cp then ew_bad w else {[c]} ∪ ew_bad w));
  startControllerForMachine c w :=
    if bool_decide (c ∈ ew_bad w) then (w, Some (errorf "no users"))
    else (mkExampleWorld (ew_known w) ({[c]} ∪ ew_running w) (ew_bad w), None);
  closeControllerForMachine c w := (mkExampleWorld (ew_known w) (ew_running w ∖ {[c]}) (ew_bad w), None);
  replaceControllerForMachine old c w :=
    if bool_decide (c ∈ ew_bad w) then (w, (true, Some (errorf "no users")))
    else (mkExampleWorld (ew_known w) ({[c]} ∪ ew_running w ∖ {[old]}) (ew_bad w), (false, None));
  setBridges _ _ w := w;
  portForward _ w := w
|}.

#[local] Instance exampleLaws : ControllerLaws.
Proof.
  refine {| running (w : World) := ew_running w; known (w : World) := ew_known w |}.
  - intros cp cfg info rt b w c w'. cbn. intros [= <- <-]. split_and!; [apply is_fresh|done|done].
  - intros c w w' err. cbn. case_bool_decide; by intros [= <- <-].
  - intros c w w' err. cbn. by intros [= <- <-].
  - intros old c w w' active err _ _. cbn. case_bool_decide; by intros [= <- <- <-].
  - by intros a w.
Defined.

Definition exampleNodeConfig (id : Z) : Conf.NodeConfig := Conf.mkNodeConfig "https://p" id "k" 0 0 "".

Definition exampleInfo (id : Z) : Panel.NodeInfo := Panel.mkNodeInfo id "vless" 0 0 0 "t" (Some Panel.zeroCommon).

(** A panel that knows the nodes; the one with id 9 does not start. *)
Definition exampleFactory : ControlPlaneFactory :=
  mkFactory _ (λ cfg, if Conf.NodeID cfg =? 4 then Err (errorf "unreachable") else Ok (negb (Conf.NodeID cfg =? 9)))
    (λ _, Ok (Some (exampleInfo 1))).

Definition slotOf (id : Z) (c : nat) : machineSlot := mkSlot (exampleNodeConfig id) (exampleInfo 1) c.

Definition exampleSlots : list machineSlot := [slotOf 1 0; slotOf 2 1].

Definition exampleMachine : Node :=
  withSlots (sl_Controller <$> exampleSlots) (sl_Info <$> exampleSlots) (sl_Config <$> exampleSlots) []
    (mkNode [] [] [] [] tt false false true).

Definition exampleStart : exampleWorld := mkExampleWorld {[0; 1]}%nat {[0; 1]}%nat ∅.

Lemma exampleManaged : managed exampleMachine exampleStart exampleSlots.
Proof.
  split; [by split_and!|]. split_and!.
  - apply (bool_decide_unpack _). vm_compute. reflexivity.
  - apply (bool_decide_unpack _). vm_compute. reflexivity.
  - repeat constructor; vm_compute; discriminate.
  - intros s Hs. cbn. unfold exampleSlots in Hs. set_solver.
  - done.
Qed.

Definition exampleReconcile (ids : list Z) (opts : MachineOptions) : Node * World * result ReconcileResult :=
  reconcileWithFactory (exampleNodeConfig <$> ids) Conf.zeroRealtime exampleFactory opts exampleMachine exampleStart.

(** Node 1 is gone, node 2 is as before, node 3 is new. *)
Example exampleReconcile_run :
  match exampleReconcile [2; 3] (mkMachineOptions false) with
  | (n', _, Ok r) => controllers n' = [1; 2]%nat ∧ (Added r, Removed r, Unchanged r, Skipped r) = (1, 1, 1, 0)
  | _ => False
  end.
Proof. vm_compute. split; reflexivity. Qed.

Lemma reconcile_running_witness :
  match exampleReconcile [2; 3] (mkMachineOptions false) with
  | (n', w', Ok r) => ∃ l', managed n' w' l'
      ∧ ∀ c, c ∈ running w' ↔ (c ∈ controllers n') ∨ (c ∈ running exampleStart ∧ c ∉ controllers exampleMachine)
  | _ => False
  end.
Proof.
  assert (Hrun : match exampleReconcile [2; 3] (mkMachineOptions false) with (_, _, Ok _) => true | _ => false end = true)
    by (vm_compute; reflexivity).
  destruct (exampleReconcile [2; 3] (mkMachineOptions false)) as [[n' w'] [r|e]] eqn:E; [|discriminate Hrun].
  exact (reconcile_running _ _ _ _ _ _ _ exampleManaged n' w' r E).
Defined.

Lemma reconcile_converges_witness :
  match exampleReconcile [2; 3] (mkMachineOptions false) with
  | (n', w', Ok r) => configs n' = exampleNodeConfig <$> [2; 3]
  | _ => False
  end.
Proof.
  assert (Hrun : match exampleReconcile [2; 3] (mkMachineOptions false) with
    | (_, _, Ok r) => negb (FullReloadRequired r) && (Skipped r =? 0) | _ => false end = true)
    by (vm_compute; reflexivity).
  destruct (exampleReconcile [2; 3] (mkMachineOptions false)) as [[n' w'] [r|e]] eqn:E; [|discriminate Hrun].
  apply andb_true_iff in Hrun as [H1 H2].
  refine (proj1 (reconcile_converges _ _ _ _ _ _ _ exampleManaged n' w' r E _ _)).
  - by apply negb_true_iff.
  - by apply Z.eqb_eq.
Defined.

Lemma reconcile_routes_witness :
  match exampleReconcile [2; 3] (mkMachineOptions false) with
  | (n', w', Ok r) => FullReloadRequired r = true → n' = exampleMachine ∧ w' = exampleStart
  | _ => False
  end.
Proof.
  assert (Hrun : match exampleReconcile [2; 3] (mkMachineOptions false) with (_, _, Ok _) => true | _ => false end = true)
    by (vm_compute; reflexivity).
  destruct (exampleReconcile [2; 3] (mkMachineOptions false)) as [[n' w'] [r|e]] eqn:E; [|discriminate Hrun].
  exact (proj1 (reconcile_routes _ _ _ _ _ _ _ exampleManaged n' w' r E)).
Defined.

Lemma reconcile_like_new_witness :
  match exampleReconcile [2; 3] (mkMachineOptions false),
        newWithFactory (exampleNodeConfig <$> [2; 3]) Conf.zeroRealtime exampleFactory (mkMachineOptions false) exampleStart with
  | (n', _, Ok r), Ok (n0, _) => configs n' = configs n0 ∧ NodeInfos n' = NodeInfos n0
  | _, _ => False
  end.
Proof.
  assert (Hrun : match exampleReconcile [2; 3] (mkMachineOptions false) with
    | (_, _, Ok r) => negb (FullReloadRequired r) && (Skipped r =? 0) | _ => false end = true)
    by (vm_compute; reflexivity).
  assert (Hnew : match newWithFactory (exampleNodeConfig <$> [2; 3]) Conf.zeroRealtime exampleFactory
                   (mkMachineOptions false) exampleStart with
    | Ok (n0, _) => match failures n0 with [] => true | _ => false end | _ => false end = true)
    by (vm_compute; reflexivity).
  destruct (exampleReconcile [2; 3] (mkMachineOptions false)) as [[n' w'] [r|e]] eqn:E; [|discriminate Hrun].
  destruct (newWithFactory (exampleNodeConfig <$> [2; 3]) Conf.zeroRealtime exampleFactory (mkMachineOptions false)
              exampleStart) as [[n0 w1]|] eqn:E0; [|discriminate Hnew].
  destruct (failures n0) eqn:Hf; [|discriminate Hnew]. apply andb_true_iff in Hrun as [H1 H2].
  eapply (reconcile_like_new _ _ _ _ _ _ _ _ n' w' r n0 _ w1 exampleManaged E); [|by apply Z.eqb_eq|exact E0|exact Hf].
  by apply negb_true_iff.
Defined.

(** Node 1 is gone, and node 9 does not start. *)
Lemma reconcile_error_stale_witness :
  match exampleReconcile [2; 9] (mkMachineOptions false) with
  | (n', w', Err e) => 0%nat ∈ controllers n' ∧ 0%nat ∉ running w'
  | _ => False
  end.
Proof.
  assert (Hrun : match exampleReconcile [2; 9] (mkMachineOptions false) with (_, _, Err _) => true | _ => false end = true)
    by (vm_compute; reflexivity).
  destruct (exampleReconcile [2; 9] (mkMachineOptions false)) as [[n' w'] [r|e]] eqn:E; [discriminate Hrun|].
  assert (Hcur : match currentMachineSlots exampleMachine with Ok _ => true | _ => false end = true)
    by (vm_compute; reflexivity).
  destruct (currentMachineSlots exampleMachine) as [current|] eqn:Ec; [|discriminate Hcur].
  assert (Href : match currentMachineSlots exampleMachine with
    | Ok current => match refreshAll exampleFactory (mkMachineOptions false) current (exampleNodeConfig <$> [2; 9])
                            (mkRefresh emptyResult ∅ ∅ []) with Ok _ => true | _ => false end
    | _ => false end = true) by (vm_compute; reflexivity).
  rewrite Ec in Href.
  destruct (refreshAll exampleFactory (mkMachineOptions false) current (exampleNodeConfig <$> [2; 9])
              (mkRefresh emptyResult ∅ ∅ [])) as [s|] eqn:Es; [|discriminate Href].
  refine (proj2 (reconcile_error_stale _ _ _ _ _ _ _ exampleManaged n' w' e current s E Ec Es _) (slotOf 1 0) _ _).
  - intros c w1. reflexivity.
  - left.
  - apply (bool_decide_unpack _). vm_compute. reflexivity.
Defined.

Definition exampleConfigured : list Conf.NodeConfig := exampleNodeConfig <$> [1; 4; 9].

Definition exampleCreated : result (Node * World) :=
  newWithFactory exampleConfigured Conf.zeroRealtime exampleFactory (mkMachineOptions true)
    (mkExampleWorld ∅ ∅ ∅).

Lemma Start_machine_witness :
  match exampleCreated with
  | Ok (n, w1) =>
      match Start exampleConfigured n w1 with
      | (n', w', err) => err = None ∧ ∃ l, lists n' l ∧ NoDup (sl_Controller <$> l)
          ∧ (length l + length (failures n') = length exampleConfigured)%nat
          ∧ ∀ c, c ∈ running w' ↔ c ∈ running (mkExampleWorld ∅ ∅ ∅) ∨ c ∈ controllers n'
      end
  | Err _ => False
  end.
Proof.
  assert (Hrun : match exampleCreated with Ok _ => true | _ => false end = true) by (vm_compute; reflexivity).
  destruct exampleCreated as [[n w1]|] eqn:E; [|discriminate Hrun].
  destruct (Start exampleConfigured n w1) as [[n' w'] err] eqn:Es.
  apply (Start_machine exampleFactory Conf.zeroRealtime exampleConfigured
           (mkExampleWorld ∅ ∅ ∅) n w1 n' w' err); [done|exact E|exact Es].
Defined.

Example exampleStarted :
  match exampleCreated with
  | Ok (n, w1) => length (controllers (Start exampleConfigured n w1).1.1) = 1%nat
  | Err _ => False
  end.
Proof. vm_compute. reflexivity. Qed.
End Examples.
End MachineProps.
