(* ===== verification/Lifecycle.v ===== *)
(** * The life of a controller (node/controller.go, node/task.go, limiter/limiter.go)

    The controllers of a process share the core, the registry of limiters, the
    disk and the certificate files: a [System] is the heap of controllers with
    these. Here are the operations that start, replace and close a controller
    ([Start], [StartReplacing], [Close]), as actions on the system. The steps
    that UserSync.v models are run on the controller's part of the system
    ([inSync]). [controllerOps] makes the controllers an implementation of the
    interface of Machine.v. *)

From Stdlib Require Import Ascii.
From S2P Require Import Prelude GoStrings FilePath Action Json Panel Conf Limiter Inbound Task Links Traffic Core.
From S2P Require Import EdgeSidecar UserSync Realtime Certs EdgeTraffic Report Machine.

Module Lifecycle.
Import GoStrings Action.

(** ** Data *)

Record RealtimeBootstrap := mkBootstrap { bs_Enabled : bool; bs_URL : string }.

(** A control plane; the bootstrap is the optional interface
    [ControlPlaneRealtimeBootstrap]. *)
Record Plane := mkPlane {
  answers : UserSync.ControlPlane;
  GetRealtimeBootstrap : option (result (option RealtimeBootstrap))
}.

Record Bridges := mkBridges {
  edgeTrafficBridge : option Report.EdgeTrafficBridge;
  edgeSidecarBridge : option EdgeSidecar.EdgeSidecarBridge
}.

(** The periodic tasks; [None] is nil. *)
Record Tasks := mkTasks {
  nodeConfigMonitorPeriodic : option Task.Task;
  nodeUserMonitorPeriodic : option Task.Task;
  userReportPeriodic : option Task.Task;
  renewCertPeriodic : option Task.Task
}.

(** What a controller knows about its users. *)
Record Users := mkUsers {
  userList : list Panel.UserInfo;
  userRevision : Z;
  userDeltaSupported : bool;
  aliveMap : gmap Z Z;
  aliveSnapshot : option Panel.AliveMap
}.

Record Controller := mkController {
  controlPlane : Plane;
  conf : Conf.NodeConfig;
  info : option Panel.NodeInfo;
  realtimeConfig : Conf.RealtimeConfig;
  bridges : Bridges;
  hasServer : bool;                 (* [server] is the core, or nil *)
  tag : string;
  limiter : option nat;             (* a pointer *)
  users : Users;
  userSyncStatePath : string;
  tasks : Tasks;
  realtimeClient : option Realtime.RealtimeOptions (* [realtimeClient] and [realtimeCancel] *)
}.

Definition noTasks : Tasks := mkTasks None None None None.

Implicit Types c : Controller.

(** Field updates. *)
Definition withServerSet c : Controller :=
  mkController (controlPlane c) (conf c) (info c) (realtimeConfig c) (bridges c) true (tag c) (limiter c)
    (users c) (userSyncStatePath c) (tasks c) (realtimeClient c).

Definition withNode (n : Panel.NodeInfo) c : Controller :=
  mkController (controlPlane c) (conf c) (Some n) (realtimeConfig c) (bridges c) (hasServer c) (Panel.Tag n)
    (limiter c) (users c) (userSyncStatePath c) (tasks c) (realtimeClient c).

Definition withRealtimeConfig (rt : Conf.RealtimeConfig) c : Controller :=
  mkController (controlPlane c) (conf c) (info c) rt (bridges c) (hasServer c) (tag c)
    (limiter c) (users c) (userSyncStatePath c) (tasks c) (realtimeClient c).

Definition withBridges (b : Bridges) c : Controller :=
  mkController (controlPlane c) (conf c) (info c) (realtimeConfig c) b (hasServer c) (tag c)
    (limiter c) (users c) (userSyncStatePath c) (tasks c) (realtimeClient c).

Definition withLimiter (l : option nat) c : Controller :=
  mkController (controlPlane c) (conf c) (info c) (realtimeConfig c) (bridges c) (hasServer c) (tag c)
    l (users c) (userSyncStatePath c) (tasks c) (realtimeClient c).

Definition withUsers (u : Users) c : Controller :=
  mkController (controlPlane c) (conf c) (info c) (realtimeConfig c) (bridges c) (hasServer c) (tag c)
    (limiter c) u (userSyncStatePath c) (tasks c) (realtimeClient c).

Definition withTasks (ts : Tasks) c : Controller :=
  mkController (controlPlane c) (conf c) (info c) (realtimeConfig c) (bridges c) (hasServer c) (tag c)
    (limiter c) (users c) (userSyncStatePath c) ts (realtimeClient c).

Definition withClient (rt : option Realtime.RealtimeOptions) c : Controller :=
  mkController (controlPlane c) (conf c) (info c) (realtimeConfig c) (bridges c) (hasServer c) (tag c)
    (limiter c) (users c) (userSyncStatePath c) (tasks c) rt.

Record startState := mkStart {
  st_node : Panel.NodeInfo;
  st_userList : list Panel.UserInfo;
  st_aliveMap : gmap Z Z;
  st_aliveSnapshot : Panel.AliveMap
}.

(** [userSyncStateDir] and [userSyncStatePath] (node/user_sync_state.go);
    [env] is the variable V2NODE_STATE_DIR. *)
Definition userSyncStateDir (env : string) : string :=
  if bool_decide (env = "") then "/etc/v2node" else env.

Definition stateFileName `{EdgeSidecar.Sha1} (apiHost : string) (nodeID : Z) : string :=
  "user_sync_" +:+ Json.hexEncode (EdgeSidecar.sha1Sum apiHost) +:+ "_" +:+ Itoa nodeID +:+ ".json".

Definition syncStatePath `{EdgeSidecar.Sha1} (env configDir apiHost : string) (nodeID : Z) : string :=
  let baseDir := Conf.NormalizeConfigDir configDir in
  let baseDir := if bool_decide (baseDir = Conf.DefaultNodeConfigDir) then userSyncStateDir env else baseDir in
  FilePath.Join2 baseDir (stateFileName apiHost nodeID).

Section lifecycle.
Context `{XCore : Core.XrayCore} `{RL : Limiter.RateLimit} `{Sha : EdgeSidecar.Sha1}.
Context `{Net : Realtime.NetURL} `{Cert : Certs.CertEnv}.
Context {RO : RangeOrder string} {ROn : RangeOrder nat}.
(** The environment variable of the state directory, the random bytes and the
    time of the n-th start, and whether the goroutines of the realtime client of a
    controller come to their end when it is cancelled: its read returns only when
    the panel sends something or the connection breaks (RealtimeClient.v). *)
Context (stateDir : string) (random : nat → nat → result (list ascii)) (clock : nat → Z) (clientEnds : nat → bool).

Record System := mkSystem {
  heap : list Controller;
  core : Core.V2Core;
  limiters : list Limiter.Limiter;  (* what pointers lead to *)
  registry : gmap string nat;       (* the map [limiter] of the package *)
  disk : UserSync.Disk;
  certFiles : Certs.FS;
  starts : nat;
  forwards : list Machine.HY2Action (* requests to node/port_forward.go *)
}.

Implicit Types s : System.

Definition withHeap h s : System :=
  mkSystem h (core s) (limiters s) (registry s) (disk s) (certFiles s) (starts s) (forwards s).

Definition withCore v s : System :=
  mkSystem (heap s) v (limiters s) (registry s) (disk s) (certFiles s) (starts s) (forwards s).

Definition withLimiters ls r s : System :=
  mkSystem (heap s) (core s) ls r (disk s) (certFiles s) (starts s) (forwards s).

Definition withCertFiles fs s : System :=
  mkSystem (heap s) (core s) (limiters s) (registry s) (disk s) fs (starts s) (forwards s).

Definition nextStart s : System :=
  mkSystem (heap s) (core s) (limiters s) (registry s) (disk s) (certFiles s) (S (starts s)) (forwards s).

(** The controller a pointer leads to, and writing it. *)
Definition load (i : nat) : action System Controller := λ s, deref (heap s !! i) s.

Definition update (i : nat) (f : Controller → Controller) : action System unit :=
  modify (λ s, withHeap (alter f i (heap s)) s).

(** *** The registry of limiters *)

Definition AddLimiter (nodetype tag : string) (us : list Panel.UserInfo) (alive : gmap Z Z)
    : action System nat := λ s,
  let p := length (limiters s) in
  Some (withLimiters (limiters s ++ [Limiter.newLimiter nodetype tag us (Some alive)]) (<[tag := p]> (registry s)) s,
        Ok p).

Definition GetLimiter (tag : string) s : result nat :=
  match registry s !! tag with
  | Some p => Ok p
  | None => Err (errorf "not found")
  end.

Definition DeleteLimiter (tag : string) : action System unit :=
  modify (λ s, withLimiters (limiters s) (delete tag (registry s)) s).

Definition updateLimiter (p : nat) (f : Limiter.Limiter → Limiter.Limiter) : action System unit :=
  modify (λ s, withLimiters (alter f p (limiters s)) (registry s) s).

(** *** The steps of UserSync.v in a system *)

(** The controller [c] as UserSync.v has it; the limiter of a controller that
    has none yet is not read. *)
Definition view c s : UserSync.Controller :=
  UserSync.mkController (tag c) (info c)
    (default (Limiter.newLimiter "" "" [] None) (p ← limiter c; limiters s !! p)) (core s)
    (userList (users c)) (userRevision (users c)) (userDeltaSupported (users c)) (userSyncStatePath c)
    (aliveMap (users c)) (aliveSnapshot (users c)) (edgeSidecarBridge (bridges c)) (disk s).

(** What the step left, back in the system. *)
Definition writeBack (i : nat) (u : UserSync.Controller) s : System :=
  let ls := match heap s !! i ≫= limiter with
            | Some p => <[p := UserSync.c_limiter u]> (limiters s)
            | None => limiters s
            end in
  let us := mkUsers (UserSync.userList u) (UserSync.userRevision u) (UserSync.userDeltaSupported u)
              (UserSync.aliveMap u) (UserSync.aliveSnapshot u) in
  mkSystem (alter (withUsers us) i (heap s)) (UserSync.c_server u) ls (registry s) (UserSync.disk u)
    (certFiles s) (starts s) (forwards s).

Definition inSync {A} (i : nat) (f : UserSync.Controller → option (UserSync.Controller * result A))
    : action System A := λ s,
  match heap s !! i with
  | None => None
  | Some c =>
      match f (view c s) with
      | None => None
      | Some (u, r) => Some (writeBack i u s, r)
      end
  end.

(** ** Creating *)

(** [NewControllerWithControlPlane] *)
Definition NewControllerWithControlPlane (cp : Plane) (cfg : Conf.NodeConfig) (n : option Panel.NodeInfo)
    (realtime : Conf.RealtimeConfig) : Controller :=
  mkController cp cfg n realtime (mkBridges None None) false "" None (mkUsers [] 0 true ∅ None)
    (syncStatePath stateDir (Conf.ConfigDir cfg) (Conf.APIHost cfg) (Conf.NodeID cfg)) noTasks None.

(** ** Starting *)

(** [c.info], fetched when it is nil; a panel without a node is a panic. *)
Definition startNode (i : nat) c : action System Panel.NodeInfo :=
  match info c with
  | Some n => mret n
  | None =>
      match UserSync.GetNodeInfo (answers (controlPlane c)) with
      | Err e => throw (errorf ("get node info error: " +:+ err_msg e))
      | Ok None => panic
      | Ok (Some n) => mret n
      end
  end.

(** The address the handshake gives is used when none is configured. *)
Definition bootstrapped c : Controller :=
  match GetRealtimeBootstrap (controlPlane c) with
  | Some (Ok (Some b)) =>
      let rt := realtimeConfig c in
      if bs_Enabled b && negb (bool_decide (TrimSpace (bs_URL b) = ""))
         && bool_decide (TrimSpace (Conf.rc_URL rt) = "")
      then withRealtimeConfig (Conf.mkRealtimeConfig true (TrimSpace (bs_URL b)) (Conf.PingInterval rt)
                                 (Conf.ReconnectInterval rt)) c
      else c
  | _ => c
  end.

Definition prepareStart (i : nat) : action System startState :=
  _ ← update i withServerSet;
  c ← load i;
  n ← startNode i c;
  _ ← update i (λ c, bootstrapped (withNode n c));
  let cp := answers (controlPlane c) in
  us ← mapErr (λ e, errorf ("get user list error: " +:+ err_msg e))
         (inSync i (λ u, Some (UserSync.loadAndSyncUsers cp u)));
  _ ← (if bool_decide (us = []) then throw (errorf "add users error: not have any user") else mret ());
  let alive := match UserSync.GetUserAlive cp with
               | Ok alive => default ∅ alive
               | Err _ => UserSync.CachedAliveMap cp
               end in
  _ ← when (Panel.Security n =? Panel.SecurityTls)
        (mapErr (λ e, errorf ("request cert error: " +:+ err_msg e)) (λ s,
          match Certs.requestCert (Some (conf c)) n (certFiles s) with
          | None => None
          | Some (fs, None) => Some (withCertFiles fs s, Ok ())
          | Some (fs, Some e) => Some (withCertFiles fs s, Err e)
          end));
  mret (mkStart n us alive (UserSync.CachedAliveSnapshot cp)).

(** A task object, started. *)
Definition started (interval timeout : Z) (first : bool) : option Task.Task :=
  Some (Task.Start first (Task.newTask interval timeout)).

Definition minutes (n : Z) : Z := n * 60 * 1000000000.

(** [startTasks]; a node with TLS has certificate information. *)
Definition startTasks (i : nat) (n : Panel.NodeInfo) : action System unit :=
  c ← load i;
  mode ← (if Panel.Security n =? Panel.SecurityTls
          then (mode ← deref (n ← info c; common ← Panel.Common n; Panel.CertMode <$> Panel.Cert_Info common);
                mret (Some mode))
          else mret None);
  let renew := match mode with
               | None => renewCertPeriodic (tasks c)
               | Some mode =>
                   if bool_decide (mode ∈ ["none"; ""; "file"; "self"]) then renewCertPeriodic (tasks c)
                   else started (24 * minutes 60) (minutes 30) true
               end in
  update i (withTasks (mkTasks (started (Panel.PullInterval n) (minutes 2) false)
                         (started (Panel.PullInterval n) (minutes 10) false)
                         (started (Panel.PushInterval n) (minutes 10) false) renew)).

(** [startRealtime] *)
Definition startRealtime (i : nat) : action System unit :=
  c ← load i;
  options ← deref (Realtime.resolveRealtimeOptions (info c) (realtimeConfig c) (conf c) (tag c));
  match options with
  | None => mret ()
  | Some o => update i (withClient (Some o))
  end.

(** The state of the preparation becomes the controller's. *)
Definition adopt (state : startState) c : Controller :=
  withUsers (mkUsers (st_userList state) (userRevision (users c)) (userDeltaSupported (users c))
               (st_aliveMap state) (Some (st_aliveSnapshot state)))
    (withNode (st_node state) c).

(** [AddNode] and [AddUsers] on the core of the system. *)
Definition addNode (tag : string) (n : Panel.NodeInfo) : action System unit := λ s,
  match Core.AddNode (random (starts s)) (clock (starts s)) tag (Some n) (core s) with
  | None => None
  | Some (v, None) => Some (withCore v s, Ok ())
  | Some (v, Some e) => Some (withCore v s, Err e)
  end.

Definition addUsers (tag : string) (us : list Panel.UserInfo) (n : Panel.NodeInfo) : action System unit := λ s,
  match Core.AddUsers (Core.mkAddUsersParams tag us (Some n)) (core s) with
  | None => None
  | Some (v, (_, None)) => Some (withCore v s, Ok ())
  | Some (v, (_, Some e)) => Some (withCore v s, Err e)
  end.

(** The part of [activatePreparedStart] that can fail. *)
Definition activate (i : nat) (state : startState) : action System unit :=
  let n := st_node state in
  let tag := Panel.Tag n in
  _ ← modify nextStart;
  _ ← update i (adopt state);
  p ← AddLimiter (Panel.Type_ n) tag (st_userList state) (st_aliveMap state);
  now ← gets (λ s, clock (starts s));
  _ ← updateLimiter p (λ l,
        Limiter.SetDefaultDeviceLimit (Panel.defaultDeviceLimitFromNode (Some n))
          (Limiter.SetAliveSnapshot now (Some (st_aliveSnapshot state)) l));
  _ ← update i (withLimiter (Some p));
  _ ← mapErr (λ e, errorf ("add new node error: " +:+ err_msg e)) (addNode tag n);
  _ ← mapErr (λ e, errorf ("add users error: " +:+ err_msg e)) (addUsers tag (st_userList state) n);
  c ← load i;
  match EdgeSidecar.applyEdgeSidecar (edgeSidecarBridge (bridges c)) (info c) tag (userList (users c)) with
  | Some e => throw (errorf ("apply edge sidecar error: " +:+ err_msg e))
  | None => mret ()
  end.

Definition activatePreparedStart (i : nat) (state : startState) : action System unit :=
  _ ← activate i state;
  _ ← startTasks i (st_node state);
  startRealtime i.

Definition Start (i : nat) : action System unit :=
  state ← prepareStart i;
  activatePreparedStart i state.

(** ** Closing *)

(** [Close] of a task that is not nil. *)
Definition closeTask (t : option Task.Task) : option (option Task.Task) :=
  match t with
  | None => Some None
  | Some t => Some <$> Task.Close t
  end.

Definition closeTasks (ts : Tasks) : option Tasks :=
  a ← closeTask (nodeConfigMonitorPeriodic ts);
  b ← closeTask (nodeUserMonitorPeriodic ts);
  r ← closeTask (userReportPeriodic ts);
  d ← closeTask (renewCertPeriodic ts);
  Some (mkTasks a b r d).

(** [realtimeCancel], [realtimeClient.Close], which waits for the client, and
    forgetting both. *)
Definition closeClient (i : nat) : action System unit :=
  c ← load i;
  match realtimeClient c with
  | None => mret ()
  | Some _ => if clientEnds i then update i (withClient None) else blocked
  end.

Definition Close (i : nat) : action System unit :=
  _ ← closeClient i;
  c ← load i;
  _ ← DeleteLimiter (tag c);
  ts ← deref (closeTasks (tasks c));
  _ ← update i (withTasks ts);
  _ ← (if hasServer c then mret () else panic);
  mapErr (λ e, errorf ("del node error: " +:+ err_msg e)) (orErr (λ s,
    let '(v, err) := Core.DelNode (tag c) (core s) in (withCore v s, err))).

(** [StartReplacing]: whether the old controller is still active, and the
    error. *)
Definition StartReplacing (i old : nat) : action System (bool * option GoError) :=
  state ← attempt (prepareStart i);
  match state with
  | Err e => mret (true, Some e)
  | Ok state =>
      closed ← attempt (Close old);
      match closed with
      | Err e => mret (false, Some e)
      | Ok _ =>
          activated ← attempt (activatePreparedStart i state);
          match activated with
          | Err e => _ ← attempt (Close i); mret (false, Some e)
          | Ok _ => mret (false, None)
          end
      end
  end.

(** [reloadTask], with the answer of the control plane factory. *)
Definition reloadTask (i : nat) (newControlPlane : result Plane) : action System unit :=
  cp ← deref (match newControlPlane with Ok cp => Some cp | Err _ => None end);
  c ← load i;
  _ ← update i (λ c, mkController cp (conf c) (info c) (realtimeConfig c) (bridges c) (hasServer c) (tag c)
                       (limiter c) (users c) (userSyncStatePath c) (tasks c) (realtimeClient c));
  _ ← deref (nodeConfigMonitorPeriodic (tasks c));
  _ ← deref (nodeUserMonitorPeriodic (tasks c));
  _ ← deref (userReportPeriodic (tasks c));
  ts ← deref (closeTasks (tasks c));
  _ ← update i (withTasks ts);
  n ← deref (info c);
  startTasks i n.

(** ** The tasks of a controller *)

(** [nodeUserMonitor]: errors are logged. *)
Definition nodeUserMonitor (i : nat) (now : Z) (arrivals : Core.LinkArrivals) (ctx : Core.Context_)
    (cancelled : bool) : action System unit :=
  c ← load i;
  _ ← attempt (inSync i (UserSync.executeNodeUserSync (answers (controlPlane c)) now arrivals ctx cancelled));
  mret ().

(** ** The interface of Machine.v

    A panic ends the process, and a call that waits for ever is never followed by
    another: what the interface answers then stands for nothing. *)

Definition stopTasks (i : nat) s : System := withHeap (alter (withTasks noTasks) i (heap s)) s.

Definition died : GoError := errorf "panic".

Definition outcome (fallback : System) (r : option (System * result unit)) : System * option GoError :=
  match r with
  | Some (s, Ok _) => (s, None)
  | Some (s, Err e) => (s, Some e)
  | None => (fallback, Some died)
  end.

#[global] Instance controllerOps : Machine.ControllerOps := {|
  Machine.World := System;
  Machine.CPlane := Plane;
  Machine.EdgeBridges := Bridges;
  Machine.noBridges := mkBridges None None;
  Machine.newController cp cfg n rt b s :=
    (length (heap s),
     withHeap (heap s ++ [withBridges b (NewControllerWithControlPlane cp cfg (Some n) rt)]) s);
  Machine.startControllerForMachine i s := outcome s (Start i s);
  Machine.closeControllerForMachine i s := outcome (stopTasks i s) (Close i s);
  Machine.replaceControllerForMachine old i s :=
    match StartReplacing i old s with
    | Some (s, Ok r) => (s, r)
    | Some (s, Err e) => (s, (true, Some e))
    | None => (s, (true, Some died))
    end;
  Machine.setBridges i b s := withHeap (alter (withBridges b) i (heap s)) s;
  Machine.portForward a s :=
    mkSystem (heap s) (core s) (limiters s) (registry s) (disk s) (certFiles s) (starts s) (forwards s ++ [a])
|}.

End lifecycle.
End Lifecycle.
