(* ===== verification/LifecycleProps.v ===== *)
(** * The life of a controller as machine mode sees it

    The controllers implement the interface that machine mode is proved
    against ([controllerLaws]): whatever a start, a replacement or an end
    answers, the periodic tasks of exactly the right controllers run. The lemmas
    on the steps of starting and closing serve StartProps.v as well. *)

From Stdlib Require Import Ascii.
From S2P Require Import Prelude GoStrings FilePath Action Json Panel Conf Limiter LimiterProps Inbound Task Links Traffic Core.
From S2P Require Import CoreProps EdgeSidecar UserSync UserSyncProps Realtime Certs EdgeTraffic Report Machine MachineProps Lifecycle.

Module LifecycleProps.
Import Action Lifecycle.

(** ** Which controllers run *)

Definition taskRuns (t : option Task.Task) : bool :=
  match t with Some t => Task.Running t | None => false end.

(** Some task runs. *)
Definition runs (ts : Tasks) : bool :=
  taskRuns (nodeConfigMonitorPeriodic ts) || taskRuns (nodeUserMonitorPeriodic ts)
  || taskRuns (userReportPeriodic ts) || taskRuns (renewCertPeriodic ts).

Lemma closeTask_stops t t' : closeTask t = Some t' → taskRuns t' = false.
Proof.
  destruct t as [t|]; cbn; [|by intros [= <-]]. unfold Task.Close, Task.safeStop.
  destruct (Task.Running t) eqn:Hr; [case_decide; [done|]; by intros [= <-]|]. by intros [= <-].
Qed.

Lemma closeTasks_stops ts ts' : closeTasks ts = Some ts' → runs ts' = false.
Proof.
  unfold closeTasks. destruct (closeTask (nodeConfigMonitorPeriodic ts)) eqn:E1; [|done]. cbn.
  destruct (closeTask (nodeUserMonitorPeriodic ts)) eqn:E2; [|done]. cbn.
  destruct (closeTask (userReportPeriodic ts)) eqn:E3; [|done]. cbn.
  destruct (closeTask (renewCertPeriodic ts)) eqn:E4; [|done]. intros [= <-]. unfold runs. cbn.
  by rewrite (closeTask_stops _ _ E1), (closeTask_stops _ _ E2), (closeTask_stops _ _ E3), (closeTask_stops _ _ E4).
Qed.

Section props.
Context `{XCore : Core.XrayCore} `{RL : Limiter.RateLimit} `{Sha : EdgeSidecar.Sha1}.
Context `{Net : Realtime.NetURL} `{Cert : Certs.CertEnv}.
Context {RO : RangeOrder string} {ROn : RangeOrder nat}.
Context (stateDir : string) (random : nat → nat → result (list ascii)) (clock : nat → Z) (clientEnds : nat → bool).
Implicit Types (s : System) (c : Controller).

Definition tasksAt s (i : nat) : option Tasks := tasks <$> heap s !! i.

Definition runsAt s (i : nat) : bool := match tasksAt s i with Some ts => runs ts | None => false end.

(** All controllers but one are as before. *)
Definition sameBut (i : nat) s s' : Prop :=
  length (heap s') = length (heap s) ∧ ∀ j, j ≠ i → heap s' !! j = heap s !! j.

(** And that one has the same tasks. *)
Definition sameTasks (i : nat) s s' : Prop := sameBut i s s' ∧ tasksAt s' i = tasksAt s i.

#[local] Instance sameBut_order i : PreOrder (sameBut i).
Proof. split; [by split|]. intros s1 s2 s3 [H1 H2] [H3 H4]. split; [congruence|].
  intros j Hj. by rewrite H4, H2. Qed.

#[local] Instance sameTasks_order i : PreOrder (sameTasks i).
Proof.
  split; [by split|]. intros s1 s2 s3 [H1 H2] [H3 H4]. split; [by transitivity s2|congruence].
Qed.

Lemma sameTasks_but i s s' : sameTasks i s s' → sameBut i s s'.
Proof. by intros [H1 H2]. Qed.

(** Heaps only change at one controller. *)
Lemma alter_sameBut i f s : sameBut i s (withHeap (alter f i (heap s)) s).
Proof. split; cbn; [apply length_alter|]. intros j Hj. by rewrite list_lookup_alter_ne. Qed.

Lemma alter_sameTasks i f s :
  (∀ c, tasks (f c) = tasks c) → sameTasks i s (withHeap (alter f i (heap s)) s).
Proof.
  intros Hf. split; [apply alter_sameBut|]. unfold tasksAt. cbn. rewrite list_lookup_alter_eq.
  destruct (heap s !! i); cbn; [by rewrite Hf|done].
Qed.

Lemma update_sameTasks i f : (∀ c, tasks (f c) = tasks c) → keeps (sameTasks i) (update i f).
Proof. intros Hf. apply keeps_modify. intros s. by apply alter_sameTasks. Qed.

Lemma same_heap i s s' : heap s' = heap s → sameTasks i s s'.
Proof. intros Hh. unfold sameTasks, sameBut, tasksAt. by rewrite Hh. Qed.

Lemma modify_same_heap i f : (∀ s, heap (f s) = heap s) → keeps (sameTasks i) (modify f).
Proof. intros Hf. apply keeps_modify. intros s. apply same_heap, Hf. Qed.

Lemma bootstrapped_tasks c : tasks (bootstrapped c) = tasks c.
Proof. unfold bootstrapped. repeat case_match; done. Qed.

Ltac keeping :=
  repeat first
    [ apply keeps_bind; [apply _| |intros ?]
    | apply keeps_mapErr | apply keeps_when; [apply _|] | apply keeps_attempt
    | apply keeps_ret; apply _ | apply keeps_throw; apply _ | apply keeps_panic
    | apply keeps_gets; apply _ | apply keeps_deref; apply _
    | case_match ].

Lemma inSync_sameTasks {A} i (f : UserSync.Controller → option (UserSync.Controller * result A)) :
  keeps (sameTasks i) (inSync i f).
Proof.
  intros s s' r. unfold inSync. destruct (heap s !! i) as [c|] eqn:Hc; [|done].
  destruct (f (view c s)) as [[u r']|]; [|done]. intros [= <- _]. unfold writeBack. split; [split; cbn; [apply length_alter|]|].
  - intros j Hj. by rewrite list_lookup_alter_ne.
  - unfold tasksAt. cbn. by rewrite list_lookup_alter_eq, Hc.
Qed.

Lemma prepareStart_sameTasks i : keeps (sameTasks i) (prepareStart i).
Proof.
  unfold prepareStart, startNode, load, when. keeping.
  all: try (apply update_sameTasks; intros c'; rewrite ?bootstrapped_tasks; done).
  all: try apply inSync_sameTasks.
  all: intros s s' r; try by intros [= <- _].
  - unfold deref. case_match; [|done]. by intros [= <- _].
  - case_match; [|done]. repeat case_match; intros [= <- _]; by apply same_heap.
Qed.

Lemma load_same i : keeps (sameTasks i) (load i).
Proof. intros s s' r. unfold load, deref. case_match; [|done]. by intros [= <- _]. Qed.

Lemma activate_sameTasks i state : keeps (sameTasks i) (activate random clock i state).
Proof.
  unfold activate. keeping.
  all: try (apply update_sameTasks; done).
  all: try (by apply modify_same_heap).
  all: try apply load_same.
  - intros s s' r. by intros [= <- _].
  - intros s s' r. unfold addNode. repeat case_match; intros [= <- _]; by apply same_heap.
  - intros s s' r. unfold addUsers. repeat case_match; intros [= <- _]; by apply same_heap.
Qed.

Lemma startRealtime_sameTasks i : keeps (sameTasks i) (startRealtime i).
Proof.
  unfold startRealtime. keeping; [apply load_same|by apply update_sameTasks].
Qed.

(** [startTasks] starts the tasks of its controller. *)
Lemma startTasks_spec i n s s' r :
  startTasks i n s = Some (s', r) → sameBut i s s' ∧ r = Ok () ∧ runsAt s' i = true
    ∧ core s' = core s ∧ limiters s' = limiters s ∧ registry s' = registry s ∧ disk s' = disk s
    ∧ ∃ c ts, heap s !! i = Some c ∧ heap s' !! i = Some (withTasks ts c).
Proof.
  unfold startTasks, load, deref, mbind, action_bind, mret, action_ret.
  destruct (heap s !! i) as [c|] eqn:Hc; [|done].
  destruct (Panel.Security n =? Panel.SecurityTls).
  1: destruct (option_bind _ _ _ _) as [mode|]; [|done].
  all: intros [= <- <-]; split_and!; [apply alter_sameBut|done| |done..|].
  1, 3: unfold runsAt, tasksAt; cbn; rewrite list_lookup_alter_eq, Hc; done.
  all: exists c; eexists; split; [done|]; cbn; by rewrite list_lookup_alter_eq, Hc.
Qed.

Lemma sameTasks_runs j s s' i : sameTasks j s s' → runsAt s' i = runsAt s i.
Proof.
  intros [[_ Hs] Hj]. unfold runsAt. destruct (decide (i = j)) as [->|Hne]; [by rewrite Hj|].
  unfold tasksAt. by rewrite Hs.
Qed.

Lemma sameBut_runs j s s' i : sameBut j s s' → i ≠ j → runsAt s' i = runsAt s i.
Proof. intros [_ Hs] Hi. unfold runsAt, tasksAt. by rewrite Hs. Qed.

Lemma activated_spec i state s s' r :
  activatePreparedStart random clock i state s = Some (s', r) →
  match r with Ok _ => sameBut i s s' ∧ runsAt s' i = true | Err _ => sameTasks i s s' end.
Proof.
  unfold activatePreparedStart. intros Hrun. destruct r as [u|e].
  - apply bind_Ok in Hrun as (s1 & [] & H1 & Hrun). apply bind_Ok in Hrun as (s2 & [] & H2 & H3).
    apply activate_sameTasks in H1. apply startTasks_spec in H2 as (Hb & _ & Hr & _).
    apply startRealtime_sameTasks in H3. split.
    + etrans; [by apply sameTasks_but|]. etrans; [done|by apply sameTasks_but].
    + by rewrite (sameTasks_runs _ _ _ _ H3).
  - apply bind_Err in Hrun as [Hrun|(s1 & [] & H1 & Hrun)]; [by eapply activate_sameTasks|].
    apply activate_sameTasks in H1. apply bind_Err in Hrun as [Hrun|(s2 & [] & H2 & Hrun)].
    + by apply startTasks_spec in Hrun as (_ & ? & _).
    + exfalso. revert Hrun. unfold startRealtime, load, deref, mbind, action_bind, mret, action_ret.
      repeat case_match; try done; by intros [= <-].
Qed.

Lemma Start_spec i s s' r :
  Start random clock i s = Some (s', r) →
  match r with Ok _ => sameBut i s s' ∧ runsAt s' i = true | Err _ => sameTasks i s s' end.
Proof.
  unfold Start. intros Hrun. destruct r as [u|e].
  - apply bind_Ok in Hrun as (s1 & state & H1 & Hrun). apply prepareStart_sameTasks in H1.
    apply activated_spec in Hrun as [Hb Hr]. split; [|done]. etrans; [by apply sameTasks_but|done].
  - apply bind_Err in Hrun as [Hrun|(s1 & state & H1 & Hrun)]; [by eapply prepareStart_sameTasks|].
    apply prepareStart_sameTasks in H1. apply activated_spec in Hrun. by etrans.
Qed.

(** Closing the client of a controller, if it has one, waits for ever or forgets it. *)
Lemma closeClient_eq i s c : heap s !! i = Some c →
  closeClient clientEnds i s =
  if bool_decide (realtimeClient c ≠ None) && negb (clientEnds i) then None
  else Some (withHeap (alter (withClient None) i (heap s)) s, Ok ()).
Proof.
  intros Hc. unfold closeClient, load, deref, mbind, action_bind. rewrite Hc. destruct (realtimeClient c) eqn:Hr.
  - rewrite bool_decide_true by done. by destruct (clientEnds i).
  - rewrite bool_decide_false by (by intros []). cbn. do 2 f_equal.
    assert (Hh : alter (withClient None) i (heap s) = heap s); [|rewrite Hh; by destruct s].
    apply list_eq. intros j. destruct (decide (j = i)) as [->|Hne]; [|by rewrite list_lookup_alter_ne].
    rewrite list_lookup_alter_eq, Hc. cbn. destruct c. cbn in *. by rewrite Hr.
Qed.

(** [Close] stops the tasks of its controller, also when the node cannot be
    removed from the core. *)
Lemma closeController_spec i s s' r :
  Close clientEnds i s = Some (s', r) → sameBut i s s' ∧ runsAt s' i = false
    ∧ ∃ c c', heap s !! i = Some c ∧ heap s' !! i = Some c' ∧ runs (tasks c') = false
        ∧ tag c' = tag c ∧ realtimeClient c' = None ∧ registry s' = delete (tag c) (registry s)
        ∧ limiters s' = limiters s ∧ hasServer c = true
        ∧ core s' = (Core.DelNode (tag c) (core s)).1 ∧ (r = Ok () ↔ (Core.DelNode (tag c) (core s)).2 = None).
Proof.
  unfold Close. unfold mbind at 1, action_bind at 1. destruct (heap s !! i) as [c|] eqn:Hc;
    [|unfold closeClient, load, deref, mbind, action_bind; by rewrite Hc].
  rewrite (closeClient_eq i s c) by done. destruct (_ && _); [done|].
  unfold load, deref, orErr, mapErr, mbind, action_bind, mret, action_ret. cbn [update modify heap withHeap].
  rewrite list_lookup_alter_eq, Hc. cbn.
  destruct (closeTasks (tasks c)) as [ts|] eqn:Hts; [|done]. apply closeTasks_stops in Hts.
  destruct (hasServer c) eqn:Hserver; [|done].
  cbn [core withHeap withLimiters heap limiters registry].
  destruct (Core.DelNode (tag c) (core s)) as [v [e|]] eqn:Hdel; intros [= <- <-]; cbn.
  all: split_and!; [split; cbn; [by rewrite !length_alter|intros j Hj; by rewrite !list_lookup_alter_ne]| |].
  1, 3: unfold runsAt, tasksAt; cbn; rewrite !list_lookup_alter_eq, Hc; done.
  all: exists c, (withTasks ts (withClient None c)); split_and!; try done.
  all: rewrite ?list_lookup_alter_eq, ?Hc, ?Hdel; done.
Qed.

(** ** What a preparation leaves untouched *)

Record prepared (i : nat) s s' : Prop := {
  pr_heap : sameBut i s s';
  pr_tasks : tasksAt s' i = tasksAt s i;
  pr_core : core s' = core s;
  pr_limiters : limiters s' = limiters s;
  pr_registry : registry s' = registry s;
  pr_forwards : forwards s' = forwards s
}.

#[local] Instance prepared_order i : PreOrder (prepared i).
Proof.
  split; [by split|]. intros s1 s2 s3 [H1 H2 H3 H4 H5 H6] [G1 G2 G3 G4 G5 G6].
  split; [by transitivity s2|congruence..].
Qed.

Lemma update_prepared i f : (∀ c, tasks (f c) = tasks c) → keeps (prepared i) (update i f).
Proof. intros Hf. apply keeps_modify. intros s. by destruct (alter_sameTasks i f s Hf). Qed.

Lemma loadAndSyncUsers_frame cp u u' r :
  UserSync.loadAndSyncUsers cp u = (u', r) →
  UserSync.c_limiter u' = UserSync.c_limiter u ∧ UserSync.c_server u' = UserSync.c_server u.
Proof.
  unfold UserSync.loadAndSyncUsers, UserSync.warmStart, UserSync.loadUserList.
  repeat case_match; simplify_eq; intros [= <- _]; done.
Qed.

(** A step that leaves the limiter and the core alone. *)
Lemma inSync_prepared {A} i (f : UserSync.Controller → option (UserSync.Controller * result A)) :
  (∀ u u' r, f u = Some (u', r) →
    UserSync.c_limiter u' = UserSync.c_limiter u ∧ UserSync.c_server u' = UserSync.c_server u) →
  keeps (prepared i) (inSync i f).
Proof.
  intros Hf s s' r Hrun. pose proof Hrun as [Hb Ht]%inSync_sameTasks. revert Hrun. unfold inSync.
  destruct (heap s !! i) as [c|] eqn:Hc; [|done]. destruct (f (view c s)) as [[u r']|] eqn:Hu; [|done].
  intros [= <- _]. apply Hf in Hu as [Hl Hv]. split; try done. cbn. rewrite Hc, Hl. cbn.
  destruct (limiter c) as [p|]; [|done]. cbn. destruct (limiters s !! p) as [l|] eqn:Hp; cbn.
  - by apply list_insert_id.
  - by apply list_insert_ge, lookup_ge_None.
Qed.

Lemma prepareStart_prepared i : keeps (prepared i) (prepareStart i).
Proof.
  unfold prepareStart, startNode, load, when. keeping.
  all: try (apply update_prepared; intros c'; rewrite ?bootstrapped_tasks; done).
  - intros s s' r. unfold deref. case_match; [|done]. by intros [= <- _].
  - apply inSync_prepared. intros u u' r [= Hu]. by eapply loadAndSyncUsers_frame.
  - intros s s' r. case_match; [|done]. repeat case_match; by intros [= <- _].
Qed.

Lemma prepared_sameTasks i s s' : prepared i s s' → sameTasks i s s'.
Proof. intros [H1 H2 _ _ _ _]. done. Qed.

(** ** Replacing *)

(** The four outcomes of [StartReplacing], as far as the tasks go. *)
Lemma StartReplacing_spec i old s s' r :
  StartReplacing random clock clientEnds i old s = Some (s', r) → i ≠ old →
  (∀ j, j ≠ i → j ≠ old → heap s' !! j = heap s !! j) ∧ length (heap s') = length (heap s) ∧
  ∃ active err, r = Ok (active, err) ∧
  match active, err with
  | true, Some _ => prepared i s s'
  | true, None => False
  | false, None => runsAt s' old = false ∧ runsAt s' i = true
  | false, Some _ => runsAt s' old = false ∧ (runsAt s' i = true → runsAt s i = true)
  end.
Proof.
  intros Hrun Hne. revert Hrun.
  unfold StartReplacing, attempt, mbind, action_bind, mret, action_ret.
  destruct (prepareStart i s) as [[s1 [state|e]]|] eqn:E1; [| |done]; pose proof E1 as Hp%prepareStart_prepared.
  2: { intros [= <- <-]. destruct (pr_heap _ _ _ Hp) as [Hlen Hj]. split_and!; [intros j H1 _; by apply Hj|done|]. by exists true, (Some e). }
  destruct (Close clientEnds old s1) as [[s2 rc]|] eqn:E2; [|done]. apply closeController_spec in E2 as (Hb2 & Hr2 & _).
  assert (H12 : ∀ j, j ≠ i → j ≠ old → heap s2 !! j = heap s !! j).
  { intros j H1 H2. rewrite (proj2 Hb2 j H2). by apply (pr_heap _ _ _ Hp). }
  assert (Hlen : length (heap s2) = length (heap s)) by (rewrite (proj1 Hb2); apply (pr_heap _ _ _ Hp)).
  assert (Hri : runsAt s2 i = runsAt s i).
  { rewrite (sameBut_runs _ _ _ i Hb2) by done. eapply sameTasks_runs. by apply prepared_sameTasks. }
  destruct rc as [[]|e].
  2: { intros [= <- <-]. split_and!; [done|done|]. exists false, (Some e). by rewrite Hri. }
  destruct (activatePreparedStart random clock i state s2) as [[s3 [[]|e]]|] eqn:E3; [| |done]; apply activated_spec in E3.
  - destruct E3 as [Hb3 Hr3]. intros [= <- <-].
    split_and!; [intros j H1 H2; rewrite (proj2 Hb3 j H1); by apply H12|by rewrite (proj1 Hb3)|].
    exists false, None. split_and!; [done| |done]. by rewrite (sameBut_runs _ _ _ old Hb3).
  - destruct (Close clientEnds i s3) as [[s4 rc]|] eqn:E4; [|done]. apply closeController_spec in E4 as (Hb4 & Hr4 & _).
    intros [= <- <-]. pose proof (sameTasks_but _ _ _ E3) as Hb3.
    split_and!; [intros j H1 H2; rewrite (proj2 Hb4 j H1), (proj2 Hb3 j H1); by apply H12|by rewrite (proj1 Hb4), (proj1 Hb3)|].
    exists false, (Some e). split_and!; [done| |by rewrite Hr4].
    rewrite (sameBut_runs _ _ _ old Hb4), (sameBut_runs _ _ _ old Hb3) by done. done.
Qed.

(** ** The laws of machine mode *)

Definition runningControllers s : gset nat :=
  list_to_set (filter (λ i, runsAt s i = true) (seq 0 (length (heap s)))).

Definition knownControllers s : gset nat := list_to_set (seq 0 (length (heap s))).

Lemma runsAt_lt s i : runsAt s i = true → (i < length (heap s))%nat.
Proof.
  unfold runsAt, tasksAt. destruct (heap s !! i) eqn:Hi; [|done]. intros _. by eapply lookup_lt_Some.
Qed.

Lemma elem_of_running s i : i ∈ runningControllers s ↔ runsAt s i = true.
Proof.
  unfold runningControllers. rewrite elem_of_list_to_set, list_elem_of_filter, elem_of_seq. split; [tauto|].
  intros Hr. split; [done|]. apply runsAt_lt in Hr. lia.
Qed.

Lemma elem_of_known s i : i ∈ knownControllers s ↔ (i < length (heap s))%nat.
Proof. unfold knownControllers. rewrite elem_of_list_to_set, elem_of_seq. lia. Qed.

Lemma known_length s s' : length (heap s') = length (heap s) → knownControllers s' = knownControllers s.
Proof. unfold knownControllers. by intros ->. Qed.

Lemma running_same i s s' : sameTasks i s s' → runningControllers s' = runningControllers s.
Proof. intros Hs. apply set_eq. intros j. rewrite !elem_of_running. by rewrite (sameTasks_runs _ _ _ _ Hs). Qed.

Lemma running_started i s s' :
  sameBut i s s' → runsAt s' i = true → runningControllers s' = {[i]} ∪ runningControllers s.
Proof.
  intros Hs Hi. apply set_eq. intros j. rewrite elem_of_union, elem_of_singleton, !elem_of_running.
  destruct (decide (j = i)) as [->|Hne]; [tauto|]. rewrite (sameBut_runs _ _ _ _ Hs Hne). tauto.
Qed.

Lemma running_stopped i s s' :
  sameBut i s s' → runsAt s' i = false → runningControllers s' = runningControllers s ∖ {[i]}.
Proof.
  intros Hs Hi. apply set_eq. intros j. rewrite elem_of_difference, elem_of_singleton, !elem_of_running.
  destruct (decide (j = i)) as [->|Hne]; [rewrite Hi; naive_solver|]. rewrite (sameBut_runs _ _ _ _ Hs Hne). tauto.
Qed.

(** The controllers keep what machine mode relies on. *)
#[global] Instance controllerLaws : @MachineProps.ControllerLaws (controllerOps stateDir random clock clientEnds).
Proof.
  unshelve refine (@MachineProps.Build_ControllerLaws (controllerOps stateDir random clock clientEnds)
                     runningControllers knownControllers _ _ _ _ _).
  - intros cp cfg n rt b s i s'. cbn. intros [= <- <-]. split_and!.
    + rewrite elem_of_known. lia.
    + apply set_eq. intros j. rewrite elem_of_union, elem_of_singleton, !elem_of_known. cbn. rewrite length_app. cbn. lia.
    + apply set_eq. intros j. rewrite !elem_of_running. unfold runsAt, tasksAt. cbn.
      destruct (decide (j < length (heap s))%nat) as [Hlt|Hge].
      * by rewrite lookup_app_l.
      * rewrite lookup_app_r by lia. rewrite (lookup_ge_None_2 (heap s)) by lia.
        destruct (j - length (heap s))%nat as [|k]; done.
  - intros i s s' err. cbn. destruct (Start random clock i s) as [[s1 [[]|e]]|] eqn:E; cbn; intros [= <- <-]; [| |done].
    + apply Start_spec in E as [Hb Hr]. split; [by apply known_length, Hb|by apply running_started].
    + apply Start_spec in E. split; [by apply known_length, E|by eapply running_same].
  - intros i s s' err. cbn. destruct (Close clientEnds i s) as [[s1 r]|] eqn:E.
    + apply closeController_spec in E as (Hb & Hr & _).
      destruct r; cbn; intros [= <- <-]; (split; [by apply known_length, Hb|by apply running_stopped]).
    + cbn. intros [= <- <-]. split; [apply known_length; cbn; apply length_alter|].
      apply running_stopped; [apply alter_sameBut|]. unfold runsAt, tasksAt. cbn. rewrite list_lookup_alter_eq.
      by destruct (heap s !! i).
  - intros old i s s' active err Hi Hne. rewrite elem_of_running in Hi. cbn.
    destruct (StartReplacing random clock clientEnds i old s) as [[s1 r]|] eqn:E; [|by intros [= <- <- <-]].
    apply StartReplacing_spec in E as (Hj & Hlen & a & o & -> & Hout); [|done]. intros [= <- <- <-].
    split; [by apply known_length|]. destruct a, o as [e|]; [|done| |].
    + eapply running_same. by apply prepared_sameTasks.
    + destruct Hout as [Ho Hi1]. apply set_eq. intros j. rewrite elem_of_difference, elem_of_singleton, !elem_of_running.
      destruct (decide (j = old)) as [->|Hjo]; [rewrite Ho; naive_solver|].
      destruct (decide (j = i)) as [->|Hji]; [split; [tauto|intros [? _]; done]|].
      unfold runsAt, tasksAt. rewrite Hj by done. tauto.
    + destruct Hout as [Ho Hi1]. apply set_eq. intros j.
      rewrite elem_of_union, elem_of_difference, !elem_of_singleton, !elem_of_running.
      destruct (decide (j = i)) as [->|Hji]; [tauto|].
      destruct (decide (j = old)) as [->|Hjo]; [rewrite Ho; naive_solver|].
      unfold runsAt, tasksAt. rewrite Hj by done. tauto.
  - by intros a s.
Defined.

(** ** A successful start *)

Lemma prepareStart_Ok i s s' state c n :
  prepareStart i s = Some (s', Ok state) → heap s !! i = Some c → info c = Some n →
  st_node state = n ∧ st_userList state ≠ [] ∧ is_Some (heap s' !! i)
  ∧ ∃ u, UserSync.loadAndSyncUsers (answers (controlPlane c)) (view (bootstrapped (withNode n (withServerSet c))) s)
         = (u, Ok (st_userList state)).
Proof.
  intros Hrun Hc Hn. pose proof (prepareStart_prepared _ _ _ _ Hrun) as [[Hlen _] _ _ _ _ _].
  assert (Hin : is_Some (heap s' !! i)) by (apply lookup_lt_is_Some; rewrite Hlen; by eapply lookup_lt_Some).
  unfold prepareStart in Hrun.
  apply bind_Ok in Hrun as (s1 & [] & [= <-] & Hrun). apply bind_Ok in Hrun as (s2 & c2 & Hload & Hrun).
  unfold load, deref in Hload. cbn in Hload. rewrite list_lookup_alter_eq, Hc in Hload. cbn in Hload.
  injection Hload as <- <-. unfold startNode in Hrun. cbn [info withServerSet] in Hrun. rewrite Hn in Hrun.
  apply bind_Ok in Hrun as (s3 & n3 & [= <- <-] & Hrun). apply bind_Ok in Hrun as (s4 & [] & [= <-] & Hrun).
  apply bind_Ok in Hrun as (s5 & us & Hsync%mapErr_Ok & Hrun). unfold inSync in Hsync. cbn [heap withHeap] in Hsync.
  rewrite !list_lookup_alter_eq, Hc in Hsync. cbn [fmap option_fmap option_map] in Hsync.
  destruct (UserSync.loadAndSyncUsers _ _) as [u r] eqn:Hu in Hsync. injection Hsync as <- ->.
  apply bind_Ok in Hrun as (s6 & [] & Hus & Hrun). case_bool_decide as Hnil; [done|]. injection Hus as <-.
  apply bind_Ok in Hrun as (s7 & [] & _ & [= _ <-]). cbn. split_and!; [done|done|done|]. exists u. exact Hu.
Qed.

(** The limiter of a started controller. *)
Definition startedLimiter (now : Z) (state : startState) : Limiter.Limiter :=
  Limiter.SetDefaultDeviceLimit (Panel.defaultDeviceLimitFromNode (Some (st_node state)))
    (Limiter.SetAliveSnapshot now (Some (st_aliveSnapshot state))
       (Limiter.newLimiter (Panel.Type_ (st_node state)) (Panel.Tag (st_node state)) (st_userList state)
          (Some (st_aliveMap state)))).

Lemma activate_Ok i s s' state c :
  activate random clock i state s = Some (s', Ok ()) → heap s !! i = Some c →
  ∃ p now v k, heap s' !! i = Some (withLimiter (Some p) (adopt state c))
    ∧ registry s' !! Panel.Tag (st_node state) = Some p ∧ limiters s' !! p = Some (startedLimiter now state)
    ∧ Core.AddNode (random (starts s')) (clock (starts s')) (Panel.Tag (st_node state)) (Some (st_node state)) (core s) = Some (v, None)
    ∧ Core.AddUsers (Core.mkAddUsersParams (Panel.Tag (st_node state)) (st_userList state) (Some (st_node state))) v
      = Some (core s', (k, None)).
Proof.
  intros Hrun Hc. unfold activate in Hrun.
  apply bind_Ok in Hrun as (s1 & [] & [= <-] & Hrun). apply bind_Ok in Hrun as (s2 & [] & [= <-] & Hrun).
  apply bind_Ok in Hrun as (s3 & p & [= <- <-] & Hrun). apply bind_Ok in Hrun as (s4 & now & [= <- <-] & Hrun).
  apply bind_Ok in Hrun as (s5 & [] & [= <-] & Hrun). apply bind_Ok in Hrun as (s6 & [] & [= <-] & Hrun).
  apply bind_Ok in Hrun as (s7 & [] & Hnode%mapErr_Ok & Hrun). unfold addNode in Hnode. cbn in Hnode.
  destruct (Core.AddNode _ _ _ _ _) as [[v [e|]]|] eqn:Hn in Hnode; [done| |done]. injection Hnode as <-.
  apply bind_Ok in Hrun as (s8 & [] & Husers%mapErr_Ok & Hrun). unfold addUsers in Husers. cbn in Husers.
  destruct (Core.AddUsers _ _) as [[v2 [k [e|]]]|] eqn:Hk in Husers; [done| |done]. injection Husers as <-.
  apply bind_Ok in Hrun as (s9 & c9 & Hload & Hrun). unfold load, deref in Hload. cbn in Hload.
  rewrite !list_lookup_alter_eq, Hc in Hload. cbn in Hload. injection Hload as <- <-.
  assert (Hs : s' = withCore v2 (withCore v (withHeap (alter (withLimiter (Some (length (limiters s)))) i
    (alter (adopt state) i (heap s))) (withLimiters (alter (λ l : Limiter.Limiter, Limiter.SetDefaultDeviceLimit (Panel.defaultDeviceLimitFromNode (Some (st_node state)))
       (Limiter.SetAliveSnapshot (clock (S (starts s))) (Some (st_aliveSnapshot state)) l)) (length (limiters s))
       (limiters s ++ [Limiter.newLimiter (Panel.Type_ (st_node state)) (Panel.Tag (st_node state)) (st_userList state)
          (Some (st_aliveMap state))])) (<[Panel.Tag (st_node state) := length (limiters s)]> (registry s)) (nextStart s))))).
  { revert Hrun. case_match; [done|]. by intros [= <-]. }
  subst s'. exists (length (limiters s)), (clock (S (starts s))), v, k. cbn. split_and!.
  - by rewrite !list_lookup_alter_eq, Hc.
  - by rewrite lookup_insert_eq.
  - by rewrite list_lookup_alter_eq, lookup_app_r, Nat.sub_diag by done.
  - exact Hn.
  - exact Hk.
Qed.

End props.
End LifecycleProps.
