(* ===== verification/StartProps.v ===== *)
(** * Properties of starting, replacing and closing a controller

    A started controller has its users in the limiter and in the core
    ([Start_agrees]), which is the invariant that synchronisation keeps.
    Replacing a controller either leaves the old one and everything it shares
    untouched, or stops it ([StartReplacing_outcome]). Closing releases the
    controller whatever the core answers, unless it waits for the realtime client
    of the controller for ever ([Close_releases]). *)

From Stdlib Require Import Ascii.
From S2P Require Import Prelude GoStrings FilePath Action Json Panel Conf Limiter LimiterProps Inbound Task TaskProps Links Traffic Core.
From S2P Require Import CoreProps EdgeSidecar UserSync UserSyncProps Realtime Certs EdgeTraffic Report Machine MachineProps Lifecycle LifecycleProps.

Module StartProps.
Import Action Lifecycle LifecycleProps.

(** What adding an inbound handler to Xray promises: the manager of its tag knows
    the users of the configuration, of which [members] keeps those with the prefix
    of the tag. *)
Class HandlerLaws `{Laws : CoreProps.UserManagerLaws} := {
  config_tag : Core.HandlerConfig → string;
  config_users : Core.HandlerConfig → list string;
  handler_tag : Core.Handler → string;
  handler_users : Core.Handler → list string;
  Build_config d hc : Core.Build d = Ok hc →
    config_tag hc = Inbound.in_Tag d ∧ config_users hc = CoreProps.settingsUsers d;
  CreateObject_handler i hc h : Core.CreateObject i hc = Ok (Some h) →
    handler_tag h = config_tag hc ∧ handler_users h = config_users hc;
  AddHandler_members m h m' : Core.AddHandler m h = (m', None) →
    CoreProps.members m' (handler_tag h)
    = list_to_set (filter (λ k, CoreProps.hasTag (handler_tag h) k = true) (handler_users h))
}.

Section props.
Context `{HL : HandlerLaws} `{RL : Limiter.RateLimit} `{Sha : EdgeSidecar.Sha1}.
Context `{Net : Realtime.NetURL} `{Cert : Certs.CertEnv}.
Context {RO : RangeOrder string} {ROn : RangeOrder nat}.
Context (random : nat → nat → result (list ascii)) (clock : nat → Z) (clientEnds : nat → bool).
Implicit Types (s : System) (c : Controller).

Lemma buildInbound_tag rnd now n cm tag ip d :
  Inbound.buildInboundWithListenIP rnd now n cm tag ip = Ok d → Inbound.in_Tag d = tag.
Proof.
  unfold Inbound.buildInboundWithListenIP, result_bind. repeat case_match; try done. by intros [= <-].
Qed.

(** The configuration of a node has its tag, and no user of its own that could be
    taken for one of the panel. *)
Lemma buildHandler_config rnd now n cm tag ip hc :
  Core.buildHandler rnd now n cm tag ip = Ok hc →
  config_tag hc = tag ∧ ∃ d, config_users hc = CoreProps.settingsUsers d ∧ CoreProps.unkeyed d.
Proof.
  unfold Core.buildHandler, result_bind. destruct (Inbound.buildInboundWithListenIP _ _ _ _ _ _) as [d|] eqn:Hd; [|done].
  intros [Ht Hu]%Build_config. rewrite Ht. split; [by eapply buildInbound_tag|].
  exists d. split; [done|]. by eapply CoreProps.buildInbound_unkeyed.
Qed.

Lemma addInbound_members rnd now n cm tag ip hc v v' :
  Core.buildHandler rnd now n cm tag ip = Ok hc → Core.addInbound hc v = (v', None) →
  Core.uidMap v' = Core.uidMap v ∧ ∃ m, Core.ihm v' = Some m ∧ CoreProps.members m tag = ∅.
Proof.
  intros (Htag & d & Hd & Hunkeyed)%buildHandler_config. unfold Core.addInbound. destruct (Core.Server v), (Core.ihm v) as [m|]; try done.
  destruct (Core.CreateObject _ hc) as [[h|]|] eqn:Hh; try done.
  destruct (Core.AddHandler m h) as [m' err] eqn:Ha. intros [= <- ->]. split; [done|]. exists m'. split; [done|].
  apply CreateObject_handler in Hh as [Ht Hu]. apply AddHandler_members in Ha.
  by rewrite Hu, Hd, (CoreProps.unkeyed_filter d), Ht, Htag in Ha.
Qed.

(** A node that was added has no users yet. *)
Lemma AddNode_members rnd now tag n v v' :
  Core.AddNode rnd now tag (Some n) v = Some (v', None) → Core.IsExternalSidecarNodeType (Panel.Type_ n) = false →
  Core.uidMap v' = Core.uidMap v ∧ ∃ m, Core.ihm v' = Some m ∧ CoreProps.members m tag = ∅.
Proof.
  intros Hadd Hside. revert Hadd. unfold Core.AddNode. rewrite Hside.
  destruct (Core.Server v), (Core.ihm v); try done. destruct (Panel.Common n) as [cm|]; [|done].
  destruct (Core.buildHandler (rnd 0%nat) _ _ _ _ _) as [hc|] eqn:Hb; [|done].
  destruct (Core.addInbound hc v) as [v1 [e|]] eqn:Ha.
  - destruct (Inbound.shouldFallbackNodeListenIP _); [|done].
    destruct (Core.removeInbound tag v1) as [v2 err2] eqn:Hrm.
    assert (Hu : Core.uidMap v2 = Core.uidMap v).
    { transitivity (Core.uidMap v1).
      - unfold Core.removeInbound in Hrm. destruct (Core.ihm v1); [destruct (Core.RemoveHandler _ _)|]; by injection Hrm as <- _.
      - unfold Core.addInbound in Ha. repeat case_match; by simplify_eq. }
    destruct (Core.buildHandler (rnd 1%nat) _ _ _ _ _) as [hc2|] eqn:Hb2; [|done].
    destruct (Core.addInbound hc2 v2) as [v3 [e3|]] eqn:Ha2; [done|]. intros [= <-].
    destruct (addInbound_members _ _ _ _ _ _ _ _ _ Hb2 Ha2) as (Hu3 & m & Hm & Hmem). split; [congruence|]. by exists m.
  - intros [= <-]. exact (addInbound_members _ _ _ _ _ _ _ _ _ Hb Ha).
Qed.

(** The core represents the users of a node that was just added. *)
Lemma AddUsers_represents rnd now tag n us v v1 v2 k :
  Core.AddNode rnd now tag (Some n) v = Some (v1, None) → Core.IsExternalSidecarNodeType (Panel.Type_ n) = false →
  is_Some (Core.uidMap v) → Core.AddUsers (Core.mkAddUsersParams tag us (Some n)) v1 = Some (v2, (k, None)) →
  CoreProps.represents tag v2 (UserSyncProps.coreTable tag (UserSync.userMap us)).
Proof.
  intros Hadd Hside [um Hum] Hus. apply AddNode_members in Hadd as (Hu & m & Hm & Hmem); [|done].
  assert (Hr : CoreProps.represents tag v1 (UserSyncProps.coreTable tag ∅)).
  { split.
    - exists m. split; [done|]. rewrite Hmem. unfold UserSyncProps.coreTable. by rewrite fmap_empty, kmap_empty, dom_empty_L.
    - exists um. split; [congruence|]. unfold UserSyncProps.coreTable. rewrite fmap_empty, kmap_empty. apply map_empty_subseteq. }
  change (UserSync.userMap us) with (UserSyncProps.insertUsers ∅ us). rewrite <- (UserSyncProps.coreTable_add tag ∅ us n).
  apply (CoreProps.represents_runUserOp (λ _, []) Core.background tag (CoreProps.OpAdd us n) v1 _ v2 Hr).
  cbn. rewrite Hside. unfold Core.AddUsers in Hus. by rewrite Hus.
Qed.

Lemma startedLimiter_represents now state :
  LimiterProps.represents (Panel.Tag (st_node state)) (startedLimiter now state)
    (UserSyncProps.limiterTable (UserSync.userMap (st_userList state))).
Proof.
  unfold startedLimiter. set (tag := Panel.Tag (st_node state)).
  assert (Hr : LimiterProps.represents tag
    (Limiter.newLimiter (Panel.Type_ (st_node state)) tag (st_userList state) (Some (st_aliveMap state)))
    (UserSyncProps.limiterTable (UserSync.userMap (st_userList state)))).
  { change (UserSync.userMap (st_userList state)) with (UserSyncProps.insertUsers ∅ (st_userList state)).
    rewrite <- UserSyncProps.limiterTable_insert. unfold UserSyncProps.limiterTable. rewrite fmap_empty.
    apply LimiterProps.represents_newLimiter. }
  apply (LimiterProps.represents_runOp tag (LimiterProps.OpSetAliveSnapshot now (Some (st_aliveSnapshot state)))) in Hr.
  exact (LimiterProps.represents_runOp tag
           (LimiterProps.OpSetDefaultDeviceLimit (Panel.defaultDeviceLimitFromNode (Some (st_node state)))) _ _ Hr).
Qed.

Lemma activated_agrees i s s' state c :
  activate random clock i state s = Some (s', Ok ()) → heap s !! i = Some c →
  Core.IsExternalSidecarNodeType (Panel.Type_ (st_node state)) = false → is_Some (Core.uidMap (core s)) →
  ∃ c', heap s' !! i = Some c' ∧ UserSyncProps.agrees (view c' s') ∧ userList (users c') = st_userList state
    ∧ info c' = Some (st_node state) ∧ tag c' = Panel.Tag (st_node state)
    ∧ registry s' !! tag c' = limiter c' ∧ limiter c' ≠ None.
Proof.
  intros Hrun Hc Hside Hum. destruct (activate_Ok _ _ _ _ _ _ _ Hrun Hc) as (p & now & v & k & Hh & Hreg & Hl & Hn & Hu).
  eexists. split; [exact Hh|]. cbn. split_and!; [|done..|by rewrite Hreg|done]. split; cbn.
  - rewrite Hl. cbn. apply startedLimiter_represents.
  - by eapply AddUsers_represents.
Qed.

(** A view of a controller depends on its user state, limiter and the shared
    parts only. *)
Lemma view_withTasks ts c s s' :
  core s' = core s → limiters s' = limiters s → disk s' = disk s → view (withTasks ts c) s' = view c s.
Proof. intros H1 H2 H3. unfold view. cbn. by rewrite H1, H2, H3. Qed.

Lemma startRealtime_frame i s s' r c :
  startRealtime i s = Some (s', r) → heap s !! i = Some c →
  core s' = core s ∧ limiters s' = limiters s ∧ registry s' = registry s ∧ disk s' = disk s
  ∧ ∃ rt, heap s' !! i = Some (withClient rt c).
Proof.
  unfold startRealtime, load, deref, mbind, action_bind, mret, action_ret. intros Hrun Hc. rewrite Hc in Hrun.
  destruct (Realtime.resolveRealtimeOptions _ _ _ _) as [[o|]|]; [| |done]; injection Hrun as <- _; split_and!; try done.
  - exists (Some o). cbn. by rewrite list_lookup_alter_eq, Hc.
  - exists (realtimeClient c). rewrite Hc. by destruct c.
Qed.

(** The controller [i] serves the users [us] of the node [n]: its list, its
    limiter and the core hold them, its limiter is the registered one, and its
    tasks run. *)
Definition serving (n : Panel.NodeInfo) (us : list Panel.UserInfo) (i : nat) s : Prop :=
  ∃ c, heap s !! i = Some c ∧ UserSyncProps.agrees (view c s) ∧ userList (users c) = us
    ∧ tag c = Panel.Tag n ∧ registry s !! Panel.Tag n = limiter c ∧ limiter c ≠ None ∧ runsAt s i = true.

Lemma activated_serving i state s s' c :
  activatePreparedStart random clock i state s = Some (s', Ok ()) → heap s !! i = Some c →
  Core.IsExternalSidecarNodeType (Panel.Type_ (st_node state)) = false → is_Some (Core.uidMap (core s)) →
  serving (st_node state) (st_userList state) i s'.
Proof.
  intros Hrun Hc Hside Hum. pose proof Hrun as [_ Hruns]%activated_spec.
  unfold activatePreparedStart in Hrun. apply bind_Ok in Hrun as (s2 & [] & Hact & Hrun).
  destruct (activated_agrees _ _ _ _ _ Hact Hc Hside Hum) as (c2 & Hc2 & Hag & Hul & Hi & Ht & Hreg & Hl).
  apply bind_Ok in Hrun as (s3 & [] & Htasks & Hrt).
  apply startTasks_spec in Htasks as (_ & _ & _ & Hco & Hli & Hre & Hd & c3 & ts & Hc3 & Hc3').
  rewrite Hc2 in Hc3. injection Hc3 as <-.
  destruct (startRealtime_frame _ _ _ _ _ Hrt Hc3') as (Hco' & Hli' & Hre' & Hd' & rt & Hc').
  eexists. split; [exact Hc'|]. cbn. split_and!; [|done|done| |done|done].
  - replace (view _ s') with (view c2 s2); [done|]. unfold view. cbn. by rewrite Hco', Hco, Hli', Hli, Hd', Hd.
  - by rewrite Hre', Hre, <- Ht.
Qed.

Lemma DelNode_uidMap tag v : is_Some (Core.uidMap v) → is_Some (Core.uidMap (Core.DelNode tag v).1).
Proof.
  intros Hv. unfold Core.DelNode. case_bool_decide.
  - unfold Core.deleteUserIDsForTag. cbn. destruct (Core.uidMap v); done.
  - destruct (Core.ihm v) as [m|] eqn:Hm; [|done]. unfold Core.removeInbound. rewrite Hm.
    destruct (Core.RemoveHandler m tag) as [m' [e|]]; exact Hv.
Qed.

(** A controller that started serves the users which [loadAndSyncUsers] got for
    it. *)
Theorem Start_agrees i s s' c n :
  heap s !! i = Some c → info c = Some n → Core.IsExternalSidecarNodeType (Panel.Type_ n) = false →
  is_Some (Core.uidMap (core s)) → Start random clock i s = Some (s', Ok ()) →
  ∃ us u, us ≠ [] ∧ serving n us i s'
    ∧ UserSync.loadAndSyncUsers (answers (controlPlane c)) (view (bootstrapped (withNode n (withServerSet c))) s)
      = (u, Ok us).
Proof.
  intros Hc Hn Hside Hum Hrun. apply bind_Ok in Hrun as (s1 & state & Hprep & Hrun).
  destruct (prepareStart_Ok _ _ _ _ _ _ Hprep Hc Hn) as (Hnode & Hne & [c1 Hc1] & u & Hu).
  apply prepareStart_prepared in Hprep as [_ _ Hcore _ _ _]. exists (st_userList state), u.
  split; [done|]. split; [|done]. rewrite <- Hnode. eapply activated_serving; [done..|by rewrite Hnode|by rewrite Hcore].
Qed.

(** C12. Replacing by a controller that has its node and does not run. When
    [StartReplacing] returns, it answers whether the old controller is
    still active. If it is, the core, the limiters, the registry and all other
    controllers are as before; if not, the old one is stopped, and the new one runs
    unless there is an error, and then it does not. A new one that runs a node
    which Xray serves (not a sidecar) serves the users that [loadAndSyncUsers] got
    for it: its list, its registered limiter and the core hold them. *)
Theorem StartReplacing_outcome i old s s' r c n :
  heap s !! i = Some c → info c = Some n → i ≠ old → runsAt s i = false → is_Some (Core.uidMap (core s)) →
  StartReplacing random clock clientEnds i old s = Some (s', r) →
  (∀ j, j ≠ i → j ≠ old → heap s' !! j = heap s !! j) ∧
  match r with
  | Ok (true, err) =>
      err ≠ None ∧ heap s' !! old = heap s !! old ∧ core s' = core s ∧ limiters s' = limiters s
      ∧ registry s' = registry s ∧ runsAt s' i = false
  | Ok (false, Some _) => runsAt s' old = false ∧ runsAt s' i = false
  | Ok (false, None) =>
      runsAt s' old = false ∧ runsAt s' i = true
      ∧ (Core.IsExternalSidecarNodeType (Panel.Type_ n) = false → ∃ us u, us ≠ [] ∧ serving n us i s'
         ∧ UserSync.loadAndSyncUsers (answers (controlPlane c)) (view (bootstrapped (withNode n (withServerSet c))) s)
           = (u, Ok us))
  | Err _ => False
  end.
Proof.
  intros Hc Hn Hne Hrest Hum Hrun.
  destruct (StartReplacing_spec _ _ _ _ _ _ _ _ Hrun Hne) as (Hj & _ & active & err & -> & Hout). split; [done|].
  destruct active, err as [e|]; [| done | |].
  - destruct Hout as [[Hlen Hb] Ht Hcore Hl Hr _]. split_and!; [done|by apply Hb|done..|].
    unfold runsAt in *. by rewrite Ht.
  - destruct Hout as [Ho Hi]. split; [done|]. apply not_true_is_false. intros Hx. apply Hi in Hx. congruence.
  - split_and!; [apply Hout..|]. intros Hside. clear Hout Hj. revert Hrun.
    unfold StartReplacing, attempt, mbind, action_bind, mret, action_ret.
    destruct (prepareStart i s) as [[s1 [state|e]]|] eqn:E1; [| |done]; [|done].
    destruct (prepareStart_Ok _ _ _ _ _ _ E1 Hc Hn) as (Hnode & Hnil & [c1 Hc1] & u & Hu).
    apply prepareStart_prepared in E1 as [_ _ Hcore _ _ _].
    destruct (Close clientEnds old s1) as [[s2 [[]|e]]|] eqn:E2; [|done..].
    apply closeController_spec in E2 as ([_ Hb2] & _ & oc & _ & _ & _ & _ & _ & _ & _ & _ & _ & Hcore2 & _).
    destruct (activatePreparedStart random clock i state s2) as [[s3 [[]|e]]|] eqn:E3; [| |done].
    2: { by destruct (Close clientEnds i s3) as [[]|]. }
    intros [= <-]. exists (st_userList state), u. split; [done|]. split; [|done]. rewrite <- Hnode.
    eapply activated_serving; [done|by rewrite Hb2|by rewrite Hnode|]. rewrite Hcore2. apply DelNode_uidMap. by rewrite Hcore.
Qed.

(** Tasks as the code makes them. *)
Definition tasksWf (ts : Tasks) : Prop :=
  Forall (λ t, match t with Some t => TaskProps.wf t | None => True end)
    [nodeConfigMonitorPeriodic ts; nodeUserMonitorPeriodic ts; userReportPeriodic ts; renewCertPeriodic ts].

Lemma closeTask_total t :
  match t with Some t => TaskProps.wf t | None => True end → ∃ t', closeTask t = Some t'.
Proof.
  destruct t as [t|]; [|by exists None]. intros Hwf. destruct (TaskProps.safeStop_spec t Hwf) as (t' & Ht & _).
  exists (Some t'). unfold closeTask, Task.Close. by rewrite Ht.
Qed.

Lemma closeTasks_total ts : tasksWf ts → ∃ ts', closeTasks ts = Some ts'.
Proof.
  unfold tasksWf, closeTasks. rewrite !Forall_cons. intros (H1 & H2 & H3 & H4 & _).
  apply closeTask_total in H1 as [a ->], H2 as [b ->], H3 as [d ->], H4 as [e ->]. by eexists.
Qed.

(** C13. [Close] of a controller with a server waits for ever exactly when it has
    a connection to the panel whose goroutines do not end. Otherwise it comes to an
    end, and whatever the core answers its tasks are stopped, its connection to the
    panel is given up, its limiter is not registered any more and no other
    controller has changed; it is an error exactly when the core cannot remove the
    node. *)
Theorem Close_releases i s c :
  heap s !! i = Some c → hasServer c = true → tasksWf (tasks c) →
  if bool_decide (realtimeClient c ≠ None) && negb (clientEnds i)
  then Close clientEnds i s = None
  else ∃ s' r c', Close clientEnds i s = Some (s', r) ∧ heap s' !! i = Some c' ∧ runs (tasks c') = false
    ∧ realtimeClient c' = None ∧ registry s' = delete (tag c) (registry s)
    ∧ (∀ j, j ≠ i → heap s' !! j = heap s !! j)
    ∧ core s' = (Core.DelNode (tag c) (core s)).1
    ∧ (r = Ok () ↔ (Core.DelNode (tag c) (core s)).2 = None).
Proof.
  intros Hc Hserver [ts Hts]%closeTasks_total. pose proof (closeClient_eq clientEnds i s c Hc) as Hcl.
  destruct (_ && _); [unfold Close, mbind, action_bind; by rewrite Hcl|].
  assert (Hrun : ∃ s' r, Close clientEnds i s = Some (s', r)).
  { unfold Close, load, deref, orErr, mapErr, mbind, action_bind, mret, action_ret. rewrite Hcl.
    cbn [update modify heap withHeap].
    rewrite list_lookup_alter_eq, Hc. cbn. rewrite Hts, Hserver. cbn [core withHeap withLimiters].
    destruct (Core.DelNode (tag c) (core s)) as [v [e|]]; by do 2 eexists. }
  destruct Hrun as (s' & r & Hrun). exists s', r.
  destruct (closeController_spec _ _ _ _ _ Hrun) as ([_ Hb] & _ & c0 & c' & Hc0 & Hc' & Hruns & Ht & Hrt & Hreg & _ & _ & Hcore & Hr).
  rewrite Hc in Hc0. injection Hc0 as <-. by exists c'.
Qed.

End props.

(** ** Examples at which the hypotheses hold *)

Module Examples.
#[local] Existing Instance CoreProps.Examples.exampleConf.
#[local] Existing Instance CoreProps.Examples.exampleXray.
#[local] Existing Instance CoreProps.Examples.exampleLaws.
#[local] Existing Instance LimiterProps.exampleRateLimit.
#[local] Existing Instance UserSyncProps.Examples.exampleSha.
#[local] Instance exampleOrder : RangeOrder string := canonical_order string.
#[local] Instance exampleOrderNat : RangeOrder nat := canonical_order nat.

#[local] Instance exampleHandlers : HandlerLaws.
Proof.
  refine {| config_tag := Inbound.in_Tag; config_users := CoreProps.settingsUsers;
            handler_tag := Inbound.in_Tag; handler_users := CoreProps.settingsUsers |}.
  - by intros d hc [= <-].
  - by intros i hc h [= <-].
  - intros m h m'. cbn. intros [= <-]. rewrite lookup_insert_eq. cbn. apply CoreProps.Examples.filter_list_to_set.
Defined.

#[local] Instance exampleURL : Realtime.NetURL := {|
  Realtime.ParsedURL := string;
  Realtime.Parse s := Some s;
  Realtime.Scheme _ := "https";
  Realtime.Host s := s;
  Realtime.StringWith host scheme path := scheme +:+ "://" +:+ host +:+ path
|}.

#[local] Instance exampleCerts : Certs.CertEnv := {|
  Certs.FS := gset string;
  Certs.Stat fs f := if bool_decide (f ∈ fs) then None else Some true;
  Certs.MkdirAll _ fs := (fs, None);
  Certs.GenerateKey := None;
  Certs.CreateCertificate d := Ok d;
  Certs.writePEM f _ _ fs := ({[f]} ∪ fs, None);
  Certs.keyPEM := "k";
  Certs.Lego := unit;
  Certs.NewLego _ fs := Some (fs, Ok ());
  Certs.CreateCert _ fs := Some (fs, Ok ())
|}.

Definition exampleRandom (n m : nat) : result (list ascii) := Ok [].
Definition exampleClock (n : nat) : Z := 0.

Definition exampleEnds (n : nat) : bool := true.

Definition examplePlane : Plane := mkPlane UserSyncProps.Examples.examplePanel None.

(** A panel without users. *)
Definition emptyPlane : Plane :=
  mkPlane (UserSync.mkControlPlane (Ok None) (Ok [])
             (λ _, Err (mkError "user_delta not supported" (Some SentinelUserDeltaNotSupported)))
             (Ok None) ∅ UserSyncProps.Examples.emptyAlive) None.

Definition exampleController (cp : Plane) : Controller :=
  NewControllerWithControlPlane "/state" cp (Conf.mkNodeConfig "https://p" 1 "k" 0 0 "")
    (Some (CoreProps.Examples.exampleNode "vless")) Conf.zeroRealtime.

Definition newSystem (cs : list Controller) : System :=
  mkSystem cs (Core.mkV2Core (Some tt) (Some ∅) (Some ∅) (Some ∅) (Some CoreProps.Examples.exampleDispatcher))
    [] ∅ (UserSync.mkDisk ∅ 0 true) (∅ : gset string) 0 [].

Definition running (cs : list Controller) : option (System * result unit) :=
  Start exampleRandom exampleClock 0 (newSystem cs).

Lemma Start_agrees_witness :
  match running [exampleController examplePlane] with
  | Some (s', Ok _) =>
      ∃ us u, us ≠ [] ∧ serving (CoreProps.Examples.exampleNode "vless") us 0 s'
        ∧ UserSync.loadAndSyncUsers (answers examplePlane)
            (view (bootstrapped (withNode (CoreProps.Examples.exampleNode "vless")
               (withServerSet (exampleController examplePlane)))) (newSystem [exampleController examplePlane]))
          = (u, Ok us)
  | _ => False
  end.
Proof.
  assert (Hrun : match running [exampleController examplePlane] with Some (_, Ok _) => true | _ => false end = true)
    by (vm_compute; reflexivity).
  destruct (running [exampleController examplePlane]) as [[s' [[]|e]]|] eqn:E; [|discriminate Hrun..].
  apply (Start_agrees exampleRandom exampleClock 0 (newSystem [exampleController examplePlane]) s'
           (exampleController examplePlane) (CoreProps.Examples.exampleNode "vless")).
  - reflexivity.
  - reflexivity.
  - vm_compute. reflexivity.
  - exists ∅. reflexivity.
  - exact E.
Defined.

(** The controller 0 runs; the controller 1 is for the same node and a panel
    that has no users any more, or still has. *)
Definition replaceIn (cp : Plane) : option (System * result (bool * option GoError)) :=
  match running [exampleController examplePlane; exampleController cp] with
  | Some (s, Ok _) => StartReplacing exampleRandom exampleClock exampleEnds 1 0 s
  | _ => None
  end.

Example replaceIn_outcomes :
  match replaceIn examplePlane, replaceIn emptyPlane with
  | Some (s1, Ok r1), Some (s2, Ok (b, Some e)) =>
      r1 = (false, None) ∧ runsAt s1 0 = false ∧ b = true ∧ runsAt s2 0 = true
  | _, _ => False
  end.
Proof. vm_compute. split_and!; reflexivity. Qed.

Lemma StartReplacing_outcome_witness :
  match running [exampleController examplePlane; exampleController emptyPlane], replaceIn emptyPlane with
  | Some (s, Ok _), Some (s', Ok (true, err)) => err ≠ None ∧ heap s' !! 0%nat = heap s !! 0%nat ∧ core s' = core s
  | _, _ => False
  end.
Proof.
  assert (Hrun : match running [exampleController examplePlane; exampleController emptyPlane] with
    | Some (s, Ok _) =>
        match StartReplacing exampleRandom exampleClock exampleEnds 1 0 s with Some (_, Ok (true, _)) => true | _ => false end
        && negb (runsAt s 1)
    | _ => false end = true) by (vm_compute; reflexivity).
  assert (Hctl : match running [exampleController examplePlane; exampleController emptyPlane] with
    | Some (s, Ok _) =>
        bool_decide (info <$> heap s !! 1%nat = Some (Some (CoreProps.Examples.exampleNode "vless")))
        && bool_decide (is_Some (Core.uidMap (core s)))
    | _ => false end = true).
  { vm_compute. reflexivity. }
  unfold replaceIn.
  destruct (running [exampleController examplePlane; exampleController emptyPlane]) as [[s [[]|e]]|]; [|discriminate..].
  apply andb_true_iff in Hrun as [Hrun Hrest], Hctl as [H1 H2].
  apply bool_decide_eq_true in H1, H2. apply negb_true_iff in Hrest.
  destruct (heap s !! 1%nat) as [c|] eqn:Hc; [|discriminate].
  cbn in H1. assert (Hi : info c = Some (CoreProps.Examples.exampleNode "vless")) by congruence.
  destruct (StartReplacing exampleRandom exampleClock exampleEnds 1 0 s) as [[s' [[[] err]|e]]|] eqn:E; [|discriminate..].
  destruct (StartReplacing_outcome exampleRandom exampleClock exampleEnds 1 0 s s' _ c _ Hc Hi (Nat.neq_succ_0 0) Hrest H2 E)
    as (_ & Herr & Hold & Hcore & _).
  split; [exact Herr|]. split; [exact Hold|exact Hcore].
Defined.

Lemma Close_releases_witness :
  match running [exampleController examplePlane] with
  | Some (s, Ok _) => ∃ s' r, Close exampleEnds 0 s = Some (s', r) ∧ registry s' !! "t" = None
  | _ => False
  end.
Proof.
  assert (Hrun : match running [exampleController examplePlane] with
    | Some (s, Ok _) =>
        match heap s !! 0%nat with
        | Some c => (hasServer c, tag c, tasks c)
                    = (true, "t", mkTasks (started 0 (minutes 2) false) (started 0 (minutes 10) false)
                                    (started 0 (minutes 10) false) None)
        | None => False
        end
    | _ => False end) by (vm_compute; reflexivity).
  destruct (running [exampleController examplePlane]) as [[s [[]|e]]|]; [|destruct Hrun..].
  destruct (heap s !! 0%nat) as [c|] eqn:Hc; [|destruct Hrun].
  apply pair_equal_spec in Hrun as [[Hserver Ht]%pair_equal_spec Hts].
  pose proof (Close_releases exampleEnds 0 s c Hc Hserver) as Hclose. rewrite andb_false_r in Hclose.
  destruct Hclose as (s' & r & c' & H1 & _ & _ & _ & H2 & _).
  - rewrite Hts. repeat apply Forall_cons_2; try apply TaskProps.Start_wf, TaskProps.newTask_wf; [exact I|constructor].
  - exists s', r. split; [exact H1|]. rewrite H2, Ht. apply lookup_delete_eq.
Defined.

End Examples.
End StartProps.
