(* ===== verification/RealtimeProps.v ===== *)
(** * Properties of the realtime messages

    What one message of the panel leads to ([configWorker_outcome]), and that on
    every schedule of the goroutines of a connection the messages that were
    queued are answered with their receipts, in order ([session_answers]). *)

From S2P Require Import Prelude GoStrings Panel Conf UserSync Realtime.

Module RealtimeProps.
Import GoStrings Realtime.

Implicit Types (m : realtimeMessage) (s : Session).

(** The receipts of a topic that [messages] has. *)
Definition receiptsOf (topic : string) (messages : list realtimeMessage) : list realtimeMessage :=
  filter (λ m, Type_ m = "receipt" ∧ Topic m = topic) messages.

Lemma receiptsOf_app topic ms ms' : receiptsOf topic (ms ++ ms') = receiptsOf topic ms ++ receiptsOf topic ms'.
Proof. apply filter_app. Qed.

(** The three receipts that answer a message. *)
Definition answered (topic : string) m (receipts : list realtimeMessage) : Prop :=
  ∃ clock status text, receipts =
    [realtimeReceipt (clock 0%nat) topic m "received" ""; realtimeReceipt (clock 1%nat) topic m "applying" "";
     realtimeReceipt (clock 2%nat) topic m status text] ∧ (status = "applied" ∨ status = "failed").

Lemma receiptsOf_answered topic m rs : answered topic m rs → receiptsOf topic rs = rs.
Proof.
  intros (clock & status & text & -> & _). unfold receiptsOf.
  rewrite !filter_cons_True, filter_nil by done. done.
Qed.

Lemma receiptsOf_other topic topic' m rs : topic ≠ topic' → answered topic' m rs → receiptsOf topic rs = [].
Proof.
  intros Hne (clock & status & text & -> & _). unfold receiptsOf.
  rewrite !filter_cons_False, filter_nil by (cbn; naive_solver). done.
Qed.

Lemma receiptsOf_pong topic now : receiptsOf topic [pong now] = [].
Proof. unfold receiptsOf. rewrite filter_cons_False; [done|]. by intros [? _]. Qed.

(** ** Sending *)

Definition room {A} (n : nat) (c : Chan A) : Prop := (length (queued c) + n <= cap c)%nat.

#[local] Instance room_dec {A} n (c : Chan A) : Decision (room n c).
Proof. unfold room. apply _. Defined.

Lemma trySend_room {A} (x : A) c n :
  room (S n) c → room n (trySend x c) ∧ queued (trySend x c) = queued c ++ [x] ∧ cap (trySend x c) = cap c.
Proof.
  unfold trySend, room. intros Hr. rewrite (proj2 (Nat.ltb_lt _ _)) by lia. cbn. rewrite length_app. cbn.
  split_and!; [lia|done|done].
Qed.

Lemma trySend_cap {A} (x : A) c : cap (trySend x c) = cap c.
Proof. unfold trySend. by case_match. Qed.

(** Three messages in a row. *)
Lemma Send3 a b c ch : room 3 ch → Send c (Send b (Send a ch)) = mkChan (cap ch) (queued ch ++ [a; b; c]).
Proof.
  intros Hr. unfold Send. destruct (trySend_room a ch 2 Hr) as (Hr1 & Hq1 & Hc1).
  destruct (trySend_room b _ 1 Hr1) as (Hr2 & Hq2 & Hc2). destruct (trySend_room c _ 0 Hr2) as (_ & Hq3 & Hc3).
  destruct (trySend c _) as [k q]. cbn in *. subst q. rewrite Hq2, Hq1, <- !app_assoc. cbn. f_equal. congruence.
Qed.

(** ** One message *)

Lemma truncate_length text : (length (bytes (truncateRealtimeReceiptMessage text)) <= 240)%nat.
Proof.
  unfold truncateRealtimeReceiptMessage. destruct (_ <=? 240)%nat eqn:Hl.
  - apply Nat.leb_le in Hl. by rewrite length_bytes.
  - rewrite bytes_app, bytes_of_bytes, length_app, length_take. change (length (bytes "...")) with 3%nat. lia.
Qed.

(** The receipts [configWorker] sends, and the channel it leaves. *)
Lemma configWorker_sends clock newN m reloadCh ch :
  room 3 ch →
  ∃ reloadCh' status text rs, rs =
    [realtimeReceipt (clock 0%nat) "config" m "received" ""; realtimeReceipt (clock 1%nat) "config" m "applying" "";
     realtimeReceipt (clock 2%nat) "config" m status text]
  ∧ configWorker clock newN m reloadCh (Some ch) = (reloadCh', Some (mkChan (cap ch) (queued ch ++ rs)))
  ∧ ((status = "applied" ∧ text = "reload queued" ∧ (shouldForceRealtimeConfigReload m = true ∨ ∃ n, newN = Ok (Some n))
      ∧ ∃ rc, reloadCh = Some rc ∧ reloadCh' = Some (trySend () rc))
     ∨ (status = "applied" ∧ text = "no change" ∧ shouldForceRealtimeConfigReload m = false ∧ newN = Ok None
        ∧ reloadCh' = reloadCh)
     ∨ (status = "failed" ∧ reloadCh' = reloadCh
        ∧ (reloadCh = None ∧ (shouldForceRealtimeConfigReload m = true ∨ ∃ n, newN = Ok (Some n))
           ∨ shouldForceRealtimeConfigReload m = false ∧ ∃ e, newN = Err e))).
Proof.
  intros Hr. unfold configWorker, executeNodeConfigCheck, enqueueRealtimeReload, sendRealtimeReceipt. cbn [fmap option_fmap option_map].
  destruct (shouldForceRealtimeConfigReload m); [destruct reloadCh as [rc|]|destruct newN as [[n|]|e]; [destruct reloadCh as [rc|]| |]].
  all: rewrite Send3 by done; do 4 eexists; split; [reflexivity|]; split; [reflexivity|].
  all: naive_solver.
Qed.

Lemma userWorker_sends clock sync m ch :
  room 3 ch →
  ∃ rs, answered "users" m rs ∧ userWorker clock sync m (Some ch) = Some (mkChan (cap ch) (queued ch ++ rs)).
Proof.
  intros Hr. unfold userWorker, sendRealtimeReceipt. cbn [fmap option_fmap option_map].
  destruct sync as [summary|e]; rewrite Send3 by done; eexists; (split; [|reflexivity]).
  all: do 3 eexists; split; [reflexivity|]; auto.
Qed.

(** A message about the configuration is answered with exactly three receipts:
    received, applying, and the outcome, which carry its event and its reason
    and at most 240 bytes of text. The outcome tells the truth: it says that a
    reload is queued exactly when one is pending on the channel of the main
    loop, and in all other cases the channel is as before. *)
Theorem configWorker_outcome clock newN m reloadCh ch :
  room 3 ch → (∀ rc, reloadCh = Some rc → (0 < cap rc)%nat) →
  ∃ reloadCh' r1 r2 r3,
    configWorker clock newN m reloadCh (Some ch) = (reloadCh', Some (mkChan (cap ch) (queued ch ++ [r1; r2; r3])))
    ∧ Status <$> [r1; r2] = ["received"; "applying"] ∧ (Status r3 = "applied" ∨ Status r3 = "failed")
    ∧ Forall (λ r, Type_ r = "receipt" ∧ Topic r = "config" ∧ EventID r = EventID m ∧ Reason r = Reason m
                   ∧ (length (bytes (Message r)) <= 240)%nat) [r1; r2; r3]
    ∧ (Status r3 = "applied" ∧ Message r3 = "reload queued" → ∃ rc, reloadCh' = Some rc ∧ queued rc ≠ [])
    ∧ (¬ (Status r3 = "applied" ∧ Message r3 = "reload queued") → reloadCh' = reloadCh)
    ∧ (Status r3 = "failed" ↔ reloadCh = None ∧ (shouldForceRealtimeConfigReload m = true ∨ ∃ n, newN = Ok (Some n))
                              ∨ shouldForceRealtimeConfigReload m = false ∧ ∃ e, newN = Err e).
Proof.
  intros Hr Hcap.
  destruct (configWorker_sends clock newN m reloadCh ch Hr) as (reloadCh' & status & text & rs & -> & Hrun & Hout).
  exists reloadCh'. do 3 eexists. split; [exact Hrun|]. split; [reflexivity|]. cbn [Status realtimeReceipt Message].
  assert (Hlen : ∀ now st tx, let r := realtimeReceipt now "config" m st tx in
    Type_ r = "receipt" ∧ Topic r = "config" ∧ EventID r = EventID m ∧ Reason r = Reason m
    ∧ (length (bytes (Message r)) <= 240)%nat).
  { intros now st tx. split_and!; [done..|]. apply truncate_length. }
  split; [naive_solver|]. split; [repeat (apply Forall_cons_2; [apply Hlen|]); constructor|].
  destruct Hout as [(-> & -> & Hwhy & rc & -> & ->)|[(-> & -> & Hf & -> & ->)|(-> & -> & Hwhy)]].
  - split; [intros _; exists (trySend () rc); split; [done|]|].
    { specialize (Hcap _ eq_refl). unfold trySend. case_match eqn:Hl; cbn; [by destruct (queued rc)|].
      apply Nat.ltb_ge in Hl. by destruct (queued rc); [cbn in Hl; lia|]. }
    split; [intros Hn; exfalso; apply Hn; by split|].
    split; [done|]. intros [[? _]|[Hf [e He]]]; [done|]. destruct Hwhy as [Hw|[n Hw]]; congruence.
  - split; [intros [_ Hx]; by vm_compute in Hx|]. split; [done|].
    split; [done|]. intros [[_ [Hw|[n Hw]]]|[_ [e He]]]; congruence.
  - split; [by intros [? _]|]. split; [done|]. split; [done|]. done.
Qed.

(** ** A connection *)

(** The two topics: [true] is the configuration. *)
Definition topicOf (b : bool) : string := if b then "config" else "users".

Definition inbox (b : bool) s : Chan realtimeMessage := if b then configCh (queues s) else userCh (queues s).

Definition isWork (b : bool) (e : sessionEvent) : bool :=
  match e with ConfigWork _ _ => b | UserWork _ _ => negb b | _ => false end.

(** What an event puts into the inbox. *)
Definition accepts (b : bool) (e : sessionEvent) s : list realtimeMessage :=
  match e with
  | Receive _ m =>
      if bool_decide (Type_ m = "invalidate") && bool_decide (Topic m = topicOf b)
         && (length (queued (inbox b s)) <? cap (inbox b s))%nat
      then [m] else []
  | _ => []
  end.

Fixpoint accepted (b : bool) (es : list sessionEvent) s : list realtimeMessage :=
  match es with
  | [] => []
  | e :: es => accepts b e s ++ accepted b es (sessionStep e s)
  end.

(** The queue of outgoing messages has room for the receipts whenever a worker
    runs. *)
Fixpoint roomy (es : list sessionEvent) s : bool :=
  match es with
  | [] => true
  | e :: es =>
      (if isWork true e || isWork false e then bool_decide (room 3 (outbox s)) else true)
      && roomy es (sessionStep e s)
  end.

Definition works (b : bool) (es : list sessionEvent) : nat := length (filter (λ e, isWork b e = true) es).

(** All receipts of a topic, sent or still to be written. *)
Definition receipts (b : bool) s : list realtimeMessage := receiptsOf (topicOf b) (wire s ++ queued (outbox s)).

(** The messages of a topic that are [done] between two states, and how. *)
Definition answers (b : bool) (new done : list realtimeMessage) s s' : Prop :=
  queued (inbox b s) ++ new = done ++ queued (inbox b s')
  ∧ ∃ rss, receipts b s' = receipts b s ++ concat rss ∧ Forall2 (answered (topicOf b)) done rss.

Lemma answers_nil b s s' new :
  queued (inbox b s) ++ new = queued (inbox b s') → receipts b s' = receipts b s → answers b new [] s s'.
Proof. intros Hi Hr. split; [done|]. exists []. cbn. by rewrite app_nil_r. Qed.

(** A worker takes a message and sends its receipts. *)
Lemma answers_work b b' s s' m ch rs :
  dequeue (inbox b' s) = Some (m, ch) → answered (topicOf b') m rs →
  wire s' = wire s → queued (outbox s') = queued (outbox s) ++ rs →
  queued (inbox b' s') = queued ch → queued (inbox (negb b') s') = queued (inbox (negb b') s) →
  answers b [] (if bool_decide (b = b') then [m] else []) s s'.
Proof.
  intros Hd%dequeue_Some Ha Hw Ho Hi Hi'. case_bool_decide as Hb.
  - subst b'. split; [rewrite app_nil_r, Hd; cbn; by rewrite Hi|]. exists [rs]. split; [|by constructor].
    unfold receipts. rewrite Hw, Ho, app_assoc, receiptsOf_app. cbn. by rewrite app_nil_r, (receiptsOf_answered _ _ _ Ha).
  - assert (b = negb b') as -> by (by destruct b, b'). apply answers_nil; [by rewrite app_nil_r, Hi'|].
    unfold receipts. rewrite Hw, Ho, app_assoc, receiptsOf_app.
    rewrite (receiptsOf_other _ (topicOf b') m rs); [apply app_nil_r|by destruct b'|exact Ha].
Qed.

Lemma receive_answers b now m s :
  answers b (accepts b (Receive now m) s) [] s (sessionStep (Receive now m) s).
Proof.
  apply answers_nil; unfold accepts, sessionStep, react.
  - destruct (decide (Type_ m = "ping")) as [Ht|Ht].
    { rewrite Ht, (bool_decide_true ("ping" = "ping")), (bool_decide_false ("ping" = "invalidate")) by done. apply app_nil_r. }
    rewrite (bool_decide_false _ Ht).
    case_bool_decide; [|apply app_nil_r]. unfold onControllerMessage, inbox. cbn.
    destruct b; cbn; repeat case_bool_decide; try congruence; cbn; rewrite ?app_nil_r; try done.
    all: unfold enqueueRealtimeConfigCheck, enqueueRealtimeUserSync, trySend; cbn; case_match; cbn; by rewrite ?app_nil_r.
  - unfold receipts. repeat case_bool_decide; cbn [wire outbox]; try done.
    by rewrite !receiptsOf_app, receiptsOf_pong, app_nil_r.
Qed.

Lemma write_answers b s : answers b [] [] s (sessionStep WriteOut s).
Proof.
  apply answers_nil; cbn; destruct (dequeue (outbox s)) as [[m ch]|] eqn:Hd; rewrite ?app_nil_r; try done.
  unfold receipts. cbn. apply dequeue_Some in Hd. by rewrite Hd, <- app_assoc.
Qed.

(** What one event does; a worker that runs while a message waits answers it. *)
Lemma step_answers b e s :
  (isWork true e || isWork false e = true → room 3 (outbox s)) →
  ∃ done, answers b (accepts b e s) done s (sessionStep e s)
    ∧ (isWork b e = true → queued (inbox b s) ≠ [] → done ≠ []).
Proof.
  intros Hroom. destruct e as [now m|clock newN|clock sync|].
  - exists []. split; [apply receive_answers|done].
  - specialize (Hroom eq_refl). cbn. destruct (dequeue (configCh (queues s))) as [[m ch]|] eqn:Hd.
    + destruct (configWorker_sends clock newN m (reloads s) (outbox s) Hroom)
        as (rl & status & text & rs & Hrs & -> & Hout).
      eexists. split; [apply (answers_work b true s _ m ch rs); [exact Hd| |done..]|].
      { exists clock, status, text. split; [done|]. naive_solver. }
      by intros ->.
    + exists []. split; [by apply answers_nil; rewrite ?app_nil_r|]. intros ->. unfold dequeue in Hd. cbn.
      by destruct (queued (configCh (queues s))).
  - specialize (Hroom eq_refl). cbn. destruct (dequeue (userCh (queues s))) as [[m ch]|] eqn:Hd.
    + destruct (userWorker_sends clock sync m (outbox s) Hroom) as (rs & Hrs & ->).
      eexists. split; [apply (answers_work b false s _ m ch rs); [exact Hd|exact Hrs|done..]|]. by destruct b.
    + exists []. split; [by apply answers_nil; rewrite ?app_nil_r|]. intros Hb. unfold dequeue in Hd.
      destruct b; [done|]. cbn. by destruct (queued (userCh (queues s))).
  - exists []. split; [apply write_answers|done].
Qed.

Lemma answers_trans b n1 n2 d1 d2 s1 s2 s3 :
  answers b n1 d1 s1 s2 → answers b n2 d2 s2 s3 → answers b (n1 ++ n2) (d1 ++ d2) s1 s3.
Proof.
  intros [H1 (r1 & H2 & H3)] [H4 (r2 & H5 & H6)]. split.
  - by rewrite app_assoc, H1, <- !app_assoc, H4.
  - exists (r1 ++ r2). rewrite H5, H2, concat_app, <- app_assoc. split; [done|]. by apply Forall2_app.
Qed.

Lemma run_answers b es s :
  roomy es s = true →
  ∃ done, answers b (accepted b es s) done s (runSession es s)
    ∧ (min (works b es) (length (queued (inbox b s))) <= length done)%nat.
Proof.
  revert s. induction es as [|e es IH]; intros s Hroom.
  - exists []. split; [apply answers_nil; cbn; by rewrite ?app_nil_r|cbn; lia].
  - cbn in Hroom. apply andb_true_iff in Hroom as [He Hroom].
    destruct (step_answers b e s) as (d1 & H1 & Hd1); [intros Hw; rewrite Hw in He; by apply bool_decide_eq_true in He|].
    destruct (IH _ Hroom) as (d2 & H2 & Hd2). exists (d1 ++ d2). split; [cbn; by eapply answers_trans|].
    assert (Hlen : (length (queued (inbox b s)) <= length d1 + length (queued (inbox b (sessionStep e s))))%nat).
    { destruct H1 as [H1 _]. apply (f_equal length) in H1. rewrite !length_app in H1. lia. }
    rewrite length_app. unfold works in *. destruct (isWork b e) eqn:Hw.
    + rewrite filter_cons_True by done. cbn. specialize (Hd1 eq_refl).
      destruct (queued (inbox b s)) eqn:Hq; [cbn; lia|]. destruct d1; [by destruct Hd1|]. cbn in *. lia.
    + rewrite filter_cons_False by congruence. lia.
Qed.

Lemma roomy_app es es' s : roomy (es ++ es') s = roomy es s && roomy es' (runSession es s).
Proof. revert s. induction es as [|e es IH]; intros s; cbn; [done|]. by rewrite IH, andb_assoc. Qed.

(** What is at the head of both sides of an equation. *)
Lemma prefix_of_app_le {A} (l1 l2 k1 k2 : list A) :
  l1 ++ l2 = k1 ++ k2 → (length l1 <= length k1)%nat → l1 `prefix_of` k1.
Proof.
  intros Heq Hlen. exists (take (length k1 - length l1) l2).
  rewrite <- (take_ge l1 (length k1)) at 1 by done. by rewrite <- take_app, Heq, take_app_length.
Qed.

(** C22. On every schedule of a connection on which the queue of receipts always has
    room (a receipt that finds it full is dropped), the receipts of a topic that go
    out are the answers, in order, to the first of the messages that were queued;
    the others still wait. *)
Theorem session_answers b es reloadCh :
  roomy es (startSession reloadCh) = true →
  let s' := runSession es (startSession reloadCh) in
  ∃ handled rss, accepted b es (startSession reloadCh) = handled ++ queued (inbox b s')
    ∧ receipts b s' = concat rss ∧ Forall2 (answered (topicOf b)) handled rss.
Proof.
  intros Hroom. destruct (run_answers b es _ Hroom) as (d & [H1 (rss & H2 & H3)] & _). exists d, rss.
  split; [by destruct b|]. split; [|done]. by destruct b.
Qed.

(** C23. A message that was queued is answered as soon as its worker has run as often
    as messages wait, whatever else happens in between, as long as the queue of
    receipts has room. *)
Theorem message_answered b es es' reloadCh m :
  roomy (es ++ es') (startSession reloadCh) = true →
  m ∈ accepted b es (startSession reloadCh) →
  (length (queued (inbox b (runSession es (startSession reloadCh)))) <= works b es')%nat →
  ∃ rs, answered (topicOf b) m rs ∧ ∀ r, r ∈ rs → r ∈ receipts b (runSession (es ++ es') (startSession reloadCh)).
Proof.
  rewrite roomy_app. intros [H1 H2]%andb_true_iff Hm Hw. unfold runSession in *. rewrite foldl_app.
  destruct (run_answers b es _ H1) as (d1 & [Hq1 (rs1 & Hr1 & Ha1)] & _).
  destruct (run_answers b es' _ H2) as (d2 & [Hq2 (rs2 & Hr2 & Ha2)] & Hd2).
  unfold runSession in *. rewrite Nat.min_r in Hd2 by done.
  assert (Hin : m ∈ d1 ++ d2).
  { assert (Hm' : m ∈ d1 ++ queued (inbox b (foldl (λ s e, sessionStep e s) (startSession reloadCh) es)))
      by (rewrite <- Hq1; apply elem_of_app; by right).
    apply elem_of_app in Hm' as [?|Hm']; apply elem_of_app; [by left|right].
    eapply elem_of_prefix; [exact Hm'|]. eapply prefix_of_app_le; [exact Hq2|done]. }
  pose proof (Forall2_app Ha1 Ha2) as Ha.
  apply list_elem_of_lookup in Hin as [k Hk]. destruct (Forall2_lookup_l _ _ _ _ _ Ha Hk) as (rs & Hrs & Hans).
  exists rs. split; [done|]. intros r Hr. rewrite Hr2, Hr1, <- app_assoc, <- concat_app.
  apply elem_of_app. right. apply base.list_elem_of_In, in_concat. exists rs.
  split; apply base.list_elem_of_In; [by eapply list_elem_of_lookup_2|done].
Qed.

(** ** Examples at which the hypotheses hold *)

Module Examples.

Definition invalidate (topic event : string) : realtimeMessage :=
  mkMessage "invalidate" "" event topic "admin.server.updated" "" 3 0 0 "" "" 0 "".

Definition exampleClock (n : nat) : Z := 100.

Lemma configWorker_outcome_witness :
  ∃ reloadCh' r1 r2 r3,
    configWorker exampleClock (Ok None) (invalidate "config" "e1") (Some (mkChan 1 [])) (Some (mkChan 64 []))
    = (reloadCh', Some (mkChan 64 [r1; r2; r3])) ∧ (Status r3 = "applied" ∨ Status r3 = "failed").
Proof.
  destruct (configWorker_outcome exampleClock (Ok None) (invalidate "config" "e1") (Some (mkChan 1 [])) (mkChan 64 []))
    as (rl & r1 & r2 & r3 & H1 & _ & H2 & _).
  - unfold room. cbn. lia.
  - intros rc [= <-]. cbn. lia.
  - exists rl, r1, r2, r3. split; [exact H1|exact H2].
Defined.

(** Two messages about the configuration and one about users; the panel cannot
    be reached for the first. *)
Definition exampleSchedule : list sessionEvent :=
  [Receive 0 (invalidate "config" "e1"); Receive 1 (invalidate "users" "e2"); ConfigWork exampleClock (Err (errorf "no"));
   Receive 2 (invalidate "config" "e3"); WriteOut].

Definition exampleRest : list sessionEvent :=
  [UserWork exampleClock (Ok (UserSync.mkSummary 0 1 0)); WriteOut; ConfigWork exampleClock (Ok None)].

Lemma session_answers_witness :
  let s' := runSession exampleSchedule (startSession (Some (mkChan 1 []))) in
  ∃ handled rss, [invalidate "config" "e1"; invalidate "config" "e3"] = handled ++ queued (inbox true s')
    ∧ receipts true s' = concat rss ∧ Forall2 (answered "config") handled rss.
Proof.
  apply (session_answers true exampleSchedule (Some (mkChan 1 []))). vm_compute. reflexivity.
Defined.

Lemma message_answered_witness :
  ∃ rs, answered "config" (invalidate "config" "e3") rs
    ∧ ∀ r, r ∈ rs → r ∈ receipts true (runSession (exampleSchedule ++ exampleRest) (startSession (Some (mkChan 1 [])))).
Proof.
  apply (message_answered true exampleSchedule exampleRest (Some (mkChan 1 [])) (invalidate "config" "e3")).
  - vm_compute. reflexivity.
  - change (invalidate "config" "e3" ∈ [invalidate "config" "e1"; invalidate "config" "e3"]).
    apply list_elem_of_further, list_elem_of_here.
  - apply Nat.leb_le. vm_compute. reflexivity.
Defined.

End Examples.
End RealtimeProps.
