(* ===== verification/PanelClient.v ===== *)
(** * The panel's HTTP API (api/v2board, node/controlplane_panel_adapter.go)

    [Client] keeps the entity tags, the hash of the last node configuration and
    the last alive list; [panelControlPlane] wraps it as the control plane of a
    controller and keeps what it learnt about the optional calls of the panel.
    An HTTP exchange is an argument: a function from what the request depends on
    to the [Reply]. The body of a reply is what encoding/json, msgpack or
    jsontext decode it to. *)

From Stdlib Require Import Ascii.
From S2P Require Import Prelude GoStrings FilePath Json Panel Conf UserSync Lifecycle.

Module PanelClient.
Import GoStrings FilePath.

(** What resty or net/http returns: an error, no response, or a status with its
    text, the ETag header, the first bytes of the body as text, and the decoded
    body. *)
Inductive Reply (B : Type) :=
| Failed (e : GoError)
| NoReply
| Answer (status : Z) (statusText etag excerpt : string) (body : B).
Arguments Failed {B} e.
Arguments NoReply {B}.
Arguments Answer {B} status statusText etag excerpt body.

(** ** The port of a node: [PortValue.UnmarshalJSON] *)
Definition unmarshalPort (data : Json.RawMessage) : result string :=
  match Json.raw_value data with
  | Json.JNull => Ok ""
  | Json.JString text => Ok text
  | Json.JNumber token =>
      match Atoi token with
      | Some number => Ok (Itoa number)
      | None => Err (errorf ("invalid port value: " +:+ Json.raw_text data))
      end
  | _ => Err (errorf ("invalid port value: " +:+ Json.raw_text data))
  end.

(** ** The client *)

Record Client := mkClient {
  APIHost : string;
  Token : string;
  NodeId : Z;
  MachineID : Z;
  ConfigDir : string;
  nodeEtag : string;
  userEtag : string;
  responseBodyHash : string;
  AliveMap : option Panel.AliveMap
}.

Implicit Types c : Client.

(** [panel.New], less the settings of the HTTP client. *)
Definition New (cfg : Conf.NodeConfig) : Client :=
  mkClient (Conf.APIHost cfg) (Conf.Key cfg) (Conf.NodeID cfg) (Conf.MachineID cfg) (Conf.ConfigDir cfg)
    "" "" "" (Some (Panel.mkAliveMap ∅ ∅ 0)).

Definition withNodeEtag (etag : string) c : Client :=
  mkClient (APIHost c) (Token c) (NodeId c) (MachineID c) (ConfigDir c)
    (if bool_decide (etag = "") then nodeEtag c else etag) (userEtag c) (responseBodyHash c) (AliveMap c).

Definition withBodyHash (hash : string) c : Client :=
  mkClient (APIHost c) (Token c) (NodeId c) (MachineID c) (ConfigDir c) (nodeEtag c) (userEtag c) hash (AliveMap c).

Definition withUserEtag (etag : string) c : Client :=
  mkClient (APIHost c) (Token c) (NodeId c) (MachineID c) (ConfigDir c) (nodeEtag c) etag (responseBodyHash c) (AliveMap c).

Definition withAliveMap (a : Panel.AliveMap) c : Client :=
  mkClient (APIHost c) (Token c) (NodeId c) (MachineID c) (ConfigDir c) (nodeEtag c) (userEtag c)
    (responseBodyHash c) (Some a).

Definition canceled (e : GoError) : bool := errorsIs e SentinelCanceled.

Definition nilResponse : GoError := errorf "received nil response".
Definition nilRawResponse : GoError := errorf "received nil response or raw response".

(** *** Nodes *)

(** The security of a node of a protocol; [None] is a protocol without support. *)
Definition protocolSecurity (cm : Panel.CommonNode) : option Z :=
  let protocol := Panel.Protocol cm in
  if bool_decide (protocol ∈ ["vmess"; "trojan"; "hysteria2"; "tuic"; "anytls"; "vless"; "socks"; "http"; "mieru"; "naive"])
  then Some (Panel.Tls cm)
  else if bool_decide (protocol = "shadowsocks") then Some 0
  else None.

(** The variables of a DNS provider, "key=value" separated by commas. *)
Definition dnsEnv (env : string) : gmap string string :=
  foldl (λ m kv, match Cut "="%char kv with Some (k, v) => <[k := v]> m | None => m end) ∅ (Split ","%char env).

Definition certInfo (configDir : string) (nodeId : Z) (cm : Panel.CommonNode) : Panel.CertInfo :=
  let tls := Panel.Tls_Settings cm in
  let file ext := Join2 configDir (Panel.Protocol cm +:+ Itoa nodeId +:+ ext) in
  let cf := if bool_decide (Panel.tls_CertFile tls = "") then file ".cer" else Panel.tls_CertFile tls in
  let kf := if bool_decide (Panel.tls_KeyFile tls = "") then file ".key" else Panel.tls_KeyFile tls in
  Panel.mkCertInfo (Panel.tls_CertMode tls) cf kf "node@v2board.com" (Panel.tls_ServerName tls)
    (if bool_decide (Panel.tls_CertMode tls = "dns") && negb (bool_decide (Panel.tls_DNSEnv tls = ""))
     then dnsEnv (Panel.tls_DNSEnv tls) else ∅)
    (Panel.tls_Provider tls) (bool_decide (Panel.tls_RejectUnknownSni tls = "1")).

Definition withCertInfo (ci : Panel.CertInfo) (cm : Panel.CommonNode) : Panel.CommonNode :=
  let '(Panel.mkCommonNode p li sp po ps r b t ts _ n ns e es sn f ci' sk cc z pa up dn ob op ig tr mu) := cm in
  Panel.mkCommonNode p li sp po ps r b t ts (Some ci) n ns e es sn f ci' sk cc z pa up dn ob op ig tr mu.

(** The intervals of the panel, in nanoseconds; [None] is the panic of
    [intervalToTime]. *)
Definition intervals (cm : Panel.CommonNode) : option (Z * Z) :=
  let orMinute d := if d <=? 0 then 60 * 1000000000 else d in
  match Panel.Base_Config cm with
  | None => Some (orMinute 0, orMinute 0)
  | Some b =>
      push ← Panel.intervalToTime (Panel.bc_PushInterval b);
      pull ← Panel.intervalToTime (Panel.bc_PullInterval b);
      Some (orMinute push, orMinute pull)
  end.

(** The node of a configuration. *)
Definition nodeOf c (security : Z) (cm : Panel.CommonNode) : option Panel.NodeInfo :=
  match intervals cm with
  | None => None
  | Some (push, pull) =>
      Some (Panel.mkNodeInfo (NodeId c) (Panel.Protocol cm) security push pull
              ("[" +:+ APIHost c +:+ "]-" +:+ Panel.Protocol cm +:+ ":" +:+ Itoa (NodeId c))
              (Some (withCertInfo (certInfo (Conf.NormalizeConfigDir (ConfigDir c)) (NodeId c) cm) cm)))
  end.

Section client.
(** The SHA-256 of the canonical JSON text of a configuration, in hexadecimal. *)
Context (bodyHash : Panel.CommonNode → string).

(** [GetNodeInfo]; [None] is a panic. [config] is the panel: it is asked with
    the entity tag. *)
Definition GetNodeInfo (config : string → Reply (result Panel.CommonNode)) c
    : option (Client * result (option Panel.NodeInfo)) :=
  match config (nodeEtag c) with
  | Failed e => Some (c, if canceled e then Ok None else Err e)
  | NoReply => Some (c, Err nilResponse)
  | Answer status _ etag _ body =>
      if status =? 304 then Some (withNodeEtag etag c, Ok None)
      else
        match body with
        | Err e => Some (c, Err (wrapErr ("decode node params error: " +:+ err_msg e) e))
        | Ok cm =>
            if bool_decide (responseBodyHash c = bodyHash cm) then Some (withNodeEtag etag c, Ok None)
            else
              let c := withNodeEtag etag (withBodyHash (bodyHash cm) c) in
              match protocolSecurity cm with
              | None => Some (c, Err (errorf ("unsupport protocol: " +:+ Panel.Protocol cm)))
              | Some security =>
                  match nodeOf c security cm with
                  | None => None
                  | Some n => Some (c, Ok (Some n))
                  end
              end
        end
  end.

(** *** Users *)

(** What the decoder of a user list finds: the users, an error of reading, or
    one of the content. *)
Inductive UserBody :=
| UserObjects (us : list Panel.UserInfo)
| ReadError (e : GoError)
| BadContent (e : GoError).

(** [GetUserList]; [ctxCanceled] tells that the context was cancelled. *)
Definition GetUserList (ctxCanceled : bool) (server : string → Reply UserBody) c
    : Client * result (list Panel.UserInfo) :=
  match server (userEtag c) with
  | Failed e => (c, if canceled e then Ok [] else Err e)
  | NoReply => (c, Err nilRawResponse)
  | Answer status statusText etag excerpt body =>
      if status =? 304 then ((if bool_decide (etag = "") then c else withUserEtag etag c), Ok [])
      else if 400 <=? status then
        (c, Err (errorf ("user list request failed: " +:+ statusText +:+ " body=" +:+ TrimSpace excerpt)))
      else
        match body with
        | ReadError e =>
            (c, if canceled e || ctxCanceled then Ok []
                else Err (wrapErr ("decode user list error: " +:+ err_msg e) e))
        | BadContent e => (c, Err (wrapErr ("decode user list error: " +:+ err_msg e) e))
        | UserObjects us => (withUserEtag etag c, Ok us)
        end
  end.

Definition GetUserDelta (ctxCanceled : bool) (server : Z → Reply (result Panel.UserDeltaBody)) (since : Z)
    : result (option Panel.UserDeltaBody) :=
  match server since with
  | Failed e => if canceled e then Ok None else Err e
  | NoReply => Err nilResponse
  | Answer status statusText _ _ body =>
      if Panel.isUserDeltaUnsupportedStatus status
      then Err (mkError "user_delta not supported" (Some SentinelUserDeltaNotSupported))
      else if 400 <=? status then Err (errorf ("user_delta request failed: " +:+ statusText))
      else
        match body with
        | Ok resp => Ok (Some resp)
        | Err e => if canceled e || ctxCanceled then Ok None
                   else Err (wrapErr ("decode user delta error: " +:+ err_msg e) e)
        end
  end.

Definition withAliveSet c : Client :=
  match AliveMap c with Some _ => c | None => withAliveMap (Panel.mkAliveMap ∅ ∅ 0) c end.

Definition GetUserAlive (ctxCanceled : bool) (reply : Reply (result Panel.AliveMap)) c
    : Client * result (option (gmap Z Z)) :=
  let c := withAliveSet c in
  match reply with
  | Failed e => (c, if canceled e then Ok None else Err e)
  | NoReply => (c, Err nilRawResponse)
  | Answer status statusText _ _ body =>
      if 399 <=? status then (c, Err (errorf ("fetch user alive list failed: " +:+ statusText)))
      else
        match body with
        | Err e => (c, if canceled e || ctxCanceled then Ok None
                       else Err (wrapErr ("decode user alive list error: " +:+ err_msg e) e))
        | Ok next => (withAliveMap next c, Ok (Some (Panel.cloneAliveMap (Panel.Alive next))))
        end
  end.

Definition CachedAliveMap (c : option Client) : gmap Z Z :=
  match c ≫= AliveMap with
  | None => ∅
  | Some a => Panel.cloneAliveMap (Panel.Alive a)
  end.

Definition CachedAliveSnapshot (c : option Client) : Panel.AliveMap :=
  Panel.cloneAliveSnapshot (c ≫= AliveMap).

(** *** Reports *)

Definition trafficData (userTraffic : list Panel.UserTraffic) : gmap Z (Z * Z) :=
  foldl (λ data t, <[Panel.ut_UID t := (Panel.Upload t, Panel.Download t)]> data) ∅ userTraffic.

Definition reportReply (what : string) (reply : Reply unit) : option GoError :=
  match reply with
  | Failed e => if canceled e then None else Some e
  | NoReply => None
  | Answer status statusText _ _ _ =>
      if 400 <=? status then Some (errorf ("report " +:+ what +:+ " failed: " +:+ statusText)) else None
  end.

Definition ReportUserTraffic (push : gmap Z (Z * Z) → Reply unit) (userTraffic : list Panel.UserTraffic)
    : option GoError :=
  reportReply "user traffic" (push (trafficData userTraffic)).

Definition ReportNodeOnlineUsers (alive : gmap Z (list string) → Reply unit) (data : gmap Z (list string))
    : option GoError :=
  reportReply "online users" (alive data).

End client.

(** ** The adapter *)

Inductive Feature := featureUnknown | featureSupported | featureUnsupported.

#[global] Instance Feature_eq_dec : EqDecision Feature.
Proof. solve_decision. Defined.

Record panelControlPlane := mkPlane {
  client : option Client;
  apiHost : string;
  token : string;
  nodeID : Z;
  machineID : Z;
  handshakeState : Feature;
  reportState : Feature;
  bootstrap : option Lifecycle.RealtimeBootstrap
}.

Implicit Types p : panelControlPlane.

Definition newPanelControlPlane (client : option Client) (nodeConfig : option Conf.NodeConfig) : panelControlPlane :=
  let host := match nodeConfig with Some n => TrimSpace (Conf.APIHost n) | None => "" end in
  let tok := match nodeConfig with Some n => TrimSpace (Conf.Key n) | None => "" end in
  let id := match nodeConfig with Some n => Conf.NodeID n | None => 0 end in
  let machine := match nodeConfig with Some n => Conf.MachineID n | None => 0 end in
  match client with
  | None => mkPlane None host tok id machine featureUnknown featureUnknown None
  | Some c =>
      mkPlane (Some c) (if bool_decide (host = "") then TrimSpace (APIHost c) else host)
        (if bool_decide (tok = "") then TrimSpace (Token c) else tok)
        (if id =? 0 then NodeId c else id) (if machine =? 0 then MachineID c else machine)
        featureUnknown featureUnknown None
  end.

(** [panelControlPlaneFactory.New] *)
Definition factoryNew (nodeConfig : Conf.NodeConfig) : result panelControlPlane :=
  Ok (newPanelControlPlane (Some (New nodeConfig)) (Some nodeConfig)).

(** The body of a report; an absent member is not sent. *)
Record Payload := mkPayload {
  pl_traffic : option (gmap string (Z * Z));
  pl_alive : option (gmap string (list string));
  pl_online : option (gmap string Z)
}.

(** net/url: parsing, and printing with the parameters of the query replaced. *)
Class Endpoints := {
  URL : Type;
  parseURL : string → result URL;
  withQuery : URL → list (string * string) → string
}.

Section adapter.
Context `{Endpoints} {RO : RangeOrder Z}.

Definition buildEndpoint p (path : string) : result string :=
  match parseURL (TrimRight Conf.is_slash (apiHost p) +:+ path) with
  | Err e => Err (wrapErr ("parse endpoint failed: " +:+ err_msg e) e)
  | Ok u =>
      Ok (withQuery u ([("token", token p); ("node_id", Itoa (nodeID p)); ("node_type", "v2node")]
                       ++ (if 0 <? machineID p then [("machine_id", Itoa (machineID p))] else [])))
  end.

(** What net/http returns: an error, or a status with the first bytes of the body
    as text and the decoded body. *)
Definition HTTPReply (B : Type) : Type := result (Z * string * B).

(** [doJSONRequest]; [post] is the exchange. *)
Definition doJSONRequest {B} (post : string → option Payload → HTTPReply B) p (path : string)
    (body : option Payload) : HTTPReply B :=
  if bool_decide (apiHost p = "") || bool_decide (token p = "") || (nodeID p <=? 0)
  then Err (errorf "panel auth config invalid")
  else
    match buildEndpoint p path with
    | Err e => Err e
    | Ok endpoint => post endpoint body
    end.

Definition PathV2ServerHandshake : string := "/api/v2/server/handshake".
Definition PathV2ServerReport : string := "/api/v2/server/report".

Definition missing (status : Z) : bool := (status =? 404) || (status =? 405).

Definition withHandshake (f : Feature) (b : option Lifecycle.RealtimeBootstrap) p : panelControlPlane :=
  mkPlane (client p) (apiHost p) (token p) (nodeID p) (machineID p) f (reportState p) b.

Definition withReportState (f : Feature) p : panelControlPlane :=
  mkPlane (client p) (apiHost p) (token p) (nodeID p) (machineID p) (handshakeState p) f (bootstrap p).

(** The request for the websocket address. *)
Definition askHandshake (post : string → option Payload → HTTPReply (result (bool * string))) p
    : panelControlPlane * result (option Lifecycle.RealtimeBootstrap) :=
  match doJSONRequest post p PathV2ServerHandshake None with
  | Err e => (p, Err e)
  | Ok (status, excerpt, body) =>
      if missing status then (withHandshake featureUnsupported (bootstrap p) p, Ok None)
      else if 400 <=? status then
        (p, Err (errorf ("handshake failed: status=" +:+ Itoa status +:+ " body=" +:+ excerpt)))
      else
        match body with
        | Err e => (p, Err (wrapErr ("decode handshake response failed: " +:+ err_msg e) e))
        | Ok (enabled, url) =>
            let b := Lifecycle.mkBootstrap enabled (TrimSpace url) in
            (withHandshake featureSupported (Some b) p, Ok (Some b))
        end
  end.

Definition GetRealtimeBootstrap (post : string → option Payload → HTTPReply (result (bool * string))) p
    : panelControlPlane * result (option Lifecycle.RealtimeBootstrap) :=
  match handshakeState p with
  | featureUnsupported => (p, Ok None)
  | featureSupported =>
      match bootstrap p with
      | Some b => (p, Ok (Some b))
      | None => askHandshake post p
      end
  | featureUnknown => askHandshake post p
  end.

Definition unifiedUnsupported : GoError :=
  mkError "control plane unified report unsupported" (Some SentinelUnifiedReportUnsupported).

(** What is sent of a report. *)
Definition snapshotPayload (userTraffic : list Panel.UserTraffic) (online : gmap Z (list string)) : Payload :=
  let alive := foldl (λ m entry, <[Itoa entry.1 := entry.2]> m) ∅ (range_list online) in
  mkPayload
    (if bool_decide (userTraffic = []) then None
     else Some (foldl (λ m t, <[Itoa (Panel.ut_UID t) := (Panel.Upload t, Panel.Download t)]> m) ∅ userTraffic))
    (if bool_decide (online = ∅) then None else Some alive)
    (if bool_decide (online = ∅) then None else Some ((λ ips : list string, Z.of_nat (length ips)) <$> alive)).

Definition ReportSnapshot (post : string → option Payload → HTTPReply unit) (userTraffic : list Panel.UserTraffic)
    (online : gmap Z (list string)) p : panelControlPlane * option GoError :=
  match reportState p with
  | featureUnsupported => (p, Some unifiedUnsupported)
  | _ =>
      match doJSONRequest post p PathV2ServerReport (Some (snapshotPayload userTraffic online)) with
      | Err e => (p, Some e)
      | Ok (status, excerpt, _) =>
          if missing status then (withReportState featureUnsupported p, Some unifiedUnsupported)
          else if 400 <=? status then
            (p, Some (errorf ("report snapshot failed: status=" +:+ Itoa status +:+ " body=" +:+ excerpt)))
          else (withReportState featureSupported p, None)
      end
  end.

(** The calls that go to the client. *)
Definition noClient : GoError := errorf "panel client not initialized".

Definition withClientOf (c : Client) p : panelControlPlane :=
  mkPlane (Some c) (apiHost p) (token p) (nodeID p) (machineID p) (handshakeState p) (reportState p) (bootstrap p).

Definition adapterGetNodeInfo bodyHash (config : string → Reply (result Panel.CommonNode)) p
    : option (panelControlPlane * result (option Panel.NodeInfo)) :=
  match client p with
  | None => Some (p, Err noClient)
  | Some c =>
      match GetNodeInfo bodyHash config c with
      | None => None
      | Some (c, r) => Some (withClientOf c p, r)
      end
  end.

(** The answers of the control plane to a synchronisation, as UserSync.v takes
    them: the alive list is asked for before the cached one is read. *)
Definition syncAnswers (info : result (option Panel.NodeInfo)) (ctxCanceled : bool) (users : string → Reply UserBody)
    (delta : Z → Reply (result Panel.UserDeltaBody)) (alive : Reply (result Panel.AliveMap)) p
    : UserSync.ControlPlane :=
  match client p with
  | None =>
      UserSync.mkControlPlane info (Err noClient) (λ _, Err noClient) (Err noClient) ∅
        (Panel.mkAliveMap ∅ ∅ 0)
  | Some c =>
      let '(c', counts) := GetUserAlive ctxCanceled alive c in
      UserSync.mkControlPlane info (GetUserList ctxCanceled users c).2
        (GetUserDelta ctxCanceled delta) counts (CachedAliveMap (Some c')) (CachedAliveSnapshot (Some c'))
  end.

End adapter.
End PanelClient.
