(* ===== verification/PanelClientProps.v ===== *)
(** * Properties of the panel's HTTP API

    A node the client returns is ready to be started ([GetNodeInfo_ready]); a
    configuration is returned once, until another one comes
    ([GetNodeInfo_once]), also when the other one was only the body of an error
    ([error_reply_reloads]); the body of a unified report holds exactly what is
    reported ([snapshotPayload_exact]). *)

From S2P Require Import Prelude GoStrings FilePath Json Panel Conf Inbound Core UserSync Certs Realtime Lifecycle PanelClient.

Module PanelClientProps.
Import GoStrings FilePath PanelClient.

(** The types of nodes that the core can be given: the ones with an inbound of Xray,
    and the ones with a sidecar. *)
Definition inboundTypes : list string :=
  ["vless"; "vmess"; "trojan"; "shadowsocks"; "socks"; "http"; "hysteria2"; "tuic"; "anytls"].

Definition supported (type : string) : Prop :=
  type ∈ inboundTypes ∨ Core.IsExternalSidecarNodeType type = true.

(** For the other types there is no inbound. *)
Lemma buildProtocol_unsupported `{Inbound.XrayConf} random now type cm :
  type ∉ inboundTypes → Inbound.buildProtocol random now type cm = Err (errorf ("unsupported node type: " +:+ type)).
Proof.
  unfold inboundTypes. rewrite !not_elem_of_cons. intros (? & ? & ? & ? & ? & ? & ? & ? & ? & _).
  unfold Inbound.buildProtocol. by rewrite !bool_decide_false.
Qed.

Lemma protocolSecurity_supported cm sec : protocolSecurity cm = Some sec → supported (Panel.Protocol cm).
Proof.
  unfold protocolSecurity, supported, inboundTypes, Core.IsExternalSidecarNodeType. generalize (Panel.Protocol cm). intros p.
  rewrite bool_decide_eq_true. repeat case_bool_decide; try done; intros _; set_solver.
Qed.

Section client.
Context (bodyHash : Panel.CommonNode → string).
Implicit Types (c : Client) (cm : Panel.CommonNode).

(** The panel answers every request with a configuration. *)
Definition answering (status : Z) (statusText etag excerpt : string) cm (_ : string) : Reply (result Panel.CommonNode) :=
  Answer status statusText etag excerpt (Ok cm).

Lemma withNodeEtag_hash etag c : responseBodyHash (withNodeEtag etag c) = responseBodyHash c.
Proof. done. Qed.

Lemma withNodeEtag_twice etag c : withNodeEtag etag (withNodeEtag etag c) = withNodeEtag etag c.
Proof. unfold withNodeEtag. cbn. by case_bool_decide. Qed.

(** What a first reply with a configuration leads to. *)
Lemma GetNodeInfo_answer status st etag ex cm c :
  status ≠ 304 →
  GetNodeInfo bodyHash (answering status st etag ex cm) c =
  if bool_decide (responseBodyHash c = bodyHash cm) then Some (withNodeEtag etag c, Ok None)
  else
    let c := withNodeEtag etag (withBodyHash (bodyHash cm) c) in
    match protocolSecurity cm with
    | None => Some (c, Err (errorf ("unsupport protocol: " +:+ Panel.Protocol cm)))
    | Some security => match nodeOf c security cm with None => None | Some n => Some (c, Ok (Some n)) end
    end.
Proof. intros Hs. unfold GetNodeInfo, answering. by rewrite (proj2 (Z.eqb_neq _ _) Hs). Qed.

(** A configuration the panel keeps answering is returned at most once: whatever
    the first call returned, an error included, the next one reports no change
    and leaves the client as it is. *)
Theorem GetNodeInfo_once status st etag ex cm c c' r :
  status ≠ 304 → GetNodeInfo bodyHash (answering status st etag ex cm) c = Some (c', r) →
  GetNodeInfo bodyHash (answering status st etag ex cm) c' = Some (c', Ok None)
  ∧ (responseBodyHash c ≠ bodyHash cm ↔ r ≠ Ok None).
Proof.
  intros Hs. rewrite !GetNodeInfo_answer by done. case_bool_decide as Hh.
  - intros [= <- <-]. rewrite withNodeEtag_hash, bool_decide_true by done. rewrite withNodeEtag_twice. naive_solver.
  - intros Hr. assert (Hc : c' = withNodeEtag etag (withBodyHash (bodyHash cm) c) ∧ r ≠ Ok None).
    { cbn zeta in Hr. repeat case_match; by simplify_eq. }
    destruct Hc as [-> Hne]. rewrite withNodeEtag_hash. cbn [responseBodyHash withBodyHash].
    rewrite bool_decide_true, withNodeEtag_twice by done. done.
Qed.

Lemma orMinute_pos d : 0 < (if d <=? 0 then 60 * 1000000000 else d).
Proof. destruct (Z.leb_spec d 0); lia. Qed.

Lemma Join2_nonempty dir name : name ≠ "" → Join2 dir name ≠ "".
Proof.
  intros Hn. unfold Join2. destruct (filter _ [dir; name]) as [|x l] eqn:Hf; [|apply Clean_nonempty].
  assert (Hin : name ∈ filter (λ s, s ≠ "") [dir; name]) by (apply list_elem_of_filter; set_solver).
  rewrite Hf in Hin. by apply elem_of_nil in Hin.
Qed.

Lemma ext_nonempty s t ext : ext ≠ "" → s +:+ t +:+ ext ≠ "".
Proof. intros He Hs. apply (f_equal bytes) in Hs. rewrite !bytes_app in Hs. apply He, bytes_inj.
  by apply app_eq_nil in Hs as [_ [_ ?]%app_eq_nil]. Qed.

Lemma certInfo_files dir id cm :
  Panel.CertFile (certInfo dir id cm) ≠ "" ∧ Panel.KeyFile (certInfo dir id cm) ≠ "".
Proof.
  unfold certInfo. cbn. split; (case_bool_decide; [|done]); by apply Join2_nonempty, ext_nonempty.
Qed.

Lemma withCertInfo_Cert ci cm : Panel.Cert_Info (withCertInfo ci cm) = Some ci.
Proof. by destruct cm. Qed.

Lemma intervals_pos cm push pull : intervals cm = Some (push, pull) → 0 < push ∧ 0 < pull.
Proof.
  unfold intervals. destruct (Panel.Base_Config cm) as [b|]; [|intros [= <- <-]; lia].
  destruct (Panel.intervalToTime (Panel.bc_PushInterval b)) as [x|]; [|done]. cbn.
  destruct (Panel.intervalToTime (Panel.bc_PullInterval b)) as [y|]; [|done]. cbn.
  intros [= <- <-]. split; apply orMinute_pos.
Qed.

Lemma GetNodeInfo_Some config c c' n :
  GetNodeInfo bodyHash config c = Some (c', Ok (Some n)) →
  ∃ cm security c0, protocolSecurity cm = Some security ∧ nodeOf c0 security cm = Some n
    ∧ NodeId c0 = NodeId c ∧ APIHost c0 = APIHost c.
Proof.
  unfold GetNodeInfo. destruct (config (nodeEtag c)) as [e| |status st etag ex body]; [by destruct (canceled e)|done|].
  destruct (status =? 304); [done|]. destruct body as [cm|e]; [|done]. case_bool_decide; [done|].
  destruct (protocolSecurity cm) as [sec|] eqn:Hs; [|done]. destruct (nodeOf _ sec cm) as [m|] eqn:Hn; [|done].
  intros [= _ ->]. exists cm, sec. eexists. split; [done|]. split; [exact Hn|done].
Qed.

(** C34. A node the client returns can be started as it is: its type is one the
    core supports, its intervals are positive, it names the files of its
    certificate, and asking for the certificate is a panic only if the client
    of the authority panics. *)
Theorem GetNodeInfo_ready `{Certs.CertEnv} config c c' n conf fs :
  GetNodeInfo bodyHash config c = Some (c', Ok (Some n)) →
  supported (Panel.Type_ n) ∧ Panel.NodeInfo_Id n = NodeId c
  ∧ Panel.Tag n = "[" +:+ APIHost c +:+ "]-" +:+ Panel.Type_ n +:+ ":" +:+ Itoa (NodeId c)
  ∧ 0 < Panel.PushInterval n ∧ 0 < Panel.PullInterval n
  ∧ (Panel.Type_ n = "shadowsocks" → Panel.Security n = Panel.SecurityNone)
  ∧ (∃ cm ci, Panel.Common n = Some cm ∧ Panel.Cert_Info cm = Some ci ∧ Panel.CertFile ci ≠ "" ∧ Panel.KeyFile ci ≠ "")
  ∧ (Certs.requestCert conf n fs = None → ∃ ci, Certs.legoCert ci fs = None).
Proof.
  intros (cm & sec & c0 & Hs & Hn & <- & <-)%GetNodeInfo_Some. unfold nodeOf in Hn.
  destruct (intervals cm) as [[push pull]|] eqn:Hi; [|done]. apply intervals_pos in Hi as [H1 H2].
  injection Hn as <-. split; [by eapply protocolSecurity_supported|]. split_and!; try done.
  - cbn. unfold protocolSecurity in Hs. intros Hp. rewrite Hp in Hs. vm_compute in Hs. by injection Hs as <-.
  - cbn. do 2 eexists. split; [reflexivity|]. rewrite withCertInfo_Cert. split; [reflexivity|]. apply certInfo_files.
  - intros Hr. eexists. refine (Certs.requestCert_panic _ _ _ _ _ _ _ Hr); [reflexivity|apply withCertInfo_Cert].
Qed.

(** The status of a reply is not looked at: the page of an HTTP error takes the
    place of the configuration, and when the panel works again its unchanged
    configuration counts as a new one, which queues a reload. *)
Theorem error_reply_reloads st et ex st' et' ex' page cm sec n c ch :
  responseBodyHash c = bodyHash cm → protocolSecurity cm = Some sec → nodeOf c sec cm = Some n →
  protocolSecurity page = None → bodyHash page ≠ bodyHash cm → (0 < Realtime.cap ch)%nat →
  GetNodeInfo bodyHash (answering 200 st et ex cm) c = Some (withNodeEtag et c, Ok None)
  ∧ ∃ c1 c2 e, GetNodeInfo bodyHash (answering 500 st' et' ex' page) c = Some (c1, Err e)
    ∧ GetNodeInfo bodyHash (answering 200 st et ex cm) c1 = Some (c2, Ok (Some n))
    ∧ Realtime.executeNodeConfigCheck (Ok (Some n)) (Some ch) = (Some (Realtime.trySend () ch), Ok true)
    ∧ Realtime.queued (Realtime.trySend () ch) ≠ [].
Proof.
  intros Hc Hs Hn Hp Hne Hcap. rewrite GetNodeInfo_answer, bool_decide_true by done. split; [done|].
  rewrite GetNodeInfo_answer, bool_decide_false by congruence. cbn zeta. rewrite Hp.
  do 3 eexists. split; [reflexivity|]. rewrite GetNodeInfo_answer by done. rewrite withNodeEtag_hash.
  cbn [responseBodyHash withBodyHash]. rewrite bool_decide_false by congruence. cbn zeta. rewrite Hs.
  change (nodeOf _ sec cm) with (nodeOf c sec cm). rewrite Hn. split; [reflexivity|]. split; [reflexivity|].
  unfold Realtime.trySend. case_match eqn:Hl; cbn; [by destruct (Realtime.queued ch)|].
  apply Nat.ltb_ge in Hl. destruct (Realtime.queued ch); [cbn in Hl; lia|done].
Qed.

End client.

(** ** The unified report *)

Section report.
Context {RO : RangeOrder Z}.

(** Writing under the decimal keys of distinct numbers. *)
Lemma decimal_foldl {A B} (key : A → Z) (val : A → B) (l : list A) (m : gmap string B) (m' : gmap Z B) :
  (∀ x, x ∈ l → i64 (key x)) → (∀ k, i64 k → m !! Itoa k = m' !! k) →
  ∀ k, i64 k → foldl (λ m x, <[Itoa (key x) := val x]> m) m l !! Itoa k
               = foldl (λ m x, <[key x := val x]> m) m' l !! k.
Proof.
  revert m m'. induction l as [|x l IH]; intros m m' Hl Hm k Hk; cbn; [by apply Hm|].
  apply IH; [set_solver| |done]. intros k' Hk'.
  destruct (decide (key x = k')) as [<-|Hne]; [by rewrite !lookup_insert_eq|].
  rewrite !lookup_insert_ne; [by apply Hm|done|]. intros E. apply Itoa_inj in E; [done| |done]. apply Hl. set_solver.
Qed.

(** Every key is one of these. *)
Lemma decimal_keys {A B} (key : A → Z) (val : A → B) (l : list A) (m : gmap string B) s :
  is_Some (foldl (λ m x, <[Itoa (key x) := val x]> m) m l !! s) → is_Some (m !! s) ∨ ∃ x, x ∈ l ∧ s = Itoa (key x).
Proof. apply foldl_insert_is_Some. Qed.

(** Rebuilding a map entry by entry. *)
Lemma foldl_insert_rev {V} (l : list (Z * V)) (m : gmap Z V) :
  foldl (λ m' e, <[e.1 := e.2]> m') m l = list_to_map (rev l) ∪ m.
Proof.
  revert m. induction l as [|[k v] l IH]; intros m; cbn; [by rewrite map_empty_union|].
  rewrite IH, list_to_map_app. cbn. by rewrite <- (assoc_L (∪)), <- insert_union_l, map_empty_union.
Qed.

Lemma rebuild_foldl {V} (m : gmap Z V) : foldl (λ m' e, <[e.1 := e.2]> m') ∅ (range_list m) = m.
Proof.
  rewrite foldl_insert_rev, map_union_empty.
  rewrite <- (list_to_map_to_list m) at 2. apply list_to_map_proper.
  - rewrite <- Permutation_rev. apply NoDup_range_list.
  - rewrite <- range_list_perm. symmetry. apply Permutation_rev.
Qed.

(** The body of a unified report: what is reported for a user is found under the
    user's id in decimal, nothing else is, and a part without entries is left
    out. *)
Theorem snapshotPayload_exact userTraffic (online : gmap Z (list string)) :
  (∀ t, t ∈ userTraffic → i64 (Panel.ut_UID t)) → (∀ k, is_Some (online !! k) → i64 k) →
  let p := snapshotPayload userTraffic online in
  (∀ k, i64 k → default ∅ (pl_traffic p) !! Itoa k = trafficData userTraffic !! k
                ∧ default ∅ (pl_alive p) !! Itoa k = online !! k
                ∧ default ∅ (pl_online p) !! Itoa k = (λ ips, Z.of_nat (length ips)) <$> online !! k)
  ∧ (∀ s, is_Some (default ∅ (pl_traffic p) !! s) ∨ is_Some (default ∅ (pl_alive p) !! s) →
      ∃ k, s = Itoa k ∧ (k ∈ Panel.ut_UID <$> userTraffic ∨ is_Some (online !! k)))
  ∧ (pl_traffic p = None ↔ userTraffic = []) ∧ (pl_alive p = None ↔ online = ∅).
Proof.
  intros Ht Ho. cbn zeta.
  set (alive := foldl (λ m entry, <[Itoa entry.1 := entry.2]> m) ∅ (range_list online) : gmap string (list string)).
  assert (Halive : ∀ k, i64 k → alive !! Itoa k = online !! k).
  { intros k Hk. unfold alive. rewrite (decimal_foldl fst snd _ ∅ ∅) by
      (try done; intros [k' v] Hin%elem_of_range_list; by apply Ho; eexists). by rewrite rebuild_foldl. }
  assert (Ha : default ∅ (pl_alive (snapshotPayload userTraffic online)) = alive).
  { cbn. case_bool_decide as He; [|done]. unfold alive. subst online. cbn.
    assert (Hr : range_list (∅ : gmap Z (list string)) ≡ₚ []) by (by rewrite range_list_perm, map_to_list_empty).
    by apply Permutation_nil_r in Hr as ->. }
  assert (Htr : default ∅ (pl_traffic (snapshotPayload userTraffic online)) =
    foldl (λ m t, <[Itoa (Panel.ut_UID t) := (Panel.Upload t, Panel.Download t)]> m) ∅ userTraffic).
  { cbn. case_bool_decide as He; [|done]. by subst. }
  rewrite Ha, Htr. split_and!.
  - intros k Hk. split_and!; [|by apply Halive|].
    + by apply (decimal_foldl Panel.ut_UID (λ t, (Panel.Upload t, Panel.Download t))).
    + rewrite <- Halive by done. rewrite <- lookup_fmap, <- Ha. cbn. by case_bool_decide.
  - intros s [Hs|Hs].
    + apply (decimal_keys Panel.ut_UID (λ t, (Panel.Upload t, Panel.Download t))) in Hs as [[? Hs]|(t & Hin & ->)]; [done|].
      exists (Panel.ut_UID t). split; [done|]. left. by apply list_elem_of_fmap_2.
    + apply (decimal_keys fst snd) in Hs as [[? Hs]|([k v] & Hin%elem_of_range_list & ->)]; [done|].
      exists k. split; [done|]. right. by eexists.
  - cbn. by case_bool_decide.
  - cbn. by case_bool_decide.
Qed.

End report.

(** ** Examples at which the hypotheses hold *)

Module Examples.
#[local] Instance exampleOrder : RangeOrder Z := canonical_order Z.

(** A hash that tells protocols apart. *)
Definition exampleHash (cm : Panel.CommonNode) : string := Panel.Protocol cm.

Definition exampleClient : Client := New (Conf.mkNodeConfig "https://p" 7 "k" 0 0 "").

(** A configuration of a protocol; the page of an error has none. *)
Definition exampleNode (protocol : string) : Panel.CommonNode :=
  let '(Panel.mkCommonNode _ li sp po ps r b t ts ci n ns e es sn f ci' sk cc z pa up dn ob op ig tr mu) := Panel.zeroCommon in
  Panel.mkCommonNode protocol li sp po ps r b t ts ci n ns e es sn f ci' sk cc z pa up dn ob op ig tr mu.

Lemma GetNodeInfo_once_witness :
  match GetNodeInfo exampleHash (answering 200 "200 OK" "e" "" (exampleNode "gopher")) exampleClient with
  | Some (c', Err _) =>
      GetNodeInfo exampleHash (answering 200 "200 OK" "e" "" (exampleNode "gopher")) c' = Some (c', Ok None)
  | _ => False
  end.
Proof.
  assert (Hrun : match GetNodeInfo exampleHash (answering 200 "200 OK" "e" "" (exampleNode "gopher")) exampleClient with
    | Some (_, Err _) => true | _ => false end = true) by (vm_compute; reflexivity).
  destruct (GetNodeInfo exampleHash (answering 200 "200 OK" "e" "" (exampleNode "gopher")) exampleClient)
    as [[c' [r|e]]|] eqn:E; [discriminate Hrun| |discriminate Hrun].
  exact (proj1 (GetNodeInfo_once exampleHash 200 "200 OK" "e" "" (exampleNode "gopher") exampleClient c' (Err e)
                  ltac:(discriminate) E)).
Defined.

#[local] Instance exampleCerts : Certs.CertEnv := {|
  Certs.FS := gset string;
  Certs.Stat fs f := if bool_decide (f ∈ fs) then None else Some true;
  Certs.MkdirAll _ fs := (fs, None);
  Certs.GenerateKey := None;
  Certs.CreateCertificate d := Ok d;
  Certs.writePEM f _ _ fs := ({[f]} ∪ fs, None);
  Certs.keyPEM := "k";
  Certs.Lego := unit;
  Certs.NewLego _ fs := Some (fs, Ok ());
  Certs.CreateCert _ fs := Some (fs, Ok ())
|}.

Lemma GetNodeInfo_ready_witness :
  match GetNodeInfo exampleHash (answering 200 "200 OK" "e" "" (exampleNode "vless")) exampleClient with
  | Some (_, Ok (Some n)) => Panel.Tag n = "[https://p]-vless:7" ∧ 0 < Panel.PullInterval n
  | _ => False
  end.
Proof.
  assert (Hrun : match GetNodeInfo exampleHash (answering 200 "200 OK" "e" "" (exampleNode "vless")) exampleClient with
    | Some (_, Ok (Some n)) => bool_decide (Panel.Type_ n = "vless") | _ => false end = true)
    by (vm_compute; reflexivity).
  destruct (GetNodeInfo exampleHash (answering 200 "200 OK" "e" "" (exampleNode "vless")) exampleClient)
    as [[c' [[n|]|e]]|] eqn:E; [|discriminate Hrun..].
  apply bool_decide_eq_true in Hrun.
  destruct (@GetNodeInfo_ready exampleHash exampleCerts _ exampleClient c' n None (∅ : gset string) E) as (_ & _ & Htag & _ & Hpull & _).
  split; [|exact Hpull]. rewrite Htag, Hrun. reflexivity.
Defined.

Lemma error_reply_reloads_witness :
  ∃ n c1 c2 e,
    let c := withBodyHash "vless" exampleClient in
    GetNodeInfo exampleHash (answering 500 "500" "" "" (exampleNode "")) c = Some (c1, Err e)
    ∧ GetNodeInfo exampleHash (answering 200 "200 OK" "e" "" (exampleNode "vless")) c1 = Some (c2, Ok (Some n)).
Proof.
  assert (Hn : match nodeOf (withBodyHash "vless" exampleClient) 0 (exampleNode "vless") with
               | Some _ => true | None => false end = true) by (vm_compute; reflexivity).
  destruct (nodeOf (withBodyHash "vless" exampleClient) 0 (exampleNode "vless")) as [n|] eqn:E; [|discriminate Hn].
  destruct (error_reply_reloads exampleHash "200 OK" "e" "" "500" "" "" (exampleNode "") (exampleNode "vless") 0 n
              (withBodyHash "vless" exampleClient) (Realtime.mkChan 1 []) eq_refl eq_refl E eq_refl
              ltac:(discriminate) (Nat.lt_0_succ 0)) as (_ & c1 & c2 & e & H1 & H2 & _).
  exists n, c1, c2, e. split; [exact H1|exact H2].
Defined.

Lemma snapshotPayload_exact_witness :
  default ∅ (pl_alive (snapshotPayload [Panel.mkUserTraffic 3 1 2] {[5 := ["192.0.2.1"]]})) !! "5" = Some ["192.0.2.1"].
Proof.
  destruct (snapshotPayload_exact [Panel.mkUserTraffic 3 1 2] {[5 := ["192.0.2.1"]]}) as [H _].
  - intros t ->%list_elem_of_singleton. apply (bool_decide_unpack _). vm_compute. reflexivity.
  - intros k Hk. destruct (decide (5 = k)) as [<-|Hne]; [apply (bool_decide_unpack _); vm_compute; reflexivity|].
    rewrite lookup_singleton_ne in Hk by done. by destruct Hk.
  - destruct (H 5) as (_ & Ha & _); [apply (bool_decide_unpack _); vm_compute; reflexivity|].
    exact Ha.
Defined.

End Examples.
End PanelClientProps.
