(* ===== verification/MachineProfiles.v ===== *)
(** * The nodes of machine profiles (node/machine_profiles.go)

    In machine mode a configuration names profiles: a panel, a machine id and a
    token. [ResolveMachineNodeConfigs] asks each panel for the nodes of the
    machine and adds them to the configuration, with the subscription proxy and
    the realtime settings the panel sends along. The HTTP exchange, net/url and
    strings.EqualFold are arguments. *)

From Stdlib Require Import Ascii.
From S2P Require Import Prelude GoStrings FilePath Panel Conf UserSync Realtime.

Module MachineProfiles.
Import GoStrings FilePath Conf.

(** ** Data *)

Record MachinePanelNode := mkPanelNode {
  ID : Z;
  Code : string;
  pn_Type : string;
  pn_Name : string;
  UpdatedAt : Panel.AnyValue
}.

(** [base_config] and [agent], down to the member that is read. *)
Record machineProfileResult := mkProfileResult {
  Nodes : list MachinePanelNode;
  BaseConfig : option (option Panel.RealtimeBaseConfig);
  Agent : option (option SubscriptionProxyConfig)
}.

(** A response: the members at the top, and those under "data". *)
Record machineNodesResponse := mkResponse {
  top : machineProfileResult;
  Data : option machineProfileResult
}.

(** ** Names *)

Definition machineProfileLabel (profile : MachineProfileConfig) : string :=
  let name := TrimSpace (mp_Name profile) in
  if negb (bool_decide (name = "")) then name
  else if 0 <? mp_MachineID profile then "machine-" +:+ Itoa (mp_MachineID profile)
  else TrimRight is_slash (TrimSpace (mp_APIHost profile)).

(** The bytes [a-zA-Z0-9._-]. *)
Definition nameByte (a : ascii) : bool :=
  let n := N_of_ascii a in
  ((N.leb 97 n && N.leb n 122) || (N.leb 65 n && N.leb n 90) || (N.leb 48 n && N.leb n 57)
   || Ascii.eqb a "." || Ascii.eqb a "_" || Ascii.eqb a "-")%char%bool.

(** Every maximal run of other bytes becomes one "-"; [run] tells that the byte
    before was in a run. *)
Fixpoint replaceRuns (run : bool) (l : list ascii) : list ascii :=
  match l with
  | [] => []
  | a :: l =>
      if nameByte a then a :: replaceRuns false l
      else (if run then [] else ["-"%char]) ++ replaceRuns true l
  end.

Definition is_dash (a : ascii) : bool := Ascii.eqb a "-".

Definition sanitizeMachineProfileName (name : string) : string :=
  let name := Trim is_dash (of_bytes (replaceRuns false (bytes (TrimSpace name)))) in
  if bool_decide (name = "") then "machine" else name.

Definition machineProfileNodeConfigDir (profile : MachineProfileConfig) (nodeID : Z) : string :=
  let root := TrimSpace (mp_ConfigDir profile) in
  let root := if bool_decide (root = "")
              then Join2 DefaultNodeConfigDir (sanitizeMachineProfileName (machineProfileLabel profile))
              else root in
  NormalizeConfigDir (Join2 root ("node-" +:+ Itoa nodeID)).

Definition machineProfileNodeKey (apiHost : string) (machineID nodeID : Z) : string :=
  let apiHost := TrimRight is_slash (TrimSpace apiHost) in
  if bool_decide (apiHost = "") || (nodeID <=? 0) then ""
  else apiHost +:+ "#" +:+ Itoa machineID +:+ "#" +:+ Itoa nodeID.

(** ** Realtime settings *)

Definition machineRealtimeIntervalSeconds (value : Panel.AnyValue) : Z :=
  match value with
  | Panel.AnyInt v => v
  | Panel.AnyFloat m e => Panel.floatToInt m e
  | Panel.AnyString v => AtoiValue (TrimSpace v)
  | _ => 0
  end.

Definition machineRealtimeConfigFromProfileResult (r : machineProfileResult) : RealtimeConfig :=
  match BaseConfig r with
  | Some (Some realtime) =>
      mkRealtimeConfig (Panel.rb_Enabled realtime) (TrimSpace (Panel.rb_URL realtime))
        (machineRealtimeIntervalSeconds (Panel.rb_PingInterval realtime)) 0
  | _ => zeroRealtime
  end.

(** ** The subscription proxy *)

Section profiles.
Context `{Realtime.NetURL} (EqualFold : string → string → bool).

Definition validSubscriptionProxyProfile (siteID upstreamBaseURL : string) : bool :=
  if bool_decide (TrimSpace siteID = "") then false
  else
    match Realtime.Parse (TrimRight is_slash (TrimSpace upstreamBaseURL)) with
    | None => false
    | Some parsed => negb (bool_decide (Realtime.Scheme parsed = "")) && negb (bool_decide (Realtime.Host parsed = ""))
    end.

Definition canRunSubscriptionProxyOnly (cfg : Conf) : bool :=
  let proxy := cf_Agent cfg in
  px_Enabled proxy
  && (validSubscriptionProxyProfile (SiteID proxy) (UpstreamBaseURL proxy)
      || existsb (λ p, validSubscriptionProxyProfile (sp_SiteID p) (sp_UpstreamBaseURL p)) (px_Profiles proxy)).

(** The profile of the proxy that a machine profile stands for. *)
Definition proxyProfileOf (profile : MachineProfileConfig) (src : SubscriptionProxyConfig)
    : SubscriptionProxyProfile :=
  let site := TrimSpace (SiteID src) in
  let upstream := TrimRight is_slash (TrimSpace (UpstreamBaseURL src)) in
  let path := Trim is_slash (TrimSpace (SubscribePath src)) in
  mkSubscriptionProxyProfile
    (if bool_decide (site = "") then sanitizeMachineProfileName (machineProfileLabel profile) else site)
    (if bool_decide (upstream = "") then TrimRight is_slash (TrimSpace (mp_APIHost profile)) else upstream)
    (if bool_decide (path = "") then "s" else path).

(** The listeners and files of the proxy: the first profile that enables it sets
    them, later ones fill in what is missing. *)
Definition mergeListener (src dst : SubscriptionProxyConfig) : SubscriptionProxyConfig :=
  if negb (px_Enabled dst) then
    mkSubscriptionProxyConfig true (TrimSpace (HTTPSListen src)) (TrimSpace (HTTPListen src))
      (TrimSpace (CertFile src)) (TrimSpace (KeyFile src)) (TrimSpace (CertificateDomain src))
      (TrimSpace (ChallengeDir src)) (ZeroSSL src) (SiteID dst) (UpstreamBaseURL dst) (SubscribePath dst)
      (AllowHTTPFallback src) (MaxResponseBytes src) (px_Profiles dst)
  else
    let fill d s := if bool_decide (d = "") then TrimSpace s else d in
    mkSubscriptionProxyConfig true (fill (HTTPSListen dst) (HTTPSListen src))
      (fill (HTTPListen dst) (HTTPListen src)) (fill (CertFile dst) (CertFile src))
      (fill (KeyFile dst) (KeyFile src)) (fill (CertificateDomain dst) (CertificateDomain src))
      (fill (ChallengeDir dst) (ChallengeDir src))
      (if bool_decide (CertificateID (ZeroSSL dst) = "") then ZeroSSL src else ZeroSSL dst)
      (SiteID dst) (UpstreamBaseURL dst) (SubscribePath dst) (AllowHTTPFallback dst)
      (if MaxResponseBytes dst <=? 0 then MaxResponseBytes src else MaxResponseBytes dst) (px_Profiles dst).

Definition withProxyProfiles (ps : list SubscriptionProxyProfile) (dst : SubscriptionProxyConfig)
    : SubscriptionProxyConfig :=
  mkSubscriptionProxyConfig (px_Enabled dst) (HTTPSListen dst) (HTTPListen dst) (CertFile dst) (KeyFile dst)
    (CertificateDomain dst) (ChallengeDir dst) (ZeroSSL dst) (SiteID dst) (UpstreamBaseURL dst)
    (SubscribePath dst) (AllowHTTPFallback dst) (MaxResponseBytes dst) ps.

Definition withAgent (proxy : SubscriptionProxyConfig) (cfg : Conf) : Conf :=
  mkConf (cf_Log cfg) (cf_Nodes cfg) (cf_Machine cfg) proxy (cf_DNS cfg) (PprofPort cfg) (HealthPort cfg)
    (cf_Runtime cfg) (cf_Realtime cfg) (cf_Edge cfg).

Definition mergeMachineProfileAgentConfig (cfg : Conf) (profile : MachineProfileConfig)
    (agent : option (option SubscriptionProxyConfig)) : Conf :=
  match agent with
  | Some (Some src) =>
      if negb (px_Enabled src) then cfg
      else
        let p := proxyProfileOf profile src in
        if bool_decide (sp_SiteID p = "") || bool_decide (sp_UpstreamBaseURL p = "") then cfg
        else
          let dst := mergeListener src (cf_Agent cfg) in
          if existsb (λ existing, EqualFold (sp_SiteID existing) (sp_SiteID p)) (px_Profiles dst)
          then withAgent dst cfg
          else withAgent (withProxyProfiles (px_Profiles dst ++ [p]) dst) cfg
  | _ => cfg
  end.

(** ** Asking the panel *)

(** The request: where to, the machine id, the token, and the seconds it may
    take. The reply: an error, or a status with the first bytes of the body as
    text, and the decoded body. *)
Definition MachinePanel : Type :=
  string → Z → string → Z → result (Z * string * result machineNodesResponse).

Definition PathV2MachineNodes : string := "/api/v2/server/machine/nodes".

Definition fetchMachineProfileNodes (panel : MachinePanel) (profile : MachineProfileConfig)
    : result machineProfileResult :=
  let apiHost := TrimRight is_slash (TrimSpace (mp_APIHost profile)) in
  let token := TrimSpace (mp_Key profile) in
  if bool_decide (apiHost = "") || bool_decide (token = "") || (mp_MachineID profile <=? 0)
  then Err (errorf "machine profile requires api host, token and machine id")
  else
    let timeout := if 0 <? mp_Timeout profile then mp_Timeout profile else 30 in
    match panel (apiHost +:+ PathV2MachineNodes) (mp_MachineID profile) token timeout with
    | Err e => Err e
    | Ok (status, excerpt, body) =>
        if 400 <=? status then
          Err (errorf ("machine nodes request failed: status=" +:+ Itoa status +:+ " body=" +:+ excerpt))
        else
          match body with
          | Err e => Err (wrapErr ("decode machine nodes response failed: " +:+ err_msg e) e)
          | Ok payload => Ok (default (top payload) (Data payload))
          end
    end.

(** ** Resolving *)

(** The configuration of a node of a profile. *)
Definition profileNode (profile : MachineProfileConfig) (id : Z) : NodeConfig :=
  mkNodeConfig (mp_APIHost profile) id (mp_Key profile) (mp_MachineID profile) (mp_Timeout profile)
    (machineProfileNodeConfigDir profile id).

(** The variables of [ResolveMachineNodeConfigs]. *)
Record Resolving := mkResolving {
  rs_cfg : Conf;
  nodes : list NodeConfig;
  seen : gset string;
  failures : list string;
  successes : Z
}.

Definition duplicateNode (key : string) : GoError := errorf ("duplicate machine profile node: " +:+ key).

(** One node of an answer; the error ends everything. *)
Definition nodeStep (continueOnError : bool) (profile : MachineProfileConfig) (node : MachinePanelNode)
    (s : Resolving) : Resolving * option GoError :=
  if ID node <=? 0 then (s, None)
  else
    let key := machineProfileNodeKey (mp_APIHost profile) (mp_MachineID profile) (ID node) in
    if bool_decide (key ∈ seen s) then
      if continueOnError
      then (mkResolving (rs_cfg s) (nodes s) (seen s) (failures s ++ [err_msg (duplicateNode key)]) (successes s), None)
      else (s, Some (duplicateNode key))
    else (mkResolving (rs_cfg s) (nodes s ++ [profileNode profile (ID node)]) ({[key]} ∪ seen s) (failures s)
            (successes s), None).

Fixpoint nodeSteps (continueOnError : bool) (profile : MachineProfileConfig) (ns : list MachinePanelNode)
    (s : Resolving) : Resolving * option GoError :=
  match ns with
  | [] => (s, None)
  | n :: ns =>
      match nodeStep continueOnError profile n s with
      | (s, Some e) => (s, Some e)
      | (s, None) => nodeSteps continueOnError profile ns s
      end
  end.

Definition withProfileRealtime (i : nat) (rt : RealtimeConfig) (cfg : Conf) : Conf :=
  let m := cf_Machine cfg in
  let set p := mkMachineProfileConfig (mp_Name p) (mp_APIHost p) (mp_Key p) (mp_MachineID p) (mp_Timeout p)
                 (mp_ConfigDir p) rt in
  mkConf (cf_Log cfg) (cf_Nodes cfg)
    (mkMachineConfig (mc_Enabled m) (ContinueOnError m) (alter set i (Profiles m)))
    (cf_Agent cfg) (cf_DNS cfg) (PprofPort cfg) (HealthPort cfg) (cf_Runtime cfg) (cf_Realtime cfg) (cf_Edge cfg).

(** The profile of index [i]. *)
Definition profileStep (panel : MachinePanel) (i : nat) (profile : MachineProfileConfig) (s : Resolving)
    : Resolving * option GoError :=
  let continueOnError := ContinueOnError (cf_Machine (rs_cfg s)) in
  match fetchMachineProfileNodes panel profile with
  | Err e =>
      let s := mkResolving (rs_cfg s) (nodes s) (seen s)
                 (failures s ++ [machineProfileLabel profile +:+ ": " +:+ err_msg e]) (successes s) in
      if continueOnError then (s, None) else (s, Some e)
  | Ok r =>
      let cfg := withProfileRealtime i (machineRealtimeConfigFromProfileResult r) (rs_cfg s) in
      let cfg := mergeMachineProfileAgentConfig cfg profile (Agent r) in
      nodeSteps continueOnError profile (Nodes r)
        (mkResolving cfg (nodes s) (seen s) (failures s) (successes s + 1))
  end.

Fixpoint profileSteps (panel : MachinePanel) (i : nat) (profiles : list MachineProfileConfig) (s : Resolving)
    : Resolving * option GoError :=
  match profiles with
  | [] => (s, None)
  | p :: profiles =>
      match profileStep panel i p s with
      | (s, Some e) => (s, Some e)
      | (s, None) => profileSteps panel (S i) profiles s
      end
  end.

Definition withNodes (ns : list NodeConfig) (cfg : Conf) : Conf :=
  mkConf (cf_Log cfg) ns (cf_Machine cfg) (cf_Agent cfg) (cf_DNS cfg) (PprofPort cfg) (HealthPort cfg)
    (cf_Runtime cfg) (cf_Realtime cfg) (cf_Edge cfg).

Definition existingKey (n : NodeConfig) : string := machineProfileNodeKey (APIHost n) (MachineID n) (NodeID n).

(** The keys of the nodes that are configured already. *)
Definition existingKeys (ns : list NodeConfig) : gset string :=
  list_to_set (filter (λ key, key ≠ "") (existingKey <$> ns)).

Definition ResolveMachineNodeConfigs (panel : MachinePanel) (cfg : Conf) : Conf * option GoError :=
  if negb (mc_Enabled (cf_Machine cfg)) || bool_decide (Profiles (cf_Machine cfg) = []) then (cfg, None)
  else
    let start := mkResolving cfg (cf_Nodes cfg) (existingKeys (cf_Nodes cfg)) [] 0 in
    match profileSteps panel 0 (Profiles (cf_Machine cfg)) start with
    | (s, Some e) => (rs_cfg s, Some e)
    | (s, None) =>
        if bool_decide (nodes s = []) then
          if (0 <? successes s) && canRunSubscriptionProxyOnly (rs_cfg s)
          then (withNodes [] (rs_cfg s), None)
          else if negb (bool_decide (failures s = []))
          then (rs_cfg s, Some (errorf ("no machine nodes resolved: " +:+ Join "; " (failures s))))
          else (rs_cfg s, Some (errorf "no machine nodes resolved"))
        else (withNodes (nodes s) (rs_cfg s), None)
    end.

End profiles.
End MachineProfiles.
