(* ===== verification/MachineProfilesProps.v ===== *)
(** * Properties of the nodes of machine profiles

    The nodes a resolution adds are what a reference definition of it picks
    ([resolve_nodes]); the nodes of one profile have directories of their own
    ([profile_dirs_distinct]); a node that two machines of a panel share is
    accepted here and refused by the reconciliation ([shared_node_refused]). *)

From Stdlib Require Import Ascii.
From S2P Require Import Prelude GoStrings FilePath Panel Conf ConfProps Json UserSync Realtime Machine MachineProps MachineProfiles.

Module MachineProfilesProps.
Import GoStrings FilePath Conf MachineProfiles.

Section profiles.
Context `{Realtime.NetURL} (EqualFold : string → string → bool) (panel : MachinePanel).

(** ** The reference definition *)

(** The nodes the panels name, in the order of the profiles; a profile whose
    panel does not answer has none. *)
Definition candidates (profiles : list MachineProfileConfig) : list NodeConfig :=
  concat ((λ p, match fetchMachineProfileNodes panel p with
                | Ok r => profileNode p <$> filter (λ id, 0 < id) (ID <$> Nodes r)
                | Err _ => []
                end) <$> profiles).

(** Of several nodes with the same key the first is taken, unless the key is
    taken already. *)
Fixpoint firstOf (taken : gset string) (ns : list NodeConfig) : list NodeConfig :=
  match ns with
  | [] => []
  | n :: ns =>
      if bool_decide (existingKey n ∈ taken) then firstOf taken ns
      else n :: firstOf ({[existingKey n]} ∪ taken) ns
  end.

(** The keys that are taken after [ns]. *)
Definition takenAfter (taken : gset string) (ns : list NodeConfig) : gset string :=
  list_to_set (existingKey <$> ns) ∪ taken.

Lemma takenAfter_nil taken : takenAfter taken [] = taken.
Proof. unfold takenAfter. cbn. set_solver. Qed.

Lemma takenAfter_cons taken n ns : takenAfter taken (n :: ns) = takenAfter ({[existingKey n]} ∪ taken) ns.
Proof. unfold takenAfter. cbn. set_solver. Qed.

Lemma takenAfter_known taken n ns : existingKey n ∈ taken → takenAfter taken (n :: ns) = takenAfter taken ns.
Proof. intros Hk. unfold takenAfter. cbn. set_solver. Qed.

Lemma firstOf_app taken ns ns' :
  firstOf taken (ns ++ ns') = firstOf taken ns ++ firstOf (takenAfter taken ns) ns'.
Proof.
  revert taken. induction ns as [|n ns IH]; intros taken; cbn [app firstOf].
  { by rewrite takenAfter_nil. }
  case_bool_decide as Hk; rewrite IH; [by rewrite takenAfter_known|by rewrite takenAfter_cons].
Qed.

Lemma firstOf_keys taken ns :
  NoDup (existingKey <$> firstOf taken ns) ∧ (∀ n, n ∈ firstOf taken ns → existingKey n ∉ taken)
  ∧ (∀ n, n ∈ ns → existingKey n ∈ takenAfter taken (firstOf taken ns)) ∧ firstOf taken ns `sublist_of` ns.
Proof.
  revert taken. induction ns as [|n ns IH]; intros taken; cbn [firstOf].
  { split_and!; [apply NoDup_nil_2|set_solver|set_solver|done]. }
  case_bool_decide as Hk.
  - destruct (IH taken) as (H1 & H2 & H3 & H4). split_and!; [done|done| |by constructor].
    intros m [->|Hm]%elem_of_cons; [unfold takenAfter; set_solver|by apply H3].
  - destruct (IH ({[existingKey n]} ∪ taken)) as (H1 & H2 & H3 & H4). split_and!.
    + cbn. apply NoDup_cons. split; [|done]. intros (m & Hm & Hin)%list_elem_of_fmap. apply H2 in Hin. set_solver.
    + intros m [->|Hm]%elem_of_cons; [done|]. apply H2 in Hm. set_solver.
    + unfold takenAfter in *. intros m [->|Hm]%elem_of_cons; cbn; [set_solver|]. apply H3 in Hm. set_solver.
    + by constructor.
Qed.

(** ** The loops *)

(** What a loop does to its variables, given the nodes [ns] it goes through. *)
Record took (continueOnError : bool) (ns : list NodeConfig) (s s' : Resolving) : Prop := {
  tk_nodes : nodes s' = nodes s ++ firstOf (seen s) ns;
  tk_seen : seen s' = takenAfter (seen s) ns;
  tk_strict : continueOnError = false → firstOf (seen s) ns = ns
}.

Lemma took_nil b s s' : nodes s' = nodes s → seen s' = seen s → took b [] s s'.
Proof. intros H1 H2. split; [by rewrite H1, app_nil_r|by rewrite H2, takenAfter_nil|done]. Qed.

Lemma took_trans b ns ns' s1 s2 s3 : took b ns s1 s2 → took b ns' s2 s3 → took b (ns ++ ns') s1 s3.
Proof.
  intros [H1 H2 H3] [H4 H5 H6]. rewrite H2 in *. split.
  - by rewrite H4, H1, firstOf_app, app_assoc.
  - rewrite H5. unfold takenAfter. rewrite fmap_app, list_to_set_app_L. set_solver.
  - intros Hb. rewrite firstOf_app, H3, H6 by done. done.
Qed.

Lemma existingKey_profileNode p id :
  existingKey (profileNode p id) = machineProfileNodeKey (mp_APIHost p) (mp_MachineID p) id.
Proof. done. Qed.

Lemma nodeStep_took b p n s s' :
  nodeStep b p n s = (s', None) → took b (profileNode p <$> filter (λ id, 0 < id) [ID n]) s s'.
Proof.
  unfold nodeStep. destruct (Z.leb_spec (ID n) 0) as [Hn|Hn].
  - intros [= <-]. rewrite filter_cons_False by lia. by apply took_nil.
  - rewrite filter_cons_True by lia. cbn [filter list_filter fmap list_fmap list_omap].
    rewrite <- existingKey_profileNode. case_bool_decide as Hk; [destruct b; [|done]|]; intros [= <-]; split; cbn.
    all: rewrite ?(bool_decide_true _ Hk), ?(bool_decide_false _ Hk), ?app_nil_r; try done.
    all: unfold takenAfter; cbn; set_solver.
Qed.

Lemma nodeSteps_took b p ns s s' :
  nodeSteps b p ns s = (s', None) → took b (profileNode p <$> filter (λ id, 0 < id) (ID <$> ns)) s s'.
Proof.
  revert s. induction ns as [|n ns IH]; intros s; cbn [nodeSteps]; [intros [= <-]; by apply took_nil|].
  destruct (nodeStep b p n s) as [s1 [e|]] eqn:Hs; [done|]. intros Hrest%IH. apply nodeStep_took in Hs.
  change (ID <$> n :: ns) with ([ID n] ++ (ID <$> ns)). rewrite filter_app, fmap_app. by eapply took_trans.
Qed.

Lemma merge_continue cfg p a :
  ContinueOnError (cf_Machine (mergeMachineProfileAgentConfig EqualFold cfg p a)) = ContinueOnError (cf_Machine cfg).
Proof. unfold mergeMachineProfileAgentConfig. by repeat case_match. Qed.

Lemma nodeSteps_cfg b p ns s s' err : nodeSteps b p ns s = (s', err) → rs_cfg s' = rs_cfg s.
Proof.
  revert s. induction ns as [|n ns IH]; intros s; cbn [nodeSteps]; [by intros [= <- _]|].
  destruct (nodeStep b p n s) as [s1 [e|]] eqn:Hs.
  - unfold nodeStep in Hs. repeat case_match; simplify_eq; intros [= <- _]; done.
  - intros ->%IH. unfold nodeStep in Hs. by repeat case_match; simplify_eq.
Qed.

Lemma profileStep_took i p s s' :
  profileStep EqualFold panel i p s = (s', None) →
  let b := ContinueOnError (cf_Machine (rs_cfg s)) in
  took b (candidates [p]) s s' ∧ ContinueOnError (cf_Machine (rs_cfg s')) = b
  ∧ (b = false → ∃ r, fetchMachineProfileNodes panel p = Ok r).
Proof.
  unfold profileStep, candidates. cbn. rewrite app_nil_r. destruct (fetchMachineProfileNodes panel p) as [r|e].
  - intros Hs. split; [|split; [|by eexists]].
    + apply nodeSteps_took in Hs. destruct Hs as [H1 H2 H3]. by split.
    + apply nodeSteps_cfg in Hs. rewrite Hs. cbn. by rewrite merge_continue.
  - destruct (ContinueOnError _) eqn:Hb; [|done]. intros [= <-]. split; [by apply took_nil|]. by split.
Qed.

Lemma candidates_cons p ps : candidates (p :: ps) = candidates [p] ++ candidates ps.
Proof. unfold candidates. cbn. by rewrite app_nil_r. Qed.

Lemma profileSteps_took ps i s s' :
  profileSteps EqualFold panel i ps s = (s', None) →
  let b := ContinueOnError (cf_Machine (rs_cfg s)) in
  took b (candidates ps) s s' ∧ (b = false → Forall (λ p, ∃ r, fetchMachineProfileNodes panel p = Ok r) ps).
Proof.
  revert i s. induction ps as [|p ps IH]; intros i s; cbn [profileSteps].
  { intros [= <-]. split; [by apply took_nil|]. intros _. constructor. }
  destruct (profileStep EqualFold panel i p s) as [s1 [e|]] eqn:Hs; [done|]. intros Hrest%IH.
  apply profileStep_took in Hs as (H1 & H2 & H3). destruct Hrest as [H4 H5]. rewrite H2 in *.
  split; [rewrite candidates_cons; by eapply took_trans|]. intros Hb. constructor; auto.
Qed.

(** A resolution without error keeps the configured nodes and adds what the
    reference definition picks from the answers of the panels: no two of the
    nodes that are added have the same panel, machine and id, none of them was
    configured before, and none is left out for another reason. Without
    [ContinueOnError] every panel has answered and every node is added. *)
Theorem resolve_nodes cfg cfg' :
  mc_Enabled (cf_Machine cfg) = true → Profiles (cf_Machine cfg) ≠ [] →
  ResolveMachineNodeConfigs EqualFold panel cfg = (cfg', None) →
  let all := candidates (Profiles (cf_Machine cfg)) in
  let added := firstOf (existingKeys (cf_Nodes cfg)) all in
  cf_Nodes cfg' = cf_Nodes cfg ++ added
  ∧ NoDup (existingKey <$> added)
  ∧ (∀ n, n ∈ added → n ∈ all ∧ existingKey n ∉ existingKeys (cf_Nodes cfg))
  ∧ (∀ n, n ∈ all → existingKey n ∈ existingKeys (cf_Nodes cfg) ∨ existingKey n ∈ existingKey <$> added)
  ∧ (ContinueOnError (cf_Machine cfg) = false →
      added = all ∧ Forall (λ p, ∃ r, fetchMachineProfileNodes panel p = Ok r) (Profiles (cf_Machine cfg))).
Proof.
  intros Hen Hps. unfold ResolveMachineNodeConfigs. rewrite Hen, bool_decide_false by done. cbn [negb orb].
  destruct (profileSteps EqualFold panel 0 _ _) as [s [e|]] eqn:Hs; [done|]. intros Hrun.
  apply profileSteps_took in Hs as [[H1 H2 H3] H4]. cbn in *.
  destruct (firstOf_keys (existingKeys (cf_Nodes cfg)) (candidates (Profiles (cf_Machine cfg)))) as (K1 & K2 & K3 & K4).
  split_and!; [|done| | |by intros Hb; split; [apply H3|apply H4]].
  - rewrite <- H1. case_bool_decide as Hn; [|by injection Hrun as <-].
    case_match; [injection Hrun as <-; by rewrite Hn|]. by case_match.
  - intros n Hn. split; [by eapply elem_of_sublist|by apply K2].
  - intros n Hn%K3. unfold takenAfter in Hn. rewrite elem_of_union, elem_of_list_to_set in Hn. tauto.
Qed.

End profiles.

(** The nodes of one profile have different directories. *)
Theorem profile_dirs_distinct p id id' :
  0 <= id → i64 id → 0 <= id' → i64 id' →
  machineProfileNodeConfigDir p id = machineProfileNodeConfigDir p id' ↔ id = id'.
Proof.
  intros H1 H2 H3 H4. split; [|by intros ->]. unfold machineProfileNodeConfigDir.
  set (root := if bool_decide _ then _ else _). assert (Hroot : root ≠ "").
  { unfold root. case_bool_decide; [|done]. unfold Join2. rewrite filter_cons_True by done.
    apply Clean_nonempty. }
  pose proof (ConfProps.plain_node id H1) as P1. pose proof (ConfProps.plain_node id' H3) as P2.
  assert (Hn : ∀ j, plain ("node-" +:+ Itoa j) → NormalizeConfigDir (Join2 root ("node-" +:+ Itoa j)) = Join2 root ("node-" +:+ Itoa j)).
  { intros j Hj. pose proof (Join2_clean root _ Hroot Hj) as Hc. unfold NormalizeConfigDir. case_bool_decide as He; [|done].
    rewrite He in Hc. by vm_compute in Hc. }
  rewrite !Hn by done. intros E%Join2_plain_inj; [|done..]. apply app_string_inj_l in E. by apply Itoa_inj.
Qed.

(** ** Resolving and reconciling *)

Section machine.
Context `{Machine.ControllerOps} {RO : RangeOrder string}.

(** Without [ContinueOnError] two desired nodes with the same key end the loop. *)
Lemma refreshAll_strict factory current desired s s' :
  Machine.refreshAll factory (Machine.mkMachineOptions false) current desired s = Ok s' →
  NoDup (Machine.machineNodeKey <$> desired) ∧ (∀ k, k ∈ Machine.machineNodeKey <$> desired → k ∉ Machine.desiredKeys s).
Proof.
  revert s. induction desired as [|cfg desired IH]; intros s; cbn [Machine.refreshAll].
  { intros _. split; [apply NoDup_nil_2|]. intros k Hk. by apply elem_of_nil in Hk. }
  destruct (Machine.refreshStep factory _ current cfg s) as [s1|] eqn:Hs; [|done]. intros [Hn Hd]%IH.
  assert (Hkey : (Machine.machineNodeKey cfg ∉ Machine.desiredKeys s)
                 ∧ Machine.desiredKeys s1 = {[Machine.machineNodeKey cfg]} ∪ Machine.desiredKeys s).
  { revert Hs. unfold Machine.refreshStep, Machine.refreshFail, Machine.handleMachineFailure. cbn.
    case_bool_decide; [done|]. case_bool_decide; [done|]. intros Hs. split; [done|].
    repeat case_match; by simplify_eq. }
  destruct Hkey as [Hkey Hs1]. split.
  - cbn. apply NoDup_cons. split; [|done]. intros Hin%Hd. set_solver.
  - intros k [->|Hk]%elem_of_cons; [done|]. apply Hd in Hk. set_solver.
Qed.

(** Two machines of the same panel that share a node: the resolution takes both
    nodes, since their keys differ, but no reconciliation without
    [ContinueOnError] accepts a list of nodes that has both. *)
Theorem shared_node_refused p p' id l1 l2 l3 realtime (factory : Machine.ControlPlaneFactory) n w :
  TrimRight is_slash (TrimSpace (mp_APIHost p)) = TrimRight is_slash (TrimSpace (mp_APIHost p')) →
  TrimRight is_slash (TrimSpace (mp_APIHost p)) ≠ "" → 0 < id →
  i64 (mp_MachineID p) → i64 (mp_MachineID p') → mp_MachineID p ≠ mp_MachineID p' →
  existingKey (profileNode p id) ≠ existingKey (profileNode p' id)
  ∧ ∃ e, Machine.reconcileWithFactory (l1 ++ profileNode p id :: l2 ++ profileNode p' id :: l3) realtime factory
           (Machine.mkMachineOptions false) n w = (n, w, Err e).
Proof.
  intros Hhost Hne Hid H1 H2 Hm. split.
  - unfold existingKey, profileNode, machineProfileNodeKey. cbn [APIHost NodeID MachineID].
    rewrite <- Hhost, !(bool_decide_false _ Hne), (proj2 (Z.leb_gt id 0)) by done. cbn.
    intros E%app_string_inj_l. change (String "#"%char (Itoa (mp_MachineID p) +:+ String "#"%char (Itoa id))
      = String "#"%char (Itoa (mp_MachineID p') +:+ String "#"%char (Itoa id))) in E.
    injection E as E. apply Hm, Itoa_inj; [done..|].
    apply bytes_inj. apply (f_equal bytes) in E. rewrite !bytes_app in E. by apply app_inv_tail in E.
  - unfold Machine.reconcileWithFactory. destruct (Machine.currentMachineSlots n) as [current|e]; [|by exists e].
    destruct (Machine.refreshAll _ _ _ _ _) as [s|e] eqn:Hs; [|by exists e]. exfalso.
    apply refreshAll_strict in Hs as [Hn _]. rewrite fmap_app, fmap_cons, fmap_app, fmap_cons in Hn.
    apply NoDup_app in Hn as (_ & _ & [Hn _]%NoDup_cons). apply Hn. apply elem_of_app. right.
    apply elem_of_cons. left. unfold Machine.machineNodeKey. cbn [profileNode APIHost NodeID]. by rewrite Hhost.
Qed.

End machine.

(** ** Examples at which the hypotheses hold *)

Module Examples.
#[local] Existing Instance MachineProps.Examples.exampleOps.
#[local] Existing Instance MachineProps.Examples.exampleOrder.

#[local] Instance exampleURL : Realtime.NetURL := {|
  Realtime.ParsedURL := string;
  Realtime.Parse s := Some s;
  Realtime.Scheme _ := "https";
  Realtime.Host s := s;
  Realtime.StringWith host scheme path := scheme +:+ "://" +:+ host +:+ path
|}.

Definition exampleFold (s t : string) : bool := String.eqb (Json.foldName s) (Json.foldName t).

(** A profile of the panel for a machine; machine 3 does not answer, the others
    have the nodes 1 and 2, with a row that is no node. *)
Definition exampleProfile (machine : Z) : MachineProfileConfig :=
  mkMachineProfileConfig "" "https://p" "k" machine 0 "" zeroRealtime.

Definition examplePanel : MachinePanel := λ url machine token timeout,
  if machine =? 3 then Err (errorf "unreachable")
  else Ok (200, "", Ok (mkResponse (mkProfileResult ((λ id, mkPanelNode id "" "vless" "" Panel.AnyNil) <$> [1; 0; 2]) None None) None)).

Definition exampleConf (continueOnError : bool) (machines : list Z) : Conf :=
  let c := Conf.New in
  mkConf (cf_Log c) [mkNodeConfig "https://p/" 2 "k" 4 0 "/etc/v2node"]
    (mkMachineConfig true continueOnError (exampleProfile <$> machines)) (cf_Agent c) (cf_DNS c) 0 0
    (cf_Runtime c) (cf_Realtime c) (cf_Edge c).

(** Node 2 of machine 4 is configured already. *)
Example exampleResolve :
  let '(cfg, err) := ResolveMachineNodeConfigs exampleFold examplePanel (exampleConf true [3; 4; 5; 5]) in
  err = None ∧ (λ n, (MachineID n, NodeID n, ConfigDir n)) <$> cf_Nodes cfg =
    [(4, 2, "/etc/v2node"); (4, 1, "/etc/v2node/machine-4/node-1");
     (5, 1, "/etc/v2node/machine-5/node-1"); (5, 2, "/etc/v2node/machine-5/node-2")].
Proof. vm_compute. split; reflexivity. Qed.

Lemma resolve_nodes_witness :
  match ResolveMachineNodeConfigs exampleFold examplePanel (exampleConf true [3; 4; 5; 5]) with
  | (cfg', None) =>
      cf_Nodes cfg' = cf_Nodes (exampleConf true [3; 4; 5; 5])
        ++ firstOf (existingKeys (cf_Nodes (exampleConf true [3; 4; 5; 5])))
             (candidates examplePanel (exampleProfile <$> [3; 4; 5; 5]))
  | _ => False
  end.
Proof.
  assert (Hrun : match ResolveMachineNodeConfigs exampleFold examplePanel (exampleConf true [3; 4; 5; 5]) with
                 | (_, None) => true | _ => false end = true) by (vm_compute; reflexivity).
  destruct (ResolveMachineNodeConfigs exampleFold examplePanel (exampleConf true [3; 4; 5; 5])) as [cfg' [e|]] eqn:E;
    [discriminate Hrun|].
  exact (proj1 (resolve_nodes exampleFold examplePanel (exampleConf true [3; 4; 5; 5]) cfg' eq_refl ltac:(discriminate) E)).
Defined.

Lemma profile_dirs_distinct_witness :
  machineProfileNodeConfigDir (exampleProfile 4) 1 = machineProfileNodeConfigDir (exampleProfile 4) 2 ↔ 1 = 2.
Proof.
  apply (profile_dirs_distinct (exampleProfile 4) 1 2); [lia| |lia|]; apply (bool_decide_unpack _); vm_compute; reflexivity.
Defined.

Lemma shared_node_refused_witness :
  existingKey (profileNode (exampleProfile 4) 1) ≠ existingKey (profileNode (exampleProfile 5) 1)
  ∧ ∃ e, Machine.reconcileWithFactory [profileNode (exampleProfile 4) 1; profileNode (exampleProfile 5) 1] zeroRealtime
           MachineProps.Examples.exampleFactory (Machine.mkMachineOptions false)
           MachineProps.Examples.exampleMachine MachineProps.Examples.exampleStart
         = (MachineProps.Examples.exampleMachine, MachineProps.Examples.exampleStart, Err e).
Proof.
  apply (shared_node_refused (exampleProfile 4) (exampleProfile 5) 1 [] [] [] zeroRealtime
           MachineProps.Examples.exampleFactory MachineProps.Examples.exampleMachine MachineProps.Examples.exampleStart);
    [reflexivity|discriminate|lia|apply (bool_decide_unpack _); vm_compute; reflexivity..|discriminate].
Defined.

End Examples.
End MachineProfilesProps.
