(* ===== verification/Server.v ===== *)
(** * The server process (cmd/server.go)

    [reload] puts the parts together: it loads the configuration, resolves the
    machine profiles, hands the configuration to the agent services, and then
    either brings the nodes in line in place or closes and builds everything
    anew. [serverLoop] is the loop around it. Starting and closing the core acts
    on the world of the controllers and is an interface; what the agent services
    do with their configuration is in Services.v, logging and pprof are left
    out. *)

From Stdlib Require Import Ascii.
From S2P Require Import Prelude GoStrings Panel Conf Limiter Core EdgeSidecar UserSync Realtime Certs Machine Lifecycle MachineProfiles.

Module Server.
Import Realtime Machine.

(** The core of a world. A panic of [getCore] is [None]. *)
Class CoreControl `{ControllerOps} := {
  closeCore : World → World * option GoError;
  (** [core.New] and [Start] *)
  startCore : Conf.Conf → list Panel.NodeInfo → World → option (World * option GoError);
  (** the bridges of the edge control *)
  edgeControl : EdgeBridges
}.

Section server.
Context `{CoreControl} `{Realtime.NetURL} {RO : RangeOrder string}.
Context (EqualFold : string → string → bool).

Record Process := mkProcess {
  nodes : Node;
  world : World;
  agent : option Conf.Conf;        (* what the agent services were given *)
  health : option Conf.Conf;       (* what the health state was given *)
  ready : bool;
  reloadCh : Chan unit
}.

Implicit Types p : Process.

(** What the process finds outside during a reload. *)
Record Outside := mkOutside {
  file : Conf.ConfigFile;
  panels : MachineProfiles.MachinePanel;
  factory : ControlPlaneFactory
}.

(** The options a configuration gives to machine mode. *)
Definition machineOptions (cfg : Conf.Conf) : MachineOptions :=
  mkMachineOptions (Conf.ContinueOnError (Conf.cf_Machine cfg)).

(** [newNodeForConfig] *)
Definition newNodeForConfig (o : Outside) (cfg : Conf.Conf) (w : World) : result (Node * World) :=
  let opts := if Conf.mc_Enabled (Conf.cf_Machine cfg) then machineOptions cfg else mkMachineOptions false in
  match newWithFactory (Conf.cf_Nodes cfg) (Conf.cf_Realtime cfg) (factory o) opts w with
  | Err e => Err e
  | Ok (n, w) =>
      let n := SetAutoHY2PortForward (Conf.AutoHY2PortForward (Conf.cf_Runtime cfg)) n in
      Ok (SetEdgeBridges edgeControl n w)
  end.

(** The configuration of a reload: loaded, with the nodes of the profiles. *)
Definition nextConf (o : Outside) : Conf.Conf * option GoError :=
  match Conf.LoadFromPath (file o) Conf.New with
  | (cfg, Some e) => (cfg, Some e)
  | (cfg, None) => MachineProfiles.ResolveMachineNodeConfigs EqualFold (panels o) cfg
  end.

(** [reconcileMachineForReload] *)
Definition reconcileMachine (o : Outside) (cfg : Conf.Conf) (n : Node) (w : World)
    : Node * World * result ReconcileResult :=
  reconcileWithFactory (Conf.cf_Nodes cfg) (Conf.cf_Realtime cfg) (factory o) (machineOptions cfg)
    (SetAutoHY2PortForward (Conf.AutoHY2PortForward (Conf.cf_Runtime cfg)) n) w.

(** Closing everything and building it anew. *)
Definition rebuild (o : Outside) (cfg : Conf.Conf) p : option (Process * option GoError) :=
  let failed n w e := Some (mkProcess n w (Some cfg) (health p) (ready p) (reloadCh p), Some e) in
  match Close (nodes p) (world p) with
  | (n, w, Some e) => failed n w e
  | (n, w, None) =>
      match closeCore w with
      | (w, Some e) => failed n w e
      | (w, None) =>
          match newNodeForConfig o cfg w with
          | Err e => failed n w e
          | Ok (newNodes, w) =>
              match startCore cfg (NodeInfos newNodes) w with
              | None => None
              | Some (w, Some e) => failed n w e
              | Some (w, None) =>
                  match Start (Conf.cf_Nodes cfg) newNodes w with
                  | (_, w, Some e) => failed n w e
                  | (newNodes, w, None) =>
                      Some (mkProcess newNodes w (Some cfg) (Some cfg) (ready p) (reloadCh p), None)
                  end
              end
          end
      end
  end.

(** [reload]; [None] is a panic. *)
Definition reload (o : Outside) p : option (Process * option GoError) :=
  match nextConf o with
  | (_, Some e) => Some (p, Some e)
  | (cfg, None) =>
      if Conf.mc_Enabled (Conf.cf_Machine cfg) then
        match reconcileMachine o cfg (nodes p) (world p) with
        | (n, w, Err e) => Some (mkProcess n w (Some cfg) (health p) (ready p) (reloadCh p), Some e)
        | (n, w, Ok r) =>
            if FullReloadRequired r
            then rebuild o cfg (mkProcess n w (Some cfg) (health p) (ready p) (reloadCh p))
            else Some (mkProcess n w (Some cfg) (Some cfg) (ready p) (reloadCh p), None)
        end
      else rebuild o cfg p
  end.

Definition withReloadCh (ch : Chan unit) p : Process :=
  mkProcess (nodes p) (world p) (agent p) (health p) (ready p) ch.

Definition withReady (b : bool) p : Process :=
  mkProcess (nodes p) (world p) (agent p) (health p) b (reloadCh p).

Definition queueReload p : Process := withReloadCh (trySend () (reloadCh p)) p.

(** [queueMachineReconcileIfEnabled] *)
Definition queueMachineReconcileIfEnabled (f : Conf.ConfigFile) p : Process :=
  match Conf.LoadFromPath f Conf.New with
  | (_, Some _) => p
  | (cfg, None) => if Conf.mc_Enabled (Conf.cf_Machine cfg) then queueReload p else p
  end.

(** ** The loop *)

Inductive ServerState := Running p | Exited (w : World) | Crashed.

(** A signal, the two tickers, a message on [reloadCh], and what sends on it: the
    callback of the watched file, the panel through the workers of Realtime.v
    and the machine status. *)
Inductive serverEvent :=
| OsSignal
| FailureRetryTick
| ReconcileTick (f : Conf.ConfigFile)
| ReloadMessage (o : Outside)
| FileChanged
| ReloadRequested.

(** The deferred calls of [serverHandle]. *)
Definition shutdown p : World := (closeCore (Close (nodes p) (world p)).1.2).1.

Definition serverStep (e : serverEvent) (s : ServerState) : ServerState :=
  match s with
  | Running p =>
      match e with
      | OsSignal => Exited (shutdown p)
      | FailureRetryTick => Running (if bool_decide (failures (nodes p) = []) then p else queueReload p)
      | ReconcileTick f => Running (queueMachineReconcileIfEnabled f p)
      | FileChanged | ReloadRequested => Running (queueReload p)
      | ReloadMessage o =>
          match dequeue (reloadCh p) with
          | None => s
          | Some (_, ch) =>
              match reload o (withReady false (withReloadCh ch p)) with
              | Some (p, None) => Running (withReady true p)
              | _ => Crashed
              end
          end
      end
  | _ => s
  end.

Definition serverLoop (es : list serverEvent) (s : ServerState) : ServerState :=
  foldl (λ s e, serverStep e s) s es.

End server.

(** ** The core of Lifecycle.v

    Starting an instance of Xray and closing it are arguments: the instance with
    its features, an error, or the panic of [getCore]. *)
Section system.
Context `{XCore : Core.XrayCore} `{RL : Limiter.RateLimit} `{Sha : EdgeSidecar.Sha1}.
Context `{Net : Realtime.NetURL} `{Cert : Certs.CertEnv}.
Context {RO : RangeOrder string} {ROn : RangeOrder nat}.
Context (stateDir : string) (random : nat → nat → result (list Ascii.ascii)) (clock : nat → Z) (clientEnds : nat → bool).
Context (serverClose : option GoError) (bridges : Lifecycle.Bridges).
Context (instance : Conf.Conf → list Panel.NodeInfo →
                    option (result (Core.Instance_ * Core.IHM * Core.Dispatcher))).

Definition systemClose (s : Lifecycle.System) : Lifecycle.System * option GoError :=
  (Lifecycle.withCore (Core.Close (Lifecycle.core s)) s,
   match Core.Server (Lifecycle.core s) with Some _ => serverClose | None => None end).

(** A core that does not start is not kept. *)
Definition systemStart (cfg : Conf.Conf) (infos : list Panel.NodeInfo) (s : Lifecycle.System)
    : option (Lifecycle.System * option GoError) :=
  match instance cfg infos with
  | None => None
  | Some (Err e) => Some (s, Some e)
  | Some (Ok (server, m, d)) => Some (Lifecycle.withCore (Core.Start server m d Core.New) s, None)
  end.

#[global] Instance systemCore : @CoreControl (Lifecycle.controllerOps stateDir random clock clientEnds) :=
  @Build_CoreControl (Lifecycle.controllerOps stateDir random clock clientEnds) systemClose systemStart bridges.

End system.
End Server.
