(* ===== verification/ServerProps.v ===== *)
(** * Properties of the server process

    After a reload, in place or from scratch, the controllers that run are the
    ones the process lists ([reload_running]). A configuration file that cannot
    be loaded ends the process when the file is watched, and is harmless when
    the periodic reconciliation meets it ([broken_file_crashes]). *)

From S2P Require Import Prelude GoStrings Panel Conf Limiter Core EdgeSidecar UserSync Realtime Certs Lifecycle LifecycleProps Machine MachineProps MachineProfiles MachineProfilesProps Server.

Module ServerProps.
Import Realtime Machine MachineProps Server.

(** The core has no controllers. *)
Class CoreLaws `{ControllerLaws} `{!CoreControl} := {
  closeCore_law w : known (closeCore w).1 = known w ∧ running (closeCore w).1 = running w;
  startCore_law cfg infos w w' err : startCore cfg infos w = Some (w', err) →
    known w' = known w ∧ running w' = running w;
  setBridges_law c b w : known (setBridges c b w) = known w ∧ running (setBridges c b w) = running w
}.

Section server.
Context `{CoreLaws} `{Realtime.NetURL} {RO : RangeOrder string}.
Context (EqualFold : string → string → bool).
Implicit Types p : Process.

Lemma setBridges_all b cs w :
  known (foldl (λ w c, setBridges c b w) w cs) = known w ∧ running (foldl (λ w c, setBridges c b w) w cs) = running w.
Proof.
  revert w. induction cs as [|c cs IH]; intros w; cbn; [done|]. destruct (setBridges_law c b w) as [Ha Hb].
  destruct (IH (setBridges c b w)) as [Hc Hd]. split; congruence.
Qed.

(** The nodes of a configuration, created but not started. *)
Lemma newNodeForConfig_prepared o cfg w n w1 :
  running w ⊆ known w → newNodeForConfig o cfg w = Ok (n, w1) →
  ∃ l, prepared n l w1 ∧ running w1 = running w ∧ running w1 ⊆ known w1.
Proof.
  intros Hsub. unfold newNodeForConfig. destruct (newWithFactory _ _ _ _ w) as [[n0 w0]|] eqn:E; [|done].
  destruct (newWithFactory_prepared _ _ _ _ _ _ _ Hsub E) as (l & ((L1 & L2 & L3) & Hnd & Hin & Hdis) & Hr & Hs & _).
  unfold SetEdgeBridges. intros [= <- <-]. cbn [controllers SetAutoHY2PortForward withHY2].
  destruct (setBridges_all edgeControl (controllers n0) w0) as [Hk Hr2]. exists l. rewrite Hk, Hr2.
  split_and!; [|done|done]. split_and!; [by split_and!|done|by rewrite Hk|by rewrite Hr2].
Qed.

(** Building everything anew. *)
Lemma rebuild_running o cfg p p' :
  running (world p) ⊆ known (world p) → rebuild o cfg p = Some (p', None) →
  health p' = Some cfg
  ∧ (∃ l, lists (nodes p') l ∧ NoDup (sl_Controller <$> l))
  ∧ ∀ c, c ∈ running (world p') ↔ c ∈ controllers (nodes p') ∨ (c ∈ running (world p) ∧ c ∉ controllers (nodes p)).
Proof.
  intros Hsub. unfold rebuild. destruct (Close (nodes p) (world p)) as [[n1 w1] [e|]] eqn:E1; [done|].
  apply Close_spec in E1 as (Hk1 & Hr1 & _). destruct (closeCore w1) as [w2 [e|]] eqn:E2; [done|].
  destruct (closeCore_law w1) as [Hk2 Hr2]. rewrite E2 in Hk2, Hr2. cbn in Hk2, Hr2.
  destruct (newNodeForConfig o cfg w2) as [[n3 w3]|e] eqn:E3; [|done].
  apply newNodeForConfig_prepared in E3 as (l & Hp & Hr3 & Hs3); [|rewrite Hk2, Hr2, Hk1, Hr1; set_solver].
  destruct (startCore cfg (NodeInfos n3) w3) as [[w4 [e|]]|] eqn:E4; [done| |done].
  apply startCore_law in E4 as [Hk4 Hr4]. destruct (Start _ n3 w4) as [[n5 w5] [e|]] eqn:E5; [done|].
  intros [= <-]. cbn. split; [done|].
  assert (Hp4 : prepared n3 l w4).
  { destruct Hp as (Q1 & Q2 & Q3 & Q4). split_and!; [done|done|by rewrite Hk4|by rewrite Hr4]. }
  destruct (Start_prepared _ _ _ _ _ _ _ Hp4 ltac:(by rewrite Hr4, Hk4) E5) as [_ Hok].
  destruct (Hok eq_refl) as (l' & H1' & H2' & _ & Hrun). split; [by exists l'|].
  intros c. rewrite Hrun, Hr4, Hr3, Hr2, Hr1, elem_of_difference, elem_of_list_to_set. tauto.
Qed.

(** What runs after a reload without an error, in place or not: the controllers
    that are listed, and none of the listed ones of before that is not listed
    any more. The state of the process then belongs to the configuration of the
    reload. *)
Theorem reload_running o p p' l :
  managed (nodes p) (world p) l → reload EqualFold o p = Some (p', None) →
  (∃ cfg, nextConf EqualFold o = (cfg, None) ∧ health p' = Some cfg)
  ∧ (∃ l', lists (nodes p') l' ∧ NoDup (sl_Controller <$> l'))
  ∧ ∀ c, c ∈ running (world p') ↔ c ∈ controllers (nodes p') ∨ (c ∈ running (world p) ∧ c ∉ controllers (nodes p)).
Proof.
  intros Hm. unfold reload. destruct (nextConf EqualFold o) as [cfg [e|]]; [done|].
  pose proof Hm as [_ (_ & _ & _ & _ & Hsub)]. destruct (Conf.mc_Enabled (Conf.cf_Machine cfg)).
  2: { intros Hrun. apply rebuild_running in Hrun as (H1' & H2' & H3'); [|done].
       split; [by exists cfg|]. by split. }
  unfold reconcileMachine. destruct (reconcileWithFactory _ _ _ _ _ _) as [[n w] [r|e]] eqn:E; [|done].
  assert (Hm' : managed (SetAutoHY2PortForward (Conf.AutoHY2PortForward (Conf.cf_Runtime cfg)) (nodes p)) (world p) l) by exact Hm.
  destruct (reconcile_ran _ _ _ _ _ _ _ Hm' _ _ _ E) as (l' & [Hl' (Hn' & Hc' & _ & _ & Hsub')] & Hrun).
  destruct (FullReloadRequired r) eqn:Hfull.
  - apply reconcile_finished in E as [(_ & -> & ->)|[(_ & _ & Hf & _)|[Hf _]]]; [|congruence..]. intros Hre. apply rebuild_running in Hre as (H1' & H2' & H3'); [|done]. cbn [nodes world] in *.
    split; [by exists cfg|]. split; [done|]. exact H3'.
  - intros [= <-]. cbn. split; [by exists cfg|]. split; [by exists l'|]. intros c. rewrite Hrun. done.
Qed.

(** A file that cannot be loaded, for example while it is being edited: the
    periodic reconciliation ignores it, but the change of the file, which the
    watcher reports whatever loading answers, ends the process in a panic. *)
Theorem broken_file_crashes o p e :
  (Conf.LoadFromPath (file o) Conf.New).2 = Some e → (0 < cap (reloadCh p))%nat → queued (reloadCh p) = [] →
  serverStep EqualFold (ReconcileTick (file o)) (Running p) = Running p
  ∧ ∀ es, serverLoop EqualFold (FileChanged :: ReloadMessage o :: es) (Running p) = Crashed.
Proof.
  intros He Hcap Hq. destruct (Conf.LoadFromPath (file o) Conf.New) as [cfg err] eqn:El. cbn in He. subst err.
  split; [cbn; unfold queueMachineReconcileIfEnabled; by rewrite El|]. intros es.
  assert (Hstep : serverStep EqualFold (ReloadMessage o) (serverStep EqualFold FileChanged (Running p)) = Crashed).
  { unfold serverStep, queueReload, withReloadCh. cbn [reloadCh]. unfold trySend. rewrite Hq. cbn [length].
    rewrite (proj2 (Nat.ltb_lt _ _) Hcap). cbn [dequeue queued app]. unfold reload, nextConf. by rewrite El. }
  unfold serverLoop. cbn [foldl]. rewrite Hstep. induction es as [|e' es IH]; [done|]. exact IH.
Qed.

End server.

(** ** The core of Lifecycle.v keeps these laws *)

Section system.
Context `{XCore : Core.XrayCore} `{RL : Limiter.RateLimit} `{Sha : EdgeSidecar.Sha1}.
Context `{Net : Realtime.NetURL} `{Cert : Certs.CertEnv}.
Context {RO : RangeOrder string} {ROn : RangeOrder nat}.
Context (stateDir : string) (random : nat → nat → result (list Ascii.ascii)) (clock : nat → Z) (clientEnds : nat → bool).
Context (serverClose : option GoError) (bridges : Lifecycle.Bridges).
Context (instance : Conf.Conf → list Panel.NodeInfo →
                    option (result (Core.Instance_ * Core.IHM * Core.Dispatcher))).

#[global] Instance systemCoreLaws :
  @CoreLaws (Lifecycle.controllerOps stateDir random clock clientEnds) (LifecycleProps.controllerLaws stateDir random clock clientEnds)
    (systemCore stateDir random clock clientEnds serverClose bridges instance).
Proof.
  split.
  - done.
  - intros cfg infos w w' err. cbn. unfold systemStart.
    destruct (instance cfg infos) as [[[[server m] d]|e]|]; [| |done]; by intros [= <- _].
  - intros c b w. cbn. unfold LifecycleProps.knownControllers, LifecycleProps.runningControllers. cbn.
    rewrite length_alter. split; [done|]. do 2 f_equal. apply list_filter_iff. intros i.
    rewrite (LifecycleProps.sameTasks_runs c w); [done|]. by apply LifecycleProps.alter_sameTasks.
Qed.

End system.

(** ** Examples at which the hypotheses hold *)

Module Examples.
#[local] Existing Instance MachineProps.Examples.exampleOps.
#[local] Existing Instance MachineProps.Examples.exampleLaws.
#[local] Existing Instance MachineProps.Examples.exampleOrder.
#[local] Existing Instance MachineProfilesProps.Examples.exampleURL.

#[local] Instance exampleCore : CoreControl :=
  {| closeCore w := (w, None); startCore _ _ w := Some (w, None); edgeControl := tt |}.

#[local] Instance exampleCoreLaws : CoreLaws.
Proof. split; [done| |done]. intros cfg infos w w' err. cbn. by intros [= <- _]. Defined.

(** A machine with the nodes [ids]. *)
Definition exampleFile (ids : list Z) : Conf.ConfigFile :=
  Conf.mkConfigFile None None (λ _, false) (Err (errorf "v2"))
    (λ c, (Conf.mkConf (Conf.cf_Log c) (MachineProps.Examples.exampleNodeConfig <$> ids) (Conf.mkMachineConfig true true [])
             (Conf.cf_Agent c) (Conf.cf_DNS c) 0 0 (Conf.cf_Runtime c) (Conf.cf_Realtime c) (Conf.cf_Edge c), None)).

Definition exampleOutside (f : Conf.ConfigFile) : Outside :=
  mkOutside f MachineProfilesProps.Examples.examplePanel MachineProps.Examples.exampleFactory.

Definition exampleProcess : Process :=
  mkProcess MachineProps.Examples.exampleMachine MachineProps.Examples.exampleStart None None true (mkChan 1 []).

(** Node 1 is gone, node 2 stays, node 3 is new. *)
Lemma reload_running_witness :
  match reload MachineProfilesProps.Examples.exampleFold (exampleOutside (exampleFile [2; 3])) exampleProcess with
  | Some (p', None) =>
      ∀ c, c ∈ running (world p') ↔ c ∈ controllers (nodes p')
           ∨ (c ∈ running (world exampleProcess) ∧ c ∉ controllers (nodes exampleProcess))
  | _ => False
  end.
Proof.
  assert (Hrun : match reload MachineProfilesProps.Examples.exampleFold (exampleOutside (exampleFile [2; 3])) exampleProcess with
                 | Some (_, None) => true | _ => false end = true) by (vm_compute; reflexivity).
  destruct (reload MachineProfilesProps.Examples.exampleFold (exampleOutside (exampleFile [2; 3])) exampleProcess)
    as [[p' [e|]]|] eqn:E; [discriminate Hrun| |discriminate Hrun].
  exact (proj2 (proj2 (reload_running _ _ exampleProcess p' _ MachineProps.Examples.exampleManaged E))).
Defined.

Lemma broken_file_crashes_witness :
  let f := Conf.mkConfigFile None (Some (errorf "unexpected end of JSON input")) (λ _, false) (Err (errorf "v2")) (λ c, (c, None)) in
  serverLoop MachineProfilesProps.Examples.exampleFold [FileChanged; ReloadMessage (exampleOutside f)] (Running exampleProcess)
  = Crashed.
Proof.
  cbv zeta.
  refine (proj2 (broken_file_crashes MachineProfilesProps.Examples.exampleFold
    (exampleOutside (Conf.mkConfigFile None (Some (errorf "unexpected end of JSON input")) (λ _, false) (Err (errorf "v2"))
       (λ c, (c, None)))) exampleProcess _ eq_refl (Nat.lt_0_succ 0) eq_refl) []).
Defined.

End Examples.
End ServerProps.
