(* ===== verification/PortForward.v ===== *)
(** * Port forwarding of Hysteria nodes (node/port_forward.go)

    A Hysteria node may listen on many ports: iptables redirects them to the one
    port the core listens on. [buildHysteriaPortForwardRules] computes the rules
    of all nodes and refuses nodes that contradict each other; Iptables.v puts
    them in place. Ports are numbers written in decimal. *)

From Stdlib Require Import Ascii.
From S2P Require Import Prelude GoStrings Panel.

Module PortForward.
Import GoStrings.

Definition hysteriaPortForwardChain : string := "V2NODE-HY2".
Definition hysteriaPortForwardComment : string := "V2NODE-HY2".

(** ** Data *)

Record portForwardMatcher := mkMatcher { args : list string; singlePort : Z }.
Record portForwardRule := mkRule { matcher : portForwardMatcher; targetPort : Z }.
Record portForwardRange := mkRange { start : Z; end_ : Z }.

Record allocatedPortForwardRange := mkAllocated {
  al_nodeID : Z;
  al_targetPort : Z;
  rng : portForwardRange
}.

Definition overlaps (r other : portForwardRange) : bool :=
  (start r <=? end_ other) && (start other <=? end_ r).

Definition contains (r : portForwardRange) (port : Z) : bool := (start r <=? port) && (port <=? end_ r).

Definition isHysteriaNode (nodeType : string) : bool :=
  bool_decide (ToLower (TrimSpace nodeType) ∈ ["hysteria"; "hysteria2"]).

Section parse.
(** [strconv.Quote], for the messages. *)
Context (quote : string → string).

(** ** Parsing a list of ports *)

Definition parsePortNumber (token : string) : result Z :=
  if bool_decide (token = "") then Err (errorf "empty port")
  else
    match Atoi token with
    | None => Err (errorf ("invalid port " +:+ quote token))
    | Some port =>
        if (port <=? 0) || (65535 <? port) then Err (errorf ("port out of range " +:+ quote token))
        else Ok port
    end.

Definition is_rangeByte (a : ascii) : bool := Ascii.eqb a "-" || Ascii.eqb a ":".

Definition parsePortRange (token : string) : result (Z * Z) :=
  match FieldsFunc is_rangeByte token with
  | [a; b] =>
      match parsePortNumber a with
      | Err e => Err e
      | Ok start =>
          match parsePortNumber b with
          | Err e => Err e
          | Ok end_ =>
              if end_ <? start then Err (errorf ("invalid reversed range " +:+ quote token))
              else Ok (start, end_)
          end
      end
  | _ => Err (errorf ("invalid range " +:+ quote token))
  end.

(** The variables of [parsePortForwardMatchersAndRangesExcept]. *)
Record Parsing := mkParsing {
  matchers : list portForwardMatcher;
  ranges : list portForwardRange;
  singles : list string
}.

Definition chunkMatcher (chunk : list string) : portForwardMatcher :=
  match chunk with
  | [one] => mkMatcher ["--dport"; one] (AtoiValue one)
  | _ => mkMatcher ["-m"; "multiport"; "--dports"; Join "," chunk] 0
  end.

(** The loop of [flushSingles], which takes at least one port each time. *)
Fixpoint chunkMatchers (fuel : nat) (singles : list string) : list portForwardMatcher :=
  match fuel, singles with
  | S fuel, _ :: _ => chunkMatcher (take 15 singles) :: chunkMatchers fuel (drop 15 singles)
  | _, _ => []
  end.

Definition flushSingles (s : Parsing) : Parsing :=
  mkParsing (matchers s ++ chunkMatchers (length (singles s)) (singles s)) (ranges s) [].

Definition addSingle (excludedPort port : Z) (s : Parsing) : Parsing :=
  if port =? excludedPort then s
  else mkParsing (matchers s) (ranges s ++ [mkRange port port]) (singles s ++ [Itoa port]).

Definition appendRange (rangeStart rangeEnd : Z) (s : Parsing) : Parsing :=
  mkParsing (matchers s ++ [mkMatcher ["--dport"; Itoa rangeStart +:+ ":" +:+ Itoa rangeEnd] 0])
    (ranges s ++ [mkRange rangeStart rangeEnd]) (singles s).

Definition addRange (excludedPort start end_ : Z) (s : Parsing) : Parsing :=
  if (0 <? excludedPort) && (start <=? excludedPort) && (excludedPort <=? end_) then
    let s := if start <=? excludedPort - 1 then appendRange start (excludedPort - 1) s else s in
    if excludedPort + 1 <=? end_ then appendRange (excludedPort + 1) end_ s else s
  else appendRange start end_ s.

Definition parseToken (excludedPort : Z) (token : string) (s : Parsing) : result Parsing :=
  if bool_decide (token = "") then Err (errorf "empty token")
  else if ContainsByte is_rangeByte token then
    match parsePortRange token with
    | Err e => Err e
    | Ok (start, end_) =>
        if start =? end_ then Ok (addSingle excludedPort start s)
        else Ok (addRange excludedPort start end_ (flushSingles s))
    end
  else
    match parsePortNumber token with
    | Err e => Err e
    | Ok port => Ok (addSingle excludedPort port s)
    end.

Fixpoint parseTokens (excludedPort : Z) (tokens : list string) (s : Parsing) : result Parsing :=
  match tokens with
  | [] => Ok s
  | token :: tokens =>
      match parseToken excludedPort token s with
      | Err e => Err e
      | Ok s => parseTokens excludedPort tokens s
      end
  end.

Definition parsePortForwardMatchersAndRangesExcept (raw : string) (excludedPort : Z)
    : result (list portForwardMatcher * list portForwardRange) :=
  let cleaned := RemoveByte " " (TrimSpace raw) in
  if bool_decide (cleaned = "") then Err (errorf "empty port")
  else
    match parseTokens excludedPort (Split ","%char cleaned) (mkParsing [] [] []) with
    | Err e => Err e
    | Ok s => let s := flushSingles s in Ok (matchers s, ranges s)
    end.

(** ** The rules of all nodes *)

Context {RZ : RangeOrder Z}.

Definition validTarget (port : Z) : bool := (0 <? port) && (port <=? 65535).

(** The port of a node that may have rules. *)
Definition hysteriaTarget (info : option Panel.NodeInfo) : option (Panel.NodeInfo * Panel.CommonNode) :=
  match info with
  | None => None
  | Some n =>
      match Panel.Common n with
      | None => None
      | Some c => if isHysteriaNode (Panel.Type_ n) then Some (n, c) else None
      end
  end.

Definition collectHysteriaTargetPorts (infos : list (option Panel.NodeInfo)) : gmap Z unit :=
  foldl (λ targets info,
    match hysteriaTarget info with
    | None => targets
    | Some (_, c) => if validTarget (Panel.ServerPort c) then <[Panel.ServerPort c := ()]> targets else targets
    end) ∅ infos.

Definition findPortForwardTargetPortConflict (rs : list portForwardRange) (targetPort : Z)
    (targetPorts : gmap Z unit) : option Z :=
  fst <$> List.find (λ e, negb (e.1 =? targetPort) && existsb (λ r, contains r e.1) rs) (range_list targetPorts).

(** The inner loop of [findPortForwardRangeConflict]. *)
Definition conflictOf (candidate : portForwardRange) (targetPort : Z)
    (allocated : list allocatedPortForwardRange) : option allocatedPortForwardRange :=
  List.find (λ a, negb (al_targetPort a =? targetPort) && overlaps candidate (rng a)) allocated.

Fixpoint findPortForwardRangeConflict (rs : list portForwardRange) (targetPort : Z)
    (allocated : list allocatedPortForwardRange) : option allocatedPortForwardRange :=
  match rs with
  | [] => None
  | r :: rs =>
      match conflictOf r targetPort allocated with
      | Some a => Some a
      | None => findPortForwardRangeConflict rs targetPort allocated
      end
  end.

(** The variables of [buildHysteriaPortForwardRules]. *)
Record Building := mkBuilding {
  rules : list portForwardRule;
  errs : list GoError;
  seen : gset string;
  allocated : list allocatedPortForwardRange
}.

Definition withError (e : GoError) (s : Building) : Building :=
  mkBuilding (rules s) (errs s ++ [e]) (seen s) (allocated s).

Definition ruleKey (targetPort : Z) (m : portForwardMatcher) : string :=
  Itoa targetPort +:+ "|" +:+ Join (String "000"%char EmptyString) (args m).

(** One matcher becomes a rule, unless there is the same rule already. *)
Definition addRule (targetPort : Z) (s : Building) (m : portForwardMatcher) : Building :=
  let key := ruleKey targetPort m in
  if bool_decide (key ∈ seen s) then s
  else mkBuilding (rules s ++ [mkRule m targetPort]) (errs s) ({[key]} ∪ seen s) (allocated s).

Definition allocate (nodeID targetPort : Z) (rs : list portForwardRange) (s : Building) : Building :=
  mkBuilding (rules s) (errs s) (seen s) (allocated s ++ (mkAllocated nodeID targetPort <$> rs)).

Definition externalPort (c : Panel.CommonNode) : string :=
  let port := TrimSpace (Panel.Port c) in
  if bool_decide (port = "") then TrimSpace (Panel.Ports c) else port.

Definition overlapError (n : Panel.NodeInfo) (port : string) (a : allocatedPortForwardRange) : GoError :=
  errorf ("node " +:+ Itoa (Panel.NodeInfo_Id n) +:+ " port " +:+ quote port +:+ " overlaps node "
          +:+ Itoa (al_nodeID a) +:+ " port " +:+ Itoa (start (rng a)) +:+ "-" +:+ Itoa (end_ (rng a))
          +:+ " with different target server_port").

Definition buildNode (targetPorts : gmap Z unit) (s : Building) (info : option Panel.NodeInfo) : Building :=
  match hysteriaTarget info with
  | None => s
  | Some (n, c) =>
      let target := Panel.ServerPort c in
      let node := "node " +:+ Itoa (Panel.NodeInfo_Id n) in
      if negb (validTarget target) then withError (errorf (node +:+ " has invalid server_port " +:+ Itoa target)) s
      else
        let port := externalPort c in
        if bool_decide (port = "") then s
        else
          match parsePortForwardMatchersAndRangesExcept port target with
          | Err e => withError (wrapErr (node +:+ " has invalid port " +:+ quote port +:+ ": " +:+ err_msg e) e) s
          | Ok (ms, rs) =>
              match findPortForwardTargetPortConflict rs target targetPorts with
              | Some conflict =>
                  withError (errorf (node +:+ " port " +:+ quote port +:+ " overlaps server_port " +:+ Itoa conflict
                                     +:+ " from another HY2 node")) s
              | None =>
                  match findPortForwardRangeConflict rs target (allocated s) with
                  | Some a => withError (overlapError n port a) s
                  | None => foldl (addRule target) (allocate (Panel.NodeInfo_Id n) target rs s) ms
                  end
              end
          end
  end.

Definition buildHysteriaPortForwardRules (infos : list (option Panel.NodeInfo)) : list portForwardRule * list GoError :=
  let s := foldl (buildNode (collectHysteriaTargetPorts infos)) (mkBuilding [] [] ∅ []) infos in
  (rules s, errs s).

End parse.
End PortForward.
