(* ===== verification/PortForwardProps.v ===== *)
(** * Properties of the port forwarding of Hysteria nodes

    What the rules do to a packet is read off their arguments by
    [matchesArgs], after the manual of iptables. The rules of a list of ports
    match exactly the ports of the list but the excluded one
    ([parse_ports_exact]); the rules of all nodes send a port to one target at
    most, and the target ports themselves nowhere ([redirects_unambiguous]). *)

From Stdlib Require Import Ascii.
From S2P Require Import Prelude GoStrings Panel PortForward.

Module PortForwardProps.
Import GoStrings PortForward.

(** ** What arguments of iptables match *)

(** "--dport" takes a port or a range "a:b", the module multiport takes a list of
    ports. *)
Definition matchesArgs (args : list string) (p : Z) : bool :=
  match args with
  | ["--dport"; spec] =>
      match Cut ":"%char spec with
      | None => bool_decide (Atoi spec = Some p)
      | Some (a, b) =>
          match Atoi a, Atoi b with
          | Some x, Some y => (x <=? p) && (p <=? y)
          | _, _ => false
          end
      end
  | ["-m"; "multiport"; "--dports"; ports] => existsb (λ t, bool_decide (Atoi t = Some p)) (Split ","%char ports)
  | _ => false
  end.

Definition matched (ms : list portForwardMatcher) (p : Z) : bool := existsb (λ m, matchesArgs (args m) p) ms.

Definition inRanges (rs : list portForwardRange) (p : Z) : bool := existsb (λ r, contains r p) rs.

Lemma matched_app ms ms' p : matched (ms ++ ms') p = matched ms p || matched ms' p.
Proof. apply existsb_app. Qed.

Lemma inRanges_app rs rs' p : inRanges (rs ++ rs') p = inRanges rs p || inRanges rs' p.
Proof. apply existsb_app. Qed.

(** ** Ports as numbers *)

Definition validPort (p : Z) : Prop := 0 < p <= 65535.

Lemma validPort_i64 p : validPort p → i64 p.
Proof. unfold validPort, i64. lia. Qed.

Lemma Itoa_plain (sep : ascii) p : is_digit sep = false → validPort p → Forall (λ a, a ≠ sep) (bytes (Itoa p)).
Proof.
  intros Hs Hp. eapply Forall_impl; [apply Itoa_digits; unfold validPort in Hp; lia|]. intros a Ha ->. congruence.
Qed.

Lemma Atoi_port p q : validPort p → bool_decide (Atoi (Itoa p) = Some q) = bool_decide (p = q).
Proof. intros Hp. rewrite Atoi_Itoa by by apply validPort_i64. apply bool_decide_ext. naive_solver. Qed.

Lemma matches_single p q : validPort p → matchesArgs ["--dport"; Itoa p] q = bool_decide (p = q).
Proof.
  intros Hp. cbn. rewrite (proj2 (Cut_None _ _) (Itoa_plain ":" p eq_refl Hp)). by apply Atoi_port.
Qed.

Lemma matches_range a b q :
  validPort a → validPort b → matchesArgs ["--dport"; Itoa a +:+ ":" +:+ Itoa b] q = (a <=? q) && (q <=? b).
Proof.
  intros Ha Hb. cbn. change (":" +:+ Itoa b) with (String ":" (Itoa b)).
  rewrite Cut_app by by apply Itoa_plain. by rewrite !Atoi_Itoa by by apply validPort_i64.
Qed.

Lemma Split_ports ps :
  Forall validPort ps → ps ≠ [] → Split ","%char (Join "," (Itoa <$> ps)) = Itoa <$> ps.
Proof.
  intros Hps Hne. apply (Split_Join ","%char); [by destruct ps|].
  apply Forall_fmap. eapply Forall_impl; [exact Hps|]. intros p Hp. by apply Itoa_plain.
Qed.

Lemma matches_multiport ps q :
  Forall validPort ps → ps ≠ [] → 
  matchesArgs ["-m"; "multiport"; "--dports"; Join "," (Itoa <$> ps)] q = bool_decide (q ∈ ps).
Proof.
  intros Hps Hne. unfold matchesArgs. rewrite Split_ports by done.
  clear Hne. induction Hps as [|p ps Hp Hps IH]; cbn; [by rewrite bool_decide_false by apply not_elem_of_nil|].
  rewrite IH, Atoi_port by done. rewrite <- bool_decide_or. apply bool_decide_ext. rewrite elem_of_cons. naive_solver.
Qed.

(** ** Chunks of single ports *)

(** The texts the matchers are made of: numbers with ":" and "," between them. *)
Definition portByte (a : ascii) : Prop := is_digit a = true ∨ a = ":"%char ∨ a = ","%char.

Definition portText (s : string) : Prop := s ≠ "" ∧ Forall portByte (bytes s).

(** A matcher as the parser makes them, with at most fifteen ports in a list,
    which is what multiport takes. *)
Record wellFormed (m : portForwardMatcher) : Prop := {
  wf_shape : ∃ s, portText s ∧ (args m = ["--dport"; s] ∨ args m = ["-m"; "multiport"; "--dports"; s]);
  wf_multiport : ∀ ports, args m = ["-m"; "multiport"; "--dports"; ports] → (length (Split ","%char ports) <= 15)%nat
}.

Lemma portByte_nul a : portByte a → a ≠ "000"%char.
Proof. intros [Ha|[->| ->]]; [intros ->; vm_compute in Ha|..]; done. Qed.

Lemma wf_args m : wellFormed m → args m ≠ [].
Proof. intros [(s & _ & [Ha|Ha]) _]; by rewrite Ha. Qed.

Lemma wf_nul m : wellFormed m → Forall (λ s, Forall (λ a, a ≠ "000"%char) (bytes s)) (args m).
Proof.
  intros [(s & [_ Hs] & Ha) _]. assert (Forall (λ a, a ≠ "000"%char) (bytes s)) by (eapply Forall_impl; [exact Hs|apply portByte_nul]).
  destruct Ha as [-> | ->]; repeat (apply Forall_cons; split; [first [done | by repeat constructor]|]); constructor.
Qed.

Lemma Itoa_portText p : validPort p → portText (Itoa p).
Proof.
  intros Hp. split.
  - intros E. pose proof (Atoi_Itoa p (validPort_i64 p Hp)) as Hr. by rewrite E in Hr.
  - eapply Forall_impl; [apply Itoa_digits; unfold validPort in Hp; lia|]. intros a Ha. by left.
Qed.

Lemma portText_app s s' : portText s → Forall portByte (bytes s') → portText (s +:+ s').
Proof. intros [Hne Hs] Hs'. split; [by destruct s|]. rewrite bytes_app. by apply Forall_app. Qed.

Lemma bytes_Join (P : ascii → Prop) sep l :
  Forall P (bytes sep) → Forall (λ s, Forall P (bytes s)) l → Forall P (bytes (Join sep l)).
Proof.
  intros Hs Hl. induction Hl as [|s l Hx Hl IH]; [constructor|]. destruct l as [|t l]; [done|].
  change (Join sep (s :: t :: l)) with (s +:+ sep +:+ Join sep (t :: l)).
  rewrite !bytes_app, !Forall_app. by split_and!.
Qed.

Lemma chunkMatcher_spec ps :
  Forall validPort ps → ps ≠ [] → (length ps <= 15)%nat →
  wellFormed (chunkMatcher (Itoa <$> ps)) ∧ ∀ q, matchesArgs (args (chunkMatcher (Itoa <$> ps))) q = bool_decide (q ∈ ps).
Proof.
  intros Hps Hne Hlen. destruct ps as [|p [|p' ps]]; [done| |].
  - apply Forall_cons in Hps as [Hp _]. cbn [chunkMatcher fmap list_fmap args]. split.
    + split; [|done]. exists (Itoa p). split; [by apply Itoa_portText|by left].
    + intros q. rewrite matches_single by done. apply bool_decide_ext. rewrite list_elem_of_singleton. naive_solver.
  - change (chunkMatcher (Itoa <$> p :: p' :: ps))
      with (mkMatcher ["-m"; "multiport"; "--dports"; Join "," (Itoa <$> p :: p' :: ps)] 0).
    split; [|intros q; by apply matches_multiport]. split; cbn [args].
    + eexists. split; [|by right]. change (Join "," (Itoa <$> p :: p' :: ps)) with (Itoa p +:+ ("," +:+ Join "," (Itoa <$> p' :: ps))).
      apply Forall_cons in Hps as [Hp Hps]. apply portText_app; [by apply Itoa_portText|].
      rewrite bytes_app. apply Forall_app. split; [by constructor; [right; right|constructor]|].
      apply bytes_Join; [by constructor; [right; right|constructor]|]. apply Forall_fmap. eapply Forall_impl; [exact Hps|].
      intros x Hx. by apply Itoa_portText.
    + intros ports [= <-]. change (length (Split "," (Join "," (Itoa <$> p :: p' :: ps))) <= 15)%nat.
      by rewrite Split_ports, length_fmap.
Qed.

(** The loop of [flushSingles] ends before the fuel does, and its matchers match
    the ports. *)
Lemma chunkMatchers_spec fuel ps :
  Forall validPort ps → (length ps <= fuel)%nat →
  Forall wellFormed (chunkMatchers fuel (Itoa <$> ps))
  ∧ ∀ q, matched (chunkMatchers fuel (Itoa <$> ps)) q = bool_decide (q ∈ ps).
Proof.
  revert ps. induction fuel as [|fuel IH]; intros ps Hps Hlen.
  { destruct ps; [|cbn in Hlen; lia]. split; [constructor|]. intros q. cbn. by rewrite bool_decide_false by apply not_elem_of_nil. }
  destruct ps as [|p ps]; [split; [constructor|]; intros q; cbn; by rewrite bool_decide_false by apply not_elem_of_nil|].
  change (chunkMatchers (S fuel) (Itoa <$> p :: ps))
    with (chunkMatcher (take 15 (Itoa <$> p :: ps)) :: chunkMatchers fuel (drop 15 (Itoa <$> p :: ps))).
  rewrite <- fmap_take, <- fmap_drop.
  destruct (chunkMatcher_spec (take 15 (p :: ps))) as [Hw Hm]; [by apply Forall_take|done|rewrite length_take; lia|].
  destruct (IH (drop 15 (p :: ps))) as [Hws Hms]; [by apply Forall_drop|rewrite length_drop; cbn in *; lia|].
  split; [by constructor|]. intros q. cbn [matched existsb]. fold (matched (chunkMatchers fuel (Itoa <$> drop 15 (p :: ps))) q).
  rewrite Hm, Hms, <- bool_decide_or. apply bool_decide_ext. rewrite <- elem_of_app. by rewrite take_drop.
Qed.

(** ** The parser *)

Section parse.
Context (quote : string → string).

(** The ports a token stands for. *)
Definition denotes (token : string) (q : Z) : Prop :=
  if ContainsByte is_rangeByte token
  then ∃ a b, parsePortRange quote token = Ok (a, b) ∧ a <= q <= b
  else parsePortNumber quote token = Ok q.

Lemma parsePortNumber_valid token p : parsePortNumber quote token = Ok p → validPort p.
Proof.
  unfold parsePortNumber, validPort. case_bool_decide; [done|]. destruct (Atoi token) as [q|]; [|done].
  destruct (_ || _) eqn:Hq; [done|]. intros [= <-]. bool_to_prop. lia.
Qed.

Lemma parsePortRange_valid token a b : parsePortRange quote token = Ok (a, b) → validPort a ∧ validPort b ∧ a <= b.
Proof.
  unfold parsePortRange. destruct (FieldsFunc _ _) as [|x [|y [|]]]; try done.
  destruct (parsePortNumber quote x) as [p|] eqn:Hx; [|done]. destruct (parsePortNumber quote y) as [q|] eqn:Hy; [|done].
  destruct (Z.ltb_spec q p); [done|]. intros [= <- <-]. split_and!; [by eapply parsePortNumber_valid..|done].
Qed.

(** What holds of the variables of the parser after tokens that stand for the
    ports [D], without the port [e]. *)
Record parsed (e : Z) (D : Z → Prop) (s : Parsing) : Prop := {
  pa_singles : ∃ ps, singles s = Itoa <$> ps ∧ Forall validPort ps
    ∧ ∀ q, inRanges (ranges s) q = matched (matchers s) q || bool_decide (q ∈ ps);
  pa_wf : Forall wellFormed (matchers s);
  pa_ranges : Forall (λ r, validPort (start r) ∧ validPort (end_ r)) (ranges s);
  pa_ports : ∀ q, inRanges (ranges s) q = true ↔ D q ∧ q ≠ e
}.

Lemma parsed_ext e D D' s : (∀ q, D q ↔ D' q) → parsed e D s → parsed e D' s.
Proof. intros Hd [H1 H2 H3 H4]. split; [done..|]. intros q. by rewrite H4, Hd. Qed.

Lemma parsed_start e : parsed e (λ _, False) (mkParsing [] [] []).
Proof.
  split; cbn; [|constructor..|].
  - exists []. split_and!; [done|constructor|]. intros q. by rewrite bool_decide_false by apply not_elem_of_nil.
  - intros q. split; [done|]. by intros [].
Qed.

Lemma flushSingles_parsed e D s : parsed e D s → parsed e D (flushSingles s) ∧ singles (flushSingles s) = [].
Proof.
  intros [(ps & Hs & Hps & Hq) H2 H3 H4]. split; [|done]. unfold flushSingles. rewrite Hs, length_fmap.
  destruct (chunkMatchers_spec (length ps) ps Hps (Nat.le_refl _)) as [Hw Hm]. split; cbn [matchers ranges singles]; [|by apply Forall_app|done|done].
  exists []. split_and!; [done|constructor|]. intros q.
  by rewrite Hq, matched_app, Hm, (bool_decide_false (q ∈ [])), orb_false_r by apply not_elem_of_nil.
Qed.

Lemma addSingle_parsed e D s p :
  validPort p → parsed e D s → parsed e (λ q, D q ∨ q = p) (addSingle e p s).
Proof.
  intros Hp Hs. unfold addSingle. destruct (Z.eqb_spec p e) as [->|Hne].
  { destruct Hs as [H1 H2 H3 H4]. split; [done..|]. intros q. rewrite H4. naive_solver. }
  destruct Hs as [(ps & Hs & Hps & Hq) H2 H3 H4]. split; cbn [matchers ranges singles]; [|done| |].
  - exists (ps ++ [p]). rewrite Hs, fmap_app. split_and!; [done|by apply Forall_app; split; [|constructor]|].
    intros q. rewrite inRanges_app, Hq, <- orb_assoc. f_equal. cbn. rewrite orb_false_r. unfold contains. cbn.
    apply eq_true_iff_eq. rewrite orb_true_iff, andb_true_iff, !bool_decide_eq_true, !Z.leb_le, elem_of_app, list_elem_of_singleton.
    split; intros [?|?]; [by left|right; lia|by left|right; lia].
  - apply Forall_app. split; [done|]. by repeat constructor; apply Hp.
  - intros q. rewrite inRanges_app, orb_true_iff, H4. cbn. rewrite orb_false_r. unfold contains. cbn.
    rewrite andb_true_iff, !Z.leb_le. split.
    + intros [[? ?]|?]; [split; [by left|done]|]. assert (q = p) as -> by lia. split; [by right|done].
    + intros [[?| ->] ?]; [by left|right; lia].
Qed.

Lemma appendRange_parsed e D s a b :
  validPort a → validPort b → a <= b → ¬ (a <= e <= b) → parsed e D s →
  parsed e (λ q, D q ∨ a <= q <= b) (appendRange a b s).
Proof.
  intros Ha Hb Hab He [(ps & Hs & Hps & Hq) H2 H3 H4]. unfold appendRange. split; cbn [matchers ranges singles].
  - exists ps. split_and!; [done|done|]. intros q. rewrite inRanges_app, matched_app, Hq. cbn [matched existsb inRanges args].
    rewrite matches_range, !orb_false_r by done. unfold contains. cbn.
    by rewrite <- !orb_assoc, (orb_comm (bool_decide _)).
  - apply Forall_app. split; [done|]. constructor; [|constructor]. split; [|done].
    eexists. split; [|by left]. apply portText_app; [by apply Itoa_portText|]. rewrite bytes_app. apply Forall_app.
    split; [by constructor; [right; left|constructor]|by apply Itoa_portText].
  - apply Forall_app. split; [done|]. by constructor.
  - intros q. rewrite inRanges_app, orb_true_iff, H4. cbn. rewrite orb_false_r. unfold contains. cbn.
    rewrite andb_true_iff, !Z.leb_le. split.
    + intros [[? ?]|?]; [split; [by left|done]|split; [by right|lia]].
    + intros [[?|?] ?]; [by left|right; lia].
Qed.

Lemma addRange_parsed e D s a b :
  validPort a → validPort b → a <= b → parsed e D s → parsed e (λ q, D q ∨ a <= q <= b) (addRange e a b s).
Proof.
  intros Ha Hb Hab Hs. unfold addRange. destruct (_ && _) eqn:Hin; bool_to_prop.
  - assert (Hv : ∀ p, a <= p <= b → validPort p) by (unfold validPort in *; lia).
    destruct (Z.leb_spec a (e - 1)), (Z.leb_spec (e + 1) b).
    1: apply (appendRange_parsed e _ _ a (e - 1)) in Hs; [|done|apply Hv; lia|lia|lia];
       apply (appendRange_parsed e _ _ (e + 1) b) in Hs; [|apply Hv; lia|done|lia|lia].
    2: apply (appendRange_parsed e _ _ a (e - 1)) in Hs; [|done|apply Hv; lia|lia|lia].
    3: apply (appendRange_parsed e _ _ (e + 1) b) in Hs; [|apply Hv; lia|done|lia|lia].
    all: destruct Hs as [G1 G2 G3 G4]; split; [done..|]; intros q; rewrite G4.
    + assert ((a <= q <= e - 1 ∨ e + 1 <= q <= b) ∧ q ≠ e ↔ a <= q <= b ∧ q ≠ e) by lia. tauto.
    + assert (a <= q <= e - 1 ∧ q ≠ e ↔ a <= q <= b ∧ q ≠ e) by lia. tauto.
    + assert (e + 1 <= q <= b ∧ q ≠ e ↔ a <= q <= b ∧ q ≠ e) by lia. tauto.
    + assert (False ↔ a <= q <= b ∧ q ≠ e) by lia. tauto.
  - apply appendRange_parsed; try done. unfold validPort in *. destruct Hin as [Hin|Hin]; bool_to_prop; [destruct Hin as [Hin|Hin]; bool_to_prop|]; lia.
Qed.

Lemma parseToken_parsed e D s s' token :
  parsed e D s → parseToken quote e token s = Ok s' → parsed e (λ q, D q ∨ denotes token q) s'.
Proof.
  intros Hs. unfold parseToken, denotes. case_bool_decide; [done|]. destruct (ContainsByte is_rangeByte token).
  - destruct (parsePortRange quote token) as [[a b]|] eqn:Hr; [|done].
    destruct (parsePortRange_valid _ _ _ Hr) as (Ha & Hb & Hab). destruct (Z.eqb_spec a b) as [->|Hne]; intros [= <-].
    + apply (addSingle_parsed e D s b) in Hs; [|done]. eapply parsed_ext; [|exact Hs].
      intros q. split; [intros [?| ->]; [by left|right; by exists b, b]|].
      intros [?|(x & y & [= <- <-] & ?)]; [by left|right; lia].
    + apply flushSingles_parsed in Hs as [Hs _]. apply (addRange_parsed e D _ a b) in Hs; [|done..].
      eapply parsed_ext; [|exact Hs]. intros q. split; [intros [?|?]; [by left|right; by exists a, b]|].
      intros [?|(x & y & [= <- <-] & ?)]; [by left|by right].
  - destruct (parsePortNumber quote token) as [p|] eqn:Hp; [|done]. intros [= <-].
    apply (addSingle_parsed e D s p) in Hs; [|by eapply parsePortNumber_valid]. eapply parsed_ext; [|exact Hs]. naive_solver.
Qed.

Lemma parseTokens_parsed e tokens D s s' :
  parsed e D s → parseTokens quote e tokens s = Ok s' → parsed e (λ q, D q ∨ ∃ token, token ∈ tokens ∧ denotes token q) s'.
Proof.
  revert D s. induction tokens as [|token tokens IH]; intros D s Hs; cbn [parseTokens].
  { intros [= <-]. eapply parsed_ext; [|exact Hs]. intros q. split; [by left|]. intros [?|(x & Hx & _)]; [done|].
    by apply elem_of_nil in Hx. }
  destruct (parseToken quote e token s) as [s1|] eqn:Ht; [|done]. intros Hrest.
  apply (parseToken_parsed _ _ _ _ _ Hs) in Ht. apply (IH _ _ Ht) in Hrest. eapply parsed_ext; [|exact Hrest].
  intros q. setoid_rewrite elem_of_cons. naive_solver.
Qed.

(** What the parser answers. *)
Lemma parse_spec raw e ms rs :
  parsePortForwardMatchersAndRangesExcept quote raw e = Ok (ms, rs) →
  (∀ q, matched ms q = inRanges rs q)
  ∧ (∀ q, inRanges rs q = true ↔ q ≠ e ∧ ∃ token, token ∈ Split ","%char (RemoveByte " " (TrimSpace raw)) ∧ denotes token q)
  ∧ Forall wellFormed ms ∧ Forall (λ r, validPort (start r) ∧ validPort (end_ r)) rs.
Proof.
  unfold parsePortForwardMatchersAndRangesExcept. case_bool_decide; [done|].
  destruct (parseTokens _ _ _ _) as [s|] eqn:Hs; [|done]. intros [= <- <-].
  apply (parseTokens_parsed _ _ _ _ _ (parsed_start e)) in Hs. apply flushSingles_parsed in Hs as [Hs Hnil].
  destruct Hs as [(ps & Hsi & Hps & Hq) H2 H3 H4]. rewrite Hnil in Hsi. symmetry in Hsi. apply fmap_nil_inv in Hsi as ->.
  split_and!; [|intros q; rewrite H4; naive_solver|done|done].
  intros q. by rewrite Hq, (bool_decide_false (q ∈ [])), orb_false_r by apply not_elem_of_nil.
Qed.

(** The rules for a list of ports match exactly the ports the tokens of the list
    stand for, less the excluded one, which is the port the core itself listens
    on; all of them are ports, and no rule lists more than the fifteen ports the
    module multiport takes. *)
Theorem parse_ports_exact raw e ms rs :
  parsePortForwardMatchersAndRangesExcept quote raw e = Ok (ms, rs) →
  (∀ q, matched ms q = true ↔
     q ≠ e ∧ ∃ token, token ∈ Split ","%char (RemoveByte " " (TrimSpace raw)) ∧ denotes token q)
  ∧ (∀ q, matched ms q = inRanges rs q)
  ∧ (∀ q, matched ms q = true → 0 < q <= 65535)
  ∧ ∀ m ports, m ∈ ms → args m = ["-m"; "multiport"; "--dports"; ports] → (length (Split ","%char ports) <= 15)%nat.
Proof.
  intros (H1 & H2 & H3 & H4)%parse_spec. split_and!.
  - intros q. by rewrite H1, H2.
  - done.
  - intros q. rewrite H1. intros (r & Hr & Hc)%existsb_exists. apply base.list_elem_of_In in Hr.
    rewrite Forall_forall in H4. apply H4 in Hr. unfold contains, validPort in *. bool_to_prop. lia.
  - intros m ports Hm. rewrite Forall_forall in H3. by apply H3.
Qed.

(** ** The rules of all nodes *)

Context {RZ : RangeOrder Z}.

Definition ruleMatches (r : portForwardRule) (p : Z) : bool := matchesArgs (args (matcher r)) p.

Lemma validTarget_spec p : validTarget p = true ↔ validPort p.
Proof. unfold validTarget, validPort. rewrite andb_true_iff, Z.ltb_lt, Z.leb_le. done. Qed.

Lemma ruleKey_inj t m t' m' :
  validPort t → validPort t' → wellFormed m → wellFormed m' → ruleKey t m = ruleKey t' m' → t = t' ∧ args m = args m'.
Proof.
  intros Ht Ht' Hm Hm' E. unfold ruleKey in E.
  apply (f_equal (Cut "|"%char)) in E. change ("|" +:+ ?x) with (String "|" x) in E.
  rewrite !Cut_app in E by by apply Itoa_plain. injection E as E1 E2.
  split; [apply Itoa_inj; [by apply validPort_i64..|done]|].
  apply (f_equal (Split "000"%char)) in E2. by rewrite !Split_Join in E2 by auto using wf_args, wf_nul.
Qed.

Definition keyOf (r : portForwardRule) : string := ruleKey (targetPort r) (matcher r).

(** The rules as far as their keys go. *)
Record keyed (s : Building) : Prop := {
  ky_rules : Forall (λ r, validPort (targetPort r) ∧ wellFormed (matcher r)) (rules s);
  ky_seen : ∀ key, key ∈ seen s ↔ key ∈ keyOf <$> rules s
}.

Lemma addRule_spec t s m :
  keyed s → validPort t → wellFormed m →
  let s' := addRule t s m in
  keyed s' ∧ allocated s' = allocated s ∧ errs s' = errs s
  ∧ (∀ r, r ∈ rules s' → r ∈ rules s ∨ r = mkRule m t) ∧ (∀ r, r ∈ rules s → r ∈ rules s')
  ∧ ∃ r, r ∈ rules s' ∧ targetPort r = t ∧ args (matcher r) = args m.
Proof.
  intros [Hr Hs] Ht Hm. unfold addRule. case_bool_decide as Hk.
  - split_and!; try done; [by left|]. apply Hs in Hk. apply list_elem_of_fmap in Hk as (r & Hk & Hin).
    rewrite Forall_forall in Hr. destruct (Hr r Hin) as [Hv Hw]. unfold keyOf in Hk.
    apply ruleKey_inj in Hk as [-> Ha]; [|done..]. by exists r.
  - cbn. split_and!; try done.
    + split; cbn; [by apply Forall_app; split; [|constructor]|]. intros key.
      rewrite fmap_app, elem_of_app, elem_of_union, elem_of_singleton, Hs. cbn [fmap list_fmap].
      rewrite list_elem_of_singleton. unfold keyOf at 3. cbn [targetPort matcher]. tauto.
    + intros r [?| ->%list_elem_of_singleton]%elem_of_app; [by left|by right].
    + intros r Hin. apply elem_of_app. by left.
    + exists (mkRule m t). split; [|done]. apply elem_of_app. right. by apply list_elem_of_singleton.
Qed.

Lemma addRules_spec t ms s :
  keyed s → validPort t → Forall wellFormed ms →
  let s' := foldl (addRule t) s ms in
  keyed s' ∧ allocated s' = allocated s ∧ errs s' = errs s
  ∧ (∀ r, r ∈ rules s' → r ∈ rules s ∨ ∃ m, m ∈ ms ∧ r = mkRule m t) ∧ (∀ r, r ∈ rules s → r ∈ rules s')
  ∧ ∀ m, m ∈ ms → ∃ r, r ∈ rules s' ∧ targetPort r = t ∧ args (matcher r) = args m.
Proof.
  intros Hk Ht Hms. revert s Hk. induction Hms as [|m ms Hm Hms IH]; intros s Hk; cbn.
  { split_and!; try done; [by left|]. intros m Hin. by apply elem_of_nil in Hin. }
  destruct (addRule_spec t s m Hk Ht Hm) as (K1 & K2 & K3 & K4 & K5 & r0 & K6 & K7 & K8).
  destruct (IH (addRule t s m) K1) as (G1 & G2 & G3 & G4 & G5 & G6). split_and!; [done|congruence|congruence| |auto|].
  - intros r [[Hr| ->]%K4|(x & Hx & ->)]%G4; [by left|right; exists m|right; exists x]; by rewrite elem_of_cons; auto.
  - intros x [->|Hx]%elem_of_cons; [|by apply G6]. exists r0. by split_and!; [apply G5|..].
Qed.

(** What holds of the variables of [buildHysteriaPortForwardRules]: rules match
    what is allocated to their target, and all of it; ranges of different
    targets are disjoint and do not contain a target. *)
Record built (targets : gmap Z unit) (s : Building) : Prop := {
  bl_keyed : keyed s;
  bl_rules : ∀ r p, r ∈ rules s → ruleMatches r p = true →
    ∃ a, a ∈ allocated s ∧ al_targetPort a = targetPort r ∧ contains (rng a) p = true;
  bl_cover : ∀ a p, a ∈ allocated s → contains (rng a) p = true →
    ∃ r, r ∈ rules s ∧ targetPort r = al_targetPort a ∧ ruleMatches r p = true;
  bl_disjoint : ∀ a a' p, a ∈ allocated s → a' ∈ allocated s → contains (rng a) p = true →
    contains (rng a') p = true → al_targetPort a = al_targetPort a';
  bl_targets : ∀ a t, a ∈ allocated s → is_Some (targets !! t) → contains (rng a) t = false
}.

Lemma built_start targets : built targets (mkBuilding [] [] ∅ []).
Proof. split; cbn; [split; cbn; [constructor|set_solver]|set_solver..]. Qed.

Lemma withError_built targets e s : built targets s → built targets (withError e s).
Proof. by intros [[H1 H2] H3 H4 H5 H6]. Qed.

Lemma targetConflict_None rs t targets :
  findPortForwardTargetPortConflict rs t targets = None →
  ∀ t' r, is_Some (targets !! t') → t' ≠ t → r ∈ rs → contains r t' = false.
Proof.
  unfold findPortForwardTargetPortConflict. destruct (List.find _ _) eqn:Hf; [done|]. intros _ t' r [[] Ht] Hne Hr.
  apply find_none with (x := (t', ())) in Hf; [|by apply base.list_elem_of_In, elem_of_range_list].
  cbn in Hf. rewrite (proj2 (Z.eqb_neq t' t) Hne) in Hf. cbn in Hf.
  destruct (contains r t') eqn:Hc; [|done]. exfalso. assert (existsb (λ r, contains r t') rs = true); [|congruence].
  apply existsb_exists. exists r. split; [by apply base.list_elem_of_In|done].
Qed.

Lemma rangeConflict_None rs t al :
  findPortForwardRangeConflict rs t al = None →
  ∀ r a p, r ∈ rs → a ∈ al → contains r p = true → contains (rng a) p = true → al_targetPort a = t.
Proof.
  induction rs as [|r0 rs IH]; cbn; [intros _ r a p Hr; by apply elem_of_nil in Hr|].
  destruct (conflictOf r0 t al) eqn:Hc; [done|]. intros Hrest r a p [->|Hr]%elem_of_cons; [|by apply IH].
  intros Ha H1 H2. unfold conflictOf in Hc. apply find_none with (x := a) in Hc; [|by apply base.list_elem_of_In].
  destruct (Z.eqb_spec (al_targetPort a) t); [done|]. cbn in Hc. exfalso. unfold overlaps, contains in *. bool_to_prop.
  destruct Hc as [Hc|Hc]; bool_to_prop; lia.
Qed.

Lemma inRanges_elem rs p : inRanges rs p = true ↔ ∃ r, r ∈ rs ∧ contains r p = true.
Proof. unfold inRanges. rewrite existsb_exists. by setoid_rewrite base.list_elem_of_In. Qed.

Lemma matched_elem ms p : matched ms p = true ↔ ∃ m, m ∈ ms ∧ matchesArgs (args m) p = true.
Proof. unfold matched. rewrite existsb_exists. by setoid_rewrite base.list_elem_of_In. Qed.

(** A node whose ports pass all tests. *)
Lemma accept_built targets s id t raw ms rs :
  built targets s → validPort t → parsePortForwardMatchersAndRangesExcept quote raw t = Ok (ms, rs) →
  findPortForwardTargetPortConflict rs t targets = None → findPortForwardRangeConflict rs t (allocated s) = None →
  built targets (foldl (addRule t) (allocate id t rs s) ms).
Proof.
  intros [Hk H3 H4 H5 H6] Ht (P1 & P2 & P3 & _)%parse_spec Hct Hcr.
  pose proof (targetConflict_None _ _ _ Hct) as Ct. pose proof (rangeConflict_None _ _ _ Hcr) as Cr.
  assert (Hka : keyed (allocate id t rs s)) by (destruct Hk; by split).
  destruct (addRules_spec t ms (allocate id t rs s) Hka Ht P3) as (G1 & G2 & G3 & G4 & G5 & G6).
  assert (Hal : ∀ a, a ∈ allocated (foldl (addRule t) (allocate id t rs s) ms) ↔
    a ∈ allocated s ∨ ∃ r, r ∈ rs ∧ a = mkAllocated id t r).
  { intros a. rewrite G2. cbn. rewrite elem_of_app, list_elem_of_fmap. naive_solver. }
  split; [exact G1| | | |].
  - intros r p Hr Hp. destruct (G4 r Hr) as [Hin|(m & Hm & ->)].
    + destruct (H3 r p Hin Hp) as (a & Ha & Hat). exists a. split; [apply Hal; by left|done].
    + assert (Hin : inRanges rs p = true) by (rewrite <- P1; apply matched_elem; by exists m).
      apply inRanges_elem in Hin as (r & Hr' & Hc). exists (mkAllocated id t r). split; [apply Hal; right; by exists r|done].
  - intros a p [Ha|(r & Hr & ->)]%Hal Hc.
    + destruct (H4 a p Ha Hc) as (r & Hr & Hrt). exists r. split; [by apply G5|done].
    + assert (Hin : matched ms p = true) by (rewrite P1; apply inRanges_elem; by exists r).
      apply matched_elem in Hin as (m & Hm & Hmp). destruct (G6 m Hm) as (r' & R1 & R2 & R3).
      exists r'. split_and!; [done|done|]. unfold ruleMatches. by rewrite R3.
  - intros a a' p [Ha|(r & Hr & ->)]%Hal [Ha'|(r' & Hr' & ->)]%Hal Hc Hc'; cbn in *.
    + by eapply H5.
    + by eapply Cr.
    + symmetry. by eapply Cr.
    + done.
  - intros a t' [Ha|(r & Hr & ->)]%Hal Ht'; [by apply H6|]. cbn. destruct (decide (t' = t)) as [->|Hne]; [|by eapply Ct].
    apply not_true_is_false. intros Hc. assert (inRanges rs t = true) as Hin by (apply inRanges_elem; by exists r).
    apply P2 in Hin as [? _]. done.
Qed.

(** What a node of Hysteria asks for: the ports to redirect to its target. *)
Definition asks (info : option Panel.NodeInfo) (t p : Z) : Prop :=
  ∃ n c, hysteriaTarget info = Some (n, c) ∧ Panel.ServerPort c = t ∧ p ≠ t
    ∧ ∃ token, token ∈ Split ","%char (RemoveByte " " (TrimSpace (externalPort c))) ∧ denotes token p.

Definition ranged (s : Building) (t p : Z) : Prop :=
  ∃ a, a ∈ allocated s ∧ al_targetPort a = t ∧ contains (rng a) p = true.

(** One node: either it is refused with an error, or its ports are allocated. *)
Lemma buildNode_spec targets s info :
  built targets s →
  let s' := buildNode quote targets s info in
  built targets s' ∧ (∀ t p, ranged s' t p → ranged s t p ∨ asks info t p) ∧ (∀ t p, ranged s t p → ranged s' t p)
  ∧ ((∃ e, errs s' = errs s ++ [e])
     ∨ errs s' = errs s ∧ ∀ n c, hysteriaTarget info = Some (n, c) → validPort (Panel.ServerPort c)
         ∧ (externalPort c ≠ "" → ∀ p, asks info (Panel.ServerPort c) p → ranged s' (Panel.ServerPort c) p)).
Proof.
  intros Hb. unfold buildNode. destruct (hysteriaTarget info) as [[n c]|] eqn:Hinfo; [|naive_solver].
  set (t := Panel.ServerPort c). destruct (validTarget t) eqn:Ht; cbn [negb].
  2: { split_and!; [by apply withError_built|by left|done|left; by eexists]. }
  apply validTarget_spec in Ht. case_bool_decide as Hport; [split_and!; [done|by left|done|right; naive_solver]|].
  destruct (parsePortForwardMatchersAndRangesExcept _ _ _) as [[ms rs]|] eqn:Hp.
  2: { split_and!; [by apply withError_built|by left|done|left; by eexists]. }
  destruct (findPortForwardTargetPortConflict _ _ _) eqn:Hct.
  1: { split_and!; [by apply withError_built|by left|done|left; by eexists]. }
  destruct (findPortForwardRangeConflict _ _ _) eqn:Hcr.
  1: { split_and!; [by apply withError_built|by left|done|left; by eexists]. }
  pose proof (accept_built targets s (Panel.NodeInfo_Id n) t _ _ _ Hb Ht Hp Hct Hcr) as Hb'.
  pose proof (parse_spec _ _ _ _ Hp) as (_ & P2 & P3 & _).
  assert (Hka : keyed (allocate (Panel.NodeInfo_Id n) t rs s)) by (destruct Hb as [[] _ _ _ _]; by split).
  destruct (addRules_spec t ms _ Hka Ht P3) as (_ & G2 & G3 & _).
  split; [done|]. unfold ranged. rewrite G2. cbn [allocate allocated]. split_and!.
  - intros t' p (a & Ha & <- & Hc). apply elem_of_app in Ha as [Ha|Ha]; [left; by exists a|right].
    apply list_elem_of_fmap in Ha. destruct Ha as (r & -> & Hr).
    exists n, c. cbn in *. assert (Hin : inRanges rs p = true) by (apply inRanges_elem; by exists r).
    apply P2 in Hin as [? ?]. by split_and!.
  - intros t' p (a & Ha & Hat). exists a. split; [apply elem_of_app; by left|done].
  - right. split; [done|]. intros n' c' [= <- <-]. split; [done|]. intros _ p (n' & c' & E & _ & Hne & Htok).
    rewrite Hinfo in E. injection E as <- <-. pose proof (proj2 (P2 p) (conj Hne Htok)) as Hin.
    apply inRanges_elem in Hin as (r & Hr & Hc). exists (mkAllocated (Panel.NodeInfo_Id n) t r).
    split_and!; [|done..]. apply elem_of_app. right. by apply list_elem_of_fmap_2.
Qed.

Lemma buildNodes_spec targets infos s :
  built targets s →
  let s' := foldl (buildNode quote targets) s infos in
  built targets s' ∧ (∀ t p, ranged s' t p → ranged s t p ∨ ∃ info, info ∈ infos ∧ asks info t p)
  ∧ (∀ t p, ranged s t p → ranged s' t p)
  ∧ errs s `prefix_of` errs s'
  ∧ (errs s' = errs s → ∀ info n c, info ∈ infos → hysteriaTarget info = Some (n, c) → validPort (Panel.ServerPort c)
       ∧ (externalPort c ≠ "" → ∀ p, asks info (Panel.ServerPort c) p → ranged s' (Panel.ServerPort c) p)).
Proof.
  revert s. induction infos as [|info infos IH]; intros s Hb; cbn [foldl].
  { split_and!; [done|by left|done|done|]. intros _ info n c Hin. by apply elem_of_nil in Hin. }
  destruct (buildNode_spec targets s info Hb) as (B1 & B2 & B3 & B4).
  destruct (IH _ B1) as (G1 & G2 & G3 & G4 & G5). split_and!; [done| |by auto| |].
  - intros t p [[?|?]%B2|(i & Hi & Ha)]%G2; [by left|right; exists info|right; exists i]; by rewrite elem_of_cons; auto.
  - destruct B4 as [[e He]|[He _]]; [|by rewrite <- He]. etrans; [|exact G4]. rewrite He. by apply prefix_app_r.
  - intros Herr. destruct B4 as [[e He]|[He Hok]].
    { apply prefix_length in G4. rewrite He, Herr, length_app in G4. cbn in G4. lia. }
    intros i n c [->|Hi]%elem_of_cons Hn; [|by eapply G5; [congruence|..]].
    destruct (Hok n c Hn) as [Hv Hall]. split; [done|]. intros Hport p Hp. by apply G3, Hall.
Qed.

Lemma collect_spec infos : ∀ info n c,
  info ∈ infos → hysteriaTarget info = Some (n, c) → validTarget (Panel.ServerPort c) = true →
  is_Some (collectHysteriaTargetPorts infos !! Panel.ServerPort c).
Proof.
  unfold collectHysteriaTargetPorts. generalize (∅ : gmap Z unit).
  assert (Hgrow : ∀ infos (m : gmap Z unit) t, is_Some (m !! t) → is_Some (foldl (λ targets info,
    match hysteriaTarget info with None => targets
    | Some (_, c) => if validTarget (Panel.ServerPort c) then <[Panel.ServerPort c := ()]> targets else targets end) m infos !! t)).
  { intros l. induction l as [|i l IH]; intros m t Hm; cbn; [done|]. apply IH.
    destruct (hysteriaTarget i) as [[? c]|]; [|done]. destruct (validTarget _); [|done]. apply lookup_insert_is_Some. 
    destruct (decide (Panel.ServerPort c = t)); [by left|by right]. }
  induction infos as [|i infos IH]; intros m info n c Hin Hn Hv; [by apply elem_of_nil in Hin|].
  apply elem_of_cons in Hin as [->|Hin]; cbn; [|by eapply IH]. apply Hgrow. rewrite Hn, Hv, lookup_insert_eq. by eexists.
Qed.

Lemma build_spec infos :
  ∃ s, buildHysteriaPortForwardRules quote infos = (rules s, errs s) ∧ built (collectHysteriaTargetPorts infos) s
  ∧ (∀ t p, ranged s t p → ∃ info, info ∈ infos ∧ asks info t p)
  ∧ (errs s = [] → ∀ info n c, info ∈ infos → hysteriaTarget info = Some (n, c) → validPort (Panel.ServerPort c)
       ∧ (externalPort c ≠ "" → ∀ p, asks info (Panel.ServerPort c) p → ranged s (Panel.ServerPort c) p)).
Proof.
  destruct (buildNodes_spec (collectHysteriaTargetPorts infos) infos (mkBuilding [] [] ∅ [])) as (G1 & G2 & _ & _ & G5);
    [apply built_start|].
  eexists. split_and!; [reflexivity|exact G1| |exact G5].
  intros t p [(a & Ha & _)|?]%G2; [by apply elem_of_nil in Ha|done].
Qed.

(** The rules have ports as targets and well-formed matchers. *)
Lemma build_wellFormed infos rs es :
  buildHysteriaPortForwardRules quote infos = (rs, es) → Forall (λ r, validPort (targetPort r) ∧ wellFormed (matcher r)) rs.
Proof. destruct (build_spec infos) as (s & -> & [[Hr _] _ _ _ _] & _). by intros [= <- _]. Qed.

(** C20. Whatever nodes the panel describes, contradictory ones included, and even when
    some of them are refused: a port is redirected to one target at most, to one
    that a node asked for it, and the port a Hysteria node listens on itself, if it
    is a valid one, is not redirected at all. (Nodes of other types are not looked
    at.) *)
Theorem redirects_unambiguous infos rs es r p :
  buildHysteriaPortForwardRules quote infos = (rs, es) → r ∈ rs → ruleMatches r p = true →
  (∀ r', r' ∈ rs → ruleMatches r' p = true → targetPort r' = targetPort r)
  ∧ (∃ info, info ∈ infos ∧ asks info (targetPort r) p)
  ∧ ∀ info n c, info ∈ infos → hysteriaTarget info = Some (n, c) → validTarget (Panel.ServerPort c) = true →
      p ≠ Panel.ServerPort c.
Proof.
  destruct (build_spec infos) as (s & -> & Hb & Hasks & _). intros [= <- <-] Hr Hp.
  destruct (bl_rules _ _ Hb r p Hr Hp) as (a & Ha & Hat & Hc). split_and!.
  - intros r' Hr' Hp'. destruct (bl_rules _ _ Hb r' p Hr' Hp') as (a' & Ha' & <- & Hc'). rewrite <- Hat. by eapply bl_disjoint.
  - apply Hasks. by exists a.
  - intros info n c Hi Hn Hv ->. pose proof (collect_spec infos info n c Hi Hn Hv) as Ht.
    by rewrite (bl_targets _ _ Hb a _ Ha Ht) in Hc.
Qed.

(** When no error is reported, each node of Hysteria has a port to listen on, and
    every port it asks for is redirected to it. *)
Theorem forwarding_complete infos rs info n c :
  buildHysteriaPortForwardRules quote infos = (rs, []) → info ∈ infos → hysteriaTarget info = Some (n, c) →
  0 < Panel.ServerPort c <= 65535
  ∧ (externalPort c ≠ "" → ∀ p, asks info (Panel.ServerPort c) p →
     ∃ r, r ∈ rs ∧ targetPort r = Panel.ServerPort c ∧ ruleMatches r p = true).
Proof.
  destruct (build_spec infos) as (s & -> & Hb & _ & Hall). intros [= <- Herrs] Hi Hn.
  destruct (Hall Herrs info n c Hi Hn) as [Hv Hports]. split; [done|]. intros Hport p Hp.
  destruct (Hports Hport p Hp) as (a & Ha & <- & Hc). by apply (bl_cover _ _ Hb).
Qed.

End parse.

(** ** Examples *)

Module Examples.

#[local] Instance exampleOrder : RangeOrder Z := canonical_order Z.
Definition exampleQuote (s : string) : string := s.

Definition common (port : Z) (ports : string) : Panel.CommonNode :=
  let '(Panel.mkCommonNode pr li _ _ po r b t ts ci n ns e es sn f ci' sk cc z pa up dn ob op ig tr mu) := Panel.zeroCommon in
  Panel.mkCommonNode pr li port ports po r b t ts ci n ns e es sn f ci' sk cc z pa up dn ob op ig tr mu.

Definition hysteria (id port : Z) (ports : string) : option Panel.NodeInfo :=
  Some (Panel.mkNodeInfo id "Hysteria2" 0 0 0 "t" (Some (common port ports))).

(** The second node wants ports of the first, and is refused. *)
Definition infos : list (option Panel.NodeInfo) :=
  [hysteria 1 443 "20000-20010,443"; hysteria 2 444 "20005-20020"; None; hysteria 3 445 "30000, 30002"].

Definition answer := buildHysteriaPortForwardRules exampleQuote infos.

Example answer_rules :
  (targetPort <$> answer.1, length answer.2) = ([443; 445], 1%nat)
  ∧ (args ∘ matcher <$> answer.1) = [["--dport"; "20000:20010"]; ["-m"; "multiport"; "--dports"; "30000,30002"]].
Proof. vm_compute. done. Qed.

Lemma parse_ports_exact_witness :
  match parsePortForwardMatchersAndRangesExcept exampleQuote "8000-8002, 9000" 8001 with
  | Ok (ms, rs) => length ms = 3%nat ∧ matched ms 8000 = true ∧ matched ms 8001 = false ∧ ∀ q, matched ms q = inRanges rs q
  | Err _ => False
  end.
Proof.
  destruct (parsePortForwardMatchersAndRangesExcept exampleQuote "8000-8002, 9000" 8001) as [[ms rs]|e] eqn:Hp.
  - destruct (parse_ports_exact exampleQuote _ _ _ _ Hp) as (_ & H2 & _). vm_compute in Hp. injection Hp as <- <-.
    split; [vm_compute; reflexivity|]. split; [vm_compute; reflexivity|]. split; [vm_compute; reflexivity|exact H2].
  - vm_compute in Hp. discriminate Hp.
Defined.

Lemma redirects_unambiguous_witness :
  match buildHysteriaPortForwardRules exampleQuote infos with
  | (r :: rs, es) => es ≠ [] ∧ ruleMatches r 20007 = true
      ∧ ∀ r', r' ∈ r :: rs → ruleMatches r' 20007 = true → targetPort r' = 443
  | _ => False
  end.
Proof.
  destruct (buildHysteriaPortForwardRules exampleQuote infos) as [[|r rs] es] eqn:Hb.
  { vm_compute in Hb. discriminate Hb. }
  assert (Hc : ruleMatches r 20007 = true ∧ targetPort r = 443 ∧ es ≠ []).
  { vm_compute in Hb. injection Hb as <- <- <-. by split_and!. }
  destruct Hc as (Hm & Ht & He). split; [exact He|]. split; [exact Hm|]. rewrite <- Ht.
  exact (proj1 (redirects_unambiguous exampleQuote infos (r :: rs) es r 20007 Hb (list_elem_of_here r rs) Hm)).
Defined.

Definition oneNode : Panel.NodeInfo := Panel.mkNodeInfo 1 "hysteria" 0 0 0 "t" (Some (common 443 "20000-20010")).

Lemma forwarding_complete_witness :
  ∃ r, r ∈ (buildHysteriaPortForwardRules exampleQuote [Some oneNode]).1 ∧ targetPort r = 443 ∧ ruleMatches r 20003 = true.
Proof.
  destruct (buildHysteriaPortForwardRules exampleQuote [Some oneNode]) as [rs es] eqn:Hb.
  assert (es = []) as -> by (vm_compute in Hb; by injection Hb as _ <-).
  destruct (forwarding_complete exampleQuote [Some oneNode] rs (Some oneNode) oneNode (common 443 "20000-20010") Hb
    (list_elem_of_here _ _) eq_refl) as [_ Hports]. apply Hports; [by vm_compute|].
  exists oneNode, (common 443 "20000-20010"). split_and!; [reflexivity|reflexivity|done|].
  exists "20000-20010". split; [by left|]. exists 20000, 20010. split; [vm_compute; reflexivity|lia].
Defined.

End Examples.
End PortForwardProps.
