(* ===== verification/Iptables.v ===== *)
(** * Putting the port forwarding in place (node/port_forward.go, port_forward_status.go)

    [reconcilePortForwardTool] replaces the rules of this program in the chain
    PREROUTING by the ones of PortForward.v, [inspectPortForwardTool] compares
    what is there with what should be, and [RepairHysteriaPortForward] and
    [CleanupHysteriaPortForward] do so with both tools. The commands of iptables
    are an interface; what they print is read back by [parseIptablesSpec]. Texts
    are bytes: the output is taken to be valid UTF-8. *)

From Stdlib Require Import Ascii.
From S2P Require Import Prelude GoStrings Panel PortForward.

Module Iptables.
Import GoStrings PortForward.

(** The commands, on the tables of the kernel. Listing changes nothing. *)
Class Commands := {
  Tables : Type;
  LookPath : string → bool;
  runPortForwardCommand : string → list string → Tables → Tables * option GoError;
  runPortForwardCommandOutput : string → list string → Tables → result string;
  Geteuid : Z
}.

(** ** Rule specifications *)

Definition is_quote (a : ascii) : bool := Ascii.eqb a (ascii_of_nat 34) || Ascii.eqb a (ascii_of_nat 39).

Definition is_blank (a : ascii) : bool := Ascii.eqb a " " || Ascii.eqb a (ascii_of_nat 9).

Definition pushField (builder : list ascii) (fields : list string) : list string :=
  match builder with [] => fields | _ => fields ++ [of_bytes builder] end.

(** The loop of [parseIptablesSpec]: [quote] is the open quotation mark. *)
Fixpoint spec_bytes (quote : option ascii) (builder : list ascii) (fields : list string) (l : list ascii)
    : list string :=
  match l with
  | [] => pushField builder fields
  | r :: l =>
      match quote with
      | Some q => if Ascii.eqb r q then spec_bytes None builder fields l
                  else spec_bytes quote (builder ++ [r]) fields l
      | None =>
          if is_quote r then spec_bytes (Some r) builder fields l
          else if is_blank r then spec_bytes None [] (pushField builder fields) l
          else spec_bytes None (builder ++ [r]) fields l
      end
  end.

Definition parseIptablesSpec (line : string) : list string := spec_bytes None [] [] (bytes line).

(** The loop of [isPortForwardRuleSpec], over neighbouring fields. *)
Fixpoint marked (fields : list string) : bool :=
  match fields with
  | a :: ((b :: _) as rest) =>
      (bool_decide (a = "-j") && bool_decide (b = hysteriaPortForwardChain))
      || (bool_decide (a = "--comment") && bool_decide (Trim is_quote b = hysteriaPortForwardComment))
      || marked rest
  | _ => false
  end.

Definition isPortForwardRuleSpec (fields : list string) : bool :=
  match fields with
  | a :: b :: ((_ :: _ :: _) as rest) => bool_decide (a = "-A") && bool_decide (b = "PREROUTING") && marked rest
  | _ => false
  end.

(** The loop of [normalizePortForwardSpecFields]; [previous] is the field before,
    if there is one. *)
Fixpoint normalizeFields (previous : option string) (fields : list string) : list string :=
  match fields with
  | [] => []
  | f :: rest =>
      let value := if bool_decide (previous = Some "--comment") then Trim is_quote f else f in
      match rest with
      | u :: rest' =>
          if bool_decide (f = "-m") && bool_decide (u = "udp") then normalizeFields (Some u) rest'
          else value :: normalizeFields (Some f) rest
      | [] => [value]
      end
  end.

Definition normalizePortForwardSpecFields (fields : list string) : list string := normalizeFields None fields.

Definition portForwardFieldsKey (fields : list string) : string :=
  Join (String "000"%char EmptyString) (normalizePortForwardSpecFields fields).

(** The fields of a rule, without the table. *)
Definition ruleFields (rule : portForwardRule) : list string :=
  ["-A"; "PREROUTING"; "-p"; "udp"] ++ args (matcher rule)
  ++ ["-m"; "comment"; "--comment"; hysteriaPortForwardComment]
  ++ ["-j"; "REDIRECT"; "--to-ports"; Itoa (targetPort rule)].

Definition expectedPortForwardSpecFields (rule : portForwardRule) : list string :=
  normalizePortForwardSpecFields (ruleFields rule).

Definition expectedPortForwardSpecs (rules : list portForwardRule) : list string :=
  (λ rule, Join " " (expectedPortForwardSpecFields rule)) <$> rules.

(** ** Status *)

Record HysteriaPortForwardRuleSpec := mkRuleSpec {
  Protocol : string;
  Match_ : string;
  TargetPort : Z;
  Spec : string
}.

Record HysteriaPortForwardToolStatus := mkToolStatus {
  Tool : string;
  Available : bool;
  Current : list string;
  Expected : list string;
  Missing : list string;
  Extra : list string;
  StaleChain : bool;
  Error : string
}.

Record HysteriaPortForwardStatus := mkStatus {
  Enabled : bool;
  RunningAsRoot : bool;
  UpdatedAt : string;
  ExpectedRules : list HysteriaPortForwardRuleSpec;
  Tools : list HysteriaPortForwardToolStatus;
  Errors : list string
}.

Definition describePortForwardRules (rules : list portForwardRule) : list HysteriaPortForwardRuleSpec :=
  (λ rule, mkRuleSpec "udp" (Join " " (args (matcher rule))) (targetPort rule)
             (Join " " (expectedPortForwardSpecFields rule))) <$> rules.

Definition toolNeedsRepair (tool : HysteriaPortForwardToolStatus) : bool :=
  Available tool && bool_decide (Error tool = "")
  && (negb (bool_decide (Missing tool = [])) || negb (bool_decide (Extra tool = [])) || StaleChain tool).

Definition HysteriaPortForwardNeedsRepair (status : HysteriaPortForwardStatus) : bool :=
  existsb toolNeedsRepair (Tools status).

Section tools.
Context `{Commands} (quote : string → string) {RZ : RangeOrder Z} {RS : RangeOrder string}.
Implicit Types t : Tables.

(** ** The rules that are there *)

Definition natTable (args : list string) : list string := "-t" :: "nat" :: args.

(** The lines of a listing that are rules of this program. *)
Definition ownRules (output : string) : list (list string) :=
  List.filter isPortForwardRuleSpec
    ((λ line, parseIptablesSpec (TrimSpace line)) <$> Split (ascii_of_nat 10) output).

Definition listPortForwardSpecs (tool : string) t : result (list string) :=
  match runPortForwardCommandOutput tool (natTable ["-S"; "PREROUTING"]) t with
  | Err e => Err e
  | Ok output => Ok ((λ fields, Join " " (normalizePortForwardSpecFields fields)) <$> ownRules output)
  end.

Definition portForwardChainExists (tool : string) t : bool :=
  match runPortForwardCommandOutput tool (natTable ["-S"; hysteriaPortForwardChain]) t with
  | Ok _ => true
  | Err _ => false
  end.

(** A status that was not filled in yet. *)
Definition toolStatus (tool : string) (rules : list portForwardRule) (available : bool) (error : string)
    : HysteriaPortForwardToolStatus :=
  mkToolStatus tool available [] (expectedPortForwardSpecs rules) [] [] false error.

Definition expectedKeys (rules : list portForwardRule) : gmap string string :=
  foldl (λ m rule, let fields := expectedPortForwardSpecFields rule in
                   <[portForwardFieldsKey fields := Join " " fields]> m) ∅ rules.

Definition specKey (spec : string) : string := portForwardFieldsKey (parseIptablesSpec spec).

Definition inspectPortForwardTool (tool : string) (rules : list portForwardRule) t : HysteriaPortForwardToolStatus :=
  if negb (LookPath tool) then toolStatus tool rules false ""
  else
    match listPortForwardSpecs tool t with
    | Err e => toolStatus tool rules true (err_msg e)
    | Ok current =>
        let expected := expectedKeys rules in
        let currentKeys := specKey <$> current in
        mkToolStatus tool true current (expectedPortForwardSpecs rules)
          ((λ e, e.2) <$> List.filter (λ e, bool_decide (e.1 ∉ currentKeys)) (range_list expected))
          (List.filter (λ spec, bool_decide (expected !! specKey spec = None)) current)
          (portForwardChainExists tool t) ""
    end.

(** ** Changing them *)

(** A command whose error is ignored. *)
Definition command (tool : string) (args : list string) t : Tables := (runPortForwardCommand tool args t).1.

Fixpoint deleteListed (tool : string) (specs : list (list string)) t : Tables :=
  match specs with
  | [] => t
  | fields :: specs => deleteListed tool specs (command tool (natTable ("-D" :: tail fields)) t)
  end.

(** The loop for a table that cannot be listed: it ends at the first error, which
    comes at the latest when the time of the context is over; [fuel] is the
    number of commands until then, and [None] that it was not reached. *)
Fixpoint deleteJumps (fuel : nat) (tool : string) t : option Tables :=
  match fuel with
  | O => None
  | S fuel =>
      match runPortForwardCommand tool (natTable ["-D"; "PREROUTING"; "-p"; "udp"; "-j"; hysteriaPortForwardChain]) t with
      | (t, Some _) => Some t
      | (t, None) => deleteJumps fuel tool t
      end
  end.

Definition deletePortForwardRules (fuel : nat) (tool : string) t : option Tables :=
  match runPortForwardCommandOutput tool (natTable ["-S"; "PREROUTING"]) t with
  | Ok output => Some (deleteListed tool (ownRules output) t)
  | Err _ => deleteJumps fuel tool t
  end.

(** Deleting the rules, then the chain that older versions used. *)
Definition clearTool (fuel : nat) (tool : string) t : option Tables :=
  t ← deletePortForwardRules fuel tool t;
  let t := command tool (natTable ["-F"; hysteriaPortForwardChain]) t in
  Some (command tool (natTable ["-X"; hysteriaPortForwardChain]) t).

Fixpoint appendRules (tool : string) (rules : list portForwardRule) t : Tables * option GoError :=
  match rules with
  | [] => (t, None)
  | rule :: rules =>
      match runPortForwardCommand tool (natTable (ruleFields rule)) t with
      | (t, Some e) => (t, Some e)
      | (t, None) => appendRules tool rules t
      end
  end.

Definition reconcilePortForwardTool (fuel : nat) (tool : string) (rules : list portForwardRule) t
    : option (Tables * option GoError) :=
  if negb (LookPath tool) then Some (t, None)
  else
    match clearTool fuel tool t with
    | None => None
    | Some t => Some (appendRules tool rules t)
    end.

(** ** Both tools *)

Definition newHysteriaPortForwardStatus (rules : list portForwardRule) (errs : list GoError) : HysteriaPortForwardStatus :=
  mkStatus true (Geteuid =? 0) "" (describePortForwardRules rules) [] (err_msg <$> errs).

Definition withTool (tool : HysteriaPortForwardToolStatus) (s : HysteriaPortForwardStatus) : HysteriaPortForwardStatus :=
  mkStatus (Enabled s) (RunningAsRoot s) (UpdatedAt s) (ExpectedRules s) (Tools s ++ [tool]) (Errors s).

Definition withErrorText (e : string) (s : HysteriaPortForwardStatus) : HysteriaPortForwardStatus :=
  mkStatus (Enabled s) (RunningAsRoot s) (UpdatedAt s) (ExpectedRules s) (Tools s) (Errors s ++ [e]).

Definition disabled (s : HysteriaPortForwardStatus) : HysteriaPortForwardStatus :=
  mkStatus false (RunningAsRoot s) (UpdatedAt s) (ExpectedRules s) (Tools s) (Errors s).

Definition toolNames : list string := ["iptables"; "ip6tables"].

Definition inspectTools (rules : list portForwardRule) t (s : HysteriaPortForwardStatus) : HysteriaPortForwardStatus :=
  foldl (λ s tool, withTool (inspectPortForwardTool tool rules t) s) s toolNames.

(** What [InspectHysteriaPortForward] returns, and stores as the snapshot with the
    time. *)
Definition InspectHysteriaPortForward (infos : list (option Panel.NodeInfo)) t : HysteriaPortForwardStatus :=
  let '(rules, errs) := buildHysteriaPortForwardRules quote infos in
  inspectTools rules t (newHysteriaPortForwardStatus rules errs).

Definition withToolError (e : string) (s : HysteriaPortForwardToolStatus) : HysteriaPortForwardToolStatus :=
  mkToolStatus (Tool s) (Available s) (Current s) (Expected s) (Missing s) (Extra s) (StaleChain s) e.

Definition repairTool (fuel : nat) (rules : list portForwardRule) (tool : string) (t : Tables)
    (s : HysteriaPortForwardStatus) : option (Tables * HysteriaPortForwardStatus) :=
  let before := inspectPortForwardTool tool rules t in
  if Available before then
    match reconcilePortForwardTool fuel tool rules t with
    | None => None
    | Some (t, Some e) =>
        Some (t, withTool (withToolError (err_msg e) before) (withErrorText (tool +:+ ": " +:+ err_msg e) s))
    | Some (t, None) => Some (t, withTool (inspectPortForwardTool tool rules t) s)
    end
  else Some (t, withTool before s).

Fixpoint repairTools (fuel : nat) (rules : list portForwardRule) (tools : list string) (t : Tables)
    (s : HysteriaPortForwardStatus) : option (Tables * HysteriaPortForwardStatus) :=
  match tools with
  | [] => Some (t, s)
  | tool :: tools =>
      match repairTool fuel rules tool t s with
      | None => None
      | Some (t, s) => repairTools fuel rules tools t s
      end
  end.

Definition RepairHysteriaPortForward (fuel : nat) (infos : list (option Panel.NodeInfo)) t
    : option (Tables * HysteriaPortForwardStatus) :=
  let '(rules, errs) := buildHysteriaPortForwardRules quote infos in
  let s := newHysteriaPortForwardStatus rules errs in
  if negb (RunningAsRoot s) then
    let s := inspectTools rules t s in
    Some (t, if negb (bool_decide (rules = [])) || HysteriaPortForwardNeedsRepair s
             then withErrorText "HY2 port forwarding repair requires root" s else s)
  else repairTools fuel rules toolNames t s.

Definition cleanupTool (fuel : nat) (tool : string) (t : Tables) (s : HysteriaPortForwardStatus)
    : option (Tables * HysteriaPortForwardStatus) :=
  let before := inspectPortForwardTool tool [] t in
  if Available before then
    match clearTool fuel tool t with
    | None => None
    | Some t => Some (t, withTool (inspectPortForwardTool tool [] t) s)
    end
  else Some (t, withTool before s).

Fixpoint cleanupTools (fuel : nat) (tools : list string) (t : Tables) (s : HysteriaPortForwardStatus)
    : option (Tables * HysteriaPortForwardStatus) :=
  match tools with
  | [] => Some (t, s)
  | tool :: tools =>
      match cleanupTool fuel tool t s with
      | None => None
      | Some (t, s) => cleanupTools fuel tools t s
      end
  end.

Definition CleanupHysteriaPortForward (fuel : nat) t : option (Tables * HysteriaPortForwardStatus) :=
  let s := disabled (newHysteriaPortForwardStatus [] []) in
  if negb (RunningAsRoot s)
  then Some (t, inspectTools [] t (withErrorText "HY2 port forwarding cleanup requires root" s))
  else cleanupTools fuel toolNames t s.

(** The snapshot: the last status, with the time it was stored. *)
Definition setHysteriaPortForwardStatus (now : string) (s : HysteriaPortForwardStatus) : HysteriaPortForwardStatus :=
  mkStatus (Enabled s) (RunningAsRoot s) now (ExpectedRules s) (Tools s) (Errors s).

Definition SetHysteriaPortForwardDisabled (now : string) : HysteriaPortForwardStatus :=
  setHysteriaPortForwardStatus now (mkStatus false (Geteuid =? 0) "" [] [] []).

End tools.
End Iptables.
