(* ===== verification/IptablesProps.v ===== *)
(** * Properties of putting the port forwarding in place

    What a rule looks like in a listing is read back as the rule, so that after a
    repair the comparison of Iptables.v finds nothing to do ([repair_effective]).
    What iptables does is stated by [CommandsLaws]: a listing shows what was
    added, a listed rule can be deleted, the chains of a program are its own.
    [Examples] has tables that obey these laws. *)

From Stdlib Require Import Ascii.
From S2P Require Import Prelude GoStrings GoText Panel PortForward PortForwardProps Iptables.

Module IptablesProps.
Import GoStrings GoText PortForward PortForwardProps Iptables.

(** ** Reading back what was printed *)

Definition plainByte (a : ascii) : Prop := is_quote a = false ∧ is_blank a = false.

Definition plainField (s : string) : Prop := s ≠ "" ∧ Forall plainByte (bytes s).

Lemma spec_bytes_plain b fields l rest :
  Forall plainByte l → spec_bytes None b fields (l ++ rest) = spec_bytes None (b ++ l) fields rest.
Proof.
  intros Hl. revert b. induction Hl as [|a l [Hq Hb] Hl IH]; intros b; [by rewrite app_nil_r|].
  cbn. rewrite Hq, Hb, IH. by rewrite <- app_assoc.
Qed.

Lemma pushField_plain s fields : s ≠ "" → pushField (bytes s) fields = fields ++ [s].
Proof. intros Hs. destruct s as [|a s]; [done|]. change (fields ++ [of_bytes (bytes (String a s))] = fields ++ [String a s]). by rewrite of_bytes_bytes. Qed.

Lemma spec_bytes_Join fields fs :
  fs ≠ [] → Forall plainField fs → spec_bytes None [] fields (bytes (Join " " fs)) = fields ++ fs.
Proof.
  intros Hne Hfs. revert fields. induction Hfs as [|s fs [Hs Hb] Hfs IH]; intros fields; [done|]. destruct fs as [|s' fs].
  - cbn [Join]. rewrite <- (app_nil_r (bytes s)), spec_bytes_plain by done. cbn. by apply pushField_plain.
  - change (Join " " (s :: s' :: fs)) with (s +:+ " " +:+ Join " " (s' :: fs)).
    rewrite !bytes_app, spec_bytes_plain by done. cbn -[Join]. rewrite IH by done. rewrite pushField_plain by done.
    by rewrite <- app_assoc.
Qed.

Lemma parse_Join fs : Forall plainField fs → parseIptablesSpec (Join " " fs) = fs.
Proof. intros Hfs. destruct fs; [done|]. by apply spec_bytes_Join. Qed.

Lemma portByte_plain a : portByte a → plainByte a.
Proof.
  intros [Ha|[->| ->]]; [|by split..]. unfold plainByte, is_quote, is_blank, is_digit in *.
  destruct a as [[] [] [] [] [] [] [] []]; vm_compute in Ha; by try split.
Qed.

Lemma portText_plain s : portText s → plainField s.
Proof. intros [Hs Hb]. split; [done|]. eapply Forall_impl; [exact Hb|apply portByte_plain]. Qed.

(** ** The rules of a node *)

Definition plainRule (rule : portForwardRule) : Prop := validPort (targetPort rule) ∧ wellFormed (matcher rule).

(** How a listing shows a rule: the match on the protocol may be written out. *)
Definition shows (rule : portForwardRule) (shown : list string) : Prop :=
  shown = ruleFields rule ∨ shown = ["-A"; "PREROUTING"; "-p"; "udp"; "-m"; "udp"] ++ drop 4 (ruleFields rule).

(** What holds of the bytes of port lists and of the fixed fields holds of the
    fields of a rule. *)
Lemma ruleFields_Forall (P : string → Prop) (p : string → bool) rule :
  plainRule rule → (∀ s, portText s → P s) → (∀ s, p s = true → P s) →
  forallb p ["-A"; "PREROUTING"; "-p"; "udp"; "--dport"; "-m"; "multiport"; "--dports"; "comment"; "--comment";
             hysteriaPortForwardComment; "-j"; "REDIRECT"; "--to-ports"] = true →
  Forall P (ruleFields rule).
Proof.
  intros [Hp [(s & Hs & Ha) _]] HP Hp' Hall. rewrite forallb_forall in Hall. pose proof (HP _ Hs) as Hs'.
  pose proof (HP _ (Itoa_portText _ Hp)) as Hi. unfold ruleFields.
  destruct Ha as [-> | ->]; repeat (apply Forall_cons; split; [first [assumption | apply Hp', Hall; by cbn; tauto]|]); constructor.
Qed.

Lemma ruleFields_plain rule : plainRule rule → Forall plainField (ruleFields rule).
Proof.
  intros Hr. apply (ruleFields_Forall _ (λ c, bool_decide (c ≠ "") && forallb (λ a, negb (is_quote a) && negb (is_blank a)) (bytes c))); [done| | |done].
  - apply portText_plain.
  - intros c [Hc Hb]%andb_prop. apply bool_decide_eq_true in Hc. split; [done|]. apply Forall_forall. intros a Hin.
    rewrite forallb_forall in Hb. specialize (Hb a (proj1 (base.list_elem_of_In _ _) Hin)).
    apply andb_prop in Hb as [?%negb_true_iff ?%negb_true_iff]. done.
Qed.

Lemma normalize_keep p f u rest :
  p ≠ Some "--comment" → ¬ (f = "-m" ∧ u = "udp") → normalizeFields p (f :: u :: rest) = f :: normalizeFields (Some f) (u :: rest).
Proof.
  intros Hp Hf. cbn [normalizeFields]. rewrite (bool_decide_false (p = Some "--comment")) by done.
  destruct (_ && _) eqn:E; [|done].
  apply andb_prop in E as [E1%bool_decide_eq_true E2%bool_decide_eq_true]. by destruct Hf.
Qed.

Lemma normalize_udp p rest : normalizeFields p ("-m" :: "udp" :: rest) = normalizeFields (Some "udp") rest.
Proof. done. Qed.

Lemma normalize_comment rest :
  normalizeFields (Some "--comment") (hysteriaPortForwardComment :: "-j" :: rest)
  = hysteriaPortForwardComment :: normalizeFields (Some hysteriaPortForwardComment) ("-j" :: rest).
Proof. done. Qed.

Lemma normalize_last p f : p ≠ Some "--comment" → normalizeFields p [f] = [f].
Proof. intros Hp. cbn. by rewrite bool_decide_false. Qed.

Lemma marked_later a rest : marked rest = true → marked (a :: rest) = true.
Proof. intros Hr. destruct rest; [done|]. apply orb_true_iff. by right. Qed.

(** Fields that are known to differ. *)
Ltac differ := first [intros [? ?]; congruence | intros [= ?]; congruence | discriminate | congruence].

Ltac normalize_fields :=
  repeat first
    [ rewrite normalize_udp
    | rewrite normalize_comment
    | rewrite normalize_last by differ
    | rewrite normalize_keep by differ ].

Lemma portText_literal s c : portText s → match c with String a _ => bool_decide (is_digit a = true ∨ a = ":"%char ∨ a = ","%char) = false | EmptyString => True end → s ≠ c.
Proof.
  intros [Hs Hb] Hc ->. destruct c as [|a c]; [done|]. apply bool_decide_eq_false in Hc.
  change (bytes (String a c)) with (a :: bytes c) in Hb. by apply Forall_cons in Hb as [? _].
Qed.

Lemma shows_normal rule shown :
  plainRule rule → shows rule shown → normalizePortForwardSpecFields shown = ruleFields rule ∧ isPortForwardRuleSpec shown = true.
Proof.
  intros [Hp [(s & Hs & Ha) _]] Hshown.
  assert (s ≠ "-m") by by apply portText_literal. assert (s ≠ "--comment") by by apply portText_literal.
  assert (s ≠ "udp") by by apply portText_literal. assert (s ≠ "-j") by by apply portText_literal.
  pose proof (Itoa_portText _ Hp) as Hi. assert (Itoa (targetPort rule) ≠ "udp") by by apply portText_literal.
  unfold shows, ruleFields, normalizePortForwardSpecFields, isPortForwardRuleSpec in *.
  destruct Ha as [Ha|Ha]; rewrite Ha in Hshown |- *; cbn [app drop] in Hshown |- *;
    destruct Hshown as [-> | ->]; (split; [by normalize_fields|]);
    rewrite !bool_decide_true by done; repeat first [done | apply marked_later].
Qed.

Lemma shows_self rule : shows rule (ruleFields rule).
Proof. by left. Qed.

Lemma expected_fields rule : plainRule rule → expectedPortForwardSpecFields rule = ruleFields rule.
Proof. intros Hr. by destruct (shows_normal rule _ Hr (shows_self rule)). Qed.

(** What the inspection makes of a listed rule. *)
Lemma listed_spec rule shown :
  plainRule rule → shows rule shown →
  Join " " (normalizePortForwardSpecFields shown) = Join " " (expectedPortForwardSpecFields rule)
  ∧ specKey (Join " " (expectedPortForwardSpecFields rule)) = portForwardFieldsKey (expectedPortForwardSpecFields rule).
Proof.
  intros Hr Hs. rewrite expected_fields by done. destruct (shows_normal rule shown Hr Hs) as [-> _].
  split; [done|]. unfold specKey. by rewrite parse_Join by by apply ruleFields_plain.
Qed.

Section tools.
Context `{Commands} (quote : string → string) {RZ : RangeOrder Z} {RS : RangeOrder string}.
Implicit Types t : Tables.

(** The rules of this program in a listing, if there is one. *)
Definition own (tool : string) t : option (list (list string)) :=
  match runPortForwardCommandOutput tool (natTable ["-S"; "PREROUTING"]) t with
  | Ok output => Some (ownRules output)
  | Err _ => None
  end.

(** The table of a tool has exactly these rules, in this order, and not the old
    chain. *)
Definition inPlace (tool : string) (rules : list portForwardRule) t : Prop :=
  (∃ shown, own tool t = Some shown ∧ Forall2 shows rules shown) ∧ portForwardChainExists tool t = false.

Lemma inspect_inPlace tool rules t :
  LookPath tool = true → Forall plainRule rules → inPlace tool rules t →
  inspectPortForwardTool tool rules t
  = mkToolStatus tool true (expectedPortForwardSpecs rules) (expectedPortForwardSpecs rules) [] [] false "".
Proof.
  intros Hl Hr [(shown & Hown & Hshown) Hchain]. unfold inspectPortForwardTool, listPortForwardSpecs, own in *.
  rewrite Hl, Hchain. cbn [negb]. destruct (runPortForwardCommandOutput _ _ _) as [out|]; [|done]. injection Hown as ->.
  assert (Hcur : (λ fields, Join " " (normalizePortForwardSpecFields fields)) <$> shown = expectedPortForwardSpecs rules).
  { clear -Hr Hshown. induction Hshown as [|rule fields rules shown Hs Hshown IH]; [done|]. apply Forall_cons in Hr as [Hrule Hr].
    cbn. rewrite IH by done. f_equal. by apply listed_spec. }
  rewrite Hcur. f_equal.
  - rewrite List_filter_none; [done|]. intros [k v] Hin%elem_of_range_list. apply bool_decide_eq_false. intros Hk. apply Hk.
    destruct (proj1 (foldl_insert_is_Some _ _ _ _ _) (ex_intro _ v Hin)) as [[? Hn]|(rule & Hrule & ->)]; [by rewrite lookup_empty in Hn|].
    rewrite Forall_forall in Hr. destruct (listed_spec rule _ (Hr rule Hrule) (shows_self rule)) as [_ <-]. cbn [fst].
    apply list_elem_of_fmap_2. by apply (list_elem_of_fmap_2 (λ r, Join " " (expectedPortForwardSpecFields r))).
  - apply List_filter_none. intros spec Hspec. apply list_elem_of_fmap in Hspec as (rule & -> & Hrule). apply bool_decide_eq_false. intros Hn.
    rewrite Forall_forall in Hr. destruct (listed_spec rule _ (Hr rule Hrule) (shows_self rule)) as [_ Hk]. cbv beta in Hn. rewrite Hk in Hn.
    apply eq_None_not_Some in Hn. apply Hn. apply foldl_insert_is_Some. right. by exists rule.
Qed.

(** ** What iptables does *)

Class CommandsLaws := {
  (** tables that the tool can list *)
  valid : string → Tables → Prop;
  own_valid tool t : valid tool t → is_Some (own tool t);
  (** a rule is deleted by its listed fields *)
  delete_first tool t fields rest :
    valid tool t → own tool t = Some (fields :: rest) →
    let t' := command tool (natTable ("-D" :: tail fields)) t in valid tool t' ∧ own tool t' = Some rest;
  (** flushing and deleting the old chain does not touch PREROUTING, and without a
      rule that jumps to it the chain is gone then *)
  chain_cleared tool t :
    valid tool t → own tool t = Some [] →
    let t' := command tool (natTable ["-X"; hysteriaPortForwardChain])
                (command tool (natTable ["-F"; hysteriaPortForwardChain]) t) in
    valid tool t' ∧ own tool t' = Some [] ∧ portForwardChainExists tool t' = false;
  (** what was appended is listed last *)
  append_listed tool t t' rule before :
    valid tool t → plainRule rule → own tool t = Some before →
    runPortForwardCommand tool (natTable (ruleFields rule)) t = (t', None) →
    valid tool t' ∧ portForwardChainExists tool t' = portForwardChainExists tool t
    ∧ ∃ shown, shows rule shown ∧ own tool t' = Some (before ++ [shown]);
  (** the tables of IPv4 and IPv6 are separate *)
  other_tool tool tool' args t :
    tool ≠ tool' →
    (valid tool' (runPortForwardCommand tool args t).1 ↔ valid tool' t)
    ∧ ∀ args', runPortForwardCommandOutput tool' args' (runPortForwardCommand tool args t).1
               = runPortForwardCommandOutput tool' args' t
}.

Context `{CommandsLaws}.

(** *** One tool *)

Lemma deleteListed_spec tool l t :
  valid tool t → own tool t = Some l → valid tool (deleteListed tool l t) ∧ own tool (deleteListed tool l t) = Some [].
Proof.
  revert t. induction l as [|fields l IH]; intros t Hv Ho; cbn; [done|].
  destruct (delete_first tool t fields l Hv Ho) as [Hv' Ho']. by apply IH.
Qed.

Lemma clearTool_spec fuel tool t :
  valid tool t → ∃ t', clearTool fuel tool t = Some t' ∧ valid tool t' ∧ own tool t' = Some [] ∧ portForwardChainExists tool t' = false.
Proof.
  intros Hv. destruct (own_valid tool t Hv) as [l Hl]. destruct (deleteListed_spec tool l t Hv Hl) as [Hv' Ho'].
  unfold clearTool, deletePortForwardRules. unfold own in Hl. destruct (runPortForwardCommandOutput _ _ _) as [out|]; [|done].
  injection Hl as ->. eexists. split; [reflexivity|]. by apply chain_cleared.
Qed.

Lemma appendRules_spec tool rules t t' before :
  valid tool t → Forall plainRule rules → own tool t = Some before → appendRules tool rules t = (t', None) →
  valid tool t' ∧ portForwardChainExists tool t' = portForwardChainExists tool t
  ∧ ∃ shown, Forall2 shows rules shown ∧ own tool t' = Some (before ++ shown).
Proof.
  intros Hv Hr. revert t before Hv. induction Hr as [|rule rules Hrule Hr IH]; intros t before Hv Ho; cbn.
  { intros [= <-]. split_and!; [done|done|]. exists []. by rewrite app_nil_r. }
  destruct (runPortForwardCommand _ _ _) as [t1 [e|]] eqn:Hrun; [done|]. intros Happ.
  destruct (append_listed _ _ _ _ _ Hv Hrule Ho Hrun) as (Hv1 & Hc1 & sh & Hsh & Ho1).
  destruct (IH t1 _ Hv1 Ho1 Happ) as (Hv' & Hc' & shown & Hshown & Ho'). split_and!; [done|congruence|].
  exists (sh :: shown). split; [by constructor|]. by rewrite Ho', <- app_assoc.
Qed.

(** A repaired tool. *)
Lemma reconcile_spec fuel tool rules t :
  LookPath tool = true → valid tool t → Forall plainRule rules →
  ∃ t' e, reconcilePortForwardTool fuel tool rules t = Some (t', e) ∧ (e = None → inPlace tool rules t').
Proof.
  intros Hl Hv Hr. destruct (clearTool_spec fuel tool t Hv) as (t1 & Hc & Hv1 & Ho1 & Hch).
  unfold reconcilePortForwardTool. rewrite Hl, Hc. cbn [negb]. destruct (appendRules tool rules t1) as [t' e] eqn:Happ.
  exists t', e. split; [done|]. intros ->. destruct (appendRules_spec _ _ _ _ _ Hv1 Hr Ho1 Happ) as (_ & Hch' & shown & Hs & Ho').
  split; [by exists shown|congruence].
Qed.

(** *** The other tool *)

(** What a tool can see is unchanged. *)
Definition unseen (tool : string) t t' : Prop :=
  (valid tool t' ↔ valid tool t) ∧ ∀ args, runPortForwardCommandOutput tool args t' = runPortForwardCommandOutput tool args t.

#[local] Instance unseen_preorder tool : PreOrder (unseen tool).
Proof.
  split; [by intros t; split|]. intros t1 t2 t3 [Hv1 Ho1] [Hv2 Ho2]. split; [by rewrite Hv2|]. intros args. by rewrite Ho2.
Qed.

Lemma unseen_inPlace tool rules t t' : unseen tool t t' → inPlace tool rules t → inPlace tool rules t'.
Proof. intros [_ Ho]. unfold inPlace, own, portForwardChainExists. by rewrite !Ho. Qed.

Lemma command_unseen tool tool' args t : tool ≠ tool' → unseen tool' t (runPortForwardCommand tool args t).1.
Proof. apply other_tool. Qed.

Lemma deleteListed_unseen tool tool' l t : tool ≠ tool' → unseen tool' t (deleteListed tool l t).
Proof.
  intros Hne. revert t. induction l as [|fields l IH]; intros t; cbn; [done|]. etrans; [by apply command_unseen|apply IH].
Qed.

Lemma deleteJumps_unseen fuel tool tool' t t' : tool ≠ tool' → deleteJumps fuel tool t = Some t' → unseen tool' t t'.
Proof.
  intros Hne. revert t. induction fuel as [|fuel IH]; intros t; cbn; [done|].
  pose proof (command_unseen tool tool' (natTable ["-D"; "PREROUTING"; "-p"; "udp"; "-j"; hysteriaPortForwardChain]) t Hne) as Hc.
  destruct (runPortForwardCommand _ _ _) as [t1 [e|]]; [by intros [= <-]|]. intros Hrest. etrans; [exact Hc|by apply IH].
Qed.

Lemma clearTool_unseen fuel tool tool' t t' : tool ≠ tool' → clearTool fuel tool t = Some t' → unseen tool' t t'.
Proof.
  intros Hne. unfold clearTool. destruct (deletePortForwardRules fuel tool t) as [t1|] eqn:Hd; [|done]. intros [= <-].
  trans t1; [|etrans; by apply command_unseen]. unfold deletePortForwardRules in Hd.
  destruct (runPortForwardCommandOutput _ _ _); [injection Hd as <-; by apply deleteListed_unseen|by eapply deleteJumps_unseen].
Qed.

Lemma appendRules_unseen tool tool' rules t : tool ≠ tool' → unseen tool' t (appendRules tool rules t).1.
Proof.
  intros Hne. revert t. induction rules as [|rule rules IH]; intros t; cbn; [done|].
  pose proof (command_unseen tool tool' (natTable (ruleFields rule)) t Hne) as Hc.
  destruct (runPortForwardCommand _ _ _) as [t1 [e|]]; [done|]. etrans; [exact Hc|apply IH].
Qed.

Lemma reconcile_unseen fuel tool tool' rules t t' e :
  tool ≠ tool' → reconcilePortForwardTool fuel tool rules t = Some (t', e) → unseen tool' t t'.
Proof.
  intros Hne. unfold reconcilePortForwardTool. destruct (LookPath tool); [|by intros [= <- _]]. cbn [negb].
  destruct (clearTool fuel tool t) as [t1|] eqn:Hc; [|done]. intros [= Ha].
  etrans; [by eapply clearTool_unseen|]. by pose proof (appendRules_unseen tool tool' rules t1 Hne) as Hu; rewrite Ha in Hu.
Qed.

(** *** Both tools *)

Lemma inspect_Available tool rules t : Available (inspectPortForwardTool tool rules t) = LookPath tool.
Proof. unfold inspectPortForwardTool. destruct (LookPath tool); [|done]. cbn [negb]. by destruct (listPortForwardSpecs tool t). Qed.

Lemma inspect_clean tool rules t :
  Forall plainRule rules → (LookPath tool = true → inPlace tool rules t) →
  toolNeedsRepair (inspectPortForwardTool tool rules t) = false.
Proof.
  intros Hr Hp. destruct (LookPath tool) eqn:Hl; [by rewrite inspect_inPlace by auto|].
  unfold toolNeedsRepair. by rewrite inspect_Available, Hl.
Qed.

Lemma repairTool_spec fuel rules tool t s :
  (LookPath tool = true → valid tool t) → Forall plainRule rules →
  ∃ t' s' st es, repairTool fuel rules tool t s = Some (t', s') ∧ Tools s' = Tools s ++ [st] ∧ Errors s' = Errors s ++ es
  ∧ (es = [] → (LookPath tool = true → inPlace tool rules t') ∧ toolNeedsRepair st = false)
  ∧ ∀ tool', tool ≠ tool' → unseen tool' t t'.
Proof.
  intros Hv Hr. unfold repairTool. rewrite inspect_Available. destruct (LookPath tool) eqn:Hl.
  2: { eexists _, _, _, []. split; [done|]. split; [done|]. split; [by rewrite app_nil_r|].
       split; [|done]. intros _. split; [done|]. apply inspect_clean; [done|]. by rewrite Hl. }
  destruct (reconcile_spec fuel tool rules t Hl (Hv eq_refl) Hr) as (t' & e & Hrec & Hok). rewrite Hrec.
  assert (Hu : ∀ tool', tool ≠ tool' → unseen tool' t t') by (intros tool' Hne; by eapply reconcile_unseen).
  destruct e as [e|]; eexists _, _, _, _; (split; [done|]); (split; [done|]).
  - split; [done|]. by split.
  - split; [by rewrite app_nil_r|]. split; [|done]. intros _. specialize (Hok eq_refl). split; [done|]. by apply inspect_clean.
Qed.

(** Both tools, one after the other. *)
Lemma repairTools_spec fuel rules t s :
  (∀ tool, tool ∈ toolNames → LookPath tool = true → valid tool t) → Forall plainRule rules → Tools s = [] →
  ∃ t' s', repairTools fuel rules toolNames t s = Some (t', s')
  ∧ (Errors s' = [] →
     HysteriaPortForwardNeedsRepair s' = false
     ∧ ∀ tool, tool ∈ toolNames → LookPath tool = true → inPlace tool rules t').
Proof.
  intros Hvalid Hr HT. unfold toolNames in *. cbn [repairTools].
  destruct (repairTool_spec fuel rules "iptables" t s) as (t1 & s1 & st1 & es1 & -> & HT1 & HE1 & H1 & U1);
    [intros Hl; apply Hvalid; [by left|done]|done|].
  destruct (repairTool_spec fuel rules "ip6tables" t1 s1) as (t2 & s2 & st2 & es2 & -> & HT2 & HE2 & H2 & U2);
    [intros Hl; apply (U1 "ip6tables" ltac:(discriminate)), Hvalid; [by right; left|done]|done|].
  exists t2, s2. split; [done|]. intros Herr. rewrite HE2, HE1 in Herr.
  apply app_nil in Herr as [Herr He2]. apply app_nil in Herr as [_ He1].
  destruct (H1 He1) as [P1 C1]. destruct (H2 He2) as [P2 C2]. split.
  - unfold HysteriaPortForwardNeedsRepair. rewrite HT2, HT1, HT. cbn. by rewrite C1, C2.
  - intros tool Hin Hl. apply elem_of_cons in Hin as [->|Hin].
    + by apply (unseen_inPlace _ _ _ _ (U2 "iptables" ltac:(discriminate))), P1.
    + apply list_elem_of_singleton in Hin as ->. by apply P2.
Qed.

(** C19. When deleting, flushing and listing do not fail on a table that is valid
    (the code does not look at the errors of deletions), a repair as root ends, and
    if it reports no error, the table of each tool that is installed has exactly the
    rules of the nodes, in order, and nothing of older versions: neither its own
    status nor a later inspection asks for another repair. *)
Theorem repair_effective fuel infos t :
  Geteuid = 0 → (∀ tool, tool ∈ toolNames → LookPath tool = true → valid tool t) →
  ∃ t' s, RepairHysteriaPortForward quote fuel infos t = Some (t', s)
  ∧ (Errors s = [] →
     HysteriaPortForwardNeedsRepair s = false
     ∧ (∀ tool, tool ∈ toolNames → LookPath tool = true → inPlace tool (buildHysteriaPortForwardRules quote infos).1 t')
     ∧ HysteriaPortForwardNeedsRepair (InspectHysteriaPortForward quote infos t') = false).
Proof.
  intros Hroot Hvalid. unfold RepairHysteriaPortForward, InspectHysteriaPortForward.
  destruct (buildHysteriaPortForwardRules quote infos) as [rules errs] eqn:Hb. apply build_wellFormed in Hb. cbn [RunningAsRoot newHysteriaPortForwardStatus].
  rewrite Hroot, Z.eqb_refl. cbn [negb].
  destruct (repairTools_spec fuel rules t (newHysteriaPortForwardStatus rules errs) Hvalid Hb eq_refl) as (t' & s & Hs & Hok).
  exists t', s. split; [exact Hs|]. intros He. destruct (Hok He) as [Hn Hp]. split_and!; [done|done|].
  unfold HysteriaPortForwardNeedsRepair, inspectTools. cbn. rewrite !inspect_clean; try done; intros Hl; apply Hp; try done; [by right; left|by left].
Qed.

End tools.

(** ** Tables that obey the laws *)

Module Examples.

#[local] Instance exampleOrder : RangeOrder Z := canonical_order Z.
#[local] Instance exampleOrderS : RangeOrder string := canonical_order string.

(** The rules of this program in a table, and whether the old chain is there. *)
Record Table := mkTable { prerouting : list (list string); chain : bool }.

Definition table (tool : string) (ts : gmap string Table) : Table := default (mkTable [] false) (ts !! tool).

(** What is appended is listed with the match on the protocol written out. *)
Definition listed (fields : list string) : list string :=
  match fields with
  | a :: b :: c :: d :: rest => a :: b :: c :: d :: "-m" :: "udp" :: rest
  | _ => fields
  end.

Fixpoint remove_first (fields : list string) (l : list (list string)) : option (list (list string)) :=
  match l with
  | [] => None
  | x :: l => if decide (x = fields) then Some l else cons x <$> remove_first fields l
  end.

Definition failed : GoError := errorf "exit status 1".

Definition runExample (tool : string) (args : list string) (ts : gmap string Table) : gmap string Table * option GoError :=
  let t := table tool ts in
  let set t := (<[tool := t]> ts, None) in
  match args with
  | _ :: _ :: cmd :: rest =>
      if bool_decide (cmd = "-A") then set (mkTable (prerouting t ++ [listed (cmd :: rest)]) (chain t))
      else if bool_decide (cmd = "-D") then
        match remove_first ("-A" :: rest) (prerouting t) with
        | Some l => set (mkTable l (chain t))
        | None => (ts, Some failed)
        end
      else if bool_decide (cmd = "-F") then (if chain t then (ts, None) else (ts, Some failed))
      else if bool_decide (cmd = "-X") then set (mkTable (prerouting t) false)
      else (ts, Some failed)
  | _ => (ts, Some failed)
  end.

Definition newline : string := String (ascii_of_nat 10) EmptyString.

Definition listExample (tool : string) (args : list string) (ts : gmap string Table) : result string :=
  let t := table tool ts in
  if bool_decide (args = natTable ["-S"; "PREROUTING"]) then Ok (Join newline (Join " " <$> prerouting t))
  else if chain t then Ok "" else Err failed.

#[local] Instance exampleCommands : Commands :=
  Build_Commands (gmap string Table) (λ tool, bool_decide (tool ∈ toolNames)) runExample listExample 0.

Definition exampleRules (l : list (list string)) : Prop :=
  Forall (λ fields, ∃ rule, plainRule rule ∧ fields = listed (ruleFields rule)) l.

Lemma listed_shows rule : shows rule (listed (ruleFields rule)).
Proof. by right. Qed.

(** *** The listing is read back *)

Lemma bytes_Join_snoc fs x : ∃ m, bytes (Join " " (fs ++ [x])) = m ++ bytes x.
Proof.
  induction fs as [|f fs [m IH]]; [by exists []|]. exists (bytes f ++ bytes " " ++ m).
  assert (E : Join " " ((f :: fs) ++ [x]) = f +:+ " " +:+ Join " " (fs ++ [x])) by by destruct fs.
  by rewrite E, !bytes_app, IH, <- !app_assoc.
Qed.

Lemma portText_last s : portText s → ∃ m b, bytes s = m ++ [b] ∧ graphic b.
Proof.
  intros [Hs Hb]. destruct (bytes s) as [|a l _] eqn:E using rev_ind; [by destruct s|].
  exists l, a. split; [done|]. apply Forall_app in Hb as [_ Hb]. apply Forall_cons in Hb as [Hb _].
  destruct Hb as [Hd|[->| ->]]; [|by split..]. unfold is_digit in Hd.
  by destruct a as [[] [] [] [] [] [] [] []]; vm_compute in Hd; try done; split.
Qed.

(** No field has a line break. *)
Definition oneLine (s : string) : Prop := Forall (λ a, a ≠ ascii_of_nat 10) (bytes s).

Lemma listed_line rule :
  plainRule rule →
  oneLine (Join " " (listed (ruleFields rule))) ∧ parseIptablesSpec (TrimSpace (Join " " (listed (ruleFields rule)))) = listed (ruleFields rule).
Proof.
  intros Hr. pose proof Hr as [Hp _]. split.
  - apply bytes_Join; [by repeat constructor|].
    assert (Hf : Forall oneLine (ruleFields rule)).
    { apply (ruleFields_Forall _ (λ c, forallb (λ a, negb (Ascii.eqb a (ascii_of_nat 10))) (bytes c))); [done| | |done].
      - intros s [_ Hs]. eapply Forall_impl; [exact Hs|]. intros a [Ha|[->| ->]]; [intros ->; vm_compute in Ha|..]; done.
      - intros s Hs. apply Forall_forall. intros a Hin ->. rewrite forallb_forall in Hs.
        specialize (Hs _ (proj1 (base.list_elem_of_In _ _) Hin)). by vm_compute in Hs. }
    unfold ruleFields in *. cbn [app listed] in *. rewrite !Forall_cons in *. split_and!; first [tauto | by repeat constructor].
  - assert (Hpl : Forall plainField (listed (ruleFields rule))).
    { pose proof (ruleFields_plain rule Hr) as Hf. unfold ruleFields in *. cbn [app listed] in *. rewrite !Forall_cons in *.
      split_and!; first [tauto | by repeat constructor]. }
    destruct (portText_last _ (Itoa_portText _ Hp)) as (m & b & Hb & Hg).
    assert (E : ∃ fs, listed (ruleFields rule) = fs ++ [Itoa (targetPort rule)]).
    { exists (listed (["-A"; "PREROUTING"; "-p"; "udp"] ++ args (matcher rule)
        ++ ["-m"; "comment"; "--comment"; hysteriaPortForwardComment; "-j"; "REDIRECT"; "--to-ports"])).
      unfold ruleFields. cbn [app listed]. by rewrite <- !app_assoc. }
    destruct E as [fs E]. destruct (bytes_Join_snoc fs (Itoa (targetPort rule))) as [m' Hm'].
    rewrite (TrimSpace_graphic _ "-"%char (tail (bytes (Join " " (listed (ruleFields rule))))) (m' ++ m) b); [by apply parse_Join|done| | |done].
    + by rewrite E, Hm', Hb, app_assoc.
    + by split.
Qed.

Lemma own_example tool (ts : Tables) : exampleRules (prerouting (table tool ts)) → own tool ts = Some (prerouting (table tool ts)).
Proof.
  intros Hr. unfold own. cbn [runPortForwardCommandOutput exampleCommands]. unfold listExample. rewrite bool_decide_true by done.
  f_equal. unfold ownRules. destruct (prerouting (table tool ts)) as [|f l]; [done|].
  rewrite (Split_Join (ascii_of_nat 10)); [|done|].
  - induction Hr as [|f' l' (rule & Hrule & ->) Hr IH]; [done|]. cbn [fmap list_fmap].
    rewrite (proj2 (listed_line rule Hrule)). cbn [List.filter].
    rewrite (proj2 (shows_normal rule _ Hrule (listed_shows rule))). f_equal. apply IH.
  - apply Forall_fmap. eapply Forall_impl; [exact Hr|]. intros x (rule & Hrule & ->). by apply listed_line.
Qed.

Lemma table_insert tool tool' t ts : table tool (<[tool' := t]> ts) = if decide (tool' = tool) then t else table tool ts.
Proof. unfold table. case_decide as E; [by rewrite E, lookup_insert_eq|by rewrite lookup_insert_ne]. Qed.

Lemma runExample_other tool tool' args ts : tool ≠ tool' → table tool' (runExample tool args ts).1 = table tool' ts.
Proof.
  intros Hne. unfold runExample. destruct args as [|a [|b [|c args]]]; try done.
  repeat case_bool_decide; cbn [fst]; try destruct (remove_first _ _); try destruct (chain _); cbn [fst];
    rewrite ?table_insert, ?decide_False by done; done.
Qed.

Lemma delete_example tool (ts : Tables) fields rest :
  exampleRules (prerouting (table tool ts)) → prerouting (table tool ts) = fields :: rest →
  table tool (command tool (natTable ("-D" :: tail fields)) ts) = mkTable rest (chain (table tool ts)).
Proof.
  intros Hr Hp. unfold exampleRules in Hr. rewrite Hp in Hr. apply Forall_cons in Hr as [(rule & _ & Hf) _].
  unfold command. cbn [runPortForwardCommand exampleCommands]. unfold runExample, natTable. rewrite Hp.
  rewrite (bool_decide_false ("-D" = "-A")), (bool_decide_true ("-D" = "-D")) by done. cbn [remove_first].
  assert (Hhead : "-A" :: tail fields = fields) by by rewrite Hf. rewrite Hhead, decide_True by done.
  cbn [fst]. by rewrite table_insert, decide_True.
Qed.

#[local] Instance exampleLaws : CommandsLaws.
Proof.
  refine {| valid tool ts := exampleRules (prerouting (table tool ts)) |}.
  - intros tool ts Hv. by rewrite own_example.
  - intros tool ts fields rest Hv Ho. rewrite own_example in Ho by done. injection Ho as Ho. intros ts'.
    assert (E : table tool ts' = mkTable rest (chain (table tool ts))) by by eapply delete_example.
    assert (Hv' : exampleRules (prerouting (table tool ts'))).
    { rewrite E. unfold exampleRules in *. rewrite Ho in Hv. by apply Forall_cons in Hv as [_ Hv]. }
    split; [done|]. rewrite own_example by done. by rewrite E.
  - intros tool ts Hv Ho. rewrite own_example in Ho by done. injection Ho as Ho. intros ts'.
    assert (E : table tool ts' = mkTable [] false).
    { unfold ts', command. cbn [runPortForwardCommand exampleCommands]. unfold runExample, natTable.
      rewrite !(bool_decide_false ("-F" = _)), (bool_decide_true ("-F" = "-F")) by done.
      rewrite !(bool_decide_false ("-X" = _)), (bool_decide_true ("-X" = "-X")) by done.
      destruct (chain (table tool ts)); cbn [fst]; by rewrite table_insert, decide_True, Ho. }
    split_and!.
    + rewrite E. constructor.
    + rewrite own_example by (rewrite E; constructor). by rewrite E.
    + unfold portForwardChainExists. cbn [runPortForwardCommandOutput exampleCommands]. unfold listExample.
      rewrite bool_decide_false by done. by rewrite E.
  - intros tool ts ts' rule before Hv Hrule Ho. rewrite own_example in Ho by done. injection Ho as Ho.
    change (natTable (ruleFields rule)) with ("-t" :: "nat" :: "-A" :: tail (ruleFields rule)).
    cbn [runPortForwardCommand exampleCommands]. unfold runExample. rewrite (bool_decide_true ("-A" = "-A")) by done.
    change ("-A" :: tail (ruleFields rule)) with (ruleFields rule). intros [= <-].
    set (ts' := <[tool := mkTable (prerouting (table tool ts) ++ [listed (ruleFields rule)]) (chain (table tool ts))]> ts).
    assert (E : table tool ts' = mkTable (prerouting (table tool ts) ++ [listed (ruleFields rule)]) (chain (table tool ts)))
      by by unfold ts'; rewrite table_insert, decide_True.
    assert (Hv' : exampleRules (prerouting (table tool ts'))).
    { rewrite E. apply Forall_app. split; [done|]. constructor; [by exists rule|constructor]. }
    split_and!; [done| |].
    + change (portForwardChainExists tool ts' = portForwardChainExists tool ts).
      unfold portForwardChainExists. cbn [runPortForwardCommandOutput exampleCommands]. unfold listExample.
      rewrite !(bool_decide_false (natTable _ = _)) by done. by rewrite E.
    + exists (listed (ruleFields rule)). split; [by right|].
      change (own tool ts' = Some (before ++ [listed (ruleFields rule)])). rewrite own_example by done. by rewrite E, <- Ho.
  - intros tool tool' args ts Hne. pose proof (runExample_other tool tool' args ts Hne) as E.
    change (table tool' (runPortForwardCommand tool args ts).1 = table tool' ts) in E. split; [by rewrite E|]. intros args'.
    change (listExample tool' args' (runPortForwardCommand tool args ts).1 = listExample tool' args' ts).
    unfold listExample. by rewrite E.
Defined.

(** Tables with a rule of an earlier configuration and the chain of an old
    version. *)
Definition oldRule : portForwardRule := mkRule (mkMatcher ["--dport"; "1000:2000"] 0) 8443.

Definition oldTables : Tables := <["iptables" := mkTable [listed (ruleFields oldRule)] true]> ∅.

Lemma oldRule_plain : plainRule oldRule.
Proof.
  split; [done|]. split; [|done]. exists "1000:2000". split; [|by left]. split; [done|].
  repeat (apply Forall_cons; split; [first [by left | by right; left]|]). constructor.
Qed.

Lemma oldTables_valid tool : valid tool oldTables.
Proof.
  cbn [valid exampleLaws]. unfold oldTables. rewrite table_insert. case_decide; [|constructor].
  constructor; [|constructor]. exists oldRule. split; [exact oldRule_plain|reflexivity].
Qed.

Definition oneHysteria : list (option Panel.NodeInfo) := [Some PortForwardProps.Examples.oneNode].

Definition exampleRepair : option (Tables * HysteriaPortForwardStatus) :=
  RepairHysteriaPortForward PortForwardProps.Examples.exampleQuote 0 oneHysteria oldTables.

(** The errors, and how many rules each table has. *)
Definition observed (r : option (Tables * HysteriaPortForwardStatus)) : option (list string * nat * nat) :=
  match r with
  | Some (ts, s) => Some (Errors s, length (prerouting (table "iptables" ts)), length (prerouting (table "ip6tables" ts)))
  | None => None
  end.

Lemma repair_effective_witness :
  HysteriaPortForwardNeedsRepair (InspectHysteriaPortForward PortForwardProps.Examples.exampleQuote oneHysteria oldTables) = true
  ∧ observed exampleRepair = Some ([], 1%nat, 1%nat)
  ∧ match exampleRepair with Some (_, s) => HysteriaPortForwardNeedsRepair s = false | None => False end.
Proof.
  split; [vm_compute; reflexivity|]. assert (Ho : observed exampleRepair = Some ([], 1%nat, 1%nat)) by (vm_compute; reflexivity).
  split; [exact Ho|]. unfold exampleRepair in *.
  destruct (repair_effective PortForwardProps.Examples.exampleQuote 0 oneHysteria oldTables) as (ts & s & Hrep & Hok).
  - reflexivity.
  - intros tool _ _. apply oldTables_valid.
  - rewrite Hrep in Ho |- *. apply Hok. cbn [observed] in Ho. congruence.
Defined.

End Examples.
End IptablesProps.
