(* ===== verification/CustomRouting.v ===== *)
(** * Routing, DNS and outbounds of the core (core/custom.go)

    [GetCustomConfig] translates the routes of all nodes into the rules of
    Xray's router, its DNS servers and its outbounds. The rules are JSON objects;
    a [Rule] has their members. Parsing addresses, decoding a custom outbound
    and building the configurations are Xray's and an interface. *)

From S2P Require Import Prelude GoStrings Panel Conf Inbound.

Module CustomRouting.
Import GoStrings.

(** A slice of the panel; [None] is nil, which is encoded as null. *)
Definition Strings : Type := option (list string).

(** A rule as it is encoded, with the members it has: what it matches and where
    it leads. *)
Record Rule := mkRule {
  inboundTag : option string;
  domain : option Strings;
  ip : option Strings;
  port : option string;
  protocol : option Strings;
  network : option string;
  outboundTag : string
}.

Class XrayRouting := {
  Address : Type;
  ParseAddress : string → Address;
  OutboundHandlerConfig : Type;
  Tag : OutboundHandlerConfig → string;
  buildOutbound : Inbound.OutboundDetourConfig → option OutboundHandlerConfig;
  (** [json.Unmarshal] into an [OutboundDetourConfig] *)
  CustomOutbound : Type;
  unmarshalOutbound : string → option CustomOutbound;
  customTag : CustomOutbound → string;
  buildCustom : CustomOutbound → option OutboundHandlerConfig;
  DnsConfig : Type;
  RouterConfig : Type;
  buildDns : string → list (Address * Strings) → result DnsConfig;
  buildRouter : string → list Rule → result RouterConfig
}.

Section custom.
Context `{XrayRouting}.

(** ** DNS settings *)

Definition configuredDNSServers (cfg : option Conf.Conf) : list string :=
  let servers := match cfg with
                 | Some c => List.filter (λ s, negb (bool_decide (s = ""))) (TrimSpace <$> Conf.Servers (Conf.cf_DNS c))
                 | None => []
                 end in
  if bool_decide (servers = []) then ["1.1.1.1"; "8.8.8.8"] else servers.

Definition configuredIPStrategy (cfg : option Conf.Conf) : string :=
  let strategy := match cfg with Some c => TrimSpace (Conf.QueryStrategy (Conf.cf_DNS c)) | None => "" end in
  if bool_decide (strategy ∈ ["AsIs"; "UseIP"; "UseIPv4"; "UseIPv6"; "UseIPv4v6"; "UseIPv6v4"])
  then strategy else "UseIPv4".

(** ** Routes *)

(** The variables of [GetCustomConfig]; a standard outbound that does not build is
    nil in the list. *)
Record Building := mkBuilding {
  servers : list (Address * Strings);
  outbounds : list (option OutboundHandlerConfig);
  ruleList : list Rule
}.

Definition hasOutboundWithTag (l : list (option OutboundHandlerConfig)) (tag : string) : bool :=
  existsb (λ o, match o with Some o => bool_decide (Tag o = tag) | None => false end) l.

Definition addRule (r : Rule) (b : Building) : Building := mkBuilding (servers b) (outbounds b) (ruleList b ++ [r]).

Definition addServer (value : string) (domains : Strings) (b : Building) : Building :=
  mkBuilding (servers b ++ [(ParseAddress value, domains)]) (outbounds b) (ruleList b).

(** The outbound of a route, unless there is one with its tag or it does not
    build. *)
Definition addOutbound (o : CustomOutbound) (b : Building) : Building :=
  if hasOutboundWithTag (outbounds b) (customTag o) then b
  else
    match buildCustom o with
    | None => b
    | Some built => mkBuilding (servers b) (outbounds b ++ [Some built]) (ruleList b)
    end.

(** A route with an outbound of its own: the rule, then the outbound. *)
Definition customRoute (value : option string) (rule : string → Rule) (b : Building) : Building :=
  match value ≫= unmarshalOutbound with
  | None => b
  | Some o => addOutbound o (addRule (rule (customTag o)) b)
  end.

Definition routeStep (tag : string) (b : Building) (route : Panel.Route) : Building :=
  let action := Panel.Action route in
  let m := Panel.Match route in
  if bool_decide (action = "dns") then
    match Panel.ActionValue route with
    | None => b
    | Some value => addServer value m b
    end
  else if bool_decide (action = "block") then addRule (mkRule (Some tag) (Some m) None None None None "block") b
  else if bool_decide (action = "block_ip") then addRule (mkRule (Some tag) None (Some m) None None None "block") b
  else if bool_decide (action = "block_port") then
    addRule (mkRule (Some tag) None None (Some (Join "," (default [] m))) None None "block") b
  else if bool_decide (action = "protocol") then addRule (mkRule (Some tag) None None None (Some m) None "block") b
  else if bool_decide (action = "route") then
    customRoute (Panel.ActionValue route) (λ out, mkRule (Some tag) (Some m) None None None None out) b
  else if bool_decide (action = "route_ip") then
    customRoute (Panel.ActionValue route) (λ out, mkRule (Some tag) None (Some m) None None None out) b
  else if bool_decide (action = "default_out") then
    customRoute (Panel.ActionValue route) (λ out, mkRule (Some tag) None None None None (Some "tcp,udp") out) b
  else b.

(** The routes of a node; [None] is the panic of a node without settings. *)
Definition nodeStep (b : Building) (n : Panel.NodeInfo) : option Building :=
  match Panel.Common n with
  | None => None
  | Some c => Some (foldl (routeStep (Panel.Tag n)) b (default [] (Panel.Routes c)))
  end.

Fixpoint nodeSteps (b : Building) (infos : list Panel.NodeInfo) : option Building :=
  match infos with
  | [] => Some b
  | n :: infos => match nodeStep b n with None => None | Some b => nodeSteps b infos end
  end.

Definition dnsRule : Rule := mkRule None None None (Some "53") None (Some "udp") "dns_out".

(** The outbounds every core has, the default one first. *)
Definition standardOutbounds (cfg : option Conf.Conf) : list (option OutboundHandlerConfig) :=
  buildOutbound <$> [Inbound.buildDefaultOutbound (configuredIPStrategy cfg); Inbound.buildBlockOutbound; Inbound.buildDnsOutbound].

Definition startBuilding (cfg : option Conf.Conf) : Building :=
  mkBuilding ((λ s, (ParseAddress s, None)) <$> configuredDNSServers cfg) (standardOutbounds cfg) [dnsRule].

Definition GetCustomConfig (cfg : option Conf.Conf) (infos : list Panel.NodeInfo)
    : option (result (DnsConfig * list (option OutboundHandlerConfig) * RouterConfig)) :=
  match nodeSteps (startBuilding cfg) infos with
  | None => None
  | Some b =>
      match buildDns (configuredIPStrategy cfg) (servers b) with
      | Err e => Some (Err e)
      | Ok dns =>
          match buildRouter "AsIs" (ruleList b) with
          | Err e => Some (Err e)
          | Ok router => Some (Ok (dns, outbounds b, router))
          end
      end
  end.

End custom.
End CustomRouting.
