(* ===== verification/CoreBuild.v ===== *)
(** * Building and starting the core (core/core.go)

    [getCore] puts the configuration of Xray together from the routing, DNS and
    outbounds of CustomRouting.v and makes an instance of it; [Start] starts the
    instance and takes its features over into the core of Core.v. Building and
    running instances is Xray's and an interface; an error while building is a
    panic, which is [None]. *)

From S2P Require Import Prelude GoStrings Panel Conf Inbound Limiter Links Traffic Core CustomRouting.

Module CoreBuild.
Import CustomRouting.

Record CoreLog := mkCoreLog { LogLevel : string; AccessLog : string; ErrorLog : string }.

Record Policy := mkPolicy {
  StatsUserUplink : bool;
  StatsUserDownlink : bool;
  Handshake : Z;
  ConnectionIdle : Z;
  UplinkOnly : Z;
  DownlinkOnly : Z;
  BufferSize : Z
}.

Section build.
Context `{XRC : XrayRouting} `{XCO : Core.XrayCore} {RO : RangeOrder string} {ROn : RangeOrder nat}.

(** [core.Config]: the parts the program fills in. *)
Record CoreConfig := mkCoreConfig {
  Log : CoreLog;
  Levels : gmap Z Policy;
  Dns : DnsConfig;
  Router : RouterConfig;
  Inbounds : list Core.HandlerConfig;
  Outbounds : list (option OutboundHandlerConfig)
}.

(** What Xray does: [core.New], [Start], and the features of a started instance. *)
Context (newInstance : CoreConfig → result Core.Instance_).
Context (startInstance : Core.Instance_ → option GoError).
Context (features : Core.Instance_ → Core.IHM * Core.Dispatcher).

Definition levelPolicyConfig : Policy := mkPolicy true true 4 120 2 4 128.

Definition coreLogConfig (c : Conf.Conf) : CoreLog :=
  let log := Conf.cf_Log c in
  let logLevel := if bool_decide (Conf.CoreLevel log = "") then Conf.Level log else Conf.CoreLevel log in
  mkCoreLog logLevel (Conf.Access log) (Conf.Output log).

Definition getCore (c : Conf.Conf) (infos : list Panel.NodeInfo) : option Core.Instance_ :=
  match GetCustomConfig (Some c) infos with
  | None | Some (Err _) => None
  | Some (Ok (dns, outs, router)) =>
      match newInstance (mkCoreConfig (coreLogConfig c) {[0 := levelPolicyConfig]} dns router [] outs) with
      | Err _ => None
      | Ok server => Some server
      end
  end.

(** [V2Core.Start] *)
Definition startInstanceWith (c : Conf.Conf) (infos : list Panel.NodeInfo) (v : Core.V2Core) : option (Core.V2Core * option GoError) :=
  match getCore c infos with
  | None => None
  | Some server =>
      match startInstance server with
      | Some e =>
          Some (Core.mkV2Core (Some server) (Core.uidMap v) (Core.externalSidecarTags v) (Core.ihm v) (Core.dispatcher v), Some e)
      | None => let '(m, d) := features server in Some (Core.Start server m d v, None)
      end
  end.
End build.
End CoreBuild.
