(* ===== verification/Dispatcher.v ===== *)
(** * Dispatching connections (core/app/dispatcher/default.go, sniffer.go)

    A connection passes the limiter, is registered with the link manager of its
    user so that it can be shut, and gets writers that count and limit its
    bytes ([getLink] for a connection the dispatcher makes pipes for,
    [admitLink] for one that brings its link); then sniffing may replace its
    destination ([Sniff], [overridden]), and [routedDispatch] gives it to an
    outbound. Pipes, destinations, outbound handlers and the protocol sniffers
    are Xray's; readers and writers are known by numbers, as in Links.v. *)

From S2P Require Import Prelude GoStrings Panel Limiter Links Traffic Core.

Module Dispatcher.
Import GoStrings Core.

(** ** Links *)

Section links.
Context `{RL : Limiter.RateLimit} {RO : RangeOrder string}.
Implicit Types d : Dispatcher.

(** A writer as the dispatcher wraps it. *)
Inductive Writer :=
| RawWriter (w : nat)
| Managed (a : nat)                                  (* [ManagedWriter] *)
| RateLimited (b : Limiter.Bucket) (w : Writer)
| SizeStat (c : Traffic.XrayTrafficCounter) (w : Writer).

(** What the reader of a link is for the type tests: a [pipe.Reader], another
    [buf.TimeoutReader], or neither. *)
Inductive ReaderKind := PipeReader | TimeoutReader | PlainReader.

(** A reader; a [CounterReader] is an object of its own. *)
Inductive Reader :=
| RawReader (k : ReaderKind) (r : nat)
| CounterReader (id storage : nat) (k : ReaderKind) (r : nat)
| CachedReader (r : Reader).                         (* [cachedReader] *)

Record Link := mkLink { lk_Reader : Reader; lk_Writer : Writer }.

(** What the context says about the connection: the tag of the inbound, the e-mail
    of the user ([None] without a user), and the source. *)
Record Inbound_ := mkInbound {
  Tag : string;
  Email : option string;
  SourceIP : string;
  SourceTCP : bool
}.

(** A connection of a user with an e-mail. *)
Definition userOf (session : option Inbound_) : option (Inbound_ * string) :=
  match session with
  | None => None
  | Some s =>
      match Email s with
      | Some email => if bool_decide (email = "") then None else Some (s, email)
      | None => None
      end
  end.

Definition withWorld (w : Links.World) d : Dispatcher := mkDispatcher (Counter d) (LinkManagers d) (storages d) w.

(** [common.Close] of a writer, [common.Interrupt] of a reader. *)
Definition shut (wr r : nat) d : Dispatcher :=
  withWorld (Links.interruptReader r (Links.closeWriter wr (world d))) d.

(** The link manager of a user; [loaded] is what was found before, and a new one is
    stored when nothing was. *)
Definition linkManager (loaded : option nat) (user : string) d : nat * Dispatcher :=
  match loaded with
  | Some lm => (lm, d)
  | None =>
      let '(lm, w) := Links.newLinkManager (world d) in
      (lm, mkDispatcher (Counter d) (<[user := lm]> (LinkManagers d)) (storages d) w)
  end.

Definition managedWriter (writer lm : nat) d : nat * Dispatcher :=
  let '(a, w) := Links.newManagedWriter (Links.mkManagedWriter writer lm) (world d) in (a, withWorld w d).

Definition addLink (lm a reader : nat) d : Dispatcher := withWorld (Links.AddLink lm a reader (world d)) d.

(** The storage that counts the traffic of a user under a tag. *)
Definition userStorage (tag user : string) d : nat * Dispatcher :=
  let '(p, c, st) := Traffic.GetCounter user (default Traffic.NewTrafficCounter (Counter d !! tag)) (storages d) in
  (p, mkDispatcher (<[tag := c]> (Counter d)) (LinkManagers d) st (world d)).

Definition limited (b : option Limiter.Bucket) (w : Writer) : Writer :=
  match b with Some b => RateLimited b w | None => w end.

Definition limiterError (tag : string) (e : GoError) : GoError :=
  errorf ("get limiter " +:+ tag +:+ " error: " +:+ err_msg e).

Definition limitedError (user : string) : GoError := errorf ("Limited " +:+ user +:+ " by conn or ip").

(** The ends of the two pipes. *)
Record Pipes := mkPipes { uplinkReader : nat; uplinkWriter : nat; downlinkReader : nat; downlinkWriter : nat }.

Definition shutPipes (p : Pipes) d : Dispatcher :=
  shut (uplinkWriter p) (downlinkReader p) (shut (downlinkWriter p) (uplinkReader p) d).

(** [getLink], with the registry of limiters: the limiter of the inbound as the
    connection leaves it, and the inbound and the outbound link. *)
Definition getLink (now : Z) (limiters : string → result Limiter.Limiter) (session : option Inbound_) (p : Pipes) d
    : Dispatcher * option Limiter.Limiter * result (Link * Link) :=
  match userOf session with
  | None =>
      (d, None, Ok (mkLink (RawReader PipeReader (downlinkReader p)) (RawWriter (uplinkWriter p)),
                    mkLink (RawReader PipeReader (uplinkReader p)) (RawWriter (downlinkWriter p))))
  | Some (s, user) =>
      match limiters (Tag s) with
      | Err e => (shutPipes p d, None, Err (limiterError (Tag s) e))
      | Ok l =>
          let '(l, (w, reject)) := Limiter.CheckLimit now user (SourceIP s) (SourceTCP s) l in
          if reject then (shutPipes p d, Some l, Err (limitedError user))
          else
            let '(lm, d) := linkManager (LinkManagers d !! user) user d in
            let '(a, d) := managedWriter (uplinkWriter p) lm d in
            let d := addLink lm a (uplinkReader p) d in
            let '(ts, d) := userStorage (Tag s) user d in
            (d, Some l,
             Ok (mkLink (RawReader PipeReader (downlinkReader p))
                   (SizeStat (Traffic.mkXrayTrafficCounter ts Traffic.Up) (limited w (Managed a))),
                 mkLink (RawReader PipeReader (uplinkReader p))
                   (SizeStat (Traffic.mkXrayTrafficCounter ts Traffic.Down) (limited w (RawWriter (downlinkWriter p))))))
      end
  end.

(** The first part of [DispatchLink], for a link of the reader [r], which is a [k],
    and the writer [wr]; [id] is the new [CounterReader]. *)
Definition admitLink (now : Z) (limiters : string → result Limiter.Limiter) (session : option Inbound_)
    (k : ReaderKind) (r wr id : nat) d
    : Dispatcher * option Limiter.Limiter * result Link :=
  match userOf session with
  | None => (d, None, Ok (mkLink (RawReader k r) (RawWriter wr)))
  | Some (s, user) =>
      match limiters (Tag s) with
      | Err e => (shut wr r d, None, Err (limiterError (Tag s) e))
      | Ok l =>
          let '(l, (w, reject)) := Limiter.CheckLimit now user (SourceIP s) (SourceTCP s) l in
          if reject then (shut wr r d, Some l, Err (limitedError user))
          else
            let '(lm, d) := linkManager (LinkManagers d !! user) user d in
            let '(a, d) := managedWriter wr lm d in
            let '(ts, d) := userStorage (Tag s) user d in
            let d := addLink lm a id d in
            (d, Some l,
             Ok (mkLink (CounterReader id ts k r)
                   (SizeStat (Traffic.mkXrayTrafficCounter ts Traffic.Down) (limited w (Managed a)))))
      end
  end.

(** Writing [n] bytes: every [SizeStatWriter] on the way counts them. *)
Fixpoint writeBytes (w : Writer) (n : Z) (st : Traffic.Store) : Traffic.Store :=
  match w with
  | RawWriter _ | Managed _ => st
  | RateLimited _ w => writeBytes w n st
  | SizeStat c w => writeBytes w n (Traffic.Add c n st).2
  end.

(** Reading [n] bytes through a [CounterReader] counts them as upload. *)
Fixpoint readBytes (r : Reader) (n : Z) (st : Traffic.Store) : Traffic.Store :=
  match r with
  | RawReader _ _ => st
  | CounterReader _ storage _ _ =>
      if 0 <? n then (Traffic.Add (Traffic.mkXrayTrafficCounter storage Traffic.Up) n st).2 else st
  | CachedReader r => readBytes r n st
  end.

(** [common.Close] of a wrapped writer goes down to the writer itself. *)
Fixpoint closeWrapped (w : Writer) (lw : Links.World) : Links.World :=
  match w with
  | RawWriter x => Links.closeWriter x lw
  | Managed a => Links.Close a lw
  | RateLimited _ w | SizeStat _ w => closeWrapped w lw
  end.

(** [common.Interrupt] of a reader; a [CounterReader] has neither [Interrupt] nor
    [Close], so that the reader in it is not reached, and a [cachedReader] passes
    it on to a pipe only. *)
Definition interruptWrapped (r : Reader) (lw : Links.World) : Links.World :=
  match r with
  | RawReader _ x => Links.interruptReader x lw
  | CounterReader id _ _ _ => Links.interruptReader id lw
  | CachedReader (RawReader PipeReader x) => Links.interruptReader x lw
  | CachedReader _ => lw
  end.

Definition shutLink (l : Link) d : Dispatcher :=
  withWorld (interruptWrapped (lk_Reader l) (closeWrapped (lk_Writer l) (world d))) d.

End links.

(** ** The cache of a sniffed connection

    [cachedReader] keeps the bytes that [Cache] took from the reader, and gives
    them to the first read; [got] is what the reader answers. *)

Section cached.
Context {Byte : Type}.

(** The bytes the sniffers see, of which there are at most [capacity]. *)
Definition Cache (capacity : nat) (got : result (list Byte)) (cache : list Byte) : list Byte * result (list Byte) :=
  match got with
  | Err e => (cache, Err e)
  | Ok mb => let cache := cache ++ mb in (cache, Ok (take capacity cache))
  end.

Definition readInternal (cache : list Byte) : option (list Byte) := if cache is [] then None else Some cache.

(** [ReadMultiBuffer] and [ReadMultiBufferTimeout]: the cache, what is read, and
    whether the reader was asked. *)
Definition ReadMultiBuffer (got : result (list Byte)) (cache : list Byte) : list Byte * result (list Byte) * bool :=
  match readInternal cache with
  | Some mb => ([], Ok mb, false)
  | None => (cache, got, true)
  end.
End cached.

(** ** Sniffing *)

(** What a sniffer finds: the protocol, the domain, the protocol of the result the
    domain comes from (of a composite result), and the protocols it counts as. *)
Record SniffResult := mkSniffResult {
  Protocol : string;
  Domain : string;
  ProtocolForDomain : option string;
  SubsetOf : option (string → bool)
}.

Inductive SniffError := ErrNoClue | ErrProtoNeedMoreData | ErrOther.

#[global] Instance SniffError_eq_dec : EqDecision SniffError.
Proof. solve_decision. Defined.

Inductive sniffed (A : Type) := SniffOk (a : A) | SniffErr (e : SniffError).
Arguments SniffOk {A} a.
Arguments SniffErr {A} e.

Inductive Network := Network_Unknown | Network_TCP | Network_UDP.

#[global] Instance Network_eq_dec : EqDecision Network.
Proof. solve_decision. Defined.

Section sniffing.
(** The bytes that arrived so far. *)
Context {Payload : Type}.

Record protocolSnifferWithMetadata := mkSniffer {
  protocolSniffer : Payload → sniffed (option SniffResult);
  metadataSniffer : bool;
  network : Network
}.

(** The loop of [Sniff] and [SniffMetadata] over the sniffers that [asks] selects:
    the result, or the sniffers without a clue. *)
Fixpoint askSniffers (asks : protocolSnifferWithMetadata → bool) (keepOthers : bool) (payload : Payload)
    (pending sniffers : list protocolSnifferWithMetadata) : SniffResult + list protocolSnifferWithMetadata :=
  match sniffers with
  | [] => inr pending
  | si :: sniffers =>
      if negb (asks si) then
        askSniffers asks keepOthers payload (if keepOthers then pending ++ [si] else pending) sniffers
      else
        match protocolSniffer si payload with
        | SniffErr ErrNoClue => askSniffers asks keepOthers payload (pending ++ [si]) sniffers
        | SniffOk (Some r) => inl r
        | _ => askSniffers asks keepOthers payload pending sniffers
        end
  end.

(** The sniffers that are left, and the result. *)
Definition sniffWith (asks : protocolSnifferWithMetadata → bool) (keepOthers : bool) (payload : Payload)
    (sniffers : list protocolSnifferWithMetadata) : list protocolSnifferWithMetadata * sniffed SniffResult :=
  match askSniffers asks keepOthers payload [] sniffers with
  | inl r => (sniffers, SniffOk r)
  | inr [] => (sniffers, SniffErr ErrOther)
  | inr pending => (pending, SniffErr ErrNoClue)
  end.

Definition Sniff (net : Network) (payload : Payload) (sniffers : list protocolSnifferWithMetadata) :=
  sniffWith (λ si, negb (metadataSniffer si) && bool_decide (network si = net)) false payload sniffers.

Definition SniffMetadata (nothing : Payload) (sniffers : list protocolSnifferWithMetadata) :=
  sniffWith metadataSniffer true nothing sniffers.

Definition CompositeResult (domainResult protocolResult : SniffResult) : SniffResult :=
  mkSniffResult (Protocol protocolResult) (Domain domainResult) (Some (Protocol domainResult)) None.

(** A round of the loop of [sniffer]: the context is over, reading failed, or some
    time passed and these bytes are there, if any. *)
Inductive SniffRound :=
| ContextDone
| CacheFailed
| Cached (elapsed : Z) (payload : option Payload).

(** That loop; [None] when it is not over after these rounds. *)
Fixpoint sniffContent (net : Network) (rounds : list SniffRound) (cacheDeadline : Z) (totalAttempt : nat)
    (sniffers : list protocolSnifferWithMetadata) : option (sniffed SniffResult) :=
  match rounds with
  | [] => None
  | ContextDone :: _ | CacheFailed :: _ => Some (SniffErr ErrOther)
  | Cached elapsed payload :: rounds =>
      let cacheDeadline := cacheDeadline - elapsed in
      let again attempts sniffers :=
        if (2 <=? attempts)%nat || (cacheDeadline <=? 0) then Some (SniffErr ErrOther)
        else sniffContent net rounds cacheDeadline attempts sniffers in
      match payload with
      | None => again (S totalAttempt) sniffers
      | Some p =>
          match Sniff net p sniffers with
          | (sniffers, SniffErr ErrNoClue) => again (S totalAttempt) sniffers
          | (sniffers, SniffErr ErrProtoNeedMoreData) => again totalAttempt sniffers
          | (_, r) => Some r
          end
      end
  end.

(** [sniffer] *)
Definition sniffer (nothing : Payload) (metadataOnly : bool) (net : Network) (rounds : list SniffRound)
    (sniffers : list protocolSnifferWithMetadata) : option (sniffed SniffResult) :=
  let '(sniffers, metaresult) := SniffMetadata nothing sniffers in
  if metadataOnly then Some metaresult
  else
    match sniffContent net rounds 200000000 0 sniffers with
    | None => None
    | Some content =>
        Some (match content, metaresult with
              | SniffErr _, SniffOk m => SniffOk m
              | SniffOk c, SniffOk m => SniffOk (CompositeResult m c)
              | c, SniffErr _ => c
              end)
    end.

End sniffing.
Arguments protocolSnifferWithMetadata : clear implicits.

(** ** Destinations *)

Class Destinations := {
  Destination : Type;
  IsValid : Destination → bool;
  (** the destination with the address of a domain *)
  withDomain : string → Destination → Destination;
  IsIP : Destination → bool;
  (** the fake DNS engine, when there is one: whether an address is from its pool *)
  IsIPInIPPool : option (Destination → bool);
  (** matching a regular expression; [None] does not compile *)
  MatchString : string → option (string → bool)
}.

Record SniffingRequest := mkSniffingRequest {
  ExcludeForDomain : list string;
  OverrideDestinationForProtocol : list string;
  Enabled : bool;
  MetadataOnly : bool;
  RouteOnly : bool
}.

Section routing.
Context `{Destinations}.

Definition inPool (x : Destination) : bool := match IsIPInIPPool with Some f => f x | None => false end.

(** One entry of [ExcludeForDomain]. *)
Definition excludes (domain entry : string) : bool :=
  if HasPrefix entry "regexp:" then
    match MatchString (dropBytes 7 entry) with
    | None => false
    | Some matches => matches domain
    end
  else bool_decide (ToLower domain = entry).

(** One entry of [OverrideDestinationForProtocol]. *)
Definition overrides (result : SniffResult) (protocolString : string) (destination : Destination) (p : string) : bool :=
  HasPrefix protocolString p || HasPrefix p protocolString
  || (negb (bool_decide (protocolString = "bittorrent")) && bool_decide (p = "fakedns") && IsIP destination && inPool destination)
  || match SubsetOf result with Some f => f p | None => false end.

Definition domainProtocol (result : SniffResult) : string := default (Protocol result) (ProtocolForDomain result).

Definition shouldOverride (result : SniffResult) (request : SniffingRequest) (destination : Destination) : bool :=
  let domain := Domain result in
  if bool_decide (domain = "") then false
  else if existsb (excludes domain) (ExcludeForDomain request) then false
  else existsb (overrides result (domainProtocol result) destination) (OverrideDestinationForProtocol request).

(** The outbound of the session. *)
Record Outbound_ := mkOutbound {
  OriginalTarget : Destination;
  Target : Destination;
  RouteTarget : option Destination
}.

(** What a sniffed domain does to the targets; [testsFamily] is the test of
    [Dispatch] that [DispatchLink] does not have. *)
Definition overridden (testsFamily : bool) (request : SniffingRequest) (result : sniffed SniffResult)
    (destination : Destination) (ob : Outbound_) : Destination * Outbound_ :=
  match result with
  | SniffErr _ => (destination, ob)
  | SniffOk r =>
      if shouldOverride r request destination then
        let destination := withDomain (Domain r) destination in
        let protocol := domainProtocol r in
        let isFakeIP := (negb testsFamily || IsIP (Target ob)) && inPool (Target ob) in
        (destination,
         if RouteOnly request && negb (bool_decide (protocol = "fakedns")) && negb (bool_decide (protocol = "fakedns+others"))
            && negb isFakeIP
         then mkOutbound (OriginalTarget ob) (Target ob) (Some destination)
         else mkOutbound (OriginalTarget ob) destination (RouteTarget ob))
      else (destination, ob)
  end.

(** *** Handing over to an outbound *)

(** The outbound manager. *)
Record OutboundManager := mkOutboundManager {
  GetHandler : string → option nat;
  GetDefaultHandler : option nat
}.

Inductive Routed :=
| ToHandler (h : nat)
| Shut.

(** [routedDispatch]: [forced] is the tag the platform forces, [route] the answer
    of the router ([None] without a router), whose error means the default. *)
Definition routedDispatch (ohm : OutboundManager) (forced : string) (route : option (result string)) : Routed :=
  let byDefault := match GetDefaultHandler ohm with Some h => ToHandler h | None => Shut end in
  let byTag tag := match GetHandler ohm tag with Some h => ToHandler h | None => Shut end in
  if negb (bool_decide (forced = "")) then byTag forced
  else
    match route with
    | Some (Ok outTag) => byTag outTag
    | Some (Err _) | None => byDefault
    end.

(** *** The two entry points

    [route] answers for the outbound of the session, [sniffed] is what [sniffer]
    finds. *)

Context `{RL : Limiter.RateLimit} {RO : RangeOrder string}.

(** The targets of a connection after sniffing; [routeTarget] is the one that the
    outbound of the session has already. *)
Definition targets (testsFamily : bool) (request : SniffingRequest) (found : sniffed SniffResult)
    (routeTarget : option Destination) (destination : Destination) : Destination * Outbound_ :=
  let ob := mkOutbound destination destination routeTarget in
  if Enabled request then overridden testsFamily request found destination ob else (destination, ob).

(** [routedDispatch] of a link: an outbound, or the link is shut. *)
Definition handOver (ohm : OutboundManager) (forced : string) (route : Outbound_ → option (result string))
    (ob : Outbound_) (l : Link) (d : Dispatcher) : Dispatcher * Routed :=
  match routedDispatch ohm forced (route ob) with
  | ToHandler h => (d, ToHandler h)
  | Shut => (shutLink l d, Shut)
  end.

(** With sniffing, the outbound reads through a [cachedReader]; [None] is the panic
    of a reader that is no [buf.TimeoutReader]. *)
Definition sniffedLink (request : SniffingRequest) (l : Link) : option Link :=
  if Enabled request then
    match lk_Reader l with
    | RawReader PlainReader _ => None
    | r => Some (mkLink (CachedReader r) (lk_Writer l))
    end
  else Some l.

(** [Dispatch]; [None] is a panic. The caller gets the inbound link, the outbound
    link goes to the handler. *)
Definition Dispatch (now : Z) (limiters : string → result Limiter.Limiter) (session : option Inbound_) (p : Pipes)
    (request : SniffingRequest) (found : sniffed SniffResult) (ohm : OutboundManager) (forced : string)
    (route : Outbound_ → option (result string)) (routeTarget : option Destination) (destination : Destination)
    (d : Dispatcher) : option (Dispatcher * option Limiter.Limiter * result (Link * Link * Outbound_ * Routed)) :=
  if negb (IsValid destination) then None
  else
    match getLink now limiters session p d with
    | (d, l, Err e) => Some (d, l, Err e)
    | (d, l, Ok (inbound, outbound)) =>
        match sniffedLink request outbound with
        | None => None
        | Some outbound =>
            let ob := (targets true request found routeTarget destination).2 in
            let '(d, routed) := handOver ohm forced route ob outbound d in
            Some (d, l, Ok (inbound, outbound, ob, routed))
        end
    end.

(** [DispatchLink]; [None] is a panic. *)
Definition DispatchLink (now : Z) (limiters : string → result Limiter.Limiter) (session : option Inbound_)
    (k : ReaderKind) (r wr id : nat) (request : SniffingRequest) (found : sniffed SniffResult) (ohm : OutboundManager)
    (forced : string) (route : Outbound_ → option (result string)) (routeTarget : option Destination)
    (destination : Destination) (d : Dispatcher)
    : option (Dispatcher * option Limiter.Limiter * result (Link * Outbound_ * Routed)) :=
  if negb (IsValid destination) then Some (d, None, Err (errorf "Dispatcher: Invalid destination."))
  else
    match admitLink now limiters session k r wr id d with
    | (d, l, Err e) => Some (d, l, Err e)
    | (d, l, Ok outbound) =>
        match sniffedLink request outbound with
        | None => None
        | Some outbound =>
            let ob := (targets false request found routeTarget destination).2 in
            let '(d, routed) := handOver ohm forced route ob outbound d in
            Some (d, l, Ok (outbound, ob, routed))
        end
    end.

End routing.
End Dispatcher.
