(* ===== verification/DispatcherProps.v ===== *)
(** * Properties of the dispatcher

    What a connection leaves behind when the limiter admits or rejects it
    ([getLink_outcome]); that a connection of a user is shut when the user is
    deleted, if connections are admitted one after another
    ([deleted_user_shut]), but not always when two first connections of a user
    race ([first_links_race]); that a sniffer that needs more bytes is given up
    ([needMore_lost]), and that sniffing ends after two reads
    ([sniffer_two_reads]). *)

From S2P Require Import Prelude GoStrings Panel Limiter LimiterProps Links Traffic Core CoreProps Dispatcher.

Module DispatcherProps.
Import Core Dispatcher.

Section links.
Context `{XCore : XrayCore} `{RL : Limiter.RateLimit} {RO : RangeOrder string} {ROn : RangeOrder nat}.
Implicit Types d : Dispatcher.

(** ** The invariant *)

(** Managers and managed writers are allocated, a manager has one user, and a
    link of a manager belongs to it. *)
Record wfDispatcher d : Prop := {
  wd_inj k k' lm : LinkManagers d !! k = Some lm → LinkManagers d !! k' = Some lm → k = k';
  wd_links k lm a r : LinkManagers d !! k = Some lm → Links.links lm (world d) !! a = Some r → Links.managedBy lm a (world d);
  wd_managers k lm : LinkManagers d !! k = Some lm → lm ∈ dom (Links.managers (world d))
}.

Definition noArrivals : LinkArrivals := λ _, [].

(** A link that arrives while the links of a user are closed was made for the user's
    manager. *)
Definition arrivalsManaged (arrivals : LinkArrivals) d : Prop :=
  ∀ k lm round a r, LinkManagers d !! k = Some lm → round ∈ arrivals k → (a, r) ∈ round →
    Links.managedBy lm a (world d).

Lemma wfDispatcher_wfLinks arrivals d : wfDispatcher d → arrivalsManaged arrivals d → CoreProps.wfLinks arrivals d.
Proof. intros [H1 H2 _]. by split. Qed.

(** A connection of the user is registered: its writer and reader are with the
    user's manager. *)
Definition registered (user : string) (wr r : nat) d : Prop :=
  ∃ lm a, LinkManagers d !! user = Some lm ∧ Links.links lm (world d) !! a = Some r
          ∧ Links.managed (world d) !! a = Some (Links.mkManagedWriter wr lm).

(** What registering does to a dispatcher [d]. *)
Record grows d d' : Prop := {
  gr_managers k lm : LinkManagers d !! k = Some lm → LinkManagers d' !! k = Some lm;
  gr_links k lm a r : LinkManagers d !! k = Some lm → Links.links lm (world d) !! a = Some r → Links.links lm (world d') !! a = Some r;
  gr_managed a mw : Links.managed (world d) !! a = Some mw → Links.managed (world d') !! a = Some mw;
  gr_closed x : x ∈ Links.closed (world d) → x ∈ Links.closed (world d')
}.

#[local] Instance grows_preorder : PreOrder grows.
Proof.
  split; [by intros d; split|]. intros d1 d2 d3 [A1 A2 A3 A4] [B1 B2 B3 B4]. split; eauto.
Qed.

Lemma registered_grows user wr r d d' : grows d d' → registered user wr r d → registered user wr r d'.
Proof. intros [H1 H2 H3 _] (lm & a & Hlm & Hl & Hm). exists lm, a. split_and!; [by apply H1|by eapply H2|by apply H3]. Qed.

(** *** The steps of a connection *)

Lemma shut_grows wr r d : grows d (shut wr r d) ∧ (wfDispatcher d → wfDispatcher (shut wr r d)).
Proof. split; [split; try done; intros x Hx; by right|]. by intros [H1 H2 H3]. Qed.

Lemma linkManager_spec user d lm d' :
  wfDispatcher d → linkManager (LinkManagers d !! user) user d = (lm, d') →
  wfDispatcher d' ∧ grows d d' ∧ LinkManagers d' !! user = Some lm
  ∧ Links.managed (world d') = Links.managed (world d) ∧ Links.closed (world d') = Links.closed (world d).
Proof.
  intros Hwf. unfold linkManager. destruct (LinkManagers d !! user) as [lm0|] eqn:Hlm; [by intros [= <- <-]|].
  unfold Links.newLinkManager. intros [= <- <-]. set (lm := fresh (dom (Links.managers (world d)))).
  assert (Hfresh : ∀ k, LinkManagers d !! k = Some lm → False).
  { intros k Hk%(wd_managers d Hwf). by apply (is_fresh (dom (Links.managers (world d)))) in Hk. }
  assert (Hother : ∀ k lm', LinkManagers d !! k = Some lm' → lm' ≠ lm) by (intros k lm' Hk ->; by eapply Hfresh).
  split_and!; [| | |done|done].
  - destruct Hwf as [W1 W2 W3]. split; cbn [LinkManagers world].
    + intros k k' lm' [[<- <-]|[Hne Hk]]%lookup_insert_Some [[<- E]|[Hne' Hk']]%lookup_insert_Some; try done.
      * by apply Hfresh in Hk'.
      * rewrite <- E in Hk. by apply Hfresh in Hk.
      * by eapply W1.
    + intros k lm' a r [[<- <-]|[Hne Hk]]%lookup_insert_Some; rewrite Links.links_withLinks.
      * by rewrite decide_True, lookup_empty by done.
      * rewrite decide_False by by eapply Hother. by apply (W2 k).
    + intros k lm' [[<- <-]|[Hne Hk]]%lookup_insert_Some; cbn; rewrite dom_insert_L; [set_solver|].
      apply W3 in Hk. set_solver.
  - split; cbn [LinkManagers world]; [| |done|done].
    + intros k lm' Hk. rewrite lookup_insert_ne; [done|]. intros <-. congruence.
    + intros k lm' a r Hk Hr. rewrite Links.links_withLinks, decide_False by by eapply Hother. done.
  - apply lookup_insert_eq.
Qed.

(** A new managed writer that is registered with a manager of the user. *)
Lemma register_spec user lm wr r d a d' :
  wfDispatcher d → LinkManagers d !! user = Some lm → managedWriter wr lm d = (a, d') →
  let d'' := addLink lm a r d' in
  wfDispatcher d'' ∧ grows d d'' ∧ registered user wr r d''
  ∧ Links.closed (world d'') = Links.closed (world d) ∧ Counter d'' = Counter d ∧ storages d'' = storages d
  ∧ LinkManagers d'' = LinkManagers d
  ∧ ∀ lm', lm' ≠ lm → Links.links lm' (world d'') = Links.links lm' (world d).
Proof.
  intros Hwf Hlm. unfold managedWriter, Links.newManagedWriter. intros [= <- <-]. set (a := fresh (dom (Links.managed (world d)))).
  assert (Ha : ∀ b mw, Links.managed (world d) !! b = Some mw → b ≠ a).
  { intros b mw Hb ->. apply (is_fresh (dom (Links.managed (world d)))). by apply elem_of_dom_2 in Hb. }
  set (w' := Links.mkWorld _ _ _ _). cbn zeta. unfold addLink, withWorld, Links.AddLink. cbn [world LinkManagers Counter storages].
  assert (Hsame : ∀ m, Links.links m w' = Links.links m (world d)) by done.
  assert (Hm : ∀ l, Links.managed (Links.withLinks lm l w') = <[a := Links.mkManagedWriter wr lm]> (Links.managed (world d))) by done.
  split_and!; [| | |done|done|done|done|].
  - destruct Hwf as [W1 W2 W3]. split; cbn [LinkManagers world]; [done| |].
    + intros k lm' b x Hk. rewrite Links.links_withLinks, !Hsame. case_decide as E.
      * subst lm'. intros [[<- <-]|[Hne Hb]]%lookup_insert_Some.
        { exists (Links.mkManagedWriter wr lm). by rewrite Hm, lookup_insert_eq. }
        destruct (W2 k lm b x Hk Hb) as (mw & Hmw & Hmm). exists mw. rewrite Hm, lookup_insert_ne; [done|]. intros <-. by eapply Ha.
      * intros Hb. destruct (W2 k lm' b x Hk Hb) as (mw & Hmw & Hmm). exists mw. rewrite Hm, lookup_insert_ne; [done|].
        intros <-. by eapply Ha.
    + intros k lm' Hk%W3. cbn. rewrite dom_insert_L. set_solver.
  - split; cbn [LinkManagers world]; [done| | |done].
    + intros k lm' b x Hk Hb. rewrite Links.links_withLinks, !Hsame. case_decide as E; [subst lm'|done].
      rewrite lookup_insert_ne; [done|]. intros <-. destruct (wd_links d Hwf k lm a x Hk Hb) as (mw & Hmw & _). by eapply Ha.
    + intros b mw Hb. rewrite Hm, lookup_insert_ne; [done|]. intros <-. by eapply Ha.
  - exists lm, a. cbn [LinkManagers world]. split_and!; [done| |].
    + by rewrite Links.links_withLinks, decide_True, lookup_insert_eq by done.
    + by rewrite Hm, lookup_insert_eq.
  - intros lm' Hne. by rewrite Links.links_withLinks, decide_False by done.
Qed.

Lemma userStorage_spec tag user d ts d' :
  userStorage tag user d = (ts, d') →
  world d' = world d ∧ LinkManagers d' = LinkManagers d ∧ CoreProps.counterOf tag user d' = Some ts
  ∧ (∀ tag' k, (tag', k) ≠ (tag, user) → CoreProps.counterOf tag' k d' = CoreProps.counterOf tag' k d).
Proof.
  unfold userStorage. destruct (Traffic.GetCounter _ _ _) as [[p c] st] eqn:Hg. intros [= <- <-].
  assert (Hc : c !! user = Some p ∧ ∀ k, k ≠ user → c !! k = default ∅ (Counter d !! tag) !! k).
  { unfold Traffic.GetCounter, Traffic.newStorage in Hg. unfold Traffic.NewTrafficCounter in Hg.
    destruct (default ∅ (Counter d !! tag) !! user) as [q|] eqn:Hq; injection Hg as <- <- <-; [done|].
    split; [apply lookup_insert_eq|]. intros k Hk. by rewrite lookup_insert_ne. }
  destruct Hc as [Hc1 Hc2]. unfold CoreProps.counterOf. cbn. split_and!; [done|done|by rewrite lookup_insert_eq|].
  intros tag' k Hne. destruct (decide (tag' = tag)) as [->|Ht]; [|by rewrite lookup_insert_ne].
  rewrite lookup_insert_eq. cbn. rewrite Hc2 by congruence. by destruct (Counter d !! tag).
Qed.

Lemma writeBytes_limited b w n (st : Traffic.Store) : writeBytes (limited b w) n st = writeBytes w n st.
Proof. by destruct b. Qed.

(** ** One connection *)

(** What an admitted connection leaves. *)
Lemma admit_spec user tag wr r d d1 d2 d3 lm a ts :
  wfDispatcher d → linkManager (LinkManagers d !! user) user d = (lm, d1) → managedWriter wr lm d1 = (a, d2) →
  userStorage tag user (addLink lm a r d2) = (ts, d3) →
  wfDispatcher d3 ∧ grows d d3 ∧ registered user wr r d3 ∧ CoreProps.counterOf tag user d3 = Some ts
  ∧ Links.closed (world d3) = Links.closed (world d)
  ∧ (∀ k, k ≠ user → LinkManagers d3 !! k = LinkManagers d !! k)
  ∧ (∀ tag' k, (tag', k) ≠ (tag, user) → CoreProps.counterOf tag' k d3 = CoreProps.counterOf tag' k d).
Proof.
  intros Hwf Hlm Ha Hts. destruct (linkManager_spec user d lm d1 Hwf Hlm) as (W1 & G1 & L1 & _ & C1).
  destruct (register_spec user lm wr r d1 a d2 W1 L1 Ha) as (W2 & G2 & R2 & C2 & K2 & _ & M2 & _).
  destruct (userStorage_spec tag user _ ts d3 Hts) as (E1 & E2 & E3 & E4).
  assert (G3 : grows (addLink lm a r d2) d3) by (split; rewrite ?E1, ?E2; done).
  assert (Hlm' : ∀ k, k ≠ user → LinkManagers d1 !! k = LinkManagers d !! k).
  { unfold linkManager, Links.newLinkManager in Hlm. intros k Hk.
    destruct (LinkManagers d !! user); injection Hlm as <- <-; [done|]. cbn. by rewrite lookup_insert_ne. }
  assert (Hco : Counter d1 = Counter d).
  { unfold linkManager, Links.newLinkManager in Hlm. by destruct (LinkManagers d !! user); injection Hlm as <- <-. }
  split_and!.
  - destruct W2 as [I1 I2 I3]. split; rewrite ?E1, ?E2; done.
  - etrans; [exact G1|]. etrans; [exact G2|exact G3].
  - by eapply registered_grows.
  - done.
  - by rewrite E1, C2.
  - intros k Hk. by rewrite E2, M2, Hlm'.
  - intros tag' k Hne. rewrite E4 by done. unfold CoreProps.counterOf. by rewrite K2, Hco.
Qed.

(** The order of registering and counting does not matter: that of
    [DispatchLink]. *)
Lemma addLink_userStorage tag user lm a r d :
  let '(ts, d') := userStorage tag user d in userStorage tag user (addLink lm a r d) = (ts, addLink lm a r d').
Proof. unfold userStorage, addLink, withWorld. cbn. by destruct (Traffic.GetCounter _ _ _) as [[p c] st]. Qed.

(** C10. A connection of a user, by what the limiter says. A rejected one is an error:
    both pipes are shut, and no counter, manager or link is changed. An admitted
    one is registered with the manager of its user, both its directions count
    into the user's storage under the tag, whatever the rate limit, and no other
    user is touched. *)
Theorem getLink_outcome now limiters s user p d l l1 b reject :
  wfDispatcher d → userOf (Some s) = Some (s, user) → limiters (Tag s) = Ok l →
  Limiter.CheckLimit now user (SourceIP s) (SourceTCP s) l = (l1, (b, reject)) →
  ∃ d' r, getLink now limiters (Some s) p d = (d', Some l1, r)
  ∧ if reject : bool then
      r = Err (limitedError user)
      ∧ Counter d' = Counter d ∧ LinkManagers d' = LinkManagers d ∧ storages d' = storages d
      ∧ (∀ lm, Links.links lm (world d') = Links.links lm (world d))
      ∧ uplinkWriter p ∈ Links.closed (world d') ∧ downlinkWriter p ∈ Links.closed (world d')
      ∧ uplinkReader p ∈ Links.interrupted (world d') ∧ downlinkReader p ∈ Links.interrupted (world d')
    else
      ∃ inbound outbound ts, r = Ok (inbound, outbound)
      ∧ registered user (uplinkWriter p) (uplinkReader p) d' ∧ Links.closed (world d') = Links.closed (world d)
      ∧ CoreProps.counterOf (Tag s) user d' = Some ts
      ∧ (∀ n st, writeBytes (lk_Writer inbound) n st = (Traffic.Add (Traffic.mkXrayTrafficCounter ts Traffic.Up) n st).2)
      ∧ (∀ n st, writeBytes (lk_Writer outbound) n st = (Traffic.Add (Traffic.mkXrayTrafficCounter ts Traffic.Down) n st).2)
      ∧ (∀ k, k ≠ user → LinkManagers d' !! k = LinkManagers d !! k)
      ∧ (∀ tag k, (tag, k) ≠ (Tag s, user) → CoreProps.counterOf tag k d' = CoreProps.counterOf tag k d).
Proof.
  intros Hwf Hu Hl Hc. unfold getLink. rewrite Hu, Hl, Hc. destruct reject.
  - eexists _, _. split; [reflexivity|]. split_and!; try done; cbn; set_solver.
  - destruct (linkManager _ user d) as [lm d1] eqn:Hlm. destruct (managedWriter _ lm d1) as [a d2] eqn:Ha.
    destruct (userStorage (Tag s) user (addLink lm a (uplinkReader p) d2)) as [ts d3] eqn:Hts.
    destruct (admit_spec user (Tag s) _ _ d d1 d2 d3 lm a ts Hwf Hlm Ha Hts) as (_ & _ & R & C & Cl & M & O).
    eexists d3, _. split; [reflexivity|]. eexists _, _, ts. split; [reflexivity|].
    split_and!; try done; intros n st; cbn; by rewrite writeBytes_limited.
Qed.

(** ** Many connections *)

(** Connections of both kinds, their ends, and what the rest of the process makes of
    the limiters. *)
Inductive connEvent :=
| Piped (now : Z) (session : option Inbound_) (p : Pipes)
| Linked (now : Z) (session : option Inbound_) (k : ReaderKind) (r wr id : nat)
| Ended (a : nat)
| Relimited (reg : gmap string Limiter.Limiter).

(** The limiters of the inbounds. *)
Definition Registry : Type := gmap string Limiter.Limiter.

Definition lookupLimiter (reg : Registry) (tag : string) : result Limiter.Limiter :=
  match reg !! tag with Some l => Ok l | None => Err (errorf "not found") end.

Definition storeLimiter (session : option Inbound_) (l : option Limiter.Limiter) (reg : Registry) : Registry :=
  match session, l with Some s, Some l => <[Tag s := l]> reg | _, _ => reg end.

Definition connStep (e : connEvent) (st : Registry * Dispatcher) : Registry * Dispatcher :=
  let '(reg, d) := st in
  match e with
  | Piped now session p =>
      let '(d, l, _) := getLink now (lookupLimiter reg) session p d in (storeLimiter session l reg, d)
  | Linked now session k r wr id =>
      let '(d, l, _) := admitLink now (lookupLimiter reg) session k r wr id d in (storeLimiter session l reg, d)
  | Ended a => (reg, withWorld (Links.Close a (world d)) d)
  | Relimited reg => (reg, d)
  end.

Definition runConns (es : list connEvent) (st : Registry * Dispatcher) : Registry * Dispatcher :=
  foldl (λ st e, connStep e st) st es.

(** Registered, or ended. *)
Definition known (user : string) (wr r : nat) d : Prop := registered user wr r d ∨ wr ∈ Links.closed (world d).

Lemma getLink_wf now limiters session p d d' l r :
  wfDispatcher d → getLink now limiters session p d = (d', l, r) → wfDispatcher d' ∧ grows d d'.
Proof.
  intros Hwf. unfold getLink. destruct (userOf session) as [[s user]|]; [|by intros [= <- _ _]].
  assert (Hs : wfDispatcher (shutPipes p d) ∧ grows d (shutPipes p d)).
  { unfold shutPipes. destruct (shut_grows (downlinkWriter p) (uplinkReader p) d) as [G1 W1].
    destruct (shut_grows (uplinkWriter p) (downlinkReader p) (shut (downlinkWriter p) (uplinkReader p) d)) as [G2 W2].
    split; [by apply W2, W1|by etrans]. }
  destruct (limiters _); [|by intros [= <- _ _]]. destruct (Limiter.CheckLimit _ _ _ _ _) as [l1 [b []]]; [by intros [= <- _ _]|].
  destruct (linkManager _ user d) as [lm d1] eqn:Hlm. destruct (managedWriter _ lm d1) as [a' d2] eqn:Ha.
  destruct (userStorage _ _ _) as [ts d3] eqn:Hts. intros [= <- _ _].
  destruct (admit_spec user (Tag s) _ _ d d1 d2 d3 lm a' ts Hwf Hlm Ha Hts) as (W & G & _). done.
Qed.

Lemma admitLink_wf now limiters session k r wr id d d' l res :
  wfDispatcher d → admitLink now limiters session k r wr id d = (d', l, res) → wfDispatcher d' ∧ grows d d'.
Proof.
  intros Hwf. unfold admitLink. destruct (userOf session) as [[s user]|]; [|by intros [= <- _ _]].
  destruct (shut_grows wr r d) as [Gs Ws].
  destruct (limiters _); [|by intros [= <- _ _]; auto]. destruct (Limiter.CheckLimit _ _ _ _ _) as [l1 [b []]]; [by intros [= <- _ _]; auto|].
  destruct (linkManager _ user d) as [lm d1] eqn:Hlm. destruct (managedWriter _ lm d1) as [a' d2] eqn:Ha.
  pose proof (addLink_userStorage (Tag s) user lm a' id d2) as Hsw. destruct (userStorage _ _ d2) as [ts d3] eqn:Hts. intros [= <- _ _].
  destruct (admit_spec user (Tag s) _ _ d d1 d2 _ lm a' ts Hwf Hlm Ha Hsw) as (W & G & _). done.
Qed.

Lemma Ended_wf a d : wfDispatcher d → wfDispatcher (withWorld (Links.Close a (world d)) d)
  ∧ ∀ user wr r, known user wr r d → known user wr r (withWorld (Links.Close a (world d)) d).
Proof.
  intros [W1 W2 W3]. unfold Links.Close. destruct (Links.managed (world d) !! a) as [mw|] eqn:Hmw; [|by split; [split|]].
  split.
  - split; cbn [LinkManagers withWorld world]; [done| |].
    + intros k lm b x Hk. change (Links.links lm (Links.RemoveWriter (Links.manager mw) a (world d)) !! b = Some x → Links.managedBy lm b (world d)).
      unfold Links.RemoveWriter. rewrite Links.links_withLinks. case_decide as E; [|by apply (W2 k)].
      subst lm. intros [_ Hb]%lookup_delete_Some. by apply (W2 k _ _ x).
    + intros k lm Hk%W3. cbn. rewrite dom_insert_L. set_solver.
  - intros user wr r [(lm & b & Hlm & Hl & Hm)|Hc]; [|right; cbn; by right].
    destruct (decide (b = a)) as [->|Hne]; [right; cbn; rewrite Hmw in Hm; injection Hm as ->; by left|].
    left. exists lm, b. split_and!; [done| |done].
    change (Links.links lm (Links.RemoveWriter (Links.manager mw) a (world d)) !! b = Some r).
    unfold Links.RemoveWriter. rewrite Links.links_withLinks. case_decide as E; [subst lm; by rewrite lookup_delete_ne|done].
Qed.

Lemma known_grows user wr r d d' : grows d d' → known user wr r d → known user wr r d'.
Proof. intros G [Hr|Hc]; [left; by eapply registered_grows|right; by apply (gr_closed _ _ G)]. Qed.

(** Whatever connections come and go, a connection stays registered until its
    writer is closed. *)
Lemma runConns_known es reg d :
  wfDispatcher d → wfDispatcher (runConns es (reg, d)).2
  ∧ ∀ user wr r, known user wr r d → known user wr r (runConns es (reg, d)).2.
Proof.
  revert reg d. induction es as [|e es IH]; intros reg d Hwf; [by split|].
  change (runConns (e :: es) (reg, d)) with (runConns es (connStep e (reg, d))).
  assert (Hstep : wfDispatcher (connStep e (reg, d)).2 ∧ ∀ user wr r, known user wr r d → known user wr r (connStep e (reg, d)).2).
  { destruct e as [now session p|now session k r wr id|a|reg']; cbn.
    - destruct (getLink _ _ _ _ _) as [[d1 l] res] eqn:Hg. destruct (getLink_wf _ _ _ _ _ _ _ _ Hwf Hg) as [W G].
      split; [done|]. intros user wr r. by apply known_grows.
    - destruct (admitLink _ _ _ _ _ _ _ _) as [[d1 l] res] eqn:Hg. destruct (admitLink_wf _ _ _ _ _ _ _ _ _ _ _ Hwf Hg) as [W G].
      split; [done|]. intros user' wr' r'. by apply known_grows.
    - by apply Ended_wf.
    - done. }
  destruct Hstep as [Hw Hk].
  destruct (connStep e (reg, d)) as [reg1 d1]. destruct (IH reg1 d1 Hw) as [Hw' Hk']. split; [done|]. auto.
Qed.

(** The user, the writer and the reader of the connection that an event admits. *)
Definition admits (e : connEvent) (st : Registry * Dispatcher) : option (string * nat * nat) :=
  let '(reg, d) := st in
  match e with
  | Piped now session p =>
      '(_, user) ← userOf session;
      match getLink now (lookupLimiter reg) session p d with
      | (_, _, Ok _) => Some (user, uplinkWriter p, uplinkReader p)
      | _ => None
      end
  | Linked now session k r wr id =>
      '(_, user) ← userOf session;
      match admitLink now (lookupLimiter reg) session k r wr id d with
      | (_, _, Ok _) => Some (user, wr, id)
      | _ => None
      end
  | Ended _ | Relimited _ => None
  end.

Lemma admits_registered e reg d user wr r :
  wfDispatcher d → admits e (reg, d) = Some (user, wr, r) → registered user wr r (connStep e (reg, d)).2.
Proof.
  intros Hwf. destruct e as [now session p|now session k r' wr' id|x|reg']; cbn; [| |done..];
    destruct (userOf session) as [[s user']|] eqn:Hu; try done; cbn.
  - unfold getLink. rewrite Hu. destruct (lookupLimiter reg (Tag s)); [|done].
    destruct (Limiter.CheckLimit _ _ _ _ _) as [l2 [b []]]; [done|].
    destruct (linkManager _ _ d) as [lm d1] eqn:Hlm. destruct (managedWriter _ lm d1) as [a0 d2] eqn:Ha.
    destruct (userStorage (Tag s) _ _) as [ts d3] eqn:Hts. intros [= <- <- <-].
    by destruct (admit_spec _ _ _ _ _ _ _ _ _ _ _ Hwf Hlm Ha Hts) as (_ & _ & ? & _).
  - unfold admitLink. rewrite Hu. destruct (lookupLimiter reg (Tag s)); [|done].
    destruct (Limiter.CheckLimit _ _ _ _ _) as [l2 [b []]]; [done|].
    destruct (linkManager _ _ d) as [lm d1] eqn:Hlm. destruct (managedWriter _ lm d1) as [a0 d2] eqn:Ha.
    pose proof (addLink_userStorage (Tag s) user' lm a0 id d2) as Hsw. destruct (userStorage (Tag s) _ d2) as [ts d3] eqn:Hts.
    intros [= <- <- <-]. by destruct (admit_spec _ _ _ _ _ _ _ _ _ _ _ Hwf Hlm Ha Hsw) as (_ & _ & ? & _).
Qed.


(** *** Two first connections of a user

    [LinkManagers.Load] and [Store] are two steps: two connections may both find
    no manager, and each stores its own. *)
Definition racedFirst (user : string) (wr1 r1 wr2 r2 : nat) d : Dispatcher :=
  let loaded := LinkManagers d !! user in
  let '(lm1, d) := linkManager loaded user d in
  let '(lm2, d) := linkManager loaded user d in
  let '(a1, d) := managedWriter wr1 lm1 d in
  let d := addLink lm1 a1 r1 d in
  let '(a2, d) := managedWriter wr2 lm2 d in
  addLink lm2 a2 r2 d.

Lemma CloseAll_single lm a r mw (w : Links.World) :
  Links.links lm w = {[a := r]} → Links.managed w !! a = Some mw →
  Links.closed (Links.CloseAll [] lm w) = Links.writer mw :: Links.closed w.
Proof.
  intros Hl Hm. cbn [Links.CloseAll]. rewrite Hl, bool_decide_false by apply map_non_empty_singleton.
  pose proof (range_list_perm ({[a := r]} : gmap nat nat)) as Hp. rewrite map_to_list_singleton in Hp.
  apply Permutation_sym, Permutation_singleton_l in Hp. rewrite <- Hp. cbn. unfold Links.closeLink, Links.Close. cbn [fst snd].
  change (Links.managed (Links.withLinks lm ∅ w)) with (Links.managed w). by rewrite Hm.
Qed.

(** The user's manager is taken out of the table, and its links are shut. *)
Lemma forgetUser_links tag user lm d v :
  LinkManagers d !! user = Some lm →
  ∃ d', dispatcher (forgetUser noArrivals tag user (withDispatcher (Some d) v)) = Some d'
    ∧ LinkManagers d' = delete user (LinkManagers d) ∧ world d' = Links.CloseAll [] lm (world d).
Proof. intros Hlm. unfold forgetUser. cbn [dispatcher withUsers withDispatcher]. rewrite Hlm. by eexists. Qed.

(** The second manager is the one in the table, with the second link only. *)
Lemma racedFirst_spec user wr1 r1 wr2 r2 d :
  LinkManagers d !! user = None →
  let d' := racedFirst user wr1 r1 wr2 r2 d in
  ∃ lm a, LinkManagers d' !! user = Some lm ∧ Links.links lm (world d') = {[a := r2]}
    ∧ Links.managed (world d') !! a = Some (Links.mkManagedWriter wr2 lm) ∧ Links.closed (world d') = Links.closed (world d).
Proof.
  intros Hn. unfold racedFirst. rewrite Hn. unfold linkManager, managedWriter, Links.newLinkManager, Links.newManagedWriter.
  cbn -[fresh]. set (lm1 := fresh (dom (Links.managers (world d)))).
  set (lm2 := fresh (dom (<[lm1:=∅]> (Links.managers (world d))))).
  set (a1 := fresh (dom (Links.managed (world d)))). set (a2 := fresh (dom (<[a1:=_]> (Links.managed (world d))))).
  assert (Hlm : lm2 ≠ lm1).
  { intros E. apply (is_fresh (dom (<[lm1:=∅ : gmap nat nat]> (Links.managers (world d))))). fold lm2. rewrite E, dom_insert_L. set_solver. }
  exists lm2, a2. split_and!; [apply lookup_insert_eq| |cbn; apply lookup_insert_eq|done].
  unfold Links.AddLink. rewrite Links.links_withLinks, decide_True by done.
  unfold Links.links. cbn. rewrite lookup_insert_ne by done. by rewrite lookup_insert_eq.
Qed.

(** When the first two connections of a user race, deleting the user shuts one of
    them only: the manager of the other is not in the table any more. *)
Theorem first_links_race user wr1 r1 wr2 r2 d tag v :
  LinkManagers d !! user = None → wr1 ≠ wr2 → wr1 ∉ Links.closed (world d) →
  ∃ d', dispatcher (forgetUser noArrivals tag user (withDispatcher (Some (racedFirst user wr1 r1 wr2 r2 d)) v)) = Some d'
    ∧ LinkManagers d' !! user = None ∧ wr2 ∈ Links.closed (world d') ∧ wr1 ∉ Links.closed (world d').
Proof.
  intros Hn Hne Hc. destruct (racedFirst_spec user wr1 r1 wr2 r2 d Hn) as (lm & a & Hlm & Hl & Ha & Hcl).
  destruct (forgetUser_links tag user lm _ v Hlm) as (d' & Hd & Hm & Hw). exists d'. rewrite Hm, Hw.
  rewrite (CloseAll_single lm a r2 _ _ Hl Ha), Hcl. split_and!; [done|apply lookup_delete_eq|by left|].
  by intros [E|Hin]%elem_of_cons.
Qed.
End links.

(** ** Sniffing *)

Section sniffing.
Context {Payload : Type}.
Implicit Types sniffers : list (protocolSnifferWithMetadata Payload).

(** A sniffer that was asked stays only when it has no clue yet. *)
Lemma askSniffers_left asks payload pending sniffers left_ :
  askSniffers asks false payload pending sniffers = inr left_ →
  ∀ si, si ∈ left_ ↔ si ∈ pending ∨ (si ∈ sniffers ∧ asks si = true ∧ protocolSniffer si payload = SniffErr ErrNoClue).
Proof.
  revert pending. induction sniffers as [|si0 sniffers IH]; intros pending; cbn [askSniffers].
  - intros [= ->] si. set_solver.
  - assert (Hdrop : ∀ l : list (protocolSnifferWithMetadata Payload),
      l = pending ∨ (l = pending ++ [si0] ∧ asks si0 = true ∧ protocolSniffer si0 payload = SniffErr ErrNoClue) →
      (l = pending → ¬ (asks si0 = true ∧ protocolSniffer si0 payload = SniffErr ErrNoClue)) →
      askSniffers asks false payload l sniffers = inr left_ →
      ∀ si, si ∈ left_ ↔ si ∈ pending ∨ (si ∈ si0 :: sniffers ∧ asks si = true ∧ protocolSniffer si payload = SniffErr ErrNoClue)).
    { intros l Hl Hno Hask si. rewrite (IH _ Hask si), elem_of_cons. destruct Hl as [->|(-> & Ha & Hp)].
      - specialize (Hno eq_refl). naive_solver.
      - rewrite elem_of_app, list_elem_of_singleton. naive_solver. }
    destruct (asks si0) eqn:Ha; cbn [negb]; [|apply Hdrop; [by left|by intros _ [? _]]].
    destruct (protocolSniffer si0 payload) as [[r|]|[]] eqn:Hp; [done|..]; apply Hdrop; try (by left); try (by intros _ [_ ?]).
    + by right.
    + intros E%(f_equal length). rewrite length_app in E. cbn in E. lia.
Qed.

(** A sniffer that needs more bytes is given up: [Sniff] never says so, and when it
    says that there is no clue, only the sniffers without a clue are left. *)
Theorem needMore_lost net payload sniffers left_ e :
  Sniff net payload sniffers = (left_, SniffErr e) →
  e ≠ ErrProtoNeedMoreData
  ∧ (e = ErrNoClue → ∀ si, si ∈ left_ → si ∈ sniffers ∧ protocolSniffer si payload = SniffErr ErrNoClue).
Proof.
  unfold Sniff, sniffWith. destruct (askSniffers _ _ _ _ _) as [r|[|si0 l]] eqn:Hask; intros [= <- <-]; [done|].
  split; [done|]. intros _ si Hsi. apply (askSniffers_left _ _ _ _ _ Hask) in Hsi. set_solver.
Qed.

Lemma Sniff_not_needMore net payload sniffers : (Sniff net payload sniffers).2 ≠ SniffErr ErrProtoNeedMoreData.
Proof. unfold Sniff, sniffWith. by destruct (askSniffers _ _ _ _ _) as [r|[|si0 l]]. Qed.

(** The loop of [sniffer] reads at most as often as attempts are left. *)
Lemma sniffContent_attempts net rounds deadline n sniffers :
  (n < 2)%nat → (2 - n ≤ length rounds)%nat →
  ∃ r, ∀ later, sniffContent net (take (2 - n) rounds ++ later) deadline n sniffers = Some r.
Proof.
  revert deadline n sniffers. induction rounds as [|round rounds IH]; intros deadline n sniffers Hn Hlen; [cbn in Hlen; lia|].
  replace (2 - n)%nat with (S (2 - S n)) by lia. cbn [take app].
  destruct round as [| |elapsed payload]; [by eexists|by eexists|]. cbn [sniffContent].
  assert (Hagain : ∀ sniffers, ∃ r, ∀ later,
    (if (2 <=? S n)%nat || (deadline - elapsed <=? 0) then Some (SniffErr ErrOther)
     else sniffContent net (take (2 - S n) rounds ++ later) (deadline - elapsed) (S n) sniffers) = Some r).
  { intros sniffers'. destruct (2 <=? S n)%nat eqn:Hc; [by eexists|]. apply Nat.leb_gt in Hc.
    destruct (deadline - elapsed <=? 0); [by eexists|]. apply IH; cbn in Hlen; lia. }
  destruct payload as [payload|]; [|apply Hagain].
  pose proof (Sniff_not_needMore net payload sniffers) as Hnm. destruct (Sniff net payload sniffers) as [left_ [r|[]]];
    [by eexists|apply Hagain|done|by eexists].
Qed.

(** [sniffer] ends after at most two reads of the connection, whatever the sniffers
    say, and what would arrive later does not matter. *)
Theorem sniffer_two_reads nothing metadataOnly net rounds sniffers :
  (2 ≤ length rounds)%nat →
  ∃ r, ∀ later, sniffer nothing metadataOnly net (take 2 rounds ++ later) sniffers = Some r.
Proof.
  intros Hlen. unfold sniffer. destruct (SniffMetadata nothing sniffers) as [left_ meta]. destruct metadataOnly; [by eexists|].
  destruct (sniffContent_attempts net rounds 200000000 0 left_ ltac:(lia) Hlen) as [r Hr].
  eexists. intros later. by rewrite Hr.
Qed.
End sniffing.

(** ** The cache *)

(** What is done to a [cachedReader], with what its reader answers. *)
Inductive cacheOp (Byte : Type) :=
| DoCache (capacity : nat) (got : result (list Byte))
| DoRead (got : result (list Byte)).
Arguments DoCache {Byte} capacity got.
Arguments DoRead {Byte} got.

(** The cache, the bytes read, and the bytes the reader gave. *)
Definition cacheStep {Byte : Type} (st : list Byte * list Byte * list Byte) (op : cacheOp Byte) :=
  let '(cache, out, taken) := st in
  let bytesOf (r : result (list Byte)) := if r is Ok mb then mb else [] in
  match op with
  | DoCache n got => ((Cache n got cache).1, out, taken ++ bytesOf got)
  | DoRead got =>
      let '(cache, mb, asked) := ReadMultiBuffer got cache in
      (cache, out ++ bytesOf mb, taken ++ if asked : bool then bytesOf got else [])
  end.

(** Sniffing loses, repeats and reorders no byte: what was read, with what is
    still cached, is what the reader gave. *)
Theorem cache_keeps_stream {Byte : Type} (ops : list (cacheOp Byte)) :
  let '(cache, out, taken) := foldl cacheStep ([], [], []) ops in out ++ cache = taken.
Proof.
  induction ops as [|op ops IH] using rev_ind; [done|]. rewrite foldl_app. cbn.
  destruct (foldl cacheStep _ ops) as [[cache out] taken]. subst taken. destruct op as [n [mb|e]|[mb|e]]; cbn.
  - by rewrite app_assoc.
  - by rewrite app_nil_r.
  - destruct cache; cbn; by rewrite ?app_nil_r.
  - destruct cache; cbn; by rewrite ?app_nil_r.
Qed.

(** ** Examples at which the hypotheses hold *)

Module Examples.
#[local] Existing Instance CoreProps.Examples.exampleConf.
#[local] Existing Instance CoreProps.Examples.exampleXray.
#[local] Existing Instance LimiterProps.exampleRateLimit.
#[local] Instance exampleOrder : RangeOrder string := canonical_order string.
#[local] Instance exampleOrderNat : RangeOrder nat := canonical_order nat.

Definition exampleEmpty : Dispatcher := mkDispatcher ∅ ∅ (Traffic.mkStore ∅ 0) (Links.mkWorld ∅ ∅ [] []).

Lemma exampleEmpty_wf : wfDispatcher exampleEmpty.
Proof. split; intros *; cbn; by rewrite ?lookup_empty. Defined.

Definition exampleSession : Inbound_ := mkInbound "t" (Some "t|u") "1.1.1.1" true.

(** A second address of the same user; its limit is one device. *)
Definition exampleSecond : Inbound_ := mkInbound "t" (Some "t|u") "2.2.2.2" true.

Definition exampleLimiters : Registry :=
  {["t" := Limiter.newLimiter "vless" "t" [Panel.mkUserInfo 1 "u" 0 1] None]}.

Definition examplePipes (n : nat) : Pipes := mkPipes n (n + 1) (n + 2) (n + 3).

Definition exampleLimiter : Limiter.Limiter := Limiter.newLimiter "vless" "t" [Panel.mkUserInfo 1 "u" 0 1] None.

(** The limiter after the first connection. *)
Definition exampleTaken : Limiter.Limiter := (Limiter.CheckLimit 0 "t|u" "1.1.1.1" true exampleLimiter).1.

Lemma getLink_outcome_witness :
  (∃ d' r, getLink 0 (lookupLimiter exampleLimiters) (Some exampleSession) (examplePipes 1) exampleEmpty
           = (d', Some exampleTaken, r) ∧ registered "t|u" 2 1 d')
  ∧ (∃ d', getLink 0 (λ _, Ok exampleTaken) (Some exampleSecond) (examplePipes 1) exampleEmpty
           = (d', Some (Limiter.CheckLimit 0 "t|u" "2.2.2.2" true exampleTaken).1, Err (limitedError "t|u"))
           ∧ (2%nat ∈ Links.closed (world d'))).
Proof.
  split.
  - destruct (getLink_outcome 0 (lookupLimiter exampleLimiters) exampleSession "t|u" (examplePipes 1) exampleEmpty
      exampleLimiter exampleTaken None false exampleEmpty_wf) as (d' & r & Hd & Ho);
      [reflexivity|vm_compute; reflexivity|vm_compute; reflexivity|].
    exists d', r. split; [exact Hd|]. destruct Ho as (inbound & outbound & ts & _ & Hr & _). exact Hr.
  - destruct (getLink_outcome 0 (λ _, Ok exampleTaken) exampleSecond "t|u" (examplePipes 1) exampleEmpty
      exampleTaken (Limiter.CheckLimit 0 "t|u" "2.2.2.2" true exampleTaken).1 None true exampleEmpty_wf) as (d' & r & Hd & Ho);
      [reflexivity|reflexivity|vm_compute; reflexivity|].
    destruct Ho as (-> & _ & _ & _ & _ & Hc & _). exists d'. split; [exact Hd|exact Hc].
Defined.

(** The user connects, by [Dispatch] and again by [DispatchLink] from the same address;
    a connection of another user begins and ends. *)
Definition exampleEvents : list connEvent :=
  [Piped 0 (Some exampleSession) (examplePipes 1); Linked 1 (Some exampleSession) TimeoutReader 14 15 16;
   Linked 5 (Some (mkInbound "t" (Some "t|w") "3.3.3.3" true)) TimeoutReader 11 12 13; Ended 1].

Definition exampleLater : Dispatcher := (runConns exampleEvents (exampleLimiters, exampleEmpty)).2.

Definition exampleCore : V2Core :=
  withDispatcher (Some exampleLater) (withUsers (Some ∅) CoreProps.Examples.exampleCore).

(** The writer 2 of the user's first connection arrives again. *)
Definition exampleArrivals : LinkArrivals := λ k, if bool_decide (k = "t|u") then [[(0%nat, 1%nat)]] else [].


Lemma first_links_race_witness :
  ∃ d', dispatcher (forgetUser noArrivals "t" "t|u"
          (withDispatcher (Some (racedFirst "t|u" 1 2 3 4 exampleEmpty)) CoreProps.Examples.exampleCore)) = Some d'
    ∧ (1%nat ∉ Links.closed (world d')).
Proof.
  destruct (first_links_race "t|u" 1 2 3 4 exampleEmpty "t" CoreProps.Examples.exampleCore) as (d' & Hd & _ & _ & Hc);
    [reflexivity|discriminate|apply not_elem_of_nil|].
  exists d'. split; [exact Hd|exact Hc].
Defined.

(** A sniffer that wants more than the first bytes. *)
Definition exampleSniffers : list (protocolSnifferWithMetadata string) :=
  [mkSniffer (λ _, SniffErr ErrProtoNeedMoreData) false Network_TCP; mkSniffer (λ _, SniffErr ErrNoClue) false Network_TCP].

Lemma needMore_lost_witness :
  ∀ si, si ∈ (Sniff Network_TCP "G" exampleSniffers).1 → protocolSniffer si "G" = SniffErr ErrNoClue.
Proof.
  intros si Hsi. apply (needMore_lost Network_TCP "G" exampleSniffers (Sniff Network_TCP "G" exampleSniffers).1 ErrNoClue); [reflexivity|reflexivity|exact Hsi].
Defined.

Lemma sniffer_two_reads_witness :
  ∃ r, ∀ later, sniffer "" false Network_TCP ([Cached 5 None; Cached 5 (Some "G")] ++ later) exampleSniffers = Some r.
Proof. apply (sniffer_two_reads "" false Network_TCP [Cached 5 None; Cached 5 (Some "G")] exampleSniffers). cbn. lia. Defined.
End Examples.
End DispatcherProps.
