(* ===== verification/CustomRoutingProps.v ===== *)
(** * Properties of the routing configuration

    Whatever the nodes ask for, the configuration is well formed: the standard
    outbounds come first, a rule applies to the inbound of the node that asked for
    it only, and it leads to an outbound that exists ([routing_wellFormed]), unless
    its own outbound could not be built; then its connections are shut
    ([unbuilt_outbound_shuts]). *)

From S2P Require Import Prelude GoStrings Panel Conf Inbound Limiter Links Traffic Core Dispatcher CustomRouting.

Module CustomRoutingProps.
Import CustomRouting.

(** A handler is made for the tag of its configuration. *)
Class RoutingLaws `{XrayRouting} := {
  buildOutbound_tag c h : buildOutbound c = Some h → Tag h = Inbound.out_Tag c;
  buildCustom_tag o h : buildCustom o = Some h → Tag h = customTag o
}.

Section routing.
Context `{RoutingLaws}.
Implicit Types b : Building.

(** ** The invariant *)

(** The tag leads somewhere, or is the one of an outbound that does not build. *)
Definition leads b (tag : string) : Prop :=
  hasOutboundWithTag (outbounds b) tag = true ∨ ∃ o, buildCustom o = None ∧ customTag o = tag.

Definition ofNode (infos : list Panel.NodeInfo) (r : Rule) : Prop := ∃ n, n ∈ infos ∧ inboundTag r = Some (Panel.Tag n).

(** What holds of the configuration for the nodes [infos]. *)
Record routes (cfg : option Conf.Conf) (infos : list Panel.NodeInfo) b : Prop := {
  rt_standard : standardOutbounds cfg `prefix_of` outbounds b;
  rt_rules : ∃ rules, ruleList b = dnsRule :: rules ∧ Forall (ofNode infos) rules;
  rt_leads : ∀ r, r ∈ ruleList b → leads b (outboundTag r);
  rt_dns : (λ s, (ParseAddress s, None)) <$> configuredDNSServers cfg `prefix_of` servers b
}.

Lemma hasOutbound_prefix l l' tag : l `prefix_of` l' → hasOutboundWithTag l tag = true → hasOutboundWithTag l' tag = true.
Proof. intros [k ->] Hh. unfold hasOutboundWithTag in *. by rewrite existsb_app, Hh. Qed.

Lemma leads_prefix b b' tag : outbounds b `prefix_of` outbounds b' → leads b tag → leads b' tag.
Proof. intros Hp [Hh|Ho]; [left; by eapply hasOutbound_prefix|by right]. Qed.

(** *** The steps *)

Lemma addServer_routes cfg infos b value domains : routes cfg infos b → routes cfg infos (addServer value domains b).
Proof. intros [R1 R2 R3 R4]. split; [done|done|done|]. by apply prefix_app_r. Qed.

Lemma addRule_routes cfg infos b r :
  routes cfg infos b → ofNode infos r → leads b (outboundTag r) → routes cfg infos (addRule r b).
Proof.
  intros [R1 (rules & Hr & Hf) R3 R4] Hn Hl. split; [done| | |done].
  - exists (rules ++ [r]). cbn. rewrite Hr. split; [done|]. apply Forall_app. by split; [|apply Forall_singleton].
  - intros r' [Hin| ->%list_elem_of_singleton]%elem_of_app; [by apply R3|done].
Qed.

Lemma addOutbound_prefix o b : outbounds b `prefix_of` outbounds (addOutbound o b).
Proof. unfold addOutbound. destruct (hasOutboundWithTag _ _); [done|]. destruct (buildCustom o); [by eexists|done]. Qed.

(** After a custom route, its tag leads somewhere. *)
Lemma addOutbound_leads o b : leads (addOutbound o b) (customTag o).
Proof.
  unfold addOutbound. destruct (hasOutboundWithTag _ _) eqn:Hh; [by left|]. destruct (buildCustom o) as [h|] eqn:Hb.
  - left. cbn. unfold hasOutboundWithTag. rewrite existsb_app. cbn. rewrite (buildCustom_tag o h Hb), bool_decide_true by done.
    by rewrite orb_true_r.
  - right. by exists o.
Qed.

Lemma addOutbound_rest o b : ruleList (addOutbound o b) = ruleList b ∧ servers (addOutbound o b) = servers b.
Proof. unfold addOutbound. destruct (hasOutboundWithTag _ _); [done|]. by destruct (buildCustom o). Qed.

Lemma customRoute_routes cfg infos b value rule :
  routes cfg infos b → (∀ out, ofNode infos (rule out) ∧ outboundTag (rule out) = out) → routes cfg infos (customRoute value rule b).
Proof.
  intros [R1 (rules & Hr & Hf) R3 R4] Hrule. unfold customRoute. destruct (value ≫= unmarshalOutbound) as [o|]; [|split; eauto].
  destruct (Hrule (customTag o)) as [Hn Ho]. set (b1 := addRule (rule (customTag o)) b).
  destruct (addOutbound_rest o b1) as [E1 E2]. pose proof (addOutbound_prefix o b1) as Hp. split.
  - by etrans.
  - exists (rules ++ [rule (customTag o)]). rewrite E1. cbn. rewrite Hr. split; [done|]. apply Forall_app. by split; [|apply Forall_singleton].
  - rewrite E1. intros r [Hin| ->%list_elem_of_singleton]%elem_of_app.
    + eapply leads_prefix; [exact Hp|]. by apply R3.
    + rewrite Ho. apply addOutbound_leads.
  - by rewrite E2.
Qed.

(** The standard outbounds, when they build, are there from the start. *)
Lemma standard_leads cfg infos b tag :
  Forall is_Some (standardOutbounds cfg) → routes cfg infos b → tag ∈ ["Default"; "block"; "dns_out"] → leads b tag.
Proof.
  intros Hb [R1 _ _ _] Ht. left. eapply hasOutbound_prefix; [exact R1|]. clear R1.
  unfold standardOutbounds in *. set (cs := [_; _; _]) in *.
  assert (Hc : tag ∈ (Inbound.out_Tag <$> cs)) by done. clearbody cs. unfold hasOutboundWithTag.
  induction cs as [|c cs IH]; cbn in *; [by apply elem_of_nil in Hc|].
  inversion Hb as [|x l [h Hh] Hbs]; subst. rewrite Hh. apply elem_of_cons in Hc as [->|Hc].
  - by rewrite (buildOutbound_tag c h Hh), bool_decide_true.
  - rewrite IH by done. apply orb_true_r.
Qed.

Lemma routeStep_routes cfg infos b n route :
  Forall is_Some (standardOutbounds cfg) → n ∈ infos → routes cfg infos b → routes cfg infos (routeStep (Panel.Tag n) b route).
Proof.
  intros Hb Hn HR.
  assert (Hof : ∀ d i p pr nw out, ofNode infos (mkRule (Some (Panel.Tag n)) d i p pr nw out)) by (intros; exists n; by split).
  assert (Hblock : ∀ d i p pr, routes cfg infos (addRule (mkRule (Some (Panel.Tag n)) d i p pr None "block") b)).
  { intros. apply addRule_routes; [done|apply Hof|]. apply (standard_leads cfg infos); [done|done|]. set_solver. }
  unfold routeStep. repeat case_bool_decide; try done; try apply Hblock;
    try (apply customRoute_routes; [done|]; by split).
  destruct (Panel.ActionValue route); [by apply addServer_routes|done].
Qed.

Lemma nodeSteps_routes cfg infos todo b b' :
  Forall is_Some (standardOutbounds cfg) → todo ⊆ infos → routes cfg infos b → nodeSteps b todo = Some b' → routes cfg infos b'.
Proof.
  intros Hb. revert b. induction todo as [|n todo IH]; intros b Hsub HR; cbn [nodeSteps]; [by intros [= <-]|].
  unfold nodeStep. destruct (Panel.Common n) as [c|]; [|done]. apply IH; [set_solver|].
  generalize (default [] (Panel.Routes c)). intros l. revert b HR. induction l as [|r l IHl]; intros b HR; [done|]. cbn.
  apply IHl. apply routeStep_routes; [done|set_solver|done].
Qed.

Lemma startBuilding_routes cfg infos :
  Forall is_Some (standardOutbounds cfg) → routes cfg infos (startBuilding cfg).
Proof.
  intros Hb. split; [done| | |done].
  - by exists [].
  - intros r ->%list_elem_of_singleton. left. cbn [startBuilding outbounds].
    unfold standardOutbounds in *. cbn in *. inversion_clear Hb as [|? ? [h1 H1] Hb1]. inversion_clear Hb1 as [|? ? [h2 H2] Hb2].
    inversion_clear Hb2 as [|? ? [h3 H3] _]. rewrite H1, H2, H3. cbn. rewrite (buildOutbound_tag _ _ H3).
    rewrite !orb_true_iff. right. right. left. by apply bool_decide_true.
Qed.

(** ** The configuration *)

(** The configuration that is returned is built of servers, outbounds and rules for
    which [routes] holds: the standard outbounds first, after the rule for DNS only
    rules for the inbounds of the nodes given, each to an outbound that is there or
    to one that does not build, and the configured DNS servers first. *)
Theorem routing_wellFormed cfg infos dns outs router :
  Forall is_Some (standardOutbounds cfg) →
  GetCustomConfig cfg infos = Some (Ok (dns, outs, router)) →
  ∃ b, outs = outbounds b ∧ routes cfg infos b
    ∧ buildDns (configuredIPStrategy cfg) (servers b) = Ok dns ∧ buildRouter "AsIs" (ruleList b) = Ok router.
Proof.
  intros Hb. unfold GetCustomConfig. destruct (nodeSteps _ infos) as [b|] eqn:Hn; [|done].
  destruct (buildDns _ _) as [dns'|] eqn:Hd; [|done]. destruct (buildRouter _ _) as [router'|] eqn:Hr; [|done].
  intros [= <- <- <-]. exists b. split_and!; [done| |done|done].
  by eapply (nodeSteps_routes cfg infos infos), Hn; [| |apply startBuilding_routes].
Qed.

(** A node whose default outbound does not build: the rule for all its connections
    leads to a tag that no outbound has, and the dispatcher shuts them, though there
    is a default outbound. *)
Theorem unbuilt_outbound_shuts cfg n c route value o dns outs router (ohm : Dispatcher.OutboundManager) h :
  Panel.Common n = Some c → Panel.Routes c = Some [route] → Panel.Action route = "default_out" →
  Panel.ActionValue route = Some value → unmarshalOutbound value = Some o → buildCustom o = None →
  hasOutboundWithTag (standardOutbounds cfg) (customTag o) = false →
  GetCustomConfig cfg [n] = Some (Ok (dns, outs, router)) →
  (∀ tag, hasOutboundWithTag outs tag = false → Dispatcher.GetHandler ohm tag = None) →
  Dispatcher.GetDefaultHandler ohm = Some h →
  let rule := mkRule (Some (Panel.Tag n)) None None None None (Some "tcp,udp") (customTag o) in
  buildRouter "AsIs" [dnsRule; rule] = Ok router
  ∧ Dispatcher.routedDispatch ohm "" (Some (Ok (outboundTag rule))) = Dispatcher.Shut
  ∧ Dispatcher.routedDispatch ohm "" (Some (Err (errorf "no rule"))) = Dispatcher.ToHandler h.
Proof.
  intros Hc Hr Ha Hv Ho Hb Hs Hg Hohm Hh.
  assert (Hn : nodeSteps (startBuilding cfg) [n]
    = Some (addRule (mkRule (Some (Panel.Tag n)) None None None None (Some "tcp,udp") (customTag o)) (startBuilding cfg))).
  { cbn [nodeSteps]. unfold nodeStep. rewrite Hc, Hr.
    cbn [default from_option id foldl]. unfold routeStep. rewrite Ha, Hv. cbn -[customRoute startBuilding]. unfold customRoute. cbn [mbind option_bind]. rewrite Ho.
    unfold addOutbound. cbn [outbounds addRule startBuilding]. by rewrite Hs, Hb. }
  unfold GetCustomConfig in Hg. rewrite Hn in Hg. destruct (buildDns _ _) as [dns'|]; [|done].
  destruct (buildRouter _ _) as [router'|] eqn:Hrt; [|done]. injection Hg as <- <- <-. split_and!; [done| |].
  - unfold Dispatcher.routedDispatch. cbn. by rewrite (Hohm (customTag o)).
  - unfold Dispatcher.routedDispatch. cbn. by rewrite Hh.
Qed.
End routing.

(** ** Examples at which the hypotheses hold *)

Module Examples.
(** A custom outbound is its tag; the one of tag "bad" does not build. *)
#[local] Instance exampleRouting : XrayRouting := {|
  Address := string;
  ParseAddress s := s;
  OutboundHandlerConfig := string;
  Tag t := t;
  buildOutbound c := Some (Inbound.out_Tag c);
  CustomOutbound := string;
  unmarshalOutbound s := Some s;
  customTag s := s;
  buildCustom s := if bool_decide (s = "bad") then None else Some s;
  DnsConfig := list (string * Strings);
  RouterConfig := list Rule;
  buildDns _ l := Ok l;
  buildRouter _ l := Ok l
|}.

#[local] Instance exampleLaws : RoutingLaws.
Proof. split; [by intros c h [= <-]|]. intros o h. cbn. case_bool_decide; [done|]. by intros [= <-]. Defined.

Definition exampleRouted (action value : string) : Panel.NodeInfo :=
  Panel.mkNodeInfo 1 "vless" 0 0 0 "t" (Some
    (Panel.mkCommonNode "" "" 0 "" "" (Some [Panel.mkRoute 1 (Some ["a.org"]) action (Some value)]) None 0 Panel.zeroTls None ""
      None "" (Panel.mkEncSettings "" "" "" "") "" "" "" "" "" false None 0 0 "" "" false "" "")).

Lemma routing_wellFormed_witness :
  ∃ outs router, GetCustomConfig None [exampleRouted "route" "proxy"] = Some (Ok ([("1.1.1.1", None); ("8.8.8.8", None)], outs, router))
    ∧ ∃ b, outs = outbounds b ∧ routes None [exampleRouted "route" "proxy"] b.
Proof.
  destruct (GetCustomConfig None [exampleRouted "route" "proxy"]) as [[[[dns outs] router]|e]|] eqn:Hg; [|discriminate|discriminate].
  assert (Hdns : dns = [("1.1.1.1", None); ("8.8.8.8", None)]) by (vm_compute in Hg; congruence).
  exists outs, router. split; [rewrite Hdns; reflexivity|].
  destruct (routing_wellFormed None [exampleRouted "route" "proxy"] dns outs router) as (b & Ho & Hb & _);
    [repeat constructor; eexists; reflexivity|exact Hg|].
  exists b. split; [exact Ho|exact Hb].
Defined.

Lemma unbuilt_outbound_shuts_witness :
  let ohm := Dispatcher.mkOutboundManager (λ tag, if bool_decide (tag = "Default") then Some 0%nat else None) (Some 0%nat) in
  Dispatcher.routedDispatch ohm "" (Some (Ok "bad")) = Dispatcher.Shut.
Proof.
  apply (@unbuilt_outbound_shuts exampleRouting None (exampleRouted "default_out" "bad")
    (default Panel.zeroCommon (Panel.Common (exampleRouted "default_out" "bad")))
    (Panel.mkRoute 1 (Some ["a.org"]) "default_out" (Some "bad")) "bad" "bad" [("1.1.1.1", None); ("8.8.8.8", None)]
    (standardOutbounds None) [dnsRule; mkRule (Some "t") None None None None (Some "tcp,udp") "bad"]
    (Dispatcher.mkOutboundManager (λ tag, if bool_decide (tag = "Default") then Some 0%nat else None) (Some 0%nat)) 0%nat);
    try reflexivity.
  intros tag Htag. unfold Dispatcher.GetHandler. case_bool_decide as E; [|reflexivity]. rewrite E in Htag. vm_compute in Htag. discriminate Htag.
Defined.
End Examples.
End CustomRoutingProps.
