(* ===== verification/CoreBuildProps.v ===== *)
(** * The core that is built

    What [V2Core.Start] hands to Xray and takes over from it ([core_started]). *)

From S2P Require Import Prelude GoStrings Panel Conf Inbound Limiter Links Traffic Core CoreProps Dispatcher CustomRouting CustomRoutingProps CoreBuild.

Module CoreBuildProps.
Import CustomRouting CustomRoutingProps CoreBuild.

Section build.
Context `{XRL : RoutingLaws} `{XCO : Core.XrayCore} {RO : RangeOrder string} {ROn : RangeOrder nat}.
Context (newInstance : CoreConfig → result Core.Instance_) (startInstance : Core.Instance_ → option GoError).
Context (features : Core.Instance_ → Core.IHM * Core.Dispatcher).

(** The instance that is started is made for a well-formed routing of the nodes
    (see [routing_wellFormed]), without inbounds, which the nodes add, and with
    statistics for all users; the core has its features exactly if it started, and
    keeps its users. *)
Theorem core_started c infos v v' e :
  Forall is_Some (standardOutbounds (Some c)) →
  startInstanceWith newInstance startInstance features c infos v = Some (v', e) →
  ∃ cfg server b,
    newInstance cfg = Ok server ∧ startInstance server = e ∧ Core.Server v' = Some server
    ∧ Outbounds cfg = outbounds b ∧ routes (Some c) infos b ∧ Inbounds cfg = []
    ∧ Levels cfg !! 0 = Some levelPolicyConfig ∧ StatsUserUplink levelPolicyConfig && StatsUserDownlink levelPolicyConfig = true
    ∧ Core.uidMap v' = Core.uidMap v ∧ Core.externalSidecarTags v' = Core.externalSidecarTags v
    ∧ (Core.ihm v', Core.dispatcher v')
      = match e with None => (Some (features server).1, Some (features server).2) | Some _ => (Core.ihm v, Core.dispatcher v) end.
Proof.
  intros Hb. unfold startInstanceWith, getCore. destruct (GetCustomConfig (Some c) infos) as [[[[dns outs] router]|]|] eqn:Hg; [|done..].
  destruct (newInstance _) as [server|] eqn:Hn; [|done].
  destruct (routing_wellFormed (Some c) infos dns outs router Hb Hg) as (b & -> & Hr & _).
  destruct (startInstance server) as [e'|] eqn:Hs.
  - intros [= <- <-]. by eexists _, server, b.
  - destruct (features server) as [m d] eqn:Hf. intros [= <- <-]. eexists _, server, b. rewrite Hf. by split_and!.
Qed.
End build.

Module Examples.
Import CustomRoutingProps.Examples CoreProps.CoreProps.Examples.
#[local] Existing Instances CustomRoutingProps.Examples.exampleRouting CustomRoutingProps.Examples.exampleLaws
  CoreProps.CoreProps.Examples.exampleConf CoreProps.CoreProps.Examples.exampleXray
  CoreProps.CoreProps.Examples.exampleOrder CoreProps.CoreProps.Examples.exampleOrderNat.

Definition exampleNew : CoreConfig → result Core.Instance_ := λ _, Ok (tt : Core.Instance_).
Definition exampleFeatures : Core.Instance_ → Core.IHM * Core.Dispatcher := λ _, (∅ : gmap string (gset string), Core.emptyDispatcher).
Definition exampleStart (e : option GoError) : Core.Instance_ → option GoError := λ _, e.
Definition examplePort : option GoError := Some (errorf "listen: address already in use").

Lemma core_started_witness :
  let infos := [exampleRouted "route" "proxy"] in
  let start e := startInstanceWith exampleNew (exampleStart e) exampleFeatures Conf.New infos Core.New in
  (∃ v', start None = Some (v', None) ∧  Core.dispatcher v' = Some Core.emptyDispatcher)
  ∧ ∃ v', start examplePort = Some (v', examplePort) ∧ Core.dispatcher v' = None.
Proof.
  intros infos start. split.
  - assert (H : ∃ v', start None = Some (v', None)) by (eexists; reflexivity). destruct H as [v' H]. exists v'. split; [done|].
    destruct (core_started exampleNew (exampleStart None) exampleFeatures Conf.New infos Core.New v' None)
      as (cfg & [] & b & _ & _ & Hs & _ & _ & _ & _ & _ & _ & _ & [= _ Hd]); [by repeat constructor|exact H|]. done.
  - assert (H : ∃ v', start examplePort = Some (v', examplePort)) by (eexists; reflexivity). destruct H as [v' H]. exists v'. split; [done|].
    destruct (core_started exampleNew (exampleStart examplePort) exampleFeatures Conf.New infos Core.New v' examplePort)
      as (cfg & [] & b & _ & _ & Hs & _ & _ & _ & _ & _ & _ & _ & [= _ Hd]); [by repeat constructor|exact H|]. done.
Defined.
End Examples.
End CoreBuildProps.
