(* ===== verification/UrlEscape.v ===== *)
(** * Percent encoding (net/url)

    [url.PathEscape], the encoding of the path of a URL ([EscapedPath] of a path
    that was set), and [url.PathUnescape]. Decoding undoes both encodings
    ([PathUnescape_escape]). *)

From Stdlib Require Import Ascii.
From S2P Require Import Prelude GoStrings Json.

Module UrlEscape.
Import GoStrings.

(** The bytes that are never encoded. *)
Definition is_unreserved (a : ascii) : bool :=
  let n := N_of_ascii a in
  (N.leb 97 n && N.leb n 122) || (N.leb 65 n && N.leb n 90) || (N.leb 48 n && N.leb n 57)
  || existsb (Ascii.eqb a) (bytes "-_.~").

(** The reserved bytes that may stand in a path, and in one segment of it. *)
Definition in_path (a : ascii) : bool := is_unreserved a || existsb (Ascii.eqb a) (bytes "$&+,/:;=@").

Definition in_segment (a : ascii) : bool := is_unreserved a || existsb (Ascii.eqb a) (bytes "$&+:=@").

Definition upperHex : string := "0123456789ABCDEF".

Definition escapeByte (keeps : ascii → bool) (a : ascii) : list ascii :=
  if keeps a then [a]
  else ["%"%char; Json.nth_byte upperHex (N_of_ascii a / 16); Json.nth_byte upperHex (N_of_ascii a mod 16)].

Definition escape (keeps : ascii → bool) (s : string) : string := of_bytes (bytes s ≫= escapeByte keeps).

Definition PathEscape (s : string) : string := escape in_segment s.

(** The path of a URL as [String] writes it. *)
Definition escapePath (path : string) : string := if bool_decide (path = "*") then "*" else escape in_path path.

Definition unhex (a : ascii) : option N :=
  let n := N_of_ascii a in
  if N.leb 48 n && N.leb n 57 then Some (n - 48)%N
  else if N.leb 97 n && N.leb n 102 then Some (n - 87)%N
  else if N.leb 65 n && N.leb n 70 then Some (n - 55)%N
  else None.

Fixpoint unescape_bytes (l : list ascii) : option (list ascii) :=
  match l with
  | [] => Some []
  | a :: l =>
      if Ascii.eqb a "%" then
        match l with
        | h :: k :: l =>
            match unhex h, unhex k with
            | Some x, Some y => cons (ascii_of_N (16 * x + y)) <$> unescape_bytes l
            | _, _ => None
            end
        | _ => None
        end
      else cons a <$> unescape_bytes l
  end.

Definition PathUnescape (s : string) : option string := of_bytes <$> unescape_bytes (bytes s).

(** ** Decoding undoes encoding *)

Lemma unescape_hex a l :
  unescape_bytes ("%"%char :: Json.nth_byte upperHex (N_of_ascii a / 16) :: Json.nth_byte upperHex (N_of_ascii a mod 16) :: l)
  = cons a <$> unescape_bytes l.
Proof. cbn [unescape_bytes Ascii.eqb]. destruct a as [[] [] [] [] [] [] [] []]; reflexivity. Qed.

Lemma unescape_escapeByte keeps a l :
  keeps "%"%char = false → unescape_bytes (escapeByte keeps a ++ l) = cons a <$> unescape_bytes l.
Proof.
  intros Hk. unfold escapeByte. destruct (keeps a) eqn:Ha; [|apply unescape_hex].
  cbn [app unescape_bytes]. destruct (Ascii.eqb_spec a "%"); [congruence|done].
Qed.

Lemma PathUnescape_escape keeps s : keeps "%"%char = false → PathUnescape (escape keeps s) = Some s.
Proof.
  intros Hk. unfold PathUnescape, escape. rewrite bytes_of_bytes.
  assert (H : unescape_bytes (bytes s ≫= escapeByte keeps) = Some (bytes s)).
  { induction (bytes s) as [|a l IH]; [done|]. cbn [mbind list_bind]. rewrite unescape_escapeByte by done.
    fold (mbind (M := list) (escapeByte keeps) l). unfold mbind in IH |- *. by rewrite IH. }
  rewrite H. cbn. by rewrite of_bytes_bytes.
Qed.

Lemma PathUnescape_escapePath path : PathUnescape (escapePath path) = Some path.
Proof. unfold escapePath. case_bool_decide as E; [by rewrite E|by apply PathUnescape_escape]. Qed.

(** What has no byte to encode stays as it is. *)
Lemma escape_id keeps s : escape keeps s = s ↔ Forall (λ a, keeps a = true) (bytes s).
Proof.
  unfold escape. split.
  - intros E. assert (Hb : bytes s ≫= escapeByte keeps = bytes s) by (by rewrite <- (bytes_of_bytes (_ ≫= _)), E). clear E.
    assert (Hlen : ∀ l, (length l <= length (l ≫= escapeByte keeps))%nat
      ∧ (length (l ≫= escapeByte keeps) = length l → Forall (λ a, keeps a = true) l)).
    { induction l as [|a l [IH1 IH2]]; [by split|]. change ((a :: l) ≫= escapeByte keeps) with (escapeByte keeps a ++ (l ≫= escapeByte keeps)).
      rewrite length_app. unfold escapeByte at 1 3. destruct (keeps a) eqn:Ha; cbn [length]; split; try lia.
      intros Hl. constructor; [done|]. apply IH2. lia. }
    apply Hlen. by rewrite Hb.
  - intros Hf. rewrite <- (of_bytes_bytes s) at 2. f_equal. induction Hf as [|a l Ha Hf IH]; [done|].
    change ((a :: l) ≫= escapeByte keeps) with (escapeByte keeps a ++ (l ≫= escapeByte keeps)). rewrite IH. unfold escapeByte. by rewrite Ha.
Qed.

Example escape_examples :
  PathEscape "a b/c" = "a%20b%2Fc" ∧ escapePath "/s/a%20b" = "/s/a%2520b" ∧ PathUnescape "a%2fb" = Some "a/b" ∧ PathUnescape "a%2" = None.
Proof. vm_compute. repeat split. Qed.
End UrlEscape.
