(* ===== verification/Subproxy.v ===== *)
(** * The subscription proxy (agent/subproxy/manager.go)

    A machine can serve the subscription links of its panels under an address of
    its own: a request for /sub/<site>/<token> is forwarded to the panel of the
    site, and the answer is passed on within a size limit. This file has the
    normalisation of its configuration, the two HTTP handlers and the preparation
    of the certificate; SubproxyManager.v has the manager of the servers. Sockets,
    net/url, net/netip, X.509 and the file system are interfaces; the paths of
    requests are those that the handlers get from the ServeMux. *)

From Stdlib Require Import Ascii.
From S2P Require Import Prelude GoStrings FilePath Json UrlEscape Panel Conf.

Module Subproxy.
Import GoStrings FilePath UrlEscape Conf.

Definition defaultHTTPSListen : string := "0.0.0.0:443".
Definition defaultMaxResponseBytes : Z := 10 * 1024 * 1024.
Definition defaultChallengeDir : string := "/etc/v2node/subproxy/challenges".

Definition sectigoR46UserTrustCrossSignedPEM : string :=
"-----BEGIN CERTIFICATE-----
MIIGlTCCBH2gAwIBAgIRANJ/u8HeNZ5SFq1hSVhgmcQwDQYJKoZIhvcNAQEMBQAw
gYgxCzAJBgNVBAYTAlVTMRMwEQYDVQQIEwpOZXcgSmVyc2V5MRQwEgYDVQQHEwtK
ZXJzZXkgQ2l0eTEeMBwGA1UEChMVVGhlIFVTRVJUUlVTVCBOZXR3b3JrMS4wLAYD
VQQDEyVVU0VSVHJ1c3QgUlNBIENlcnRpZmljYXRpb24gQXV0aG9yaXR5MB4XDTIx
MDMyMjAwMDAwMFoXDTM4MDExODIzNTk1OVowXzELMAkGA1UEBhMCR0IxGDAWBgNV
BAoTD1NlY3RpZ28gTGltaXRlZDE2MDQGA1UEAxMtU2VjdGlnbyBQdWJsaWMgU2Vy
dmVyIEF1dGhlbnRpY2F0aW9uIFJvb3QgUjQ2MIICIjANBgkqhkiG9w0BAQEFAAOC
Ag8AMIICCgKCAgEAk77VNlJ12AEjoBxHQknuY7a3If3EldVIKyZ8FFMQ2nn9K7ct
pNQs+uoy3UnCub0PSD17WphUr55dMXRPB/xQId2kz2hPGxJjbSWZTCqZ80gwYfqB
fB6nCErcPiscHxhMcao1jK34bug7StnllALWiYQTqm3ITzPMUJY3kjPcX4jnn1TZ
SPCYQ9Zm/Z8XOEPFAVEL1+MjDxRdWxTnS77d9MjaAzfR1jmhIVEwg7Bt1zBOlluR
8HAkq79FgWRDDb0hOi886Z4NyyC1QifM2m+b7mQwkDnNk2WBITG1I1AzNyLjOO34
MTDMRf5i+dFdMnlCh99qzFYZQE3Oqrv5tXZJlPEn+JGlg+UGs2MOgNzgElWApjtm
tDmHLcjw0NEU6eQNTQ72XVdyxTscR1ad4tX7gWGMzE2AkDRbt9cUddzYBEifwMEo
iLTpHMqnsfFWt3tJTFnlIBWohAIp+jiUaZpJBo/NH3kUFxIMg3reH7GX7vmXeCik
yESS6X0mBaZYcpt5E9gRX67FOGI0aLKGMI74kGGeMmz1BzbNokxu7Io27fLmmRVE
cMN8vJw5wLTha/eDJSNX2RKA5UnwdQ/vjescm1QotCE8/HwK/+97a3X/ix2gGQWr
+vgrgULoOLq7+6r9PeDzyt9Ol5cp7fMYVumllqy9w5CYsuD5otSmR0N8bc8CAwEA
AaOCASAwggEcMB8GA1UdIwQYMBaAFFN5v1qqK0rPVIDh2JvAnfKyA2bLMB0GA1Ud
DgQWBBRWc1hklfmSGrASKgRieaFAFYghSTAOBgNVHQ8BAf8EBAMCAYYwDwYDVR0T
AQH/BAUwAwEB/zAdBgNVHSUEFjAUBggrBgEFBQcDAQYIKwYBBQUHAwIwEQYDVR0g
BAowCDAGBgRVHSAAMFAGA1UdHwRJMEcwRaBDoEGGP2h0dHA6Ly9jcmwudXNlcnRy
dXN0LmNvbS9VU0VSVHJ1c3RSU0FDZXJ0aWZpY2F0aW9uQXV0aG9yaXR5LmNybDA1
BggrBgEFBQcBAQQpMCcwJQYIKwYBBQUHMAGGGWh0dHA6Ly9vY3NwLnVzZXJ0cnVz
dC5jb20wDQYJKoZIhvcNAQEMBQADggIBADpvBIlq7bMU0cFDT/9P9+BsgCkRgQs0
S6Bf7vJSlWMHwby0VGvxCS0hrbi0K2BINZbEbsVsgpQq04431yyoVn3Hldorgq24
RldRDOOipEZDTFB9wC9HYt1thHF00XeG2C8KC1plwoEzKAIhPvefI/C3cT0CfTXJ
uFjUbKIgSwjNjw6YHtLgoy/hd5+JLUlLco/gzFX/qWbT7tEquOMYpsNKWZj8TLqP
q6zMiG4Na6feEZte6YPXGrMWlTWN341vDedc+yxQqSug79HJUQcOZs7KyDWztmae
QxsPE49UV/8XwrfZtZaYyrs4FpD94Z4Q8dzXGL8+qEJjxgcza7W6PROaClubavd1
VKPm8+aCW77u7SxpR2TFGL6kPdxsKyFijpcunR5V79sUyROfNdzjrAcFWZXK8sbb
9FlnwuVG677JLv+ZVTX5AxLvW5OB4zt5uS+zB62wJ/Wv+jXGAttSAcJec4iFgCWH
Rvdi/jJoSzRLa3nEzx6pFIzclSCnh0u1xCeLcUBypSiPga8W+6PkuoyQq8U9qs9E
oxG5NvrvlyshwUS9yvcZRGw7Ljlx4jJH/BhIPR8kIBCQj1vna9TziZOrw1Of8hDU
bHKFG9Pm8Dp2vbjz/2JH39qvxshPKVllGfq+5klPm7yZRUYTiCMAbqwNdL/nsqF2
Rnnyp58XRStJ
-----END CERTIFICATE-----".

(** What is used of net, net/url and net/netip. *)
Class Network := {
  ParsedURL : Type;
  Parse : string → result ParsedURL;
  Scheme : ParsedURL → string;
  Host : ParsedURL → string;
  Path : ParsedURL → string;
  (** what [String] writes before the path, and after the query *)
  origin : ParsedURL → string;
  fragment : ParsedURL → string;
  SplitHostPort : string → option string;
  EqualFold : string → string → bool;
  Is6 : string → bool;                     (* an address of IPv6 *)
  IsPublic4 : string → bool                (* one of IPv4 that passes the tests *)
}.

(** ** The public address *)

Record Interface_ := mkInterface {
  Up : bool;
  Loopback : bool;
  Addrs : result (list (option string))    (* those of IPv4 *)
}.

Inductive LookupReply :=
| LookupFailed (e : GoError)
| LookupAnswer (status : Z) (body : string).

Section proxy.
Context `{Network}.

Definition isIPv6Literal (value : string) : bool := Is6 (TrimSpace value).

Definition isPublicIPv4Literal (value : string) : bool := IsPublic4 (TrimSpace value).

Definition usable (i : Interface_) : list string :=
  if negb (Up i) || Loopback i then []
  else match Addrs i with
       | Err _ => []
       | Ok addrs => List.filter isPublicIPv4Literal (omap id addrs)
       end.

Definition detectPublicIPv4FromInterfaces (ifaces : result (list Interface_)) : string :=
  match ifaces with
  | Err _ => ""
  | Ok l => match l ≫= usable with [] => "" | value :: _ => value end
  end.

(** The replies of the services, in the order they are asked. *)
Fixpoint lookupIPv4 (replies : list (string * LookupReply)) (lastErr : option GoError) : result string :=
  match replies with
  | [] => Err (default (errorf "public IPv4 not found") lastErr)
  | (rawURL, LookupFailed e) :: replies => lookupIPv4 replies (Some e)
  | (rawURL, LookupAnswer status body) :: replies =>
      if 400 <=? status then
        lookupIPv4 replies (Some (errorf ("public IPv4 lookup " +:+ rawURL +:+ " returned status " +:+ Itoa status)))
      else
        let ip := TrimSpace body in
        if isPublicIPv4Literal ip then Ok ip
        else lookupIPv4 replies (Some (errorf ("public IPv4 lookup " +:+ rawURL +:+ " returned invalid IP " +:+ ip)))
  end.

Definition detectPublicIPv4FromHTTP (replies : list (string * LookupReply)) : result string := lookupIPv4 replies None.

Definition detectPublicIPv4 (ifaces : result (list Interface_)) (replies : list (string * LookupReply)) : result string :=
  let ip := detectPublicIPv4FromInterfaces ifaces in
  if bool_decide (ip = "") then detectPublicIPv4FromHTTP replies else Ok ip.

(** ** Configuration *)

(** [detected] is the answer of [detectPublicIPv4]. *)
Definition resolveSubscriptionCertificateDomain (detected : result string) (domain : string) : string * bool :=
  let domain := TrimSpace domain in
  if negb (bool_decide (domain = "")) && negb (isIPv6Literal domain) then (domain, false)
  else
    match detected with
    | Err _ => (domain, false)
    | Ok ip => if bool_decide (ip = "") then (domain, false) else (ip, negb (bool_decide (ip = domain)))
    end.

(** A profile with its fields cleaned. *)
Definition trimmedProfile (p : SubscriptionProxyProfile) : SubscriptionProxyProfile :=
  let path := Trim is_slash (TrimSpace (sp_SubscribePath p)) in
  mkSubscriptionProxyProfile (TrimSpace (sp_SiteID p))
    (TrimRight is_slash (TrimSpace (sp_UpstreamBaseURL p))) (if bool_decide (path = "") then "s" else path).

(** The loop over the profiles; [seen] are the sites so far. *)
Fixpoint normalizeProfiles (seen : gset string) (l : list SubscriptionProxyProfile) : result (list SubscriptionProxyProfile) :=
  match l with
  | [] => Ok []
  | p :: l =>
      let p := trimmedProfile p in
      if bool_decide (sp_SiteID p = "" ∨ sp_UpstreamBaseURL p = "") then normalizeProfiles seen l
      else
        match Parse (sp_UpstreamBaseURL p) with
        | Err e =>
            Err (wrapErr ("invalid subscription proxy upstream for site " +:+ sp_SiteID p +:+ ": ") e)
        | Ok parsed =>
            if bool_decide (Scheme parsed = "" ∨ Host parsed = "") then
              Err (errorf ("invalid subscription proxy upstream for site " +:+ sp_SiteID p))
            else
              let key := ToLower (sp_SiteID p) in
              if bool_decide (key ∈ seen) then normalizeProfiles seen l
              else match normalizeProfiles ({[key]} ∪ seen) l with Err e => Err e | Ok ps => Ok (p :: ps) end
        end
  end.

(** [normalizeConfig], with the error beside the configuration as far as it got. *)
Definition normalizeConfig (detected : result string) (cfg : SubscriptionProxyConfig) : SubscriptionProxyConfig * option GoError :=
  let orDefault v d := if bool_decide (v = "") then d else v in
  let domain := TrimSpace (CertificateDomain cfg) in
  let domain := if px_Enabled cfg
                then let '(resolved, changed) := resolveSubscriptionCertificateDomain detected domain in
                     if changed then resolved else domain
                else domain in
  let site := TrimSpace (SiteID cfg) in
  let upstream := TrimRight is_slash (TrimSpace (UpstreamBaseURL cfg)) in
  let path := Trim is_slash (TrimSpace (SubscribePath cfg)) in
  let maxBytes := if MaxResponseBytes cfg <=? 0 then defaultMaxResponseBytes else MaxResponseBytes cfg in
  let profiles := px_Profiles cfg ++
    if bool_decide (site = "" ∧ upstream = "") then [] else [mkSubscriptionProxyProfile site upstream path] in
  let cleaned ps :=
    mkSubscriptionProxyConfig (px_Enabled cfg) (orDefault (TrimSpace (HTTPSListen cfg)) defaultHTTPSListen)
      (TrimSpace (HTTPListen cfg)) (TrimSpace (CertFile cfg)) (TrimSpace (KeyFile cfg)) domain
      (orDefault (TrimSpace (ChallengeDir cfg)) defaultChallengeDir) (ZeroSSL cfg) site upstream path
      (AllowHTTPFallback cfg) maxBytes ps in
  match normalizeProfiles ∅ profiles with
  | Err e => (cleaned profiles, Some e)
  | Ok ps =>
      (cleaned ps,
       if px_Enabled cfg && bool_decide (ps = []) then Some (errorf "subscription proxy enabled without profiles") else None)
  end.

(** ** Requests *)

(** Header fields by their canonical names; no name has an empty list. *)
Abbreviation Headers := (gmap string (list string)).

Record Request := mkRequest {
  Method : string;
  EscapedPath : string;                    (* [r.URL.EscapedPath()] *)
  UnescapedPath : string;                  (* [r.URL.Path] *)
  RawQuery : string;
  rq_Host : string;
  RemoteAddr : string;
  rq_Header : Headers
}.

Record Response := mkResponse { StatusCode : Z; rs_Header : Headers; Body : string }.

(** The answer of an upstream: the announced length (-1 when unknown), and the
    bytes of the body until it ends or fails. *)
Record Reply := mkReply {
  ContentLength : Z;
  rp_StatusCode : Z;
  rp_Header : Headers;
  stream : string;
  broken : option GoError
}.

Definition isHopByHopHeader (key : string) : bool :=
  bool_decide (ToLower key ∈ ["connection"; "keep-alive"; "proxy-authenticate"; "proxy-authorization"; "te"; "trailer";
                              "transfer-encoding"; "upgrade"]).

Definition copyRequestHeaders (src : Headers) : Headers :=
  filter (λ e, isHopByHopHeader e.1 || EqualFold e.1 "Host" = false) src.

Definition copyResponseHeaders (src : Headers) : Headers := filter (λ e, isHopByHopHeader e.1 = false) src.

Definition Get (h : Headers) (key : string) : string := match h !! key with Some (v :: _) => v | _ => "" end.

Definition appendForwardedFor (h : Headers) (ip : string) : Headers :=
  let ip := TrimSpace ip in
  if bool_decide (ip = "") then h
  else
    let existing := TrimSpace (Get h "X-Forwarded-For") in
    <["X-Forwarded-For" := [if bool_decide (existing = "") then ip else existing +:+ ", " +:+ ip]]> h.

Definition clientIP (r : Request) : string := default (RemoteAddr r) (SplitHostPort (RemoteAddr r)).

(** [http.Error] *)
Definition httpError (text : string) (code : Z) : Response :=
  mkResponse code {["Content-Type" := ["text/plain; charset=utf-8"]; "X-Content-Type-Options" := ["nosniff"]]}
    (text +:+ String "010"%char EmptyString).

Definition NotFound : Response := httpError "404 page not found" 404.

(** [base.String()] with the path and the query that were set. *)
Definition urlString (base : ParsedURL) (path query : string) : string :=
  let slash := if negb (bool_decide (path = "")) && negb (HasPrefix path "/") && negb (bool_decide (Host base = "")) then "/" else "" in
  origin base +:+ slash +:+ escapePath path +:+ (if bool_decide (query = "") then "" else "?" +:+ query) +:+ fragment base.

(** The path on the upstream, before it is encoded. *)
Definition upstreamPath (base : ParsedURL) (profile : SubscriptionProxyProfile) (token : string) : string :=
  TrimRight is_slash (Path base) +:+ "/" +:+ Trim is_slash (sp_SubscribePath profile) +:+ "/" +:+ PathEscape token.

Definition buildUpstreamURL (profile : SubscriptionProxyProfile) (token rawQuery : string) : result string :=
  match Parse (sp_UpstreamBaseURL profile) with
  | Err _ => Err (errorf "invalid base url")
  | Ok base =>
      if bool_decide (Scheme base = "" ∨ Host base = "") then Err (errorf "invalid base url")
      else Ok (urlString base (upstreamPath base profile token) rawQuery)
  end.

(** [io.ReadAll] of at most [limit] bytes. *)
Definition readLimited (limit : Z) (stream : string) (broken : option GoError) : result string :=
  if limit <=? 0 then Ok ""
  else if Z.of_nat (String.length stream) <? limit then
    match broken with Some e => Err e | None => Ok stream end
  else Ok (of_bytes (take (Z.to_nat limit) (bytes stream))).

(** The header fields of the forwarded request. *)
Definition forwardedHeaders (r : Request) : Headers :=
  let h := <["X-Forwarded-Host" := [rq_Host r]]> (copyRequestHeaders (rq_Header r)) in
  let ip := clientIP r in
  if bool_decide (ip = "") then h else appendForwardedFor h ip.

(** [Do] is the client; a URL that makes no request is its error. *)
Definition proxySubscription (Do : string → Headers → result Reply) (r : Request) (profile : SubscriptionProxyProfile)
    (token : string) (maxBytes : Z) : Response :=
  match buildUpstreamURL profile token (RawQuery r) with
  | Err _ => httpError "bad upstream" 502
  | Ok upstreamURL =>
      match Do upstreamURL (forwardedHeaders r) with
      | Err _ => httpError "upstream unavailable" 502
      | Ok resp =>
          if maxBytes <? ContentLength resp then httpError "upstream response too large" 502
          else
            match readLimited (wrap64 (maxBytes + 1)) (stream resp) (broken resp) with
            | Err _ => httpError "upstream read failed" 502
            | Ok body =>
                if maxBytes <? Z.of_nat (String.length body) then httpError "upstream response too large" 502
                else mkResponse (rp_StatusCode resp) (copyResponseHeaders (rp_Header resp))
                       (if bool_decide (Method r = "HEAD") then "" else body)
            end
      end
  end.

Definition isRead (r : Request) : bool := bool_decide (Method r = "GET" ∨ Method r = "HEAD").

Definition healthAnswer : Response :=
  let quoted s := String "034"%char s +:+ String "034"%char EmptyString in
  mkResponse 200 {["Content-Type" := ["application/json"]]} ("{" +:+ quoted "status" +:+ ":" +:+ quoted "ok" +:+ "}").

(** The handler of /sub/. *)
Definition subscriptionHandler (Do : string → Headers → result Reply) (profiles : gmap string SubscriptionProxyProfile)
    (maxBytes : Z) (r : Request) : Response :=
  if negb (isRead r) then httpError "method not allowed" 405
  else
    match Cut "/"%char (TrimPrefix (EscapedPath r) "/sub/") with
    | None => NotFound
    | Some (siteID, tokenPart) =>
        if bool_decide (siteID = "" ∨ tokenPart = "") then NotFound
        else
          match profiles !! ToLower siteID with
          | None => NotFound
          | Some profile =>
              match PathUnescape tokenPart with
              | None => NotFound
              | Some token =>
                  if bool_decide (TrimSpace token = "") then NotFound
                  else proxySubscription Do r profile token maxBytes
              end
          end
    end.

(** [handler]: the two patterns of the ServeMux. *)
Definition handler (Do : string → Headers → result Reply) (profiles : gmap string SubscriptionProxyProfile)
    (maxBytes : Z) (r : Request) : Response :=
  if bool_decide (UnescapedPath r = "/health") then healthAnswer
  else if HasPrefix (UnescapedPath r) "/sub/" then subscriptionHandler Do profiles maxBytes r
  else NotFound.

Definition challengePrefix : string := "/.well-known/pki-validation/".

(** The handler of the challenges: an answer, or the file to serve. *)
Definition challengeHandler (dir : string) (r : Request) : Response + string :=
  if negb (isRead r) then inl (httpError "method not allowed" 405)
  else
    let name := TrimPrefix (UnescapedPath r) challengePrefix in
    if bool_decide (name = "") || Contains name "/" || Contains name ".." then inl NotFound
    else inr (Join2 dir name).

(** The profiles by their sites. *)
Definition profilesBySite (l : list SubscriptionProxyProfile) : gmap string SubscriptionProxyProfile :=
  foldl (λ m p, <[ToLower (sp_SiteID p) := p]> m) ∅ l.

Definition subscriptionProxyCertificateOwnerSiteID (profiles : list SubscriptionProxyProfile) : string :=
  match List.filter (λ s, negb (bool_decide (s = ""))) ((λ p, TrimSpace (sp_SiteID p)) <$> profiles) with
  | [] => ""
  | siteID :: _ => siteID
  end.

End proxy.
End Subproxy.
