(* ===== verification/SubproxyManager.v ===== *)
(** * The servers of the subscription proxy (agent/subproxy/manager.go)

    [Apply] brings the proxy to a configuration: it leaves a server with the same
    fingerprint alone, and otherwise shuts the servers down, prepares the
    certificate and starts new ones. Servers are numbers with what they serve and
    how far their goroutine is: [Apply] only starts the goroutine and answers; it
    is later that the goroutine binds the address, or finds that it cannot, that a
    server which listens fails, and that the goroutine tells the manager of the
    failure ([setError], [setHTTPError]). These are steps of their own, and
    configurations may be applied in between. [Apply] and [Close] are one step
    each: their callers are sequential. *)

From Stdlib Require Import Ascii.
From S2P Require Import Prelude GoStrings FilePath Json UrlEscape Panel Conf Subproxy.

Module SubproxyManager.
Import GoStrings FilePath Conf Subproxy.

(** ** Certificates *)

Record Certificate := mkCertificate { Raw : string; SubjectCN : string; IssuerCN : string }.

(** Files and the formats of keys and certificates. *)
Class Files := {
  Disk : Type;
  IsFile : string → Disk → bool;                               (* [os.Stat], and no directory *)
  ReadFile : string → Disk → option string;
  MkdirAll : string → Disk → Disk * option GoError;
  WriteFile : string → string → Disk → Disk * option GoError;
  Key : Type;
  decodeKey : string → string → result Key;                    (* PEM, PKCS1 or PKCS8, RSA *)
  GenerateKey : Disk → result Key;
  encodeKey : Key → string;
  CreateCertificateRequest : string → Key → result string;
  pemBlocks : string → list (string * string);                 (* types and bytes of the blocks [pem.Decode] finds *)
  ParseCertificate : string → option Certificate;
  NotAfter : string → string;                                  (* of the first certificate *)
  LoadX509KeyPair : string → string → Disk → result nat;       (* how many certificates *)
  Sprint : Panel.AnyValue → string
}.

Section manager.
Context `{Network} `{Files}.
Implicit Types d : Disk.

Definition newline : string := String "010"%char EmptyString.

Definition validationContentString (content : Panel.AnyValue) : string :=
  match content with
  | Panel.AnyNil => ""
  | Panel.AnyString v => TrimSpace v +:+ newline
  | Panel.AnyJson (Json.JArray l) => Join newline ((λ item, TrimSpace (Sprint (Panel.AnyJson item))) <$> l) +:+ newline
  | v => TrimSpace (Sprint v) +:+ newline
  end.

Fixpoint untilSlash (l : list ascii) : list ascii :=
  match l with [] => [] | a :: l => if is_slash a then [] else a :: untilSlash l end.

(** [filepath.Base] *)
Definition Base (path : string) : string :=
  if bool_decide (path = "") then "."
  else
    let last := of_bytes (rev (untilSlash (rev (bytes (TrimRight is_slash path))))) in
    if bool_decide (last = "") then "/" else last.

Definition fileReadable (path : string) d : bool := negb (bool_decide (path = "")) && IsFile path d.

Definition certificateNotAfter (path : string) d : string :=
  if bool_decide (path = "") then "" else match ReadFile path d with Some data => NotAfter data | None => "" end.

(** The loop of [parsePEMCertificates]. *)
Fixpoint parseBlocks (blocks : list (string * string)) : option (list Certificate) :=
  match blocks with
  | [] => Some []
  | (type, bytes) :: blocks =>
      if bool_decide (type ≠ "CERTIFICATE") then parseBlocks blocks
      else match ParseCertificate bytes with
           | None => None
           | Some cert => (cons cert) <$> parseBlocks blocks
           end
  end.

Definition parsePEMCertificates (data : string) : option (list Certificate) := parseBlocks (pemBlocks data).

Definition needsSectigoR46UserTrustCompatibility (certs : list Certificate) : bool :=
  existsb (λ c, bool_decide (IssuerCN c = "Sectigo Public Server Authentication Root R46")) certs
  && negb (existsb (λ c, bool_decide (SubjectCN c = "Sectigo Public Server Authentication Root R46"
                                      ∧ IssuerCN c = "USERTrust RSA Certification Authority")) certs).

Definition appendCertificateCompatibilityChain (fullchain : string) : string :=
  match parsePEMCertificates fullchain with
  | None => fullchain
  | Some certs =>
      if negb (needsSectigoR46UserTrustCompatibility certs) then fullchain
      else
        match parsePEMCertificates sectigoR46UserTrustCrossSignedPEM with
        | None | Some [] => fullchain
        | Some (compat :: _) =>
            if existsb (λ c, bool_decide (Raw c = Raw compat)) certs then fullchain
            else TrimSpace fullchain +:+ newline +:+ TrimSpace sectigoR46UserTrustCrossSignedPEM
        end
  end.

(** The contents of the certificate file. *)
Definition certificateChain (certificate caBundle : string) : string :=
  let fullchain := TrimSpace certificate in
  let fullchain := if bool_decide (TrimSpace caBundle = "") then fullchain else fullchain +:+ newline +:+ TrimSpace caBundle in
  appendCertificateCompatibilityChain fullchain +:+ newline.

(** A file in a directory that is made first. *)
Definition writeIn (dir path content : string) d : Disk * option GoError :=
  match MkdirAll dir d with
  | (d, Some e) => (d, Some e)
  | (d, None) => WriteFile path content d
  end.

Definition writeCertificateFile (path certificate caBundle : string) d : Disk * option GoError :=
  if bool_decide (path = "") then (d, Some (errorf "subscription proxy cert file is empty"))
  else writeIn (Dir path) path (certificateChain certificate caBundle) d.

Definition writeValidationFile (root validationPath : string) (content : Panel.AnyValue) d : Disk * option GoError :=
  let name := Base validationPath in
  if bool_decide (name = "." ∨ name = "/" ∨ name = "") then (d, Some (errorf ("invalid validation path: " +:+ validationPath)))
  else writeIn root (Join2 root name) (validationContentString content) d.

Definition loadOrCreatePrivateKey (path : string) d : Disk * result Key :=
  if bool_decide (path = "") then (d, Err (errorf "subscription proxy key file is empty"))
  else
    match ReadFile path d with
    | Some data => (d, decodeKey path data)
    | None =>
        match GenerateKey d with
        | Err e => (d, Err e)
        | Ok key =>
            match writeIn (Dir path) path (encodeKey key) d with
            | (d, Some e) => (d, Err e)
            | (d, None) => (d, Ok key)
            end
        end
    end.

Definition ensureKeyAndCSR (keyPath domain : string) d : Disk * result string :=
  match loadOrCreatePrivateKey keyPath d with
  | (d, Err e) => (d, Err e)
  | (d, Ok key) => (d, CreateCertificateRequest domain key)
  end.

Definition loadSubscriptionProxyCertificateChain (certFile keyFile : string) d : option GoError :=
  match LoadX509KeyPair certFile keyFile d with
  | Err e => Some (wrapErr ("load subscription proxy certificate chain failed: cert=" +:+ certFile +:+ " key=" +:+ keyFile +:+ ": ") e)
  | Ok O => Some (errorf ("subscription proxy certificate chain is empty: cert=" +:+ certFile))
  | Ok (S _) => None
  end.

(** ** Status *)

Record ProxyStatus := mkStatus {
  st_Status : string;
  st_Enabled : bool;
  Running : bool;
  Mode : string;
  st_HTTPSListen : string;
  st_Profiles : Z;
  st_CertificateDomain : string;
  CertificateOwnerSiteID : string;
  st_CertificateID : string;
  NeedCertificate : bool;
  CSRPem : string;
  ValidationReady : bool;
  CertNotAfter : string;
  LastError : string;
  UpdatedAt : Z
}.

(** A status of the manager, without the certificate. *)
Definition plainStatus (status : string) (enabled running : bool) (mode listen : string) (profiles : Z)
    (owner lastError : string) (now : Z) : ProxyStatus :=
  mkStatus status enabled running mode listen profiles "" owner "" false "" false "" lastError now.

(** A status with the certificate only, and the parts of it. *)
Definition certStatus (domain id notAfter : string) (need : bool) (csr : string) (ready : bool) (lastError : string) : ProxyStatus :=
  mkStatus "" false false "" "" 0 domain "" id need csr ready notAfter lastError 0.

Definition mergeStatusLocked (next s : ProxyStatus) : ProxyStatus :=
  let pick new old := if bool_decide (new = "") then old else new in
  mkStatus (st_Status s) (st_Enabled s) (Running s) (Mode s) (st_HTTPSListen s) (st_Profiles s)
    (pick (st_CertificateDomain next) (st_CertificateDomain s))
    (pick (CertificateOwnerSiteID next) (CertificateOwnerSiteID s)) (pick (st_CertificateID next) (st_CertificateID s))
    (NeedCertificate next) (CSRPem next) (ValidationReady next)
    (pick (CertNotAfter next) (CertNotAfter s)) (pick (LastError next) (LastError s)) (UpdatedAt s).

Definition prepareCertificate (cfg : SubscriptionProxyConfig) d : Disk * ProxyStatus :=
  let z := ZeroSSL cfg in
  let notAfter := certificateNotAfter (CertFile cfg) d in
  let '(d, ready, lastError) :=
    if bool_decide (TrimSpace (ValidationPath z) = "" ∨ ValidationContent z = Panel.AnyNil) then (d, false, "")
    else match writeValidationFile (ChallengeDir cfg) (ValidationPath z) (ValidationContent z) d with
         | (d, Some e) => (d, false, err_msg e)
         | (d, None) => (d, true, "")
         end in
  let '(d, notAfter, lastError) :=
    if bool_decide (TrimSpace (CertificatePEM z) = "") then (d, notAfter, lastError)
    else match writeCertificateFile (CertFile cfg) (CertificatePEM z) (CABundlePEM z) d with
         | (d, Some e) => (d, notAfter, err_msg e)
         | (d, None) => (d, certificateNotAfter (CertFile cfg) d, lastError)
         end in
  let domain := TrimSpace (CertificateDomain cfg) in
  let id := TrimSpace (CertificateID z) in
  if bool_decide (domain = "") then (d, certStatus domain id notAfter false "" ready lastError)
  else
    match ensureKeyAndCSR (KeyFile cfg) (CertificateDomain cfg) d with
    | (d, Err e) => (d, certStatus domain id notAfter false "" ready (err_msg e))
    | (d, Ok csr) =>
        (d, certStatus domain id notAfter
              (negb (fileReadable (CertFile cfg) d) || negb (fileReadable (KeyFile cfg) d)) csr ready lastError)
    end.

(** ** The manager *)

(** The order of the profiles in the fingerprint. *)
Definition siteLe (a b : SubscriptionProxyProfile) : Prop := String.leb (sp_SiteID a) (sp_SiteID b) = true.

#[global] Instance siteLe_dec a b : Decision (siteLe a b).
Proof. unfold siteLe. apply _. Defined.

Definition formatBool (b : bool) : string := if b then "true" else "false".

Definition fingerprintParts (cfg : SubscriptionProxyConfig) : list string :=
  let z := ZeroSSL cfg in
  [HTTPSListen cfg; HTTPListen cfg; CertFile cfg; KeyFile cfg; CertificateDomain cfg; ChallengeDir cfg;
   CertificateID z; ValidationPath z; validationContentString (ValidationContent z); CertificatePEM z; CABundlePEM z;
   formatBool (AllowHTTPFallback cfg); Itoa (MaxResponseBytes cfg)]
  ++ merge_sort siteLe (px_Profiles cfg) ≫= λ p, [sp_SiteID p; sp_UpstreamBaseURL p; sp_SubscribePath p].

Definition fingerprint (cfg : SubscriptionProxyConfig) : string :=
  Join (String "000"%char EmptyString) (fingerprintParts cfg).

(** What a server serves. *)
Inductive Served :=
| Subscriptions (listen : string) (tls : bool) (profiles : gmap string SubscriptionProxyProfile) (maxBytes : Z)
| Challenges (listen dir : string).

Record Manager := mkManager {
  server : option nat;
  httpServer : option nat;
  fingerprint_ : string;
  status : ProxyStatus
}.

(** How far the goroutine of a server is: started, serving, or returned from
    [ListenAndServe] with an error that it has not told the manager yet. *)
Inductive Life := Launched | Listens | FailedWith (e : GoError).

(** The manager with what it works on; a server that was shut down, and one that
    reported its failure, is not among [servers] any more. *)
Record Agent := mkAgent {
  manager : Manager;
  servers : gmap nat (Served * Life);
  nextServer : nat;
  disk : Disk
}.

Definition withManager (m : Manager) (a : Agent) : Agent := mkAgent m (servers a) (nextServer a) (disk a).

Definition withServers (l : gmap nat (Served * Life)) (a : Agent) : Agent := mkAgent (manager a) l (nextServer a) (disk a).

(** The servers that answer requests. *)
Definition listening (a : Agent) : gmap nat Served :=
  omap (λ s, match s.2 with Listens => Some s.1 | _ => None end) (servers a).

(** [Shutdown] of a server: its listener is closed, and [ListenAndServe] answers
    [ErrServerClosed] also when it is called only later, which nobody is told of. A
    goroutine that has its error already goes on to report it. *)
Definition shutdownServer (l : gmap nat (Served * Life)) (s : option nat) : gmap nat (Served * Life) :=
  match s with
  | None => l
  | Some s => match l !! s with Some (_, FailedWith _) => l | _ => delete s l end
  end.

Definition shutdown (ss : list (option nat)) (a : Agent) : Agent := withServers (foldl shutdownServer (servers a) ss) a.

(** [go] with a new server. *)
Definition launch (what : Served) (a : Agent) : nat * Agent :=
  (nextServer a, mkAgent (manager a) (<[nextServer a := (what, Launched)]> (servers a)) (S (nextServer a)) (disk a)).

(** [None] is the challenge server without an address. *)
Definition newHTTPServer (cfg : SubscriptionProxyConfig) : option Served :=
  if bool_decide (TrimSpace (HTTPListen cfg) = "") then None else Some (Challenges (HTTPListen cfg) (ChallengeDir cfg)).

Definition startHTTPServer (what : option Served) (a : Agent) : option nat * Agent :=
  match what with
  | None => (None, a)
  | Some what => let '(s, a) := launch what a in (Some s, a)
  end.

Definition closeWithStatus (s : ProxyStatus) (a : Agent) : Agent :=
  let m := manager a in
  shutdown [server m; httpServer m] (withManager (mkManager None None "" s) a).

(** How the server of the subscriptions is run, or why not: with TLS or without. *)
Definition serveMode (cfg : SubscriptionProxyConfig) d : result bool :=
  if negb (fileReadable (CertFile cfg) d) || negb (fileReadable (KeyFile cfg) d) then
    if AllowHTTPFallback cfg then Ok false
    else Err (errorf ("subscription proxy certificate files are not readable: cert=" +:+ CertFile cfg +:+ " key=" +:+ KeyFile cfg))
  else
    match loadSubscriptionProxyCertificateChain (CertFile cfg) (KeyFile cfg) d with
    | Some e => Err e
    | None => Ok true
    end.

(** The rest of [Apply], for a normalised configuration, when its servers are
    new. *)
Definition restart (now : Z) (cfg : SubscriptionProxyConfig) (a : Agent) : Agent * option GoError :=
  let m := manager a in
  let a := shutdown [server m; httpServer m] a in
  let '(d, cert) := prepareCertificate cfg (disk a) in
  let a := mkAgent (manager a) (servers a) (nextServer a) d in
  let count := Z.of_nat (length (px_Profiles cfg)) in
  let owner := subscriptionProxyCertificateOwnerSiteID (px_Profiles cfg) in
  match serveMode cfg d with
  | Err e =>
      let '(h, a) := startHTTPServer (newHTTPServer cfg) a in
      (withManager (mkManager None h (fingerprint cfg)
         (mergeStatusLocked cert (plainStatus "error" true false "error" (HTTPSListen cfg) count owner (err_msg e) now))) a,
       Some e)
  | Ok tls =>
      let '(s, a) := launch (Subscriptions (HTTPSListen cfg) tls (profilesBySite (px_Profiles cfg)) (MaxResponseBytes cfg)) a in
      let '(h, a) := startHTTPServer (newHTTPServer cfg) a in
      (withManager (mkManager (Some s) h (fingerprint cfg)
         (mergeStatusLocked cert (plainStatus "running" true true (if tls then "https" else "http") (HTTPSListen cfg) count owner "" now))) a,
       None)
  end.

Definition Apply (now : Z) (detected : result string) (cfg : SubscriptionProxyConfig) (a : Agent) : Agent * option GoError :=
  match normalizeConfig detected cfg with
  | (cfg, Some e) =>
      (closeWithStatus (plainStatus "error" (px_Enabled cfg) false "" "" 0 "" (err_msg e) now) a, Some e)
  | (cfg, None) =>
      if negb (px_Enabled cfg) || bool_decide (px_Profiles cfg = []) then
        (closeWithStatus (plainStatus "disabled" false false "disabled" "" 0 "" "" now) a, None)
      else
        let m := manager a in
        if bool_decide (server m ≠ None) && bool_decide (fingerprint_ m = fingerprint cfg) then (a, None)
        else restart now cfg a
  end.

Definition withState (status : string) (running : bool) (lastError : string) (now : Z) (s : ProxyStatus) : ProxyStatus :=
  mkStatus status (st_Enabled s) running (Mode s) (st_HTTPSListen s) (st_Profiles s) (st_CertificateDomain s)
    (CertificateOwnerSiteID s) (st_CertificateID s) (NeedCertificate s) (CSRPem s) (ValidationReady s) (CertNotAfter s)
    lastError now.

(** [Close]; its error, of shutting down, is not modelled. *)
Definition Close (now : Z) (a : Agent) : Agent :=
  let m := manager a in
  let s := status m in
  shutdown [server m; httpServer m]
    (withManager (mkManager None None ""
       (withState (if bool_decide (st_Status s = "running") then "stopped" else st_Status s) false (LastError s) now s)) a).

(** It does not look which server it is that failed. *)
Definition setError (now : Z) (e : GoError) (a : Agent) : Agent :=
  withManager (mkManager None None "" (withState "error" false (err_msg e) now (status (manager a)))) a.

Definition setHTTPError (now : Z) (srv : nat) (e : GoError) (a : Agent) : Agent :=
  let m := manager a in
  let s := status m in
  let s := if bool_decide (st_Status s = "running") then withState (st_Status s) (Running s) (err_msg e) now s
           else withState "error" false (err_msg e) now s in
  withManager (mkManager (server m) (if bool_decide (httpServer m = Some srv) then None else httpServer m) (fingerprint_ m) s) a.

(** ** Runs *)

Definition addressOf (what : Served) : string :=
  match what with Subscriptions l _ _ _ => l | Challenges l _ => l end.

(** An address of the process that is in use. *)
Definition addressTaken (address : string) (a : Agent) : Prop :=
  map_Exists (λ _ what, addressOf what = address) (listening a).

#[global] Instance addressTaken_dec address a : Decision (addressTaken address a).
Proof. unfold addressTaken. apply _. Defined.

Definition addressInUse (address : string) : GoError := errorf ("listen tcp " +:+ address +:+ ": bind: address already in use").

(** The goroutine of a server binds its address, which the rest of the system may
    refuse; [None] is success. *)
Definition bindServer (srv : nat) (outside : option GoError) (a : Agent) : Agent :=
  match servers a !! srv with
  | Some (what, Launched) =>
      let err := if decide (addressTaken (addressOf what) a) then Some (addressInUse (addressOf what)) else outside in
      withServers (<[srv := (what, match err with None => Listens | Some e => FailedWith e end)]> (servers a)) a
  | _ => a
  end.

(** A server that listens fails. *)
Definition failServer (srv : nat) (e : GoError) (a : Agent) : Agent :=
  match servers a !! srv with
  | Some (what, Listens) => withServers (<[srv := (what, FailedWith e)]> (servers a)) a
  | _ => a
  end.

(** The goroutine of a server that failed tells the manager, and ends. *)
Definition reportFailure (now : Z) (srv : nat) (a : Agent) : Agent :=
  match servers a !! srv with
  | Some (what, FailedWith e) =>
      let a := withServers (delete srv (servers a)) a in
      match what with
      | Subscriptions _ _ _ _ => setError now e a
      | Challenges _ _ => setHTTPError now srv e a
      end
  | _ => a
  end.

Inductive proxyEvent :=
| EvApply (now : Z) (detected : result string) (cfg : SubscriptionProxyConfig)
| EvClose (now : Z)
| EvBind (srv : nat) (outside : option GoError)
| EvFail (srv : nat) (e : GoError)
| EvReport (now : Z) (srv : nat).

Definition proxyStep (ev : proxyEvent) (a : Agent) : Agent :=
  match ev with
  | EvApply now detected cfg => (Apply now detected cfg a).1
  | EvClose now => Close now a
  | EvBind srv outside => bindServer srv outside a
  | EvFail srv e => failServer srv e a
  | EvReport now srv => reportFailure now srv a
  end.

Definition runProxy (evs : list proxyEvent) (a : Agent) : Agent := foldl (λ a ev, proxyStep ev a) a evs.

Definition NewManager (now : Z) d : Agent :=
  mkAgent (mkManager None None "" (plainStatus "" false false "" "" 0 "" "" now)) ∅ 0 d.

End manager.
End SubproxyManager.
