(* ===== verification/SubproxyProps.v ===== *)
(** * Properties of the subscription proxy

    What is forwarded and what is answered ([proxy_exact]), which file a challenge
    can name ([challenge_contained]), what the panel decodes from the URL of a
    forwarded request ([upstream_token]); after [Apply] the manager has a server
    for the configuration, whatever happened before ([Apply_serves]), which does not
    mean that it listens already ([running_unbound]); that a server of challenges is
    lost when the other one fails ([failure_leaks]), and a server of subscriptions
    when an older one reports its failure late ([stale_failure_survives_close]). *)

From Stdlib Require Import Ascii.
From S2P Require Import Prelude GoStrings FilePath Json UrlEscape Panel Conf Subproxy SubproxyManager.

Module SubproxyProps.
Import GoStrings FilePath UrlEscape Conf Subproxy SubproxyManager.

Section proxy.
Context `{Network}.

(** ** Forwarding *)

Lemma readLimited_short limit stream_ broken_ body :
  0 < limit → readLimited limit stream_ broken_ = Ok body → Z.of_nat (String.length body) < limit → body = stream_ ∧ broken_ = None.
Proof.
  intros Hl. unfold readLimited. destruct (Z.leb_spec limit 0); [lia|].
  destruct (Z.ltb_spec (Z.of_nat (String.length stream_)) limit) as [|Hge].
  - destruct broken_; [done|]. by intros [= ->].
  - intros [= <-] Hlt. exfalso. rewrite <- length_bytes, bytes_of_bytes, length_take, length_bytes in Hlt. lia.
Qed.

Lemma copyResponseHeaders_lookup h k :
  copyResponseHeaders h !! k = if isHopByHopHeader k then None else h !! k.
Proof.
  unfold copyResponseHeaders. rewrite map_lookup_filter. destruct (h !! k) as [v|]; cbn; [|by destruct (isHopByHopHeader k)].
  destruct (isHopByHopHeader k) eqn:Hh; case_guard; cbn in *; congruence.
Qed.

(** C28. A subscription is passed on whole, with the status and the end-to-end header
    fields of the panel, or it is an error of the proxy: it is never cut off, and
    never larger than the limit. *)
Theorem proxy_exact Do r profile token maxBytes :
  0 < maxBytes < max_int64 →
  let resp := proxySubscription Do r profile token maxBytes in
  (StatusCode resp = 502 ∧ ∃ text, resp = httpError text 502)
  ∨ ∃ u reply, buildUpstreamURL profile token (RawQuery r) = Ok u ∧ Do u (forwardedHeaders r) = Ok reply
      ∧ StatusCode resp = rp_StatusCode reply ∧ broken reply = None
      ∧ Body resp = (if bool_decide (Method r = "HEAD") then "" else stream reply)
      ∧ Z.of_nat (String.length (stream reply)) <= maxBytes
      ∧ ∀ k, rs_Header resp !! k = if isHopByHopHeader k then None else rp_Header reply !! k.
Proof.
  intros Hm. cbn zeta. unfold proxySubscription.
  destruct (buildUpstreamURL _ _ _) as [u|]; [|left; eauto]. destruct (Do u _) as [reply|] eqn:HDo; [|left; eauto].
  destruct (maxBytes <? ContentLength reply); [left; eauto|].
  destruct (readLimited _ _ _) as [body|] eqn:Hb; [|left; eauto].
  destruct (Z.ltb_spec maxBytes (Z.of_nat (String.length body))) as [|Hlen]; [left; eauto|].
  rewrite wrap64_id in Hb by (unfold i64, max_int64 in *; lia).
  apply readLimited_short in Hb as [-> Hbr]; [|lia|lia].
  right. exists u, reply. split_and!; try done. intros k. apply copyResponseHeaders_lookup.
Qed.

(** What goes to the panel: no header field of the connection, no host, and the
    client last in the list of addresses. *)
Lemma forwardedHeaders_hop r k :
  isHopByHopHeader k = true → k ≠ "X-Forwarded-Host" → k ≠ "X-Forwarded-For" → forwardedHeaders r !! k = None.
Proof.
  intros Hh H1 H2.
  assert (Hc : (<["X-Forwarded-Host" := [rq_Host r]]> (copyRequestHeaders (rq_Header r))) !! k = None).
  { rewrite lookup_insert_ne by done. unfold copyRequestHeaders. apply map_lookup_filter_None. right. intros v _. cbn. by rewrite Hh. }
  unfold forwardedHeaders. case_bool_decide; [exact Hc|]. unfold appendForwardedFor. case_bool_decide; [exact Hc|].
  by rewrite lookup_insert_ne.
Qed.

(** *** The URL *)

(** The panel decodes the path of a forwarded request to the base, the path of
    subscriptions and the token in its encoded form; that is the token exactly
    when no byte of it has to be encoded in a segment. *)
Theorem upstream_token profile token q u :
  buildUpstreamURL profile token q = Ok u →
  ∃ base, Parse (sp_UpstreamBaseURL profile) = Ok base
  ∧ u = urlString base (upstreamPath base profile token) q
  ∧ PathUnescape (escapePath (upstreamPath base profile token))
    = Some (TrimRight is_slash (Path base) +:+ "/" +:+ Trim is_slash (sp_SubscribePath profile) +:+ "/" +:+ PathEscape token)
  ∧ PathUnescape (PathEscape token) = Some token
  ∧ (PathEscape token = token ↔ Forall (λ a, in_segment a = true) (bytes token)).
Proof.
  unfold buildUpstreamURL. destruct (Parse _) as [base|]; [|done]. case_bool_decide; [done|]. intros [= <-].
  exists base. split_and!; [done|done|apply PathUnescape_escapePath|by apply PathUnescape_escape|apply escape_id].
Qed.

(** *** Challenges *)

Lemma Contains_byte s : Contains s "/" = false → Forall (λ a, a ≠ "/"%char) (bytes s).
Proof.
  induction s as [|a s IH]; [constructor|]. change (bytes (String a s)) with (a :: bytes s). cbn [Contains].
  intros Hc. assert (Hp : HasPrefix (String a s) "/" = false ∧ Contains s "/" = false).
  { destruct (HasPrefix (String a s) "/") eqn:E; [|by rewrite ?E in Hc]. exfalso. revert Hc. by rewrite ?E. }
  destruct Hp as [Hp Hs]. constructor; [|by apply IH]. intros ->. cbn in Hp. by rewrite HasPrefix_nil in Hp.
Qed.

(** A challenge names a file of the directory of challenges itself, or the
    directory. *)
Theorem challenge_contained dir r path :
  dir ≠ "" → challengeHandler dir r = inr path →
  ∃ name, path = Join2 dir name ∧ (name = "." ∨ plain name).
Proof.
  intros Hd. unfold challengeHandler. destruct (negb (isRead r)); [done|]. set (name := TrimPrefix _ _).
  destruct (bool_decide (name = "")) eqn:E1; [done|]. destruct (Contains name "/") eqn:E2; [done|].
  destruct (Contains name "..") eqn:E3; [done|]. intros [= <-]. exists name. split; [done|].
  apply bool_decide_eq_false in E1. destruct (decide (name = ".")) as [->|Hdot]; [by left|right].
  split_and!; [done|done| |by apply Contains_byte]. intros Hn. rewrite Hn in E3. by vm_compute in E3.
Qed.
End proxy.

(** ** The manager *)

Section manager.
Context `{Network} `{Files}.
Implicit Types (a : Agent) (n cfg : SubscriptionProxyConfig).

Definition siteKey (p : SubscriptionProxyProfile) : string := ToLower (sp_SiteID p).

(** *** The table of profiles *)

Lemma normalizeProfiles_keys seen l ps :
  normalizeProfiles seen l = Ok ps → NoDup (siteKey <$> ps) ∧ ∀ p, p ∈ ps → siteKey p ∉ seen.
Proof.
  revert seen ps. induction l as [|p l IH]; intros seen ps; cbn [normalizeProfiles].
  { intros [= <-]. split; [constructor|]. intros p Hp. by apply elem_of_nil in Hp. }
  case_bool_decide; [apply IH|]. destruct (Parse _) as [parsed|]; [|done]. case_bool_decide; [done|].
  case_bool_decide as Hs; [apply IH|]. destruct (normalizeProfiles _ l) as [ps'|] eqn:Hn; [|done]. intros [= <-].
  apply IH in Hn as [Hnd Hns]. split.
  - constructor; [|done]. intros (p' & Hk & Hp')%list_elem_of_fmap. apply Hns in Hp'. apply Hp'. unfold siteKey in Hk. set_solver.
  - intros p' [->|Hp']%elem_of_cons; [done|]. apply Hns in Hp'. set_solver.
Qed.

Lemma profilesBySite_lookup l k p :
  NoDup (siteKey <$> l) → profilesBySite l !! k = Some p ↔ p ∈ l ∧ siteKey p = k.
Proof.
  unfold profilesBySite. induction l as [|q l IH] using rev_ind.
  { intros _. cbn. rewrite lookup_empty, elem_of_nil. naive_solver. }
  rewrite fmap_app, NoDup_app. intros (Hnd & Hd & _). rewrite foldl_app, elem_of_app, list_elem_of_singleton. cbn. fold (siteKey q).
  destruct (decide (siteKey q = k)) as [<-|Hne].
  - rewrite lookup_insert_eq. split; [intros [= ->]; auto|]. intros [[Hp| ->] Hk]; [|done].
    exfalso. apply (Hd (siteKey p)); [by apply list_elem_of_fmap_2|rewrite Hk; by apply list_elem_of_here].
  - rewrite lookup_insert_ne by done. rewrite IH by done. naive_solver.
Qed.

Lemma profilesBySite_perm l l' : l ≡ₚ l' → NoDup (siteKey <$> l) → profilesBySite l = profilesBySite l'.
Proof.
  intros Hp Hnd. apply map_eq. intros k. apply option_eq. intros p.
  rewrite !profilesBySite_lookup; [by rewrite Hp|by rewrite <- Hp|done].
Qed.

(** *** The fingerprint *)

(** No text of the configuration has the byte that separates the parts. *)
Definition clean n : Prop :=
  Forall (λ s, Forall (λ c, c ≠ "000"%char) (bytes s)) (fingerprintParts n) ∧ i64 (MaxResponseBytes n).

Lemma flatten_inj (l l' : list SubscriptionProxyProfile) :
  l ≫= (λ p, [sp_SiteID p; sp_UpstreamBaseURL p; sp_SubscribePath p])
  = l' ≫= (λ p, [sp_SiteID p; sp_UpstreamBaseURL p; sp_SubscribePath p]) → l = l'.
Proof.
  revert l'. induction l as [|[x y z] l IH]; intros [|[x' y' z'] l']; cbn; try done.
  intros [= -> -> -> E]. f_equal. by apply IH.
Qed.

Lemma fingerprint_inj n n' :
  clean n → clean n' → fingerprint n = fingerprint n' →
  HTTPSListen n = HTTPSListen n' ∧ MaxResponseBytes n = MaxResponseBytes n' ∧ px_Profiles n ≡ₚ px_Profiles n'.
Proof.
  intros [Hc Hi] [Hc' Hi'] E. apply (f_equal (Split "000"%char)) in E. unfold fingerprint in E.
  rewrite !Split_Join in E by done. unfold fingerprintParts in E. injection E as E1 _ _ _ _ _ _ _ _ _ _ _ Em Ep.
  split_and!; [done|by apply Itoa_inj|]. apply flatten_inj in Ep.
  by rewrite <- (merge_sort_Permutation siteLe (px_Profiles n)), Ep, merge_sort_Permutation.
Qed.

(** *** What is served *)

Definition subscriptionsOf n (tls : bool) : Served :=
  Subscriptions (HTTPSListen n) tls (profilesBySite (px_Profiles n)) (MaxResponseBytes n).

Definition isSubscriptions (what : Served) : bool := match what with Subscriptions _ _ _ _ => true | _ => false end.

Definition isFailed (life : Life) : bool := match life with FailedWith _ => true | _ => false end.

(** The server of the manager has the configuration of its fingerprint. *)
Record knows a : Prop := {
  kn_server s : server (manager a) = Some s →
    ∃ n tls life, clean n ∧ NoDup (siteKey <$> px_Profiles n) ∧ fingerprint_ (manager a) = fingerprint n
             ∧ servers a !! s = Some (subscriptionsOf n tls, life);
  kn_next s : is_Some (servers a !! s) → (s < nextServer a)%nat
}.

(** And there is no other server of subscriptions. *)
Definition only a : Prop :=
  ∀ s what life, servers a !! s = Some (what, life) → isSubscriptions what = true → server (manager a) = Some s.

(** No server of subscriptions has failed without having told the manager. *)
Definition settled a : Prop := map_Forall (λ _ s, isSubscriptions s.1 = true → isFailed s.2 = false) (servers a).

#[global] Instance settled_dec a : Decision (settled a).
Proof. unfold settled. apply _. Defined.

(** After shutting servers down only others are left, and those that failed. *)
Lemma shutdown_spec ss a s what life :
  servers (shutdown ss a) !! s = Some (what, life) →
  servers a !! s = Some (what, life) ∧ (Some s ∉ ss ∨ isFailed life = true).
Proof.
  unfold shutdown. cbn [servers withServers]. generalize (servers a). induction ss as [|[x|] ss IH]; intros l; cbn [foldl shutdownServer].
  - intros Hs. split; [done|left; apply not_elem_of_nil].
  - intros [Hl Hn]%IH. destruct (l !! x) as [[w [| |e]]|] eqn:Ex.
    3: { split; [done|]. destruct (decide (s = x)) as [->|Hne]; [right; rewrite Ex in Hl; by injection Hl as <- <-|].
         destruct Hn as [Hn|Hn]; [left|by right]. rewrite elem_of_cons. naive_solver. }
    all: apply lookup_delete_Some in Hl as [Hne Hl]; split; [done|]; destruct Hn as [Hn|Hn]; [left|by right];
      rewrite elem_of_cons; naive_solver.
  - intros [Hl Hn]%IH. split; [done|]. destruct Hn as [Hn|Hn]; [left|by right]. rewrite elem_of_cons. naive_solver.
Qed.

Lemma shutdown_next ss a : (∀ s, is_Some (servers a !! s) → (s < nextServer a)%nat) →
  ∀ s, is_Some (servers (shutdown ss a) !! s) → (s < nextServer a)%nat.
Proof. intros Hlt s [[what life] [Hl _]%shutdown_spec]. apply Hlt. by eexists. Qed.

(** When the manager lets its servers go and shuts them down, none is left that
    serves subscriptions. *)
Lemma forgotten_knows fp s a : knows a →
  knows (shutdown [server (manager a); httpServer (manager a)] (withManager (mkManager None None fp s) a)).
Proof. intros [_ H2]. split; [done|]. by apply (shutdown_next _ (withManager _ a)). Qed.

Lemma shutdown_none a s what life : only a → settled a →
  servers (shutdown [server (manager a); httpServer (manager a)] a) !! s = Some (what, life) → isSubscriptions what = false.
Proof.
  intros Ho Hs [Hl Hn]%shutdown_spec. destruct (isSubscriptions what) eqn:E; [|done]. pose proof (Ho _ _ _ Hl E) as Hserver.
  destruct Hn as [Hn|Hn]; [destruct Hn; rewrite Hserver; by left|]. apply (map_Forall_lookup_1 _ _ _ _ Hs) in Hl; [|done]. cbn in Hl. by rewrite Hl in Hn.
Qed.

Lemma forgotten_only fp s a : only a → settled a →
  only (shutdown [server (manager a); httpServer (manager a)] (withManager (mkManager None None fp s) a)).
Proof.
  intros Ho Hs x what life Hl Hsub. exfalso. change (servers (shutdown _ (withManager _ a))) with (servers (shutdown [server (manager a); httpServer (manager a)] a)) in Hl.
  apply shutdown_none in Hl; [congruence|done..].
Qed.

(** The server of challenges beside it. *)
Lemma startHTTPServer_spec cfg a h a' :
  startHTTPServer (newHTTPServer cfg) a = (h, a') → (∀ s, is_Some (servers a !! s) → (s < nextServer a)%nat) →
  (∀ s x, servers a !! s = Some x → servers a' !! s = Some x)
  ∧ (∀ s what life, servers a' !! s = Some (what, life) → isSubscriptions what = true → servers a !! s = Some (what, life))
  ∧ (∀ s, is_Some (servers a' !! s) → (s < nextServer a')%nat).
Proof.
  unfold newHTTPServer. case_bool_decide; cbn [startHTTPServer]; [by intros [= <- <-]|]. intros [= <- <-] Hnext. cbn. split_and!.
  - intros s x Hs. rewrite lookup_insert_ne; [done|]. intros <-. specialize (Hnext (nextServer a)). rewrite Hs in Hnext.
    specialize (Hnext (mk_is_Some _ _ eq_refl)). lia.
  - intros s what life [[<- [= <- <-]]|[_ Hs]]%lookup_insert_Some; done.
  - intros s [<-|Hs]%lookup_insert_is_Some'; [lia|]. apply Hnext in Hs. lia.
Qed.

(** A restart without an error starts a server with the configuration, and with one
    none. *)
Lemma restart_knows now n a a' e :
  knows a → clean n → NoDup (siteKey <$> px_Profiles n) → restart now n a = (a', e) →
  knows a' ∧ (e = None → ∃ s tls, server (manager a') = Some s ∧ fingerprint_ (manager a') = fingerprint n
                           ∧ servers a' !! s = Some (subscriptionsOf n tls, Launched))
  ∧ (only a → settled a → only a').
Proof.
  intros [_ Hlt] Hc Hnd. unfold restart.
  pose proof (shutdown_next [server (manager a); httpServer (manager a)] a Hlt) as Hlt0.
  pose proof (shutdown_none a) as Hnone. set (a0 := shutdown _ a) in *. change (nextServer a) with (nextServer a0) in Hlt0. clearbody a0.
  destruct (prepareCertificate n (disk a0)) as [d cert]. destruct (serveMode n d) as [tls|err].
  - cbn [launch manager servers nextServer disk].
    destruct (startHTTPServer (newHTTPServer n) _) as [h a2] eqn:Hh. intros [= <- <-].
    destruct (startHTTPServer_spec _ _ _ _ Hh) as (S1 & S2 & S3).
    { cbn [servers nextServer]. intros s Hs. apply lookup_insert_is_Some' in Hs as [Hs|Hs]; [lia|]. apply Hlt0 in Hs. lia. }
    cbn [servers nextServer] in S1, S2.
    assert (Hin : servers a2 !! nextServer a0 = Some (subscriptionsOf n tls, Launched)) by (apply S1, lookup_insert_eq).
    split_and!.
    + split; cbn [manager withManager server servers fingerprint_ nextServer]; [|exact S3]. intros s [= <-]. by exists n, tls, Launched.
    + intros _. by exists (nextServer a0), tls.
    + intros Ho Hset s what life Hs Hsub. cbn [manager withManager server servers] in *. apply S2 in Hs; [|done].
      apply lookup_insert_Some in Hs as [[<- _]|[_ Hs]]; [done|]. apply (Hnone s what life) in Hs; [congruence|done..].
  - destruct (startHTTPServer (newHTTPServer n) _) as [h a2] eqn:Hh. intros [= <- <-].
    destruct (startHTTPServer_spec _ _ _ _ Hh) as (S1 & S2 & S3); [exact Hlt0|]. split_and!; [|done|].
    + split; cbn [manager withManager server servers nextServer]; [done|exact S3].
    + intros Ho Hset s what life Hs Hsub. cbn [manager withManager server servers] in *. apply S2 in Hs; [|done].
      apply (Hnone s what life) in Hs; [congruence|done..].
Qed.

(** The configuration that is applied, and that its texts are separable. *)
Definition cleanConfig (detected : result string) cfg : Prop :=
  ∀ n, normalizeConfig detected cfg = (n, None) → clean n.

Lemma normalizeConfig_keys detected cfg n :
  normalizeConfig detected cfg = (n, None) → NoDup (siteKey <$> px_Profiles n).
Proof.
  unfold normalizeConfig. destruct (normalizeProfiles _ _) as [ps|] eqn:Hn; [|done]. intros [= <- _].
  by apply normalizeProfiles_keys in Hn as [? _].
Qed.

Lemma Apply_knows now detected cfg a : knows a → cleanConfig detected cfg →
  knows (Apply now detected cfg a).1 ∧ (only a → settled a → only (Apply now detected cfg a).1).
Proof.
  intros Ha Hc. unfold Apply. destruct (normalizeConfig detected cfg) as [n [e|]] eqn:Hn;
    [by split; [apply forgotten_knows|apply forgotten_only]|].
  destruct (negb (px_Enabled n) || _); [by split; [apply forgotten_knows|apply forgotten_only]|]. case_match; [done|].
  destruct (restart now n a) as [a' e] eqn:Hr.
  destruct (restart_knows _ _ _ _ _ Ha (Hc n Hn) (normalizeConfig_keys _ _ _ Hn) Hr) as (K1 & _ & K2). done.
Qed.

(** Steps of a goroutine keep what its server has. *)
Lemma moved_keeps a s what life life' : servers a !! s = Some (what, life) → let a' := withServers (<[s := (what, life')]> (servers a)) a in
  (knows a → knows a') ∧ (only a → only a').
Proof.
  intros Hs a'. split.
  - intros [H1 H2]. split; cbn [manager servers withServers nextServer a'].
    + intros x Hx. destruct (H1 x Hx) as (n & tls & life0 & C1 & C2 & C3 & C4). destruct (decide (x = s)) as [->|Hne].
      * rewrite Hs in C4. injection C4 as -> ->. exists n, tls, life'. by rewrite lookup_insert_eq.
      * exists n, tls, life0. by rewrite lookup_insert_ne.
    + intros x [<-|Hx]%lookup_insert_is_Some'; [apply H2; by eexists|by apply H2].
  - intros Ho x w l. cbn [servers withServers manager a']. intros [[<- [= <- _]]|[_ Hx]]%lookup_insert_Some Hsub; [by eapply Ho|by eapply Ho].
Qed.

Lemma report_keeps now srv a : (knows a → knows (reportFailure now srv a)) ∧ (only a → only (reportFailure now srv a)).
Proof.
  unfold reportFailure. destruct (servers a !! srv) as [[what [| |e]]|] eqn:Hs; try done. split.
  - intros [H1 H2]. destruct what as [l tls ps mb|l dir]; split; cbn.
    1: done. 1,3: intros x [y [_ Hy]%lookup_delete_Some]; apply H2; by eexists.
    intros x Hx. destruct (H1 x Hx) as (n & tls & life0 & C1 & C2 & C3 & C4). exists n, tls, life0. split_and!; [done..|].
    rewrite lookup_delete_ne; [done|]. intros <-. by rewrite Hs in C4.
  - intros Ho. destruct what as [l tls ps mb|l dir]; intros x w life; cbn; intros [Hne Hx]%lookup_delete_Some Hsub; [|by eapply Ho].
    exfalso. pose proof (Ho _ _ _ Hx Hsub). pose proof (Ho _ _ _ Hs eq_refl). congruence.
Qed.

Definition cleanEvent (ev : proxyEvent) : Prop :=
  match ev with EvApply _ detected cfg => cleanConfig detected cfg | _ => True end.

(** A configuration is applied, or the manager closed, only when no failure waits to
    be told. *)
Definition promptEvent (ev : proxyEvent) a : Prop :=
  match ev with EvApply _ _ _ | EvClose _ => settled a | _ => True end.

#[global] Instance promptEvent_dec ev a : Decision (promptEvent ev a).
Proof. destruct ev; apply _. Defined.

Fixpoint prompt (evs : list proxyEvent) a : Prop :=
  match evs with
  | [] => True
  | ev :: evs => promptEvent ev a ∧ prompt evs (proxyStep ev a)
  end.

#[global] Instance prompt_dec evs a : Decision (prompt evs a).
Proof. revert a. induction evs as [|ev evs IH]; intros a; cbn; apply _. Defined.

Lemma prompt_app evs evs' a : prompt (evs ++ evs') a ↔ prompt evs a ∧ prompt evs' (runProxy evs a).
Proof. revert a. induction evs as [|ev evs IH]; intros a; cbn; [tauto|]. rewrite IH. unfold runProxy. tauto. Qed.

Lemma proxyStep_knows ev a : knows a → cleanEvent ev →
  knows (proxyStep ev a) ∧ (only a → promptEvent ev a → only (proxyStep ev a)).
Proof.
  intros Ha Hc. destruct ev as [now detected cfg|now|srv out|srv e|now srv]; cbn [proxyStep promptEvent].
  - by apply Apply_knows.
  - split; [by apply forgotten_knows|by apply forgotten_only].
  - unfold bindServer. destruct (servers a !! srv) as [[what [| |e]]|] eqn:Hs; [|by split..].
    eapply moved_keeps in Hs as [H1 H2]. split; [by apply H1|intros; by apply H2].
  - unfold failServer. destruct (servers a !! srv) as [[what [| |e']]|] eqn:Hs; [by split| |by split..].
    eapply moved_keeps in Hs as [H1 H2]. split; [by apply H1|intros; by apply H2].
  - destruct (report_keeps now srv a) as [H1 H2]. split; [by apply H1|intros; by apply H2].
Qed.

Lemma runProxy_knows evs a : Forall cleanEvent evs → knows a →
  knows (runProxy evs a) ∧ (only a → prompt evs a → only (runProxy evs a)).
Proof.
  intros Hf. revert a. induction Hf as [|ev evs Hc _ IH]; intros a Ha; [done|]. cbn. destruct (proxyStep_knows ev a Ha Hc) as [H1 H2].
  destruct (IH _ H1) as [H3 H4]. split; [done|]. intros Ho [Hp Hps]. apply H4; [by apply H2|done].
Qed.

Lemma NewManager_knows now d : knows (NewManager now d) ∧ only (NewManager now d).
Proof. split; [split; cbn; [done|]; intros s; rewrite lookup_empty; by intros []|]. intros s what life. cbn. by rewrite lookup_empty. Qed.

(** *** The promise of [Apply] *)

(** C18. Whatever was applied, closed, bound, failed and reported before, when a
    configuration that enables the proxy is applied without an error (its texts
    and those of the earlier ones without the separator of the fingerprint): the
    manager has a server with its address, its profiles and its limit, one that
    was there if nothing had changed and a new one otherwise. [Apply] does not wait
    for it: a new one listens as soon as its goroutine finds the address free.
    And if configurations were applied only when no failure waited to be told, it
    has not failed and there is no other server of subscriptions. *)
Theorem Apply_serves evs now0 d now detected cfg n a' (a := runProxy evs (NewManager now0 d)) :
  Forall cleanEvent evs → cleanConfig detected cfg →
  normalizeConfig detected cfg = (n, None) → px_Enabled n = true → px_Profiles n ≠ [] →
  Apply now detected cfg a = (a', None) →
  ∃ s tls life, server (manager a') = Some s ∧ servers a' !! s = Some (subscriptionsOf n tls, life)
  ∧ (a' = a ∨ life = Launched)
  ∧ (life = Launched → ¬ addressTaken (HTTPSListen n) a' → listening (bindServer s None a') !! s = Some (subscriptionsOf n tls))
  ∧ (prompt (evs ++ [EvApply now detected cfg]) (NewManager now0 d) →
     isFailed life = false
     ∧ ∀ s' what life', servers a' !! s' = Some (what, life') → isSubscriptions what = true → s' = s)
  ∧ ∀ k p, profilesBySite (px_Profiles n) !! k = Some p ↔ p ∈ px_Profiles n ∧ siteKey p = k.
Proof.
  intros Hf Hc Hn He Hp Happ. pose proof (normalizeConfig_keys _ _ _ Hn) as Hnd.
  destruct (NewManager_knows now0 d) as [Hk0 Ho0]. destruct (runProxy_knows evs _ Hf Hk0) as [Ha Honly]. fold a in Ha, Honly.
  assert (Hs : ∃ s tls life, server (manager a') = Some s ∧ servers a' !! s = Some (subscriptionsOf n tls, life) ∧ (a' = a ∨ life = Launched)).
  { unfold Apply in Happ. rewrite Hn, He, bool_decide_false in Happ by done. cbn [negb orb] in Happ. case_match eqn:Hsame.
    - injection Happ as <-. apply andb_true_iff in Hsame as [H1%bool_decide_eq_true H2%bool_decide_eq_true].
      destruct (server (manager a)) as [s|] eqn:Hs; [|done]. destruct (kn_server a Ha s Hs) as (n0 & tls & life & C0 & D0 & F0 & L0).
      destruct (fingerprint_inj n0 n C0 (Hc n Hn) ltac:(congruence)) as (E1 & E2 & E3). exists s, tls, life. split; [done|]. split; [|by left].
      rewrite L0. unfold subscriptionsOf. by rewrite E1, E2, (profilesBySite_perm _ _ E3 D0).
    - destruct (restart_knows now n a a' None Ha (Hc n Hn) Hnd Happ) as (_ & Hr & _). destruct (Hr eq_refl) as (s & tls & ? & _ & ?).
      exists s, tls, Launched. split_and!; [done..|by right]. }
  destruct Hs as (s & tls & life & Hs & Hl & Hwhich). exists s, tls, life. split_and!; [done|done|done| | |].
  - intros -> Hfree. unfold bindServer, listening. rewrite Hl. cbn [servers withServers].
    rewrite lookup_omap, lookup_insert_eq. rewrite decide_False by done. done.
  - intros [Hpr [Hset _]]%prompt_app. cbn in Hset. fold a in Hset. specialize (Honly Ho0 Hpr).
    assert (Ho' : only a'). { change a' with (a', @None GoError).1. rewrite <- Happ. by apply Apply_knows. }
    split; [|intros s' what life' Hs' Hsub; pose proof (Ho' _ _ _ Hs' Hsub); congruence].
    destruct Hwhich as [->| ->]; [|done]. by apply (map_Forall_lookup_1 _ _ _ _ Hset Hl).
  - intros k p. by apply profilesBySite_lookup.
Qed.

(** A server of challenges that the manager does not know. *)
Record stray (h : nat) (listen_ dir : string) a : Prop := {
  sy_listening : servers a !! h = Some (Challenges listen_ dir, Listens);
  sy_next : (h < nextServer a)%nat;
  sy_unknown : server (manager a) ≠ Some h ∧ httpServer (manager a) ≠ Some h
}.

Lemma shutdown_keeps ss a h x :
  servers a !! h = Some x → Some h ∉ ss → servers (shutdown ss a) !! h = Some x.
Proof.
  unfold shutdown. cbn [servers withServers]. generalize (servers a). induction ss as [|[y|] ss IH]; intros l Hl Hn; [done| |];
    rewrite elem_of_cons in Hn; apply Decidable.not_or in Hn as [Hx Hn]; cbn [foldl shutdownServer]; apply IH; try done.
  assert (Hne : y ≠ h) by congruence. destruct (l !! y) as [[w [| |e]]|]; rewrite ?lookup_delete_ne by done; done.
Qed.

Lemma forgotten_stray h listen_ dir fp s a : stray h listen_ dir a →
  stray h listen_ dir (shutdown [server (manager a); httpServer (manager a)] (withManager (mkManager None None fp s) a)).
Proof. intros [H1 H2 [H3 H4]]. split; [|done|done]. apply shutdown_keeps; [done|]. rewrite !elem_of_cons. set_solver. Qed.

Lemma restart_stray h listen_ dir now n a : stray h listen_ dir a → stray h listen_ dir (restart now n a).1.
Proof.
  intros [H1 H2 [H3 H4]]. unfold restart.
  assert (Hs : servers (shutdown [server (manager a); httpServer (manager a)] a) !! h = Some (Challenges listen_ dir, Listens))
    by (apply shutdown_keeps; [done|]; set_solver).
  destruct (prepareCertificate n _) as [d cert]. destruct (serveMode n d) as [tls|err]; unfold newHTTPServer;
    case_bool_decide; cbn [startHTTPServer launch fst]; split; cbn; try lia; try (by rewrite ?lookup_insert_ne by lia); split; try done;
    intros [= E]; lia.
Qed.

Lemma step_stray h listen_ dir ev a : (∀ e, ev ≠ EvFail h e) → stray h listen_ dir a → stray h listen_ dir (proxyStep ev a).
Proof.
  intros Hev Ha. destruct ev as [now detected cfg|now|srv out|srv e|now srv]; cbn [proxyStep].
  - unfold Apply. destruct (normalizeConfig detected cfg) as [n [e|]]; [by apply forgotten_stray|].
    destruct (negb (px_Enabled n) || _); [by apply forgotten_stray|]. case_match; [done|by apply restart_stray].
  - by apply forgotten_stray.
  - unfold bindServer. destruct (servers a !! srv) as [[what [| |e]]|] eqn:Hs; try done. destruct Ha as [H1 H2 H3]. split; [|done|done].
    cbn. rewrite lookup_insert_ne; [done|]. intros ->. by rewrite H1 in Hs.
  - assert (Hne : srv ≠ h) by (intros ->; by apply (Hev e)). unfold failServer. destruct (servers a !! srv) as [[what [| |e']]|] eqn:Hs; try done.
    destruct Ha as [H1 H2 H3]. split; [|done|done]. cbn. by rewrite lookup_insert_ne.
  - unfold reportFailure. destruct (servers a !! srv) as [[what [| |e]]|] eqn:Hs; try done. destruct Ha as [H1 H2 [H3 H4]].
    assert (Hne : srv ≠ h) by (intros ->; by rewrite H1 in Hs).
    destruct what; (split; [cbn; by rewrite lookup_delete_ne|done|]); cbn; [done|]. split; [done|]. by case_bool_decide.
Qed.

Lemma runProxy_stray h listen_ dir evs a :
  stray h listen_ dir a → Forall (λ ev, ∀ e, ev ≠ EvFail h e) evs → stray h listen_ dir (runProxy evs a).
Proof.
  intros Ha Hev. unfold runProxy. apply (foldl_invariant (stray h listen_ dir)); [done|]. clear a Ha.
  intros a ev Hin Ha. rewrite Forall_forall in Hev. by apply step_stray; [apply Hev|].
Qed.

Lemma listening_lookup a s what : servers a !! s = Some (what, Listens) → listening a !! s = Some what.
Proof. intros Hs. unfold listening. by rewrite lookup_omap, Hs. Qed.

(** When the server of subscriptions fails, the manager forgets the server of
    challenges as well, which goes on to listen: no later configuration and not
    even [Close] stops it, only its own failure would. *)
Theorem failure_leaks a s h what listen_ dir now e evs :
  knows a → server (manager a) = Some s → servers a !! s = Some (what, Listens) → httpServer (manager a) = Some h →
  servers a !! h = Some (Challenges listen_ dir, Listens) → Forall (λ ev, ∀ e, ev ≠ EvFail h e) evs →
  isSubscriptions what = true →
  listening (runProxy (EvFail s e :: EvReport now s :: evs) a) !! h = Some (Challenges listen_ dir).
Proof.
  intros Ha Hs Hl Hh Hlh Hev Hsub. destruct what as [l1 tls ps mb|]; [|done].
  assert (Hne : h ≠ s) by congruence. apply listening_lookup, sy_listening. unfold runProxy. cbn [foldl].
  apply runProxy_stray; [|exact Hev]. cbn [proxyStep]. unfold failServer. rewrite Hl. unfold reportFailure. cbn [servers withServers].
  rewrite lookup_insert_eq. split; cbn; [by rewrite lookup_delete_ne, lookup_insert_ne| |done].
  apply (kn_next a Ha). by eexists.
Qed.
End manager.

(** ** Examples at which the hypotheses hold *)

Module Examples.
(** URLs whose text is the origin, and a disk on which all files are there. *)
#[local] Instance exampleNetwork : Network := {|
  ParsedURL := string;
  Parse s := Ok s;
  Scheme _ := "https";
  Host _ := "panel";
  Path _ := "";
  origin s := s;
  fragment _ := "";
  SplitHostPort _ := Some "1.2.3.4";
  EqualFold a b := bool_decide (ToLower a = ToLower b);
  Is6 _ := false;
  IsPublic4 _ := true
|}.

#[local] Instance exampleFiles : Files := {|
  Disk := unit;
  IsFile _ _ := true;
  ReadFile _ _ := None;
  MkdirAll _ d := (d, None);
  WriteFile _ _ d := (d, None);
  Key := unit;
  decodeKey _ _ := Ok tt;
  GenerateKey _ := Ok tt;
  encodeKey _ := "key";
  CreateCertificateRequest _ _ := Ok "csr";
  pemBlocks _ := [];
  ParseCertificate _ := None;
  NotAfter _ := "";
  LoadX509KeyPair _ _ _ := Ok 1%nat;
  Sprint _ := ""
|}.

Definition exampleDisk : Disk := tt.

Definition exampleProfile : SubscriptionProxyProfile := mkSubscriptionProxyProfile "One" "https://panel/" "/s/".

Definition exampleProxy (listen_ : string) : SubscriptionProxyConfig :=
  mkSubscriptionProxyConfig true listen_ "0.0.0.0:80" "/c" "/k" "" "" (mkZeroSSLConfig "" "" "" Panel.AnyNil "" "" "") "" "" "" false 0
    [exampleProfile].

Definition noAddress : result string := Err (errorf "no address").

Lemma exampleProxy_clean listen_ : listen_ = "a:443" ∨ listen_ = "b:443" → cleanConfig noAddress (exampleProxy listen_).
Proof.
  intros [-> | ->] n Hn; vm_compute in Hn; injection Hn as <-;
    (split; [apply (bool_decide_unpack _); vm_compute; exact I|vm_compute; split; [discriminate|reflexivity]]).
Defined.

Definition exampleReply : Reply := mkReply 5 200 {["Content-Type" := ["text/plain"]; "Connection" := ["close"]]} "hello" None.

Definition exampleRequest (path : string) : Request :=
  mkRequest "GET" path path "flag=meta" "proxy" "1.2.3.4:5" {["User-Agent" := ["clash"]; "Connection" := ["keep-alive"]]}.

Lemma proxy_exact_witness :
  let resp := proxySubscription (λ _ _, Ok exampleReply) (exampleRequest "/sub/one/tok") exampleProfile "tok" 1000 in
  Body resp = "hello" ∧ rs_Header resp !! "Connection" = None.
Proof.
  destruct (proxy_exact (λ _ _, Ok exampleReply) (exampleRequest "/sub/one/tok") exampleProfile "tok" 1000) as [[Hc _]|Hr].
  - split; reflexivity.
  - vm_compute in Hc. discriminate Hc.
  - destruct Hr as (u & reply & _ & Hdo & _ & _ & Hb & _ & Hh). injection Hdo as <-.
    split; [exact Hb|exact (Hh "Connection")].
Defined.

Lemma upstream_token_witness :
  ∃ base, Parse (sp_UpstreamBaseURL exampleProfile) = Ok base
  ∧ PathUnescape (escapePath (upstreamPath base exampleProfile "a b")) = Some "/s/a%20b".
Proof.
  destruct (upstream_token exampleProfile "a b" "" "https://panel//s/a%2520b") as (base & Hb & _ & Hp & _); [reflexivity|].
  exists base. split; [exact Hb|]. injection Hb as <-. exact Hp.
Defined.

Lemma challenge_contained_witness :
  ∃ name, Join2 "/dir" "A.txt" = Join2 "/dir" name ∧ (name = "." ∨ plain name).
Proof.
  apply (challenge_contained "/dir" (exampleRequest "/.well-known/pki-validation/A.txt")); [discriminate|vm_compute; reflexivity].
Defined.

(** A first configuration whose server comes to listen and then fails, which is
    told to the manager, and a second with another address. *)
Definition exampleHistory : list proxyEvent :=
  [EvApply 1 noAddress (exampleProxy "a:443"); EvBind 0 None; EvBind 1 None; EvFail 0 (errorf "broken"); EvReport 2 0; EvClose 3].

Lemma exampleHistory_clean : Forall cleanEvent exampleHistory.
Proof. constructor; [apply exampleProxy_clean; left; reflexivity|]. repeat (constructor; [exact I|]). constructor. Defined.

Lemma Apply_serves_witness :
  let a' := (Apply 4 noAddress (exampleProxy "b:443") (runProxy exampleHistory (NewManager 0 exampleDisk))).1 in
  ∃ s tls, server (manager a') = Some s
    ∧ listening (bindServer s None a') !! s = Some (subscriptionsOf (normalizeConfig noAddress (exampleProxy "b:443")).1 tls)
    ∧ ∀ s' what life', servers a' !! s' = Some (what, life') → isSubscriptions what = true → s' = s.
Proof.
  intros a'.
  assert (He : (Apply 4 noAddress (exampleProxy "b:443") (runProxy exampleHistory (NewManager 0 exampleDisk))).2 = None) by (vm_compute; reflexivity).
  destruct (@Apply_serves exampleNetwork exampleFiles exampleHistory 0 exampleDisk 4 noAddress (exampleProxy "b:443") (normalizeConfig noAddress (exampleProxy "b:443")).1
    a') as (s & tls & life & Hs & Hl & Hw & Hb & Hp & _).
  - exact exampleHistory_clean.
  - apply exampleProxy_clean; right; reflexivity.
  - reflexivity.
  - reflexivity.
  - discriminate.
  - rewrite <- He. apply surjective_pairing.
  - destruct Hp as [_ Hp]; [apply (bool_decide_unpack _); vm_compute; exact I|].
    assert (Hlife : life = Launched).
    { assert (E : server (manager a') = Some 2%nat) by (vm_compute; reflexivity). rewrite E in Hs. injection Hs as <-.
      assert (E2 : snd <$> servers a' !! 2%nat = Some Launched) by (vm_compute; reflexivity). rewrite Hl in E2. injection E2 as E2. exact E2. }
    exists s, tls. split; [exact Hs|]. split; [|exact Hp]. apply Hb; [exact Hlife|]. apply (bool_decide_unpack _). vm_compute. exact I.
Defined.

(** [Apply] answers without an error, and its status says running, although the
    address is taken; the goroutine reports it only afterwards. *)
Example running_unbound :
  let r := Apply 1 noAddress (exampleProxy "a:443") (NewManager 0 exampleDisk) in
  let a := runProxy [EvBind 0 (Some (errorf "bind: address already in use"))] r.1 in
  r.2 = None ∧ Running (status (manager r.1)) = true ∧ map_to_list (listening a) = []
  ∧ server (manager (runProxy [EvReport 2 0] a)) = None.
Proof. vm_compute. split_and!; reflexivity. Qed.

(** A server fails, and before its goroutine tells the manager another
    configuration is applied: the manager forgets the new server, which goes on
    to serve subscriptions also after [Close]. *)
Example stale_failure_survives_close :
  let a := runProxy [EvApply 1 noAddress (exampleProxy "a:443"); EvBind 0 None; EvFail 0 (errorf "broken");
                     EvApply 2 noAddress (exampleProxy "b:443"); EvBind 2 None; EvReport 3 0; EvClose 4] (NewManager 0 exampleDisk) in
  st_Status (status (manager a)) = "error" ∧ isSubscriptions <$> listening a !! 2%nat = Some true.
Proof. vm_compute. split; reflexivity. Qed.

Lemma failure_leaks_witness :
  let a := runProxy [EvApply 1 noAddress (exampleProxy "a:443"); EvBind 0 None; EvBind 1 None] (NewManager 0 exampleDisk) in
  listening (runProxy [EvFail 0 (errorf "broken"); EvReport 2 0; EvClose 3] a) !! 1%nat
  = Some (Challenges "0.0.0.0:80" "/etc/v2node/subproxy/challenges").
Proof.
  apply (@failure_leaks exampleNetwork exampleFiles (runProxy [EvApply 1 noAddress (exampleProxy "a:443"); EvBind 0 None; EvBind 1 None] (NewManager 0 exampleDisk)) 0 1
    (subscriptionsOf (normalizeConfig noAddress (exampleProxy "a:443")).1 true)).
  - apply runProxy_knows; [|apply NewManager_knows]. constructor; [apply exampleProxy_clean; left; reflexivity|].
    repeat (constructor; [exact I|]). constructor.
  - vm_compute. reflexivity.
  - vm_compute. reflexivity.
  - vm_compute. reflexivity.
  - vm_compute. reflexivity.
  - constructor; [discriminate|constructor].
  - reflexivity.
Defined.
End Examples.
End SubproxyProps.
