(* ===== verification/UrlForm.v ===== *)
(** * Form encoding (net/url: QueryEscape, Values.Encode, ParseQuery)

    The program sets each key of a [url.Values] once ([Set]), so that values are
    a map of strings. Reading an encoded form gives the values back
    ([ParseForm_Encode]). *)

From Stdlib Require Import Ascii.
From S2P Require Import Prelude GoStrings Json UrlEscape GoText.

Module UrlForm.
Import GoStrings GoText.

(** ** Components *)

Definition queryByte (a : ascii) : list ascii :=
  if Ascii.eqb a " " then ["+"%char] else UrlEscape.escapeByte UrlEscape.is_unreserved a.

Definition QueryEscape (s : string) : string := of_bytes (bytes s ≫= queryByte).

Definition plusToSpace (a : ascii) : ascii := if Ascii.eqb a "+" then " "%char else a.

(** A plus is a space; percent signs are decoded after that. *)
Definition QueryUnescape (s : string) : option string :=
  of_bytes <$> UrlEscape.unescape_bytes (plusToSpace <$> bytes s).

(** The bytes of an encoded component. *)
Definition component_byte (a : ascii) : bool :=
  UrlEscape.is_unreserved a || Ascii.eqb a "+" || Ascii.eqb a "%".

Lemma queryByte_component a : Forall (λ b, component_byte b = true) (queryByte a).
Proof.
  apply (bool_decide_unpack _). destruct a as [[] [] [] [] [] [] [] []]; vm_compute; exact I.
Qed.

Lemma QueryEscape_component s : Forall (λ b, component_byte b = true) (bytes (QueryEscape s)).
Proof.
  unfold QueryEscape. autorewrite with gostrings. induction (bytes s) as [|a l IH]; [constructor|].
  cbn [mbind list_bind]. apply Forall_app_2; [apply queryByte_component|exact IH].
Qed.

Lemma unescape_queryByte a l :
  UrlEscape.unescape_bytes ((plusToSpace <$> queryByte a) ++ l) = cons a <$> UrlEscape.unescape_bytes l.
Proof. destruct a as [[] [] [] [] [] [] [] []]; reflexivity. Qed.

Lemma QueryUnescape_QueryEscape s : QueryUnescape (QueryEscape s) = Some s.
Proof.
  unfold QueryUnescape, QueryEscape. rewrite bytes_of_bytes.
  assert (H : UrlEscape.unescape_bytes (plusToSpace <$> (bytes s ≫= queryByte)) = Some (bytes s)).
  { induction (bytes s) as [|a l IH]; [done|]. change ((a :: l) ≫= queryByte) with (queryByte a ++ (l ≫= queryByte)).
    rewrite fmap_app, unescape_queryByte, IH. done. }
  rewrite H. cbn. by rewrite of_bytes_bytes.
Qed.

(** ** Values *)

Abbreviation Values := (gmap string string).

(** [v.Get(key)] *)
Definition Get (key : string) (v : Values) : string := default "" (v !! key).

Definition encodePair (kv : string * string) : string := QueryEscape kv.1 +:+ "=" +:+ QueryEscape kv.2.

(** The keys in the order of [sort.Strings]. *)
Definition sortedPairs (v : Values) : list (string * string) :=
  (λ k, (k, Get k v)) <$> sortStrings (map_to_list v).*1.

Definition Encode (v : Values) : string := Join "&" (encodePair <$> sortedPairs v).

Definition parsePair (s : string) : option (string * string) :=
  let '(k, v) := default (s, "") (Cut "="%char s) in
  match QueryUnescape k, QueryUnescape v with
  | Some k, Some v => Some (k, v)
  | _, _ => None
  end.

(** What a reader of the form finds; of a key that occurs twice, the first value. *)
Definition ParseForm (body : string) : option Values :=
  (λ l : list (string * string), list_to_map l) <$> mapM parsePair (filter (λ s, s ≠ "") (Split "&"%char body)).

(** ** Reading what was written *)

Lemma sortedPairs_perm v : sortedPairs v ≡ₚ map_to_list v.
Proof.
  unfold sortedPairs. rewrite sortStrings_Permutation.
  rewrite <- list_fmap_compose. rewrite <- (list_fmap_id (map_to_list v)) at 2.
  apply Permutation_refl'. apply list_fmap_ext. intros i [k x] Hi. cbn. unfold Get.
  apply list_elem_of_lookup_2, elem_of_map_to_list in Hi. by rewrite Hi.
Qed.

Lemma list_to_map_sortedPairs v : list_to_map (sortedPairs v) = v.
Proof.
  rewrite <- (list_to_map_to_list v) at 2. apply list_to_map_proper.
  - rewrite sortedPairs_perm. apply NoDup_fst_map_to_list.
  - apply sortedPairs_perm.
Qed.

Lemma component_neq c l :
  component_byte c = false → Forall (λ b, component_byte b = true) l → Forall (λ a, a ≠ c) l.
Proof. intros Hc Hl. eapply Forall_impl; [exact Hl|]. intros a Ha ->. cbn in Ha. congruence. Qed.

Lemma parsePair_encodePair kv : parsePair (encodePair kv) = Some kv.
Proof.
  destruct kv as [k v]. unfold parsePair, encodePair. cbn [fst snd].
  change ("=" +:+ ?s) with (String "=" s). rewrite Cut_app.
  - cbn. by rewrite !QueryUnescape_QueryEscape.
  - apply component_neq; [done|apply QueryEscape_component].
Qed.

Lemma encodePair_bytes kv : Forall (λ a, a ≠ "&"%char) (bytes (encodePair kv)).
Proof.
  unfold encodePair. autorewrite with gostrings. apply Forall_app_2.
  - apply component_neq; [done|apply QueryEscape_component].
  - constructor; [done|]. apply component_neq; [done|apply QueryEscape_component].
Qed.

Lemma encodePair_nonempty kv : encodePair kv ≠ "".
Proof.
  intros E. apply (f_equal (λ s, length (bytes s))) in E. revert E. unfold encodePair.
  autorewrite with gostrings. rewrite !length_app. cbn. lia.
Qed.

Lemma mapM_parsePair l : mapM parsePair (encodePair <$> l) = Some l.
Proof. apply mapM_fmap_Some. intros. apply parsePair_encodePair. Qed.

(** Reading an encoded form gives back exactly the values that were set. *)
Lemma ParseForm_Encode v : ParseForm (Encode v) = Some v.
Proof.
  unfold ParseForm, Encode.
  assert (H : filter (λ s, s ≠ "") (Split "&"%char (Join "&" (encodePair <$> sortedPairs v))) = encodePair <$> sortedPairs v).
  { destruct (sortedPairs v) as [|kv l] eqn:E; [done|]. change "&" with (String "&" EmptyString).
    rewrite Split_Join.
    - apply list_filter_all. apply Forall_fmap, Forall_true. intros. apply encodePair_nonempty.
    - done.
    - apply Forall_fmap, Forall_true. intros. apply encodePair_bytes. }
  rewrite H, mapM_parsePair. cbn. by rewrite list_to_map_sortedPairs.
Qed.
End UrlForm.
