(* ===== verification/EdgeClient.v ===== *)
(** * The client of the keli-edge agent (agent/edge/client.go, cmd/edge.go)

    The agent answers HTTP on the loopback interface; what it answers is the
    class [Transport], over a state [S] of its own, and includes the errors of
    building a request and of the connection. A body is its text with what
    encoding/json makes of it. [edgeControlState] keeps the client the
    configuration asks for, and is the bridge behind EdgeTraffic.v and
    EdgeSidecar.v. *)

From Stdlib Require Import Ascii.
From S2P Require Import Prelude GoStrings Json GoText UrlForm Conf EdgeSidecar EdgeTraffic.

Module EdgeClient.
Import GoStrings GoText UrlForm.

(** ** Data *)

Record Client := mkClient { baseURL : string; timeout : Z }.

Record Health := mkHealth { Status : string; Version : string; UptimeSeconds : Z }.

Record TrafficRecord := mkTrafficRecord { tr_User : string; tr_Upload : Z; tr_Download : Z }.

Record TrafficSnapshot := mkTrafficSnapshot { tn_Upload : Z; tn_Download : Z; tn_Users : list TrafficRecord }.

Record GeneratedFile := mkGeneratedFile { Path : string; Contents : string }.

Record SidecarSpec := mkSidecarSpec {
  Name : string;
  Protocol : string;
  Enabled : bool;
  Binary : string;
  Args : list string;
  Env : gmap string string;
  GeneratedFiles : list GeneratedFile
}.

Record SidecarFailure := mkSidecarFailure { sl_Name : string; sl_Error : string }.

Record SidecarApplyReport := mkSidecarApplyReport {
  Started : list string;
  Stopped : list string;
  Failed : list SidecarFailure
}.

#[global] Instance GeneratedFile_eq_dec : EqDecision GeneratedFile.
Proof. solve_decision. Defined.

#[global] Instance SidecarSpec_eq_dec : EqDecision SidecarSpec.
Proof. solve_decision. Defined.

#[global] Instance TrafficRecord_eq_dec : EqDecision TrafficRecord.
Proof. solve_decision. Defined.

(** ** HTTP *)

Record Request := mkRequest { method : string; req_url : string; contentType : option string; req_body : string }.

Record Body := mkBody { text : string; parsed : result Json.Json }.

(** [Err] is an error while the body is read. *)
Record Response := mkResponse { StatusCode : Z; resp_Body : result Body }.

(** [http.NewRequestWithContext] and [httpClient.Do]. *)
Class Transport (S : Type) := Do : Client → Request → S → S * result Response.

Definition second : Z := 1000000000.

Definition is_slash (a : ascii) : bool := Ascii.eqb a "/".

Definition NewClient (baseURL : string) (timeout : Z) : Client :=
  let timeout := if timeout <=? 0 then 2 * second else timeout in
  mkClient (TrimRight is_slash (TrimSpace baseURL)) timeout.

Definition url (c : Client) (path : string) : string := baseURL c +:+ path.

(** ** Decoding *)

Definition setUint {T} (f : Z → T → T) : Json.Setter T := λ j s,
  match j with
  | Json.JNull => Some s
  | Json.JNumber token => (λ n, f n s) <$> ParseUint token
  | _ => None
  end.

Definition setInt {T} (f : Z → T → T) : Json.Setter T := λ j s,
  match j with
  | Json.JNull => Some s
  | Json.JNumber token => (λ n, f n s) <$> Atoi token
  | _ => None
  end.

Definition okValue {A} (r : result A) : option A := match r with Ok a => Some a | Err _ => None end.

(** A slice: [null] makes it nil. *)
Definition setList {T A} (elem : Json.Json → option A) (f : list A → T → T) : Json.Setter T := λ j s,
  match j with
  | Json.JNull => Some (f [] s)
  | Json.JArray l => (λ l, f l s) <$> mapM elem l
  | _ => None
  end.

Definition decodeText (j : Json.Json) : option string :=
  match j with Json.JNull => Some "" | Json.JString s => Some s | _ => None end.

Definition healthFields : list (string * Json.Setter Health) :=
  [("status", Json.setString (λ v h, mkHealth v (Version h) (UptimeSeconds h)));
   ("version", Json.setString (λ v h, mkHealth (Status h) v (UptimeSeconds h)));
   ("uptime_seconds", setInt (λ v h, mkHealth (Status h) (Version h) v))].

Definition recordFields : list (string * Json.Setter TrafficRecord) :=
  [("user", Json.setString (λ v r, mkTrafficRecord v (tr_Upload r) (tr_Download r)));
   ("upload_bytes", setUint (λ v r, mkTrafficRecord (tr_User r) v (tr_Download r)));
   ("download_bytes", setUint (λ v r, mkTrafficRecord (tr_User r) (tr_Upload r) v))].

Definition decodeRecord (j : Json.Json) : option TrafficRecord :=
  okValue (Json.decodeStruct recordFields j (mkTrafficRecord "" 0 0)).

Definition snapshotFields : list (string * Json.Setter TrafficSnapshot) :=
  [("upload_bytes", setUint (λ v t, mkTrafficSnapshot v (tn_Download t) (tn_Users t)));
   ("download_bytes", setUint (λ v t, mkTrafficSnapshot (tn_Upload t) v (tn_Users t)));
   ("users", setList decodeRecord (λ v t, mkTrafficSnapshot (tn_Upload t) (tn_Download t) v))].

Definition failureFields : list (string * Json.Setter SidecarFailure) :=
  [("name", Json.setString (λ v f, mkSidecarFailure v (sl_Error f)));
   ("error", Json.setString (λ v f, mkSidecarFailure (sl_Name f) v))].

Definition decodeFailure (j : Json.Json) : option SidecarFailure :=
  okValue (Json.decodeStruct failureFields j (mkSidecarFailure "" "")).

Definition reportFields : list (string * Json.Setter SidecarApplyReport) :=
  [("started", setList decodeText (λ v r, mkSidecarApplyReport v (Stopped r) (Failed r)));
   ("stopped", setList decodeText (λ v r, mkSidecarApplyReport (Started r) v (Failed r)));
   ("failed", setList decodeFailure (λ v r, mkSidecarApplyReport (Started r) (Stopped r) v))].

(** [decodeResponse]; without fields there is no target. *)
Definition decodeResponse {T} (fields : option (list (string * Json.Setter T))) (zero : T) (resp : Response) : result T :=
  match resp_Body resp with
  | Err e => Err e
  | Ok data =>
      if (StatusCode resp <? 200) || (300 <=? StatusCode resp)
      then Err (errorf ("keli-edge status=" +:+ Itoa (StatusCode resp) +:+ " body=" +:+ TrimSpace (text data)))
      else match fields with
           | None => Ok zero
           | Some fields =>
               if bool_decide (text data = "") then Ok zero
               else
                 let failed e := Err (wrapErr ("decode keli-edge response failed: " +:+ err_msg e) e) in
                 match parsed data with
                 | Err e => failed e
                 | Ok j => match Json.decodeStruct fields j zero with
                           | Err e => failed e
                           | Ok v => Ok v
                           end
                 end
           end
  end.

(** ** Forms *)

Definition formatEnvLines (env : gmap string string) : string :=
  Join EdgeSidecar.newline ((λ k, k +:+ "=" +:+ Get k env) <$> sortStrings (map_to_list env).*1).

(** The keys of file [i]. *)
Definition fileKey (base : string) (i : nat) : string :=
  if (0 <? i)%nat then base +:+ "_" +:+ Itoa (Z.of_nat i) else base.

Definition setFile (v : Values) (f : nat * GeneratedFile) : Values :=
  <[fileKey "file_contents" f.1 := Contents f.2]> (<[fileKey "file_path" f.1 := Path f.2]> v).

(** The values before the files. *)
Definition specValues (spec : SidecarSpec) : Values :=
  let values : Values := <["name" := Name spec]> ∅ in
  let values := <["protocol" := Protocol spec]> values in
  let values := <["enabled" := if Enabled spec then "true" else "false"]> values in
  let values := <["binary" := Binary spec]> values in
  let values := match Args spec with [] => values | args => <["args" := Join EdgeSidecar.newline args]> values end in
  if bool_decide (Env spec = ∅) then values else <["env" := formatEnvLines (Env spec)]> values.

Definition sidecarValues (spec : SidecarSpec) : Values :=
  foldl setFile (specValues spec) (imap pair (GeneratedFiles spec)).

Definition recordValues (record : TrafficRecord) : Values :=
  let values : Values := <["user" := tr_User record]> ∅ in
  let values := <["upload" := Itoa (tr_Upload record)]> values in
  <["download" := Itoa (tr_Download record)]> values.

(** ** Requests *)

Section client.
Context {S : Type} {T : Transport S}.
Implicit Types (c : Client) (s : S).

Definition getJSON {A} c (path : string) (fields : list (string * Json.Setter A)) (zero : A) s : S * result A :=
  match Do c (mkRequest "GET" (url c path) None "") s with
  | (s, Err e) => (s, Err e)
  | (s, Ok resp) => (s, decodeResponse (Some fields) zero resp)
  end.

Definition postForm {A} c (path : string) (form : option Values) (fields : option (list (string * Json.Setter A)))
    (zero : A) s : S * result A :=
  let body := match form with Some v => Encode v | None => "" end in
  match Do c (mkRequest "POST" (url c path) (Some "application/x-www-form-urlencoded") body) s with
  | (s, Err e) => (s, Err e)
  | (s, Ok resp) => (s, decodeResponse fields zero resp)
  end.

Definition GetHealth c s : S * result Health := getJSON c "/health" healthFields (mkHealth "" "" 0) s.

Definition errorOf {A} (r : result A) : option GoError := match r with Ok _ => None | Err e => Some e end.

Definition Client_Reload c s : S * option GoError :=
  let '(s, r) := postForm c "/reload" None None tt s in (s, errorOf r).

Definition Client_RecordTraffic c (record : TrafficRecord) s : S * option GoError :=
  let '(s, r) := postForm c "/traffic" (Some (recordValues record)) None tt s in (s, errorOf r).

Definition Client_DrainTraffic c s : S * result TrafficSnapshot :=
  postForm c "/traffic/drain" None (Some snapshotFields) (mkTrafficSnapshot 0 0 []) s.

Definition Client_UpsertSidecar c (spec : SidecarSpec) s : S * result SidecarApplyReport :=
  postForm c "/sidecars/upsert" (Some (sidecarValues spec)) (Some reportFields) (mkSidecarApplyReport [] [] []) s.

(** ** The control state of the process (cmd/edge.go) *)

Record edgeControlState := mkControl { client : option Client }.

(** The configured client is kept whether or not the agent is healthy. *)
Definition Apply (cfg : Conf.EdgeConfig) (ctl : edgeControlState) s : edgeControlState * S :=
  if negb (Conf.ec_Enabled cfg) then (mkControl None, s)
  else
    let client := NewClient (Conf.ec_URL cfg) (wrap64 (Conf.ec_Timeout cfg * second)) in
    let '(s, _) := GetHealth client s in
    (mkControl (Some client), s).

Definition Reload (ctl : edgeControlState) s : S :=
  match client ctl with
  | None => s
  | Some c => (Client_Reload c s).1
  end.

Definition nodeRecord (r : TrafficRecord) : EdgeTraffic.EdgeTrafficRecord :=
  EdgeTraffic.mkEdgeRecord (tr_User r) (tr_Upload r) (tr_Download r).

Definition edgeRecord (r : EdgeTraffic.EdgeTrafficRecord) : TrafficRecord :=
  mkTrafficRecord (EdgeTraffic.er_User r) (EdgeTraffic.UploadBytes r) (EdgeTraffic.DownloadBytes r).

Definition DrainTraffic (ctl : edgeControlState) s : S * result (list EdgeTraffic.EdgeTrafficRecord) :=
  match client ctl with
  | None => (s, Ok [])
  | Some c =>
      match Client_DrainTraffic c s with
      | (s, Err e) => (s, Err e)
      | (s, Ok snapshot) => (s, Ok (nodeRecord <$> tn_Users snapshot))
      end
  end.

Definition disabled : GoError := errorf "keli-edge client is disabled".

Definition RecordTraffic (ctl : edgeControlState) (record : EdgeTraffic.EdgeTrafficRecord) s : S * option GoError :=
  match client ctl with
  | None => (s, Some disabled)
  | Some c => Client_RecordTraffic c (edgeRecord record) s
  end.

(** [restoreEdgeTraffic] of node/edge_traffic.go through this bridge: the records
    that were taken back. *)
Fixpoint restoreEdgeTraffic (ctl : edgeControlState) (records : list EdgeTraffic.EdgeTrafficRecord) s
    : S * list EdgeTraffic.EdgeTrafficRecord :=
  match records with
  | [] => (s, [])
  | record :: records =>
      if EdgeTraffic.emptyRecord record then restoreEdgeTraffic ctl records s
      else match RecordTraffic ctl record s with
           | (s, Some _) => (s, [])
           | (s, None) => let '(s, l) := restoreEdgeTraffic ctl records s in (s, record :: l)
           end
  end.

(** [json.Marshal(config)] of a mieru configuration; a port of 0 and an empty
    range are left out. *)
Definition bindingJSON (b : EdgeSidecar.mieruPortBinding) : Json.Json :=
  Json.JObject ((if EdgeSidecar.mb_Port b =? 0 then [] else [("port", Json.JNumber (Itoa (EdgeSidecar.mb_Port b)))])
    ++ (if bool_decide (EdgeSidecar.PortRange b = "") then [] else [("portRange", Json.JString (EdgeSidecar.PortRange b))])
    ++ [("protocol", Json.JString (EdgeSidecar.mb_Protocol b))]).

Definition mieruUserJSON (u : EdgeSidecar.mieruUser) : Json.Json :=
  Json.JObject [("name", Json.JString (EdgeSidecar.Name u)); ("password", Json.JString (EdgeSidecar.Password u))].

Definition mieruJSON (config : EdgeSidecar.mieruServerConfig) : Json.Json :=
  Json.JObject
    [("portBindings", Json.JArray (bindingJSON <$> EdgeSidecar.PortBindings config));
     ("users", Json.JArray (mieruUserJSON <$> EdgeSidecar.mc_Users config));
     ("loggingLevel", Json.JString (EdgeSidecar.LoggingLevel config));
     ("mtu", Json.JNumber (Itoa (EdgeSidecar.MTU config)))].

Definition contentsText (contents : EdgeSidecar.Contents) : string :=
  match contents with
  | EdgeSidecar.MieruJSON config => marshal (mieruJSON config)
  | EdgeSidecar.Text s => s
  end.

Definition edgeGeneratedFiles (files : list EdgeSidecar.EdgeGeneratedFile) : list GeneratedFile :=
  (λ f, mkGeneratedFile (EdgeSidecar.gf_Path f) (contentsText (EdgeSidecar.gf_Contents f))) <$> files.

Definition edgeSpec (spec : EdgeSidecar.EdgeSidecarSpec) : SidecarSpec :=
  mkSidecarSpec (EdgeSidecar.es_Name spec) (EdgeSidecar.es_Protocol spec) (EdgeSidecar.es_Enabled spec)
    (EdgeSidecar.es_Binary spec) (EdgeSidecar.es_Args spec) (EdgeSidecar.es_Env spec)
    (edgeGeneratedFiles (EdgeSidecar.GeneratedFiles spec)).

Definition nodeReport (report : SidecarApplyReport) : EdgeSidecar.EdgeSidecarApplyReport :=
  EdgeSidecar.mkApplyReport (Started report) (Stopped report)
    ((λ f, EdgeSidecar.mkEdgeSidecarFailure (sl_Name f) (sl_Error f)) <$> Failed report).

Definition UpsertSidecar (ctl : edgeControlState) (spec : EdgeSidecar.EdgeSidecarSpec) s
    : S * result EdgeSidecar.EdgeSidecarApplyReport :=
  match client ctl with
  | None => (s, Err disabled)
  | Some c =>
      match Client_UpsertSidecar c (edgeSpec spec) s with
      | (s, Err e) => (s, Err e)
      | (s, Ok report) => (s, Ok (nodeReport report))
      end
  end.
End client.
End EdgeClient.
