(* ===== verification/EdgeClientProps.v ===== *)
(** * What the client of the edge agent promises

    The form of a sidecar is read back as the specification it was made from
    ([sidecar_request]), and a cycle of draining and giving back leaves with
    the agent what was not reported, up to the first record that is not taken
    back ([drain_cycle]). *)

From Stdlib Require Import Ascii DecimalString DecimalN.
From S2P Require Import Prelude GoStrings Json GoText UrlForm Conf Panel EdgeSidecar EdgeTraffic EdgeTrafficProps EdgeClient.

Module EdgeClientProps.
Import GoStrings GoText UrlForm EdgeClient.

(** ** Reading the form of a sidecar

    The reader of the keys that [UpsertSidecar] writes: one argument or
    variable a line, files until the first number that is missing. *)

Definition readArgs (v : Values) : list string :=
  match v !! "args" with None => [] | Some s => Split "010"%char s end.

Definition readEnv (v : Values) : gmap string string :=
  match v !! "env" with
  | None => ∅
  | Some s => list_to_map (omap (Cut "="%char) (Split "010"%char s))
  end.

Fixpoint readFiles (n i : nat) (v : Values) : list GeneratedFile :=
  match n with
  | O => []
  | S n =>
      match v !! fileKey "file_path" i with
      | None => []
      | Some path => mkGeneratedFile path (Get (fileKey "file_contents" i) v) :: readFiles n (S i) v
      end
  end.

Definition readSidecar (v : Values) : SidecarSpec :=
  mkSidecarSpec (Get "name" v) (Get "protocol" v) (bool_decide (Get "enabled" v = "true")) (Get "binary" v)
    (readArgs v) (readEnv v) (readFiles (size v) 0 v).

(** One line each. *)
Definition oneLine (s : string) : Prop := Forall (λ a, a ≠ "010"%char) (bytes s).

Definition plainSpec (spec : SidecarSpec) : Prop :=
  Forall oneLine (Args spec)
  ∧ map_Forall (λ k x, oneLine k ∧ Forall (λ a, a ≠ "="%char) (bytes k) ∧ oneLine x) (Env spec).

(** *** Keys of files *)

Lemma fileKey_inj base i j : fileKey base i = fileKey base j → i = j.
Proof.
  unfold fileKey. destruct (Nat.ltb_spec 0 i), (Nat.ltb_spec 0 j); intros E; try lia.
  - apply app_string_inj_l, app_string_inj_l, Itoa_nonneg_inj in E; lia.
  - exfalso. rewrite <- (of_bytes_bytes base) in E at 2. apply (f_equal (λ s, length (bytes s))) in E. revert E.
    autorewrite with gostrings. rewrite !length_app. cbn. lia.
  - exfalso. rewrite <- (of_bytes_bytes base) in E at 1. apply (f_equal (λ s, length (bytes s))) in E. revert E.
    autorewrite with gostrings. rewrite !length_app. cbn. lia.
Qed.

Lemma fileKey_path_contents i j : fileKey "file_path" i ≠ fileKey "file_contents" j.
Proof. unfold fileKey. by destruct (0 <? i)%nat, (0 <? j)%nat. Qed.

Definition fileByte (key : string) : bool := HasPrefix key "file_".

Lemma fileKey_prefix base i : fileByte (fileKey ("file_" +:+ base) i) = true.
Proof. unfold fileKey, fileByte. destruct (0 <? i)%nat; [rewrite app_string_assoc|]; apply HasPrefix_app. Qed.

Lemma fileKey_path i : fileByte (fileKey "file_path" i) = true.
Proof. exact (fileKey_prefix "path" i). Qed.

Lemma fileKey_contents i : fileByte (fileKey "file_contents" i) = true.
Proof. exact (fileKey_prefix "contents" i). Qed.

(** *** Setting files *)

Lemma setFiles_other v files key :
  fileByte key = false → foldl setFile v (imap pair files) !! key = v !! key.
Proof.
  intros Hk. apply (foldl_invariant (λ w : Values, w !! key = v !! key)); [done|].
  intros w [i f] _ Hw. unfold setFile. cbn.
  rewrite !lookup_insert_ne; [done|..]; intros E; [rewrite <- E, fileKey_path in Hk|rewrite <- E, fileKey_contents in Hk]; done.
Qed.

Lemma setFiles_file v files i :
  (∀ key, fileByte key = true → v !! key = None) →
  foldl setFile v (imap pair files) !! fileKey "file_path" i = Path <$> files !! i
  ∧ foldl setFile v (imap pair files) !! fileKey "file_contents" i = Contents <$> files !! i.
Proof.
  intros Hv. induction files as [|f files IH] using rev_ind.
  - split; apply Hv; [apply fileKey_path|apply fileKey_contents].
  - rewrite imap_app, foldl_app. cbn [imap foldl]. unfold setFile. cbn [fst snd compose].
    rewrite Nat.add_0_r. destruct (decide (i = length files)) as [->|Hne].
    + rewrite list_lookup_middle by done. split.
      * rewrite lookup_insert_ne by (intros E; symmetry in E; by apply fileKey_path_contents in E). by rewrite lookup_insert_eq.
      * by rewrite lookup_insert_eq.
    + assert (E : (files ++ [f]) !! i = files !! i).
      { destruct (decide (i < length files)%nat); [by rewrite lookup_app_l|].
        rewrite !lookup_ge_None_2; [done|lia|rewrite length_app; cbn; lia]. }
      rewrite E. split.
      * rewrite lookup_insert_ne by (intros E'; symmetry in E'; by apply fileKey_path_contents in E').
        rewrite lookup_insert_ne by (intros E'; by apply Hne, (fileKey_inj _ _ _ (eq_sym E'))). apply IH.
      * rewrite lookup_insert_ne by (intros E'; by apply Hne, (fileKey_inj _ _ _ (eq_sym E'))).
        rewrite lookup_insert_ne by (intros E'; by apply fileKey_path_contents in E'). apply IH.
Qed.

Lemma setFiles_size v files :
  (∀ key, fileByte key = true → v !! key = None) → (length files <= size (foldl setFile v (imap pair files)))%nat.
Proof.
  intros Hv. induction files as [|f files IH] using rev_ind; [cbn; lia|].
  destruct (setFiles_file v files (length files) Hv) as [Hp _]. rewrite lookup_ge_None_2 in Hp by lia.
  rewrite imap_app, foldl_app, length_app. cbn [imap foldl length]. unfold compose.
  rewrite Nat.add_0_r. clear -IH Hp. revert IH Hp. generalize (foldl setFile v (imap pair files)) as w. intros w IH Hp.
  unfold setFile. cbn [fst snd]. rewrite map_size_insert.
  rewrite map_size_insert_None by done. case_match; unfold id; lia.
Qed.

Lemma readFiles_ok v files n i :
  (∀ j, v !! fileKey "file_path" (i + j) = Path <$> files !! j
     ∧ v !! fileKey "file_contents" (i + j) = Contents <$> files !! j) →
  (length files <= n)%nat → readFiles n i v = files.
Proof.
  revert i files. induction n as [|n IH]; intros i files Hv Hn; [by destruct files; [|cbn in Hn; lia]|].
  cbn [readFiles]. destruct (Hv 0%nat) as [Hp Hc]. rewrite Nat.add_0_r in Hp, Hc. rewrite Hp.
  destruct files as [|f files]; [done|]. cbn. unfold Get. rewrite Hc. cbn. destruct f as [p q]. cbn. f_equal.
  apply IH; [|cbn in Hn; lia]. intros j. replace (S i + j)%nat with (i + S j)%nat by lia. apply Hv.
Qed.

(** *** The other keys *)

Ltac look := repeat first [rewrite lookup_insert_eq | rewrite lookup_insert_ne by done].

Lemma specValues_lookup spec :
  specValues spec !! "name" = Some (Name spec) ∧ specValues spec !! "protocol" = Some (Protocol spec)
  ∧ specValues spec !! "enabled" = Some (if Enabled spec then "true" else "false")
  ∧ specValues spec !! "binary" = Some (Binary spec)
  ∧ specValues spec !! "args" = match Args spec with [] => None | args => Some (Join EdgeSidecar.newline args) end
  ∧ specValues spec !! "env" = if bool_decide (Env spec = ∅) then None else Some (formatEnvLines (Env spec)).
Proof. unfold specValues. destruct (Args spec); case_bool_decide; split_and!; by look. Qed.

Lemma specValues_no_file spec key : fileByte key = true → specValues spec !! key = None.
Proof.
  intros Hk. unfold specValues. destruct (Args spec); case_bool_decide;
    rewrite ?lookup_insert_ne, ?lookup_empty; try done; by intros <-.
Qed.

Lemma Join_env env : formatEnvLines env = Join EdgeSidecar.newline ((λ kv, kv.1 +:+ "=" +:+ kv.2) <$> sortedPairs env).
Proof. unfold formatEnvLines, sortedPairs. by rewrite <- list_fmap_compose. Qed.

Lemma omap_Cut_pairs l :
  Forall (λ kv, Forall (λ a, a ≠ "="%char) (bytes kv.1)) l →
  omap (Cut "="%char) ((λ kv : string * string, kv.1 +:+ "=" +:+ kv.2) <$> l) = l.
Proof.
  induction 1 as [|[k x] l Hk Hl IH]; [done|]. cbn [fmap list_fmap omap list_omap fst snd].
  change ("=" +:+ ?s) with (String "=" s). rewrite Cut_app by done. f_equal. exact IH.
Qed.

Lemma readEnv_ok v env :
  v !! "env" = (if bool_decide (env = ∅) then None else Some (formatEnvLines env)) →
  map_Forall (λ k x, oneLine k ∧ Forall (λ a, a ≠ "="%char) (bytes k) ∧ oneLine x) env → readEnv v = env.
Proof.
  intros Hv Hp. unfold readEnv. rewrite Hv. case_bool_decide as E; [done|].
  assert (Hl : Forall (λ kv, oneLine kv.1 ∧ Forall (λ a, a ≠ "="%char) (bytes kv.1) ∧ oneLine kv.2) (sortedPairs env)).
  { rewrite sortedPairs_perm. apply Forall_forall. intros [k x] Hkx%elem_of_map_to_list. apply (Hp _ _ Hkx). }
  rewrite Join_env. unfold EdgeSidecar.newline. rewrite Split_Join.
  - rewrite omap_Cut_pairs; [apply list_to_map_sortedPairs|]. eapply Forall_impl; [exact Hl|]. naive_solver.
  - intros E'%fmap_nil_inv. apply E. by rewrite <- (list_to_map_sortedPairs env), E'.
  - apply Forall_fmap. eapply Forall_impl; [exact Hl|]. intros [k x] (Hk & _ & Hx). cbn in *.
    rewrite !bytes_app. apply Forall_app_2; [done|]. by constructor.
Qed.

Lemma readArgs_ok v args :
  v !! "args" = (match args with [] => None | args => Some (Join EdgeSidecar.newline args) end) →
  Forall oneLine args → readArgs v = args.
Proof.
  intros Hv Hp. unfold readArgs. rewrite Hv. destruct args as [|a args]; [done|].
  unfold EdgeSidecar.newline. by apply Split_Join.
Qed.

(** The form says everything about a specification whose lines are lines. *)
Lemma readSidecar_sidecarValues spec : plainSpec spec → readSidecar (sidecarValues spec) = spec.
Proof.
  intros [Ha He]. destruct (specValues_lookup spec) as (H1 & H2 & H3 & H4 & H5 & H6).
  unfold readSidecar, sidecarValues, Get. rewrite !setFiles_other by done. rewrite H1, H2, H3, H4.
  rewrite (readArgs_ok _ (Args spec)); [|rewrite setFiles_other, H5 by done; by destruct (Args spec)|done].
  rewrite (readEnv_ok _ (Env spec)); [|rewrite setFiles_other by done; exact H6|done].
  rewrite (readFiles_ok _ (GeneratedFiles spec)).
  - destruct spec as [? ? [] ? ? ? ?]; reflexivity.
  - intros j. cbn [Nat.add]. apply setFiles_file, specValues_no_file.
  - apply setFiles_size, specValues_no_file.
Qed.

(** ** What a controller sends *)

Lemma hexEncode_oneLine l : oneLine (Json.hexEncode l).
Proof.
  unfold oneLine, Json.hexEncode. rewrite bytes_of_bytes. induction l as [|a l IH]; [constructor|].
  cbn [mbind list_bind]. constructor; [|constructor; [|exact IH]];
  clear IH; revert a; intros [[] [] [] [] [] [] [] []]; vm_compute; discriminate.
Qed.

Lemma oneLine_app s t : oneLine s → oneLine t → oneLine (s +:+ t).
Proof. unfold oneLine. rewrite bytes_app. apply Forall_app_2. Qed.

Lemma oneLine_const s : bool_decide (Forall (λ a, a ≠ "010"%char) (bytes s)) = true → oneLine s.
Proof. apply bool_decide_eq_true. Qed.

Lemma buildEdgeSidecarSpec_plain `{EdgeSidecar.Sha1} info tag users spec :
  EdgeSidecar.buildEdgeSidecarSpec info tag users = Ok spec → plainSpec (edgeSpec spec).
Proof.
  assert (Hpath : ∀ p f, oneLine f → oneLine p →
    oneLine ("runtime/" +:+ EdgeSidecar.edgeSidecarName p tag +:+ f)).
  { intros p f Hf Hp. apply oneLine_app; [by apply oneLine_const|]. apply oneLine_app; [|done].
    unfold EdgeSidecar.edgeSidecarName. apply oneLine_app; [done|]. apply oneLine_app; [by apply oneLine_const|].
    apply hexEncode_oneLine. }
  unfold EdgeSidecar.buildEdgeSidecarSpec. destruct info as [n|]; [|done].
  case_bool_decide; [|case_bool_decide; [|done]].
  - unfold EdgeSidecar.buildMieruSidecarSpec. destruct (Panel.Common n), users; try done. intros [= <-]. split; cbn -[EdgeSidecar.edgeSidecarName].
    + constructor; [by apply oneLine_const|constructor].
    + apply map_Forall_singleton. split_and!; [by apply oneLine_const| |].
      * apply (bool_decide_unpack _). vm_compute. exact I.
      * apply Hpath; by apply oneLine_const.
  - unfold EdgeSidecar.buildNaiveSidecarSpec. destruct (Panel.Common n), users; try done. intros [= <-]. split; cbn -[EdgeSidecar.edgeSidecarName].
    + constructor; [by apply oneLine_const|]. constructor; [by apply oneLine_const|]. constructor; [|constructor].
      apply Hpath; by apply oneLine_const.
    + apply map_Forall_empty.
Qed.

(** C35. The request that applies the sidecar of a node: one form, posted to the
    agent, that reads back as the specification built from the node. *)
Theorem sidecar_request {S} `{Transport S} `{EdgeSidecar.Sha1} (ctl : edgeControlState) (c : Client)
    (info : option Panel.NodeInfo) (tag : string) (users : list Panel.UserInfo) (spec : EdgeSidecar.EdgeSidecarSpec)
    (s : S) :
  client ctl = Some c → EdgeSidecar.buildEdgeSidecarSpec info tag users = Ok spec →
  ∃ req, method req = "POST" ∧ req_url req = baseURL c +:+ "/sidecars/upsert"
    ∧ contentType req = Some "application/x-www-form-urlencoded"
    ∧ readSidecar <$> ParseForm (req_body req) = Some (edgeSpec spec)
    ∧ UpsertSidecar ctl spec s =
      ((Do c req s).1,
       match (Do c req s).2 with
       | Err e => Err e
       | Ok resp => match decodeResponse (Some reportFields) (mkSidecarApplyReport [] [] []) resp with
                    | Err e => Err e
                    | Ok report => Ok (nodeReport report)
                    end
       end).
Proof.
  intros Hc Hb. exists (mkRequest "POST" (url c "/sidecars/upsert") (Some "application/x-www-form-urlencoded")
    (Encode (sidecarValues (edgeSpec spec)))). split_and!; try done.
  - cbn [req_body]. rewrite ParseForm_Encode. cbn [fmap option_fmap option_map]. f_equal. by eapply readSidecar_sidecarValues, buildEdgeSidecarSpec_plain.
  - unfold UpsertSidecar, Client_UpsertSidecar, postForm. rewrite Hc.
    destruct (Do c _ s) as [s' [resp|e]]; [|done]. cbn [fst snd]. by destruct (decodeResponse _ _ resp).
Qed.

(** ** Draining and giving back

    What is relied on of the agent: when it answers to draining with its counters,
    it clears them; when it accepts a record, it adds it to them, and when it does
    not, or its answer is lost, it may have added it. *)

Definition recordJSON (r : TrafficRecord) : Json.Json :=
  Json.JObject [("user", Json.JString (tr_User r)); ("upload_bytes", Json.JNumber (Itoa (tr_Upload r)));
                ("download_bytes", Json.JNumber (Itoa (tr_Download r)))].

Definition snapshotJSON (up down : Z) (l : list TrafficRecord) : Json.Json :=
  Json.JObject [("upload_bytes", Json.JNumber (Itoa up)); ("download_bytes", Json.JNumber (Itoa down));
                ("users", Json.JArray (recordJSON <$> l))].

(** Bytes in both directions by user. *)
Abbreviation Counts := (gmap string (Z * Z)).

Definition countsOf (l : list TrafficRecord) : Counts :=
  list_to_map ((λ r, (tr_User r, (tr_Upload r, tr_Download r))) <$> l).

Definition validTraffic (r : TrafficRecord) : Prop := u64 (tr_Upload r) ∧ u64 (tr_Download r).

Definition post (c : Client) (path body : string) : Request :=
  mkRequest "POST" (url c path) (Some "application/x-www-form-urlencoded") body.

(** What a record adds to the counters. *)
Definition addTraffic (r : TrafficRecord) (m : Counts) : Counts := <[tr_User r := (tr_Upload r, tr_Download r)]> m.

Definition success (resp : Response) : Prop := 200 <= StatusCode resp < 300.

Class EdgeAgent (S : Type) `{Transport S} := {
  counted : S → Counts;
  drain_law c s s' resp body : Do c (post c "/traffic/drain" "") s = (s', Ok resp) →
    success resp → resp_Body resp = Ok body →
    ∃ up down l, parsed body = Ok (snapshotJSON up down l) ∧ text body ≠ ""
      ∧ u64 up ∧ u64 down ∧ Forall validTraffic l ∧ NoDup (tr_User <$> l)
      ∧ countsOf l = counted s ∧ counted s' = ∅;
  record_law c s body v r s' answer : ParseForm body = Some v → Get "user" v = tr_User r →
    Get "upload" v = Itoa (tr_Upload r) → Get "download" v = Itoa (tr_Download r) → validTraffic r →
    counted s !! tr_User r = None → Do c (post c "/traffic" body) s = (s', answer) →
    (counted s' = counted s ∨ counted s' = addTraffic r (counted s))
    ∧ ∀ resp, answer = Ok resp → success resp → counted s' = addTraffic r (counted s)
}.

Lemma decodeRecord_recordJSON r : validTraffic r → decodeRecord (recordJSON r) = Some r.
Proof.
  intros [Hu Hd]. unfold decodeRecord, recordJSON, Json.decodeStruct. cbn -[ParseUint Itoa].
  rewrite ParseUint_Itoa by done. cbn -[ParseUint Itoa]. rewrite ParseUint_Itoa by done. by destruct r.
Qed.

Lemma decode_snapshotJSON up down l : u64 up → u64 down → Forall validTraffic l →
  Json.decodeStruct snapshotFields (snapshotJSON up down l) (mkTrafficSnapshot 0 0 []) = Ok (mkTrafficSnapshot up down l).
Proof.
  intros Hu Hd Hl. unfold snapshotJSON, Json.decodeStruct. cbn -[ParseUint Itoa mapM].
  rewrite ParseUint_Itoa by done. cbn -[ParseUint Itoa mapM]. rewrite ParseUint_Itoa by done. cbn -[mapM].
  rewrite (mapM_fmap_Forall_Some decodeRecord recordJSON) with (l := l); [done|].
  eapply Forall_impl; [exact Hl|]. intros r Hr. by apply decodeRecord_recordJSON.
Qed.

Section cycle.
Context {S : Type} `{HT : Transport S} `{!EdgeAgent S}.
Implicit Types (s : S) (c : Client).

Lemma decodeResponse_Ok {A} (fields : option (list (string * Json.Setter A))) zero resp a :
  decodeResponse fields zero resp = Ok a → success resp ∧ ∃ body, resp_Body resp = Ok body.
Proof.
  unfold decodeResponse, success. destruct (resp_Body resp) as [body|]; [|done].
  destruct (Z.ltb_spec (StatusCode resp) 200), (Z.leb_spec 300 (StatusCode resp)); try done. intros _.
  split; [lia|by exists body].
Qed.

Lemma Client_DrainTraffic_counted c s s' snapshot : Client_DrainTraffic c s = (s', Ok snapshot) →
  Forall validTraffic (tn_Users snapshot) ∧ NoDup (tr_User <$> tn_Users snapshot)
  ∧ countsOf (tn_Users snapshot) = counted s ∧ counted s' = ∅.
Proof.
  unfold Client_DrainTraffic, postForm. destruct (Do c _ s) as [s1 [resp|e]] eqn:E; [|done]. intros [= <- Hdec].
  destruct (decodeResponse_Ok _ _ _ _ Hdec) as (Hs & body & Hb).
  destruct (drain_law c s s1 resp body E Hs Hb) as (up & down & l & Hp & Ht & Hu & Hd & Hl & Hrest).
  revert Hdec. unfold decodeResponse. rewrite Hb, Hp. unfold success in Hs.
  rewrite (proj2 (Z.ltb_ge _ _)), (proj2 (Z.leb_gt _ _)) by lia. cbn [orb].
  rewrite bool_decide_eq_false_2 by done. rewrite decode_snapshotJSON by done. intros [= <-]. by split.
Qed.

Lemma Client_RecordTraffic_counted c s r s' err : validTraffic r → counted s !! tr_User r = None →
  Client_RecordTraffic c r s = (s', err) →
  (counted s' = counted s ∨ counted s' = addTraffic r (counted s))
  ∧ (err = None → counted s' = addTraffic r (counted s)).
Proof.
  intros Hr Hn. unfold Client_RecordTraffic, postForm.
  destruct (Do c _ s) as [s1 answer] eqn:E.
  destruct (record_law c s (Encode (recordValues r)) (recordValues r) r s1 answer) as [Hor Hok];
    [apply ParseForm_Encode|unfold Get, recordValues; by look..|done|done|exact E|].
  destruct answer as [resp|e]; cbn; [|by intros [= <- <-]]. intros [= <- <-]. split; [done|].
  destruct (decodeResponse _ _ _) eqn:Hd; [|done]. intros _. apply (Hok resp eq_refl). by eapply decodeResponse_Ok.
Qed.

(** The records of a node in the agent's terms. *)
Lemma edgeRecord_nodeRecord r : edgeRecord (nodeRecord r) = r.
Proof. by destruct r. Qed.

Lemma nodeRecord_edgeRecord r : nodeRecord (edgeRecord r) = r.
Proof. by destruct r. Qed.

(** The agent, which had counted [m], took back the records [l]; of the ones that are
    not given back after a failure it may have added the first. *)
Definition tookBack (m : Counts) (l lost : list EdgeTraffic.EdgeTrafficRecord) (m' : Counts) : Prop :=
  m' = countsOf (edgeRecord <$> l) ∪ m ∨ ∃ r k, lost = r :: k ∧ m' = countsOf (edgeRecord <$> (l ++ [r])) ∪ m.

Lemma tookBack_cons r l lost m m' :
  EdgeTraffic.er_User r ∉ EdgeTraffic.er_User <$> (l ++ lost) →
  tookBack (addTraffic (edgeRecord r) m) l lost m' → tookBack m (r :: l) lost m'.
Proof.
  assert (Hstep : ∀ l', EdgeTraffic.er_User r ∉ EdgeTraffic.er_User <$> l' →
    countsOf (edgeRecord <$> l') ∪ addTraffic (edgeRecord r) m = countsOf (edgeRecord <$> (r :: l')) ∪ m).
  { intros l' Hr. unfold countsOf, addTraffic. cbn [fmap list_fmap list_to_map foldr].
    rewrite <- insert_union_r; [by rewrite insert_union_l|]. apply not_elem_of_list_to_map_1. by rewrite <- !list_fmap_compose. }
  intros Hr [->|(x & k & -> & ->)].
  - left. apply Hstep. rewrite fmap_app in Hr. set_solver.
  - right. exists x, k. split; [done|]. rewrite Hstep; [done|]. rewrite !fmap_app in *. set_solver.
Qed.

Lemma restoreEdgeTraffic_counted ctl c l s s' back :
  client ctl = Some c →
  Forall (λ r, EdgeTraffic.emptyRecord r = false ∧ EdgeTrafficProps.validRecord r) l →
  NoDup (EdgeTraffic.er_User <$> l) → Forall (λ r, counted s !! EdgeTraffic.er_User r = None) l →
  restoreEdgeTraffic ctl l s = (s', back) →
  ∃ lost, l = back ++ lost ∧ tookBack (counted s) back lost (counted s').
Proof.
  intros Hc. revert s s' back. induction l as [|r l IH]; intros s s' back Hl Hnd Hn.
  { intros [= <- <-]. exists []. split; [done|]. left. unfold countsOf. cbn. by rewrite map_empty_union. }
  apply Forall_cons in Hl as [[He Hr] Hl]. cbn in Hnd. apply NoDup_cons in Hnd as [Hru Hnd].
  apply Forall_cons in Hn as [Hnr Hn]. cbn [restoreEdgeTraffic]. rewrite He. unfold RecordTraffic. rewrite Hc.
  destruct (Client_RecordTraffic c (edgeRecord r) s) as [s1 err] eqn:E1.
  destruct (Client_RecordTraffic_counted c s (edgeRecord r) s1 err Hr Hnr E1) as [Hor Hok]. destruct err as [e|].
  - intros [= <- <-]. exists (r :: l). split; [done|]. destruct Hor as [->| ->].
    + left. unfold countsOf. cbn. by rewrite map_empty_union.
    + right. exists r, l. split; [done|]. unfold countsOf, addTraffic. cbn. by rewrite insert_empty, <- insert_union_singleton_l.
  - specialize (Hok eq_refl). destruct (restoreEdgeTraffic ctl l s1) as [s2 b] eqn:E. intros [= <- <-].
    destruct (IH s1 s2 b Hl Hnd) as (lost & -> & Htook); [|exact E|].
    { rewrite Hok. apply Forall_forall. intros x Hx. unfold addTraffic. rewrite lookup_insert_ne.
      - rewrite Forall_forall in Hn. by apply Hn.
      - cbn. intros Ex. apply Hru. rewrite Ex. by apply list_elem_of_fmap_2. }
    exists lost. split; [done|]. rewrite Hok in Htook. by apply tookBack_cons.
Qed.

(** The users with bytes. *)
Definition withBytes (m : Counts) : Counts := filter (λ e, e.1 ≠ "" ∧ e.2 ≠ (0, 0)) m.

Lemma lookup_countsOf l u x : NoDup (tr_User <$> l) →
  countsOf l !! u = Some x ↔ ∃ r, r ∈ l ∧ tr_User r = u ∧ (tr_Upload r, tr_Download r) = x.
Proof.
  intros Hnd. unfold countsOf. rewrite <- elem_of_list_to_map by by rewrite <- list_fmap_compose.
  rewrite list_elem_of_fmap. split; [intros (r & [= -> ->] & Hr)|intros (r & Hr & <- & <-)]; eauto.
Qed.

Lemma countsOf_perm l k : NoDup (tr_User <$> l) → l ≡ₚ k → countsOf l = countsOf k.
Proof.
  intros Hnd Hp. apply list_to_map_proper; [by rewrite <- list_fmap_compose|]. by rewrite Hp.
Qed.

Lemma countsOf_app l k : countsOf (l ++ k) = countsOf l ∪ countsOf k.
Proof. unfold countsOf. by rewrite fmap_app, list_to_map_app. Qed.

Lemma edgeUsers (l : list EdgeTraffic.EdgeTrafficRecord) : tr_User <$> (edgeRecord <$> l) = EdgeTraffic.er_User <$> l.
Proof. by rewrite <- list_fmap_compose. Qed.

Lemma NoDup_users_filter (P : EdgeTraffic.EdgeTrafficRecord → Prop) `{∀ r, Decision (P r)} l :
  NoDup (EdgeTraffic.er_User <$> l) → NoDup (EdgeTraffic.er_User <$> filter P l).
Proof. intros H0. eapply sublist_NoDup; [exact H0|]. apply fmap_sublist, sublist_filter. Qed.

Lemma countsOf_nonempty l : NoDup (EdgeTraffic.er_User <$> l) →
  countsOf (edgeRecord <$> filter (λ r, EdgeTraffic.emptyRecord r = false) l) = withBytes (countsOf (edgeRecord <$> l)).
Proof.
  intros Hnd. apply map_eq. intros u. apply option_eq. intros x. unfold withBytes. rewrite map_lookup_filter_Some.
  rewrite !lookup_countsOf by (rewrite edgeUsers; by try apply NoDup_users_filter).
  assert (Hemp : ∀ r, EdgeTraffic.emptyRecord r = false
    ↔ EdgeTraffic.er_User r ≠ "" ∧ (EdgeTraffic.UploadBytes r, EdgeTraffic.DownloadBytes r) ≠ (0, 0)).
  { intros r. unfold EdgeTraffic.emptyRecord. rewrite orb_false_iff, bool_decide_eq_false, andb_false_iff, !Z.eqb_neq.
    split; [intros [? H]; split; [done|]; intros [= H1 H2]; destruct H; congruence|].
    intros [? H]. split; [done|]. destruct (decide (EdgeTraffic.UploadBytes r = 0)); [right|by left].
    intros H'. apply H. congruence. }
  split.
  - intros (r & (r' & -> & [Hr Hin]%list_elem_of_filter)%list_elem_of_fmap & <- & <-). split.
    + exists (edgeRecord r'). split; [by apply list_elem_of_fmap_2|done].
    + by apply Hemp.
  - intros [(r & (r' & -> & Hin)%list_elem_of_fmap & <- & <-) Hr].
    exists (edgeRecord r'). split; [|done]. apply list_elem_of_fmap_2, list_elem_of_filter. split; [by apply Hemp|done].
Qed.

(** The records of a drain, split into the ones that are reported and the others. *)
Lemma drained_split (RO : RangeOrder Z) tag userList mintraffic records d :
  Forall EdgeTrafficProps.validRecord records → NoDup (EdgeTraffic.er_User <$> records) →
  EdgeTraffic.drainEdgeUserTraffic (Some (Ok records)) tag userList mintraffic = Ok (Some d) →
  let all := EdgeTraffic.reportRecords d ++ EdgeTraffic.restoreRecords d in
  Forall (λ r, EdgeTraffic.emptyRecord r = false ∧ EdgeTrafficProps.validRecord r) all
  ∧ NoDup (EdgeTraffic.er_User <$> all)
  ∧ countsOf (edgeRecord <$> all) = withBytes (countsOf (edgeRecord <$> records)).
Proof.
  intros Hv Hnd Hd.
  assert (Hd' : d = EdgeTraffic.drainRecords tag userList mintraffic records).
  { unfold EdgeTraffic.drainEdgeUserTraffic in Hd. destruct records; [done|]. by injection Hd as <-. }
  pose proof (EdgeTrafficProps.drainRecords_perm RO tag userList mintraffic records Hv) as Hp. cbn zeta in *.
  rewrite <- Hd' in Hp. assert (Hnd' : NoDup (EdgeTraffic.er_User <$> (EdgeTraffic.reportRecords d ++ EdgeTraffic.restoreRecords d)))
    by (rewrite Hp; by apply NoDup_users_filter). split_and!; [|done|].
  - rewrite Hp. apply Forall_forall. intros r [He Hr]%list_elem_of_filter. rewrite Forall_forall in Hv. auto.
  - rewrite <- countsOf_nonempty by done. apply countsOf_perm; [by rewrite edgeUsers|by rewrite Hp].
Qed.

Lemma countsOf_disjoint l k : NoDup (EdgeTraffic.er_User <$> (l ++ k)) →
  countsOf (edgeRecord <$> l) ##ₘ countsOf (edgeRecord <$> k).
Proof.
  intros Hnd. rewrite fmap_app in Hnd. apply NoDup_app in Hnd as (Hn1 & Hd & Hn2). apply map_disjoint_spec. intros u x y.
  rewrite !lookup_countsOf by by rewrite edgeUsers.
  intros (r & (r' & -> & Hr)%list_elem_of_fmap & <- & _) (q & (q' & -> & Hq)%list_elem_of_fmap & Eq & _).
  apply (Hd (EdgeTraffic.er_User r')); [by apply list_elem_of_fmap_2|]. cbn in Eq. rewrite <- Eq. by apply list_elem_of_fmap_2.
Qed.

(** The agent has no counter of the users of [l] after it took back some of [k]. *)
Lemma tookBack_fresh l k back lost m :
  NoDup (EdgeTraffic.er_User <$> (l ++ k)) → k = back ++ lost → tookBack ∅ back lost m →
  Forall (λ r, m !! EdgeTraffic.er_User r = None) l.
Proof.
  intros Hnd -> Htook. rewrite fmap_app in Hnd. apply NoDup_app in Hnd as (_ & Hd & _).
  apply Forall_forall. intros r Hr%(list_elem_of_fmap_2 EdgeTraffic.er_User). apply Hd in Hr.
  assert (Hno : ∀ q, q ⊆ back ++ lost → (countsOf (edgeRecord <$> q) ∪ ∅) !! EdgeTraffic.er_User r = None).
  { intros q Hq. rewrite map_union_empty. apply not_elem_of_list_to_map_1. rewrite <- !list_fmap_compose.
    intros (x & Ex & Hx)%list_elem_of_fmap. cbn in Ex. apply Hr. rewrite Ex. apply list_elem_of_fmap_2, Hq, Hx. }
  destruct Htook as [->|(x & t & -> & ->)]; apply Hno; set_solver.
Qed.

End cycle.

(** ** Runs *)

Module Examples.

(** An agent that keeps counters by user. *)
Definition validCounts (s : Counts) : Counts := filter (λ e, u64 e.2.1 ∧ u64 e.2.2) s.

Definition recordsOf (s : Counts) : list TrafficRecord :=
  (λ e : string * (Z * Z), mkTrafficRecord e.1 e.2.1 e.2.2) <$> map_to_list (validCounts s).

#[local] Instance exampleTransport : Transport Counts := λ c req s,
  if bool_decide (req_url req = url c "/traffic/drain")
  then (∅, Ok (mkResponse 200 (Ok (mkBody "{}" (Ok (snapshotJSON 0 0 (recordsOf s)))))))
  else if bool_decide (req_url req = url c "/traffic")
  then match ParseForm (req_body req) with
       | None => (s, Ok (mkResponse 400 (Ok (mkBody "" (Err Json.typeError)))))
       | Some v =>
           if bool_decide (Get "user" v = "tag|full") then (s, Ok (mkResponse 507 (Ok (mkBody "" (Err Json.typeError)))))
           else
           let '(up, down) := default (0, 0) (validCounts s !! Get "user" v) in
           (<[Get "user" v := (up + ParseUintValue (Get "upload" v), down + ParseUintValue (Get "download" v))]> s,
            Ok (mkResponse 200 (Ok (mkBody "" (Err Json.typeError)))))
       end
  else (s, Ok (mkResponse 200 (Ok (mkBody "{}" (Ok (Json.JObject [("started", Json.JArray [Json.JString "mieru"])])))))).

Lemma ParseUintValue_Itoa n : u64 n → ParseUintValue (Itoa n) = n.
Proof.
  intros Hn. pose proof (ParseUint_Itoa n Hn) as H. unfold ParseUint, ParseUintValue in *.
  destruct (NilZero.uint_of_string _) as [d|]; [|done]. case_match eqn:E; [|done]. apply Z.leb_le in E.
  injection H as <-. lia.
Qed.

Lemma countsOf_recordsOf s : countsOf (recordsOf s) = validCounts s.
Proof.
  unfold countsOf, recordsOf. rewrite <- list_fmap_compose.
  rewrite (list_fmap_ext _ id) by (by intros i [u [a b]] _). rewrite list_fmap_id. apply list_to_map_to_list.
Qed.

Lemma recordsOf_NoDup s : NoDup (tr_User <$> recordsOf s).
Proof. unfold recordsOf. rewrite <- list_fmap_compose. apply NoDup_fst_map_to_list. Qed.

Lemma recordsOf_valid s : Forall validTraffic (recordsOf s).
Proof.
  unfold recordsOf. apply Forall_fmap, Forall_forall. intros [u [a b]] H%elem_of_map_to_list.
  unfold validCounts in H. by apply map_lookup_filter_Some in H as [_ ?].
Qed.

Lemma url_drain_traffic c : url c "/traffic" ≠ url c "/traffic/drain".
Proof. intros E. by apply app_string_inj_l in E. Qed.

#[local, refine] Instance exampleAgent : EdgeAgent Counts := { counted := validCounts }.
Proof.
  - intros c s s' resp body. unfold Do, exampleTransport, post. cbn [req_url]. rewrite bool_decide_eq_true_2 by done.
    intros [= <- <-] _ [= <-]. exists 0, 0, (recordsOf s).
    split_and!; [done..|apply recordsOf_valid|apply recordsOf_NoDup|apply countsOf_recordsOf|apply map_filter_empty].
  - intros c s body v r s' answer Hv Hu Hup Hdown [Vu Vd] Hn. unfold Do, exampleTransport, post. cbn [req_url req_body].
    rewrite bool_decide_eq_false_2 by apply url_drain_traffic. rewrite bool_decide_eq_true_2 by done.
    rewrite Hv, Hu, Hn, Hup, Hdown, !ParseUintValue_Itoa by done. case_bool_decide; intros [= <- <-].
    + split; [by left|]. intros resp [= <-] []. cbn in *. lia.
    + assert (Hadd : validCounts (<[tr_User r := (tr_Upload r, tr_Download r)]> s) = addTraffic r (validCounts s))
        by (unfold validCounts; by rewrite map_filter_insert_True).
      split; [by right|done].
Defined.

Definition exampleClient : Client := NewClient "http://127.0.0.1:17990/" 0.

Definition exampleControl : edgeControlState := mkControl (Some exampleClient).

Definition exampleCounts : Counts := {["tag|u1" := (5, 7); "tag|u2" := (1, 0); "" := (3, 3)]}.

Definition exampleUsers : list Panel.UserInfo := [Panel.mkUserInfo 1 "u1" 0 0].

(** Draining [counts], giving back, and giving back what was to be reported. *)
Definition cycle (counts : Counts)
    : Counts * list EdgeTraffic.EdgeTrafficRecord * (Counts * list EdgeTraffic.EdgeTrafficRecord) :=
  let '(s1, r) := DrainTraffic exampleControl counts in
  let records := match r with Ok records => records | Err _ => [] end in
  let d := @EdgeTraffic.drainRecords (canonical_order Z) "tag" exampleUsers 0 records in
  let '(s2, back) := restoreEdgeTraffic exampleControl (EdgeTraffic.restoreRecords d) s1 in
  (s2, back, restoreEdgeTraffic exampleControl (EdgeTraffic.reportRecords d) s2).

(** The agent takes everything back but the entry without a name; it refuses one
    user, and what comes after it is lost. *)
Example cycle_runs :
  (cycle exampleCounts).2 = ({["tag|u1" := (5, 7); "tag|u2" := (1, 0)]} : Counts, [EdgeTraffic.mkEdgeRecord "tag|u1" 5 7])
  ∧ (cycle {["tag|full" := (1, 1)]}).1 = (∅ : Counts, []).
Proof. split; apply (bool_decide_unpack _); vm_compute; exact I. Qed.


#[local] Instance exampleSha1 : EdgeSidecar.Sha1 := { EdgeSidecar.sha1Sum := bytes }.

Definition exampleInfo : Panel.NodeInfo := Panel.mkNodeInfo 1 "naive" 0 0 0 "t" (Some Panel.zeroCommon).

Lemma sidecar_request_witness : ∃ spec req,
  @EdgeSidecar.buildEdgeSidecarSpec exampleSha1 (Some exampleInfo) "tag" exampleUsers = Ok spec
  ∧ req_url req = "http://127.0.0.1:17990/sidecars/upsert"
  ∧ readSidecar <$> ParseForm (req_body req) = Some (edgeSpec spec)
  ∧ (UpsertSidecar exampleControl spec exampleCounts).2 = Ok (EdgeSidecar.mkApplyReport ["mieru"] [] []).
Proof.
  destruct (@EdgeSidecar.buildEdgeSidecarSpec exampleSha1 (Some exampleInfo) "tag" exampleUsers) as [spec|e] eqn:E;
    [|vm_compute in E; discriminate E].
  destruct (@sidecar_request Counts exampleTransport exampleSha1 exampleControl exampleClient (Some exampleInfo) "tag"
    exampleUsers spec exampleCounts eq_refl E) as (req & _ & Hu & _ & Hf & Hr).
  exists spec, req. split; [reflexivity|]. split; [exact Hu|]. split; [exact Hf|].
  rewrite Hr. unfold Do, exampleTransport. rewrite Hu. vm_compute. reflexivity.
Defined.
End Examples.
End EdgeClientProps.
