(* ===== verification/SystemSampler.v ===== *)
(** * Probing the machine (cmd/machine_system.go)

    What the operating system answers at a moment is a [Probe]: the files under
    /proc, the output of df, the interfaces with their addresses. Percentages
    and rates are exact rationals here; the program rounds them to float64.
    The uptime is taken as read, its text is a float. *)

From Stdlib Require Import Ascii QArith.
From S2P Require Import Prelude GoStrings GoText.

Module SystemSampler.
Import GoStrings GoText.
#[local] Open Scope Z_scope.

(** ** Addresses

    An address by its value, and a text that is none. *)
Inductive Addr :=
| V4 (ip : Z)
| V6 (ip : Z)
| NotAnIP (text : string).

#[global] Instance Addr_eq_dec : EqDecision Addr.
Proof. solve_decision. Defined.

(** [netip.Addr.IsGlobalUnicast] *)
Definition IsGlobalUnicast (a : Addr) : bool :=
  match a with
  | V4 ip => negb ((ip =? 0) || (ip =? 2 ^ 32 - 1) || (Z.shiftr ip 24 =? 127) || (Z.shiftr ip 28 =? 14)
                   || (Z.shiftr ip 16 =? 169 * 256 + 254))
  | V6 ip => negb ((ip =? 0) || (ip =? 1) || (Z.shiftr ip 120 =? 255) || (Z.shiftr ip 118 =? 254 * 4 + 2))
  | NotAnIP _ => false
  end.

(** [netip.Addr.IsPrivate] *)
Definition IsPrivate (a : Addr) : bool :=
  match a with
  | V4 ip => (Z.shiftr ip 24 =? 10) || (Z.shiftr ip 20 =? 172 * 16 + 1) || (Z.shiftr ip 16 =? 192 * 256 + 168)
  | V6 ip => Z.shiftr ip 121 =? 126
  | NotAnIP _ => false
  end.

Definition Is4 (a : Addr) : bool := match a with V4 _ => true | _ => false end.

Definition Is6 (a : Addr) : bool := match a with V6 _ => true | _ => false end.

(** ** Data *)

(** An address that is neither an [IPNet] nor an [IPAddr] is [None]. *)
Record Interface := mkInterface { if_Up : bool; if_Loopback : bool; Addrs : option (list (option Addr)) }.

Record Probe := mkProbe {
  Now : Z;                                  (* in nanoseconds *)
  ReadFile : string → option string;
  Df : option string;
  Hostname : string;
  Interfaces : option (list Interface);
  Uptime : Z
}.

Record machineCPUSample := mkCPUSample { total : Z; idle : Z }.

Record machineNetworkSample := mkNetworkSample { at_ : Z; rxBytes : Z; txBytes : Z }.

Record IPStatus := mkIPStatus { ip_hostname : string; public_ipv4 : option Addr; public_ipv6 : option Addr; local : list Addr }.

Record Usage := mkUsage { us_total : Z; us_used : Z }.

Record NetStatus := mkNetStatus { rx_bytes : Z; tx_bytes : Z; rx_rate : Q; tx_rate : Q }.

(** [cpu] and [network] are [None] before the first sample, [hostname] until
    it is set. *)
Record machineSystemSampler := mkSampler {
  cpu : option machineCPUSample;
  network : option machineNetworkSample;
  cachedIP : option (IPStatus * Z);
  hostname : option string
}.

Record SystemStatus := mkSystemStatus {
  cpuPercent : Q;
  mem : Usage;
  swap : Usage;
  disk : Usage;
  net : NetStatus;
  ip : IPStatus;
  sys_hostname : string;
  collected_at : Z;
  uptime : Z
}.

Definition newMachineSystemSampler : machineSystemSampler := mkSampler None None None None.

(** ** Reading files *)

(** The tokens of a [bufio.Scanner]: lines without their end; a line that does
    not fit its buffer ends the scan. *)
Definition stripCR (l : string) : string := TrimSuffix l (String "013"%char EmptyString).

Fixpoint fitting (ls : list string) : list string :=
  match ls with
  | [] => []
  | l :: ls => if Z.of_nat (String.length l) <=? 65535 then l :: fitting ls else []
  end.

Definition dropLastEmpty (ls : list string) : list string :=
  match last ls with Some "" => removelast ls | _ => ls end.

Definition scanLines (data : string) : list string :=
  stripCR <$> fitting (dropLastEmpty (Split "010"%char data)).

Definition sum64 (l : list Z) : Z := foldl (λ acc v, wrapu64 (acc + v)) 0 l.

Definition readMachineCPUSample (p : Probe) : option machineCPUSample :=
  match ReadFile p "/proc/stat" with
  | None => None
  | Some data =>
      match scanLines data with
      | [] => None
      | line :: _ =>
          match Fields line with
          | "cpu" :: fields =>
              if Nat.ltb (length fields) 4 then None
              else match mapM ParseUint fields with
                   | None => None
                   | Some values =>
                       let idle := default 0 (values !! 3%nat) in
                       let idle := match values !! 4%nat with Some v => wrapu64 (idle + v) | None => idle end in
                       Some (mkCPUSample (sum64 values) idle)
                   end
          | _ => None
          end
      end
  end.

Definition meminfoLine (out : gmap string Z) (line : string) : gmap string Z :=
  match Fields line with
  | key :: value :: _ =>
      match ParseUint value with
      | Some v => <[TrimSuffix key ":" := v]> out
      | None => out
      end
  | _ => out
  end.

Definition readMachineMeminfo (p : Probe) : gmap string Z :=
  match ReadFile p "/proc/meminfo" with
  | None => ∅
  | Some data => foldl meminfoLine ∅ (scanLines data)
  end.

Definition saturatingSub (total free : Z) : Z := if total <? free then 0 else wrapu64 (total - free).

Definition readMachineMemoryStatus (p : Probe) : Usage * Usage :=
  let values := readMachineMeminfo p in
  let get key := default 0 (values !! key) in
  let kib v := wrapu64 (v * 1024) in
  let memTotal := kib (get "MemTotal") in
  let memAvailable := kib (get "MemAvailable") in
  let memAvailable :=
    if memAvailable =? 0 then kib (wrapu64 (wrapu64 (get "MemFree" + get "Buffers") + get "Cached")) else memAvailable in
  let swapTotal := kib (get "SwapTotal") in
  let swapFree := kib (get "SwapFree") in
  (mkUsage memTotal (saturatingSub memTotal memAvailable), mkUsage swapTotal (saturatingSub swapTotal swapFree)).

Definition readMachineDiskStatus (p : Probe) : Usage :=
  match Df p with
  | None => mkUsage 0 0
  | Some output =>
      match Split "010"%char (TrimSpace output) with
      | _ :: line :: _ =>
          match Fields line with
          | _ :: total :: used :: _ => mkUsage (ParseUintValue total) (ParseUintValue used)
          | _ => mkUsage 0 0
          end
      | _ => mkUsage 0 0
      end
  end.

(** The bytes of the interface of a line; [None] for other lines. *)
Definition netLine (line : string) : option (Z * Z) :=
  match Cut ":"%char line with
  | None => None
  | Some (name, payload) =>
      let iface := TrimSpace name in
      if bool_decide (iface = "" ∨ iface = "lo") then None
      else
        let fields := Fields payload in
        if Nat.ltb (length fields) 16 then None
        else match fields !! 0%nat ≫= ParseUint, fields !! 8%nat ≫= ParseUint with
             | Some rx, Some tx => Some (rx, tx)
             | _, _ => None
             end
  end.

Definition readMachineNetworkBytes (p : Probe) : Z * Z :=
  match ReadFile p "/proc/net/dev" with
  | None => (0, 0)
  | Some data =>
      foldl (λ acc line, match netLine line with
                         | Some (rx, tx) => (wrapu64 (acc.1 + rx), wrapu64 (acc.2 + tx))
                         | None => acc
                         end) (0, 0) (scanLines data)
  end.

Definition ipStep (s : IPStatus) (addr : option Addr) : IPStatus :=
  match addr with
  | None | Some (NotAnIP "") => s
  | Some a =>
      let s := mkIPStatus (ip_hostname s) (public_ipv4 s) (public_ipv6 s) (local s ++ [a]) in
      if negb (IsGlobalUnicast a) || IsPrivate a then s
      else
        let first (b : bool) (old : option Addr) := if b && bool_decide (old = None) then Some a else old in
        mkIPStatus (ip_hostname s) (first (Is4 a) (public_ipv4 s)) (first (Is6 a) (public_ipv6 s)) (local s)
  end.

Definition readMachineIPStatus (p : Probe) (hostname : string) : IPStatus :=
  let usable i := if_Up i && negb (if_Loopback i) in
  let addrs := mjoin ((λ i, if usable i then default [] (Addrs i) else []) <$> default [] (Interfaces p)) in
  foldl ipStep (mkIPStatus hostname None None []) addrs.

(** ** The sampler *)

Definition withCPU (c : machineCPUSample) (s : machineSystemSampler) : machineSystemSampler :=
  mkSampler (Some c) (network s) (cachedIP s) (hostname s).

Definition sampleCPUPercent (p : Probe) (s : machineSystemSampler) : machineSystemSampler * Q :=
  match readMachineCPUSample p with
  | None => (s, 0%Q)
  | Some current =>
      match cpu s with
      | None => (withCPU current s, 0%Q)
      | Some old =>
          let totalDelta := wrapu64 (total current - total old) in
          let idleDelta := wrapu64 (idle current - idle old) in
          let s := withCPU current s in
          if (totalDelta =? 0) || (totalDelta <? idleDelta) then (s, 0%Q)
          else (s, (inject_Z (wrapu64 (totalDelta - idleDelta)) * 100 / inject_Z totalDelta)%Q)
      end
  end.

Definition secondsOf (ns : Z) : Q := (inject_Z ns / inject_Z 1000000000)%Q.

Definition rate (old new : Z) (elapsed : Q) : Q :=
  if old <=? new then (inject_Z (wrapu64 (new - old)) / elapsed)%Q else 0%Q.

Definition sampleNetworkStatus (p : Probe) (s : machineSystemSampler) : machineSystemSampler * NetStatus :=
  let '(rx, tx) := readMachineNetworkBytes p in
  let current := mkNetworkSample (Now p) rx tx in
  let '(rxRate, txRate) :=
    match network s with
    | None => (0%Q, 0%Q)
    | Some old =>
        let elapsed := Now p - at_ old in
        if 0 <? elapsed
        then (rate (rxBytes old) rx (secondsOf elapsed), rate (txBytes old) tx (secondsOf elapsed))
        else (0%Q, 0%Q)
    end in
  (mkSampler (cpu s) (Some current) (cachedIP s) (hostname s), mkNetStatus rx tx rxRate txRate).

Definition machineHostname (p : Probe) (s : machineSystemSampler) : machineSystemSampler * string :=
  match hostname s with
  | Some h => (s, h)
  | None => (mkSampler (cpu s) (network s) (cachedIP s) (Some (Hostname p)), Hostname p)
  end.

Definition tenMinutes : Z := 600000000000.

Definition sampleIPStatus (p : Probe) (s : machineSystemSampler) : machineSystemSampler * IPStatus :=
  let probe :=
    let '(s, h) := machineHostname p s in
    let status := readMachineIPStatus p h in
    (mkSampler (cpu s) (network s) (Some (status, Now p)) (hostname s), status) in
  match cachedIP s with
  | Some (status, at_) => if Now p - at_ <? tenMinutes then (s, status) else probe
  | None => probe
  end.

Definition Snapshot (p : Probe) (s : machineSystemSampler) : machineSystemSampler * SystemStatus :=
  let '(s, cpuPercent) := sampleCPUPercent p s in
  let '(memStatus, swapStatus) := readMachineMemoryStatus p in
  let diskStatus := readMachineDiskStatus p in
  let '(s, networkStatus) := sampleNetworkStatus p s in
  let '(s, ipStatus) := sampleIPStatus p s in
  let '(s, hostname) := machineHostname p s in
  (s, mkSystemStatus cpuPercent memStatus swapStatus diskStatus networkStatus ipStatus hostname
        (Now p / 1000000000) (Uptime p)).

(** The snapshots of a reporter, one after the other. *)
Fixpoint snapshots (ps : list Probe) (s : machineSystemSampler) : list SystemStatus :=
  match ps with
  | [] => []
  | p :: ps => let '(s, status) := Snapshot p s in status :: snapshots ps s
  end.
End SystemSampler.
