(* ===== verification/SystemSamplerProps.v ===== *)
(** * What the probes of the machine promise

    Every snapshot is within its bounds, whatever the system answers
    ([snapshots_sane]); the percentage of the processor is the exact share of
    the time in between, also when a counter wraps ([sampleCPUPercent_exact]);
    the addresses are those of a probe that is at most ten minutes old
    ([snapshots_ip]). *)

From Stdlib Require Import Ascii QArith.
From S2P Require Import Prelude GoStrings GoText SystemSampler.

Module SystemSamplerProps.
Import GoStrings GoText SystemSampler.
#[local] Open Scope Z_scope.

(** ** Quotients *)

Lemma wrapu64_range z : 0 <= wrapu64 z < 2 ^ 64.
Proof. unfold wrapu64. apply Z.mod_pos_bound. lia. Qed.

Lemma wrapu64_id z : 0 <= z < 2 ^ 64 → wrapu64 z = z.
Proof. apply Z.mod_small. Qed.

Lemma inject_pos z : 0 < z → (0 < inject_Z z)%Q.
Proof. intros H. change 0%Q with (inject_Z 0). by rewrite <- Zlt_Qlt. Qed.

Lemma Qdiv_bounds a b : 0 <= a <= b → 0 < b → (0 <= inject_Z a * 100 / inject_Z b <= 100)%Q.
Proof.
  intros Ha Hb. apply inject_pos in Hb as Hq. split.
  - apply Qle_shift_div_l; [done|]. change 100%Q with (inject_Z 100). rewrite <- inject_Z_mult, Qmult_0_l.
    change 0%Q with (inject_Z 0). rewrite <- Zle_Qle. lia.
  - apply Qle_shift_div_r; [done|]. change 100%Q with (inject_Z 100). rewrite <- !inject_Z_mult, <- Zle_Qle. lia.
Qed.

Lemma Qdiv_nonneg a q : 0 <= a → (0 < q)%Q → (0 <= inject_Z a / q)%Q.
Proof.
  intros Ha Hq. apply Qle_shift_div_l; [done|]. rewrite Qmult_0_l. change 0%Q with (inject_Z 0). by rewrite <- Zle_Qle.
Qed.

(** ** Bounds *)

Definition within (u : Usage) : Prop := 0 <= us_used u <= us_total u.

Definition sane (st : SystemStatus) : Prop :=
  (0 <= cpuPercent st <= 100)%Q ∧ within (mem st) ∧ within (swap st)
  ∧ (0 <= rx_rate (net st))%Q ∧ (0 <= tx_rate (net st))%Q
  ∧ u64 (rx_bytes (net st)) ∧ u64 (tx_bytes (net st)).

Lemma sampleCPUPercent_bounds p s : (0 <= (sampleCPUPercent p s).2 <= 100)%Q.
Proof.
  unfold sampleCPUPercent. destruct (readMachineCPUSample p) as [c|]; [|by split]. destruct (cpu s) as [o|]; [|by split].
  pose proof (wrapu64_range (total c - total o)). pose proof (wrapu64_range (idle c - idle o)).
  set (t := wrapu64 _) in *. set (i := wrapu64 (idle c - _)) in *.
  destruct (Z.eqb_spec t 0); [by split|]. destruct (Z.ltb_spec t i); [by split|]. cbn [orb snd].
  apply Qdiv_bounds; [|lia]. unfold wrapu64. rewrite Z.mod_small by lia. lia.
Qed.

Lemma saturatingSub_within t f : u64 t → 0 <= f → within (mkUsage t (saturatingSub t f)).
Proof.
  unfold u64, within, saturatingSub. intros Ht Hf. cbn. destruct (Z.ltb_spec t f); [lia|].
  unfold wrapu64. rewrite Z.mod_small; lia.
Qed.

Lemma readMachineMemoryStatus_within p : within (readMachineMemoryStatus p).1 ∧ within (readMachineMemoryStatus p).2.
Proof.
  unfold readMachineMemoryStatus. cbn [fst snd].
  split; apply saturatingSub_within; try apply wrapu64_range. case_match; apply wrapu64_range.
Qed.

Lemma rate_nonneg old new elapsed : (0 < elapsed)%Q → (0 <= rate old new elapsed)%Q.
Proof. intros H. unfold rate. case_match; [|done]. apply Qdiv_nonneg; [apply wrapu64_range|done]. Qed.

Lemma secondsOf_pos ns : 0 < ns → (0 < secondsOf ns)%Q.
Proof. intros H. unfold secondsOf. apply Qlt_shift_div_l; [done|]. rewrite Qmult_0_l. by apply inject_pos. Qed.

Lemma readMachineNetworkBytes_u64 p : u64 (readMachineNetworkBytes p).1 ∧ u64 (readMachineNetworkBytes p).2.
Proof.
  unfold readMachineNetworkBytes. destruct (ReadFile p _) as [data|]; [|by split].
  apply (foldl_invariant (λ acc : Z * Z, u64 acc.1 ∧ u64 acc.2)); [by split|].
  intros [a b] line _ [Ha Hb]. destruct (netLine line) as [[rx tx]|]; [|done]. split; apply wrapu64_range.
Qed.

Lemma sampleNetworkStatus_sane p s : let st := (sampleNetworkStatus p s).2 in
  (0 <= rx_rate st)%Q ∧ (0 <= tx_rate st)%Q ∧ u64 (rx_bytes st) ∧ u64 (tx_bytes st).
Proof.
  pose proof (readMachineNetworkBytes_u64 p) as [Hr Ht]. unfold sampleNetworkStatus.
  destruct (readMachineNetworkBytes p) as [rx tx]. destruct (network s) as [o|]; [|by split_and!].
  destruct (Z.ltb_spec 0 (Now p - at_ o)); [|by split_and!]. cbn.
  split_and!; [by apply rate_nonneg, secondsOf_pos|by apply rate_nonneg, secondsOf_pos|done|done].
Qed.

Lemma Snapshot_sane p s : sane (Snapshot p s).2.
Proof.
  unfold Snapshot. pose proof (sampleCPUPercent_bounds p s) as Hc. destruct (sampleCPUPercent p s) as [s1 c].
  pose proof (readMachineMemoryStatus_within p) as [Hm Hw]. destruct (readMachineMemoryStatus p) as [m w].
  pose proof (sampleNetworkStatus_sane p s1) as Hn. destruct (sampleNetworkStatus p s1) as [s2 n].
  destruct (sampleIPStatus p s2) as [s3 i]. destruct (machineHostname p s3) as [s4 h]. cbn in *. unfold sane. cbn. tauto.
Qed.

(** Whatever the system answers, and however its counters jump: percentages are
    between 0 and 100, no more memory or swap is used than there is, rates are
    not negative, totals are 64-bit counters. *)
Theorem snapshots_sane (ps : list Probe) : Forall sane (snapshots ps newMachineSystemSampler).
Proof.
  generalize newMachineSystemSampler as s. induction ps as [|p ps IH]; intros s; [constructor|].
  cbn [snapshots]. pose proof (Snapshot_sane p s) as H. destruct (Snapshot p s) as [s' st]. by constructor.
Qed.

(** ** The share of the processor

    The counters of the system as they would be without wrapping. *)
Lemma wrapu64_diff a b : wrapu64 (wrapu64 a - wrapu64 b) = wrapu64 (a - b).
Proof. unfold wrapu64. by rewrite <- Zminus_mod. Qed.

(** Between two samples the percentage is the share of the time that was not
    idle, also when counters wrapped around in between. *)
Theorem sampleCPUPercent_exact p s T0 I0 T1 I1 :
  cpu s = Some (mkCPUSample (wrapu64 T0) (wrapu64 I0)) →
  readMachineCPUSample p = Some (mkCPUSample (wrapu64 T1) (wrapu64 I1)) →
  0 < T1 - T0 < 2 ^ 64 → 0 <= I1 - I0 <= T1 - T0 →
  ((sampleCPUPercent p s).2 == inject_Z ((T1 - T0) - (I1 - I0)) * 100 / inject_Z (T1 - T0))%Q.
Proof.
  intros Ho Hc HT HI. unfold sampleCPUPercent. rewrite Hc, Ho. cbn [total idle].
  rewrite !wrapu64_diff, (wrapu64_id (T1 - T0)), (wrapu64_id (I1 - I0)) by lia.
  destruct (Z.eqb_spec (T1 - T0) 0); [lia|]. destruct (Z.ltb_spec (T1 - T0) (I1 - I0)); [lia|]. cbn [orb snd].
  by rewrite wrapu64_id by lia.
Qed.

(** ** Addresses *)

Definition publicAddr (a : Addr) : bool := IsGlobalUnicast a && negb (IsPrivate a).

Definition addrsOf (p : Probe) : list Addr :=
  filter (λ a, a ≠ NotAnIP "") (omap id (mjoin
    ((λ i, if if_Up i && negb (if_Loopback i) then default [] (Addrs i) else []) <$> default [] (Interfaces p)))).

Definition firstAddr (f : Addr → bool) (l : list Addr) : option Addr := head (filter (λ a, f a = true) l).

Lemma firstAddr_snoc f l a :
  firstAddr f (l ++ [a]) = match firstAddr f l with Some b => Some b | None => if f a then Some a else None end.
Proof.
  unfold firstAddr. rewrite filter_app, filter_cons, filter_nil. destruct (filter _ l); cbn; [|done].
  case_decide as H; [by rewrite H|]. by destruct (f a).
Qed.

(** The status of a probe lists the addresses of the interfaces that are up and
    not loopback; the public ones are the first of their family. *)
Lemma readMachineIPStatus_spec p h : readMachineIPStatus p h =
  mkIPStatus h (firstAddr (λ a, publicAddr a && Is4 a) (addrsOf p)) (firstAddr (λ a, publicAddr a && Is6 a) (addrsOf p)) (addrsOf p).
Proof.
  unfold readMachineIPStatus, addrsOf. generalize (mjoin ((λ i, if if_Up i && negb (if_Loopback i) then default [] (Addrs i) else []) <$> default [] (Interfaces p))) as l.
  induction l as [|x l IH] using rev_ind; [done|]. rewrite foldl_snoc, IH, omap_app, filter_app.
  set (k := filter _ (omap id l)). destruct x as [a|]; cbn [omap list_omap id]; [|by rewrite filter_nil, app_nil_r].
  rewrite filter_cons, filter_nil. case_decide as Ha.
  - rewrite !firstAddr_snoc. unfold ipStep, publicAddr. cbn [ip_hostname public_ipv4 public_ipv6 local].
    destruct a as [i|i|[|c t]]; [| |done|]; cbn [Is4 Is6 andb];
      destruct (IsGlobalUnicast _), (IsPrivate _); cbn [negb orb andb]; f_equal;
      repeat case_bool_decide; by repeat case_match.
  - subst a. by rewrite app_nil_r.
Qed.

(** *** The cached status *)

(** The cached status is that of a probe of the past, with the hostname that
    was asked for first. *)
Definition cached (past : list Probe) (s : machineSystemSampler) : Prop :=
  (hostname s = match past with [] => None | p :: _ => Some (Hostname p) end)
  ∧ match cachedIP s with
    | None => past = []
    | Some (status, t) => ∃ q h, q ∈ past ∧ Hostname <$> head past = Some h
                                 ∧ t = Now q ∧ status = readMachineIPStatus q h
    end.

(** A status of the snapshot at [p] is at most ten minutes old. *)
Definition freshIP (past : list Probe) (p : Probe) (st : SystemStatus) : Prop :=
  ∃ q h, q ∈ past ++ [p] ∧ Hostname <$> head (past ++ [p]) = Some h ∧ (q = p ∨ Now p - Now q < tenMinutes)
    ∧ ip st = readMachineIPStatus q h ∧ sys_hostname st = h.

Lemma sampleIPStatus_cached past p s : cached past s →
  let '(s', st) := sampleIPStatus p s in
  cached (past ++ [p]) s'
  ∧ ∃ q h, q ∈ past ++ [p] ∧ Hostname <$> head (past ++ [p]) = Some h ∧ (q = p ∨ Now p - Now q < tenMinutes)
    ∧ st = readMachineIPStatus q h ∧ hostname s' = Some h.
Proof.
  intros [Hh Hc]. unfold sampleIPStatus, machineHostname, cached. destruct (cachedIP s) as [[status t]|] eqn:Ec.
  - destruct Hc as (q & h & Hq & Hh' & -> & ->). destruct past as [|p0 past]; [done|]. cbn in Hh, Hh'. injection Hh' as <-.
    rewrite Hh. destruct (Z.ltb_spec (Now p - Now q) tenMinutes).
    + rewrite Ec. split; [split; [done|]|]; exists q, (Hostname p0); split_and!; first [done|by right|by left|set_solver].
    + cbn. split; [split; [done|]|]; exists p, (Hostname p0); split_and!; first [done|by right|by left|set_solver].
  - subst past. cbn in Hh. rewrite Hh. cbn. split; [split; [done|]|]; exists p, (Hostname p); split_and!; first [done|by right|by left|set_solver].
Qed.

Lemma cached_cpu_net past s c n : cached past s → cached past (mkSampler c n (cachedIP s) (hostname s)).
Proof. done. Qed.

Lemma Snapshot_fresh past p s : cached past s →
  let '(s', st) := Snapshot p s in cached (past ++ [p]) s' ∧ freshIP past p st.
Proof.
  intros H. unfold Snapshot.
  assert (H1 : cached past (sampleCPUPercent p s).1) by (unfold sampleCPUPercent; repeat case_match; done).
  destruct (sampleCPUPercent p s) as [s1 c]. cbn in H1. destruct (readMachineMemoryStatus p) as [m w].
  assert (H2 : cached past (sampleNetworkStatus p s1).1) by (unfold sampleNetworkStatus; repeat case_match; done).
  destruct (sampleNetworkStatus p s1) as [s2 n]. cbn in H2.
  pose proof (sampleIPStatus_cached past p s2 H2) as H3. destruct (sampleIPStatus p s2) as [s3 i].
  destruct H3 as [H3 (q & h & Hq & Hh & Hf & -> & Hs)]. unfold machineHostname. rewrite Hs.
  split; [done|]. by exists q, h.
Qed.

(** The addresses and the hostname of the snapshot [i] come from a probe that
    was made less than ten minutes before. *)
Theorem snapshots_ip ps i p st :
  ps !! i = Some p → snapshots ps newMachineSystemSampler !! i = Some st → freshIP (take i ps) p st.
Proof.
  assert (H : ∀ past ps s, cached past s → ∀ i p st,
    ps !! i = Some p → snapshots ps s !! i = Some st → freshIP (past ++ take i ps) p st).
  { clear. intros past ps. revert past. induction ps as [|p0 ps IH]; intros past s Hs i p st Hp Hst; [done|].
    cbn [snapshots] in Hst. pose proof (Snapshot_fresh past p0 s Hs) as H0. destruct (Snapshot p0 s) as [s' st0].
    destruct H0 as [Hs' Hf]. destruct i as [|i].
    - cbn in Hp, Hst. injection Hp as ->. injection Hst as ->. cbn. by rewrite app_nil_r.
    - cbn in Hp, Hst. specialize (IH _ _ Hs' _ _ _ Hp Hst). by rewrite <- app_assoc in IH. }
  apply (H []). by split.
Qed.

Module Examples.
Definition exampleFiles (busy idle_ : string) (path : string) : option string :=
  if bool_decide (path = "/proc/stat") then Some ("cpu  " +:+ busy +:+ " 0 0 " +:+ idle_ +:+ String "010" "cpu0 1 2 3 4")
  else if bool_decide (path = "/proc/net/dev") then Some ("  eth0: 100 0 0 0 0 0 0 0 50 0 0 0 0 0 0 0" +:+ String "010" "lo: 1 1 1 1 1 1 1 1 1 1 1 1 1 1 1 1")
  else None.

Definition exampleProbe (now : Z) (busy idle_ : string) : Probe :=
  mkProbe now (exampleFiles busy idle_) None "host"
    (Some [mkInterface true true (Some [Some (V4 (127 * 2 ^ 24 + 1))]);
           mkInterface true false (Some [Some (V4 (10 * 2 ^ 24 + 5)); Some (V4 (8 * 2 ^ 24 + 8)); Some (V6 (2 ^ 125 + 1))])]) 0.

(** The counter of all time wraps between the samples. *)
Lemma sampleCPUPercent_exact_witness :
  ((sampleCPUPercent (exampleProbe 0 "14" "86") (mkSampler (Some (mkCPUSample (2 ^ 64 - 100) (2 ^ 64 - 64))) None None None)).2
   == 25)%Q.
Proof.
  rewrite (sampleCPUPercent_exact (exampleProbe 0 "14" "86") (mkSampler (Some (mkCPUSample (2 ^ 64 - 100) (2 ^ 64 - 64))) None None None)
    (2 ^ 64 - 100) (2 ^ 64 - 64) (2 ^ 64 + 100) (2 ^ 64 + 86)).
  - reflexivity.
  - reflexivity.
  - vm_compute. reflexivity.
  - lia.
  - lia.
Defined.

Lemma snapshots_ip_witness :
  ∃ st, snapshots [exampleProbe 0 "10" "10"; exampleProbe 60000000000 "20" "40"] newMachineSystemSampler !! 1%nat = Some st
    ∧ freshIP [exampleProbe 0 "10" "10"] (exampleProbe 60000000000 "20" "40") st
    ∧ public_ipv4 (ip st) = Some (V4 (8 * 2 ^ 24 + 8)).
Proof.
  eexists. split; [vm_compute; reflexivity|]. split; [|reflexivity].
  apply (snapshots_ip [exampleProbe 0 "10" "10"; exampleProbe 60000000000 "20" "40"] 1); [reflexivity|vm_compute; reflexivity].
Defined.
End Examples.
End SystemSamplerProps.
