(* ===== verification/SelfUpdate.v ===== *)
(** * The self update (cmd/self_update.go)

    The panel asks for a version; the process remembers one request and starts
    the installer in a shell of its own. Starting programs is the class
    [Exec]. *)

From Stdlib Require Import Ascii.
From S2P Require Import Prelude GoStrings GoText EdgeSidecar.

Module SelfUpdate.
Import GoStrings GoText.

(** ** Data *)

Record machineUpgradeCommand := mkCommand { cmd_ID : string; TargetVersion : string }.

Record machineUpgradeStatus := mkUpgradeStatus {
  us_ID : string;
  us_Status : string;
  us_Target : string;
  us_Error : string;
  StartedAt : Z;
  FinishedAt : Z;
  UpdatedAt : Z
}.

#[global] Instance machineUpgradeStatus_eq_dec : EqDecision machineUpgradeStatus.
Proof. solve_decision. Defined.

(** ** Patterns *)

Definition is_letter (a : ascii) : bool := between 65 90 a || between 97 122 a.

Definition is_alnum (a : ascii) : bool := is_digit a || is_letter a.

Definition version_byte (a : ascii) : bool := is_alnum a || existsb (Ascii.eqb a) (bytes "._-").

(** [[0-9A-Za-z][0-9A-Za-z._-]{0,63}] *)
Definition matchesVersion (l : list ascii) : bool :=
  match l with
  | [] => false
  | a :: l => is_alnum a && forallb version_byte l && Nat.leb (length l) 63
  end.

(** [kelinodeVersionPattern.MatchString] *)
Definition kelinodeVersionPattern (s : string) : bool :=
  matchesVersion (bytes s)
  || match bytes s with a :: l => Ascii.eqb a "v" && matchesVersion l | [] => false end.

Definition unit_byte (a : ascii) : bool := is_alnum a || existsb (Ascii.eqb a) (bytes "_.-").

(** [unitNamePattern.ReplaceAllString(value, "-")]: each run of other bytes
    becomes one dash. *)
Fixpoint replaceRuns (inRun : bool) (l : list ascii) : list ascii :=
  match l with
  | [] => []
  | a :: l =>
      if unit_byte a then a :: replaceRuns false l
      else if inRun then replaceRuns true l else "-"%char :: replaceRuns true l
  end.

Definition sanitizeSystemdUnitPart (value : string) : string :=
  let value := of_bytes (replaceRuns false (bytes value)) in
  let value := Trim (λ a, Ascii.eqb a "." || Ascii.eqb a "-") value in
  if bool_decide (value = "") then "latest" else value.

Definition is_v (a : ascii) : bool := Ascii.eqb a "v" || Ascii.eqb a "V".

Definition versionsEqual (current target : string) : bool :=
  bool_decide (TrimLeft is_v (TrimSpace current) = TrimLeft is_v (TrimSpace target)).

(** A quote ends the quoted text, is quoted in double quotes, and the text goes on. *)
Definition quotedQuote : string := of_bytes ["'"; "034"; "'"; "034"; "'"]%char.

Definition shellQuote (value : string) : string := "'" +:+ EdgeSidecar.ReplaceByte "'"%char quotedQuote value +:+ "'".

Definition truncateUpgradeError (value : string) : string :=
  let value := TrimSpace value in
  if Nat.leb (String.length value) 1000 then value else of_bytes (take 1000 (bytes value)).

(** ** Requests *)

(** [requestMachineUpgrade]: the next state, and the command to run. *)
Definition requestMachineUpgrade (now : Z) (currentVersion : string) (command : machineUpgradeCommand)
    (status : option machineUpgradeStatus) : option machineUpgradeStatus * option machineUpgradeCommand :=
  let command := mkCommand (TrimSpace (cmd_ID command)) (TrimSpace (TargetVersion command)) in
  if bool_decide (cmd_ID command = "") || negb (kelinodeVersionPattern (TargetVersion command)) then (status, None)
  else
    let busy :=
      match status with
      | Some s => bool_decide (us_ID s = cmd_ID command) && bool_decide (us_Status s = "running" ∨ us_Status s = "succeeded")
      | None => false
      end in
    if busy then (status, None)
    else
      if versionsEqual currentVersion (TargetVersion command)
      then (Some (mkUpgradeStatus (cmd_ID command) "succeeded" (TargetVersion command) "" now now now), None)
      else (Some (mkUpgradeStatus (cmd_ID command) "running" (TargetVersion command) "" now 0 now), Some command).

Definition markMachineUpgradeFailed (now : Z) (id : string) (err : GoError) (status : option machineUpgradeStatus)
    : option machineUpgradeStatus :=
  match status with
  | None => None
  | Some s =>
      if bool_decide (us_ID s ≠ id) then status
      else Some (mkUpgradeStatus (us_ID s) "failed" (us_Target s) (truncateUpgradeError (err_msg err)) (StartedAt s) now now)
  end.

(** ** Starting the installer *)

Definition scriptURL : string := "https://raw.githubusercontent.com/keli-123456/kelinode/main/script/install.sh".

Definition updateScript (targetVersion : string) : string :=
  "curl -fsSL " +:+ shellQuote scriptURL +:+ " -o /tmp/v2node-install.sh && bash /tmp/v2node-install.sh "
  +:+ shellQuote targetVersion.

Definition detachedScript (targetVersion : string) : string :=
  "nohup /bin/sh -c " +:+ shellQuote ("sleep 1; " +:+ updateScript targetVersion) +:+ " >/tmp/v2node-self-update.log 2>&1 &".

(** [LookPath] finds a program; [CombinedOutput] runs one, and answers the
    error, if any, with the output. *)
Class Exec := {
  LookPath : string → bool;
  CombinedOutput : list string → option (GoError * string)
}.

(** The commands that are run, in order, and the error. *)
Definition launchMachineUpgrade `{Exec} (targetVersion : string) : list (list string) * option GoError :=
  let targetVersion := TrimSpace targetVersion in
  if negb (kelinodeVersionPattern targetVersion) then ([], Some (errorf "invalid target version"))
  else
    let run argv what :=
      ([argv], match CombinedOutput argv with
               | None => None
               | Some (err, output) =>
                   Some (wrapErr (what +:+ ": " +:+ err_msg err +:+ ": " +:+ TrimSpace output) err)
               end) in
    if LookPath "systemd-run" then
      run ["systemd-run"; "--unit"; "v2node-self-update-" +:+ sanitizeSystemdUnitPart targetVersion;
           "--description=v2node self update"; "/bin/sh"; "-c"; updateScript targetVersion] "start systemd update failed"
    else run ["/bin/sh"; "-c"; detachedScript targetVersion] "start detached update failed".

(** ** The version that runs (cmd/version.go) *)

Definition isPlaceholderVersion (value : string) : bool :=
  let value := TrimSpace value in bool_decide (value = "" ∨ value = "TempVersion" ∨ value = "dev").

Definition installedVersionPaths : list string := ["/usr/local/v2node/.installed_version"].

Fixpoint installedVersion (readFile : string → option string) (paths : list string) : string :=
  match paths with
  | [] => ""
  | path :: paths =>
      match readFile path with
      | None => installedVersion readFile paths
      | Some data =>
          let v := TrimSpace data in
          if bool_decide (v ≠ "") then v else installedVersion readFile paths
      end
  end.

(** [version] is set when the program is built. *)
Definition currentKelinodeVersion (version : string) (readFile : string → option string) : string :=
  let v := TrimSpace version in
  if bool_decide (v ≠ "") && negb (isPlaceholderVersion v) then v else installedVersion readFile installedVersionPaths.

(** ** The life of the state

    [launched] are the goroutines that were started, and whether their launch
    has failed. *)

Record upgradeState := mkUpgradeState {
  status : option machineUpgradeStatus;
  launched : list (machineUpgradeCommand * bool)
}.

Inductive upgradeEvent :=
| Requested (now : Z) (currentVersion : string) (command : machineUpgradeCommand)
| LaunchFailed (now : Z) (i : nat) (err : GoError).

(** [runMachineUpgrade] reports the failure of its own command, once. *)
Definition upgradeStep (s : upgradeState) (e : upgradeEvent) : upgradeState :=
  match e with
  | Requested now v command =>
      let '(st, launch) := requestMachineUpgrade now v command (status s) in
      mkUpgradeState st (launched s ++ ((λ c, (c, false)) <$> option_list launch))
  | LaunchFailed now i err =>
      match launched s !! i with
      | Some (command, false) =>
          mkUpgradeState (markMachineUpgradeFailed now (cmd_ID command) err (status s)) (<[i := (command, true)]> (launched s))
      | _ => s
      end
  end.

Definition runUpgrades (es : list upgradeEvent) (s : upgradeState) : upgradeState := foldl upgradeStep s es.
End SelfUpdate.
