(* ===== verification/SelfUpdateProps.v ===== *)
(** * What the self update promises

    A shell that is given the update script reads the requested version as one
    word, whatever its bytes, so that nothing of a version is ever executed
    ([update_command]); a request is acted upon once ([upgrade_once]). *)

From Stdlib Require Import Ascii.
From S2P Require Import Prelude GoStrings GoText EdgeSidecar SelfUpdate.

Module SelfUpdateProps.
Import GoStrings GoText SelfUpdate.

(** ** Reading a command line

    The tokens of a shell command (POSIX, token recognition and quoting), for
    commands without expansions: an unquoted or double-quoted byte that would
    start one is not read at all. *)

Inductive token := Word (s : string) | Operator (s : string).

Inductive lexState :=
| Start                       (* between tokens *)
| Bare (w : list ascii)       (* in a word, read so far in reverse *)
| Op (w : list ascii)         (* in an operator *)
| Single (w : list ascii)     (* in a word, within single quotes *)
| Double (w : list ascii).    (* in a word, within double quotes *)

Definition is_blank (a : ascii) : bool := Ascii.eqb a " " || Ascii.eqb a "009".

Definition is_operator (a : ascii) : bool := existsb (Ascii.eqb a) (bytes "&|;<>()").

Definition expands (a : ascii) : bool := existsb (Ascii.eqb a) ("010"%char :: "092"%char :: bytes "$`*?[]#~=%!{}").

Definition flush (st : lexState) : list token :=
  match st with
  | Bare w => [Word (of_bytes (rev w))]
  | Op w => [Operator (of_bytes (rev w))]
  | _ => []
  end.

Definition bareWord (st : lexState) : list ascii := match st with Bare w => w | _ => [] end.

Definition finished (st : lexState) : list token := match st with Op _ => flush st | _ => [] end.

(** The next state and the tokens that end before it. *)
Definition lexByte (st : lexState) (a : ascii) : option (list token * lexState) :=
  match st with
  | Single w => Some ([], if Ascii.eqb a "'" then Bare w else Single (a :: w))
  | Double w =>
      if Ascii.eqb a "034" then Some ([], Bare w)
      else if existsb (Ascii.eqb a) ("092"%char :: bytes "$`") then None
      else Some ([], Double (a :: w))
  | _ =>
      if is_blank a then Some (flush st, Start)
      else if is_operator a then
        match st with Op w => Some ([], Op (a :: w)) | _ => Some (flush st, Op [a]) end
      else if Ascii.eqb a "'" then Some (finished st, Single (bareWord st))
      else if Ascii.eqb a "034" then Some (finished st, Double (bareWord st))
      else if expands a then None
      else Some (finished st, Bare (a :: bareWord st))
  end.

Fixpoint lex (st : lexState) (l : list ascii) : option (list token) :=
  match l with
  | [] => match st with Single _ | Double _ => None | _ => Some (flush st) end
  | a :: l =>
      match lexByte st a with
      | None => None
      | Some (ts, st) => app ts <$> lex st l
      end
  end.

Definition shellTokens (s : string) : option (list token) := lex Start (bytes s).

(** ** Quoting *)

Lemma app_nil_fmap {A} (o : option (list A)) : app [] <$> o = o.
Proof. by destruct o. Qed.

Lemma lex_cons st a l ts st' : lexByte st a = Some (ts, st') → lex st (a :: l) = app ts <$> lex st' l.
Proof. intros H. cbn [lex]. by rewrite H. Qed.

Lemma lex_quotedQuote w l : lex (Single w) (bytes quotedQuote ++ l) = lex (Single ("'"%char :: w)) l.
Proof. unfold quotedQuote. rewrite bytes_of_bytes. cbn [app]. do 5 (erewrite lex_cons by reflexivity; rewrite app_nil_fmap). done. Qed.

Lemma lex_quoted v w l :
  lex (Single w) (bytes (EdgeSidecar.ReplaceByte "'"%char quotedQuote v) ++ "'"%char :: l) = lex (Bare (rev (bytes v) ++ w)) l.
Proof.
  revert w. induction v as [|a v IH]; intros w.
  - cbn. by rewrite app_nil_fmap.
  - cbn [EdgeSidecar.ReplaceByte]. change (bytes (String a v)) with (a :: bytes v). cbn [rev]. rewrite <- app_assoc.
    destruct (Ascii.eqb_spec a "'") as [->|Ha].
    + change (Ascii.eqb "'" "'") with true. rewrite bytes_app, <- app_assoc, lex_quotedQuote. apply IH.
    + change (bytes (String a ?s)) with (a :: bytes s). cbn [app lex]. unfold lexByte.
      destruct (Ascii.eqb_spec a "'"); [done|]. rewrite app_nil_fmap. apply IH.
Qed.

(** A quoted string is read as the string, after whatever was read before. *)
Lemma lex_shellQuote v w l : lex (Bare w) (bytes (shellQuote v) ++ l) = lex (Bare (rev (bytes v) ++ w)) l.
Proof.
  unfold shellQuote. rewrite !bytes_app, <- !app_assoc. change (bytes "'") with ["'"%char]. cbn [app].
  erewrite lex_cons by reflexivity. rewrite app_nil_fmap. apply lex_quoted.
Qed.

Lemma lex_shellQuote_start v l : lex Start (bytes (shellQuote v) ++ l) = lex (Bare (rev (bytes v))) l.
Proof. rewrite <- (app_nil_r (rev _)), <- lex_shellQuote. done. Qed.

Lemma shellTokens_word v : shellTokens (shellQuote v) = Some [Word v].
Proof.
  unfold shellTokens. rewrite <- (app_nil_r (bytes _)), lex_shellQuote_start. cbn. by rewrite rev_involutive, of_bytes_bytes.
Qed.

(** ** The commands *)

(** The tokens and the state after a prefix. *)
Fixpoint lexPrefix (st : lexState) (l : list ascii) : option (list token * lexState) :=
  match l with
  | [] => Some ([], st)
  | a :: l =>
      match lexByte st a with
      | None => None
      | Some (ts, st) => match lexPrefix st l with Some (us, st) => Some (ts ++ us, st) | None => None end
      end
  end.

Lemma lex_prefix st l k ts st' : lexPrefix st l = Some (ts, st') → lex st (l ++ k) = app ts <$> lex st' k.
Proof.
  revert st ts. induction l as [|a l IH]; intros st ts H; cbn in H.
  - injection H as <- <-. by rewrite app_nil_fmap.
  - cbn [app lex]. destruct (lexByte st a) as [[us st1]|]; [|done]. destruct (lexPrefix st1 l) as [[vs st2]|] eqn:E; [|done].
    injection H as <- <-. rewrite (IH _ _ E). destruct (lex st2 k); [|done]. cbn. by rewrite app_assoc.
Qed.

(** A text, a quoted word, and what comes after it. *)
Lemma lex_text_quoted st s v l ts :
  lexPrefix st (bytes s) = Some (ts, Start) →
  lex st (bytes (s +:+ shellQuote v) ++ l) = app ts <$> lex (Bare (rev (bytes v))) l.
Proof. intros H. rewrite bytes_app, <- app_assoc, (lex_prefix _ _ _ _ _ H). by rewrite lex_shellQuote_start. Qed.

Definition updateTokens (version : string) : list token :=
  [Word "curl"; Word "-fsSL"; Word scriptURL; Word "-o"; Word "/tmp/v2node-install.sh"; Operator "&&";
   Word "bash"; Word "/tmp/v2node-install.sh"; Word version].

Definition downloadPart : string :=
  "curl -fsSL " +:+ shellQuote scriptURL +:+ " -o /tmp/v2node-install.sh && bash /tmp/v2node-install.sh ".

Lemma updateScript_parts version : updateScript version = downloadPart +:+ shellQuote version.
Proof. unfold updateScript, downloadPart. by rewrite !app_string_assoc. Qed.

Lemma word_bytes s : of_bytes (rev (rev (bytes s))) = s.
Proof. by rewrite rev_involutive, of_bytes_bytes. Qed.

(** What the shell reads of the script, and of the script after a pause. *)
Lemma shellTokens_updateScript version : shellTokens (updateScript version) = Some (updateTokens version).
Proof.
  unfold shellTokens. rewrite updateScript_parts, <- (app_nil_r (bytes _)).
  erewrite lex_text_quoted by (vm_compute; reflexivity). cbn [lex flush]. by rewrite word_bytes.
Qed.

Lemma shellTokens_paused version :
  shellTokens ("sleep 1; " +:+ updateScript version) = Some ([Word "sleep"; Word "1"; Operator ";"] ++ updateTokens version).
Proof.
  unfold shellTokens. rewrite updateScript_parts, <- app_string_assoc, <- (app_nil_r (bytes _)).
  erewrite lex_text_quoted by (vm_compute; reflexivity). cbn [lex flush]. by rewrite word_bytes.
Qed.

Definition detachedTokens (script : string) : list token :=
  [Word "nohup"; Word "/bin/sh"; Word "-c"; Word script; Operator ">"; Word "/tmp/v2node-self-update.log";
   Word "2"; Operator ">&"; Word "1"; Operator "&"].

Lemma shellTokens_detachedScript version :
  shellTokens (detachedScript version) = Some (detachedTokens ("sleep 1; " +:+ updateScript version)).
Proof.
  unfold shellTokens, detachedScript. set (script := "sleep 1; " +:+ updateScript version). clearbody script.
  rewrite <- app_string_assoc, bytes_app. erewrite lex_text_quoted by (vm_compute; reflexivity).
  change (bytes " >/tmp/v2node-self-update.log 2>&1 &") with (" "%char :: bytes ">/tmp/v2node-self-update.log 2>&1 &").
  erewrite lex_cons by reflexivity. rewrite <- (app_nil_r (bytes ">/tmp/v2node-self-update.log 2>&1 &")).
  erewrite lex_prefix by (vm_compute; reflexivity). cbn [flush lex]. by rewrite word_bytes.
Qed.

(** *** The unit *)

Definition unitPart (s : string) : Prop := s ≠ "" ∧ Forall (λ a, unit_byte a = true) (bytes s).

Lemma replaceRuns_unit b l : Forall (λ a, unit_byte a = true) (replaceRuns b l).
Proof.
  revert b. induction l as [|a l IH]; intros b; [constructor|]. cbn. destruct (unit_byte a) eqn:E; [by constructor|].
  destruct b; [done|]. by constructor.
Qed.

Lemma drop_while_Forall (P : ascii → Prop) p l : Forall P l → Forall P (drop_while p l).
Proof. induction 1 as [|a l Ha Hl IH]; [constructor|]. cbn. destruct (p a); [done|]. by constructor. Qed.

Lemma sanitizeSystemdUnitPart_unit value : unitPart (sanitizeSystemdUnitPart value).
Proof.
  unfold sanitizeSystemdUnitPart, unitPart. case_bool_decide as E; [by split; [|repeat constructor]|]. split; [done|].
  unfold Trim, TrimRight, TrimLeft. autorewrite with gostrings.
  apply Forall_rev, drop_while_Forall, Forall_rev, drop_while_Forall, replaceRuns_unit.
Qed.

(** C25. Whatever version the panel asks for, one command is run at most, and none
    unless the version has the form of one. With systemd the unit name is made
    of letters, digits, underscores, dots and dashes, and the shell reads the
    script as downloading the installer and running it with the version as its
    one argument; without, it reads a detached shell that is given that script,
    after a pause, as one word. *)
Theorem update_command `{Exec} (target : string) :
  let version := TrimSpace target in
  (launchMachineUpgrade target).1 =
    (if negb (kelinodeVersionPattern version) then []
     else if LookPath "systemd-run"
     then [["systemd-run"; "--unit"; "v2node-self-update-" +:+ sanitizeSystemdUnitPart version;
            "--description=v2node self update"; "/bin/sh"; "-c"; updateScript version]]
     else [["/bin/sh"; "-c"; detachedScript version]])
  ∧ unitPart (sanitizeSystemdUnitPart version)
  ∧ shellTokens (updateScript version) = Some (updateTokens version)
  ∧ shellTokens (detachedScript version) = Some (detachedTokens ("sleep 1; " +:+ updateScript version))
  ∧ shellTokens ("sleep 1; " +:+ updateScript version)
    = Some ([Word "sleep"; Word "1"; Operator ";"] ++ updateTokens version).
Proof.
  cbn zeta. split_and!.
  - unfold launchMachineUpgrade. destruct (negb _); [done|]. by destruct (LookPath _).
  - apply sanitizeSystemdUnitPart_unit.
  - apply shellTokens_updateScript.
  - apply shellTokens_detachedScript.
  - apply shellTokens_paused.
Qed.

(** ** Requests are acted upon once *)

(** An event that leaves the request [id] alone: the same request again, one
    that is not valid, and failures of the launches of others. *)
Definition repeats (id : string) (s : upgradeState) (e : upgradeEvent) : Prop :=
  match e with
  | Requested _ _ command =>
      TrimSpace (cmd_ID command) = id ∨ TrimSpace (cmd_ID command) = ""
      ∨ kelinodeVersionPattern (TrimSpace (TargetVersion command)) = false
  | LaunchFailed _ i _ => match launched s !! i with Some (c, false) => cmd_ID c ≠ id | _ => True end
  end.

Fixpoint allRepeat (id : string) (s : upgradeState) (es : list upgradeEvent) : Prop :=
  match es with
  | [] => True
  | e :: es => repeats id s e ∧ allRepeat id (upgradeStep s e) es
  end.

Lemma upgradeStep_repeats s e st : status s = Some st → us_Status st = "running" ∨ us_Status st = "succeeded" →
  repeats (us_ID st) s e → status (upgradeStep s e) = Some st ∧ (launched (upgradeStep s e)).*1 = (launched s).*1.
Proof.
  intros Hs Hst. destruct e as [now v c|now i err]; cbn [repeats upgradeStep].
  - intros Hr. unfold requestMachineUpgrade. cbn [cmd_ID TargetVersion]. rewrite Hs.
    case_bool_decide as He; [cbn; by rewrite app_nil_r|]. destruct (kelinodeVersionPattern _) eqn:Hv; [|cbn; by rewrite app_nil_r].
    destruct Hr as [Hr|[Hr|Hr]]; [|congruence..]. cbn [negb orb].
    rewrite !bool_decide_eq_true_2 by done. cbn. by rewrite app_nil_r.
  - destruct (launched s !! i) as [[c []]|] eqn:Hi; try done. intros Hne. unfold markMachineUpgradeFailed. rewrite Hs.
    rewrite bool_decide_eq_true_2 by congruence. cbn. split; [done|]. rewrite list_fmap_insert. cbn.
    apply list_insert_id. by rewrite list_lookup_fmap, Hi.
Qed.

(** Once an upgrade runs or has succeeded, repeating the request launches nothing
    and keeps its status, however often, and whatever launches of other
    requests fail meanwhile. *)
Theorem upgrade_once es s st : status s = Some st → us_Status st = "running" ∨ us_Status st = "succeeded" →
  allRepeat (us_ID st) s es →
  status (runUpgrades es s) = Some st ∧ (launched (runUpgrades es s)).*1 = (launched s).*1.
Proof.
  intros Hs Hst. revert s Hs. induction es as [|e es IH]; intros s Hs Hr; [done|]. destruct Hr as [Hr Hes].
  destruct (upgradeStep_repeats s e st Hs Hst Hr) as [Hs' Hl]. destruct (IH _ Hs' Hes) as [H1 H2]. split; [exact H1|]. by rewrite <- Hl.
Qed.

Module Examples.
Definition exampleRequest (id : string) : upgradeEvent := Requested 5 "v1.0.0" (mkCommand id " v1.2.3 ").

Definition exampleRunning : upgradeState := runUpgrades [exampleRequest "a"; exampleRequest "b"] (mkUpgradeState None []).

Lemma upgrade_once_witness :
  let s := runUpgrades [exampleRequest "b"; LaunchFailed 6 0 (errorf "exit"); exampleRequest " b"] exampleRunning in
  us_Status <$> status s = Some "running" ∧ cmd_ID <$> (launched s).*1 = ["a"; "b"].
Proof.
  destruct (upgrade_once [exampleRequest "b"; LaunchFailed 6 0 (errorf "exit"); exampleRequest " b"] exampleRunning
    (mkUpgradeStatus "b" "running" "v1.2.3" "" 5 0 5)) as [H1 H2]; [reflexivity|by left| |].
  { vm_compute. split_and!; try (by left); try done. }
  cbn zeta. rewrite H1, H2. split; reflexivity.
Defined.

Example versions : kelinodeVersionPattern "v1.2.3-rc.1" = true ∧ kelinodeVersionPattern "$(reboot)" = false
  ∧ kelinodeVersionPattern "" = false ∧ versionsEqual "v1.2" " 1.2" = true ∧ sanitizeSystemdUnitPart "--a b;;c." = "a-b-c".
Proof. vm_compute. repeat split. Qed.
End Examples.
End SelfUpdateProps.
