(* ===== verification/MachineStatus.v ===== *)
(** * Reporting the machine, and its realtime connections
    (cmd/machine_status.go, cmd/machine_realtime.go)

    Both keep one background service for the machine profiles of the
    configuration, and replace it when the fingerprint of the profiles changes
    ([Kept]). A report goes to the panel of each profile; what the panel answers
    is an argument. *)

From Stdlib Require Import Ascii.
From S2P Require Import Prelude GoStrings Json GoText Conf Panel UserSync Realtime Machine EdgeClient SelfUpdate.

Module MachineStatus.
Import GoStrings GoText SelfUpdate.

(** ** Profiles and fingerprints *)

Definition withHostKey (host key : string) (p : Conf.MachineProfileConfig) : Conf.MachineProfileConfig :=
  Conf.mkMachineProfileConfig (Conf.mp_Name p) host key (Conf.mp_MachineID p) (Conf.mp_Timeout p) (Conf.mp_ConfigDir p)
    (Conf.mp_Realtime p).

Definition apiHostOf (host : string) : string := TrimRight Conf.is_slash (TrimSpace host).

(** [normalizeStatusProfiles] and [normalizeMachineRealtimeProfiles]. *)
Definition normalizeProfile (p : Conf.MachineProfileConfig) : option Conf.MachineProfileConfig :=
  let p := withHostKey (apiHostOf (Conf.mp_APIHost p)) (TrimSpace (Conf.mp_Key p)) p in
  if bool_decide (Conf.mp_APIHost p = "") || bool_decide (Conf.mp_Key p = "") || (Conf.mp_MachineID p <=? 0) then None
  else Some p.

Definition normalizeProfiles (profiles : list Conf.MachineProfileConfig) : list Conf.MachineProfileConfig :=
  omap normalizeProfile profiles.

Definition statusPart (p : Conf.MachineProfileConfig) : string :=
  Conf.mp_APIHost p +:+ "#" +:+ Itoa (Conf.mp_MachineID p) +:+ "#" +:+ Conf.mp_Key p.

Definition newline : string := String "010"%char EmptyString.

Definition machineStatusFingerprint (profiles : list Conf.MachineProfileConfig) : string :=
  Join newline (sortStrings (statusPart <$> profiles)).

Definition boolFingerprint (value : bool) : string := if value then "1" else "0".

Definition realtimeFields (rt : Conf.RealtimeConfig) : list string :=
  [boolFingerprint (Conf.rc_Enabled rt); TrimSpace (Conf.rc_URL rt); Itoa (Conf.PingInterval rt);
   Itoa (Conf.ReconnectInterval rt)].

Definition profileFields (p : Conf.MachineProfileConfig) : list string :=
  [Conf.mp_APIHost p; Itoa (Conf.mp_MachineID p); Conf.mp_Key p] ++ realtimeFields (Conf.mp_Realtime p).

Definition machineRealtimeFingerprint (profiles : list Conf.MachineProfileConfig) (realtime : Conf.RealtimeConfig) : string :=
  Join newline (sortStrings (Join "#" (realtimeFields realtime) :: ((λ p, Join "#" (profileFields p)) <$> profiles))).

(** ** A service that is kept

    [services] are all that were ever started, and whether they still run;
    [current] is the one that is remembered, with its fingerprint. *)

Section kept.
Context {A : Type}.

Record Kept := mkKept { current : option (nat * string); services : list (A * bool) }.

Definition newKept : Kept := mkKept None [].

Definition stopService (i : nat) (l : list (A * bool)) : list (A * bool) := alter (λ s, (s.1, false)) i l.

Definition keptClose (k : Kept) : Kept :=
  match current k with
  | None => mkKept None (services k)
  | Some (i, _) => mkKept None (stopService i (services k))
  end.

Definition keptApply (fingerprint : string) (service : A) (k : Kept) : Kept :=
  let start l := mkKept (Some (length l, fingerprint)) (l ++ [(service, true)]) in
  match current k with
  | Some (i, f) => if bool_decide (f = fingerprint) then k else start (stopService i (services k))
  | None => start (services k)
  end.

(** The services that run. *)
Definition runningServices (k : Kept) : list A := fst <$> filter (λ s, s.2 = true) (services k).
End kept.
Arguments Kept : clear implicits.

(** ** The reporter *)

(** [machineStatusReporterState.Apply] *)
Definition applyStatus (machine : Conf.MachineConfig) (k : Kept (list Conf.MachineProfileConfig)) : Kept (list Conf.MachineProfileConfig) :=
  let profiles := normalizeProfiles (Conf.Profiles machine) in
  if negb (Conf.mc_Enabled machine) || bool_decide (length profiles = 0%nat) then keptClose k
  else keptApply (machineStatusFingerprint profiles) profiles k.

(** [MachineRealtimeManager]: the options of the clients it starts. *)
Record Manager := mkManager { mg_profiles : list Conf.MachineProfileConfig; fallback : Conf.RealtimeConfig }.

Definition clients `{Realtime.NetURL} (m : Manager) : list Realtime.RealtimeOptions :=
  omap (λ p, Realtime.resolveMachineRealtimeOptions p (fallback m)) (mg_profiles m).

(** A call that waits for something returns, or waits for ever: what there is then. *)
Inductive Returns (S A : Type) := Returned (a : A) | Waits (s : S).
#[global] Arguments Returned {S A}.
#[global] Arguments Waits {S A}.

(** [Close] of a manager cancels its clients and waits until each has come to its
    end; a client that reads is only at its end when its panel sends something or
    the connection breaks (RealtimeClient.v). [ends] is whether they all get there. *)
Definition closeWaits `{Realtime.NetURL} (ends : bool) (k : Kept Manager) : bool :=
  match current k with
  | None => false
  | Some (i, _) => match services k !! i with
                   | Some (m, _) => negb ends && bool_decide (clients m ≠ [])
                   | None => false
                   end
  end.

(** [machineRealtimeState.Close]; while it waits the manager is forgotten, but its
    clients are there. *)
Definition closeRealtime `{Realtime.NetURL} (ends : bool) (k : Kept Manager) : Returns (Kept Manager) (Kept Manager) :=
  if closeWaits ends k then Waits (mkKept None (services k)) else Returned (keptClose k).

(** [machineRealtimeState.Apply]; while it waits for the old manager the new one is
    remembered, but not started. *)
Definition applyRealtime `{Realtime.NetURL} (ends : bool) (machine : Conf.MachineConfig) (realtime : Conf.RealtimeConfig)
    (k : Kept Manager) : Returns (Kept Manager) (Kept Manager) :=
  let profiles := normalizeProfiles (Conf.Profiles machine) in
  if negb (Conf.mc_Enabled machine) || bool_decide (length profiles = 0%nat) then closeRealtime ends k
  else
    let manager := mkManager profiles realtime in
    let fingerprint := machineRealtimeFingerprint profiles realtime in
    let same := match current k with Some (_, f) => bool_decide (f = fingerprint) | None => false end in
    if negb same && closeWaits ends k
    then Waits (mkKept (Some (length (services k), fingerprint)) (services k ++ [(manager, false)]))
    else Returned (keptApply fingerprint manager k).

(** ** A report *)

Definition PathV2MachineStatus : string := "/api/v2/server/machine/status".

(** What a round of reports takes from the process: the probed system, the
    status of the agent, if there is one, the nodes that failed, the version
    and the upgrade. *)
Record Environment := mkEnvironment {
  systemStatus : gmap string Json.Json;
  version : string;
  agentStatus : option Json.Json;
  upgrade : option machineUpgradeStatus;
  nodeFailures : list Machine.NodeFailure
}.

(** A reply: status, excerpt of the body, and the first 4096 bytes of it. *)
Record StatusReply := mkStatusReply { sr_Code : Z; excerpt : string; data : result EdgeClient.Body }.

(** The panels: address, body and time limit in seconds. *)
Definition StatusPanel : Type := string → Json.Json → Z → result StatusReply.

Definition failureItem (f : Machine.NodeFailure) : Json.Json :=
  let cfg := Machine.nf_Config f in
  Json.JObject ([("api_host", Json.JString (Conf.APIHost cfg))]
    ++ match Machine.nf_Err f with Some e => [("error", Json.JString (err_msg e))] | None => [] end
    ++ [("machine_id", Json.JNumber (Itoa (Conf.MachineID cfg))); ("node_id", Json.JNumber (Itoa (Conf.NodeID cfg)));
        ("node_type", Json.JString "v2node")]).

Definition ownFailure (p : Conf.MachineProfileConfig) (f : Machine.NodeFailure) : Prop :=
  apiHostOf (Conf.APIHost (Machine.nf_Config f)) = apiHostOf (Conf.mp_APIHost p)
  ∧ Conf.MachineID (Machine.nf_Config f) = Conf.mp_MachineID p.

#[global] Instance ownFailure_dec p f : Decision (ownFailure p f).
Proof. unfold ownFailure. apply _. Defined.

Definition buildMachineNodeFailurePayload (p : Conf.MachineProfileConfig) (fs : list Machine.NodeFailure) : list Json.Json :=
  failureItem <$> filter (ownFailure p) fs.

(** [machineUpgradeStatus] as JSON; zero times and an empty error are left out. *)
Definition upgradeJSON (s : machineUpgradeStatus) : Json.Json :=
  let time key z := if z =? 0 then [] else [(key, Json.JNumber (Itoa z))] in
  Json.JObject ([("id", Json.JString (us_ID s)); ("status", Json.JString (us_Status s));
                 ("target_version", Json.JString (us_Target s))]
    ++ (if bool_decide (us_Error s = "") then [] else [("error", Json.JString (us_Error s))])
    ++ time "started_at" (StartedAt s) ++ time "finished_at" (FinishedAt s) ++ time "updated_at" (UpdatedAt s)).

Definition statusPayload (p : Conf.MachineProfileConfig) (env : Environment) : gmap string Json.Json :=
  let status := systemStatus env in
  let status := <["version" := Json.JString (version env)]> status in
  let status := match agentStatus env with Some j => <["agent" := j]> status | None => status end in
  let status := match upgrade env with Some u => <["upgrade" := upgradeJSON u]> status | None => status end in
  <["node_failures" := Json.JArray (buildMachineNodeFailurePayload p (nodeFailures env))]> status.

(** A Go map as JSON: its keys are sorted. *)
Definition mapJSON (m : gmap string Json.Json) : Json.Json :=
  Json.JObject ((λ k, (k, default Json.JNull (m !! k))) <$> sortStrings (map_to_list m).*1).

Definition reportBody (p : Conf.MachineProfileConfig) (env : Environment) : Json.Json :=
  Json.JObject [("machine_id", Json.JNumber (Itoa (Conf.mp_MachineID p))); ("status", mapJSON (statusPayload p env));
                ("token", Json.JString (TrimSpace (Conf.mp_Key p)))].

Record ReportResult := mkReportResult { Reload : bool; Upgrade : option machineUpgradeCommand }.

Definition commandFields : list (string * Json.Setter machineUpgradeCommand) :=
  [("id", Json.setString (λ v c, mkCommand v (TargetVersion c)));
   ("target_version", Json.setString (λ v c, mkCommand (cmd_ID c) v))].

(** A pointer to a struct: [null] makes it nil. *)
Definition setCommand : Json.Setter ReportResult := λ j r,
  match j with
  | Json.JNull => Some (mkReportResult (Reload r) None)
  | _ => match Json.decodeStruct commandFields j (default (mkCommand "" "") (Upgrade r)) with
         | Ok c => Some (mkReportResult (Reload r) (Some c))
         | Err _ => None
         end
  end.

Definition resultFields : list (string * Json.Setter ReportResult) :=
  [("reload", Json.setBool (λ v r, mkReportResult v (Upgrade r))); ("upgrade", setCommand)].

Definition nothing : ReportResult := mkReportResult false None.

Definition decodeReply (reply : StatusReply) : result ReportResult :=
  if 400 <=? sr_Code reply then Err (errorf ("status=" +:+ Itoa (sr_Code reply) +:+ " body=" +:+ excerpt reply))
  else
    match data reply with
    | Err e => Err e
    | Ok body =>
        if bool_decide (TrimSpace (EdgeClient.text body) = "") then Ok nothing
        else
          let failed e := Err (wrapErr ("decode machine status response failed: " +:+ err_msg e) e) in
          match EdgeClient.parsed body with
          | Err e => failed e
          | Ok j => match Json.decodeStruct resultFields j nothing with Ok r => Ok r | Err e => failed e end
          end
    end.

(** The request of [reportMachineStatus], if the profile has what it takes. *)
Definition reportRequest (p : Conf.MachineProfileConfig) (env : Environment) : option (string * Json.Json * Z) :=
  let apiHost := apiHostOf (Conf.mp_APIHost p) in
  if bool_decide (apiHost = "") || bool_decide (TrimSpace (Conf.mp_Key p) = "") || (Conf.mp_MachineID p <=? 0) then None
  else Some (apiHost +:+ PathV2MachineStatus, reportBody p env, if 0 <? Conf.mp_Timeout p then Conf.mp_Timeout p else 30).

Definition reportMachineStatus (panel : StatusPanel) (p : Conf.MachineProfileConfig) (env : Environment) : result ReportResult :=
  match reportRequest p env with
  | None => Ok nothing
  | Some (url, body, timeout) =>
      match panel url body timeout with
      | Err e => Err e
      | Ok reply => decodeReply reply
      end
  end.

(** ** A round of reports

    The effects of a round: the requests, the reloads that were asked for, and
    the state of the upgrade, which later reports of the round show. *)
Record Round := mkRound {
  posted : list (string * Json.Json * Z);
  reloadRequests : nat;
  upgrades : upgradeState
}.

Definition withUpgrade (env : Environment) (r : Round) : Environment :=
  mkEnvironment (systemStatus env) (version env) (agentStatus env) (status (upgrades r)) (nodeFailures env).

(** One profile of [report] in [runMachineStatusReporter]; [now] is the time of
    an upgrade. *)
Definition reportProfile (panel : StatusPanel) (now : Z) (env : Environment) (r : Round) (p : Conf.MachineProfileConfig) : Round :=
  let env := withUpgrade env r in
  let r := mkRound (posted r ++ option_list (reportRequest p env)) (reloadRequests r) (upgrades r) in
  match reportMachineStatus panel p env with
  | Err _ => r
  | Ok result =>
      let r := if Reload result then mkRound (posted r) (S (reloadRequests r)) (upgrades r) else r in
      match Upgrade result with
      | None => r
      | Some command => mkRound (posted r) (reloadRequests r) (upgradeStep (upgrades r) (Requested now (version env) command))
      end
  end.

Definition report (panel : StatusPanel) (now : Z) (env : Environment) (profiles : list Conf.MachineProfileConfig)
    (u : upgradeState) : Round :=
  foldl (reportProfile panel now env) (mkRound [] 0 u) profiles.
End MachineStatus.
