(* ===== verification/MachineStatusProps.v ===== *)
(** * What the reporter and the realtime manager promise

    After every configuration at most one reporter and one manager run, for
    what the configuration asks ([status_current], [realtime_current]); each
    panel is told of its own machine, by its own token, and hears of the
    failures of its own nodes only ([report_each_panel]). *)

From Stdlib Require Import Ascii.
From S2P Require Import Prelude GoStrings Json GoText Conf Panel UserSync Realtime Machine EdgeClient SelfUpdate MachineStatus.

Module MachineStatusProps.
Import GoStrings GoText SelfUpdate MachineStatus.

(** ** Kept services *)

Section kept.
Context {A : Type} (fp : A → string).
Implicit Types (k : Kept A).

(** The remembered service is the only one that runs, under its fingerprint. *)
Definition wfKept k : Prop :=
  match current k with
  | None => ∀ i a b, services k !! i = Some (a, b) → b = false
  | Some (i, f) => (∃ a, services k !! i = Some (a, true) ∧ fp a = f)
                   ∧ ∀ j a b, services k !! j = Some (a, b) → j ≠ i → b = false
  end.

Lemma filter_running_none (l : list (A * bool)) :
  (∀ i a b, l !! i = Some (a, b) → b = false) → filter (λ s, s.2 = true) l = [].
Proof.
  intros H. apply list_filter_none. intros [a b] [i Hi]%list_elem_of_lookup.
  apply H in Hi. by subst.
Qed.

Lemma filter_running_one (l : list (A * bool)) i a :
  l !! i = Some (a, true) → (∀ j a b, l !! j = Some (a, b) → j ≠ i → b = false) → filter (λ s, s.2 = true) l = [(a, true)].
Proof.
  intros Hi Hn. apply list_elem_of_split_length in Hi as (l1 & l2 & -> & ->).
  rewrite filter_app, filter_cons_True by done. rewrite !filter_running_none; [done| |].
  - intros j x b Hj. apply (Hn (length l1 + S j)%nat x); [|lia].
    rewrite lookup_app_r by lia. by replace (length l1 + S j - length l1)%nat with (S j) by lia.
  - intros j x b Hj. apply (Hn j x); [by apply lookup_app_l_Some|]. apply lookup_lt_Some in Hj. lia.
Qed.

Lemma wfKept_none k : wfKept k → current k = None → runningServices k = [].
Proof. unfold wfKept, runningServices. intros Hw Hc. rewrite Hc in Hw. by rewrite filter_running_none. Qed.

Lemma wfKept_some k i f : wfKept k → current k = Some (i, f) → ∃ a, runningServices k = [a] ∧ fp a = f.
Proof.
  unfold wfKept, runningServices. intros Hw Hc. rewrite Hc in Hw. destruct Hw as [(a & Hi & Hf) Hn].
  exists a. by rewrite (filter_running_one _ i a).
Qed.

Lemma stopService_stopped l i : (∀ j a b, l !! j = Some (a, b) → j ≠ i → b = false) →
  ∀ j (a : A) b, stopService i l !! j = Some (a, b) → b = false.
Proof.
  intros H j a b. unfold stopService. rewrite list_lookup_alter_Some. intros [[-> (y & _ & Hy)]|[Hne Hj]]; [congruence|eauto].
Qed.

Lemma newKept_wf : wfKept newKept.
Proof. intros i a b Hi. done. Qed.

Lemma keptClose_wf k : wfKept k → wfKept (keptClose k) ∧ current (keptClose k) = None.
Proof.
  unfold wfKept, keptClose. destruct (current k) as [[i f]|]; cbn; [|done].
  intros [_ Hn]. split; [|done]. by apply stopService_stopped.
Qed.

Lemma started_wf l a f : (∀ i (x : A) b, l !! i = Some (x, b) → b = false) → fp a = f →
  wfKept (mkKept (Some (length l, f)) (l ++ [(a, true)])).
Proof.
  intros H Hf. unfold wfKept. cbn. split.
  - exists a. by rewrite list_lookup_middle.
  - intros j x b Hj Hne. apply lookup_snoc_Some in Hj as [[_ Hj]|[-> _]]; [eauto|done].
Qed.

Lemma keptApply_wf k a : wfKept k → wfKept (keptApply (fp a) a k) ∧ ∃ i, current (keptApply (fp a) a k) = Some (i, fp a).
Proof.
  intros Hw. unfold keptApply. destruct (current k) as [[i f]|] eqn:Hc.
  - case_bool_decide as Hf; [subst f; by eauto|]. split; [|eauto]. apply started_wf; [|done].
    unfold wfKept in Hw. rewrite Hc in Hw. destruct Hw as [_ Hw]. by apply stopService_stopped.
  - split; [|eauto]. apply started_wf; [|done]. unfold wfKept in Hw. by rewrite Hc in Hw.
Qed.

(** Applying a service leaves one that runs, with its fingerprint; closing none. *)
Lemma keptApply_running k a : wfKept k → ∃ b, runningServices (keptApply (fp a) a k) = [b] ∧ fp b = fp a.
Proof. intros Hw. destruct (keptApply_wf k a Hw) as [Hw' [i Hi]]. by eapply wfKept_some. Qed.

Lemma keptClose_running k : wfKept k → runningServices (keptClose k) = [].
Proof. intros Hw. destruct (keptClose_wf k Hw). by apply wfKept_none. Qed.

(** What holds of everything that is started holds of all services. *)
Definition allServices (P : A → Prop) k : Prop := Forall (λ s, P s.1) (services k).

Lemma stopService_all (P : A → Prop) i l : Forall (λ s : A * bool, P s.1) l → Forall (λ s, P s.1) (stopService i l).
Proof.
  rewrite !Forall_forall. intros H [a b] [j Hj]%list_elem_of_lookup. unfold stopService in Hj.
  apply list_lookup_alter_Some in Hj as [(-> & y & Hy & [= -> _])|[_ Hj]].
  - apply (H y). by eapply list_elem_of_lookup_2.
  - apply (H (a, b)). by eapply list_elem_of_lookup_2.
Qed.

Lemma keptClose_all P k : allServices P k → allServices P (keptClose k).
Proof. unfold allServices, keptClose. intros H. destruct (current k) as [[i f]|]; [by apply stopService_all|done]. Qed.

Lemma keptApply_all P f a k : P a → allServices P k → allServices P (keptApply f a k).
Proof.
  unfold allServices, keptApply. intros Ha H. destruct (current k) as [[i g]|]; [case_bool_decide; [done|]|];
    cbn; (apply Forall_app_2; [|by constructor]); [by apply stopService_all|done].
Qed.

Lemma runningServices_all P k a : allServices P k → a ∈ runningServices k → P a.
Proof.
  unfold allServices, runningServices. intros H (s & -> & [_ Hs]%list_elem_of_filter)%list_elem_of_fmap.
  rewrite Forall_forall in H. by apply H.
Qed.

(** After any history of a service whose fingerprints are those of what was
    started, the one that runs after applying [a] has the fingerprint of [a]
    and is one that was started. *)
Definition keptInv (P : A → Prop) k : Prop := wfKept k ∧ allServices P k.

Lemma newKept_inv P : keptInv P newKept.
Proof. split; [apply newKept_wf|constructor]. Qed.

Lemma keptClose_inv P k : keptInv P k → keptInv P (keptClose k).
Proof. intros [Hw Ha]. split; [by apply keptClose_wf|by apply keptClose_all]. Qed.

Lemma keptApply_inv P a k : P a → keptInv P k → keptInv P (keptApply (fp a) a k).
Proof. intros Hp [Hw Ha]. split; [by apply keptApply_wf|by apply keptApply_all]. Qed.

Lemma keptApply_one (P : A → Prop) a k : P a → keptInv P k →
  ∃ b, runningServices (keptApply (fp a) a k) = [b] ∧ P b ∧ fp b = fp a.
Proof.
  intros Hp Hk. destruct (keptApply_running k a (proj1 Hk)) as (b & Hb & Hf). exists b. split_and!; [done| |done].
  apply (runningServices_all P (keptApply (fp a) a k)); [by apply keptApply_inv|]. rewrite Hb. by apply list_elem_of_singleton.
Qed.
End kept.

(** ** Fingerprints of plain profiles

    No separators in addresses and keys, machine numbers that fit. *)

Definition plain (s : string) : Prop := Forall (λ a, a ≠ "#"%char ∧ a ≠ "010"%char) (bytes s).

Definition plainProfile (p : Conf.MachineProfileConfig) : Prop :=
  plain (Conf.mp_APIHost p) ∧ plain (Conf.mp_Key p) ∧ 0 < Conf.mp_MachineID p.

Definition plainRealtime (rt : Conf.RealtimeConfig) : Prop :=
  plain (TrimSpace (Conf.rc_URL rt)) ∧ i64 (Conf.PingInterval rt) ∧ i64 (Conf.ReconnectInterval rt).

Lemma plain_no c s : c = "#"%char ∨ c = "010"%char → plain s → Forall (λ a, a ≠ c) (bytes s).
Proof. intros Hc Hs. eapply Forall_impl; [exact Hs|]. intros a [? ?]. by destruct Hc as [-> | ->]. Qed.

Lemma digits_plain l : Forall (λ a, is_digit a = true) l → Forall (λ a, a ≠ "#"%char ∧ a ≠ "010"%char) l.
Proof. intros H. eapply Forall_impl; [exact H|]. intros a Ha. split; intros ->; done. Qed.

Lemma Itoa_plainField z : plain (Itoa z).
Proof.
  unfold plain. destruct (Z.leb_spec 0 z).
  - by apply digits_plain, Itoa_digits.
  - unfold Itoa. destruct (Z.ltb_spec z 0); [|lia]. rewrite bytes_app. apply Forall_app_2; [by repeat constructor|].
    replace (Z.abs_N z) with (Z.to_N (- z)) by lia. rewrite <- (app_nil_l (bytes _)).
    pose proof (Itoa_digits (- z)) as Hd. unfold Itoa in Hd. destruct (Z.ltb_spec (- z) 0); [lia|].
    replace (Z.abs_N (- z)) with (Z.to_N (- z)) in Hd by lia. apply digits_plain, Hd. lia.
Qed.

Lemma boolFingerprint_plain b : plain (boolFingerprint b).
Proof. destruct b; repeat constructor; done. Qed.

Lemma plain_app s t : plain s → plain t → plain (s +:+ t).
Proof. unfold plain. rewrite bytes_app. apply Forall_app_2. Qed.

(** Fields joined with a separator are got back by splitting. *)
Lemma Split_fields l : l ≠ [] → Forall plain l → Split "#"%char (Join "#" l) = l.
Proof.
  intros Hne Hl. change "#" with (String "#" EmptyString). apply Split_Join; [done|].
  eapply Forall_impl; [exact Hl|]. intros s. apply plain_no. by left.
Qed.

Lemma Join_line l : Forall plain l → Forall (λ a, a ≠ "010"%char) (bytes (Join "#" l)).
Proof.
  induction 1 as [|s l Hs Hl IH]; [constructor|]. destruct l as [|t l]; [apply plain_no; [by right|done]|].
  change (Join "#" (s :: t :: l)) with (s +:+ "#" +:+ Join "#" (t :: l)). rewrite !bytes_app.
  apply Forall_app_2; [apply plain_no; [by right|done]|]. constructor; [done|exact IH].
Qed.

(** Two sorted lists of lines with the same text have the same lines. *)
Lemma fingerprint_lines l k : l ≠ [] → k ≠ [] →
  Forall (λ s, Forall (λ a, a ≠ "010"%char) (bytes s)) l → Forall (λ s, Forall (λ a, a ≠ "010"%char) (bytes s)) k →
  Join newline (sortStrings l) = Join newline (sortStrings k) → l ≡ₚ k.
Proof.
  intros Hl Hk Fl Fk E. rewrite <- (sortStrings_Permutation l), <- (sortStrings_Permutation k).
  apply (f_equal (Split "010"%char)) in E. unfold newline in E. rewrite !Split_Join in E; [by rewrite E|..].
  - intros E'. apply Hk. apply Permutation_nil_r. by rewrite <- (sortStrings_Permutation k), E'.
  - by rewrite sortStrings_Permutation.
  - intros E'. apply Hl. apply Permutation_nil_r. by rewrite <- (sortStrings_Permutation l), E'.
  - by rewrite sortStrings_Permutation.
Qed.

(** *** The fingerprint of the reporter *)

Definition statusFields (p : Conf.MachineProfileConfig) : list string :=
  [Conf.mp_APIHost p; Itoa (Conf.mp_MachineID p); Conf.mp_Key p].

Lemma statusPart_Join p : statusPart p = Join "#" (statusFields p).
Proof. done. Qed.

Lemma statusFields_plain p : plainProfile p → Forall plain (statusFields p).
Proof. intros (Hh & Hk & _). repeat constructor; [done|apply Itoa_plainField|done]. Qed.

(** What a report depends on, the time limit and the name aside. *)
Definition identity (p : Conf.MachineProfileConfig) : string * Z * string :=
  (Conf.mp_APIHost p, Conf.mp_MachineID p, Conf.mp_Key p).

Lemma statusFields_identity p q : 0 < Conf.mp_MachineID p → 0 < Conf.mp_MachineID q →
  statusFields p = statusFields q → identity p = identity q.
Proof. intros Hp Hq [= Hh Hi Hk]. apply Itoa_nonneg_inj in Hi; [|lia..]. unfold identity. congruence. Qed.

(** Lists with the same images, in some order, correspond. *)
Lemma fmap_Permutation_inv {A B} (f : A → B) l k : f <$> l ≡ₚ f <$> k → ∃ k', k' ≡ₚ k ∧ f <$> l = f <$> k'.
Proof.
  intros H. destruct (Permutation_map_inv f k H) as (k' & Hk' & Hp). exists k'. split; [by symmetry|done].
Qed.

Lemma fmap_eq_Forall2 {A B} (f : A → B) l k : f <$> l = f <$> k → Forall2 (λ x y, f x = f y) l k.
Proof. revert k. induction l as [|x l IH]; intros [|y k] H; [constructor|done|done|]. injection H as Hx H. constructor; auto. Qed.

Lemma statusFingerprint_identity l k : l ≠ [] → k ≠ [] → Forall plainProfile l → Forall plainProfile k →
  machineStatusFingerprint l = machineStatusFingerprint k → identity <$> l ≡ₚ identity <$> k.
Proof.
  intros Hl Hk Fl Fk E. unfold machineStatusFingerprint in E. apply fingerprint_lines in E.
  - apply (fmap_Permutation (Split "#"%char)) in E. rewrite <- !list_fmap_compose in E.
    assert (Hf : ∀ m, Forall plainProfile m → (Split "#"%char ∘ statusPart) <$> m = statusFields <$> m).
    { intros m Hm. apply list_fmap_ext. intros i p Hp. cbn. rewrite statusPart_Join. apply Split_fields; [done|].
      apply statusFields_plain. by eapply Forall_lookup_1. }
    rewrite !Hf in E by done. apply fmap_Permutation_inv in E as (k' & Hp & E). rewrite <- Hp.
    apply fmap_eq_Forall2 in E. rewrite <- Hp in Fk. clear -E Fl Fk. apply reflexive_eq.
    induction E as [|p q l k Hpq E IH]; [done|]. apply Forall_cons in Fl as [(_ & _ & Hp) Fl]. apply Forall_cons in Fk as [(_ & _ & Hq) Fk].
    cbn. f_equal; [by apply statusFields_identity|by apply IH].
  - by destruct l.
  - by destruct k.
  - apply Forall_fmap. eapply Forall_impl; [exact Fl|]. intros p Hp. change (Forall (λ a, a ≠ "010"%char) (bytes (Join "#" (statusFields p)))). by apply Join_line, statusFields_plain.
  - apply Forall_fmap. eapply Forall_impl; [exact Fk|]. intros p Hp. change (Forall (λ a, a ≠ "010"%char) (bytes (Join "#" (statusFields p)))). by apply Join_line, statusFields_plain.
Qed.

(** *** The fingerprint of the realtime manager *)

Lemma realtimeFields_plain rt : plainRealtime rt → Forall plain (realtimeFields rt).
Proof. intros (Hu & _ & _). repeat (constructor; [first [apply boolFingerprint_plain|done|apply Itoa_plainField]|]). constructor. Qed.

Definition plainBoth (p : Conf.MachineProfileConfig) : Prop := plainProfile p ∧ plainRealtime (Conf.mp_Realtime p).

Lemma profileFields_plain p : plainBoth p → Forall plain (profileFields p).
Proof.
  intros [(Hh & Hk & _) Hr]. unfold profileFields. apply Forall_app_2; [|by apply realtimeFields_plain].
  repeat constructor; [done|apply Itoa_plainField|done].
Qed.

Lemma boolFingerprint_inj a b : boolFingerprint a = boolFingerprint b → a = b.
Proof. by destruct a, b. Qed.

(** What the options of a connection depend on. *)
Lemma realtimeFields_inj rt rt' : plainRealtime rt → plainRealtime rt' → realtimeFields rt = realtimeFields rt' →
  Conf.rc_Enabled rt = Conf.rc_Enabled rt' ∧ TrimSpace (Conf.rc_URL rt) = TrimSpace (Conf.rc_URL rt')
  ∧ Conf.PingInterval rt = Conf.PingInterval rt' ∧ Conf.ReconnectInterval rt = Conf.ReconnectInterval rt'.
Proof.
  intros (_ & Hp & Hr) (_ & Hp' & Hr') E. unfold realtimeFields in E.
  assert (He : boolFingerprint (Conf.rc_Enabled rt) = boolFingerprint (Conf.rc_Enabled rt')) by congruence.
  assert (Hpi : Itoa (Conf.PingInterval rt) = Itoa (Conf.PingInterval rt')) by congruence.
  assert (Hri : Itoa (Conf.ReconnectInterval rt) = Itoa (Conf.ReconnectInterval rt')) by congruence.
  split_and!; [by apply boolFingerprint_inj|congruence|by apply Itoa_inj|by apply Itoa_inj].
Qed.

Lemma resolve_fields `{Realtime.NetURL} p q rt rt' : plainBoth p → plainBoth q → plainRealtime rt → plainRealtime rt' →
  profileFields p = profileFields q → realtimeFields rt = realtimeFields rt' →
  Realtime.resolveMachineRealtimeOptions p rt = Realtime.resolveMachineRealtimeOptions q rt'.
Proof.
  intros [(_ & _ & Hp) Hrp] [(_ & _ & Hq) Hrq] Hrt Hrt' E Ert. unfold profileFields in E. cbn [app] in E.
  assert (Hh : Conf.mp_APIHost p = Conf.mp_APIHost q) by congruence.
  assert (Hi : Itoa (Conf.mp_MachineID p) = Itoa (Conf.mp_MachineID q)) by congruence.
  apply Itoa_nonneg_inj in Hi; [|lia..]. assert (Hk : Conf.mp_Key p = Conf.mp_Key q) by congruence.
  assert (Er : realtimeFields (Conf.mp_Realtime p) = realtimeFields (Conf.mp_Realtime q)) by congruence.
  apply realtimeFields_inj in Er as (He & Hu & Hpi & _); [|done..].
  apply realtimeFields_inj in Ert as (He' & Hu' & Hpi' & Hri'); [|done..].
  unfold Realtime.resolveMachineRealtimeOptions. by rewrite Hh, Hi, Hk, He, Hu, Hpi, He', Hu', Hpi', Hri'.
Qed.

(** The line of the fallback has other fields than those of profiles. *)
Lemma realtimeFingerprint_fields l k rt rt' :
  Forall plainBoth l → Forall plainBoth k → plainRealtime rt → plainRealtime rt' →
  machineRealtimeFingerprint l rt = machineRealtimeFingerprint k rt' →
  realtimeFields rt = realtimeFields rt' ∧ profileFields <$> l ≡ₚ profileFields <$> k.
Proof.
  intros Fl Fk Hrt Hrt' E. unfold machineRealtimeFingerprint in E.
  assert (Hlines : ∀ m r, Forall plainBoth m → plainRealtime r → Forall (λ s, Forall (λ a, a ≠ "010"%char) (bytes s))
    (Join "#" (realtimeFields r) :: ((λ p, Join "#" (profileFields p)) <$> m))).
  { intros m r Hm Hr. constructor; [by apply Join_line, realtimeFields_plain|]. apply Forall_fmap.
    eapply Forall_impl; [exact Hm|]. intros p Hp. by apply Join_line, profileFields_plain. }
  apply fingerprint_lines in E; [|done|done|by apply Hlines..].
  apply (fmap_Permutation (Split "#"%char)) in E. cbn [fmap list_fmap] in E.
  assert (Hf : ∀ m r, Forall plainBoth m → plainRealtime r →
    Split "#"%char (Join "#" (realtimeFields r)) :: (Split "#"%char <$> ((λ p, Join "#" (profileFields p)) <$> m))
    = realtimeFields r :: (profileFields <$> m)).
  { intros m r Hm Hr. rewrite Split_fields by (done || by apply realtimeFields_plain). f_equal.
    rewrite <- list_fmap_compose. apply list_fmap_ext. intros i p Hp. apply Split_fields; [done|].
    apply profileFields_plain. by eapply Forall_lookup_1. }
  unfold fmap in Hf. rewrite !Hf in E by done. fold (fmap (M := list) (A := Conf.MachineProfileConfig) profileFields) in E.
  assert (Hfil : ∀ m r, filter (λ f, length f = 4%nat) (realtimeFields r :: (profileFields <$> m)) = [realtimeFields r]
    ∧ filter (λ f, length f = 7%nat) (realtimeFields r :: (profileFields <$> m)) = profileFields <$> m).
  { intros m r. rewrite filter_cons_True by done. rewrite filter_cons_False by done. split.
    - rewrite list_filter_none; [done|]. intros x (p & -> & _)%list_elem_of_fmap. done.
    - apply list_filter_all, Forall_fmap, Forall_true. done. }
  split.
  - apply (filter_Permutation (λ f, length f = 4%nat)) in E. rewrite !(proj1 (Hfil _ _)) in E.
    apply Permutation_singleton_r in E. congruence.
  - apply (filter_Permutation (λ f, length f = 7%nat)) in E. by rewrite !(proj2 (Hfil _ _)) in E.
Qed.

Lemma clients_fields `{Realtime.NetURL} l k rt rt' :
  Forall plainBoth l → Forall plainBoth k → plainRealtime rt → plainRealtime rt' →
  machineRealtimeFingerprint l rt = machineRealtimeFingerprint k rt' →
  clients (mkManager l rt) ≡ₚ clients (mkManager k rt').
Proof.
  intros Fl Fk Hrt Hrt' E. apply realtimeFingerprint_fields in E as [Er E]; [|done..].
  apply fmap_Permutation_inv in E as (k' & Hp & E). unfold clients. cbn. rewrite <- Hp. rewrite <- Hp in Fk.
  apply fmap_eq_Forall2 in E. clear Hp k. apply reflexive_eq.
  induction E as [|p q l k Hpq E IH]; [done|]. apply Forall_cons in Fl as [Hp Fl]. apply Forall_cons in Fk as [Hq Fk].
  cbn. rewrite (resolve_fields p q rt rt') by done. by rewrite (IH Fl Fk).
Qed.

(** ** What runs *)

(** What a configuration asks of the background services. *)
Definition asked (m : Conf.MachineConfig) : list Conf.MachineProfileConfig :=
  if Conf.mc_Enabled m then normalizeProfiles (Conf.Profiles m) else [].

Definition plainMachine (m : Conf.MachineConfig) : Prop := Forall plainBoth (normalizeProfiles (Conf.Profiles m)).

Definition goodProfiles (ps : list Conf.MachineProfileConfig) : Prop := ps ≠ [] ∧ Forall plainBoth ps.

Lemma asked_cases {B} m (x : B) (f : list Conf.MachineProfileConfig → B) :
  (if negb (Conf.mc_Enabled m) || bool_decide (length (normalizeProfiles (Conf.Profiles m)) = 0%nat)
   then x else f (normalizeProfiles (Conf.Profiles m)))
  = match asked m with [] => x | ps => f ps end.
Proof. unfold asked. destruct (Conf.mc_Enabled m); [|done]. by destruct (normalizeProfiles _). Qed.

Lemma asked_good m : plainMachine m → asked m ≠ [] → goodProfiles (asked m).
Proof. intros Hm Hne. split; [done|]. unfold asked in *. by destruct (Conf.mc_Enabled m). Qed.

Lemma applyStatus_asked m k :
  applyStatus m k = match asked m with [] => keptClose k | ps => keptApply (machineStatusFingerprint ps) ps k end.
Proof. unfold applyStatus. apply (asked_cases m (keptClose k) (λ ps, keptApply (machineStatusFingerprint ps) ps k)). Qed.

(** A history of [Apply], and of [Close] where there is no configuration. *)
Definition statusStep (k : Kept (list Conf.MachineProfileConfig)) (o : option Conf.MachineConfig) :=
  match o with Some m => applyStatus m k | None => keptClose k end.

Definition onPlain (P : Conf.MachineConfig → Prop) (o : option Conf.MachineConfig) : Prop :=
  match o with Some m => P m | None => True end.

Lemma applyStatus_inv m k : plainMachine m → keptInv machineStatusFingerprint goodProfiles k →
  keptInv machineStatusFingerprint goodProfiles (applyStatus m k).
Proof.
  intros Hm Hk. rewrite applyStatus_asked. pose proof (asked_good m Hm) as Hg.
  destruct (asked m) as [|p ps]; [by apply keptClose_inv|by apply keptApply_inv; [apply Hg|]].
Qed.

Lemma statusHistory_inv h : Forall (onPlain plainMachine) h →
  keptInv machineStatusFingerprint goodProfiles (foldl statusStep newKept h).
Proof.
  intros Hh. apply (foldl_invariant (keptInv machineStatusFingerprint goodProfiles)); [apply newKept_inv|].
  rewrite Forall_forall in Hh. intros k [m|] Ho Hk; [by apply applyStatus_inv; [apply (Hh _ Ho)|]|by apply keptClose_inv].
Qed.

(** What runs after a configuration. *)
Definition reports m (running : list (list Conf.MachineProfileConfig)) : Prop :=
  match asked m with
  | [] => running = []
  | _ => ∃ ps, running = [ps] ∧ identity <$> ps ≡ₚ identity <$> asked m
  end.

Lemma applyStatus_running m k : plainMachine m → keptInv machineStatusFingerprint goodProfiles k →
  reports m (runningServices (applyStatus m k)).
Proof.
  intros Hm Hk. unfold reports. rewrite applyStatus_asked. pose proof (asked_good m Hm) as Hg. destruct (asked m) as [|p ps].
  - by eapply keptClose_running, Hk.
  - destruct (keptApply_one machineStatusFingerprint goodProfiles (p :: ps) k) as (qs & Hr & [Hne Hq] & Hf); [by apply Hg|done|].
    exists qs. split; [done|]. apply statusFingerprint_identity; [done|done| | |exact Hf].
    + eapply Forall_impl; [exact Hq|]. by intros ? [? _].
    + eapply Forall_impl; [apply Hg; done|]. by intros ? [? _].
Qed.

(** C24. Whatever was applied and closed before: after a configuration exactly one
    reporter runs if the configuration asks for one, and it reports for the
    machines of that configuration, with their addresses and keys; otherwise
    none runs. *)
Theorem status_current h m : Forall (onPlain plainMachine) h → plainMachine m →
  let running := runningServices (applyStatus m (foldl statusStep newKept h)) in
  match asked m with
  | [] => running = []
  | _ => ∃ ps, running = [ps] ∧ identity <$> ps ≡ₚ identity <$> asked m
  end.
Proof. intros Hh Hm. apply (applyStatus_running m); [done|by apply statusHistory_inv]. Qed.

(** *** The realtime connections *)

Definition managerFingerprint (g : Manager) : string := machineRealtimeFingerprint (mg_profiles g) (fallback g).

Definition goodManager (g : Manager) : Prop := Forall plainBoth (mg_profiles g) ∧ plainRealtime (fallback g).

(** What [Apply] leaves when it returns. *)
Definition applied m rt (k : Kept Manager) : Kept Manager :=
  match asked m with [] => keptClose k | ps => keptApply (managerFingerprint (mkManager ps rt)) (mkManager ps rt) k end.

Lemma closeRealtime_returned `{Realtime.NetURL} ends k k' : closeRealtime ends k = Returned k' → k' = keptClose k.
Proof. unfold closeRealtime. destruct (closeWaits ends k); [done|]. by intros [= <-]. Qed.

Lemma applyRealtime_returned `{Realtime.NetURL} ends m rt k k' : applyRealtime ends m rt k = Returned k' → k' = applied m rt k.
Proof.
  unfold applyRealtime, applied, asked. destruct (Conf.mc_Enabled m); cbn [negb orb]; [|apply closeRealtime_returned].
  destruct (normalizeProfiles _) as [|p ps]; cbn [length]; [rewrite bool_decide_true by done; apply closeRealtime_returned|].
  rewrite bool_decide_false by done. destruct (_ && closeWaits ends k); [done|]. by intros [= <-].
Qed.

Lemma ending_returns `{Realtime.NetURL} k : closeWaits true k = false.
Proof. unfold closeWaits. destruct (current k) as [[i f]|]; [|done]. by destruct (services k !! i) as [[g b]|]. Qed.

(** Calls that have returned. *)
Definition realtimeStep `{Realtime.NetURL} (k : option (Kept Manager)) (e : bool * option (Conf.MachineConfig * Conf.RealtimeConfig)) :=
  k ≫= λ k, match (match e.2 with Some (m, rt) => applyRealtime e.1 m rt k | None => closeRealtime e.1 k end) with
            | Returned k => Some k
            | Waits _ => None
            end.

Definition plainPair (e : bool * option (Conf.MachineConfig * Conf.RealtimeConfig)) : Prop :=
  match e.2 with Some (m, rt) => plainMachine m ∧ plainRealtime rt | None => True end.

Lemma applied_inv m rt k : plainMachine m → plainRealtime rt → keptInv managerFingerprint goodManager k →
  keptInv managerFingerprint goodManager (applied m rt k).
Proof.
  intros Hm Hrt Hk. unfold applied. pose proof (asked_good m Hm) as Hg.
  destruct (asked m) as [|p ps]; [by apply keptClose_inv|]. apply keptApply_inv; [|done]. split; [by apply Hg|done].
Qed.

Lemma realtimeHistory_inv `{Realtime.NetURL} h k : Forall plainPair h → foldl realtimeStep (Some newKept) h = Some k →
  keptInv managerFingerprint goodManager k.
Proof.
  revert k. induction h as [|e h IH] using rev_ind; intros k Hh;
    [intros E; cbn in E; injection E as <-; apply newKept_inv|].
  apply Forall_app in Hh as [Hh He]. rewrite foldl_app. cbn. destruct (foldl realtimeStep _ h) as [k0|]; [|done].
  specialize (IH k0 Hh eq_refl). rewrite Forall_singleton in He. destruct e as [b o]. cbn in *. revert k.
  destruct o as [[m rt]|].
  - intros k. destruct (applyRealtime b m rt k0) as [k2|] eqn:E; [|done]. intros [= <-]. apply applyRealtime_returned in E as ->. destruct He. by apply applied_inv.
  - intros k. destruct (closeRealtime b k0) as [k2|] eqn:E; [|done]. intros [= <-]. apply closeRealtime_returned in E as ->. by apply keptClose_inv.
Qed.

(** What is connected after a configuration. *)
Definition connects `{Realtime.NetURL} m rt (running : list Manager) : Prop :=
  match asked m with
  | [] => running = []
  | _ => ∃ g, running = [g] ∧ clients g ≡ₚ clients (mkManager (asked m) rt)
  end.

Lemma applied_running `{Realtime.NetURL} m rt k : plainMachine m → plainRealtime rt → keptInv managerFingerprint goodManager k →
  connects m rt (runningServices (applied m rt k)).
Proof.
  intros Hm Hrt Hk. unfold connects, applied. pose proof (asked_good m Hm) as Hg. destruct (asked m) as [|p ps].
  - by eapply keptClose_running, Hk.
  - destruct (keptApply_one managerFingerprint goodManager (mkManager (p :: ps) rt) k) as (g & Hr & [Hq Hq'] & Hf);
      [split; [by apply Hg|done]|done|].
    exists g. split; [done|]. destruct g as [qs rt']. apply clients_fields; [done|by apply Hg|done|done|exact Hf].
Qed.

(** Whatever was applied and closed before: when [Apply] has returned exactly one
    manager runs if the configuration asks for one, and its connections have
    exactly the options that the configuration gives; otherwise none runs. *)
Theorem realtime_current `{Realtime.NetURL} h k m rt ends k' : Forall plainPair h → plainMachine m → plainRealtime rt →
  foldl realtimeStep (Some newKept) h = Some k → applyRealtime ends m rt k = Returned k' →
  match asked m with
  | [] => runningServices k' = []
  | _ => ∃ g, runningServices k' = [g] ∧ clients g ≡ₚ clients (mkManager (asked m) rt)
  end.
Proof.
  intros Hh Hm Hrt Hk Hk'. apply applyRealtime_returned in Hk' as ->.
  apply (applied_running m rt); [done|done|by eapply realtimeHistory_inv].
Qed.

(** ** Reports *)

Section reports.
Context (panel : StatusPanel) (now : Z) (env : Environment).

(** What a panel is told: its address, the machine, the token, and a status
    whose failures are those of the nodes of this machine on this panel. *)
Definition tells (p : Conf.MachineProfileConfig) (request : string * Json.Json * Z) : Prop :=
  request.1.1 = Conf.mp_APIHost p +:+ PathV2MachineStatus
  ∧ request.2 = (if 0 <? Conf.mp_Timeout p then Conf.mp_Timeout p else 30)
  ∧ ∃ members, request.1.2 = Json.JObject [("machine_id", Json.JNumber (Itoa (Conf.mp_MachineID p)));
                                           ("status", Json.JObject members); ("token", Json.JString (Conf.mp_Key p))]
    ∧ NoDup members.*1
    ∧ ("node_failures", Json.JArray (failureItem <$>
         filter (λ f, apiHostOf (Conf.APIHost (Machine.nf_Config f)) = Conf.mp_APIHost p
                      ∧ Conf.MachineID (Machine.nf_Config f) = Conf.mp_MachineID p) (nodeFailures env))) ∈ members
    ∧ ("version", Json.JString (version env)) ∈ members.

(** A profile as [normalizeProfiles] leaves it. *)
Definition normal (p : Conf.MachineProfileConfig) : Prop := normalizeProfile p = Some p.

Lemma mapJSON_members (m : gmap string Json.Json) : ∃ members, mapJSON m = Json.JObject members ∧ NoDup members.*1
  ∧ ∀ k j, m !! k = Some j → (k, j) ∈ members.
Proof.
  eexists. split; [done|]. split.
  - rewrite <- list_fmap_compose. rewrite (list_fmap_ext _ id) by done. rewrite list_fmap_id, sortStrings_Permutation.
    apply NoDup_fst_map_to_list.
  - intros k j Hj. apply list_elem_of_fmap. exists k. split; [by rewrite Hj|]. rewrite sortStrings_Permutation.
    apply list_elem_of_fmap. exists (k, j). split; [done|]. by apply elem_of_map_to_list.
Qed.

Lemma statusPayload_lookup p e :
  statusPayload p e !! "node_failures" = Some (Json.JArray (buildMachineNodeFailurePayload p (nodeFailures e)))
  ∧ statusPayload p e !! "version" = Some (Json.JString (version e)).
Proof.
  unfold statusPayload. split; [by rewrite lookup_insert_eq|].
  destruct (agentStatus e), (upgrade e); by rewrite !lookup_insert_ne, lookup_insert_eq by done.
Qed.

Lemma normal_fields p : normal p → apiHostOf (Conf.mp_APIHost p) = Conf.mp_APIHost p ∧ TrimSpace (Conf.mp_Key p) = Conf.mp_Key p
  ∧ Conf.mp_APIHost p ≠ "" ∧ Conf.mp_Key p ≠ "" ∧ 0 < Conf.mp_MachineID p.
Proof.
  unfold normal, normalizeProfile. destruct p as [n h k i t d r]. cbn. repeat case_bool_decide; cbn; try done.
  destruct (Z.leb_spec i 0); [done|]. intros [= Hh Hk]. rewrite Hh, Hk in *. split_and!; done || lia.
Qed.

Lemma reportRequest_tells p u : normal p → ∃ request,
  reportRequest p (withUpgrade env u) = Some request ∧ tells p request.
Proof.
  intros Hp. destruct (normal_fields p Hp) as (Hh & Hk & Hh' & Hk' & Hi). unfold reportRequest. rewrite Hh, Hk.
  rewrite !bool_decide_eq_false_2 by done. destruct (Z.leb_spec (Conf.mp_MachineID p) 0); [lia|]. cbn [orb].
  eexists. split; [reflexivity|]. unfold tells. cbn [fst snd]. split_and!; [done|done|].
  destruct (mapJSON_members (statusPayload p (withUpgrade env u))) as (members & E & Hnd & Hin). exists members.
  unfold reportBody. rewrite E, Hk. destruct (statusPayload_lookup p (withUpgrade env u)) as [Hf Hv].
  split_and!; [done|done| |by apply Hin].
  rewrite (list_filter_ext_in _ (ownFailure p)) by (intros f _; unfold ownFailure; by rewrite Hh). by apply Hin.
Qed.

Lemma reportProfile_posted r p : normal p → ∃ request,
  posted (reportProfile panel now env r p) = posted r ++ [request] ∧ tells p request.
Proof.
  intros Hp. destruct (reportRequest_tells p r Hp) as (request & E & Ht). exists request. split; [|done].
  unfold reportProfile. rewrite E. cbn [option_list].
  destruct (reportMachineStatus panel p (withUpgrade env r)) as [[rl up]|e]; [|done]. by destruct rl, up.
Qed.

(** C30. A round of reports makes one request for each profile, in order, whatever
    the panels answer to the others. Each request goes to the profile's own
    panel, with its own token, and the failures it lists are those of the nodes
    of this machine on this panel. *)
Theorem report_each_panel profiles u : Forall normal profiles →
  Forall2 tells profiles (posted (report panel now env profiles u)).
Proof.
  unfold report. intros Hp.
  enough (H : ∀ r, ∃ requests, posted (foldl (reportProfile panel now env) r profiles) = posted r ++ requests ∧ Forall2 tells profiles requests).
  { destruct (H (mkRound [] 0 u)) as (requests & -> & ?). done. }
  induction Hp as [|p ps Hp Hps IH]; intros r; [exists []; by rewrite app_nil_r|].
  cbn [foldl]. destruct (reportProfile_posted r p Hp) as (request & E & Ht).
  destruct (IH (reportProfile panel now env r p)) as (requests & E' & Hts). exists (request :: requests).
  split; [|by constructor]. by rewrite E', E, <- app_assoc.
Qed.
End reports.

Module Examples.
Definition exampleProfile (host : string) (timeout : Z) : Conf.MachineProfileConfig :=
  Conf.mkMachineProfileConfig "p" host "key" 7 timeout "" Conf.zeroRealtime.

Definition exampleMachine (timeout : Z) : Conf.MachineConfig :=
  Conf.mkMachineConfig true true [exampleProfile " https://a.org/ " timeout; exampleProfile "" 5; exampleProfile "https://b.org" timeout].

Lemma exampleMachine_plain timeout : plainMachine (exampleMachine timeout).
Proof.
  unfold plainMachine. change (Forall plainBoth [exampleProfile "https://a.org" timeout; exampleProfile "https://b.org" timeout]).
  repeat constructor; try discriminate.
Qed.

Lemma status_current_witness :
  let k := applyStatus (exampleMachine 9) (foldl statusStep newKept [Some (exampleMachine 5); None; Some (exampleMachine 5)]) in
  ∃ ps, runningServices k = [ps] ∧ identity <$> ps ≡ₚ [("https://a.org", 7, "key"); ("https://b.org", 7, "key")].
Proof.
  apply (status_current [Some (exampleMachine 5); None; Some (exampleMachine 5)] (exampleMachine 9)).
  - constructor; [apply exampleMachine_plain|]. constructor; [exact I|]. constructor; [apply exampleMachine_plain|constructor].
  - apply exampleMachine_plain.
Defined.

(** The fingerprint of the reporter leaves the time limit out, so that a changed
    limit is not applied. *)
Example status_timeout_stale :
  let k := applyStatus (exampleMachine 9) (applyStatus (exampleMachine 5) newKept) in
  map (map Conf.mp_Timeout) (runningServices k) = [[5; 5]]
  ∧ map Conf.mp_Timeout (asked (exampleMachine 9)) = [9; 9].
Proof. vm_compute. split; reflexivity. Qed.

#[local] Instance exampleURL : Realtime.NetURL := {
  Realtime.ParsedURL := string; Realtime.Parse := λ s, Some s; Realtime.Scheme := λ _, "https"; Realtime.Host := λ s, s;
  Realtime.StringWith := λ s scheme path, scheme +:+ "://" +:+ s +:+ path }.

Definition exampleRealtime (ping : Z) : Conf.RealtimeConfig := Conf.mkRealtimeConfig true "" ping 0.

Lemma exampleRealtime_plain z : i64 z → plainRealtime (exampleRealtime z).
Proof.
  intros Hz. unfold plainRealtime. split; [|split; [exact Hz|]].
  - change (TrimSpace (Conf.rc_URL (exampleRealtime z))) with "". apply Forall_nil_2.
  - change (i64 0). unfold i64. lia.
Qed.

Lemma realtime_current_witness :
  match foldl realtimeStep (Some newKept) [(true, Some (exampleMachine 5, exampleRealtime 10))] with
  | Some k => match applyRealtime true (exampleMachine 9) (exampleRealtime 20) k with
              | Returned k => ∃ g, runningServices k = [g]
                  ∧ map Realtime.PingInterval (clients g) = [20 * Realtime.second; 20 * Realtime.second]
              | Waits _ => False
              end
  | None => False
  end.
Proof.
  destruct (foldl realtimeStep _ _) as [k|] eqn:Ek; [|vm_compute in Ek; discriminate Ek].
  destruct (applyRealtime true _ _ k) as [k'|] eqn:E; [|exfalso; vm_compute in Ek; injection Ek as <-; vm_compute in E; discriminate E].
  destruct (@realtime_current exampleURL [(true, Some (exampleMachine 5, exampleRealtime 10))] k (exampleMachine 9) (exampleRealtime 20) true k')
    as (g & Hg & Hc); [| | |exact Ek|exact E|].
  - constructor; [split; [apply exampleMachine_plain|apply exampleRealtime_plain; unfold i64; lia]|constructor].
  - apply exampleMachine_plain.
  - apply exampleRealtime_plain. unfold i64. lia.
  - exists g. split; [exact Hg|]. apply (fmap_Permutation Realtime.PingInterval) in Hc. revert Hc.
    replace (Realtime.PingInterval <$> clients (mkManager (asked (exampleMachine 9)) (exampleRealtime 20)))
      with (replicate 2 (20 * Realtime.second)) by (vm_compute; reflexivity).
    intros Hc. symmetry in Hc. by apply replicate_Permutation in Hc.
Defined.

(** The first panel is down; the second is asked all the same, and wants an upgrade. *)
Definition examplePanel : StatusPanel := λ url _ _,
  if bool_decide (url = "https://a.org/api/v2/server/machine/status") then Err (errorf "down")
  else Ok (mkStatusReply 200 "" (Ok (EdgeClient.mkBody "{}" (Ok (Json.JObject
    [("reload", Json.JBool true);
     ("upgrade", Json.JObject [("id", Json.JString "u1"); ("target_version", Json.JString "v2")])]))))).

Definition exampleFailure (host : string) (id : Z) : Machine.NodeFailure :=
  Machine.mkNodeFailure (Conf.mkNodeConfig host id "key" 7 0 "") (Some (errorf "no such node")).

Definition exampleEnv : Environment :=
  mkEnvironment {["cpu" := Json.JNumber "5"]} "v1" None None [exampleFailure "https://a.org/" 1; exampleFailure "https://b.org" 2].

Definition exampleRound : Round := report examplePanel 3 exampleEnv (asked (exampleMachine 9)) (mkUpgradeState None []).

Lemma report_each_panel_witness :
  Forall2 (tells exampleEnv) (asked (exampleMachine 9)) (posted exampleRound)
  ∧ reloadRequests exampleRound = 1%nat
  ∧ map (λ c, cmd_ID c.1) (launched (upgrades exampleRound)) = ["u1"].
Proof.
  split; [|split; vm_compute; reflexivity].
  apply (report_each_panel examplePanel 3 exampleEnv (asked (exampleMachine 9)) (mkUpgradeState None [])).
  change (Forall normal [exampleProfile "https://a.org" 9; exampleProfile "https://b.org" 9]).
  constructor; [vm_compute; reflexivity|]. constructor; [vm_compute; reflexivity|constructor].
Defined.
End Examples.
End MachineStatusProps.
