(* ===== verification/RuntimeSettings.v ===== *)
(** * Limits of the Go runtime (cmd/runtime.go)

    The memory limit and the garbage collector's target that the configuration
    sets; [GoRuntime] is what [debug.SetMemoryLimit] and [debug.SetGCPercent]
    set. *)

From Stdlib Require Import Ascii.
From S2P Require Import Prelude GoStrings GoText Conf EdgeSidecar.

Module RuntimeSettings.
Import GoStrings GoText.

Record appliedRuntimeSettings := mkApplied { ap_GoMemLimit : string; GoMemLimitBytes : Z; ap_GOGC : Z }.

Record runtimeTuningState := mkTuning { memLimitConfigured : bool; gcPercentConfigured : bool }.

Record GoRuntime := mkGoRuntime { memoryLimit : Z; gcPercent : Z }.

(** The suffixes in the order in which they are tried. *)
Definition suffixes : list (string * Z) :=
  [("KIB", 1024); ("MIB", 1024 * 1024); ("GIB", 1024 * 1024 * 1024); ("TIB", 1024 * 1024 * 1024 * 1024);
   ("KB", 1000); ("MB", 1000 * 1000); ("GB", 1000 * 1000 * 1000); ("TB", 1000 * 1000 * 1000 * 1000); ("B", 1)].

(** The factor and the numeric part. Other letters than ASCII whose upper case
    is ASCII leave a numeric part that is not a number, either way. *)
Fixpoint splitSuffix (raw upper : string) (l : list (string * Z)) : Z * string :=
  match l with
  | [] => (1, raw)
  | (suffix, factor) :: l =>
      if HasSuffix upper suffix then (factor, TrimSpace (dropRight (String.length suffix) raw))
      else splitSuffix raw upper l
  end.

Definition parseMemoryLimit (input : string) : result Z :=
  let raw := TrimSpace input in
  if bool_decide (raw = "") then Err (errorf "empty memory limit")
  else
    let '(factor, numberPart) := splitSuffix raw (EdgeSidecar.ToUpper raw) suffixes in
    if bool_decide (numberPart = "") then Err (errorf "missing numeric value")
    else match Atoi numberPart with
         | None => Err (errorf "parse numeric value")
         | Some value =>
             if value <=? 0 then Err (errorf "memory limit must be positive")
             else if Z.quot max_int64 factor <? value then Err (errorf "memory limit overflow")
             else Ok (wrap64 (value * factor))
         end.

Definition applyMemLimit (limit : string) (state : runtimeTuningState) (go : GoRuntime) : runtimeTuningState * GoRuntime * Z :=
  if bool_decide (limit ≠ "") && bool_decide (limit ≠ "0") then
    match parseMemoryLimit limit with
    | Err _ => (state, go, 0)
    | Ok bytes => (mkTuning true (gcPercentConfigured state), mkGoRuntime bytes (gcPercent go), bytes)
    end
  else if memLimitConfigured state
  then (mkTuning false (gcPercentConfigured state), mkGoRuntime max_int64 (gcPercent go), 0)
  else (state, go, 0).

Definition applyGOGC (gogc : Z) (state : runtimeTuningState) (go : GoRuntime) : runtimeTuningState * GoRuntime :=
  if negb (gogc =? 0) then (mkTuning (memLimitConfigured state) true, mkGoRuntime (memoryLimit go) gogc)
  else if gcPercentConfigured state then (mkTuning (memLimitConfigured state) false, mkGoRuntime (memoryLimit go) 100)
  else (state, go).

Definition applyRuntimeSettings (cfg : Conf.RuntimeConfig) (state : runtimeTuningState) (go : GoRuntime)
    : runtimeTuningState * GoRuntime * appliedRuntimeSettings :=
  let limit := TrimSpace (Conf.GoMemLimit cfg) in
  let '(state, go, bytes) := applyMemLimit limit state go in
  let '(state, go) := applyGOGC (Conf.GOGC cfg) state go in
  (state, go, mkApplied limit bytes (Conf.GOGC cfg)).

(** The configurations of a process, one after the other. *)
Definition tune (cfgs : list Conf.RuntimeConfig) (s : runtimeTuningState * GoRuntime) : runtimeTuningState * GoRuntime :=
  foldl (λ s cfg, (applyRuntimeSettings cfg s.1 s.2).1) s cfgs.

Definition newTuning : runtimeTuningState := mkTuning false false.

Example memory_limits :
  parseMemoryLimit " 512 MiB" = Ok 536870912 ∧ parseMemoryLimit "1gb" = Ok 1000000000 ∧ parseMemoryLimit "64" = Ok 64
  ∧ parseMemoryLimit "8388608TiB" = Err (errorf "memory limit overflow") ∧ parseMemoryLimit "-1KB" = Err (errorf "memory limit must be positive")
  ∧ parseMemoryLimit "MB" = Err (errorf "missing numeric value") ∧ parseMemoryLimit "1.5GB" = Err (errorf "parse numeric value").
Proof. vm_compute. repeat split. Qed.
End RuntimeSettings.
