(* ===== verification/Health.v ===== *)
(** * The health of the process (cmd/health.go, node/realtime_health.go)

    What the process answers on its health port, and the copy of it that the
    realtime messages carry. Times are numbers of nanoseconds instead of text. *)

From Stdlib Require Import Ascii.
From S2P Require Import Prelude GoStrings Conf RuntimeSettings.

Module Health.
Import GoStrings.

Record healthState := mkHealth {
  startedAt : Z;
  configPath : string;
  ready : bool;
  lastReloadAt : option Z;
  healthPort : Z;
  nodeCount : Z;
  realtimeEnabled : bool;
  runtime : RuntimeSettings.appliedRuntimeSettings
}.

Record healthResponse := mkResponse {
  Status : string;
  Ready : bool;
  Version : string;
  ConfigPath : string;
  StartedAt : Z;
  UptimeSeconds : Z;
  LastReloadAt : option Z;
  NodeCount : Z;
  RealtimeEnabled : bool;
  HealthPort : Z;
  Goroutines : Z;
  Runtime : RuntimeSettings.appliedRuntimeSettings
}.

(** The published snapshot has the fields of the response and the time of its
    publication. *)
Record RealtimeHealthSnapshot := mkSnapshot { fields : healthResponse; UpdatedAt : Z }.

(** The process-wide state: health, and what was published. *)
Record HealthWorld := mkHealthWorld { state : healthState; published : option RealtimeHealthSnapshot }.

(** What is read of the process: time, version, number of goroutines. *)
Record Moment := mkMoment { now : Z; version : string; goroutines : Z }.

Definition second : Z := 1000000000.

Definition snapshot (t : Moment) (status : string) (s : healthState) : healthResponse :=
  let status := if bool_decide (status = "") then (if ready s then "ok" else "starting") else status in
  mkResponse status (ready s) (version t) (configPath s) (startedAt s) (Z.quot (now t - startedAt s) second)
    (lastReloadAt s) (nodeCount s) (realtimeEnabled s) (healthPort s) (goroutines t) (runtime s).

Definition SetRealtimeHealthSnapshot (t : Moment) (r : healthResponse) : option RealtimeHealthSnapshot :=
  Some (mkSnapshot r (now t)).

Definition GetRealtimeHealthSnapshot (w : HealthWorld) : option RealtimeHealthSnapshot := published w.

Definition publishSnapshot (t : Moment) (status : string) (s : healthState) : HealthWorld :=
  mkHealthWorld s (SetRealtimeHealthSnapshot t (snapshot t status s)).

Definition newHealthState (t : Moment) (configPath : string) : HealthWorld :=
  publishSnapshot t "starting" (mkHealth (now t) configPath false None 0 0 false (RuntimeSettings.mkApplied "" 0 0)).

(** The port is that of the first configuration with one. *)
Definition UpdateConfig (t : Moment) (cfg : Conf.Conf) (applied : RuntimeSettings.appliedRuntimeSettings) (w : HealthWorld) : HealthWorld :=
  let s := state w in
  let port := if healthPort s =? 0 then Conf.HealthPort cfg else healthPort s in
  let rt := Conf.cf_Realtime cfg in
  publishSnapshot t ""
    (mkHealth (startedAt s) (configPath s) (ready s) (lastReloadAt s) port (Z.of_nat (length (Conf.cf_Nodes cfg)))
       (Conf.rc_Enabled rt || bool_decide (Conf.rc_URL rt ≠ "")) applied).

Definition MarkReady (t : Moment) (b : bool) (w : HealthWorld) : HealthWorld :=
  let s := state w in
  publishSnapshot t ""
    (mkHealth (startedAt s) (configPath s) b (if b then Some (now t) else lastReloadAt s) (healthPort s) (nodeCount s)
       (realtimeEnabled s) (runtime s)).

Definition withStatus (status : string) (r : healthResponse) : healthResponse :=
  mkResponse status (Ready r) (Version r) (ConfigPath r) (StartedAt r) (UptimeSeconds r) (LastReloadAt r) (NodeCount r)
    (RealtimeEnabled r) (HealthPort r) (Goroutines r) (Runtime r).

(** [handleHealthRequest], and the handler of [/readyz]. *)
Definition handleHealthRequest (t : Moment) (s : healthState) : Z * healthResponse :=
  let payload := snapshot t "" s in
  if Ready payload then (200, payload) else (503, withStatus "starting" payload).

(** The handlers of [startHealthServer]; [None] is a path that is not served. *)
Definition serveHealth (t : Moment) (path : string) (w : HealthWorld) : option (Z * healthResponse) :=
  if bool_decide (path = "/livez") then Some (200, snapshot t "alive" (state w))
  else if bool_decide (path = "/readyz" ∨ path = "/health" ∨ path = "/healthz") then Some (handleHealthRequest t (state w))
  else None.

(** What happens to the health of a process. *)
Inductive healthEvent :=
| Updated (t : Moment) (cfg : Conf.Conf) (applied : RuntimeSettings.appliedRuntimeSettings)
| Marked (t : Moment) (b : bool).

Definition healthStep (w : HealthWorld) (e : healthEvent) : HealthWorld :=
  match e with
  | Updated t cfg applied => UpdateConfig t cfg applied w
  | Marked t b => MarkReady t b w
  end.
End Health.
