(* ===== verification/HealthProps.v ===== *)
(** * What the runtime settings and the health of the process promise

    A memory limit that is accepted is the written number times its unit, and
    fits ([parseMemoryLimit_spec], [parseMemoryLimit_units]); what is set follows
    the last configuration ([settings_follow]). The health that is answered and
    the copy that is published agree after every event ([health_published]). *)

From Stdlib Require Import Ascii.
From S2P Require Import Prelude GoStrings GoText Conf EdgeSidecar RuntimeSettings Health.

Module HealthProps.
Import GoStrings GoText RuntimeSettings.

(** ** Memory limits *)

Lemma splitSuffix_factor raw upper l : (splitSuffix raw upper l).1 = 1 ∨ (splitSuffix raw upper l).1 ∈ l.*2.
Proof.
  induction l as [|[s f] l IH]; [by left|]. cbn. destruct (HasSuffix upper s); [right; left|].
  destruct IH as [->|IH]; [by left|right; by right].
Qed.

Lemma factor_range raw upper : 1 <= (splitSuffix raw upper suffixes).1 <= 2 ^ 40.
Proof.
  destruct (splitSuffix_factor raw upper suffixes) as [->|H]; [lia|].
  assert (Hall : Forall (λ f, 1 <= f <= 2 ^ 40) suffixes.*2) by (apply (bool_decide_unpack _); vm_compute; exact I).
  rewrite Forall_forall in Hall. by apply Hall.
Qed.

(** C36. An accepted limit is positive, fits an [int64], and is the number that was
    written times the factor of its unit: the multiplication does not wrap.
    Anything else that is a number is refused, too large ones included. *)
Theorem parseMemoryLimit_spec (input : string) :
  let '(factor, number) := splitSuffix (TrimSpace input) (EdgeSidecar.ToUpper (TrimSpace input)) suffixes in
  match parseMemoryLimit input with
  | Ok v => ∃ n, Atoi number = Some n ∧ v = n * factor ∧ 0 < v <= max_int64
  | Err _ => ∀ n, Atoi number = Some n → n <= 0 ∨ max_int64 < n * factor
  end.
Proof.
  unfold parseMemoryLimit. pose proof (factor_range (TrimSpace input) (EdgeSidecar.ToUpper (TrimSpace input))) as Hf.
  case_bool_decide as He.
  { rewrite He. vm_compute EdgeSidecar.ToUpper. cbn. done. }
  destruct (splitSuffix _ _ _) as [factor number]. cbn [fst] in Hf. case_bool_decide as Hn.
  { subst number. done. }
  destruct (Atoi number) as [n|] eqn:Hv; [|done]. destruct (Z.leb_spec n 0) as [Hn0|Hn0].
  { intros m [= <-]. by left. }
  assert (Hq : Z.quot max_int64 factor < n ↔ max_int64 < n * factor).
  { rewrite Z.quot_div_nonneg by (unfold max_int64; lia). split; intros H.
    - destruct (Z.lt_ge_cases max_int64 (n * factor)); [done|]. exfalso.
      pose proof (Z.div_le_lower_bound max_int64 factor n). lia.
    - apply Z.div_lt_upper_bound; lia. }
  destruct (Z.ltb_spec (Z.quot max_int64 factor) n) as [Ho|Ho].
  - intros m [= <-]. right. by apply Hq.
  - assert (n * factor <= max_int64) by (apply Z.nlt_ge; rewrite <- Hq; lia).
    exists n. rewrite wrap64_id by (unfold i64, max_int64 in *; nia). split_and!; [done|done|nia|done].
Qed.

(** *** Units *)

Lemma ToUpper_app s t : EdgeSidecar.ToUpper (s +:+ t) = EdgeSidecar.ToUpper s +:+ EdgeSidecar.ToUpper t.
Proof. unfold EdgeSidecar.ToUpper. by rewrite bytes_app, fmap_app, of_bytes_app. Qed.

Lemma ToUpper_digits s : Forall (λ a, is_digit a = true) (bytes s) → EdgeSidecar.ToUpper s = s.
Proof.
  intros H. apply bytes_inj. unfold EdgeSidecar.ToUpper. rewrite bytes_of_bytes.
  induction H as [|a l Ha Hl IH]; [done|]. cbn. f_equal; [|exact IH].
  destruct a as [[] [] [] [] [] [] [] []]; vm_compute in Ha; try done; reflexivity.
Qed.

Lemma digits_last s : Forall (λ a, is_digit a = true) (bytes s) → s ≠ "" →
  ∃ d l, rev (bytes s) = d :: l ∧ is_digit d = true.
Proof.
  intros H Hne. destruct (rev (bytes s)) as [|d l] eqn:E.
  - exfalso. apply Hne. apply bytes_inj. by rewrite <- (rev_involutive (bytes s)), E.
  - exists d, l. split; [done|]. assert (Hin : Forall (λ a, is_digit a = true) (rev (bytes s))) by (by apply Forall_rev).
    rewrite E in Hin. by apply Forall_cons in Hin as [? _].
Qed.

(** The table of suffixes, for a number before a unit. *)
Lemma splitSuffix_unit raw s u f : Forall (λ a, is_digit a = true) (bytes s) → s ≠ "" →
  (u, f) ∈ suffixes → splitSuffix raw (s +:+ u) suffixes = (f, TrimSpace (dropRight (String.length u) raw)).
Proof.
  intros Hd Hne Hu. destruct (digits_last s Hd Hne) as (d & l & E & Hdd).
  assert (Hs : ∀ q, HasSuffix (s +:+ u) q = HasPrefix (of_bytes (rev (bytes u) ++ d :: l)) (of_bytes (rev (bytes q)))).
  { intros q. unfold HasSuffix. by rewrite bytes_app, rev_app_distr, E. }
  unfold suffixes in *. cbn [splitSuffix]. rewrite !Hs. clear Hs E Hd Hne.
  repeat (apply elem_of_cons in Hu as [[= -> ->]|Hu];
    [destruct d as [[] [] [] [] [] [] [] []]; try discriminate Hdd; reflexivity|]).
  by apply elem_of_nil in Hu.
Qed.

Lemma splitSuffix_none raw s : Forall (λ a, is_digit a = true) (bytes s) → s ≠ "" → splitSuffix raw s suffixes = (1, raw).
Proof.
  intros Hd Hne. destruct (digits_last s Hd Hne) as (d & l & E & Hdd).
  assert (Hs : ∀ q, HasSuffix s q = HasPrefix (of_bytes (d :: l)) (of_bytes (rev (bytes q)))) by (intros q; unfold HasSuffix; by rewrite E).
  unfold suffixes. cbn [splitSuffix]. rewrite !Hs. destruct d as [[] [] [] [] [] [] [] []]; try discriminate Hdd; reflexivity.
Qed.

Lemma digits_graphic s : Forall (λ a, is_digit a = true) (bytes s) → s ≠ "" → TrimSpace s = s.
Proof.
  intros Hd Hne. destruct (digits_last s Hd Hne) as (b & l & E & Hb).
  assert (Hg : ∀ a, is_digit a = true → graphic a).
  { intros a Ha. by destruct a as [[] [] [] [] [] [] [] []]; vm_compute in Ha; try done; split. }
  destruct (bytes s) as [|a l'] eqn:Es; [done|].
  apply (TrimSpace_graphic s a l' (rev l) b); [done| |apply Hg; by apply Forall_cons in Hd as [? _]|by apply Hg].
  rewrite Es, <- (rev_involutive (a :: l')), E. done.
Qed.

Lemma app_empty s : s +:+ "" = s.
Proof. apply bytes_inj. rewrite bytes_app. apply app_nil_r. Qed.

(** A unit in any mix of cases: its factor, and no unit is 1. *)
Definition unitOf (u : string) (f : Z) : Prop := (u = "" ∧ f = 1) ∨ (EdgeSidecar.ToUpper u, f) ∈ suffixes.

Lemma ToUpper_length s : String.length (EdgeSidecar.ToUpper s) = String.length s.
Proof. unfold EdgeSidecar.ToUpper. rewrite <- !length_bytes, bytes_of_bytes. apply length_fmap. Qed.

Lemma unit_last u : u ≠ "" → (∃ f, (EdgeSidecar.ToUpper u, f) ∈ suffixes) → ∃ m b, bytes u = m ++ [b] ∧ graphic b.
Proof.
  intros Hne [f Hf]. destruct (bytes u) as [|b m _] eqn:E using rev_ind; [by destruct u|]. exists m, b. split; [done|].
  assert (HB : last (bytes (EdgeSidecar.ToUpper u)) = Some "B"%char).
  { unfold suffixes in Hf. repeat (apply elem_of_cons in Hf as [[= -> _]|Hf]; [reflexivity|]). by apply elem_of_nil in Hf. }
  unfold EdgeSidecar.ToUpper in HB. rewrite bytes_of_bytes, E, fmap_app in HB. cbn in HB. rewrite last_snoc in HB. injection HB as HB.
  by destruct b as [[] [] [] [] [] [] [] []]; vm_compute in HB; try done; split.
Qed.

(** A positive number followed by a unit, in upper or lower case, is that many
    times the unit, unless that does not fit. *)
Theorem parseMemoryLimit_units (n : Z) (u : string) (f : Z) : 0 < n → n <= max_int64 → unitOf u f →
  parseMemoryLimit (Itoa n +:+ u) =
  (if max_int64 <? n * f then Err (errorf "memory limit overflow") else Ok (n * f)).
Proof.
  intros Hn Hmax Hu. pose proof (Itoa_digits n ltac:(lia)) as Hd. pose proof (Itoa_nonempty n) as Hne.
  assert (Hraw : TrimSpace (Itoa n +:+ u) = Itoa n +:+ u).
  { destruct (decide (u = "")) as [->|Hu'].
    - rewrite app_empty. by apply digits_graphic.
    - destruct Hu as [[? _]|Hu]; [done|]. destruct (unit_last u Hu') as (m & b & Eb & Hb); [by eexists|].
      destruct (bytes (Itoa n)) as [|a l] eqn:Ea; [apply (f_equal of_bytes) in Ea; by rewrite of_bytes_bytes in Ea|].
      apply (TrimSpace_graphic _ a (l ++ bytes u) (a :: l ++ m) b); [by rewrite bytes_app, Ea|rewrite bytes_app, Ea, Eb; cbn; by rewrite app_assoc| |done].
      apply Forall_cons in Hd as [Ha _]. by destruct a as [[] [] [] [] [] [] [] []]; vm_compute in Ha; try done; split. }
  assert (Hsplit : splitSuffix (Itoa n +:+ u) (EdgeSidecar.ToUpper (Itoa n +:+ u)) suffixes = (f, Itoa n)).
  { rewrite ToUpper_app, ToUpper_digits by done. destruct Hu as [[-> ->]|Hu].
    - change (EdgeSidecar.ToUpper "") with "". rewrite !app_empty. by apply splitSuffix_none.
    - rewrite (splitSuffix_unit _ _ _ f) by done. rewrite ToUpper_length, dropRight_app. by rewrite digits_graphic. }
  pose proof (parseMemoryLimit_spec (Itoa n +:+ u)) as Hs. rewrite Hraw, Hsplit in Hs.
  assert (Ha : Atoi (Itoa n) = Some n) by (apply Atoi_Itoa; unfold i64, max_int64 in *; lia).
  assert (Hne' : Itoa n +:+ u ≠ "").
  { intros E. apply (f_equal (λ s, length (bytes s))) in E. rewrite bytes_app, length_app in E. cbn in E.
       destruct (bytes (Itoa n)) eqn:Ea; [apply (f_equal of_bytes) in Ea; by rewrite of_bytes_bytes in Ea|cbn in E; lia]. }
  unfold parseMemoryLimit in *. rewrite Hraw in *. rewrite bool_decide_eq_false_2 in * by done.
  rewrite Hsplit in *. rewrite bool_decide_eq_false_2 in * by done. rewrite Ha in *.
  destruct (Z.leb_spec n 0); [lia|]. destruct (Z.quot max_int64 f <? n).
  - destruct (Hs n eq_refl); [lia|]. by destruct (Z.ltb_spec max_int64 (n * f)); [|lia].
  - destruct Hs as (m & [= <-] & -> & Hb). by destruct (Z.ltb_spec max_int64 (n * f)); [lia|].
Qed.

(** ** What is set *)

Implicit Types (c : Conf.RuntimeConfig) (cs : list Conf.RuntimeConfig) (go : GoRuntime).

(** A configuration sets a limit, or clears it, or has one that is not valid. *)
Definition limitOf c : option (result Z) :=
  let limit := TrimSpace (Conf.GoMemLimit c) in
  if bool_decide (limit ≠ "") && bool_decide (limit ≠ "0") then Some (parseMemoryLimit limit) else None.

(** The settings as a function of the history: the limit of the last
    configuration; the previous one, if it is not valid; none, if it says
    nothing after one was set. *)
Fixpoint limitAfter (initial : Z) (rcs : list Conf.RuntimeConfig) : bool * Z :=
  match rcs with
  | [] => (false, initial)
  | c :: rcs =>
      let '(set, old) := limitAfter initial rcs in
      match limitOf c with
      | Some (Ok v) => (true, v)
      | Some (Err _) => (set, old)
      | None => (false, if set then max_int64 else old)
      end
  end.

Fixpoint gcAfter (initial : Z) (rcs : list Conf.RuntimeConfig) : bool * Z :=
  match rcs with
  | [] => (false, initial)
  | c :: rcs =>
      let '(set, old) := gcAfter initial rcs in
      if Conf.GOGC c =? 0 then (false, if set then 100 else old) else (true, Conf.GOGC c)
  end.

Lemma tune_snoc cs c s : tune (cs ++ [c]) s = (applyRuntimeSettings c (tune cs s).1 (tune cs s).2).1.
Proof. unfold tune. by rewrite foldl_snoc. Qed.

Lemma tune_after cs go : tune cs (newTuning, go) =
  (mkTuning (limitAfter (memoryLimit go) (rev cs)).1 (gcAfter (gcPercent go) (rev cs)).1,
   mkGoRuntime (limitAfter (memoryLimit go) (rev cs)).2 (gcAfter (gcPercent go) (rev cs)).2).
Proof.
  induction cs as [|c cs IH] using rev_ind; [by destruct go|]. rewrite tune_snoc, IH, rev_app_distr. cbn [rev app fst snd].
  cbn [limitAfter gcAfter]. destruct (limitAfter _ (rev cs)) as [ls l], (gcAfter _ (rev cs)) as [gs g].
  unfold applyRuntimeSettings, applyMemLimit, limitOf. cbn [fst snd memLimitConfigured gcPercentConfigured memoryLimit gcPercent].
  destruct (bool_decide _ && bool_decide _).
  - destruct (parseMemoryLimit _); unfold applyGOGC; destruct (Conf.GOGC c =? 0), gs; reflexivity.
  - destruct ls; unfold applyGOGC; cbn; destruct (Conf.GOGC c =? 0), gs; reflexivity.
Qed.

(** After any history of configurations the runtime is set as the last one says:
    its target for the collector, and its limit if it is valid; what it does
    not set has the default if an earlier one had set it, and is as the process
    was started otherwise; and an invalid limit changes nothing. *)
Theorem settings_follow cs c go :
  let '(_, before) := tune cs (newTuning, go) in
  let '(_, after) := tune (cs ++ [c]) (newTuning, go) in
  gcPercent after = (if negb (Conf.GOGC c =? 0) then Conf.GOGC c
                     else if (gcAfter (gcPercent go) (rev cs)).1 then 100 else gcPercent before)
  ∧ memoryLimit after = match limitOf c with
                        | Some (Ok v) => v
                        | Some (Err _) => memoryLimit before
                        | None => if (limitAfter (memoryLimit go) (rev cs)).1 then max_int64 else memoryLimit before
                        end.
Proof.
  rewrite !tune_after, rev_app_distr. cbn [rev app limitAfter gcAfter].
  destruct (limitAfter _ (rev cs)) as [ls l], (gcAfter _ (rev cs)) as [gs g]. cbn.
  destruct (Conf.GOGC c =? 0), (limitOf c) as [[v|e]|]; split; reflexivity.
Qed.

(** ** Health *)

Section health.
Import Health.
Implicit Types (w : HealthWorld).

(** What was published last is the response at that time. *)
Definition inStep w : Prop := ∃ t status, published w = Some (mkSnapshot (snapshot t status (state w)) (now t)).

Lemma health_inStep t path es : inStep (foldl healthStep (newHealthState t path) es).
Proof.
  apply (foldl_invariant inStep); [by exists t, "starting"|].
  intros w [t' cfg a|t' b] _ _; by exists t', "".
Qed.

Definition readyAfter (es : list healthEvent) : bool :=
  foldl (λ b e, match e with Marked _ b' => b' | Updated _ _ _ => b end) false es.

Definition lastConfig (es : list healthEvent) : option (Conf.Conf * appliedRuntimeSettings) :=
  foldl (λ o e, match e with Updated _ cfg a => Some (cfg, a) | Marked _ _ => o end) None es.

Definition describes (s : healthState) (o : option (Conf.Conf * appliedRuntimeSettings)) : Prop :=
  match o with
  | None => nodeCount s = 0 ∧ realtimeEnabled s = false
  | Some (cfg, a) => nodeCount s = Z.of_nat (length (Conf.cf_Nodes cfg))
                     ∧ realtimeEnabled s = Conf.rc_Enabled (Conf.cf_Realtime cfg) || bool_decide (Conf.rc_URL (Conf.cf_Realtime cfg) ≠ "")
                     ∧ runtime s = a
  end.

Lemma health_state t path es : let s := state (foldl healthStep (newHealthState t path) es) in
  ready s = readyAfter es ∧ describes s (lastConfig es) ∧ startedAt s = now t ∧ configPath s = path.
Proof.
  induction es as [|e es (Hr & Hd & Hs & Hp)] using rev_ind; [by split_and!|]. cbn zeta in *. unfold readyAfter, lastConfig in *.
  rewrite !foldl_snoc. destruct e as [t' cfg a|t' b]; cbn; [by split_and!|]. split_and!; [done| |done|done]. by destruct (foldl _ None es) as [[]|].
Qed.

(** After any events the health paths answer 200 exactly when the process was
    last marked ready, and 503 with the status starting otherwise; the answers,
    and the copy that realtime messages carry, show the nodes and settings of
    the last configuration; only [/livez] does not depend on it. *)
Theorem health_published t path es t' :
  let w := foldl healthStep (newHealthState t path) es in
  (∀ p, p ∈ ["/readyz"; "/health"; "/healthz"] → ∃ r, serveHealth t' p w = Some (if readyAfter es then 200 else 503, r)
     ∧ Ready r = readyAfter es ∧ Status r = (if readyAfter es then "ok" else "starting") ∧ NodeCount r = nodeCount (state w))
  ∧ (∃ r, serveHealth t' "/livez" w = Some (200, r) ∧ Status r = "alive" ∧ Ready r = readyAfter es)
  ∧ (∃ s, GetRealtimeHealthSnapshot w = Some s ∧ Ready (fields s) = readyAfter es ∧ NodeCount (fields s) = nodeCount (state w)
       ∧ Runtime (fields s) = runtime (state w))
  ∧ describes (state w) (lastConfig es).
Proof.
  cbn zeta. destruct (health_state t path es) as (Hr & Hd & _). destruct (health_inStep t path es) as (t1 & st & Hp).
  set (w := foldl healthStep _ es) in *. cbn zeta in Hr, Hd. split_and!; [| | |done].
  - intros p Hin. unfold serveHealth. rewrite bool_decide_eq_false_2 by (intros ->; set_solver).
    rewrite bool_decide_eq_true_2 by set_solver. unfold handleHealthRequest. cbn [Ready snapshot]. rewrite <- Hr.
    destruct (ready (state w)) eqn:E; eexists; split_and!; try reflexivity; cbn; by rewrite ?E.
  - unfold serveHealth. cbn. eexists. by split_and!.
  - unfold GetRealtimeHealthSnapshot. rewrite Hp. eexists. by split_and!.
Qed.
End health.

Module Examples.
Lemma parseMemoryLimit_units_witness :
  parseMemoryLimit (Itoa 512 +:+ "mib") = Ok 536870912 ∧ parseMemoryLimit (Itoa 8388608 +:+ "TiB") = Err (errorf "memory limit overflow").
Proof.
  split.
  - rewrite (parseMemoryLimit_units 512 "mib" (1024 * 1024)); [reflexivity|lia|unfold max_int64; lia|].
    right. apply (bool_decide_unpack _). vm_compute. exact I.
  - rewrite (parseMemoryLimit_units 8388608 "TiB" (1024 * 1024 * 1024 * 1024)); [reflexivity|lia|unfold max_int64; lia|].
    right. apply (bool_decide_unpack _). vm_compute. exact I.
Defined.

(** A limit that is cleared does not come back to what the process was started
    with, and an invalid limit keeps the one before. *)
Definition exampleLimit (limit : string) : Conf.RuntimeConfig := Conf.mkRuntimeConfig limit 0 false.

Example limit_not_restored :
  (tune [exampleLimit "1GB"; exampleLimit ""] (newTuning, mkGoRuntime 500 80)).2 = mkGoRuntime max_int64 80
  ∧ (tune [exampleLimit "1GB"; exampleLimit "1 GIGA"] (newTuning, mkGoRuntime 500 80)).2 = mkGoRuntime 1000000000 80.
Proof. vm_compute. split; reflexivity. Qed.
End Examples.
End HealthProps.
