(* ===== verification/Lego.v ===== *)
(** * Certificates of an authority (node/lego.go)

    The account and the certificates that a node gets with ACME, and the task that
    renews them. The client of the authority (lego), and the formats of keys,
    certificates and of the account's file are an interface; the disk is a map of
    files and a set of directories, on which an operation may fail. [legoCerts]
    makes this an implementation of the interface of Certs.v. *)

From Stdlib Require Import Ascii.
From S2P Require Import Prelude GoStrings GoText FilePath Action Panel Certs.

Module Lego.
Import GoStrings GoText FilePath Action.

(** ** The disk *)

Inductive diskOp := OpStat | OpMkdir | OpRead | OpOpen | OpWrite.

(** What fails, and how much of a content is written before it does. *)
Class Faults := {
  fault : diskOp → string → option GoError;
  landed : string → nat
}.

(** Paths are clean, and relative to the working directory. *)
Record Disk := mkDisk { files : gmap string string; dirs : gset string }.

Definition noEntry (path : string) : GoError := errorf ("open " +:+ path +:+ ": no such file or directory").

Definition isDirectory (path : string) : GoError := errorf ("open " +:+ path +:+ ": is a directory").

Definition notDirectory (path : string) : GoError := errorf ("mkdir " +:+ path +:+ ": not a directory").

(** A path and the directories it is in. *)
Fixpoint ancestors (n : nat) (path : string) : list string :=
  match n with
  | O => [path]
  | S n => if bool_decide (Dir path = path) then [path] else path :: ancestors n (Dir path)
  end.

Definition allDirs (path : string) : list string := ancestors (String.length path) (Clean path).

Section disk.
Context `{Faults}.
Implicit Types d : Disk.

(** [os.Stat]: as in Certs.v, [Some true] is that there is no such file. *)
Definition diskStat d (path : string) : option bool :=
  match fault OpStat path with
  | Some _ => Some false
  | None => if bool_decide (path ≠ "" ∧ (is_Some (files d !! Clean path) ∨ Clean path ∈ dirs d)) then None else Some true
  end.

Definition diskMkdirAll (path : string) d : Disk * option GoError :=
  match fault OpMkdir path with
  | Some e => (d, Some e)
  | None =>
      if existsb (λ p, bool_decide (is_Some (files d !! p))) (allDirs path) then (d, Some (notDirectory path))
      else (mkDisk (files d) (list_to_set (allDirs path) ∪ dirs d), None)
  end.

Definition diskRead (path : string) d : result string :=
  match fault OpRead path with
  | Some e => Err e
  | None =>
      if bool_decide (path = "") then Err (noEntry path)
      else match files d !! Clean path with
           | Some content => Ok content
           | None => if bool_decide (Clean path ∈ dirs d) then Err (isDirectory path) else Err (noEntry path)
           end
  end.

(** [os.OpenFile] with O_CREATE and O_TRUNC. *)
Definition diskOpen (path : string) d : Disk * option GoError :=
  match fault OpOpen path with
  | Some e => (d, Some e)
  | None =>
      if bool_decide (path = "") then (d, Some (noEntry path))
      else if bool_decide (HasSuffix path "/" = true ∨ Clean path ∈ dirs d) then (d, Some (isDirectory path))
      else if bool_decide (Dir path ∈ dirs d) then (mkDisk (<[Clean path := ""]> (files d)) (dirs d), None)
      else (d, Some (noEntry path))
  end.

(** Writing the whole of an open file. *)
Definition diskWrite (path content : string) d : Disk * option GoError :=
  match fault OpWrite path with
  | Some e => (mkDisk (<[Clean path := of_bytes (take (landed path) (bytes content))]> (files d)) (dirs d), Some e)
  | None => (mkDisk (<[Clean path := content]> (files d)) (dirs d), None)
  end.

(** [os.WriteFile] *)
Definition diskWriteFile (path content : string) d : Disk * option GoError :=
  match diskOpen path d with
  | (d, Some e) => (d, Some e)
  | (d, None) => diskWrite path content d
  end.
End disk.

(** ** The authority *)

(** Keys, certificates, and the client of the authority; [Authority] is what is
    outside of the process. A certificate is its text and that of its key. *)
Class Acme := {
  Authority : Type;
  PrivateKey : Type;
  Registration : Type;
  AcmeClient : Type;
  Provider : Type;
  GenerateKey : Authority → Authority * result PrivateKey;
  MarshalECPrivateKey : PrivateKey → result string;
  ParseECPrivateKey : string → result PrivateKey;
  EncodeToMemory : string → string → string;                    (* a PEM block of a type *)
  pemDecode : string → option string;                           (* the bytes of the first block *)
  encodeUser : string → option Registration → string → string;  (* JSON: email, registration, key *)
  decodeUser : string → result (string * option Registration * string);
  NewClient : string → option PrivateKey → option Registration → Authority → Authority * result AcmeClient;
  Register : AcmeClient → Authority → Authority * result Registration;
  SetHTTP01Provider : AcmeClient → result AcmeClient;
  NewDNSChallengeProviderByName : string → gmap string string → Authority → Authority * result Provider;
  SetDNS01Provider : Provider → AcmeClient → result AcmeClient;
  Obtain : AcmeClient → list string → Authority → Authority * result (string * string);
  Renew : AcmeClient → string → string → Authority → Authority * result (string * string);
  NotAfter : string → result Z                                  (* of the first certificate of a file *)
}.

Section lego.
Context `{Faults} `{Acme}.

(** The disk, the environment of the process, the time and the authority. *)
Record World := mkWorld { disk : Disk; environ : gmap string string; clock : Z; authority : Authority }.

Record User := mkUser { Email : string; User_Registration : option Registration; key : option PrivateKey }.

Record Lego := mkLego { client : AcmeClient; config : Panel.CertInfo }.

Implicit Types w : World.

(** A call on the disk, and one of the authority. *)
Definition onDisk (f : Disk → Disk * option GoError) : action World unit := λ w,
  let '(d, e) := f (disk w) in
  Some (mkWorld d (environ w) (clock w) (authority w), match e with None => Ok () | Some e => Err e end).

Definition call {A} (f : Authority → Authority * result A) : action World A := λ w,
  let '(a, r) := f (authority w) in Some (mkWorld (disk w) (environ w) (clock w) a, r).

(** A value or an error that depends on nothing else. *)
Definition given {A} (r : result A) : action World A := λ w, Some (w, r).

Definition prefixErr {A} (s : string) : action World A → action World A := mapErr (λ e, errorf (s +:+ err_msg e)).

Definition exists_ w (path : string) : bool :=
  match diskStat (disk w) path with None => true | Some notExist => negb notExist end.

Definition checkPath (p : string) : action World unit :=
  there ← gets (λ w, exists_ w (Dir p));
  if there : bool then mret () else prefixErr "create dir error: " (onDisk (diskMkdirAll (Dir p))).

(** ** The account *)

Definition EncodePrivate (k : PrivateKey) : result string :=
  result_bind (MarshalECPrivateKey k) (λ encoded, Ok (EncodeToMemory "EC PRIVATE KEY" encoded)).

(** An account whose key has no encoding is saved without it. *)
Definition Save (u : User) (path : string) : action World unit :=
  _ ← prefixErr "check path error: " (checkPath path);
  k ← deref (key u);
  let encoded := match EncodePrivate k with Ok s => s | Err _ => "" end in
  _ ← onDisk (diskOpen path);
  prefixErr "marshal json error: " (onDisk (diskWrite path (encodeUser (Email u) (User_Registration u) encoded))).

(** [None] is the nil block of a text without one. *)
Definition DecodePrivate (pemEncodedPriv : string) : option (result PrivateKey) :=
  ParseECPrivateKey <$> pemDecode pemEncodedPriv.

Definition Load (path : string) : action World User :=
  data ← prefixErr "open file error: " (λ w, Some (w, diskRead path (disk w)));
  '(email, reg, encoded) ← prefixErr "unmarshal json error: " (given (decodeUser data));
  r ← deref (DecodePrivate encoded);
  k ← prefixErr "decode private key error: " (given r);
  mret (mkUser email reg (Some k)).

Definition registerUser (u : User) (path : string) : action World User :=
  k ← prefixErr "generate key error: " (call GenerateKey);
  c ← prefixErr "create lego client error: " (call (NewClient (Email u) (Some k) (User_Registration u)));
  reg ← call (Register c);
  let u := mkUser (Email u) (Some reg) (Some k) in
  _ ← prefixErr "save user error: " (Save u path);
  mret u.

Definition NewLegoUser (path email : string) : action World User :=
  there ← gets (λ w, exists_ w path);
  if there : bool then
    u ← Load path;
    if bool_decide (Email u ≠ email) then registerUser (mkUser email None (key u)) path else mret u
  else registerUser (mkUser email None None) path.

(** ** The challenges *)

(** [os.Setenv] refuses a name that is empty or has '=' or NUL, and a value with
    NUL, which nobody looks at. *)
Definition nul (a : ascii) : bool := Ascii.eqb a "000".

Definition envAccepts (e : string * string) : bool :=
  negb (bool_decide (e.1 = "")) && negb (existsb (λ a, Ascii.eqb a "=" || nul a) (bytes e.1)) && negb (existsb nul (bytes e.2)).

(** The names are different, so their order does not matter. *)
Definition setenvAll (vars env : gmap string string) : gmap string string :=
  filter (λ e, envAccepts e = true) vars ∪ env.

Definition setEnviron (f : gmap string string → gmap string string) : action World unit :=
  modify (λ w, mkWorld (disk w) (f (environ w)) (clock w) (authority w)).

Definition SetProvider (ci : Panel.CertInfo) (c : AcmeClient) : action World AcmeClient :=
  if bool_decide (Panel.CertMode ci = "http") then given (SetHTTP01Provider c)
  else if bool_decide (Panel.CertMode ci = "dns") then
    _ ← setEnviron (setenvAll (Panel.DNSEnv ci));
    env ← gets environ;
    p ← prefixErr "create dns challenge provider error: " (call (NewDNSChallengeProviderByName (Panel.Provider ci) env));
    prefixErr "set dns provider error: " (given (SetDNS01Provider p c))
  else mret c.

(** [path.Join] of the directory, which is not empty, with two names. *)
Definition userPath (ci : Panel.CertInfo) : string :=
  Clean (Dir (Panel.CertFile ci) +:+ "/user/user-" +:+ Panel.Email ci +:+ ".json").

Definition NewLego (ci : Panel.CertInfo) : action World Lego :=
  u ← prefixErr "create user error: " (NewLegoUser (userPath ci) (Panel.Email ci));
  c ← call (NewClient (Email u) (key u) (User_Registration u));
  c ← prefixErr "set provider error: " (SetProvider ci c);
  mret (mkLego c ci).

(** ** The certificate *)

(** [strings.NewReplacer] of two names: what is put in is not looked at again. *)
Fixpoint replaceParams (domain email : list ascii) (skip : nat) (l : list ascii) : list ascii :=
  match l with
  | [] => []
  | a :: rest =>
      match skip with
      | S skip => replaceParams domain email skip rest
      | O =>
          if HasPrefix (of_bytes l) "{domain}" then domain ++ replaceParams domain email 7 rest
          else if HasPrefix (of_bytes l) "{email}" then email ++ replaceParams domain email 6 rest
          else a :: replaceParams domain email 0 rest
      end
  end.

Definition parseParams (ci : Panel.CertInfo) (path : string) : string :=
  of_bytes (replaceParams (bytes (Panel.CertDomain ci)) (bytes (Panel.Email ci)) 0 (bytes path)).

Definition writeCert (ci : Panel.CertInfo) (certificates : string * string) : action World unit :=
  _ ← prefixErr "check path error: " (checkPath (Panel.CertFile ci));
  _ ← onDisk (diskWriteFile (parseParams ci (Panel.CertFile ci)) certificates.1);
  _ ← prefixErr "check path error: " (checkPath (Panel.KeyFile ci));
  onDisk (diskWriteFile (parseParams ci (Panel.KeyFile ci)) certificates.2).

Definition CreateCert (l : Lego) : action World unit :=
  certificates ← prefixErr "obtain certificate error: " (call (Obtain (client l) [Panel.CertDomain (config l)]));
  prefixErr "write certificate error: " (writeCert (config l) certificates).

Definition hour : Z := 3600 * 1000000000.

(** [time.Until] saturates. *)
Definition Until (t now : Z) : Z := Z.max (- 2 ^ 63) (Z.min max_int64 (t - now)).

(** Whether to renew, and the error of a file that is not a certificate. *)
Definition CheckCert (file : string) (now : Z) : bool * option GoError :=
  match NotAfter file with
  | Err e => (false, Some e)
  | Ok t => (negb (30 <? Z.quot (Until t now) (24 * hour)), None)
  end.

Definition RenewCert (l : Lego) : action World unit :=
  file ← prefixErr "read cert file error: " (λ w, Some (w, diskRead (Panel.CertFile (config l)) (disk w)));
  now ← gets clock;
  match CheckCert file now with
  | (false, _) => mret ()
  | (true, Some e) => throw (errorf ("check cert error: " +:+ err_msg e))
  | (true, None) =>
      res ← call (Renew (client l) (Panel.CertDomain (config l)) file);
      prefixErr "write certificate error: " (writeCert (config l) res)
  end.

(** [renewCertTask] logs the errors; a node without certificate information is a
    nil dereference. *)
Definition renewCertTask (info : Panel.NodeInfo) : action World unit :=
  ci ← deref (common ← Panel.Common info; Panel.Cert_Info common);
  l ← attempt (NewLego ci);
  match l with
  | Err _ => mret ()
  | Ok l => _ ← attempt (RenewCert l); mret ()
  end.

(** ** The interface of Certs.v *)

(** Making a key and a self-signed certificate, and their texts. *)
Class SelfSigned := {
  rsaKey : option GoError;
  selfCertificate : string → result string;
  rsaKeyText : string;
  pemText : string → string → string
}.

Context `{SelfSigned}.

Definition worldDisk (f : Disk → Disk * option GoError) w : World * option GoError :=
  let '(d, e) := f (disk w) in (mkWorld d (environ w) (clock w) (authority w), e).

(** [os.OpenFile], and [pem.Encode] into it. *)
Definition writePEM (path type content : string) : Disk → Disk * option GoError :=
  diskWriteFile path (pemText type content).

#[global] Instance legoCerts : Certs.CertEnv := {|
  Certs.FS := World;
  Certs.Stat w := diskStat (disk w);
  Certs.MkdirAll path := worldDisk (diskMkdirAll path);
  Certs.GenerateKey := rsaKey;
  Certs.CreateCertificate := selfCertificate;
  Certs.writePEM path type content := worldDisk (writePEM path type content);
  Certs.keyPEM := rsaKeyText;
  Certs.Lego := Lego;
  Certs.NewLego := NewLego;
  Certs.CreateCert l := CreateCert l
|}.
End lego.

Example parseParams_domain ci : Panel.CertDomain ci = "a.b" → Panel.Email ci = "m{domain}" →
  parseParams ci "/c/{domain}/{email}-{x}.pem" = "/c/a.b/m{domain}-{x}.pem".
Proof. unfold parseParams. intros -> ->. vm_compute. reflexivity. Qed.

Example allDirs_of : allDirs "/etc/v2node/x" = ["/etc/v2node/x"; "/etc/v2node"; "/etc"; "/"] ∧ allDirs "a/b/" = ["a/b"; "a"; "."].
Proof. vm_compute. split; reflexivity. Qed.
End Lego.
