(* ===== verification/LegoProps.v ===== *)
(** * The account and the certificates of a node

    An account is registered once and found again; a certificate is obtained
    once, and replaced with its key when it has less than 31 days left. What
    happens with names that have placeholders, and when the key is not written,
    is at the end. *)

From Stdlib Require Import Ascii.
From S2P Require Import Prelude GoStrings GoText FilePath Action Panel Certs Lego.

Module LegoProps.
Import GoStrings GoText FilePath Action Lego.

Section props.
Context `{Faults} `{Acme} `{SelfSigned}.
Implicit Types (w : World) (d : Disk) (ci : Panel.CertInfo) (l : Lego).

(** ** The disk *)

(** A file can be written: it is in a directory, is none, and nothing fails. *)
Definition writable (path : string) d : Prop :=
  path ≠ "" ∧ HasSuffix path "/" = false ∧ (Clean path ∉ dirs d) ∧ Dir path ∈ dirs d
  ∧ fault OpOpen path = None ∧ fault OpWrite path = None.

Lemma diskOpen_Ok path d d' : diskOpen path d = (d', None) → d' = mkDisk (<[Clean path := ""]> (files d)) (dirs d).
Proof. unfold diskOpen. destruct (fault _ _); [done|]. repeat case_bool_decide; by intros [= <-]. Qed.

Lemma diskOpen_Err path d d' e : diskOpen path d = (d', Some e) → d' = d.
Proof. unfold diskOpen. destruct (fault _ _); [by intros [= <- _]|]. repeat case_bool_decide; by intros [= <- _]. Qed.

Lemma diskWriteFile_Ok path content d d' :
  diskWriteFile path content d = (d', None) → d' = mkDisk (<[Clean path := content]> (files d)) (dirs d).
Proof.
  unfold diskWriteFile. destruct (diskOpen path d) as [d1 [e|]] eqn:E; [done|]. apply diskOpen_Ok in E as ->.
  unfold diskWrite. cbn. destruct (fault OpWrite path); [done|]. intros [= <-]. by rewrite insert_insert_eq.
Qed.

Lemma diskWriteFile_writable path content d : writable path d →
  diskWriteFile path content d = (mkDisk (<[Clean path := content]> (files d)) (dirs d), None).
Proof.
  intros (Hne & Hs & Hc & Hd & Ho & Hw). unfold diskWriteFile, diskOpen. rewrite Ho.
  rewrite bool_decide_eq_false_2 by done. rewrite bool_decide_eq_false_2 by (rewrite Hs; intros [|]; done).
  rewrite bool_decide_eq_true_2 by done. unfold diskWrite. cbn. rewrite Hw. by rewrite insert_insert_eq.
Qed.

(** What is at other paths stays. *)
Definition frame (ps : list string) w w' : Prop :=
  clock w' = clock w ∧ ∀ p, p ∉ ps → files (disk w') !! p = files (disk w) !! p.

#[global] Instance frame_preorder ps : PreOrder (frame ps).
Proof.
  split; [by split|]. intros w1 w2 w3 [Hc H12] [Hc' H23]. split; [congruence|]. intros p Hp. by rewrite H23, H12.
Qed.

Lemma frame_mono ps ps' w w' : ps ⊆ ps' → frame ps w w' → frame ps' w w'.
Proof. intros Hps [Hc Hf]. split; [done|]. intros p Hp. apply Hf. intros Hin. by apply Hp, Hps. Qed.

Lemma keeps_mono {A} ps ps' (m : action World A) : ps ⊆ ps' → keeps (frame ps) m → keeps (frame ps') m.
Proof. intros Hps Hm w w' r Hr. eapply frame_mono; [done|]. by eapply Hm. Qed.

Lemma keeps_onDisk ps f : (∀ d p, p ∉ ps → files (f d).1 !! p = files d !! p) → keeps (frame ps) (onDisk f).
Proof.
  intros Hf w w' r. unfold onDisk. specialize (Hf (disk w)). destruct (f (disk w)) as [d e]. intros [= <- _]. by split.
Qed.

Lemma keeps_call {A} ps (f : Authority → Authority * result A) : keeps (frame ps) (call f).
Proof. intros w w' r. unfold call. destruct (f (authority w)). intros [= <- _]. by split. Qed.

Lemma keeps_given {A} ps (r : result A) : keeps (frame ps) (given r).
Proof. intros w w' r'. by intros [= <- _]. Qed.

Lemma keeps_read {A} ps (f : World → result A) : keeps (frame ps) (λ w, Some (w, f w)).
Proof. intros w w' r'. by intros [= <- _]. Qed.

Lemma diskMkdirAll_files path d : files (diskMkdirAll path d).1 = files d.
Proof. unfold diskMkdirAll. destruct (fault _ _); [done|]. by destruct (existsb _ _). Qed.

Lemma diskOpen_frame path d p : p ∉ [Clean path] → files (diskOpen path d).1 !! p = files d !! p.
Proof.
  intros Hp. destruct (diskOpen path d) as [d' [e|]] eqn:E; [by apply diskOpen_Err in E as ->|].
  apply diskOpen_Ok in E as ->. cbn. apply lookup_insert_ne. set_solver.
Qed.

Lemma diskWrite_frame path content d p : p ∉ [Clean path] → files (diskWrite path content d).1 !! p = files d !! p.
Proof. intros Hp. unfold diskWrite. destruct (fault _ _); cbn; apply lookup_insert_ne; set_solver. Qed.

Lemma diskWriteFile_frame path content d p : p ∉ [Clean path] → files (diskWriteFile path content d).1 !! p = files d !! p.
Proof.
  intros Hp. unfold diskWriteFile. pose proof (diskOpen_frame path d p Hp) as Ho. destruct (diskOpen path d) as [d' [e|]]; [done|].
  rewrite <- Ho. by apply diskWrite_frame.
Qed.

(** One step of an action that keeps what is at other paths. *)
Ltac keep :=
  repeat first
    [ apply keeps_onDisk; intros;
      first [ by rewrite diskMkdirAll_files | apply diskWriteFile_frame; set_solver
            | apply diskOpen_frame; set_solver | apply diskWrite_frame; set_solver ]
    | apply keeps_call | apply keeps_given | apply keeps_read
    | apply keeps_bind; [apply _| |intros ?]
    | apply keeps_mapErr | apply keeps_ret; apply _ | apply keeps_throw; apply _ | apply keeps_deref; apply _
    | apply keeps_gets; apply _ | apply keeps_attempt
    | apply keeps_modify; by split
    | match goal with
      | |- keeps _ (if ?b then _ else _) => destruct b
      | |- keeps _ (let '_ := ?x in _) => destruct x
      | |- keeps _ (match ?x with _ => _ end) => destruct x
      end ].

Lemma checkPath_frame ps p : keeps (frame ps) (checkPath p).
Proof. unfold checkPath, prefixErr. keep. Qed.

Lemma NewLegoUser_frame path email : keeps (frame [Clean path]) (NewLegoUser path email).
Proof. unfold NewLegoUser, Load, registerUser, Save, checkPath, prefixErr. keep. Qed.

Lemma NewLego_frame ci : keeps (frame [Clean (userPath ci)]) (NewLego ci).
Proof.
  apply keeps_bind; [apply _|apply keeps_mapErr, NewLegoUser_frame|]. intros u. unfold SetProvider, prefixErr, setEnviron. keep.
Qed.

Definition certPath ci : string := Clean (parseParams ci (Panel.CertFile ci)).

Definition keyPath ci : string := Clean (parseParams ci (Panel.KeyFile ci)).

Lemma writeCert_frame ci c : keeps (frame [certPath ci; keyPath ci]) (writeCert ci c).
Proof. unfold writeCert, checkPath, prefixErr. keep. Qed.

Lemma RenewCert_frame l : keeps (frame [certPath (config l); keyPath (config l)]) (RenewCert l).
Proof.
  unfold RenewCert, prefixErr. apply keeps_bind; [apply _|apply keeps_mapErr, keeps_read|]. intros c.
  apply keeps_bind; [apply _|apply keeps_gets; apply _|]. intros t. destruct (CheckCert c t) as [[] [e|]]; keep. 
Qed.
(** ** Renewing *)

Lemma due_days t now : (30 <? Z.quot (Until t now) (24 * hour)) = (31 * (24 * hour) <=? t - now).
Proof.
  unfold Until. change (24 * hour) with 86400000000000. unfold max_int64.
  set (u := Z.max _ _). assert (Hu : 31 * 86400000000000 <= u ↔ 31 * 86400000000000 <= t - now) by lia.
  destruct (Z.leb_spec (31 * 86400000000000) (t - now)).
  - apply Z.ltb_lt. rewrite Z.quot_div_nonneg by lia. assert (31 <= u `div` 86400000000000); [|lia]. apply Z.div_le_lower_bound; lia.
  - apply Z.ltb_ge. destruct (Z.le_gt_cases 0 u).
    + rewrite Z.quot_div_nonneg by lia. assert (u `div` 86400000000000 < 31); [|lia]. apply Z.div_lt_upper_bound; lia.
    + transitivity 0; [|lia]. rewrite <- (Z.opp_involutive u), Z.quot_opp_l by lia.
      assert (0 <= Z.quot (- u) 86400000000000); [|lia]. apply Z.quot_pos; lia.
Qed.

(** A name without placeholders. *)
Definition plainName (path : string) : Prop := Forall (λ a, a ≠ "{"%char) (bytes path).

Lemma parseParams_plain ci path : plainName path → parseParams ci path = path.
Proof.
  unfold plainName, parseParams. intros Hp. rewrite <- (of_bytes_bytes path) at 2. f_equal.
  induction Hp as [|a l Ha _ IH]; [done|]. cbn [replaceParams].
  assert (E : ∀ q, HasPrefix (of_bytes (a :: l)) (String "{" q) = false).
  { intros q. by destruct a as [[] [] [] [] [] [] [] []]. }
  rewrite !E. by rewrite IH.
Qed.

Lemma checkPath_there p w : Dir p ∈ dirs (disk w) → checkPath p w = Some (w, Ok ()).
Proof.
  intros Hd. assert (E : exists_ w (Dir p) = true); [|unfold checkPath, gets, mbind, action_bind; by rewrite E].
  unfold exists_, diskStat. destruct (fault _ _); [done|].
  rewrite bool_decide_eq_true_2; [done|]. split; [apply Clean_nonempty|]. right. unfold Dir in *. by rewrite Clean_idem.
Qed.

Definition withFiles (f : gmap string string → gmap string string) w : World :=
  mkWorld (mkDisk (f (files (disk w))) (dirs (disk w))) (environ w) (clock w) (authority w).

Definition withAuthority (a : Authority) w : World := mkWorld (disk w) (environ w) (clock w) a.

Lemma onDisk_write path content w : writable path (disk w) →
  onDisk (diskWriteFile path content) w = Some (withFiles (insert (Clean path) content) w, Ok ()).
Proof. intros Hw. unfold onDisk. by rewrite diskWriteFile_writable. Qed.

(** The files of a certificate can be written, and have names of their own. *)
Definition ready ci w : Prop :=
  plainName (Panel.CertFile ci) ∧ plainName (Panel.KeyFile ci)
  ∧ Clean (Panel.CertFile ci) ≠ Clean (Panel.KeyFile ci)
  ∧ writable (Panel.CertFile ci) (disk w) ∧ Dir (Panel.KeyFile ci) ∈ dirs (disk w).

Definition stored ci (c k : string) : gmap string string → gmap string string :=
  λ fs, <[Clean (Panel.KeyFile ci) := k]> (<[Clean (Panel.CertFile ci) := c]> fs).

Lemma writeCert_cert ci c k w : ready ci w →
  writeCert ci (c, k) w = onDisk (diskWriteFile (Panel.KeyFile ci) k) (withFiles (insert (Clean (Panel.CertFile ci)) c) w).
Proof.
  intros (Hpc & Hpk & Hne & Hwc & Hdk). unfold writeCert. rewrite !parseParams_plain by done.
  unfold mbind, action_bind, prefixErr, mapErr. rewrite checkPath_there by apply Hwc. cbn [fst snd].
  rewrite onDisk_write by done. by rewrite checkPath_there.
Qed.

Lemma writeCert_both ci c k w : ready ci w → writable (Panel.KeyFile ci) (disk w) →
  writeCert ci (c, k) w = Some (withFiles (stored ci c k) w, Ok ()).
Proof. intros Hr Hk. rewrite writeCert_cert by done. by rewrite onDisk_write. Qed.

Lemma RenewCert_read l c0 w : fault OpRead (Panel.CertFile (config l)) = None → Panel.CertFile (config l) ≠ "" →
  files (disk w) !! Clean (Panel.CertFile (config l)) = Some c0 →
  RenewCert l w =
    match NotAfter c0 with
    | Err _ => Some (w, Ok ())
    | Ok t =>
        if 31 * (24 * hour) <=? t - clock w then Some (w, Ok ())
        else match Renew (client l) (Panel.CertDomain (config l)) c0 (authority w) with
             | (a, Err e) => Some (withAuthority a w, Err e)
             | (a, Ok res) => prefixErr "write certificate error: " (writeCert (config l) res) (withAuthority a w)
             end
    end.
Proof.
  intros Hf Hne Hc. unfold RenewCert, mbind, action_bind, prefixErr. cbn [mapErr]. unfold mapErr at 1, diskRead.
  rewrite Hf, bool_decide_eq_false_2, Hc by done. cbn [gets]. unfold gets, CheckCert. destruct (NotAfter c0) as [t|e]; [|done].
  rewrite due_days. destruct (_ <=? _); [done|]. cbn [negb]. unfold call. by destruct (Renew _ _ _ _) as [a [res|e]].
Qed.

(** C29. A renewal, when the certificate and the key have plain names, the file of the
    certificate can be read and both can be written (otherwise see
    [placeholder_reissued] and [failed_key_sticks]). It leaves a certificate alone
    that has 31 days left or that cannot be read as one. Otherwise it asks the
    authority once, for the certificate of the file, and the new certificate and its
    key are stored, both, and nothing else changes; if the authority refuses, they
    stay, both. *)
Theorem RenewCert_exact l c0 w (ci := config l) :
  ready ci w → writable (Panel.KeyFile ci) (disk w) → fault OpRead (Panel.CertFile ci) = None →
  files (disk w) !! Clean (Panel.CertFile ci) = Some c0 →
  RenewCert l w =
    match NotAfter c0 with
    | Err _ => Some (w, Ok ())
    | Ok t =>
        if 31 * (24 * hour) <=? t - clock w then Some (w, Ok ())
        else match Renew (client l) (Panel.CertDomain ci) c0 (authority w) with
             | (a, Err e) => Some (withAuthority a w, Err e)
             | (a, Ok (c, k)) => Some (withFiles (stored ci c k) (withAuthority a w), Ok ())
             end
    end.
Proof.
  intros Hr Hk Hf Hc. rewrite (RenewCert_read l c0) by (try done; apply Hr). fold ci.
  destruct (NotAfter c0); [|done]. destruct (_ <=? _); [done|]. destruct (Renew _ _ _ _) as [a' [[c k]|e]]; [|done].
  unfold prefixErr, mapErr. by rewrite writeCert_both.
Qed.

(** When the key cannot be written, a renewal leaves the new certificate with
    the old key, or with none that is whole; and as long as the new certificate
    has 31 days left the task does nothing about it. *)
Theorem failed_key_sticks l c0 c k a t t' e w (ci := config l) :
  ready ci w → Panel.KeyFile ci ≠ "" → fault OpOpen (Panel.KeyFile ci) = Some e → fault OpRead (Panel.CertFile ci) = None →
  files (disk w) !! Clean (Panel.CertFile ci) = Some c0 → NotAfter c0 = Ok t → t - clock w < 31 * (24 * hour) →
  Renew (client l) (Panel.CertDomain ci) c0 (authority w) = (a, Ok (c, k)) → NotAfter c = Ok t' →
  ∃ w', RenewCert l w = Some (w', Err (errorf ("write certificate error: " +:+ err_msg e)))
  ∧ files (disk w') !! Clean (Panel.CertFile ci) = Some c
  ∧ files (disk w') !! Clean (Panel.KeyFile ci) = files (disk w) !! Clean (Panel.KeyFile ci)
  ∧ ∀ env now a', 31 * (24 * hour) <= t' - now →
      RenewCert l (mkWorld (disk w') env now a') = Some (mkWorld (disk w') env now a', Ok ()).
Proof.
  intros Hr Hkne Hk Hf Hc Ht Hlt Hrenew Ht'. assert (Hne : Clean (Panel.CertFile ci) ≠ Clean (Panel.KeyFile ci)) by apply Hr.
  rewrite (RenewCert_read l c0) by (try done; apply Hr). fold ci. rewrite Ht.
  destruct (Z.leb_spec (31 * (24 * hour)) (t - clock w)); [lia|]. rewrite Hrenew.
  unfold prefixErr, mapErr. rewrite writeCert_cert by done. unfold onDisk, diskWriteFile, diskOpen. rewrite Hk.
  eexists. split; [reflexivity|]. cbn. split; [apply lookup_insert_eq|]. split; [by apply lookup_insert_ne|].
  intros env now a' Hn. rewrite (RenewCert_read l c); [|done|apply Hr|apply lookup_insert_eq]. rewrite Ht'. cbn [clock].
  by destruct (Z.leb_spec (31 * (24 * hour)) (t' - now)); [|lia].
Qed.
(** ** The account *)

(** The formats are read back: the file of an account, a PEM block, and a key
    that was generated. *)
Class AcmeLaws := {
  decode_encode email reg b : Forall graphic (bytes email) →
    decodeUser (encodeUser email reg (EncodeToMemory "EC PRIVATE KEY" b)) = Ok (email, reg, EncodeToMemory "EC PRIVATE KEY" b);
  pem_block type b : pemDecode (EncodeToMemory type b) = Some b;
  generated a a' k : GenerateKey a = (a', Ok k) → ∃ b, MarshalECPrivateKey k = Ok b ∧ ParseECPrivateKey b = Ok k
}.

(** What loading an account needs. *)
Definition accountFile (path : string) d (u : User) : Prop :=
  ∃ data email reg encoded b k, diskRead path d = Ok data ∧ decodeUser data = Ok (email, reg, encoded)
  ∧ pemDecode encoded = Some b ∧ ParseECPrivateKey b = Ok k ∧ u = mkUser email reg (Some k).

Lemma Load_Ok path w w' u : Load path w = Some (w', Ok u) ↔ w' = w ∧ accountFile path (disk w) u.
Proof.
  unfold Load, mbind, action_bind, prefixErr, mapErr, given, deref, DecodePrivate. split.
  - destruct (diskRead path (disk w)) as [data|] eqn:Hr; [|done]. destruct (decodeUser data) as [[[email reg] encoded]|] eqn:Hd; [|done].
    destruct (pemDecode encoded) as [b|] eqn:Hp; [|done]. cbn. destruct (ParseECPrivateKey b) as [k|] eqn:Hk; [|done].
    intros [= <- <-]. split; [done|]. by exists data, email, reg, encoded, b, k.
  - intros (-> & data & email & reg & encoded & b & k & -> & -> & Hp & Hk & ->). rewrite Hp. cbn. by rewrite Hk.
Qed.

Lemma diskRead_Ok path data d :
  diskRead path d = Ok data ↔ fault OpRead path = None ∧ path ≠ "" ∧ files d !! Clean path = Some data.
Proof.
  unfold diskRead. destruct (fault OpRead path); [split; [done|by intros [? _]]|]. case_bool_decide; [split; [done|by intros (_ & ? & _)]|].
  destruct (files d !! Clean path) as [c|]; [split; [by intros [= ->]|by intros (_ & _ & [= ->])]|].
  split; [by case_bool_decide|by intros (_ & _ & ?)].
Qed.

Lemma exists_file path w : path ≠ "" → is_Some (files (disk w) !! Clean path) → exists_ w path = true.
Proof.
  intros Hne Hs. unfold exists_, diskStat. destruct (fault _ _); [done|]. rewrite bool_decide_eq_true_2; [done|]. split; [done|by left].
Qed.

Lemma accountFile_file path d d' u :
  accountFile path d u → files d' !! Clean path = files d !! Clean path → accountFile path d' u.
Proof.
  intros (data & email & reg & encoded & b & k & (Hf & Hne & Hc)%diskRead_Ok & Hd) E.
  exists data, email, reg, encoded, b, k. split; [|done]. apply diskRead_Ok. by rewrite E.
Qed.

Lemma Save_Ok u path w w' : Save u path w = Some (w', Ok ()) →
  path ≠ "" ∧ ∃ k, key u = Some k ∧ files (disk w') !! Clean path =
    Some (encodeUser (Email u) (User_Registration u) (match EncodePrivate k with Ok s => s | Err _ => "" end)).
Proof.
  intros (w1 & [] & _ & Hs)%bind_Ok. destruct (key u) as [k|]; [|done].
  apply bind_Ok in Hs as (w1' & k' & [= <- <-] & Hs). apply bind_Ok in Hs as (w2 & [] & Ho & Hw%mapErr_Ok). unfold onDisk in Ho, Hw.
  destruct (diskOpen path (disk w1)) as [d2 [e|]] eqn:Ed; [done|]. split.
  { intros ->. unfold diskOpen in Ed. by destruct (fault OpOpen ""). }
  exists k. split; [done|]. revert Hw. unfold diskWrite. destruct (fault OpWrite path); [done|]. intros [= <-]. cbn. apply lookup_insert_eq.
Qed.

Lemma registerUser_account `{!AcmeLaws} u path w w' u' :
  Forall graphic (bytes (Email u)) → fault OpRead path = None →
  registerUser u path w = Some (w', Ok u') → accountFile path (disk w') u' ∧ Email u' = Email u.
Proof.
  intros Hg Hf (w1 & k & Hk%mapErr_Ok & (w2 & c & _ & (w3 & reg & _ & (w4 & [] & Hs%mapErr_Ok & Hr)%bind_Ok)%bind_Ok)%bind_Ok)%bind_Ok.
  injection Hr as <- <-. split; [|done]. unfold call in Hk. destruct (GenerateKey (authority w)) as [a r] eqn:Eg. injection Hk as _ ->.
  apply generated in Eg as (b & Hb & Hp). apply Save_Ok in Hs as (Hne & k' & [= <-] & Hs). cbn [Email User_Registration] in Hs.
  unfold EncodePrivate in Hs. rewrite Hb in Hs. cbn [result_bind] in Hs.
  eexists _, _, _, _, b, k. split; [by apply diskRead_Ok|]. split; [by apply decode_encode|]. split_and!; [apply pem_block|done|done].
Qed.

(** C37. An account that was registered, or found on the disk, is found again: with
    the same key and registration, and without a word to the authority. *)
Theorem account_once `{!AcmeLaws} path email w w1 u : Forall graphic (bytes email) → fault OpRead path = None →
  NewLegoUser path email w = Some (w1, Ok u) →
  Email u = email ∧ ∀ w2, files (disk w2) !! Clean path = files (disk w1) !! Clean path →
    NewLegoUser path email w2 = Some (w2, Ok u).
Proof.
  intros Hg Hf Hn. assert (Ha : accountFile path (disk w1) u ∧ Email u = email).
  { revert Hn. unfold NewLegoUser, gets, mbind at 1, action_bind at 1. destruct (exists_ w path).
    - intros (w' & u' & (-> & Hl)%Load_Ok & Hu)%bind_Ok. destruct (bool_decide_reflect (Email u' ≠ email)) as [Hne|He].
      + by eapply registerUser_account in Hu.
      + injection Hu as <- <-. split; [done|by apply dec_stable].
    - intros Hu. by eapply registerUser_account in Hu. }
  destruct Ha as [Ha He]. split; [done|]. intros w2 Hw2. pose proof (accountFile_file _ _ _ _ Ha Hw2) as Ha2.
  assert (Hx : exists_ w2 path = true).
  { destruct Ha2 as (data & ? & ? & ? & ? & ? & (_ & Hne & Hc)%diskRead_Ok & _). apply exists_file; [done|by eexists]. }
  unfold NewLegoUser, gets, mbind at 1, action_bind at 1. rewrite Hx. unfold mbind, action_bind.
  rewrite (proj2 (Load_Ok path w2 w2 u)) by done. by rewrite bool_decide_eq_false_2 by (intros E; by apply E).
Qed.

(** ** Asking for the certificate *)

Lemma legoCert_Ok ci w w' : Certs.legoCert ci w = Some (w', Ok ()) →
  ∃ w1 c a a' res, frame [Clean (userPath ci)] w w1 ∧ Obtain c [Panel.CertDomain ci] a = (a', Ok res)
    ∧ files (disk w') = <[keyPath ci := res.2]> (<[certPath ci := res.1]> (files (disk w1)))
    ∧ frame [certPath ci; keyPath ci] w1 w' ∧ Panel.CertFile ci ≠ "".
Proof.
  intros (w1 & l & Hl%mapErr_Ok & Hc%mapErr_Ok)%bind_Ok. pose proof (NewLego_frame ci w w1 _ Hl) as Hf.
  assert (Hcl : config l = ci).
  { apply bind_Ok in Hl as (? & ? & _ & (? & ? & _ & (? & ? & _ & [= _ <-])%bind_Ok)%bind_Ok). done. }
  apply bind_Ok in Hc as (w2 & res & Ho%mapErr_Ok & Hw%mapErr_Ok). rewrite Hcl in Ho, Hw. unfold call in Ho.
  destruct (Obtain _ _ _) as [a' r] eqn:Eo. injection Ho as <- ->.
  set (w2 := mkWorld _ _ _ _) in Hw. pose proof (writeCert_frame ci res w2 w' _ Hw) as [Hck Hfr].
  exists w1, (client l), (authority w1), a', res. split; [done|]. split; [done|].
  apply bind_Ok in Hw as (w3 & [] & Hp & (w4 & [] & Hcw & (w5 & [] & Hp' & Hk)%bind_Ok)%bind_Ok).
  assert (Hsame : ∀ p v v', checkPath p v = Some (v', Ok ()) → files (disk v') = files (disk v)).
  { intros p v v' Hv. apply map_eq. intros i. by eapply (checkPath_frame [] p v v'); [|apply not_elem_of_nil]. }
  apply mapErr_Ok, Hsame in Hp, Hp'. unfold onDisk in Hcw, Hk.
  destruct (diskWriteFile _ res.1 _) as [d4 [e|]] eqn:E4; [done|]. destruct (diskWriteFile _ res.2 _) as [d6 [e|]] eqn:E6; [done|].
  injection Hcw as <-. injection Hk as <-. split_and!.
  - apply diskWriteFile_Ok in E4 as ->, E6 as ->. cbn in *. rewrite Hp'. cbn. rewrite Hp. done.
  - by split.
  - intros Hne. rewrite Hne in E4. unfold diskWriteFile, diskOpen in E4. change (parseParams ci "") with "" in E4. by destruct (fault OpOpen "").
Qed.

Definition fromAuthority ci : Prop := Panel.CertMode ci = "dns" ∨ Panel.CertMode ci = "http".

Lemma requestCert_authority conf info cm ci w : Panel.Common info = Some cm → Panel.Cert_Info cm = Some ci → fromAuthority ci →
  Certs.requestCert conf info w =
    if bool_decide (Panel.CertFile ci = "") || bool_decide (Panel.KeyFile ci = "") then Some (w, Some Certs.noPath)
    else if exists_ w (Panel.CertFile ci) && exists_ w (Panel.KeyFile ci) then Some (w, None)
    else Certs.errorOf (Certs.legoCert ci w).
Proof.
  intros Hc Hi Hm. unfold Certs.requestCert. rewrite Hc. cbn [mbind option_bind]. rewrite Hi.
  destruct Hm as [Hm|Hm]; rewrite Hm; reflexivity.
Qed.

(** C26. For a certificate from the authority (the modes "dns" and "http") whose file
    and key have plain names (without placeholders, see [placeholder_reissued]) and
    are two files: once it was asked for with success, asking again changes nothing,
    no other file but the account was touched, and either nothing was touched at all
    or the certificate and its key are there, from one answer of the authority. *)
Theorem requestCert_once conf info cm ci w w' :
  Panel.Common info = Some cm → Panel.Cert_Info cm = Some ci → fromAuthority ci →
  plainName (Panel.CertFile ci) → plainName (Panel.KeyFile ci) → Clean (Panel.CertFile ci) ≠ Clean (Panel.KeyFile ci) →
  Certs.requestCert conf info w = Some (w', None) →
  Certs.requestCert conf info w' = Some (w', None)
  ∧ frame [Clean (userPath ci); Clean (Panel.CertFile ci); Clean (Panel.KeyFile ci)] w w'
  ∧ (w' = w ∨ ∃ c a a' cert k, Obtain c [Panel.CertDomain ci] a = (a', Ok (cert, k))
       ∧ files (disk w') !! Clean (Panel.CertFile ci) = Some cert ∧ files (disk w') !! Clean (Panel.KeyFile ci) = Some k).
Proof.
  intros Hcm Hci Hm Hpc Hpk Hne. rewrite !(requestCert_authority _ _ _ _ _ Hcm Hci Hm).
  destruct (_ || _) eqn:Hn; [done|]. destruct (exists_ w _ && exists_ w _) eqn:Hx.
  - intros [= <-]. rewrite Hx. split_and!; [done|done|by left].
  - destruct (@Certs.legoCert legoCerts ci w) as [[w1 [[]|e]]|] eqn:Hl; [|done..]. intros [= <-].
    apply legoCert_Ok in Hl as (w2 & c & a & a' & [cert k] & Hf & Ho & Hw & Hf' & _).
    unfold certPath, keyPath in *. rewrite !parseParams_plain in Hw, Hf' by done. cbn [fst snd] in Hw.
    assert (Hk : files (disk w1) !! Clean (Panel.KeyFile ci) = Some k) by (rewrite Hw; apply lookup_insert_eq).
    assert (Hc : files (disk w1) !! Clean (Panel.CertFile ci) = Some cert) by (rewrite Hw, lookup_insert_ne by done; apply lookup_insert_eq).
    bool_to_prop. rewrite !exists_file by (done || by eexists). split; [done|]. split; [|right; by exists c, a, a', cert, k].
    etrans; eapply frame_mono; [|exact Hf| |exact Hf']; set_solver.
Qed.

(** A name with placeholders is looked for as it is written, and written with
    them filled in: after a certificate was obtained the next request obtains
    another one, and the task that renews it never finds it. *)
Theorem placeholder_reissued conf info cm ci w w' :
  Panel.Common info = Some cm → Panel.Cert_Info cm = Some ci → fromAuthority ci →
  Clean (Panel.CertFile ci) ∉ [Clean (userPath ci); certPath ci; keyPath ci] →
  exists_ w (Panel.CertFile ci) = false → Clean (Panel.CertFile ci) ∉ dirs (disk w') → fault OpRead (Panel.CertFile ci) = None →
  Certs.requestCert conf info w = Some (w', None) →
  Certs.requestCert conf info w' = Certs.errorOf (Certs.legoCert ci w')
  ∧ ∀ l, config l = ci → RenewCert l w' = Some (w', Err (errorf ("read cert file error: " +:+ err_msg (noEntry (Panel.CertFile ci))))).
Proof.
  intros Hcm Hci Hm Hp Hx Hd Hf. rewrite !(requestCert_authority _ _ _ _ _ Hcm Hci Hm). rewrite Hx. cbn [andb].
  destruct (_ || _) eqn:Hn; [done|]. destruct (@Certs.legoCert legoCerts ci w) as [[w1 [[]|e]]|] eqn:Hl; [|done..]. intros [= ->].
  apply legoCert_Ok in Hl as (w2 & c & a & a' & res & [_ Hf1] & Ho & _ & [_ Hf2] & Hne).
  assert (Hnone : files (disk w') !! Clean (Panel.CertFile ci) = None).
  { rewrite Hf2, Hf1 by set_solver. apply eq_None_not_Some. intros Hs. by rewrite exists_file in Hx. }
  split.
  - replace (exists_ w' (Panel.CertFile ci)) with false; [done|]. symmetry. revert Hx. unfold exists_, diskStat.
    destruct (fault OpStat _); [done|]. intros _. rewrite bool_decide_eq_false_2; [done|]. rewrite Hnone. by intros (_ & [[? ?]|?]).
  - intros l Hl. unfold RenewCert, mbind, action_bind, prefixErr, mapErr, diskRead. rewrite Hl, Hf, Hnone.
    rewrite bool_decide_eq_false_2 by done. by rewrite bool_decide_eq_false_2.
Qed.
End props.
Module Examples.

(** The file of an account: the key, marked byte for byte, and the email. *)
Fixpoint putKey (k email : string) : string :=
  match k with EmptyString => String "." email | String c k => String "+" (String c (putKey k email)) end.

Fixpoint getKey (s : string) : option (string * string) :=
  match s with
  | String a rest =>
      if Ascii.eqb a "." then Some ("", rest)
      else match rest with
           | String c rest => '(k, email) ← getKey rest; Some (String c k, email)
           | EmptyString => None
           end
  | EmptyString => None
  end.

Lemma getKey_putKey k email : getKey (putKey k email) = Some (k, email).
Proof. induction k as [|c k IH]; [done|]. cbn. by rewrite IH. Qed.

(** An authority that counts what it was asked; keys are their own texts, and a
    certificate is valid until the time its text has. *)
#[local] Instance exampleAcme : Acme := {|
  Authority := nat;
  PrivateKey := string;
  Registration := unit;
  AcmeClient := unit;
  Provider := unit;
  GenerateKey n := (S n, Ok "key");
  MarshalECPrivateKey k := Ok k;
  ParseECPrivateKey b := Ok b;
  EncodeToMemory _ b := "-" +:+ b;
  pemDecode s := match s with String "-" b => Some b | _ => None end;
  encodeUser email reg k := String (match reg with Some _ => "r" | None => "n" end) (putKey k email);
  decodeUser s :=
    match s with
    | String a s =>
        match getKey s with
        | Some (k, email) => Ok (email, if Ascii.eqb a "r" then Some () else None, k)
        | None => Err (errorf "unexpected end of JSON input")
        end
    | EmptyString => Err (errorf "unexpected end of JSON input")
    end;
  NewClient _ _ _ n := (n, Ok ());
  Register _ n := (S n, Ok ());
  SetHTTP01Provider c := Ok c;
  NewDNSChallengeProviderByName _ _ n := (n, Ok ());
  SetDNS01Provider _ c := Ok c;
  Obtain _ _ n := (S n, Ok ("100", "k" +:+ Itoa (Z.of_nat n)));
  Renew _ _ _ n := (S n, Ok ("9000000000000000", "k" +:+ Itoa (Z.of_nat n)));
  NotAfter s := match Atoi s with Some t => Ok t | None => Err (errorf "no certificate") end
|}.

#[local] Instance exampleSelf : SelfSigned := {|
  rsaKey := None; selfCertificate d := Ok d; rsaKeyText := "rsa"; pemText _ s := s
|}.

#[local] Instance exampleLaws : AcmeLaws.
Proof.
  split.
  - intros email [[]|] b _; cbn -[putKey]; by rewrite getKey_putKey.
  - done.
  - intros a a' k [= <- <-]. by eexists.
Qed.

Definition noFaults : Faults := {| fault _ _ := None; landed _ := 0%nat |}.

(** The key of the certificate cannot be opened. *)
Definition keyFault : Faults :=
  {| fault op p :=
       match op with
       | OpOpen => if bool_decide (p = "/c/a.key") then Some (errorf "read-only") else None
       | _ => None
       end;
     landed _ := 0%nat |}.

Definition exampleInfo (cert : string) : Panel.CertInfo :=
  Panel.mkCertInfo "dns" cert "/c/a.key" "m@x" "a.b" {["TOKEN" := "t"]} "cloudflare" false.

Definition exampleWorld (fs : gmap string string) : World :=
  mkWorld (mkDisk fs {["/c"; "/"; "."]}) ∅ 0 5%nat.

Definition exampleCommon (ci : Panel.CertInfo) : Panel.CommonNode :=
  let '(Panel.mkCommonNode pr li po ps p r b t ts _ n ns e es sn f ci' sk cc z pa up dn ob op ig tr mu) := Panel.zeroCommon in
  Panel.mkCommonNode pr li po ps p r b t ts (Some ci) n ns e es sn f ci' sk cc z pa up dn ob op ig tr mu.

Definition exampleNode (ci : Panel.CertInfo) : Panel.NodeInfo := Panel.mkNodeInfo 1 "trojan" 1 60 60 "t" (Some (exampleCommon ci)).

Definition exampleLego (cert : string) : Lego := mkLego () (exampleInfo cert).

Lemma exampleTarget_ready fs : ready (H := noFaults) (exampleInfo "/c/a.cer") (exampleWorld fs).
Proof.
  split_and!; [| |done|split_and!|]; try done; try (apply (bool_decide_unpack _); vm_compute; exact I).
Qed.

Lemma account_once_witness :
  ∃ w u, NewLegoUser (H := noFaults) "/c/user/user-m@x.json" "m@x" (exampleWorld ∅) = Some (w, Ok u)
  ∧ NewLegoUser (H := noFaults) "/c/user/user-m@x.json" "m@x" w = Some (w, Ok u) ∧ Nat.eqb (authority w) 7 = true.
Proof.
  assert (Hrun : match NewLegoUser (H := noFaults) "/c/user/user-m@x.json" "m@x" (exampleWorld ∅) with
    | Some (w, Ok _) => Nat.eqb (authority w) 7 | _ => false end = true) by (vm_compute; reflexivity).
  destruct (NewLegoUser (H := noFaults) "/c/user/user-m@x.json" "m@x" (exampleWorld ∅)) as [[w [u|e]]|] eqn:E; [|discriminate Hrun..].
  exists w, u. split; [reflexivity|]. split; [|exact Hrun].
  refine (proj2 (@account_once noFaults exampleAcme exampleLaws _ _ _ _ _ _ _ E) w eq_refl); [|reflexivity].
  apply (bool_decide_unpack _). vm_compute. exact I.
Defined.

Lemma RenewCert_exact_witness :
  let w := exampleWorld {["/c/a.cer" := "100"; "/c/a.key" := "old"]} in
  RenewCert (H := noFaults) (exampleLego "/c/a.cer") w
  = Some (withFiles (stored (exampleInfo "/c/a.cer") "9000000000000000" "k5") (@withAuthority exampleAcme 6%nat w), Ok ()).
Proof.
  cbn zeta. rewrite (@RenewCert_exact noFaults exampleAcme (exampleLego "/c/a.cer") "100").
  - reflexivity.
  - apply exampleTarget_ready.
  - apply (bool_decide_unpack _). vm_compute. exact I.
  - reflexivity.
  - reflexivity.
Defined.

Lemma failed_key_sticks_witness :
  ∃ w', RenewCert (H := keyFault) (exampleLego "/c/a.cer") (exampleWorld {["/c/a.cer" := "100"; "/c/a.key" := "old"]})
    = Some (w', Err (errorf "write certificate error: read-only"))
  ∧ RenewCert (H := keyFault) (exampleLego "/c/a.cer") w' = Some (w', Ok ()).
Proof.
  destruct (@failed_key_sticks keyFault exampleAcme (exampleLego "/c/a.cer") "100" "9000000000000000" "k5" 6%nat 100
    9000000000000000 (errorf "read-only") (exampleWorld {["/c/a.cer" := "100"; "/c/a.key" := "old"]})) as (w' & Hr & _ & _ & Hn).
  - split_and!; [| |done|split_and!|]; try done; try (apply (bool_decide_unpack _); vm_compute; exact I).
  - done.
  - reflexivity.
  - reflexivity.
  - reflexivity.
  - reflexivity.
  - vm_compute. reflexivity.
  - reflexivity.
  - reflexivity.
  - exists w'. split; [exact Hr|]. destruct w' as [d env now a]. refine (Hn env now a _).
    assert (Hc : match RenewCert (H := keyFault) (exampleLego "/c/a.cer") (exampleWorld {["/c/a.cer" := "100"; "/c/a.key" := "old"]}) with
      | Some (w, _) => clock w | None => 0 end = 0) by (vm_compute; reflexivity).
    rewrite Hr in Hc. cbn in Hc. rewrite Hc. vm_compute. discriminate.
Defined.

Lemma requestCert_once_witness :
  ∃ w, Certs.requestCert (H := @legoCerts noFaults exampleAcme exampleSelf) None (exampleNode (exampleInfo "/c/a.cer")) (exampleWorld ∅) = Some (w, None)
  ∧ Certs.requestCert (H := @legoCerts noFaults exampleAcme exampleSelf) None (exampleNode (exampleInfo "/c/a.cer")) w = Some (w, None).
Proof.
  assert (Hrun : match Certs.requestCert (H := @legoCerts noFaults exampleAcme exampleSelf) None (exampleNode (exampleInfo "/c/a.cer")) (exampleWorld ∅) with
    | Some (_, None) => true | _ => false end = true) by (vm_compute; reflexivity).
  destruct (Certs.requestCert None (exampleNode (exampleInfo "/c/a.cer")) _) as [[w [e|]]|] eqn:E; [discriminate Hrun| |discriminate Hrun].
  exists w. split; [reflexivity|].
  refine (proj1 (@requestCert_once noFaults exampleAcme exampleSelf None (exampleNode (exampleInfo "/c/a.cer"))
    (exampleCommon (exampleInfo "/c/a.cer")) (exampleInfo "/c/a.cer") _ w eq_refl eq_refl (or_introl eq_refl) _ _ _ E)).
  - apply (bool_decide_unpack _). vm_compute. exact I.
  - apply (bool_decide_unpack _). vm_compute. exact I.
  - apply (bool_decide_unpack _). vm_compute. exact I.
Defined.

Lemma placeholder_reissued_witness :
  ∃ w, Certs.requestCert (H := @legoCerts noFaults exampleAcme exampleSelf) None (exampleNode (exampleInfo "/c/{domain}.cer")) (exampleWorld ∅) = Some (w, None)
  ∧ RenewCert (H := noFaults) (exampleLego "/c/{domain}.cer") w
    = Some (w, Err (errorf "read cert file error: open /c/{domain}.cer: no such file or directory")).
Proof.
  assert (Hrun : match Certs.requestCert (H := @legoCerts noFaults exampleAcme exampleSelf) None (exampleNode (exampleInfo "/c/{domain}.cer")) (exampleWorld ∅) with
    | Some (w, None) => bool_decide (Clean "/c/{domain}.cer" ∉ dirs (disk (w : World))) | _ => false end = true) by (vm_compute; reflexivity).
  destruct (Certs.requestCert None (exampleNode (exampleInfo "/c/{domain}.cer")) _) as [[w [e|]]|] eqn:E; [discriminate Hrun| |discriminate Hrun].
  exists w. split; [reflexivity|].
  refine (proj2 (@placeholder_reissued noFaults exampleAcme exampleSelf None (exampleNode (exampleInfo "/c/{domain}.cer"))
    (exampleCommon (exampleInfo "/c/{domain}.cer")) (exampleInfo "/c/{domain}.cer") _ w eq_refl eq_refl (or_introl eq_refl) _ _ (bool_decide_unpack _ _) _ E)
    (exampleLego "/c/{domain}.cer") eq_refl).
  - apply (bool_decide_unpack _). vm_compute. exact I.
  - vm_compute. reflexivity.
  - apply Is_true_true_2. exact Hrun.
  - reflexivity.
Defined.

(** The file of an account that has no key. *)
Example empty_account_panics :
  match NewLegoUser (H := noFaults) "/c/u" "m@x" (exampleWorld {["/c/u" := String "r" (putKey "" "m@x")]}) with
  | None => true | Some _ => false
  end = true.
Proof. vm_compute. reflexivity. Qed.
End Examples.
End LegoProps.
