(* ===== verification/RealtimeClient.v ===== *)
(** * The connection of the realtime client (node/realtime.go)

    The goroutines of a [RealtimeClient]: the one that dials, reads and dials
    again ([run], [connectAndServe]), and for each connection one that writes what
    was queued and the heartbeats. They are a step relation: what the panel, the
    network and the clock do is in the events. The workers that fill the queue are
    in Realtime.v. *)

From Stdlib Require Import Ascii.
From S2P Require Import Prelude GoStrings GoText UrlForm Conf Realtime Health.

Module RealtimeClient.
Import GoStrings GoText UrlForm Realtime.

(** ** The address *)

(** [url.Values] with several values for a key. *)
Abbreviation Query := (gmap string (list string)).

Definition addValue (v : Query) (kv : string * string) : Query :=
  <[kv.1 := default [] (v !! kv.1) ++ [kv.2]]> v.

Definition noSemicolon (s : string) : bool := negb (existsb (λ a, Ascii.eqb a ";") (bytes s)).

(** [u.Query()]: what cannot be read is left out. *)
Definition ParseQuery (raw : string) : Query :=
  foldl addValue ∅ (omap parsePair (filter (λ s, s ≠ "" ∧ noSemicolon s = true) (Split "&"%char raw))).

Definition queryPairs (v : Query) : list (string * string) :=
  sortStrings (map_to_list v).*1 ≫= λ k, pair k <$> default [] (v !! k).

(** [v.Encode()] *)
Definition EncodeQuery (v : Query) : string := Join "&" (encodePair <$> queryPairs v).

Definition setValue (key value : string) (v : Query) : Query := <[key := [value]]> v.

(** More of a [url.URL]: its query, and [String] with another one. *)
Class QueryURL `{NetURL} := {
  RawQuery : ParsedURL → string;
  StringWithQuery : ParsedURL → string → string
}.

Definition dialQuery (opts : RealtimeOptions) (query : Query) : Query :=
  let query := setValue "node_type" (NodeType opts)
                 (setValue "node_id" (Itoa (NodeID opts)) (setValue "token" (Token opts) query)) in
  if 0 <? MachineID opts then setValue "machine_id" (Itoa (MachineID opts)) query else query.

Definition buildDialURL `{QueryURL} (opts : RealtimeOptions) : option string :=
  parsed ← Parse (URL opts);
  Some (StringWithQuery parsed (EncodeQuery (dialQuery opts (ParseQuery (RawQuery parsed))))).

(** ** The goroutines *)

(** What is written to a connection, by its origin. *)
Inductive Frame :=
| HelloFrame (now : Z) (health : option Health.RealtimeHealthSnapshot)
| Heartbeat (now : Z) (health : option Health.RealtimeHealthSnapshot)
| PongFrame (now : Z)
| Outbound (message : realtimeMessage).

(** The message and its health, as they are encoded. *)
Definition contents (opts : RealtimeOptions) (f : Frame) : realtimeMessage * option Health.RealtimeHealthSnapshot :=
  match f with
  | HelloFrame now h =>
      (mkMessage "ping" "" "" "" "" "" 0 0 now (Token opts) (Itoa (NodeID opts)) (MachineID opts) (NodeType opts), h)
  | Heartbeat now h => (mkMessage "ping" "" "" "" "" "" 0 0 now "" "" 0 "", h)
  | PongFrame now => (pong now, None)
  | Outbound m => (m, None)
  end.

(** A connection: what was written to it, and whether this side has not closed it. *)
Record Conn := mkConn { dialed : string; sent : list Frame; isOpen : bool }.

(** Where [run] is: at the top of its loop, in the dialer, before the first
    message, at the top of the read loop, in [ReadMessage], before it dials again,
    and at its end. A connection is known by its number. *)
Inductive Phase :=
| Idle | Dialing (url : string) | Greeting (n : nat) | Checking (n : nat) | Reading (n : nat) | Waiting | Exited.

(** [finished] are the connections whose [done] is closed. The last three are
    not part of the client: what [Send] took, what was read, and what
    [onMessage] was called with. *)
Record ClientState := mkState {
  ctxDone : bool;
  phase : Phase;
  conns : list Conn;
  writers : gset nat;
  finished : gset nat;
  sendCh : Chan realtimeMessage;
  accepted : list realtimeMessage;
  received : list realtimeMessage;
  delivered : list realtimeMessage
}.

Implicit Types s : ClientState.

Definition NewRealtimeClient : ClientState := mkState false Idle [] ∅ ∅ (mkChan 64 []) [] [] [].

(** Updates. *)
Definition toPhase (p : Phase) s : ClientState :=
  mkState (ctxDone s) p (conns s) (writers s) (finished s) (sendCh s) (accepted s) (received s) (delivered s).

Definition withConns (cs : list Conn) s : ClientState :=
  mkState (ctxDone s) (phase s) cs (writers s) (finished s) (sendCh s) (accepted s) (received s) (delivered s).

Definition withWriters (ws : gset nat) s : ClientState :=
  mkState (ctxDone s) (phase s) (conns s) ws (finished s) (sendCh s) (accepted s) (received s) (delivered s).

Definition withQueue (c : Chan realtimeMessage) (a : list realtimeMessage) s : ClientState :=
  mkState (ctxDone s) (phase s) (conns s) (writers s) (finished s) c a (received s) (delivered s).

Definition cancel s : ClientState :=
  mkState true (phase s) (conns s) (writers s) (finished s) (sendCh s) (accepted s) (received s) (delivered s).

Definition write (f : Frame) (c : Conn) : Conn := mkConn (dialed c) (sent c ++ [f]) (isOpen c).

Definition shut (c : Conn) : Conn := mkConn (dialed c) (sent c) false.

Definition writeTo (n : nat) (f : Frame) s : ClientState := withConns (alter (write f) n (conns s)) s.

Definition shutConn (n : nat) s : ClientState := withConns (alter shut n (conns s)) s.

Definition openConn (n : nat) s : Prop := isOpen <$> conns s !! n = Some true.

(** The deferred calls of [connectAndServe]. *)
Definition leave (n : nat) s : ClientState :=
  let s := toPhase Waiting (shutConn n s) in
  mkState (ctxDone s) (phase s) (conns s) (writers s) ({[n]} ∪ finished s) (sendCh s) (accepted s) (received s) (delivered s).

Definition SendTo (m : realtimeMessage) s : ClientState :=
  withQueue (Send m (sendCh s))
    (if (length (queued (sendCh s)) <? cap (sendCh s))%nat then accepted s ++ [m] else accepted s) s.

(** Reading a message, which is [None] if it is not JSON; [ok] is whether an
    answer could be written. *)
Definition receive (n : nat) (now : Z) (ok : bool) (m : option realtimeMessage) s : ClientState :=
  match m with
  | None => toPhase (Checking n) s
  | Some m =>
      let s := mkState (ctxDone s) (Checking n) (conns s) (writers s) (finished s) (sendCh s) (accepted s)
                 (received s ++ [m]) (match react m with Invalidate => delivered s ++ [m] | _ => delivered s end) in
      match react m with
      | Pong => if ok then writeTo n (PongFrame now) s else s
      | _ => s
      end
  end.

(** What happens: the owner's calls, a step of [run], which may be one that the
    network takes part in, and a step of the goroutine of a connection. *)
Inductive event :=
| Cancel
| Enqueue (m : realtimeMessage)
| Run
| Dialed (ok : bool)
| Greeted (ok : bool)
| Received (m : option realtimeMessage)
| ReadFailed
| Written (n : nat).

Section client.
Context `{QueryURL} (opts : RealtimeOptions).

Inductive step : event → ClientState → ClientState → Prop :=
| step_cancel s : step Cancel s (cancel s)
| step_send m s : step (Enqueue m) s (SendTo m s)
(* run *)
| step_exit s : phase s = Idle ∨ phase s = Waiting → ctxDone s = true → step Run s (toPhase Exited s)
| step_bad_url s : phase s = Idle → ctxDone s = false → buildDialURL opts = None → step Run s (toPhase Waiting s)
| step_dial s u : phase s = Idle → ctxDone s = false → buildDialURL opts = Some u → step Run s (toPhase (Dialing u) s)
| step_again s : phase s = Waiting → step Run s (toPhase Idle s)
(* connectAndServe *)
| step_dial_failed s u : phase s = Dialing u → step (Dialed false) s (toPhase Waiting s)
| step_dialed s u : phase s = Dialing u →
    step (Dialed true) s (withConns (conns s ++ [mkConn u [] true]) (toPhase (Greeting (length (conns s))) s))
| step_hello_failed s n : phase s = Greeting n → step (Greeted false) s (toPhase Waiting (shutConn n s))
| step_hello s n now h : phase s = Greeting n →
    step (Greeted true) s (withWriters ({[n]} ∪ writers s) (toPhase (Checking n) (writeTo n (HelloFrame now h) s)))
| step_stop s n : phase s = Checking n → ctxDone s = true → step Run s (leave n s)
| step_read s n : phase s = Checking n → ctxDone s = false → step Run s (toPhase (Reading n) s)
| step_read_failed s n : phase s = Reading n → step ReadFailed s (leave n s)
| step_receive s n now ok m : phase s = Reading n → (ok = true → openConn n s) →
    step (Received m) s (receive n now ok m s)
(* the goroutine of a connection *)
| step_writer_exit s n : n ∈ writers s → n ∈ finished s ∨ ctxDone s = true →
    step (Written n) s (withWriters (writers s ∖ {[n]}) s)
| step_write s n m ch : n ∈ writers s → dequeue (sendCh s) = Some (m, ch) → openConn n s →
    step (Written n) s (withQueue ch (accepted s) (writeTo n (Outbound m) s))
| step_write_failed s n m ch : n ∈ writers s → dequeue (sendCh s) = Some (m, ch) →
    step (Written n) s (withQueue ch (accepted s) (withWriters (writers s ∖ {[n]}) (shutConn n s)))
| step_ping s n now h : n ∈ writers s → 0 < PingInterval opts → openConn n s →
    step (Written n) s (writeTo n (Heartbeat now h) s)
| step_ping_failed s n : n ∈ writers s → 0 < PingInterval opts →
    step (Written n) s (withWriters (writers s ∖ {[n]}) (shutConn n s)).

(** A run of the client. *)
Inductive steps : list event → ClientState → ClientState → Prop :=
| steps_refl s : steps [] s s
| steps_snoc es e s s1 s2 : steps es s s1 → step e s1 s2 → steps (es ++ [e]) s s2.

Definition reachable s : Prop := ∃ es, steps es NewRealtimeClient s.
End client.
End RealtimeClient.
