(* ===== verification/RealtimeClientProps.v ===== *)
(** * Properties of the realtime client

    The address that is dialed; that there is one connection at a time, which
    begins with the credentials and carries what was queued in its order; and
    what [Close] waits for. *)

From Stdlib Require Import Ascii.
From S2P Require Import Prelude GoStrings GoText UrlForm Conf Realtime Health RealtimeClient.

Module RealtimeClientProps.
Import GoStrings GoText UrlForm Realtime RealtimeClient.

(** ** The address *)

(** The values of a key in a list of pairs. *)
Definition valuesOf (k : string) (l : list (string * string)) : list string := (filter (λ kv, kv.1 = k) l).*2.

Lemma foldl_addValue k l v :
  default [] (foldl addValue v l !! k) = default [] (v !! k) ++ valuesOf k l.
Proof.
  revert v. induction l as [|[k' x] l IH]; intros v; [by rewrite app_nil_r|]. cbn [foldl]. rewrite IH. unfold addValue, valuesOf. cbn [fst snd].
  destruct (decide (k' = k)) as [->|Hne].
  - rewrite lookup_insert_eq, filter_cons_True by done. cbn. by rewrite <- app_assoc.
  - rewrite lookup_insert_ne, filter_cons_False by done. done.
Qed.

Lemma foldl_addValue_Some k l v : is_Some (foldl addValue v l !! k) ↔ is_Some (v !! k) ∨ valuesOf k l ≠ [].
Proof.
  revert v. induction l as [|[k' x] l IH]; intros v; [cbn; naive_solver|]. cbn [foldl]. rewrite IH. unfold addValue, valuesOf. cbn [fst snd].
  destruct (decide (k' = k)) as [->|Hne].
  - rewrite lookup_insert_eq, filter_cons_True by done. cbn. split; [by right|]. intros _. left. by eexists.
  - by rewrite lookup_insert_ne, filter_cons_False by done.
Qed.

Lemma valuesOf_bind k (v : Query) keys : NoDup keys →
  valuesOf k (keys ≫= λ k, pair k <$> default [] (v !! k)) = if bool_decide (k ∈ keys) then default [] (v !! k) else [].
Proof.
  assert (Hone : ∀ k' vs, valuesOf k (pair k' <$> vs) = if bool_decide (k' = k) then vs else []).
  { intros k' vs. unfold valuesOf. case_bool_decide as Hk.
    - induction vs as [|x vs IH]; [done|]. cbn [fmap list_fmap]. rewrite filter_cons_True by done. cbn. by rewrite IH.
    - induction vs as [|x vs IH]; [done|]. cbn [fmap list_fmap]. by rewrite filter_cons_False. }
  induction 1 as [|k' keys Hk _ IH]; [done|]. cbn [mbind list_bind]. unfold valuesOf in *. rewrite filter_app, fmap_app, IH, Hone.
  destruct (decide (k' = k)) as [->|Hne].
  - rewrite bool_decide_eq_true_2 by done. rewrite bool_decide_eq_false_2 by done. rewrite bool_decide_eq_true_2 by set_solver. apply app_nil_r.
  - rewrite (bool_decide_eq_false_2 (k' = k)) by done. cbn [app]. rewrite !(bool_decide_ext (k ∈ k' :: keys) (k ∈ keys)) by set_solver. done.
Qed.

Lemma sortStrings_NoDup l : NoDup l → NoDup (sortStrings l).
Proof. intros H. by rewrite sortStrings_Permutation. Qed.

(** A query is read back as it was. *)
Definition noEmpty (v : Query) : Prop := ∀ k, v !! k ≠ Some [].

Lemma foldl_queryPairs v : noEmpty v → foldl addValue ∅ (queryPairs v) = v.
Proof.
  intros Hv. apply map_eq. intros k. pose proof (foldl_addValue k (queryPairs v) ∅) as H1.
  pose proof (foldl_addValue_Some k (queryPairs v) ∅) as H2. rewrite lookup_empty in H1, H2. cbn in H1.
  assert (Hvs : valuesOf k (queryPairs v) = default [] (v !! k)).
  { unfold queryPairs. rewrite valuesOf_bind by apply sortStrings_NoDup, NoDup_fst_map_to_list.
    case_bool_decide as Hk; [done|]. destruct (v !! k) as [vs|] eqn:E; [|done]. destruct Hk.
    rewrite sortStrings_Permutation. apply (list_elem_of_fmap_2' fst _ (k, vs)); [by apply elem_of_map_to_list|done]. }
  rewrite Hvs in H1, H2. destruct (foldl addValue ∅ (queryPairs v) !! k) as [vs|] eqn:E.
  - cbn in H1. subst vs. destruct (v !! k) as [vs|]; [done|]. exfalso. destruct (proj1 H2) as [[? ?]|?]; [by eexists|done|done].
  - destruct (v !! k) as [vs|] eqn:Ev; [|done]. exfalso. destruct (proj2 H2) as [? ?]; [right|done].
    intros Hn. cbn in Hn. subst vs. by apply (Hv k).
Qed.

Lemma component_noSemicolon l : Forall (λ b, component_byte b = true) l → existsb (λ a, Ascii.eqb a ";") l = false.
Proof.
  induction 1 as [|a l Ha _ IH]; [done|]. cbn [existsb]. rewrite IH, orb_false_r.
  destruct (Ascii.eqb_spec a ";") as [->|]; [discriminate Ha|done].
Qed.

Lemma encodePair_noSemicolon kv : noSemicolon (encodePair kv) = true.
Proof.
  unfold noSemicolon, encodePair. autorewrite with gostrings. rewrite !existsb_app.
  by rewrite (component_noSemicolon (bytes (QueryEscape kv.1))), (component_noSemicolon (bytes (QueryEscape kv.2))) by apply QueryEscape_component.
Qed.

Lemma omap_parsePair (l : list (string * string)) : omap parsePair (encodePair <$> l) = l.
Proof. induction l as [|kv l IH]; [done|]. cbn. by rewrite parsePair_encodePair, IH. Qed.

Lemma ParseQuery_EncodeQuery v : noEmpty v → ParseQuery (EncodeQuery v) = v.
Proof.
  intros Hv. unfold ParseQuery, EncodeQuery.
  assert (H : filter (λ s, s ≠ "" ∧ noSemicolon s = true) (Split "&"%char (Join "&" (encodePair <$> queryPairs v))) = encodePair <$> queryPairs v).
  { destruct (queryPairs v) as [|kv l] eqn:E; [done|]. change "&" with (String "&" EmptyString). rewrite Split_Join.
    - apply list_filter_all. apply Forall_fmap, Forall_true. intros. split; [apply encodePair_nonempty|apply encodePair_noSemicolon].
    - done.
    - apply Forall_fmap, Forall_true. intros. apply encodePair_bytes. }
  by rewrite H, omap_parsePair, foldl_queryPairs.
Qed.

Lemma ParseQuery_noEmpty raw : noEmpty (ParseQuery raw).
Proof.
  unfold ParseQuery. set (l := omap _ _). assert (H : ∀ v, noEmpty v → noEmpty (foldl addValue v l)); [|by apply H].
  induction l as [|kv l IH]; intros v Hv; [done|]. cbn [foldl]. apply IH. intros k. unfold addValue.
  destruct (decide (kv.1 = k)) as [->|]; [rewrite lookup_insert_eq; intros [= E]; by destruct (default _ _)|by rewrite lookup_insert_ne].
Qed.

Lemma setValue_noEmpty k x v : noEmpty v → noEmpty (setValue k x v).
Proof. intros Hv k'. unfold setValue. destruct (decide (k = k')) as [->|]; [by rewrite lookup_insert_eq|by rewrite lookup_insert_ne]. Qed.

(** The address that is dialed has the credentials of the client, each once and
    whatever bytes they have, and beside them the query of the address that was
    configured. *)
Theorem dial_query `{QueryURL} opts u : buildDialURL opts = Some u →
  ∃ parsed query, Parse (URL opts) = Some parsed ∧ u = StringWithQuery parsed query
  ∧ ParseQuery query !! "token" = Some [Token opts] ∧ ParseQuery query !! "node_id" = Some [Itoa (NodeID opts)]
  ∧ ParseQuery query !! "node_type" = Some [NodeType opts]
  ∧ (0 < MachineID opts → ParseQuery query !! "machine_id" = Some [Itoa (MachineID opts)])
  ∧ ∀ k, k ∉ ["token"; "node_id"; "node_type"] → (k = "machine_id" → MachineID opts <= 0) →
      ParseQuery query !! k = ParseQuery (RawQuery parsed) !! k.
Proof.
  unfold buildDialURL. destruct (Parse (URL opts)) as [parsed|] eqn:E; [|done]. intros [= <-]. eexists parsed, _. split; [done|]. split; [done|].
  rewrite ParseQuery_EncodeQuery by (unfold dialQuery; destruct (0 <? _); repeat apply setValue_noEmpty; apply ParseQuery_noEmpty).
  unfold dialQuery, setValue. destruct (Z.ltb_spec 0 (MachineID opts)); split_and!; try (intros; simplify_map_eq; done); try lia.
  - intros k Hk Hm. rewrite lookup_insert_ne by (intros <-; specialize (Hm eq_refl); lia).
    rewrite !lookup_insert_ne by (intros <-; apply Hk; set_solver). done.
  - intros k Hk _. rewrite !lookup_insert_ne by (intros <-; apply Hk; set_solver). done.
Qed.

(** ** One connection *)

Section client.
Context `{QueryURL} (opts : RealtimeOptions).
Implicit Types (s : ClientState) (c : Conn) (e : event) (es : list event).

(** The connection that [connectAndServe] is about. *)
Definition current s : option nat :=
  match phase s with Greeting n | Checking n | Reading n => Some n | _ => None end.

Record wf s : Prop := {
  wf_last n : current s = Some n → length (conns s) = S n;
  wf_open i : openConn i s → current s = Some i;
  wf_finished i : i ∈ finished s → (i < length (conns s))%nat ∧ current s ≠ Some i;
  wf_writers i : i ∈ writers s → (i < length (conns s))%nat
}.

Lemma openConn_shut i n s : openConn i (shutConn n s) ↔ openConn i s ∧ i ≠ n.
Proof.
  unfold openConn, shutConn. cbn. destruct (decide (i = n)) as [->|Hne].
  - rewrite list_lookup_alter_eq. destruct (conns s !! n); cbn; naive_solver.
  - rewrite list_lookup_alter_ne by done. naive_solver.
Qed.

Lemma openConn_write i n f s : openConn i (writeTo n f s) ↔ openConn i s.
Proof.
  unfold openConn, writeTo. cbn. destruct (decide (i = n)) as [->|Hne].
  - rewrite list_lookup_alter_eq. by destruct (conns s !! n).
  - by rewrite list_lookup_alter_ne.
Qed.

(** A step within the same connection, and one that leaves it. *)
Lemma wf_same s s' : wf s → current s' = current s → length (conns s') = length (conns s) →
  (∀ i, openConn i s' → openConn i s) → finished s' = finished s →
  (∀ i, i ∈ writers s' → i ∈ writers s ∨ current s = Some i) → wf s'.
Proof.
  intros [Hl Ho Hf Hw] Hc Hn Hopen Hfin Hwr. split; rewrite ?Hc, ?Hn, ?Hfin; auto.
  intros i [Hi|Hi]%Hwr; [auto|]. rewrite (Hl i Hi). lia.
Qed.

Lemma wf_end s s' n : wf s → current s = Some n → current s' = None → length (conns s') = length (conns s) →
  (∀ i, openConn i s' → openConn i s ∧ i ≠ n) → finished s' ⊆ {[n]} ∪ finished s → writers s' = writers s → wf s'.
Proof.
  intros [Hl Ho Hf Hw] Hc Hc' Hn Hopen Hfin Hwr. split; rewrite ?Hc', ?Hn, ?Hwr; auto; [done|..].
  - intros i [Hi Hne]%Hopen. apply Ho in Hi. congruence.
  - intros i Hi%Hfin. split; [|done]. apply elem_of_union in Hi as [->%elem_of_singleton|Hi]; [rewrite (Hl n Hc); lia|by apply Hf].
Qed.

Lemma wf_step e s s' : step opts e s s' → wf s → wf s'.
Proof.
  intros Hs Hwf. pose proof Hwf as [Hl Ho Hf Hw].
  destruct Hs as [s|m s|s [E|E] _|s E _ _|s u E _ _|s E|s u E|s u E|s n E|s n now h E|s n E _|s n E _|s n E|s n now ok m E _
    |s n Hn _|s n m ch Hn _ _|s n m ch Hn _|s n now h Hn _ _|s n Hn _].
  all: try by (apply (wf_same s); try done; unfold current; cbn; rewrite ?E, ?length_alter; try done; intros i Hi;
    first [exact Hi | exact (proj1 (proj1 (openConn_shut i n s) Hi)) | exact (proj1 (openConn_write i n _ s) Hi) | set_solver]).
  all: try by (apply (wf_end s _ n); try done; unfold current; cbn; rewrite ?E, ?length_alter; try done; intros i Hi;
    exact (proj1 (openConn_shut i n s) Hi)).
  - split; cbn.
    + intros n [= <-]. rewrite length_app. cbn. lia.
    + intros i Hi. unfold openConn in Hi. cbn in Hi. rewrite lookup_app in Hi.
      assert (Hno : isOpen <$> conns s !! i ≠ Some true) by (intros Hi'; apply Ho in Hi'; unfold current in Hi'; by rewrite E in Hi').
      destruct (conns s !! i) eqn:Ei; [done|]. apply lookup_ge_None in Ei.
      destruct (i - length (conns s))%nat eqn:Ed; [|done]. unfold current. cbn. f_equal. lia.
    + intros i [Hi _]%Hf. rewrite length_app. cbn. split; [lia|]. unfold current. cbn. intros [= ?]. lia.
    + intros i Hi%Hw. rewrite length_app. lia.
  - apply (wf_end s _ n); try done; unfold current; cbn; rewrite ?E, ?length_alter; try done; [|set_solver].
    intros i Hi. exact (proj1 (openConn_shut i n s) Hi).
  - apply (wf_same s); try done; unfold current, receive.
    + destruct m as [m|]; [|by rewrite E]. destruct (react m); [|destruct ok|]; cbn; by rewrite E.
    + destruct m as [m|]; [|done]. destruct (react m); [|destruct ok|]; try done. cbn. apply length_alter.
    + intros i. destruct m as [m|]; [|done]. destruct (react m); [|destruct ok|]; try done. by rewrite openConn_write.
    + destruct m as [m|]; [|done]. by destruct (react m), ok.
    + intros i. destruct m as [m|]; [|by left]. destruct (react m), ok; by left.
Qed.
(** ** What is written *)

Definition isHello (f : Frame) : bool := match f with HelloFrame _ _ => true | _ => false end.

(** The credentials come first, and once. *)
Definition greeted c : Prop := ∃ now h rest, sent c = HelloFrame now h :: rest ∧ Forall (λ f, isHello f = false) rest.

Record framed s : Prop := {
  fr_conn i c : conns s !! i = Some c → sent c = [] ∨ greeted c;
  fr_greeting i c : phase s = Greeting i → conns s !! i = Some c → sent c = [];
  fr_reading i c : phase s = Checking i ∨ phase s = Reading i → conns s !! i = Some c → greeted c;
  fr_writers i c : i ∈ writers s → conns s !! i = Some c → greeted c
}.

Lemma greeted_write f c : isHello f = false → greeted c → greeted (write f c).
Proof.
  intros Hf (now & h & rest & E & Hr). exists now, h, (rest ++ [f]). unfold write. cbn. rewrite E. split; [done|]. by apply Forall_app_2; [|constructor].
Qed.

Lemma framed_same s s' : framed s →
  (∀ i c', conns s' !! i = Some c' → ∃ c, conns s !! i = Some c ∧ (sent c' = sent c ∨ greeted c ∧ greeted c')) →
  (∀ i, phase s' = Greeting i → phase s = Greeting i) →
  (∀ i, phase s' = Checking i ∨ phase s' = Reading i → phase s = Checking i ∨ phase s = Reading i) →
  writers s' ⊆ writers s → framed s'.
Proof.
  intros [Hc Hg Hr Hw] Hconn Hpg Hpr Hws.
  assert (Hkeep : ∀ c c', sent c' = sent c ∨ greeted c ∧ greeted c' → greeted c → greeted c').
  { intros c c' [E|[_ ?]]; [|done]. unfold greeted. by rewrite E. }
  split; intros i c'.
  - intros (c & Ei & Hs)%Hconn. destruct Hs as [E|[_ ?]]; [|by right]. unfold greeted. rewrite E. by eapply Hc.
  - intros Hp%Hpg (c & Ei & Hs)%Hconn. pose proof (Hg _ _ Hp Ei) as En. destruct Hs as [E|[(? & ? & ? & E & _) _]]; congruence.
  - intros Hp%Hpr (c & Ei & Hs)%Hconn. by eapply Hkeep, Hr.
  - intros Hi%Hws (c & Ei & Hs)%Hconn. by eapply Hkeep, Hw.
Qed.

Lemma lookup_alter_conn {f : Conn → Conn} {cs : list Conn} {n i c'} : alter f n cs !! i = Some c' →
  ∃ c, cs !! i = Some c ∧ (c' = c ∨ i = n ∧ c' = f c).
Proof.
  destruct (decide (i = n)) as [->|Hne].
  - rewrite list_lookup_alter_eq. destruct (cs !! n) as [c|]; [|done]. intros [= <-]. exists c. split; [done|by right].
  - rewrite list_lookup_alter_ne by done. intros E. exists c'. split; [done|by left].
Qed.

(** Shutting a connection, and writing more to it. *)
Lemma conn_shut n s i c' : conns (shutConn n s) !! i = Some c' →
  ∃ c, conns s !! i = Some c ∧ (sent c' = sent c ∨ greeted c ∧ greeted c').
Proof. intros (c & E & Hc)%lookup_alter_conn. exists c. split; [done|]. left. by destruct Hc as [->|[_ ->]]. Qed.

Lemma conn_write n f s : isHello f = false → (∀ c, conns s !! n = Some c → greeted c) →
  ∀ i c', conns (writeTo n f s) !! i = Some c' → ∃ c, conns s !! i = Some c ∧ (sent c' = sent c ∨ greeted c ∧ greeted c').
Proof.
  intros Hf Hg i c' (c & E & Hc)%lookup_alter_conn. exists c. split; [done|]. destruct Hc as [->|[-> ->]]; [by left|right].
  split; [by apply Hg|]. by apply greeted_write, Hg.
Qed.

Lemma conn_refl s i c' : conns s !! i = Some c' → ∃ c, conns s !! i = Some c ∧ (sent c' = sent c ∨ greeted c ∧ greeted c').
Proof. intros E. exists c'. split; [done|by left]. Qed.

Lemma framed_step e s s' : step opts e s s' → wf s → framed s → framed s'.
Proof.
  intros Hs Hwf Hfr. pose proof Hfr as [Hc Hg Hr Hw].
  destruct Hs as [s|m s|s [E|E] _|s E _ _|s u E _ _|s E|s u E|s u E|s n E|s n now h E|s n E _|s n E _|s n E|s n now ok m E _
    |s n Hn _|s n m ch Hn _ _|s n m ch Hn _|s n now h Hn _ _|s n Hn _].
  all: try by (apply (framed_same s); [done|exact (conn_refl s) || exact (conn_shut n s) || (apply (conn_write n _ s); [done|by eauto])
                                  |cbn; congruence|cbn; try rewrite E; naive_solver|cbn; set_solver]).
  - split; cbn.
    + intros i c [Ei|[_ Ei]]%lookup_app_Some; [by eapply Hc|]. apply list_lookup_singleton_Some in Ei as [_ <-]. by left.
    + intros i c [= <-] [Ei|[_ Ei]]%lookup_app_Some; [by apply lookup_lt_Some in Ei; lia|]. by apply list_lookup_singleton_Some in Ei as [_ <-].
    + by intros i c [|].
    + intros i c Hi [Ei|[? Ei]]%lookup_app_Some; [by eapply Hw|]. apply (wf_writers s Hwf) in Hi. lia.
  - assert (Hgr : ∀ i c', alter (write (HelloFrame now h)) n (conns s) !! i = Some c' →
      (i = n ∧ greeted c') ∨ i ≠ n ∧ conns s !! i = Some c').
    { intros i c' Hl. destruct (decide (i = n)) as [->|Hne]; [left|right; by rewrite list_lookup_alter_ne in Hl].
      split; [done|]. rewrite list_lookup_alter_eq in Hl. destruct (conns s !! n) as [c|] eqn:En; [|done]. injection Hl as <-.
      exists now, h, []. unfold write. cbn. by rewrite (Hg n c E En). }
    split; cbn.
    + intros i c [[_ ?]|[_ Ei]]%Hgr; [by right|by eapply Hc].
    + done.
    + intros i c [[= <-]|?] [[_ ?]|[? _]]%Hgr; done.
    + intros i c Hi [[_ ?]|[Hne Ei]]%Hgr; [done|]. apply (Hw i c); [set_solver|done].
  - apply (framed_same s); [done|..]; unfold receive.
    + destruct m as [m|]; [|exact (conn_refl s)]. destruct (react m); [exact (conn_refl s)| |exact (conn_refl s)].
      destruct ok; [|exact (conn_refl s)]. apply (conn_write n (PongFrame now) s); [done|]. intros c. apply Hr. by right.
    + intros i. destruct m as [m|]; [|done]. by destruct (react m), ok.
    + intros i Hi. right. destruct m as [m|]; [|cbn in Hi; destruct Hi as [[= <-]|?]; done].
      destruct (react m), ok; cbn in Hi; destruct Hi as [[= <-]|?]; done.
    + destruct m as [m|]; [|done]. by destruct (react m), ok.
Qed.
(** What was taken from the queue and written, over all connections. *)
Definition outbound (f : Frame) : option realtimeMessage := match f with Outbound m => Some m | _ => None end.

Definition outs (cs : list Conn) : list realtimeMessage := cs ≫= λ c, omap outbound (sent c).

Lemma outs_app cs cs' : outs (cs ++ cs') = outs cs ++ outs cs'.
Proof. unfold outs. by rewrite bind_app. Qed.

Lemma outs_alter (f : Conn → Conn) n cs : (∀ c, omap outbound (sent (f c)) = omap outbound (sent c)) → outs (alter f n cs) = outs cs.
Proof.
  intros Hf. revert n. unfold outs. induction cs as [|c cs IH]; intros [|n]; [done..| |]; cbn.
  - by rewrite Hf.
  - f_equal. apply IH.
Qed.

Lemma outs_shut n cs : outs (alter shut n cs) = outs cs.
Proof. by apply outs_alter. Qed.

Lemma outs_write f n cs : outbound f = None → outs (alter (write f) n cs) = outs cs.
Proof. intros Hf. apply outs_alter. intros c. cbn. rewrite omap_app. cbn. rewrite Hf. apply app_nil_r. Qed.

(** Writing to the last connection. *)
Lemma outs_last m n cs : length cs = S n → outs (alter (write (Outbound m)) n cs) = outs cs ++ [m].
Proof.
  revert n. unfold outs. induction cs as [|c cs IH]; intros n Hn; [done|]. cbn in Hn. injection Hn as <-. destruct cs as [|c' cs].
  - cbn. by rewrite !app_nil_r, omap_app.
  - change (alter (write (Outbound m)) (length (c' :: cs)) (c :: c' :: cs)) with (c :: alter (write (Outbound m)) (length cs) (c' :: cs)).
    change (mbind ?f (c :: ?l)) with (f c ++ mbind f l). rewrite (IH (length cs)) by done. apply app_assoc.
Qed.

Record ordered s : Prop := {
  od_outbound : sublist (outs (conns s) ++ queued (sendCh s)) (accepted s);
  od_inbound : delivered s = filter (λ m, Type_ m = "invalidate") (received s)
}.

Lemma react_invalidate m : react m = Invalidate ↔ Type_ m = "invalidate".
Proof.
  unfold react. destruct (bool_decide_reflect (Type_ m = "ping")) as [E|]; [rewrite E; done|].
  by destruct (bool_decide_reflect (Type_ m = "invalidate")).
Qed.

Lemma filter_snoc_received l m : filter (λ m, Type_ m = "invalidate") (l ++ [m]) =
  match react m with Invalidate => filter (λ m, Type_ m = "invalidate") l ++ [m] | _ => filter (λ m, Type_ m = "invalidate") l end.
Proof.
  rewrite filter_app. destruct (react m) eqn:E.
  - rewrite filter_cons_False, filter_nil, app_nil_r; [done|]. rewrite <- react_invalidate. congruence.
  - rewrite filter_cons_False, filter_nil, app_nil_r; [done|]. rewrite <- react_invalidate. congruence.
  - apply react_invalidate in E. by rewrite filter_cons_True, filter_nil.
Qed.

Lemma ordered_step e s s' : step opts e s s' → wf s → ordered s → ordered s'.
Proof.
  intros Hs Hwf [Ho Hi].
  destruct Hs as [s|m s|s [E|E] _|s E _ _|s u E _ _|s E|s u E|s u E|s n E|s n now h E|s n E _|s n E _|s n E|s n now ok m E _
    |s n Hn _|s n m ch Hn Hq Hc|s n m ch Hn Hq|s n now h Hn _ _|s n Hn _].
  all: try by (split; [cbn; rewrite ?outs_shut, ?outs_write by done; exact Ho|exact Hi]).
  - split; [|exact Hi]. unfold SendTo, withQueue, Send, trySend. cbn [conns sendCh accepted].
    destruct (_ <? _)%nat; [|exact Ho]. cbn [queued]. rewrite app_assoc. by apply sublist_app.
  - split; [|exact Hi]. cbn. rewrite outs_app. cbn. by rewrite app_nil_r.
  - unfold receive. destruct m as [m|]; [|by split]. split.
    + destruct (react m); [exact Ho| |exact Ho]. destruct ok; [|exact Ho]. cbn. by rewrite outs_write.
    + assert (Hd : (match react m with Invalidate => delivered s ++ [m] | _ => delivered s end)
        = filter (λ m, Type_ m = "invalidate") (received s ++ [m])) by (rewrite filter_snoc_received, <- Hi; done).
      destruct (react m), ok; exact Hd.
  - apply dequeue_Some in Hq. split; [|exact Hi]. cbn. rewrite outs_last by by apply (wf_last s Hwf), (wf_open s Hwf).
    rewrite <- app_assoc. cbn. by rewrite <- Hq.
  - apply dequeue_Some in Hq. split; [|exact Hi]. cbn. rewrite outs_shut. etrans; [|exact Ho]. rewrite Hq.
    apply sublist_app; [done|]. by apply sublist_cons.
Qed.

Lemma steps_inv es s s' : steps opts es s s' → wf s → framed s → ordered s → wf s' ∧ framed s' ∧ ordered s'.
Proof.
  induction 1 as [|es e s s1 s2 _ IH Hs]; [done|]. intros Hw Hf Ho. destruct (IH Hw Hf Ho) as (Hw1 & Hf1 & Ho1).
  split_and!; [by eapply wf_step|by eapply framed_step|by eapply ordered_step].
Qed.

Lemma reachable_inv s : reachable opts s → wf s ∧ framed s ∧ ordered s.
Proof.
  intros [es Hs]. eapply steps_inv; [exact Hs|..].
  - by split.
  - by split.
  - by split.
Qed.

(** C15. In every state that is reached there is one connection at most that is not
    closed, the last; each begins with the credentials, which are not repeated;
    what the workers queued was written at most once and in its order, whatever
    connection it went to; and each invalidation that was read was delivered
    once, in order. *)
Theorem one_session s : reachable opts s →
  (∀ i, openConn i s → S i = length (conns s))
  ∧ (∀ i c, conns s !! i = Some c → sent c = [] ∨ greeted c)
  ∧ sublist (outs (conns s) ++ queued (sendCh s)) (accepted s)
  ∧ delivered s = filter (λ m, Type_ m = "invalidate") (received s).
Proof.
  intros (Hw & Hf & Ho)%reachable_inv. split_and!; [|apply (fr_conn s Hf)|apply Ho|apply Ho].
  intros i Hi%(wf_open s Hw). symmetry. by apply (wf_last s Hw).
Qed.

(** ** Closing *)

Definition ofRun e : bool := match e with Cancel | Enqueue _ | Written _ => false | _ => true end.

(** How many steps [run] still makes after the cancellation. *)
Definition rank (p : Phase) : nat :=
  match p with
  | Exited => 0 | Idle => 1 | Waiting => 2 | Checking _ => 3 | Reading _ => 4 | Greeting _ => 5 | Dialing _ => 6
  end.

Lemma cancelled_step e s s' : step opts e s s' → ctxDone s = true →
  ctxDone s' = true ∧ (if ofRun e then (rank (phase s') < rank (phase s))%nat else phase s' = phase s).
Proof.
  intros Hs Hc. destruct Hs as [s|m s|s [E|E] _|s E Hn _|s u E Hn _|s E|s u E|s u E|s n E|s n now h E|s n E _|s n E Hn|s n E|s n now ok m E _
    |s n Hn _|s n m ch Hn Hq _|s n m ch Hn Hq|s n now h Hn _ _|s n Hn _]; try congruence; cbn; rewrite ?E; try (split; [done|cbn; lia]); try done.
  unfold receive. destruct m as [m|]; [|split; [done|cbn; lia]]. destruct (react m), ok; (split; [done|cbn; lia]).
Qed.

(** C32. After [cancel], [run] makes at most six more steps; where it does not wait for
    the network it can go on, until it is at its end; and the goroutines that
    write can end at any time. *)
Theorem cancelled_ends es s s' : ctxDone s = true → steps opts es s s' →
  (length (filter (λ e, ofRun e = true) es) + rank (phase s') <= rank (phase s) <= 6)%nat
  ∧ (match phase s' with Exited | Dialing _ | Greeting _ | Reading _ => True | _ => ∃ s2, step opts Run s' s2 end)
  ∧ (∀ n, n ∈ writers s' → step opts (Written n) s' (withWriters (writers s' ∖ {[n]}) s')).
Proof.
  intros Hc Hs. assert (H' : ctxDone s' = true ∧ (length (filter (λ e, ofRun e = true) es) + rank (phase s') <= rank (phase s))%nat).
  { induction Hs as [s|es e s s1 s2 _ IH Hs]; [done|]. destruct (IH Hc) as [Hc1 Hr]. apply cancelled_step in Hs as [Hc2 Hs]; [|done].
    split; [done|]. rewrite filter_app, length_app. destruct (ofRun e) eqn:E.
    - rewrite filter_cons_True by done. cbn. lia.
    - rewrite filter_cons_False by (by rewrite E). cbn. rewrite Hs. lia. }
  destruct H' as [Hc' Hr]. split_and!; [lia|destruct (phase s); cbn; lia| |].
  - destruct (phase s') eqn:E; try done.
    + eexists. apply step_exit; [by left|done].
    + eexists. by apply step_stop.
    + eexists. apply step_exit; [by right|done].
  - intros n Hn. apply step_writer_exit; [done|by right].
Qed.

Definition ofPanel e : bool := match e with Received _ | ReadFailed => true | _ => false end.

Lemma reading_step e s s' n : step opts e s s' → phase s = Reading n → ofPanel e = false →
  ctxDone s = true → writers s = ∅ → phase s' = Reading n ∧ writers s' = ∅ ∧ conns s' = conns s ∧ ctxDone s' = true.
Proof.
  intros Hs Hp He Hc Hw. destruct Hs as [s|m s|s [E|E] _|s E Hn _|s u E Hn _|s E|s u E|s u E|s i E|s i now h E|s i E _|s i E Hn|s i E|s i now ok m E _
    |s i Hn _|s i m ch Hn Hq _|s i m ch Hn Hq|s i now h Hn _ _|s i Hn _]; try congruence; try done; rewrite Hw in Hn; set_solver.
Qed.

(** The cancellation does not reach a read. Once the goroutine that writes has
    seen it, the panel gets nothing more from the client, heartbeats included,
    and as long as the panel sends nothing in turn and the connection stays up,
    [run] stays in its read, and [Close] waits for it. *)
Theorem close_waits_for_panel es s s' n : phase s = Reading n → ctxDone s = true → writers s = ∅ →
  Forall (λ e, ofPanel e = false) es → steps opts es s s' →
  phase s' = Reading n ∧ conns s' = conns s.
Proof.
  intros Hp Hc Hw He Hs. assert (H' : phase s' = Reading n ∧ writers s' = ∅ ∧ conns s' = conns s ∧ ctxDone s' = true); [|naive_solver].
  induction Hs as [s|es e s s1 s2 _ IH Hs]; [done|]. apply Forall_app in He as [He He1]. apply Forall_cons in He1 as [He1 _].
  destruct (IH Hp Hc Hw He) as (Hp1 & Hw1 & Hcs & Hc1). destruct (reading_step _ _ _ _ Hs Hp1 He1 Hc1 Hw1) as (? & ? & ? & ?).
  split_and!; congruence.
Qed.
End client.

Module Examples.

(** An address is its text before the query, and its query. *)
#[local] Instance exampleURL : NetURL := {|
  ParsedURL := string * string;
  Parse s := Some (default (s, "") (Cut "?"%char s));
  Scheme _ := "wss";
  Host u := u.1;
  StringWith u _ path := u.1 +:+ path
|}.

#[local] Instance exampleQuery : QueryURL := {|
  RawQuery u := u.2;
  StringWithQuery u q := u.1 +:+ "?" +:+ q
|}.

Definition exampleOptions : RealtimeOptions := mkOptions "wss://p/ws/node?a=1&token=old" "s&cret" 7 0 "v2node" 30 5 "tag".

Definition exampleURLText : string := "wss://p/ws/node?a=1&node_id=7&node_type=v2node&token=s%26cret".

Lemma dial_query_witness :
  ∃ query, exampleURLText = "wss://p/ws/node?" +:+ query ∧ ParseQuery query !! "token" = Some ["s&cret"] ∧ ParseQuery query !! "a" = Some ["1"].
Proof.
  destruct (dial_query exampleOptions exampleURLText) as (parsed & query & E & Hu & Ht & _ & _ & _ & Ho); [vm_compute; reflexivity|].
  assert (Hp : parsed = ("wss://p/ws/node", "a=1&token=old")) by (vm_compute in E; congruence). rewrite Hp in Hu, Ho.
  exists query. split; [exact Hu|]. split; [exact Ht|]. rewrite Ho.
  - vm_compute. reflexivity.
  - apply (bool_decide_unpack _). vm_compute. exact I.
  - discriminate.
Defined.

(** A client that has connected, has read a message, and is then cancelled. *)
Definition invalidation : realtimeMessage := mkMessage "invalidate" "" "e" "config" "" "" 1 0 0 "" "" 0 "".

Definition r1 : ClientState := toPhase (Dialing exampleURLText) NewRealtimeClient.

Definition r2 : ClientState := withConns (conns r1 ++ [mkConn exampleURLText [] true]) (toPhase (Greeting (length (conns r1))) r1).

Definition r3 : ClientState := withWriters ({[0%nat]} ∪ writers r2) (toPhase (Checking 0) (writeTo 0 (HelloFrame 1 None) r2)).

Definition r4 : ClientState := receive 0 2 false (Some invalidation) (toPhase (Reading 0) r3).

Definition r5 : ClientState := SendTo invalidation (toPhase (Reading 0) r4).

Definition r6 : ClientState := withQueue (mkChan 64 []) (accepted r5) (writeTo 0 (Outbound invalidation) r5).

Lemma r6_reachable : reachable exampleOptions r6.
Proof.
  exists ([Run] ++ [Dialed true] ++ [Greeted true] ++ [Run] ++ [Received (Some invalidation)] ++ [Run] ++ [Enqueue invalidation] ++ [Written 0]).
  rewrite !(assoc_L app). apply (steps_snoc _ _ _ _ r5).
  2: { apply (step_write _ _ 0 invalidation); [cbn; set_solver|reflexivity|reflexivity]. }
  apply (steps_snoc _ _ _ _ (toPhase (Reading 0) r4)); [|apply step_send].
  apply (steps_snoc _ _ _ _ r4); [|apply step_read; reflexivity].
  apply (steps_snoc _ _ _ _ (toPhase (Reading 0) r3)); [|by apply step_receive].
  apply (steps_snoc _ _ _ _ r3); [|apply step_read; reflexivity].
  apply (steps_snoc _ _ _ _ r2); [|apply step_hello; reflexivity].
  apply (steps_snoc _ _ _ _ r1); [|apply step_dialed; reflexivity].
  apply (steps_snoc _ [] Run _ NewRealtimeClient); [apply steps_refl|]. apply step_dial; [reflexivity|reflexivity|]. vm_compute. reflexivity.
Qed.

Lemma one_session_witness : sublist (outs (conns r6) ++ queued (sendCh r6)) (accepted r6) ∧ outs (conns r6) = [invalidation].
Proof. split; [exact (proj1 (proj2 (proj2 (one_session exampleOptions r6 r6_reachable))))|reflexivity]. Defined.

Lemma cancelled_ends_witness :
  step exampleOptions (Written 0) (cancel r6) (withWriters (writers (cancel r6) ∖ {[0%nat]}) (cancel r6)).
Proof.
  refine (proj2 (proj2 (cancelled_ends exampleOptions [] (cancel r6) (cancel r6) eq_refl _)) 0%nat _).
  - apply steps_refl.
  - apply (bool_decide_unpack _). vm_compute. exact I.
Defined.

Lemma close_waits_for_panel_witness :
  phase (SendTo invalidation (withWriters ∅ (cancel r6))) = Reading 0.
Proof.
  refine (proj1 (close_waits_for_panel exampleOptions ([] ++ [Enqueue invalidation]) (withWriters ∅ (cancel r6)) (SendTo invalidation (withWriters ∅ (cancel r6))) 0
    eq_refl eq_refl eq_refl _ _)).
  - apply Forall_cons. split; [reflexivity|apply Forall_nil; exact I].
  - eapply steps_snoc; [apply steps_refl|apply step_send].
Defined.
End Examples.
End RealtimeClientProps.
