(* ===== verification/Rules.v ===== *)
(** * The command that inspects the redirections (cmd/rules.go)

    [rules status], [rules repair] and [rules cleanup]: the configuration is
    loaded, the nodes are asked for as the server does, and the rules of their
    ports are compared with the tables, or put there. A command is what it
    prints, line by line, and the error it ends with. *)

From Stdlib Require Import Ascii.
From S2P Require Import Prelude GoStrings Json Panel Conf Realtime Machine MachineProfiles PortForward Iptables.

Module Rules.
Import GoStrings Machine Iptables.

Section rules.
Context `{ControllerOps} `{Realtime.NetURL} (EqualFold : string → string → bool).
Context `{Commands} (quote : string → string) {RZ : RangeOrder Z} {RS : RangeOrder string}.
Implicit Types t : Tables.

(** The file that [ResolveConfigPath] leads to, the panels, and the control planes
    of the nodes. *)
Record Source := mkSource {
  file : Conf.ConfigFile;
  panels : MachineProfiles.MachinePanel;
  factory : ControlPlaneFactory
}.

Definition Loaded : Type := Conf.Conf * list Panel.NodeInfo * list NodeFailure.

(** The first half of [loadRulesStatus]: the configuration, with the nodes of its
    profiles, and their settings. *)
Definition loadNodes (src : Source) : result Loaded :=
  match Conf.LoadFromPath (file src) Conf.New with
  | (_, Some e) => Err e
  | (cfg, None) =>
      match MachineProfiles.ResolveMachineNodeConfigs EqualFold (panels src) cfg with
      | (_, Some e) => Err e
      | (cfg, None) =>
          match FetchNodeInfos (factory src) (mkMachineOptions (Conf.ContinueOnError (Conf.cf_Machine cfg))) (Conf.cf_Nodes cfg) with
          | (_, _, Some e) => Err e
          | (infos, failures, None) => Ok (cfg, infos, failures)
          end
      end
  end.

Definition withEnabled (b : bool) (s : HysteriaPortForwardStatus) : HysteriaPortForwardStatus :=
  mkStatus b (RunningAsRoot s) (UpdatedAt s) (ExpectedRules s) (Tools s) (Errors s).

Definition autoForward (cfg : Conf.Conf) : bool := Conf.AutoHY2PortForward (Conf.cf_Runtime cfg).

(** [None] is a repair that the deadline ended. *)
Definition loadRulesStatus (fuel : nat) (repair : bool) (src : Source) t
    : option (Tables * result (HysteriaPortForwardStatus * list NodeFailure)) :=
  match loadNodes src with
  | Err e => Some (t, Err e)
  | Ok (cfg, infos, failures) =>
      if repair then
        match RepairHysteriaPortForward quote fuel (Some <$> infos) t with
        | None => None
        | Some (t, status) => Some (t, Ok (withEnabled (autoForward cfg) status, failures))
        end
      else Some (t, Ok (withEnabled (autoForward cfg) (InspectHysteriaPortForward quote (Some <$> infos) t), failures))
  end.

(** ** What is printed *)

Definition renderToolState (tool : HysteriaPortForwardToolStatus) : string :=
  if negb (Available tool) then "unavailable"
  else if negb (bool_decide (Error tool = "")) then "error"
  else if negb (bool_decide (Missing tool = [])) || negb (bool_decide (Extra tool = [])) || StaleChain tool then "needs-repair"
  else "ok".

Definition showBool (b : bool) : string := if b then "true" else "false".

Definition count {A} (l : list A) : string := Itoa (Z.of_nat (length l)).

(** A heading with the number of items, and the items, if there are any. *)
Definition listing {A} (heading indent : string) (show : A → string) (l : list A) : list string :=
  match l with
  | [] => []
  | _ => (heading +:+ ": " +:+ count l) :: ((λ a, indent +:+ "- " +:+ show a) <$> l)
  end.

Definition showFailure (f : NodeFailure) : string :=
  TrimRight Conf.is_slash (Conf.APIHost (nf_Config f)) +:+ " node=" +:+ Itoa (Conf.NodeID (nf_Config f))
  +:+ " machine=" +:+ Itoa (Conf.MachineID (nf_Config f)) +:+ " error=" +:+ default "" (err_msg <$> nf_Err f).

Definition renderTool (tool : HysteriaPortForwardToolStatus) : list string :=
  [Tool tool +:+ ": " +:+ renderToolState tool]
  ++ (if StaleChain tool then ["  stale_chain: yes"] else [])
  ++ listing "  missing" "    " id (Missing tool)
  ++ listing "  extra" "    " id (Extra tool)
  ++ (if bool_decide (Error tool = "") then [] else ["  error: " +:+ Error tool]).

Definition renderText (status : HysteriaPortForwardStatus) (failures : list NodeFailure) : list string :=
  ["auto_hy2_port_forward: " +:+ showBool (Enabled status);
   "running_as_root: " +:+ showBool (RunningAsRoot status);
   "expected_rules: " +:+ count (ExpectedRules status)]
  ++ ((λ r, "  - udp " +:+ Match_ r +:+ " -> " +:+ Itoa (TargetPort r)) <$> ExpectedRules status)
  ++ listing "node_failures" "  " showFailure failures
  ++ (Tools status ≫= renderTool)
  ++ listing "errors" "  " id (Errors status).

Definition formatRuleNodeFailures (failures : list NodeFailure) : option (list (list (string * Json.Json))) :=
  match failures with
  | [] => None
  | _ => Some ((λ f, [("api_host", Json.JString (Conf.APIHost (nf_Config f)));
                      ("node_id", Json.JNumber (Itoa (Conf.NodeID (nf_Config f))));
                      ("machine_id", Json.JNumber (Itoa (Conf.MachineID (nf_Config f))))]
                     ++ match nf_Err f with Some e => [("error", Json.JString (err_msg e))] | None => [] end) <$> failures)
  end.

(** Lines of text, or what is printed as JSON. *)
Inductive Output :=
| Text (lines : list string)
| AsJSON (status : HysteriaPortForwardStatus) (nodeFailures : option (list (list (string * Json.Json)))).

Definition renderRulesStatus (rulesJSON : bool) (status : HysteriaPortForwardStatus) (failures : list NodeFailure) : Output :=
  if rulesJSON then AsJSON status (formatRuleNodeFailures failures) else Text (renderText status failures).

(** ** The commands *)

(** The tables after it, what it printed, and its error. *)
Definition Run : Type := Tables * option Output * option GoError.

Definition rulesStatusCommand (rulesJSON : bool) (src : Source) t : Run :=
  match loadRulesStatus 0 false src t with
  | Some (t, Ok (status, failures)) => (t, Some (renderRulesStatus rulesJSON status failures), None)
  | Some (t, Err e) => (t, None, Some e)
  | None => (t, None, None)
  end.

Definition rulesRepairCommand (fuel : nat) (rulesJSON : bool) (src : Source) t : option Run :=
  match loadRulesStatus fuel true src t with
  | None => None
  | Some (t, Err e) => Some (t, None, Some e)
  | Some (t, Ok (status, failures)) =>
      Some (t, Some (renderRulesStatus rulesJSON status failures),
        if negb (RunningAsRoot status) && (negb (bool_decide (ExpectedRules status = [])) || HysteriaPortForwardNeedsRepair status)
        then Some (errorf "repair requires root") else None)
  end.

Definition rulesCleanupCommand (fuel : nat) (rulesJSON : bool) t : option Run :=
  match CleanupHysteriaPortForward fuel t with
  | None => None
  | Some (t, status) =>
      Some (t, Some (renderRulesStatus rulesJSON status []),
        if negb (RunningAsRoot status) then Some (errorf "cleanup requires root") else None)
  end.
End rules.
End Rules.
