(* ===== verification/RulesProps.v ===== *)
(** * The commands on the rules end with the rules in place

    What [rules repair] and [rules cleanup] leave behind as root, which a later
    [rules status] shows; and that without root they change nothing. *)

From Stdlib Require Import Ascii.
From S2P Require Import Prelude GoStrings Json Panel Conf ConfProps Realtime Machine MachineProps MachineProfiles MachineProfilesProps.
From S2P Require Import PortForward PortForwardProps Iptables IptablesProps Rules.

Module RulesProps.
Import GoStrings Machine PortForward PortForwardProps Iptables IptablesProps Rules.

Section rules.
Context `{ControllerOps} `{Realtime.NetURL} (EqualFold : string → string → bool).
Context `{Commands} (quote : string → string) {RZ : RangeOrder Z} {RS : RangeOrder string}.
Implicit Types (t : Tables) (src : Source).

Lemma inspect_state tool rules t :
  Forall plainRule rules → (LookPath tool = true → inPlace tool rules t) →
  renderToolState (inspectPortForwardTool tool rules t) = if LookPath tool then "ok" else "unavailable".
Proof.
  intros Hr Hp. destruct (LookPath tool) eqn:Hl.
  - by rewrite inspect_inPlace by auto.
  - unfold renderToolState. by rewrite inspect_Available, Hl.
Qed.

(** A tool is shown as one that needs a repair exactly if a repair would be asked
    for because of it. *)
Lemma needs_repair_shown tool : renderToolState tool = "needs-repair" ↔ toolNeedsRepair tool = true.
Proof.
  unfold renderToolState, toolNeedsRepair. destruct (Available tool); [|done]. cbn [negb andb].
  destruct (bool_decide (Error tool = "")); [|done]. cbn [negb andb]. by destruct (_ || _).
Qed.

Lemma repairTools_root fuel rules tools t s t' s' : repairTools fuel rules tools t s = Some (t', s') → RunningAsRoot s' = RunningAsRoot s.
Proof.
  revert t s. induction tools as [|tool tools IH]; intros t s; cbn; [by intros [= _ <-]|]. unfold repairTool.
  destruct (Available _); [|by intros ->%IH]. destruct (reconcilePortForwardTool _ _ _ _) as [[t1 [e|]]|]; [| |done]; by intros ->%IH.
Qed.

Lemma cleanupTools_root fuel tools t s t' s' : cleanupTools fuel tools t s = Some (t', s') → RunningAsRoot s' = RunningAsRoot s.
Proof.
  revert t s. induction tools as [|tool tools IH]; intros t s; cbn; [by intros [= _ <-]|]. unfold cleanupTool.
  destruct (Available _); [|by intros ->%IH]. destruct (clearTool _ _ _) as [t1|]; [|done]. by intros ->%IH.
Qed.

(** Without root the tables stay as they are: a repair is an error if there is
    something to do, and only then, and a cleanup always is. *)
Theorem rules_need_root fuel json src t cfg infos failures :
  Geteuid ≠ 0 → loadNodes EqualFold src = Ok (cfg, infos, failures) →
  (∃ status, rulesRepairCommand EqualFold quote fuel json src t =
     Some (t, Some (renderRulesStatus json status failures),
       if negb (bool_decide (ExpectedRules status = [])) || HysteriaPortForwardNeedsRepair status
       then Some (errorf "repair requires root") else None)
   ∧ Tools status = Tools (InspectHysteriaPortForward quote (Some <$> infos) t))
  ∧ ∃ out, rulesCleanupCommand fuel json t = Some (t, out, Some (errorf "cleanup requires root")).
Proof.
  intros Hroot Hl. apply Z.eqb_neq in Hroot. split.
  - unfold rulesRepairCommand, loadRulesStatus. rewrite Hl. unfold RepairHysteriaPortForward, InspectHysteriaPortForward.
    destruct (buildHysteriaPortForwardRules quote (Some <$> infos)) as [rules errs]. cbn [RunningAsRoot newHysteriaPortForwardStatus]. rewrite Hroot. cbn [negb].
    set (s := inspectTools _ _ _). set (s' := if _ || _ then _ else s).
    assert (Hs : RunningAsRoot s' = false ∧ Tools s' = Tools s) by (unfold s'; destruct (_ || _); (split; [exact Hroot|reflexivity])).
    exists (withEnabled (autoForward cfg) s'). split; [|by apply Hs]. cbn [RunningAsRoot withEnabled]. by rewrite (proj1 Hs).
  - unfold rulesCleanupCommand, CleanupHysteriaPortForward. cbn [RunningAsRoot newHysteriaPortForwardStatus disabled]. rewrite Hroot. cbn [negb].
    eexists. unfold inspectTools, toolNames. cbn. by rewrite Hroot.
Qed.

Context `{!CommandsLaws}.

Lemma cleanupTool_spec fuel tool t s : (LookPath tool = true → valid tool t) →
  ∃ t' s', cleanupTool fuel tool t s = Some (t', s')
  ∧ (LookPath tool = true → valid tool t' ∧ own tool t' = Some [] ∧ portForwardChainExists tool t' = false)
  ∧ ∀ tool', tool ≠ tool' → unseen tool' t t'.
Proof.
  intros Hv. unfold cleanupTool. rewrite inspect_Available. destruct (LookPath tool) eqn:Hl.
  - destruct (clearTool_spec fuel tool t (Hv eq_refl)) as (t' & Hc & Hc'). rewrite Hc. eexists _, _. split; [reflexivity|]. split; [done|].
    intros tool' Hne. by eapply clearTool_unseen.
  - eexists _, _. split; [reflexivity|]. by split.
Qed.

(** As root, [rules cleanup] ends without an error, and no table of an installed
    tool has a rule of this program or the chain of its old versions. *)
Theorem rules_cleanup_clears fuel json t :
  Geteuid = 0 → (∀ tool, tool ∈ toolNames → LookPath tool = true → valid tool t) →
  ∃ t' out, rulesCleanupCommand fuel json t = Some (t', Some out, None)
  ∧ ∀ tool, tool ∈ toolNames → LookPath tool = true → own tool t' = Some [] ∧ portForwardChainExists tool t' = false.
Proof.
  intros Hroot Hv. unfold rulesCleanupCommand, CleanupHysteriaPortForward. cbn [RunningAsRoot newHysteriaPortForwardStatus disabled].
  rewrite Hroot, Z.eqb_refl. cbn [negb]. set (s0 := disabled _).
  destruct (cleanupTools fuel toolNames t s0) as [[t' s']|] eqn:E.
  - exists t', (renderRulesStatus json s' []). rewrite (cleanupTools_root _ _ _ _ _ _ E). cbn [RunningAsRoot s0 disabled newHysteriaPortForwardStatus].
    rewrite Hroot. split; [done|]. unfold toolNames in *. cbn [cleanupTools] in E.
    destruct (cleanupTool_spec fuel "iptables" t s0) as (t1 & s1 & E1 & H1' & U1); [intros Hl; apply Hv; [by left|done]|]. rewrite E1 in E.
    destruct (cleanupTool_spec fuel "ip6tables" t1 s1) as (t2 & s2 & E2 & H2' & U2);
      [intros Hl; apply (U1 "ip6tables" ltac:(discriminate)), Hv; [by right; left|done]|]. rewrite E2 in E. injection E as <- <-.
    intros tool Hin Hl. apply elem_of_cons in Hin as [->|Hin].
    + destruct (H1' Hl) as (_ & Ho & Hc). destruct (U2 "iptables" ltac:(discriminate)) as [_ Hu].
      unfold own, portForwardChainExists in *. by rewrite !Hu.
    + apply list_elem_of_singleton in Hin as ->. by apply H2'.
  - exfalso. unfold toolNames in E. cbn [cleanupTools] in E.
    destruct (cleanupTool_spec fuel "iptables" t s0) as (t1 & s1 & E1 & _ & U1); [intros Hl; apply Hv; [by left|done]|]. rewrite E1 in E.
    destruct (cleanupTool_spec fuel "ip6tables" t1 s1) as (t2 & s2 & E2 & _);
      [intros Hl; apply (U1 "ip6tables" ltac:(discriminate)), Hv; [by right; left|done]|]. by rewrite E2 in E.
Qed.

(** C40. As root, [rules repair] ends without an error once the nodes are known, and
    if no command failed [rules status] then shows each tool that is installed as
    in order. *)
Theorem rules_repair_lasts fuel json src t cfg infos failures :
  Geteuid = 0 → (∀ tool, tool ∈ toolNames → LookPath tool = true → valid tool t) →
  loadNodes EqualFold src = Ok (cfg, infos, failures) →
  ∃ t' status, rulesRepairCommand EqualFold quote fuel json src t = Some (t', Some (renderRulesStatus json status failures), None)
  ∧ Enabled status = autoForward cfg
  ∧ (Errors status = [] → ∃ status',
       rulesStatusCommand EqualFold quote json src t' = (t', Some (renderRulesStatus json status' failures), None)
       ∧ renderToolState <$> Tools status' = (λ tool, if LookPath tool then "ok" else "unavailable") <$> toolNames).
Proof.
  intros Hroot Hv Hl. unfold rulesRepairCommand, rulesStatusCommand, loadRulesStatus. rewrite Hl.
  unfold RepairHysteriaPortForward, InspectHysteriaPortForward.
  destruct (buildHysteriaPortForwardRules quote (Some <$> infos)) as [rules errs] eqn:Hb. apply build_wellFormed in Hb.
  cbn [RunningAsRoot newHysteriaPortForwardStatus]. rewrite Hroot, Z.eqb_refl. cbn [negb].
  destruct (repairTools_spec fuel rules t (newHysteriaPortForwardStatus rules errs) Hv Hb eq_refl) as (t' & s & Hs & Hok). rewrite Hs.
  exists t', (withEnabled (autoForward cfg) s). pose proof (repairTools_root fuel rules toolNames t _ t' s Hs) as Hr. cbn in Hr. rewrite Hroot in Hr.
  cbn [RunningAsRoot withEnabled]. rewrite Hr. split; [done|]. split; [done|]. intros He. destruct (Hok He) as [_ Hp].
  eexists. split; [reflexivity|]. unfold inspectTools, toolNames. cbn. 
  rewrite !inspect_state; try done; intros Ht; apply Hp; try done; [by right; left|by left].
Qed.
End rules.

Module Examples.
#[local] Existing Instance MachineProps.Examples.exampleOps.
#[local] Existing Instance MachineProfilesProps.Examples.exampleURL.
#[local] Existing Instance IptablesProps.Examples.exampleOrder.
#[local] Existing Instance IptablesProps.Examples.exampleOrderS.
#[local] Existing Instance IptablesProps.Examples.exampleLaws.

Definition fold : string → string → bool := MachineProfilesProps.Examples.exampleFold.

Definition exampleQuote : string → string := PortForwardProps.Examples.exampleQuote.

(** Two nodes are configured; the first is one of Hysteria with a range of ports. *)
Definition exampleFactory : ControlPlaneFactory :=
  mkFactory _ (λ cfg, Ok (Conf.NodeID cfg =? 1))
    (λ first, Ok (Some (if first then PortForwardProps.Examples.oneNode else MachineProps.Examples.exampleInfo 2))).

Definition exampleSource : Source :=
  mkSource ConfProps.Examples.exampleFile MachineProfilesProps.Examples.examplePanel exampleFactory.

Lemma exampleLoaded : ∃ cfg infos, loadNodes fold exampleSource = Ok (cfg, infos, []).
Proof. eexists _, _. vm_compute. reflexivity. Qed.

Lemma rules_repair_lasts_witness :
  ∃ t out, rulesRepairCommand (H1 := IptablesProps.Examples.exampleCommands) fold exampleQuote 0 false exampleSource IptablesProps.Examples.oldTables
    = Some (t, Some out, None).
Proof.
  destruct exampleLoaded as (cfg & infos & Hl).
  destruct (@rules_repair_lasts _ _ fold IptablesProps.Examples.exampleCommands exampleQuote _ _ IptablesProps.Examples.exampleLaws 0 false exampleSource
    IptablesProps.Examples.oldTables cfg infos [] eq_refl (λ tool _ _, IptablesProps.Examples.oldTables_valid tool) Hl) as (t & status & Hr & _).
  exists t, (renderRulesStatus false status []). exact Hr.
Defined.

(** What the status prints before and after the repair. *)
Definition statusLines (t : Tables (Commands := IptablesProps.Examples.exampleCommands)) : list string :=
  match rulesStatusCommand (H1 := IptablesProps.Examples.exampleCommands) fold exampleQuote false exampleSource t with
  | (_, Some (Text lines), None) => filter (λ l, HasPrefix l "ip" = true) lines
  | _ => []
  end.

Example status_around_repair :
  statusLines IptablesProps.Examples.oldTables = ["iptables: needs-repair"; "ip6tables: needs-repair"]
  ∧ match rulesRepairCommand (H1 := IptablesProps.Examples.exampleCommands) fold exampleQuote 0 false exampleSource IptablesProps.Examples.oldTables with
    | Some (t, _, _) => statusLines t = ["iptables: ok"; "ip6tables: ok"]
    | None => False
    end.
Proof. vm_compute. split; reflexivity. Qed.

Lemma rules_cleanup_clears_witness :
  ∃ t out, rulesCleanupCommand (H1 := IptablesProps.Examples.exampleCommands) 0 false IptablesProps.Examples.oldTables = Some (t, Some out, None)
    ∧ own "iptables" t = Some [].
Proof.
  destruct (@rules_cleanup_clears IptablesProps.Examples.exampleCommands _ IptablesProps.Examples.exampleLaws 0 false
    IptablesProps.Examples.oldTables eq_refl (λ tool _ _, IptablesProps.Examples.oldTables_valid tool)) as (t & out & Hc & Ho).
  exists t, out. split; [exact Hc|]. apply (Ho "iptables"); [left|reflexivity].
Defined.

(** The same tables, as another user. *)
Definition userCommands : Commands :=
  let c := IptablesProps.Examples.exampleCommands in
  Build_Commands (@Tables c) (@LookPath c) (@runPortForwardCommand c) (@runPortForwardCommandOutput c) 1000.

Lemma rules_need_root_witness :
  ∃ status, rulesRepairCommand (H1 := userCommands) fold exampleQuote 0 false exampleSource IptablesProps.Examples.oldTables
    = Some (IptablesProps.Examples.oldTables, Some (renderRulesStatus false status []),
        if negb (bool_decide (ExpectedRules status = [])) || HysteriaPortForwardNeedsRepair status
        then Some (errorf "repair requires root") else None).
Proof.
  destruct exampleLoaded as (cfg & infos & Hl).
  destruct (@rules_need_root _ _ fold userCommands exampleQuote _ _ 0 false exampleSource
    IptablesProps.Examples.oldTables cfg infos [] ltac:(discriminate) Hl) as [(status & Hr & _) _].
  exists status. exact Hr.
Defined.
End Examples.
End RulesProps.
