(* ===== verification/FakeDNS.v ===== *)
(** * The sniffers of a connection (core/app/dispatcher/sniffer.go, fakednssniffer.go)

    [NewSniffer] makes the list of sniffers: those of the protocols, which are
    Xray's, and with a fake DNS engine the one that looks the destination up
    and the one that combines both. *)

From Stdlib Require Import Ascii.
From S2P Require Import Prelude GoStrings Dispatcher.

Module FakeDNS.
Import GoStrings Dispatcher.

(** The engine: the domain of an address, or none, and, if it can tell, whether an
    address is from its pool. *)
Class FakeDNSEngine := {
  Address : Type;
  GetDomainFromFakeDNS : Address → string;
  IsIPInPool : option (Address → bool)
}.

Section fakedns.
Context {Payload : Type} (isNil : Payload → bool) `{FakeDNSEngine}.

(** [ob.Target] *)
Record Target := mkTarget { target_Network : Network; target_Address : Address }.

Implicit Types sniffers : list (protocolSnifferWithMetadata Payload).

Definition fakeDNSSniffResult (domain : string) : SniffResult := mkSniffResult "fakedns" domain None None.

Definition DNSThenOthersSniffResult (domain original : string) : SniffResult :=
  mkSniffResult "fakedns+others" domain None (Some (λ protocolName, HasPrefix protocolName original)).

(** The function of [newFakeDNSSniffer]: its result, and what it writes to the
    [addressInRange] of its context. *)
Definition fakeDNSSniff (target : Target) : sniffed (option SniffResult) * option bool :=
  let domain := match target_Network target with
                | Network_TCP | Network_UDP => GetDomainFromFakeDNS (target_Address target)
                | Network_Unknown => ""
                end in
  if bool_decide (domain ≠ "") then (SniffOk (Some (fakeDNSSniffResult domain)), None)
  else (SniffErr ErrNoClue, (λ pool, pool (target_Address target)) <$> IsIPInPool).

Definition newFakeDNSSniffer (target : Target) : protocolSnifferWithMetadata Payload :=
  mkSniffer (λ _, (fakeDNSSniff target).1) true Network_Unknown.

(** The loop over the others, which answer a result or an error. *)
Fixpoint firstOther (payload : Payload) sniffers : option SniffResult :=
  match sniffers with
  | [] => None
  | v :: sniffers =>
      if metadataSniffer v || negb (isNil payload) then
        match protocolSniffer v payload with
        | SniffOk (Some r) => Some (DNSThenOthersSniffResult (Domain r) (Protocol r))
        | _ => firstOther payload sniffers
        end
      else firstOther payload sniffers
  end.

Definition newFakeDNSThenOthers (target : Target) (others : list (protocolSnifferWithMetadata Payload))
    : protocolSnifferWithMetadata Payload :=
  mkSniffer (λ payload,
    match fakeDNSSniff target with
    | (SniffOk r, _) => SniffOk r
    | (SniffErr _, Some true) =>
        match firstOther payload others with
        | Some r => SniffOk (Some r)
        | None => SniffErr ErrNoClue
        end
    | (SniffErr _, _) => SniffErr ErrNoClue
    end) false Network_Unknown.

(** [NewSniffer]: the protocol sniffers are HTTP, TLS and BitTorrent over TCP, and QUIC
    and uTP over UDP. [engine] is whether the instance has a fake DNS engine. *)
Definition NewSniffer (http tls bittorrent quic utp : Payload → sniffed (option SniffResult)) (engine : bool) (target : Target)
    : list (protocolSnifferWithMetadata Payload) :=
  let others := [mkSniffer http false Network_TCP; mkSniffer tls false Network_TCP; mkSniffer bittorrent false Network_TCP;
                 mkSniffer quic false Network_UDP; mkSniffer utp false Network_UDP] in
  if engine then newFakeDNSThenOthers target others :: others ++ [newFakeDNSSniffer target] else others.
End fakedns.
End FakeDNS.
