(* ===== verification/FakeDNSProps.v ===== *)
(** * What a fake DNS engine changes

    The sniffer that combines the engine with the protocols is for no network, so
    it is never asked: [sniffer_fakedns] is what a connection is sniffed as. *)

From Stdlib Require Import Ascii.
From S2P Require Import Prelude GoStrings Dispatcher FakeDNS.

Module FakeDNSProps.
Import GoStrings Dispatcher FakeDNS.

Section fakedns.
Context {Payload : Type} (isNil : Payload → bool) `{FakeDNSEngine}.
Implicit Types sniffers : list (protocolSnifferWithMetadata Payload).

Lemma askSniffers_filter asks payload pending sniffers :
  askSniffers asks false payload pending sniffers = askSniffers asks false payload pending (filter (λ si, asks si = true) sniffers).
Proof.
  revert pending. induction sniffers as [|si sniffers IH]; intros pending; [done|]. cbn [askSniffers]. destruct (asks si) eqn:Ha.
  - rewrite filter_cons_True by done. cbn [askSniffers]. rewrite Ha. cbn [negb]. by destruct (protocolSniffer si payload) as [[r|]|[]].
  - rewrite filter_cons_False by (by rewrite Ha). cbn [negb]. apply IH.
Qed.

(** The sniffers for a network. *)
Definition forNetwork (net : Network) (si : protocolSnifferWithMetadata Payload) : bool :=
  negb (metadataSniffer si) && bool_decide (network si = net).

Lemma Sniff_filter net payload sniffers sniffers' :
  filter (λ si, forNetwork net si = true) sniffers = filter (λ si, forNetwork net si = true) sniffers' →
  (Sniff net payload sniffers).2 = (Sniff net payload sniffers').2
  ∧ ((Sniff net payload sniffers).2 = SniffErr ErrNoClue → (Sniff net payload sniffers).1 = (Sniff net payload sniffers').1).
Proof.
  intros E. unfold Sniff, sniffWith. fold (forNetwork net). rewrite !(askSniffers_filter _ _ _ sniffers), !(askSniffers_filter _ _ _ sniffers'), E.
  by destruct (askSniffers _ _ _ _ _) as [r|[|]].
Qed.

(** Reading a connection depends on the sniffers for its network only. *)
Lemma sniffContent_filter net rounds deadline n sniffers sniffers' :
  filter (λ si, forNetwork net si = true) sniffers = filter (λ si, forNetwork net si = true) sniffers' →
  sniffContent net rounds deadline n sniffers = sniffContent net rounds deadline n sniffers'.
Proof.
  revert deadline n sniffers sniffers'. induction rounds as [|[| |elapsed [p|]] rounds IH]; intros deadline n sniffers sniffers' E; cbn [sniffContent]; [done..| |].
  - destruct (Sniff_filter net p sniffers sniffers' E) as [Hr Hl].
    destruct (Sniff net p sniffers) as [l [r|e]] eqn:E1, (Sniff net p sniffers') as [l' r'] eqn:E2; cbn in Hr, Hl; subst r'; [done|].
    destruct e; [by rewrite Hl| |done].
    exfalso. unfold Sniff, sniffWith in E1. by destruct (askSniffers _ _ _ _ _) as [?|[|]].
  - by rewrite (IH _ _ sniffers sniffers').
Qed.

Context (http tls bittorrent quic utp : Payload → sniffed (option SniffResult)).

(** The domain that the engine has for a destination. *)
Definition fakeDomain (target : Target) : string :=
  match target_Network target with Network_Unknown => "" | _ => GetDomainFromFakeDNS (target_Address target) end.

Lemma SniffMetadata_fakedns nothing target :
  let sniffers := NewSniffer isNil http tls bittorrent quic utp true target in
  SniffMetadata nothing sniffers =
    (sniffers, if bool_decide (fakeDomain target ≠ "") then SniffOk (fakeDNSSniffResult (fakeDomain target)) else SniffErr ErrNoClue).
Proof.
  cbn zeta. unfold SniffMetadata, sniffWith, NewSniffer. cbn. unfold fakeDNSSniff, fakeDomain.
  destruct (target_Network target); [done|..]; by destruct (bool_decide (GetDomainFromFakeDNS (target_Address target) ≠ "")).
Qed.

(** C39. With a fake DNS engine a connection is sniffed as without one, and if the engine
    has a domain for its destination, that is its domain: beside the protocol of
    the content, or alone. The combined sniffer has no part in it. *)
Theorem sniffer_fakedns nothing metadataOnly net rounds target : net ≠ Network_Unknown →
  let others := NewSniffer isNil http tls bittorrent quic utp false target in
  sniffer nothing metadataOnly net rounds (NewSniffer isNil http tls bittorrent quic utp true target) =
    (if bool_decide (fakeDomain target ≠ "") then
       let m := fakeDNSSniffResult (fakeDomain target) in
       if metadataOnly then Some (SniffOk m)
       else match sniffer nothing false net rounds others with
            | None => None
            | Some (SniffOk c) => Some (SniffOk (CompositeResult m c))
            | Some (SniffErr _) => Some (SniffOk m)
            end
     else sniffer nothing metadataOnly net rounds others).
Proof.
  intros Hnet others. assert (Hothers : ∀ metadataOnly, sniffer nothing metadataOnly net rounds others =
    if metadataOnly then Some (SniffErr ErrNoClue) else sniffContent net rounds 200000000 0 others).
  { intros []; [done|]. unfold sniffer. change (SniffMetadata nothing others) with (others, SniffErr (A := SniffResult) ErrNoClue).
    cbv iota beta. destruct (sniffContent _ _ _ _ _) as [[r|e]|]; done. }
  unfold sniffer at 1. rewrite SniffMetadata_fakedns, !Hothers.
  rewrite (sniffContent_filter net rounds 200000000 0 _ others).
  - case_bool_decide; destruct metadataOnly; try done; by destruct (sniffContent _ _ _ _ _) as [[r|e]|].
  - unfold NewSniffer, others. rewrite filter_cons_False by (unfold forNetwork; cbn; by rewrite bool_decide_eq_false_2 by congruence).
    rewrite filter_app, (filter_cons_False _ (newFakeDNSSniffer _)), filter_nil, app_nil_r by done. done.
Qed.
End fakedns.

Module Examples.
#[local] Instance exampleEngine : FakeDNSEngine := {|
  Address := Z;
  GetDomainFromFakeDNS a := if a =? 198 then "a.org" else "";
  IsIPInPool := Some (λ a, a <=? 200)
|}.

(** A sniffer that knows its first byte. *)
Definition starts (c : ascii) (protocol : string) (payload : string) : sniffed (option SniffResult) :=
  match payload with
  | String a _ => if Ascii.eqb a c then SniffOk (Some (mkSniffResult protocol "b.org" None None)) else SniffErr ErrOther
  | EmptyString => SniffErr ErrNoClue
  end.

Definition exampleNew (engine : bool) (a : Z) : list (protocolSnifferWithMetadata string) :=
  NewSniffer (λ s, bool_decide (s = "")) (starts "G" "http1") (starts "T" "tls") (starts "B" "bittorrent") (starts "Q" "quic") (starts "U" "utp")
    engine (@mkTarget exampleEngine Network_TCP a).

Lemma sniffer_fakedns_witness :
  sniffer "" false Network_TCP [Cached 5 (Some "GET")] (exampleNew true 198)
  = Some (SniffOk (CompositeResult (fakeDNSSniffResult "a.org") (mkSniffResult "http1" "b.org" None None))).
Proof.
  unfold exampleNew. rewrite (sniffer_fakedns (λ s, bool_decide (s = "")) _ _ _ _ _ "" false Network_TCP [Cached 5 (Some "GET")] (@mkTarget exampleEngine Network_TCP 198) ltac:(discriminate)).
  vm_compute. reflexivity.
Defined.

(** An address of the pool without a domain: the combined sniffer would answer. *)
Example combined_never_asked :
  sniffer "" false Network_TCP [Cached 5 (Some "GET")] (exampleNew true 199) = Some (SniffOk (mkSniffResult "http1" "b.org" None None))
  ∧ match exampleNew true 199 with
    | combined :: _ => match protocolSniffer combined "GET" with SniffOk (Some r) => Protocol r | _ => "" end
    | [] => ""
    end = "fakedns+others".
Proof. vm_compute. split; reflexivity. Qed.
End Examples.
End FakeDNSProps.
