(* ===== verification/Services.v ===== *)
(** * The process with its services (cmd/server.go)

    Beside the nodes of Server.v the process runs the services of the agent: the
    subscription proxy, the reports of the machine's status, its realtime
    connections, the client of the edge agent, the limits of the runtime and its
    health. [serverHandle] starts them, [reload] gives them the new configuration
    before it looks after the nodes, and the deferred calls of [serverHandle]
    close them. Here they are put together; each is modelled in its own file.
    Closing a realtime manager waits for its clients, and with it waits the
    goroutine of the loop: the process then hangs where it is, which is a state of
    its own. Closing the nodes is the interface of Machine.v. *)

From Stdlib Require Import Ascii.
From S2P Require Import Prelude GoStrings Panel Conf Realtime Machine MachineProfiles Server.
From S2P Require Import Subproxy SubproxyManager EdgeClient MachineStatus RuntimeSettings Health.

Module Services.
Import Realtime Machine Server.

Section services.
Context `{CoreControl} `{Realtime.NetURL} {RO : RangeOrder string} (EqualFold : string → string → bool).
Context `{Subproxy.Network} `{SubproxyManager.Files} {S : Type} `{EdgeClient.Transport S}.

Record AgentServices := mkServices {
  proxy : SubproxyManager.Agent;
  status : MachineStatus.Kept (list Conf.MachineProfileConfig);
  realtime : MachineStatus.Kept MachineStatus.Manager;
  edge : EdgeClient.edgeControlState;
  edgeAgent : S;
  tuning : RuntimeSettings.runtimeTuningState * RuntimeSettings.GoRuntime;
  healthWorld : Health.HealthWorld
}.

(** When a reload happens: before, for the configuration, and after; the public
    address that is detected for the proxy; and whether the realtime clients of the
    machine come to their end when they are closed. *)
Record Instant := mkInstant {
  before : Health.Moment;
  during : Health.Moment;
  after : Health.Moment;
  detected : result string;
  clientsEnd : bool
}.

Definition withHealth (h : Health.HealthWorld) (sv : AgentServices) : AgentServices :=
  mkServices (proxy sv) (status sv) (realtime sv) (edge sv) (edgeAgent sv) (tuning sv) h.

(** What [serverHandle] and [reload] do with a configuration before they look
    after the nodes. An error of the proxy is logged. *)
Definition applyServices (i : Instant) (cfg : Conf.Conf) (sv : AgentServices)
    : MachineStatus.Returns AgentServices (AgentServices * RuntimeSettings.appliedRuntimeSettings) :=
  let proxy := (SubproxyManager.Apply (Health.now (during i)) (detected i) (Conf.cf_Agent cfg) (proxy sv)).1 in
  let status := MachineStatus.applyStatus (Conf.cf_Machine cfg) (status sv) in
  match MachineStatus.applyRealtime (clientsEnd i) (Conf.cf_Machine cfg) (Conf.cf_Realtime cfg) (realtime sv) with
  | MachineStatus.Waits realtime =>
      MachineStatus.Waits (mkServices proxy status realtime (edge sv) (edgeAgent sv) (tuning sv) (healthWorld sv))
  | MachineStatus.Returned realtime =>
      let '(edge, s) := EdgeClient.Apply (Conf.cf_Edge cfg) (edge sv) (edgeAgent sv) in
      let '(state, go) := tuning sv in
      let '(tuning, applied) := RuntimeSettings.applyRuntimeSettings (Conf.cf_Runtime cfg) state go in
      MachineStatus.Returned (mkServices proxy status realtime edge s tuning (healthWorld sv), applied)
  end.

(** [health.UpdateConfig] *)
Definition updateHealth (i : Instant) (cfg : Conf.Conf) (applied : RuntimeSettings.appliedRuntimeSettings) (sv : AgentServices) : AgentServices :=
  withHealth (Health.UpdateConfig (during i) cfg applied (healthWorld sv)) sv.

(** [health.MarkReady] *)
Definition markReady (t : Health.Moment) (b : bool) (sv : AgentServices) : AgentServices :=
  withHealth (Health.MarkReady t b (healthWorld sv)) sv.

(** [reloadEdgeForReload] *)
Definition reloadEdge (sv : AgentServices) : AgentServices :=
  mkServices (proxy sv) (status sv) (realtime sv) (edge sv) (EdgeClient.Reload (edge sv) (edgeAgent sv)) (tuning sv) (healthWorld sv).

(** The deferred function of [serverHandle]: the realtime manager is closed first. *)
Definition closeServices (i : Instant) (sv : AgentServices) : MachineStatus.Returns AgentServices AgentServices :=
  match MachineStatus.closeRealtime (clientsEnd i) (realtime sv) with
  | MachineStatus.Waits realtime =>
      MachineStatus.Waits (mkServices (proxy sv) (status sv) realtime (edge sv) (edgeAgent sv) (tuning sv) (healthWorld sv))
  | MachineStatus.Returned realtime =>
      MachineStatus.Returned
        (mkServices (SubproxyManager.Close (Health.now (after i)) (proxy sv)) (MachineStatus.keptClose (status sv)) realtime
           (edge sv) (edgeAgent sv) (tuning sv) (healthWorld sv))
  end.

Record Full := mkFull { process : Process; services : AgentServices }.

(** What a call of the loop comes to: a result, a panic, or it hangs. *)
Inductive Outcome (A : Type) := Finished (a : A) | Panics | Hangs (w : World) (sv : AgentServices).
#[global] Arguments Finished {A}.
#[global] Arguments Panics {A}.
#[global] Arguments Hangs {A}.

(** [reload] with the services. *)
Definition reloadFull (i : Instant) (o : Outside) (f : Full) : Outcome (Full * option GoError) :=
  match nextConf EqualFold o with
  | (_, Some e) => Finished (f, Some e)
  | (cfg, None) =>
      match applyServices i cfg (services f) with
      | MachineStatus.Waits sv => Hangs (world (process f)) sv
      | MachineStatus.Returned (sv, applied) =>
          match reload EqualFold o (process f) with
          | None => Panics
          | Some (p, Some e) => Finished (mkFull p sv, Some e)
          | Some (p, None) => Finished (mkFull p (reloadEdge (updateHealth i cfg applied sv)), None)
          end
      end
  end.

(** In the loop, at its end, waiting for ever, and after a panic. *)
Inductive FullState := Up (f : Full) | Down (w : World) (sv : AgentServices) | Hanging (w : World) (sv : AgentServices) | Panicked.

(** The end of [serverHandle], when the nodes and the core are closed. *)
Definition down (i : Instant) (w : World) (sv : AgentServices) : FullState :=
  match closeServices i sv with
  | MachineStatus.Returned sv => Down w sv
  | MachineStatus.Waits sv => Hanging w sv
  end.

(** What happens: something for the loop, at some time, or a step of the goroutine of
    a server of the proxy. *)
Inductive fullEvent :=
| Main (i : Instant) (e : serverEvent)
| Goroutine (ev : SubproxyManager.proxyEvent).

Definition withProxy (a : SubproxyManager.Agent) (sv : AgentServices) : AgentServices :=
  mkServices a (status sv) (realtime sv) (edge sv) (edgeAgent sv) (tuning sv) (healthWorld sv).

(** Applying and closing is not for goroutines. *)
Definition goroutine (ev : SubproxyManager.proxyEvent) (sv : AgentServices) : AgentServices :=
  match ev with
  | SubproxyManager.EvApply _ _ _ | SubproxyManager.EvClose _ => sv
  | _ => withProxy (SubproxyManager.proxyStep ev (proxy sv)) sv
  end.

Definition mainStep (i : Instant) (e : serverEvent) (f : Full) : FullState :=
  match e with
  | ReloadMessage o =>
      match dequeue (reloadCh (process f)) with
      | None => Up f
      | Some (_, ch) =>
          let p := withReady false (withReloadCh ch (process f)) in
          match reloadFull i o (mkFull p (markReady (before i) false (services f))) with
          | Finished (f, None) => Up (mkFull (withReady true (process f)) (markReady (after i) true (services f)))
          | Hangs w sv => Hanging w sv
          | _ => Panicked
          end
      end
  | OsSignal => down i (shutdown (process f)) (services f)
  | _ =>
      match serverStep EqualFold e (Running (process f)) with
      | Running p => Up (mkFull p (services f))
      | Exited w => Down w (services f)
      | Crashed => Panicked
      end
  end.

Definition fullStep (e : fullEvent) (s : FullState) : FullState :=
  match s, e with
  | Up f, Main i e => mainStep i e f
  | Up f, Goroutine ev => Up (mkFull (process f) (goroutine ev (services f)))
  | Hanging w sv, Goroutine ev => Hanging w (goroutine ev sv)
  | _, _ => s
  end.

Definition fullLoop (es : list fullEvent) (s : FullState) : FullState := foldl (λ s e, fullStep e s) s es.

(** [serverHandle] up to its loop. A configuration that does not load, or whose
    profiles are not resolved, ends it before there is a service; an error later
    on runs what is deferred by then. [watch] is the error of watching the file. *)
Definition serverHandle (i : Instant) (o : Outside) (watch : option GoError) (w : World) (sv : AgentServices) : FullState :=
  match nextConf EqualFold o with
  | (_, Some _) => Down w sv
  | (cfg, None) =>
      match applyServices i cfg sv with
      | MachineStatus.Waits sv => Hanging w sv
      | MachineStatus.Returned (sv, applied) =>
          let sv := updateHealth i cfg applied sv in
          match newNodeForConfig o cfg w with
          | Err _ => down i w sv
          | Ok (n, w) =>
              match startCore cfg (NodeInfos n) w with
              | None => Panicked
              | Some (w, Some _) => down i w sv
              | Some (w, None) =>
                  match Start (Conf.cf_Nodes cfg) n w with
                  | (_, w, Some _) => down i (closeCore w).1 sv
                  | (n, w, None) =>
                      let p := mkProcess n w (Some cfg) (Some cfg) true (mkChan 1 []) in
                      let sv := markReady (after i) true sv in
                      match watch with
                      | Some _ => down i (shutdown p) sv
                      | None => Up (mkFull p sv)
                      end
                  end
              end
          end
      end
  end.
End services.
End Services.
