(* ===== verification/ServicesProps.v ===== *)
(** * The services follow the configuration of the nodes

    In every state of the loop the services of the agent belong to the same
    configuration as the nodes and the answers of the health port
    ([services_follow]); and the end of the process leaves none of them, or hangs
    at the realtime clients of the machine ([services_close], [signal_hangs]). *)

From Stdlib Require Import Ascii.
From S2P Require Import Prelude GoStrings Panel Conf ConfProps Realtime Machine MachineProps MachineProfiles MachineProfilesProps Server ServerProps.
From S2P Require Import Subproxy SubproxyManager SubproxyProps EdgeClient MachineStatus MachineStatusProps RuntimeSettings Health Services.

Module ServicesProps.
Import Realtime Machine Server Services.

Section services.
Context `{CoreControl} `{Realtime.NetURL} {RO : RangeOrder string} (EqualFold : string → string → bool).
Context `{Subproxy.Network} `{SubproxyManager.Files} {S : Type} `{EdgeClient.Transport S}.
Implicit Types (i : Instant) (f : Full (S := S)) (sv : AgentServices (S := S)).

(** The texts of a configuration can be told apart in its fingerprints. *)
Definition cleanFor i (cfg : Conf.Conf) : Prop :=
  MachineStatusProps.plainMachine (Conf.cf_Machine cfg) ∧ MachineStatusProps.plainRealtime (Conf.cf_Realtime cfg)
  ∧ SubproxyProps.cleanConfig (detected i) (Conf.cf_Agent cfg).

Definition cleanOutside i (o : Outside) : Prop := ∀ cfg, nextConf EqualFold o = (cfg, None) → cleanFor i cfg.

Definition cleanEvent (e : fullEvent) : Prop :=
  match e with Main i (ReloadMessage o) => cleanOutside i o | _ => True end.

(** The client of the edge agent that a configuration asks for. *)
Definition edgeClientOf (cfg : Conf.Conf) : option EdgeClient.Client :=
  if Conf.ec_Enabled (Conf.cf_Edge cfg)
  then Some (EdgeClient.NewClient (Conf.ec_URL (Conf.cf_Edge cfg)) (wrap64 (Conf.ec_Timeout (Conf.cf_Edge cfg) * second))) else None.

(** What holds of the services whatever was applied and closed. *)
Definition sound sv : Prop :=
  MachineStatusProps.keptInv MachineStatus.machineStatusFingerprint MachineStatusProps.goodProfiles (status sv)
  ∧ MachineStatusProps.keptInv MachineStatusProps.managerFingerprint MachineStatusProps.goodManager (realtime sv)
  ∧ SubproxyProps.knows (proxy sv).

(** The services are those of a configuration. *)
Definition follow (cfg : Conf.Conf) sv : Prop :=
  MachineStatusProps.reports (Conf.cf_Machine cfg) (MachineStatus.runningServices (status sv))
  ∧ MachineStatusProps.connects (Conf.cf_Machine cfg) (Conf.cf_Realtime cfg) (MachineStatus.runningServices (realtime sv))
  ∧ EdgeClient.client (edge sv) = edgeClientOf cfg.

(** The health shows a configuration. *)
Definition shows (cfg : Conf.Conf) sv : Prop :=
  Health.nodeCount (Health.state (healthWorld sv)) = Z.of_nat (length (Conf.cf_Nodes cfg))
  ∧ Health.realtimeEnabled (Health.state (healthWorld sv))
    = Conf.rc_Enabled (Conf.cf_Realtime cfg) || bool_decide (Conf.rc_URL (Conf.cf_Realtime cfg) ≠ "").

(** The nodes are those of a configuration: each configured node is listed or
    recorded as failed, and if none failed no other is listed. *)
Definition nodesOf (cfg : Conf.Conf) (n : Node) : Prop :=
  (∀ d, d ∈ Conf.cf_Nodes cfg → MachineProps.accounted n d)
  ∧ (failures n = [] → ∀ c, c ∈ configs n → machineNodeKey c ∈ machineNodeKey <$> Conf.cf_Nodes cfg).

Lemma applyServices_follow i cfg sv sv' applied : cleanFor i cfg → sound sv →
  applyServices i cfg sv = MachineStatus.Returned (sv', applied) → sound sv' ∧ follow cfg sv'.
Proof.
  intros (Hm & Hr & Hx) (Hs1 & Hs2 & Hs3). unfold applyServices.
  destruct (MachineStatus.applyRealtime _ _ _ _) as [rt|] eqn:Er; [|done]. apply MachineStatusProps.applyRealtime_returned in Er as ->.
  destruct (EdgeClient.Apply _ _ _) as [ed s] eqn:Ee.
  destruct (tuning sv) as [st go]. destruct (RuntimeSettings.applyRuntimeSettings _ _ _) as [tn ap]. intros [= <- _]. split; split_and!; cbn.
  - by apply MachineStatusProps.applyStatus_inv.
  - by apply MachineStatusProps.applied_inv.
  - by apply SubproxyProps.Apply_knows.
  - by apply MachineStatusProps.applyStatus_running.
  - by apply MachineStatusProps.applied_running.
  - revert Ee. unfold EdgeClient.Apply, edgeClientOf. destruct (Conf.ec_Enabled _); cbn [negb]; [|by intros [= <- _]].
    destruct (EdgeClient.GetHealth _ _). by intros [= <- _].
Qed.

Lemma applyServices_proxy i cfg sv sv' applied : applyServices i cfg sv = MachineStatus.Returned (sv', applied) →
  proxy sv' = (SubproxyManager.Apply (Health.now (during i)) (detected i) (Conf.cf_Agent cfg) (proxy sv)).1.
Proof.
  unfold applyServices. destruct (MachineStatus.applyRealtime _ _ _ _); [|done]. destruct (EdgeClient.Apply _ _ _), (tuning sv).
  destruct (RuntimeSettings.applyRuntimeSettings _ _ _). by intros [= <- _].
Qed.

(** Nodes that were built from the configuration and started. *)
Lemma newNodeForConfig_nodes o cfg w n w1 n' w2 w3 :
  newNodeForConfig o cfg w = Ok (n, w1) → Start (Conf.cf_Nodes cfg) n w2 = (n', w3, None) → nodesOf cfg n'.
Proof.
  unfold newNodeForConfig, newWithFactory. destruct (newNodes _ _ _ _ _ w) as [[n0 w0]|] eqn:E; [|done]. destruct (_ && _); [done|].
  apply MachineProps.newNodes_accounts in E as (Hlen & Ha & Hb); [|done]. cbn in Ha, Hb.
  intros [= <- _] [Hs1 Hs2]%MachineProps.Start_accounts; [|exact Hlen]. cbn in Hs1, Hs2. split.
  - intros d Hd. destruct (Hs1 d (Ha d (or_introl Hd))) as [?|?]; [right; by apply (list_elem_of_fmap_2 machineNodeKey)|by left].
  - intros _ c Hc%Hs2%Hb. destruct Hc as [?%elem_of_nil|?]; [done|]. by apply list_elem_of_fmap_2.
Qed.

(** A reload without an error leaves the process with the configuration. *)
Lemma reload_conf o p p' cfg : nextConf EqualFold o = (cfg, None) → reload EqualFold o p = Some (p', None) →
  agent p' = Some cfg ∧ health p' = Some cfg ∧ ready p' = ready p ∧ nodesOf cfg (nodes p').
Proof.
  intros Hc. unfold reload. rewrite Hc.
  assert (Hb : ∀ q, rebuild o cfg q = Some (p', None) → agent p' = Some cfg ∧ health p' = Some cfg ∧ ready p' = ready q ∧ nodesOf cfg (nodes p')).
  { intros q. unfold rebuild. destruct (Close _ _) as [[? ?] [?|]]; [done|]. destruct (closeCore _) as [? [?|]]; [done|].
    destruct (newNodeForConfig _ _ _) as [[? ?]|] eqn:En; [|done]. destruct (startCore _ _ _) as [[? [?|]]|]; [done| |done].
    destruct (Start _ _ _) as [[? ?] [?|]] eqn:Es; [done|]. intros [= <-]. split_and!; [done..|]. by eapply newNodeForConfig_nodes. }
  destruct (Conf.mc_Enabled _); [|apply Hb]. destruct (reconcileMachine _ _ _ _) as [[n w] [r|e]] eqn:Er; [|done].
  destruct (FullReloadRequired r) eqn:Hf; [by intros Hr%Hb|]. intros [= <-]. split_and!; [done..|].
  by apply MachineProps.reconcile_accounts in Er.
Qed.

(** What holds in the loop. *)
Definition inLoop f : Prop :=
  sound (services f) ∧ ready (process f) = true ∧ Health.ready (Health.state (healthWorld (services f))) = true
  ∧ ∃ cfg, agent (process f) = Some cfg ∧ health (process f) = Some cfg ∧ nodesOf cfg (nodes (process f))
      ∧ follow cfg (services f) ∧ shows cfg (services f).

Lemma quiet_step e p p' : (∀ o, e ≠ ReloadMessage o) → e ≠ OsSignal → serverStep EqualFold e (Running p) = Running p' →
  agent p' = agent p ∧ health p' = health p ∧ ready p' = ready p ∧ nodes p' = nodes p.
Proof.
  intros Hr Ho. destruct e as [| |file|o| |]; cbn; [done| | |by destruct (Hr o)| |]; try (by intros [= <-]).
  - case_bool_decide; by intros [= <-].
  - unfold queueMachineReconcileIfEnabled. destruct (Conf.LoadFromPath _ _) as [cfg [e|]]; [by intros [= <-]|].
    destruct (Conf.mc_Enabled _); by intros [= <-].
Qed.

Lemma goroutine_keeps ev sv : sound sv →
  sound (goroutine ev sv) ∧ (SubproxyProps.only (proxy sv) → SubproxyProps.only (proxy (goroutine ev sv)))
  ∧ status (goroutine ev sv) = status sv ∧ realtime (goroutine ev sv) = realtime sv
  ∧ edge (goroutine ev sv) = edge sv ∧ healthWorld (goroutine ev sv) = healthWorld sv.
Proof.
  intros (H1' & H2' & H3'). destruct ev as [now d cfg|now|srv out|srv e|now srv]; unfold goroutine;
    try (split_and!; by (done || auto)).
  1: destruct (SubproxyProps.proxyStep_knows (SubproxyManager.EvBind srv out) (proxy sv) H3' I) as [K1 K2].
  2: destruct (SubproxyProps.proxyStep_knows (SubproxyManager.EvFail srv e) (proxy sv) H3' I) as [K1 K2].
  3: destruct (SubproxyProps.proxyStep_knows (SubproxyManager.EvReport now srv) (proxy sv) H3' I) as [K1 K2].
  all: split_and!; [by split_and!|intros Ho; by apply K2|done..].
Qed.

Lemma fullStep_inLoop e f f' : cleanEvent e → inLoop f → fullStep EqualFold e (Up f) = Up f' → inLoop f'.
Proof.
  intros Hcl Hf. destruct e as [i e|ev].
  2: { cbn. intros [= <-]. destruct Hf as (Hso & Hre & Hhr & cfg & Ha & Hh & Hno & (F1 & F2 & F3) & [G1 G2]).
       destruct (goroutine_keeps ev _ Hso) as (Hso' & _ & E1 & E2 & E3 & E4). unfold inLoop. cbn [process services].
       split_and!; [done|done|by rewrite E4|]. exists cfg. unfold follow, shows. rewrite E1, E2, E3, E4. by split_and!. }
  assert (Hquiet : (∀ o, e ≠ ReloadMessage o) → e ≠ OsSignal → ∀ p', serverStep EqualFold e (Running (process f)) = Running p' →
    inLoop (mkFull p' (services f))).
  { intros Hr Ho p' Hs. destruct (quiet_step _ _ _ Hr Ho Hs) as (Ea & Eh & Er & En). destruct Hf as (Hso & Hre & Hhr & cfg & Ha & Hh & Hno & Hfo & Hsh).
    split_and!; cbn; [done|congruence|done|]. exists cfg. rewrite En. split_and!; [congruence|congruence|done..]. }
  unfold fullStep, mainStep. destruct e as [| |file|o| |].
  1: unfold down; by destruct (closeServices _ _).
  1,2,4,5: destruct (serverStep EqualFold _ _) as [p'| |] eqn:E; [|done|done]; intros [= <-]; by apply Hquiet.
  destruct (dequeue _) as [[[] ch]|]; [|by intros [= <-]]. unfold reloadFull. cbn [process services].
  destruct (nextConf EqualFold o) as [cfg [e|]] eqn:Ec; [done|]. destruct (applyServices i cfg _) as [[sv ap]|sv] eqn:Es; [|done].
  apply applyServices_follow in Es as [Hso Hfo]; [|by apply Hcl|exact (proj1 Hf)].
  destruct (reload EqualFold o _) as [[p [e|]]|] eqn:Er; [done| |done]. intros [= <-].
  apply (reload_conf o _ p cfg Ec) in Er as (Ha & Hh & _ & Hno). split_and!; [exact Hso|done|done|].
  exists cfg. split_and!; [done|done|exact Hno|exact Hfo|split; reflexivity].
Qed.

Lemma serverHandle_inLoop i o watch w sv f : cleanOutside i o → sound sv → serverHandle EqualFold i o watch w sv = Up f → inLoop f.
Proof.
  intros Hcl Hso. unfold serverHandle, down. destruct (nextConf EqualFold o) as [cfg [e|]] eqn:Ec; [done|].
  destruct (applyServices i cfg sv) as [[sv' ap]|sv'] eqn:Es; [|done]. apply applyServices_follow in Es as [Hso' Hfo]; [|by apply Hcl|done].
  destruct (newNodeForConfig _ _ _) as [[n w1]|] eqn:En; [|by destruct (closeServices _ _)].
  destruct (startCore _ _ _) as [[w2 [?|]]|]; [by destruct (closeServices _ _)| |done].
  destruct (Start _ _ _) as [[n' w3] [?|]] eqn:Est; [by destruct (closeServices _ _)|]. destruct watch; [by destruct (closeServices _ _)|]. intros [= <-].
  split_and!; [exact Hso'|done|done|]. exists cfg. split_and!; [done|done| |exact Hfo|split; reflexivity].
  by eapply newNodeForConfig_nodes.
Qed.

Lemma fullLoop_Up es s f : fullLoop EqualFold es s = Up f → ∃ f0, s = Up f0.
Proof.
  revert s. induction es as [|e es IH]; intros s; cbn; [by eexists|]. intros [f0 Hf0]%IH.
  destruct s as [f1|w sv|w sv|]; [by eexists| |by destruct e|]; by destruct e.
Qed.

Lemma fullLoop_inLoop es f f' : Forall cleanEvent es → inLoop f → fullLoop EqualFold es (Up f) = Up f' → inLoop f'.
Proof.
  intros He. revert f. induction He as [|e es He _ IH]; intros f Hf; [by intros [= <-]|]. unfold fullLoop. cbn [foldl]. intros Hl.
  destruct (fullLoop_Up _ _ _ Hl) as [f1 E]. rewrite E in Hl. apply (IH f1); [|exact Hl]. by eapply fullStep_inLoop.
Qed.

(** C14. From the start of the process, on every sequence of events, while the loop runs:
    there is one configuration that the nodes, the services and the health
    belong to. Each of its nodes is listed or recorded as failed, and if none
    failed no other node is listed; one reporter and one realtime manager run if
    it asks for them, with the machines (host, number and key) and the options it
    has, and none otherwise; the edge agent is the one it names; and the health
    says that the process is ready. (Configurations whose texts their fingerprints
    can tell apart.) *)
Theorem services_follow i o watch w sv f0 es f :
  cleanOutside i o → Forall cleanEvent es → sound sv →
  serverHandle EqualFold i o watch w sv = Up f0 → fullLoop EqualFold es (Up f0) = Up f →
  ∃ cfg, agent (process f) = Some cfg ∧ health (process f) = Some cfg
  ∧ ((∀ d, d ∈ Conf.cf_Nodes cfg → MachineProps.accounted (nodes (process f)) d)
     ∧ (failures (nodes (process f)) = [] →
        ∀ c, c ∈ configs (nodes (process f)) → machineNodeKey c ∈ machineNodeKey <$> Conf.cf_Nodes cfg))
  ∧ follow cfg (services f) ∧ shows cfg (services f)
  ∧ ready (process f) = true ∧ Health.ready (Health.state (healthWorld (services f))) = true.
Proof.
  intros Hcl He Hso Hb Hl. apply serverHandle_inLoop in Hb; [|done|done].
  destruct (fullLoop_inLoop es f0 f He Hb Hl) as (_ & Hr & Hhr & cfg & Ha & Hh & Hno & Hfo & Hsh). by exists cfg.
Qed.

(** ** The end of the process *)

(** A configuration is applied, or the process ends, only when no failure of a
    server of the proxy waits to be told. *)
Fixpoint settledLoop (es : list fullEvent) (s : FullState) : Prop :=
  match es with
  | [] => True
  | e :: es =>
      match e, s with
      | Main _ (ReloadMessage _), Up f | Main _ OsSignal, Up f => SubproxyProps.settled (proxy (services f))
      | _, _ => True
      end ∧ settledLoop es (fullStep EqualFold e s)
  end.

Lemma fullStep_only e f f' : cleanEvent e → inLoop f → SubproxyProps.only (proxy (services f)) →
  match e with Main _ (ReloadMessage _) => SubproxyProps.settled (proxy (services f)) | _ => True end →
  fullStep EqualFold e (Up f) = Up f' → SubproxyProps.only (proxy (services f')).
Proof.
  intros Hcl Hf Ho. destruct e as [i e|ev]; [|intros _ [= <-]; apply goroutine_keeps; [apply Hf|exact Ho]].
  unfold fullStep, mainStep. destruct e as [| |file|o| |].
  1: unfold down; by destruct (closeServices _ _).
  1,2,4,5: intros _; destruct (serverStep EqualFold _ _) as [p'| |] eqn:E; [|done|done]; by intros [= <-].
  intros Hset. destruct (dequeue _) as [[[] ch]|]; [|by intros [= <-]]. unfold reloadFull. cbn [process services].
  destruct (nextConf EqualFold o) as [cfg [e|]] eqn:Ec; [done|]. destruct (applyServices i cfg _) as [[sv ap]|sv] eqn:Es; [|done].
  apply applyServices_proxy in Es. destruct (reload EqualFold o _) as [[p [e|]]|] eqn:Er; [done| |done]. intros [= <-].
  change (SubproxyProps.only (proxy sv)). rewrite Es. apply SubproxyProps.Apply_knows; [apply Hf|by apply Hcl|exact Ho|exact Hset].
Qed.

Lemma fullLoop_only es f f' : Forall cleanEvent es → inLoop f → SubproxyProps.only (proxy (services f)) →
  settledLoop es (Up f) → fullLoop EqualFold es (Up f) = Up f' → SubproxyProps.only (proxy (services f')).
Proof.
  intros He. revert f. induction He as [|e es He _ IH]; intros f Hf Ho Hs; [by intros [= <-]|]. unfold fullLoop. cbn [foldl]. intros Hl.
  destruct (fullLoop_Up _ _ _ Hl) as [f1 E]. rewrite E in Hl. destruct Hs as [Hs Hss]. rewrite E in Hss.
  apply (IH f1); [by eapply fullStep_inLoop| |done|exact Hl]. eapply fullStep_only; [done|done|done| |exact E]. by destruct e as [i []|].
Qed.

Lemma settledLoop_app es es' s : settledLoop (es ++ es') s ↔ settledLoop es s ∧ settledLoop es' (fullLoop EqualFold es s).
Proof. revert s. induction es as [|e es IH]; intros s; cbn; [tauto|]. rewrite IH. unfold fullLoop. tauto. Qed.

Lemma closeServices_none i sv sv' : sound sv → closeServices i sv = MachineStatus.Returned sv' →
  MachineStatus.runningServices (status sv') = [] ∧ MachineStatus.runningServices (realtime sv') = []
  ∧ (SubproxyProps.only (proxy sv) → SubproxyProps.settled (proxy sv) → SubproxyProps.only (proxy sv'))
  ∧ SubproxyManager.server (SubproxyManager.manager (proxy sv')) = None.
Proof.
  intros (H1' & H2' & H3'). unfold closeServices.
  destruct (MachineStatus.closeRealtime _ _) as [rt|] eqn:Er; [|done]. apply MachineStatusProps.closeRealtime_returned in Er as ->.
  intros [= <-]. cbn. split_and!.
  - by eapply MachineStatusProps.keptClose_running, H1'.
  - by eapply MachineStatusProps.keptClose_running, H2'.
  - intros Ho Hs. by apply SubproxyProps.forgotten_only.
  - done.
Qed.

Lemma fullLoop_Down es w sv : fullLoop EqualFold es (Down w sv) = Down w sv.
Proof. induction es as [|e es IH]; [done|]. unfold fullLoop. cbn [foldl]. by destruct e. Qed.

Lemma goroutine_status ev sv : status (goroutine ev sv) = status sv.
Proof. by destruct ev. Qed.

Lemma fullLoop_Hanging es w sv : ∃ sv', fullLoop EqualFold es (Hanging w sv) = Hanging w sv' ∧ status sv' = status sv.
Proof.
  revert sv. induction es as [|e es IH]; intros sv; [by exists sv|]. unfold fullLoop. cbn [foldl].
  destruct e as [i e|ev]; [apply IH|]. destruct (IH (goroutine ev sv)) as (sv' & ? & E). exists sv'. by rewrite goroutine_status in E.
Qed.

(** C27. The signal that ends the process, when nodes and core are closed. If the
    realtime clients of the machine come to their end, or there are none, the
    process ends, with no reporter and no realtime connection of the machine
    left, and nothing starts again; and if no configuration was applied over a
    failure that waited to be told, no server of subscriptions is left either.
    If they do not, the process hangs, whatever happens later, and its reporter
    is not stopped. *)
Theorem services_close i o watch w sv f0 es f i' es' :
  cleanOutside i o → Forall cleanEvent es → sound sv →
  serverHandle EqualFold i o watch w sv = Up f0 → fullLoop EqualFold es (Up f0) = Up f →
  let s' := fullLoop EqualFold (es ++ Main i' OsSignal :: es') (Up f0) in
  if MachineStatus.closeWaits (clientsEnd i') (realtime (services f)) then
    ∃ w' sv', s' = Hanging w' sv' ∧ status sv' = status (services f)
  else
    ∃ w' sv', s' = Down w' sv'
    ∧ MachineStatus.runningServices (status sv') = [] ∧ MachineStatus.runningServices (realtime sv') = []
    ∧ (SubproxyProps.only (proxy (services f0)) → settledLoop (es ++ [Main i' OsSignal]) (Up f0) →
       ∀ s what life, SubproxyManager.servers (proxy sv') !! s = Some (what, life) → SubproxyProps.isSubscriptions what = false).
Proof.
  intros Hcl He Hso Hb Hl s'. apply serverHandle_inLoop in Hb; [|done|done].
  pose proof (fullLoop_inLoop es f0 f He Hb Hl) as (Hs & _).
  assert (E : s' = fullLoop EqualFold es' (down i' (shutdown (process f)) (services f))).
  { unfold s', fullLoop in *. rewrite foldl_app, Hl. done. }
  unfold down in E. destruct (MachineStatus.closeWaits _ _) eqn:Hw.
  - assert (Ec : ∃ sv0, closeServices i' (services f) = MachineStatus.Waits sv0 ∧ status sv0 = status (services f)).
    { unfold closeServices, MachineStatus.closeRealtime. rewrite Hw. by eexists. }
    destruct Ec as (sv0 & Ec & Hst). rewrite Ec in E. destruct (fullLoop_Hanging es' (shutdown (process f)) sv0) as (sv' & E' & Hst').
    exists (shutdown (process f)), sv'. split; congruence.
  - assert (Ec : ∃ sv', closeServices i' (services f) = MachineStatus.Returned sv').
    { unfold closeServices, MachineStatus.closeRealtime. rewrite Hw. by eexists. }
    destruct Ec as (sv' & Ec). rewrite Ec, fullLoop_Down in E. exists (shutdown (process f)), sv'. split; [done|].
    destruct (closeServices_none i' _ _ Hs Ec) as (Hst & Hrt & Hpx & Hserver). split_and!; [done|done|].
    intros Ho [Hes Hset]%settledLoop_app. rewrite Hl in Hset. destruct Hset as [Hset _].
    intros s what life Hlook. destruct (SubproxyProps.isSubscriptions what) eqn:Esub; [|done].
    pose proof (Hpx (fullLoop_only es f0 f He Hb Ho Hes Hl) Hset s what life Hlook Esub) as Hsv. congruence.
Qed.
End services.

Module Examples.
#[local] Existing Instance MachineProps.Examples.exampleOps.
#[local] Existing Instance MachineProps.Examples.exampleOrder.
#[local] Existing Instance MachineProfilesProps.Examples.exampleURL.
#[local] Existing Instance ServerProps.Examples.exampleCore.
#[local] Existing Instance SubproxyProps.Examples.exampleNetwork.
#[local] Existing Instance SubproxyProps.Examples.exampleFiles.

(** An edge agent that cannot be reached. *)
#[local] Instance exampleTransport : EdgeClient.Transport unit := λ _ _ s, (s, Err (errorf "connection refused")).

Definition fold : string → string → bool := MachineProfilesProps.Examples.exampleFold.

Definition moment (t : Z) : Health.Moment := Health.mkMoment t "v1" 9.

Definition instant (t : Z) : Instant := mkInstant (moment t) (moment t) (moment t) SubproxyProps.Examples.noAddress true.

(** The services of a process that starts. *)
Definition fresh_ : AgentServices :=
  mkServices (SubproxyManager.NewManager 0 SubproxyProps.Examples.exampleDisk) MachineStatus.newKept MachineStatus.newKept
    (EdgeClient.mkControl None) tt (RuntimeSettings.newTuning, RuntimeSettings.mkGoRuntime max_int64 100)
    (Health.newHealthState (moment 0) "/etc/v2node/config.json").

Lemma fresh_sound : sound fresh_.
Proof.
  split_and!; [apply MachineStatusProps.newKept_inv|apply MachineStatusProps.newKept_inv|].
  apply SubproxyProps.NewManager_knows.
Qed.

Definition outside (ids : list Z) : Outside := ServerProps.Examples.exampleOutside (ServerProps.Examples.exampleFile ids).

Definition confOf (ids : list Z) : Conf.Conf := (nextConf fold (outside ids)).1.

Lemma outside_conf ids : ids = [2; 3] ∨ ids = [3] →
  nextConf fold (outside ids) = (confOf ids, None) ∧ Conf.Profiles (Conf.cf_Machine (confOf ids)) = []
  ∧ Conf.cf_Realtime (confOf ids) = Conf.cf_Realtime Conf.New ∧ Conf.cf_Agent (confOf ids) = Conf.cf_Agent Conf.New.
Proof. intros [-> | ->]; split_and!; vm_compute; reflexivity. Qed.

Lemma outside_clean t ids : ids = [2; 3] ∨ ids = [3] → cleanOutside fold (instant t) (outside ids).
Proof.
  intros (E & Hp & Hr & Ha)%outside_conf cfg Hc. rewrite E in Hc. injection Hc as <-. unfold cleanFor. rewrite Hr, Ha. split_and!.
  - unfold MachineStatusProps.plainMachine. rewrite Hp. apply Forall_nil_2.
  - unfold MachineStatusProps.plainRealtime. split; [|split; apply (bool_decide_unpack _); vm_compute; exact I].
    apply (bool_decide_unpack _). vm_compute. exact I.
  - intros n Hn. vm_compute in Hn. injection Hn as <-.
    (split; [apply (bool_decide_unpack _); vm_compute; exact I|vm_compute; split; [discriminate|reflexivity]]).
Qed.

Definition startedServer : FullState := serverHandle fold (instant 1) (outside [2; 3]) None MachineProps.Examples.exampleStart fresh_.

(** The file changes, and then a node is gone. *)
Definition events : list fullEvent := [Main (instant 2) FileChanged; Main (instant 3) (ReloadMessage (outside [3]))].

Lemma events_clean : Forall (cleanEvent fold) events.
Proof. repeat apply Forall_cons_2; [exact I|apply outside_clean; by right|apply Forall_nil_2]. Qed.

Lemma services_follow_witness :
  match startedServer with
  | Up f0 => match fullLoop fold events (Up f0) with
             | Up f => ∃ cfg, agent (process f) = Some cfg ∧ health (process f) = Some cfg ∧ shows cfg (services f)
                 ∧ ∀ d, d ∈ Conf.cf_Nodes cfg → MachineProps.accounted (nodes (process f)) d
             | _ => False
             end
  | _ => False
  end.
Proof.
  assert (Hrun : match startedServer with Up f0 => match fullLoop fold events (Up f0) with Up _ => true | _ => false end | _ => false end = true)
    by (vm_compute; reflexivity).
  destruct startedServer as [f0| | |] eqn:E0; [|discriminate Hrun..]. destruct (fullLoop fold events (Up f0)) as [f| | |] eqn:E; [|discriminate Hrun..].
  destruct (services_follow fold (instant 1) (outside [2; 3]) None MachineProps.Examples.exampleStart fresh_ f0 events f
    (outside_clean 1 [2; 3] (or_introl eq_refl)) events_clean fresh_sound E0 E) as (cfg & Ha & Hh & [Hn _] & _ & Hs & _).
  exists cfg. split; [exact Ha|]. split; [exact Hh|]. split; [exact Hs|exact Hn].
Defined.

Lemma services_close_witness :
  match startedServer with
  | Up f0 => match fullLoop fold (events ++ [Main (instant 4) OsSignal]) (Up f0) with
             | Down _ sv => MachineStatus.runningServices (status sv) = []
             | _ => False
             end
  | _ => False
  end.
Proof.
  assert (Hrun : match startedServer with
                 | Up f0 => match fullLoop fold events (Up f0) with
                            | Up f => negb (MachineStatus.closeWaits (clientsEnd (instant 4)) (realtime (services f)))
                            | _ => false end
                 | _ => false end = true)
    by (vm_compute; reflexivity).
  destruct startedServer as [f0| | |] eqn:E0; [|discriminate Hrun..]. destruct (fullLoop fold events (Up f0)) as [f| | |] eqn:E; [|discriminate Hrun..].
  pose proof (services_close fold (instant 1) (outside [2; 3]) None MachineProps.Examples.exampleStart fresh_ f0 events f (instant 4) []
    (outside_clean 1 [2; 3] (or_introl eq_refl)) events_clean fresh_sound E0 E) as Hd. cbv zeta in Hd.
  destruct (MachineStatus.closeWaits (clientsEnd (instant 4)) (realtime (services f))); [discriminate Hrun|].
  destruct Hd as (w' & sv' & Hd & Hs & _). rewrite Hd. exact Hs.
Defined.

(** A process whose machine has a connection to a panel that sends nothing any more:
    after the signal it hangs, and its reporter runs on. *)
Example signal_hangs :
  let profiles := MachineStatus.normalizeProfiles (Conf.Profiles (MachineStatusProps.Examples.exampleMachine 5)) in
  let rt := MachineStatus.keptApply "f" (MachineStatus.mkManager profiles (MachineStatusProps.Examples.exampleRealtime 10)) MachineStatus.newKept in
  let st := MachineStatus.keptApply "g" profiles MachineStatus.newKept in
  let sv := mkServices (proxy fresh_) st rt (edge fresh_) tt (tuning fresh_) (healthWorld fresh_) in
  let silent := mkInstant (moment 4) (moment 4) (moment 4) SubproxyProps.Examples.noAddress false in
  match down silent MachineProps.Examples.exampleStart sv with
  | Hanging _ sv' => length (MachineStatus.runningServices (status sv')) = 1%nat
  | _ => False
  end.
Proof. vm_compute. reflexivity. Qed.
End Examples.
End ServicesProps.
